(* ===== verification/_CoqProject ===== *)
-Q . S2P
Prelude.v
Text.v
Vocab.v
Ids.v
Errors.v
Labels.v
Scope.v
Workers.v
Priorities.v
Inputs.v
FollowUps.v
Tasks.v
Goals.v
Proposals.v
Runs.v
ClaimOrder.v
Concern.v
Replans.v
Replacements.v
ReplanPlans.v
ReplanApply.v
EventKinds.v
Events.v
Reasons.v
Reviews.v
Resumes.v
History.v
Satisfied.v
Stranded.v
RunPhase.v
Holds.v
WorkerModels.v
HoldStore.v
HoldTable.v
Actors.v
Authorization.v
Tokens.v
TokenStore.v
TokenFiles.v
TokenTable.v
Findings.v
FindingLedger.v
Asks.v
FindingStore.v
FindingTable.v
AskStore.v
AskRows.v
AskTable.v
Cancels.v
ClaimGraph.v
ProviderSwitches.v
TaskStore.v
TaskTable.v
Turns.v
TurnTable.v
