(* ===== verification/Prelude.v ===== *)
(** * dagq: the decisions of the task queue

    dagq runs a queue of development tasks: tasks are planned, reviewed,
    claimed by a supervisor, worked on in runs by agents, validated, reviewed
    and landed on main one at a time.  Its decisions are pure functions of
    [src/src/domain/]; [src/src/application/] drives them through ports and
    [src/src/infrastructure/] stores what they decide in SQLite.  This library
    models the decisions that keep the queue coherent and proves what they
    promise.

    ** How the code is modelled

    A Rust struct is a [Record] of the same fields, an enum an [Inductive]
    with the same variants, an owned struct that is changed field by field a
    functional update ([r <| f := v |>], below).  [Result<T, DomainError>] is
    the error monad of this file over [DomainError.t] (Errors.v); [e?] is
    [x ← e; k].  Text is [string] read as UTF-8 bytes; [i64] is [Z], with the
    saturating operations written out where the source saturates, [usize] is
    [nat] or [N], and the one [u32] that is counted up wraps
    (Proposals.v).  [BTreeMap] and [HashMap] are stdpp's [gmap], their sets
    [gset]; [sort_by_key] is the stable sort below.  Times are opaque text or
    milliseconds.

    ** The files

    - Prelude: results, record update, machine integers, enums of fixed text
      values, stable sorting, lists kept once, step relations.
    - Text: the operations on text the source uses (trimming, splitting,
      decimal numbers).
    - Vocab: the enums of [domain/mod.rs] and its neighbours declared with
      [string_enum!].
    - Ids, Errors: [domain/ids.rs], [domain/error.rs].
    - Labels: changes and tags ([domain/change.rs], [domain/goal_tag.rs]).
    - Scope: the globs a task declares and the matcher of a diff against them
      ([domain/scope.rs]).
    - Workers: the worker a task resolves to ([domain/worker.rs]).
    - Priorities: priorities and origins at creation, and who may change a
      person's ([domain/plan_request.rs], [domain/authorization.rs]).
    - Inputs: what a task or goal is made and edited with
      ([domain/input.rs]).
    - FollowUps: the judgement of a follow-up ([domain/follow_up.rs]).
    - Tasks, Goals, Proposals, Runs: the four aggregates
      ([domain/task.rs], [goal.rs], [proposal.rs], [run.rs]) with every
      operation on them, and the machine those operations make
      (Modules [TaskInv], [GoalInv], [ProposalInv], [RunInv]: an operation
      type, its execution, the invariant).  Goals also has the close of the
      store ([close_goal_in] of [infrastructure/task_store.rs]).
    - ClaimOrder: the order of claims and slots ([domain/claim_order.rs],
      [slot_order.rs], [light_slots.rs], [claim_spacing.rs],
      [slot_limits.rs]).
    - Concern: what becomes of a review's concern ([domain/concern.rs]).
    - Replans: replanning operations ([domain/task_replan.rs]) and the writes
      on their table ([infrastructure/replans.rs]).
    - Replacements, ReplanApply: the records of applied replacements and the
      loops an apply must not close; the check right before an apply and the
      edges it gives ([domain/replan_apply.rs]).
    - ReplanPlans: the plan of a replacement and its check
      ([domain/replan_plan.rs]).
    - EventKinds, Events, Reasons: the kinds of run events, the event with its
      payload as an interface of JSON values (classes [Payload] and
      [PayloadLaws]), the codes of reasons ([domain/event_kind.rs],
      [views.rs], [reason.rs]).
    - Reviews: what a recorded review lets land ([domain/concern.rs],
      [recheck.rs]).
    - Resumes, History: the count of a run's resumes and the questions its
      history answers ([domain/resume.rs], [run/history.rs]).
    - Satisfied, Stranded, RunPhase: claims that a task is done already, runs
      left without a lease, and the phase a run is in
      ([domain/satisfied.rs], [stranded_landing.rs], [run_phase.rs]).
    - Holds, WorkerModels: holds of tasks with their release, and the models
      of worker sessions ([domain/task_hold.rs], [worker_model.rs]).
    - HoldStore, HoldTable: the transactions on the table of holds
      ([infrastructure/task_holds.rs] with the writes of [task_store.rs] and
      [runtime_store/] that meet them), and what they keep.
    - Actors, Authorization: the actors with their environment, the
      capabilities of the roles and the rules on resources, who may ask for
      whose token ([domain/actor.rs], [session_step.rs],
      [authorization.rs]).
    - Tokens, TokenStore, TokenFiles, TokenTable: the principals of the queue
      service and what a token of one is issued under
      ([domain/queue_service.rs]); the files of the tokens and the use cases
      that issue and revoke them ([infrastructure/queue_service.rs],
      [application/queue_service.rs], [supervisor_service.rs]); what the
      operations on the files keep, and what the use cases promise.
    - Findings, FindingLedger, FindingStore, FindingTable: what is found wrong
      and what a record, a person or a proposal makes of it
      ([domain/finding.rs]); the findings folded from the event log
      ([domain/ledger/findings.rs], [baseline.rs]); the transactions on the
      tables of findings and their planners ([infrastructure/findings.rs],
      [finding_planners.rs], [ci_watch_store.rs]); what those keep.
    - Asks, AskStore, AskRows, AskTable: the questions for a person and the
      readings of an answer ([domain/mod.rs], [queue_hold.rs],
      [recovery.rs], [recheck.rs]); the transactions that open, hold, answer,
      withdraw, close and deliver them ([infrastructure/asks.rs]); what one
      of them leaves in the rows and events, and what any sequence of them
      keeps.  What an answer reads of other components (a run's status and
      lease, where a planner's question goes, who updates the binary) is the
      record [Routes].
    - Cancels, ClaimGraph: the reasons and the record of a cancel
      ([domain/cancel_reason.rs]); the view of the dependencies with the
      priorities that reach a task, the claim order and the critical chain
      ([application/mod.rs]).
    - ProviderSwitches: when a run's worker moves between the providers, waits
      or is called again, the routes of workers, and the holds of providers the
      supervisor records and reads ([domain/provider_switch.rs],
      [supervise/execution/provider.rs]).
    - TaskStore, TaskTable: the transactions that add, edit, move, cancel and
      claim tasks, make them wait, and open and close goals
      ([infrastructure/task_store.rs], [store_writes.rs], [store_rows.rs]), over
      the tables of HoldStore; what any sequence of them keeps.  What they read
      of planners, proposals, follow-ups and the trial of models is the record
      [Outside] and, for a claim, [Claim].
    - Turns, TurnTable: the request files of a headless session, which the
      supervisor writes and drops and the wrapper takes, what its events say of
      a turn awaited and of a call the provider's wall stopped
      ([domain/turn.rs], [supervise/execution/headless.rs],
      [application/headless_session.rs]).  A directory is a map from names to
      the request a file reads as; one operation on it is one step, so the
      reader's second look at a file renamed under it has no counterpart.

    The parts meet where the code has them meet: a claim takes a task
    ([Task.claim]) and makes a run of it ([TaskRun.new]); a goal's close reads
    the counts of its tasks, its follow-ups and its unresolved replacements;
    a step of a task asks the guard the replanning table gives
    ([Replan.guard_of], [Replan.check_step]); the claims of the arranged order
    stand in the line of a fill pass.  The claim of TaskStore reads its graph
    into ClaimGraph, whose chain ends because the store's writes keep the wait
    graph without a circle, and its routes from ProviderSwitches.  A resume, a landing and a
    release are decided on the events of a run (Events); the decisions of
    Holds, Resumes, RunPhase, Tasks and Runs are composed in the transactions
    of HoldStore.  The policy of Authorization opens every issue of a token,
    which the rules of Tokens then decide over the files of TokenStore.
    FindingStore writes the attributes of Findings to its events, from which
    FindingLedger folds them again; the proposals of Proposals and the
    statuses of their tasks settle the findings linked to them.  An answer of
    AskStore goes through the transaction of FindingStore that carries it out
    on its finding, in the same write; every step of the asks is a sequence of
    steps of the findings' store ([reachable_findings]).

    ** What the theorems show

    - State machines: the transitions of a run, a task, a proposal and a
      replanning operation are exactly the tables stated; ended ones stay
      ended; a run integrates only through the end of a landing; a started
      task was reviewed; a replanning operation past its fence guards its
      task until it ends.
    - Invariants over any sequence of operations: the shape of tasks, goals,
      proposals and runs, and one open replanning operation per task.
    - Decisions, on every branch: when a goal closes and what a refused close
      names, when a step is refused, when a resolution, a judgement, a
      concern or a set of condition mappings is taken, when there is room for
      a claim.
    - Order: the arranged claim order and the line of slots are the stable
      sorts the documentation describes, and lose no candidate.
    - Priorities: the AI never loses a person's priority; a request's prevails.
    - Loops that end with the right answer: the walk over replacements and the
      search of the wait graph.
    - Round trips: a task's wire form, a goal closed and reopened, what a
      release, a change of phase and a verification record.
    - Bounds over a run's history: resumes, revises, requests on conflicts and
      raises of the model end.
    - Safety of landings: only a review after the last fence lets a run land;
      a build takes a stopped landing up once.
    - Refinement: the check of a replacement plan against its specification;
      the queue of landings against a machine over events.
    - The table of holds, over any sequence of transactions: one open hold per
      task, rows that settle and close once, a fence while a hold is open, a
      release that leaves its task where it decided, and reminders told once
      a day.
    - Who may do what: no chain of tokens takes an actor past its own role,
      and an actor's id confines it to what is its own.
    - The tokens, over any sequence of requests: one token for a key, a job's
      token kept from every caller but the parent that asked for it, an issue
      only under what the parent holds, and none left by an issue that fails.
    - The findings, over any sequence of transactions: one finding of a
      problem, an event log from which the rows' attributes are folded, one
      planner open for a finding; a record brought twice counts once, the end
      of a proposal settles what it remedies, and an answer is carried out.
    - The asks, over any sequence of transactions: one open ask of a matter, a
      log that tells the open ones, an answer written whole and once that
      stands after, no approval of the runtime's own, and a hold that lists
      each run and job once.

    - The tasks, over any sequence of transactions: a wait graph without a
      circle, work that follows its predecessors, some task that waits for no
      other while one is unfinished, a claim that takes the first of its order,
      and a view of the graph that ends; the recursive query of the checks
      finds exactly the paths.  The apply of a replacement, which adds edges of
      its own, is not among these steps: its check is ReplanApply's.
    - The providers: a run moves between them twice at most and off a turn once,
      and a hold read is the one the log's latest record says.
    - The turns of a headless session: its request files refine a table of
      numbered requests, each taken once and in order while no wall is met, all
      of them in as many takes; an adopted request is written once; a turn is
      awaited exactly while one runs or is to come; a call a wall stopped is
      made again, and read when the last of its retries ended well.

    ** Fuel

    Eight loops of the source are not structural.  [arrange_tiers] takes one
    turn per tier and each tier takes a candidate at least, so the number of
    candidates is enough ([arrange_tiers_perm] loses none).
    [Replacements.walk] goes only into tasks that are there and not yet
    visited, so their number and one more is enough ([walk_total]).  The
    depth-first [search] below, which [Replacements.closes_loop] and
    [ReplanPlan.in_loop] run, pushes each edge of the graph once and the
    start's twice ([search_spec]).  So does [closure], over which the waiting
    tasks and the recursive query are collected ([closure_spec]); the critical
    chain takes each task once ([critical_found]), and a span of time takes a
    character at each turn ([span_reading_ends]).  The look whether a request was
    read goes to a later turn each time ([request_read_ends]).  These return an option, and the theorems
    say that it is always [Some].

    ** What is not modelled

    The JSON library itself (an interface with its laws), the texts of errors
    and reports, SQL, Git, processes, clocks and the command line.  A SQL
    statement is the change it makes to the rows, with its unique indexes; a
    transaction that fails leaves the tables as they were.  Of the
    domain, still to come: the attention a run or a queue asks for, the
    recovery job's verdicts, the plan and goal reviews and the queue broker's
    messages; the trial of models draws by SHA-256 and percentiles and stays
    out.  The digest of the tokens' values is an argument, and their files
    are modelled with every operation on them succeeding. *)
From stdpp Require Export prelude strings gmap sorting.

(** ** Results

    [Result<T, E>] of the source.  The [?] operator is the bind of this
    monad, written [x ← e; k]. *)
Inductive result (E A : Type) : Type :=
  | Ok (a : A)
  | Err (e : E).
Arguments Ok {E A} a.
Arguments Err {E A} e.

#[export] Instance result_eq_dec {E A} `{EqDecision E, EqDecision A} :
  EqDecision (result E A).
Proof. solve_decision. Defined.

#[export] Instance result_ret {E} : MRet (result E) := λ A a, Ok a.
#[export] Instance result_bind {E} : MBind (result E) := λ A B f m,
  match m with Ok a => f a | Err e => Err e end.
#[export] Instance result_fmap {E} : FMap (result E) := λ A B f m,
  match m with Ok a => Ok (f a) | Err e => Err e end.

(** [Result::is_ok]. *)
Definition is_ok {E A} (r : result E A) : bool :=
  match r with Ok _ => true | Err _ => false end.

(** [Result] over a list, in its order: the [collect] of an iterator. *)
Fixpoint traverse {E A B} (f : A → result E B) (l : list A) : result E (list B) :=
  match l with
  | [] => Ok []
  | a :: l => b ← f a; bs ← traverse f l; Ok (b :: bs)
  end.
(** A loop that stops at its first error. *)
Fixpoint fold_result {E A S} (f : S → A → result E S) (s : S) (l : list A) : result E S :=
  match l with
  | [] => Ok s
  | a :: l => s ← f s a; fold_result f s l
  end.

(** [require(condition, || error)] of [src/src/domain/error.rs]. *)
Definition require {E} (condition : bool) (error : E) : result E unit :=
  if condition then Ok tt else Err error.

(** [Option::unwrap_or], [is_none_or] and [is_some_and]. *)
Definition unwrap_or {A} (o : option A) (d : A) : A :=
  match o with Some a => a | None => d end.
Definition is_some {A} (o : option A) : bool :=
  match o with Some _ => true | None => false end.
Definition is_none {A} (o : option A) : bool := negb (is_some o).
Definition is_none_or {A} (o : option A) (p : A → bool) : bool :=
  match o with Some a => p a | None => true end.
Definition is_some_and {A} (o : option A) (p : A → bool) : bool :=
  match o with Some a => p a | None => false end.
(** [Option::and] and [Option::or_else]. *)
Definition opt_and {A B} (o : option A) (p : option B) : option B :=
  match o with Some _ => p | None => None end.
(** [bool::then_some]. *)
Definition then_some {A} (b : bool) (a : A) : option A :=
  if b then Some a else None.

(** ** Machine integers

    [i64::saturating_add], [saturating_sub] and [saturating_mul] are the
    exact result brought into the range of an [i64]. *)
Definition i64_max : Z := 9223372036854775807.
Definition i64_min : Z := -9223372036854775808.
Definition saturate_i64 (z : Z) : Z := Z.max i64_min (Z.min i64_max z).
(** Arithmetic of a release build, which wraps. *)
Definition wrap_i64 (z : Z) : Z := (z - i64_min) mod (2 ^ 64) + i64_min.
Definition fits_i64 (z : Z) : Prop := (i64_min ≤ z ≤ i64_max)%Z.

Lemma saturate_i64_fits z : fits_i64 z → saturate_i64 z = z.
Proof. unfold fits_i64, saturate_i64. lia. Qed.

Lemma wrap_i64_id z : fits_i64 z → wrap_i64 z = z.
Proof. unfold fits_i64, wrap_i64, i64_min, i64_max. intros Hz. rewrite Z.mod_small by lia. lia. Qed.

(** ** Functional record update

    [r <| f := v |>] is the record [r] whose field [f] holds [v]: the
    source's [r.f = v] on an owned struct.  A record is made updatable by
    its eta expansion. *)
Class Updatable (R : Type) := rebuild : R → R.
Class FieldUpdate {R T : Type} (f : R → T) := update_field : T → R → R.
Arguments update_field {R T} f {_} _ _ /.

Ltac derive_field_update :=
  match goal with
  | |- @FieldUpdate ?R ?T ?f =>
      let inst := constr:(_ : Updatable R) in
      let eta := eval hnf in inst in
      let abstracted := eval pattern f in eta in
      match abstracted with
      | ?g _ =>
          let body := eval cbv beta in (λ (v : T) (r : R), g (λ _ : R, v) r) in
          exact body
      end
  end.
#[export] Hint Extern 0 (FieldUpdate _) => derive_field_update : typeclass_instances.

Notation "r <| f := v |>" := (update_field f v r)
  (at level 12, f at next level, left associativity).

(** ** Reasoning on results *)
Lemma bind_Ok {E A B} (m : result E A) (f : A → result E B) b :
  m ≫= f = Ok b ↔ ∃ a, m = Ok a ∧ f a = Ok b.
Proof. destruct m; simpl; naive_solver. Qed.

Lemma bind_Err {E A B} (m : result E A) (f : A → result E B) e :
  m ≫= f = Err e ↔ m = Err e ∨ ∃ a, m = Ok a ∧ f a = Err e.
Proof. destruct m; simpl; naive_solver. Qed.

Lemma require_Ok {E} b (e : E) u : require b e = Ok u ↔ b = true.
Proof. destruct u, b; simpl; naive_solver. Qed.

Lemma require_Err {E} b (e e' : E) : require b e = Err e' ↔ b = false ∧ e = e'.
Proof. destruct b; simpl; naive_solver. Qed.

Lemma is_ok_spec {E A} (r : result E A) : is_ok r = true ↔ ∃ a, r = Ok a.
Proof. destruct r; simpl; naive_solver. Qed.

(** What each turn of a loop keeps, the loop keeps. *)
Lemma fold_result_keeps {E A S} (R : relation S) `{!PreOrder R} (f : S → A → result E S) l s s' :
  (∀ s a s', a ∈ l → f s a = Ok s' → R s s') → fold_result f s l = Ok s' → R s s'.
Proof.
  revert s. induction l as [|a l IH]; intros s Hstep; simpl.
  - intros [= ->]. reflexivity.
  - rewrite bind_Ok. intros (s1 & Hs1 & Hs'). trans s1.
    + apply (Hstep s a); [by left|done].
    + apply IH; [|done]. intros s2 b s3 Hb. apply Hstep. by right.
Qed.

Lemma is_none_true {A} (o : option A) : is_none o = true ↔ o = None.
Proof. by destruct o. Qed.

(** [res_inv] opens every hypothesis that says a computation of results
    ended well, or with an error, into what each of its steps did. *)
Ltac res_inv_step :=
  match goal with
  | H : Ok _ = Ok _ |- _ => injection H; clear H; intros
  | H : Err _ = Err _ |- _ => injection H; clear H; intros
  | H : Ok _ = Err _ |- _ => discriminate H
  | H : Err _ = Ok _ |- _ => discriminate H
  | H : _ ≫= _ = Ok _ |- _ => apply bind_Ok in H as (? & ? & ?)
  | H : require _ _ = Ok _ |- _ => apply require_Ok in H
  | H : require _ _ = Err _ |- _ => apply require_Err in H as [? ?]
  | H : mret _ = Ok _ |- _ => injection H; clear H; intros
  end.
Ltac res_inv := repeat res_inv_step; subst.

(** [bool_split] turns the boolean guards of the source into propositions. *)
Ltac bool_split :=
  repeat match goal with
  | H : _ && _ = true |- _ => apply andb_true_iff in H as [? ?]
  | H : _ || _ = false |- _ => apply orb_false_iff in H as [? ?]
  | H : negb _ = true |- _ => apply negb_true_iff in H
  | H : negb _ = false |- _ => apply negb_false_iff in H
  | H : bool_decide _ = true |- _ => apply bool_decide_eq_true in H
  | H : bool_decide _ = false |- _ => apply bool_decide_eq_false in H
  end.

(** ** Enums of fixed text values

    What [string_enum!] of [src/src/domain/mod.rs] gives every enum it
    declares: its name, its values in order and the text of each. *)
Class StringEnum (A : Type) := {
  type_name : string;
  as_str : A → string;
  variants : list A;
}.
Arguments type_name A {_}.
Arguments variants A {_}.

(** What the enums promise their users: the list names every value, and two
    values never share a text. *)
Class StringEnumLaws (A : Type) `{StringEnum A} := {
  variants_complete : ∀ v : A, v ∈ variants A;
  as_str_inj : ∀ v w : A, as_str v = as_str w → v = w;
}.

Ltac string_enum_laws :=
  split;
  [ let v := fresh in intros v; destruct v; cbv [variants]; simpl;
    repeat first [ apply list_elem_of_here | apply list_elem_of_further ]
  | let v := fresh in let w := fresh in
    intros v w; destruct v, w; first [ reflexivity | discriminate ] ].

(** The first value whose text is [value]: the [match] of the macro's
    [FromStr]. *)
Definition parse_enum {A} `{StringEnum A} (value : string) : option A :=
  List.find (λ v : A, bool_decide (as_str v = value)) (variants A).

Section enum_parsing.
  Context {A : Type} `{StringEnumLaws A}.

Lemma parse_as_str (v : A) : parse_enum (as_str v) = Some v.
Proof.
  unfold parse_enum.
  destruct (List.find _ _) as [w|] eqn:Hfind.
  - apply List.find_some in Hfind as [_ Hw]. bool_split. f_equal. by apply as_str_inj.
  - pose proof (List.find_none _ _ Hfind v) as Hnone.
    assert (In v (variants A)) as Hin by (apply list_elem_of_In, variants_complete).
    specialize (Hnone Hin). simpl in Hnone. bool_split. done.
Qed.

Lemma parse_Some value (v : A) : parse_enum value = Some v ↔ as_str v = value.
Proof.
  split; [|intros <-; apply parse_as_str].
  intros Hfind%List.find_some. destruct Hfind as [_ Hw]. by bool_split.
Qed.
End enum_parsing.

(** ** Stable sorting

    [sort_by] models [slice::sort_by] and [sort_by_key]: the standard
    library promises a stable sort, and [sort_by_unique] shows that promise
    leaves one list only. *)
Section sorting.
  Context {A : Type} (leb : A → A → bool).

Fixpoint insert_by (x : A) (l : list A) : list A :=
  match l with
  | [] => [x]
  | y :: l' => if leb x y then x :: y :: l' else y :: insert_by x l'
  end.

Definition sort_by (l : list A) : list A := foldr insert_by [] l.

(** [a] and [b] are ties of the order. *)
Definition ties (a b : A) : bool := leb a b && leb b a.

Lemma insert_by_perm x l : insert_by x l ≡ₚ x :: l.
Proof.
  induction l as [|y l IH]; simpl; [done|].
  destruct (leb x y); [done|]. by rewrite IH, Permutation_swap.
Qed.

Lemma sort_by_perm l : sort_by l ≡ₚ l.
Proof. induction l as [|x l IH]; simpl; [done|]. by rewrite insert_by_perm, IH. Qed.

Lemma elem_of_sort_by x l : x ∈ sort_by l ↔ x ∈ l.
Proof. by rewrite sort_by_perm. Qed.

Lemma length_sort_by l : length (sort_by l) = length l.
Proof. by rewrite sort_by_perm. Qed.

Context (leb_total : ∀ a b, leb a b || leb b a).
Context (leb_trans : ∀ a b c, leb a b → leb b c → leb a c).

Lemma leb_false_flip a b : leb a b = false → leb b a.
Proof. intros Hab. specialize (leb_total a b). by rewrite Hab in leb_total. Qed.

Lemma insert_by_sorted x l :
  StronglySorted leb l → StronglySorted leb (insert_by x l).
Proof.
  induction 1 as [|y l Hl IH Hy]; simpl; [by repeat constructor|].
  destruct (leb x y) eqn:Hxy.
  - constructor; [by constructor|]. constructor; [by rewrite Hxy|].
    eapply Forall_impl; [exact Hy|]. intros z Hyz. apply leb_trans with y; [by rewrite Hxy|done].
  - constructor; [done|]. rewrite insert_by_perm. constructor; [|done].
    by apply leb_false_flip.
Qed.

Lemma sort_by_sorted l : StronglySorted leb (sort_by l).
Proof. induction l; simpl; [constructor|]. by apply insert_by_sorted. Qed.

Lemma insert_by_filter_ties z x l :
  StronglySorted leb l →
  List.filter (ties z) (insert_by x l) = List.filter (ties z) (x :: l).
Proof.
  induction 1 as [|y l Hl IH Hy]; [done|].
  cbn [insert_by]. destruct (leb x y) eqn:Hxy; [done|].
  cbn [List.filter] in *. rewrite IH.
  destruct (ties z x) eqn:Hx; [|done]. destruct (ties z y) eqn:Hyt; [|done].
  unfold ties in Hx, Hyt. bool_split. exfalso.
  assert (leb x y) as Hbad by (apply leb_trans with z; apply Is_true_eq_left; assumption).
  by rewrite Hxy in Hbad.
Qed.

(** Items that tie keep the order they came in. *)
Lemma sort_by_stable z l :
  List.filter (ties z) (sort_by l) = List.filter (ties z) l.
Proof.
  induction l as [|x l IH]; [done|].
  cbn [sort_by foldr]. rewrite insert_by_filter_ties by apply sort_by_sorted.
  cbn [List.filter]. fold (sort_by l). by rewrite IH.
Qed.

(** A sorted list is the only one with its ties: any stable sort gives the
    list [sort_by] gives. *)
Lemma sorted_ties_unique l1 l2 :
  StronglySorted leb l1 → StronglySorted leb l2 → l1 ≡ₚ l2 →
  (∀ z, List.filter (ties z) l1 = List.filter (ties z) l2) → l1 = l2.
Proof.
  intros H1. revert l2. induction H1 as [|x l1 Hl1 IH Hx]; intros l2 H2 Hperm Hties.
  { by apply Permutation_nil_l in Hperm. }
  destruct H2 as [|y l2 Hl2 Hy]; [by apply Permutation_nil_r in Hperm|].
  assert (∀ a, leb a a) as Hrefl by (intros a; specialize (leb_total a a); by destruct (leb a a)).
  assert (leb x y) as Hxy.
  { assert (y ∈ x :: l1) as Hin by (rewrite Hperm; left).
    apply elem_of_cons in Hin as [->|Hin]; [apply Hrefl|].
    by eapply Forall_forall in Hx. }
  assert (leb y x) as Hyx.
  { assert (x ∈ y :: l2) as Hin by (rewrite <- Hperm; left).
    apply elem_of_cons in Hin as [->|Hin]; [apply Hrefl|].
    by eapply Forall_forall in Hy. }
  assert (x = y) as <-.
  { specialize (Hties x). cbn [List.filter] in Hties. unfold ties in Hties.
    pose proof (Hrefl x) as Hxx. apply Is_true_eq_true in Hxx, Hxy, Hyx.
    rewrite Hxx, Hxy, Hyx in Hties. simpl in Hties. congruence. }
  f_equal. apply IH; [done|by eapply Permutation_cons_inv|].
  intros z. specialize (Hties z). cbn [List.filter] in Hties.
  destruct (ties z x); congruence.
Qed.

Lemma List_filter_perm (p : A → bool) l l' :
  l ≡ₚ l' → List.filter p l ≡ₚ List.filter p l'.
Proof.
  induction 1 as [|x l l' _ IH|x y l|l l' l'' _ IH1 _ IH2]; simpl;
    [done|destruct (p x); by rewrite ?IH| |by rewrite IH1].
  destruct (p x), (p y); try done. apply Permutation_swap.
Qed.

Lemma List_filter_comm (p q : A → bool) l :
  List.filter p (List.filter q l) = List.filter q (List.filter p l).
Proof.
  induction l as [|x l IH]; [done|]. simpl.
  destruct (p x) eqn:Hp, (q x) eqn:Hq; simpl; rewrite ?Hp, ?Hq, ?IH; done.
Qed.

Lemma StronglySorted_filter (R : A → A → Prop) p l :
  StronglySorted R l → StronglySorted R (List.filter p l).
Proof.
  induction 1 as [|x l Hl IH Hx]; simpl; [constructor|]. destruct (p x); [|done].
  constructor; [done|]. rewrite Forall_forall in *. intros y Hy.
  apply Hx. by apply list_elem_of_In, filter_In, proj1, list_elem_of_In in Hy.
Qed.

(** A part of a sorted list is the part sorted. *)
Lemma sort_by_filter p l : List.filter p (sort_by l) = sort_by (List.filter p l).
Proof.
  apply sorted_ties_unique.
  - apply StronglySorted_filter, sort_by_sorted.
  - apply sort_by_sorted.
  - etrans; [apply List_filter_perm, sort_by_perm|]. symmetry. apply sort_by_perm.
  - intros z. by rewrite sort_by_stable, List_filter_comm, sort_by_stable, List_filter_comm.
Qed.

(** What is in order already stays as it is. *)
Lemma sort_by_id l : StronglySorted leb l → sort_by l = l.
Proof.
  intros Hl. apply sorted_ties_unique; [apply sort_by_sorted|done|apply sort_by_perm|].
  intros z. apply sort_by_stable.
Qed.
(** Two parts of which the first comes before the second are sorted apart. *)
Lemma sort_by_app l1 l2 :
  (∀ x y, x ∈ l1 → y ∈ l2 → leb x y) → sort_by (l1 ++ l2) = sort_by l1 ++ sort_by l2.
Proof.
  intros Hle. apply sorted_ties_unique.
  - apply sort_by_sorted.
  - apply StronglySorted_app. split_and!; [|apply sort_by_sorted..].
    intros x y. rewrite !elem_of_sort_by. apply Hle.
  - by rewrite !sort_by_perm.
  - intros z. by rewrite List.filter_app, !sort_by_stable, List.filter_app.
Qed.

(** The items of the least key, then the others: the sorted list of two keys. *)
Lemma sort_by_partition (first : A → bool) l :
  (∀ x y, x ∈ l → y ∈ l → leb x y = first x || negb (first y)) →
  sort_by l = List.filter first l ++ List.filter (negb ∘ first) l.
Proof.
  assert (∀ x l1 l2, (∀ a, a ∈ l1 → leb x a = false) →
    insert_by x (l1 ++ l2) = l1 ++ insert_by x l2) as Hskip.
  { intros x l1 l2. induction l1 as [|a l1 IH]; intros Ha; simpl; [done|].
    rewrite Ha by left. f_equal. apply IH. intros; apply Ha. by right. }
  assert (∀ x l2, (∀ b, b ∈ l2 → leb x b = true) → insert_by x l2 = x :: l2) as Hfront.
  { intros x [|b l2] Hb; simpl; [done|]. by rewrite Hb by left. }
  assert (∀ (p : A → bool) x l, x ∈ List.filter p l → x ∈ l ∧ p x = true) as Hin.
  { intros p x l' Hx. by rewrite list_elem_of_In, filter_In, <-list_elem_of_In in Hx. }
  induction l as [|x l IH]; intros Hkey; [done|].
  change (insert_by x (sort_by l) = List.filter first (x :: l)
    ++ List.filter (negb ∘ first) (x :: l)).
  rewrite IH by (intros; apply Hkey; by right). cbn [List.filter]. unfold compose at 2.
  destruct (first x) eqn:Hx; cbn [negb].
  - apply Hfront. intros b [Hb|Hb]%elem_of_app; apply Hin in Hb as [Hb _];
      rewrite (Hkey x b); [by rewrite Hx|left|by right|by rewrite Hx|left|by right].
  - rewrite Hskip.
    + f_equal. apply Hfront. intros b [Hb Hfb]%Hin. unfold compose in Hfb.
      rewrite (Hkey x b); [by rewrite Hx, Hfb|left|by right].
    + intros a [Ha Hfa]%Hin. rewrite (Hkey x a); [by rewrite Hx, Hfa|left|by right].
Qed.
End sorting.

(** [sort_by_key] by a tuple of keys: the derived order of tuples is the
    lexicographic one.  A [bool] is the key 0 or 1 and [Reverse(k)] the key
    [- k]. *)
Fixpoint lex_leb (a b : list Z) : bool :=
  match a, b with
  | [], _ => true
  | _ :: _, [] => false
  | x :: a', y :: b' => (x <? y)%Z || ((x =? y)%Z && lex_leb a' b')
  end.

Definition by_key {A} (key : A → list Z) (a b : A) : bool := lex_leb (key a) (key b).
Definition sort_by_key {A} (key : A → list Z) : list A → list A := sort_by (by_key key).

Lemma lex_leb_cons x a y b :
  lex_leb (x :: a) (y :: b) ↔ (x < y)%Z ∨ (x = y ∧ lex_leb a b).
Proof.
  simpl. destruct (Z.ltb_spec x y), (Z.eqb_spec x y); simpl; naive_solver lia.
Qed.

Lemma lex_leb_total a b : lex_leb a b || lex_leb b a.
Proof.
  revert b. induction a as [|x a IH]; intros [|y b]; simpl; try done.
  destruct (Z.ltb_spec x y), (Z.ltb_spec y x), (Z.eqb_spec x y), (Z.eqb_spec y x);
    simpl; try done; try lia; eauto.
Qed.

Lemma lex_leb_trans a b c : lex_leb a b → lex_leb b c → lex_leb a c.
Proof.
  revert b c. induction a as [|x a IH]; intros [|y b] [|z c]; simpl; try done.
  destruct (Z.ltb_spec x y), (Z.ltb_spec y z), (Z.ltb_spec x z),
    (Z.eqb_spec x y), (Z.eqb_spec y z), (Z.eqb_spec x z);
    simpl; try done; try lia; eauto.
Qed.

Lemma lex_leb_antisym a b : lex_leb a b → lex_leb b a → a = b.
Proof.
  revert b. induction a as [|x a IH]; intros [|y b]; simpl; try done.
  destruct (Z.ltb_spec x y), (Z.ltb_spec y x), (Z.eqb_spec x y), (Z.eqb_spec y x);
    simpl; try done; try lia; intros; subst; f_equal; auto.
Qed.

Lemma lex_leb_refl a : lex_leb a a.
Proof. pose proof (lex_leb_total a a). by destruct (lex_leb a a). Qed.

(** The first that [p] holds of comes before every other, in a sorted list. *)
Lemma find_first {A} (leb : A → A → Prop) p l x :
  (∀ a, leb a a) → StronglySorted leb l → List.find p l = Some x →
  ∀ y, y ∈ l → p y = true → leb x y.
Proof.
  intros Hrefl. induction 1 as [|z l Hsorted IH Hz]; simpl; [done|].
  destruct (p z) eqn:Hp.
  - intros [= <-] y [->|Hy]%elem_of_cons _; [apply Hrefl|]. rewrite Forall_forall in Hz. auto.
  - intros Hx y [->|Hy]%elem_of_cons Hpy; [congruence|]. by apply IH.
Qed.

Section sort_by_key.
  Context {A : Type} (key : A → list Z).

Lemma by_key_total a b : by_key key a b || by_key key b a.
Proof. apply lex_leb_total. Qed.
Lemma by_key_trans a b c : by_key key a b → by_key key b c → by_key key a c.
Proof. apply lex_leb_trans. Qed.

Lemma sort_by_key_perm l : sort_by_key key l ≡ₚ l.
Proof. apply sort_by_perm. Qed.
Lemma sort_by_key_sorted l : StronglySorted (by_key key) (sort_by_key key l).
Proof. apply sort_by_sorted; [apply by_key_total|apply by_key_trans]. Qed.
Lemma sort_by_key_stable z l :
  List.filter (ties (by_key key) z) (sort_by_key key l) = List.filter (ties (by_key key) z) l.
Proof. apply sort_by_stable; [apply by_key_total|apply by_key_trans]. Qed.
Lemma elem_of_sort_by_key x l : x ∈ sort_by_key key l ↔ x ∈ l.
Proof. by rewrite sort_by_key_perm. Qed.

Lemma sort_by_key_filter p l :
  List.filter p (sort_by_key key l) = sort_by_key key (List.filter p l).
Proof. apply sort_by_filter; [apply by_key_total|apply by_key_trans]. Qed.
Lemma sort_by_key_id l : StronglySorted (by_key key) l → sort_by_key key l = l.
Proof. apply sort_by_id; [apply by_key_total|apply by_key_trans]. Qed.

Lemma sort_by_key_app l1 l2 :
  (∀ x y, x ∈ l1 → y ∈ l2 → by_key key x y) →
  sort_by_key key (l1 ++ l2) = sort_by_key key l1 ++ sort_by_key key l2.
Proof. apply sort_by_app; [apply by_key_total|apply by_key_trans]. Qed.

(** What comes first has the smaller key. *)
Lemma sort_by_key_before l before x middle y after :
  sort_by_key key l = before ++ x :: middle ++ y :: after → by_key key x y.
Proof.
  intros Heq. pose proof (sort_by_key_sorted l) as Hs. rewrite Heq in Hs.
  apply StronglySorted_app in Hs as (_ & _ & Hs).
  inversion Hs as [|? ? _ Hx]; subst. apply Forall_app in Hx as [_ Hx]. by inversion Hx.
Qed.
End sort_by_key.

Lemma sort_by_ext {A} (leb1 leb2 : A → A → bool) l :
  (∀ a b, leb1 a b = leb2 a b) → sort_by leb1 l = sort_by leb2 l.
Proof.
  intros Heq. unfold sort_by. induction l as [|x l IH]; simpl; [done|]. rewrite IH.
  generalize (foldr (insert_by leb2) [] l) as acc. clear IH.
  induction acc as [|y acc IH]; simpl; [done|]. by rewrite Heq, IH.
Qed.
Lemma sort_by_key_fmap {A B} (f : A → B) (key : B → list Z) l :
  sort_by_key key (f <$> l) = f <$> sort_by_key (key ∘ f) l.
Proof.
  assert (∀ x acc, insert_by (by_key key) (f x) (f <$> acc)
                   = f <$> insert_by (by_key (key ∘ f)) x acc) as Hinsert.
  { intros x acc. induction acc as [|y acc IH]; simpl; [done|].
    change (by_key (key ∘ f) x y) with (by_key key (f x) (f y)).
    destruct (by_key key (f x) (f y)); [done|]. exact (f_equal (cons (f y)) IH). }
  induction l as [|x l IH]; [done|].
  change (insert_by (by_key key) (f x) (sort_by_key key (f <$> l))
          = f <$> insert_by (by_key (key ∘ f)) x (sort_by_key (key ∘ f) l)).
  by rewrite IH, Hinsert.
Qed.
(** Items told apart by the key have one order, however they come. *)
Lemma sort_by_key_unique {A} (key : A → list Z) l1 l2 :
  (∀ a b, a ∈ l1 → b ∈ l1 → key a = key b → a = b) → l1 ≡ₚ l2 →
  sort_by_key key l1 = sort_by_key key l2.
Proof.
  intros Hinj Hperm. apply (StronglySorted_unique_strong (by_key key)).
  - intros a b. rewrite !elem_of_sort_by_key, <-Hperm. intros Ha Hb H1 H2.
    apply Hinj; [done..|]. by apply lex_leb_antisym.
  - apply sort_by_key_sorted.
  - apply sort_by_key_sorted.
  - by rewrite !sort_by_key_perm.
Qed.

(** ** Lists kept once

    The source's [if !unique.contains(x) { unique.push(x) }] loop. *)
(** Rows of one key are one row. *)
Lemma NoDup_fmap_same {A B} (f : A → B) l x y :
  NoDup (f <$> l) → x ∈ l → y ∈ l → f x = f y → x = y.
Proof.
  induction l as [|z l IH]; [set_solver|]. rewrite fmap_cons, NoDup_cons. intros [Hz Hnd].
  rewrite !elem_of_cons. intros [->|Hx] [->|Hy] Heq; [done|exfalso..|by apply IH]; apply Hz;
    rewrite list_elem_of_fmap; eauto.
Qed.

Section dedup.
  Context {A : Type} `{EqDecision A}.

Definition push_once (unique : list A) (x : A) : list A :=
  if decide (x ∈ unique) then unique else unique ++ [x].
Definition dedup_onto (unique l : list A) : list A := foldl push_once unique l.

Lemma push_once_elem unique x y : y ∈ push_once unique x ↔ y ∈ unique ∨ y = x.
Proof. unfold push_once. case_decide; set_solver. Qed.

Lemma push_once_nodup unique x : NoDup unique → NoDup (push_once unique x).
Proof.
  unfold push_once. case_decide; [done|]. intros ?.
  apply NoDup_app; split_and!; [done|set_solver|apply NoDup_singleton].
Qed.

Lemma dedup_onto_elem l unique y : y ∈ dedup_onto unique l ↔ y ∈ unique ∨ y ∈ l.
Proof.
  revert unique. induction l as [|x l IH]; intros unique; simpl; [set_solver|].
  rewrite IH, push_once_elem. set_solver.
Qed.

Lemma dedup_onto_nodup l unique : NoDup unique → NoDup (dedup_onto unique l).
Proof.
  revert unique. induction l; simpl; [done|]. intros unique ?. auto using push_once_nodup.
Qed.

Lemma dedup_onto_fresh l unique :
  NoDup (unique ++ l) → dedup_onto unique l = unique ++ l.
Proof.
  revert unique. induction l as [|x l IH]; intros unique Hnd; simpl.
  { by rewrite app_nil_r. }
  assert (x ∉ unique) as Hx.
  { apply NoDup_app in Hnd as (_ & Hdisj & _). intros Hin. apply (Hdisj x Hin). left. }
  change (dedup_onto (push_once unique x) l = unique ++ x :: l).
  replace (push_once unique x) with (unique ++ [x])
    by (unfold push_once; by rewrite decide_False).
  rewrite IH, <-app_assoc; [done|]. by rewrite <-app_assoc.
Qed.

(** Adding again what is there already changes nothing. *)
Lemma dedup_onto_idemp l : dedup_onto [] (dedup_onto [] l) = dedup_onto [] l.
Proof. apply dedup_onto_fresh. simpl. apply dedup_onto_nodup, NoDup_nil_2. Qed.
End dedup.

(** Rows of a table told apart by a key. *)
Lemma nodup_key_inj {A B} (key : A → B) (l : list A) a b :
  NoDup (key <$> l) → a ∈ l → b ∈ l → key a = key b → a = b.
Proof.
  intros Hnd [i Hi]%list_elem_of_lookup [j Hj]%list_elem_of_lookup Heq.
  assert (i = j) as <-; [|congruence].
  eapply NoDup_lookup; [done|by rewrite list_lookup_fmap, Hi|].
  by rewrite list_lookup_fmap, Hj, Heq.
Qed.

(** ** Depth-first search for a loop

    The loop [while let Some(next) = stack.pop()] two parts of the source look
    for a way back to [start] with.  [succ] is what is pushed once a node is
    entered, and [enters] says which nodes are, the first time they are
    popped.  The top of the stack is the last of the source's vector, here
    the head; [None] is out of fuel. *)
Section loop_search.
  Context {A : Type} `{Countable A} (succ : A → list A) (enters : A → bool).

Fixpoint search (fuel : nat) (start : A) (stack : list A) (seen : gset A) : option bool :=
  match fuel with
  | 0 => None
  | S fuel =>
      match stack with
      | [] => Some false
      | next :: stack =>
          if bool_decide (next = start) then Some true
          else if enters next && bool_decide (next ∉ seen)
          then search fuel start (rev (succ next) ++ stack) ({[next]} ∪ seen)
          else search fuel start stack seen
      end
  end.

(** How many edges leave [nodes]: what may still be pushed. *)
Definition edge_count (nodes : gset A) : nat :=
  sum_list_with (λ node, length (succ node)) (elements nodes).

(** Every edge that leaves [nodes] is pushed once at most, and the start's
    twice: turns enough for the loop. *)
Definition search_fuel (nodes : gset A) (start : A) : nat :=
  S (length (succ start) + edge_count nodes).

Definition reaches_itself (nodes : gset A) (start : A) : option bool :=
  search (search_fuel nodes start) start (rev (succ start)) ∅.

(** The edges the search follows from [start]. *)
Definition follows (start : A) : relation A :=
  λ a b, (a = start ∨ enters a = true) ∧ b ∈ succ a.

Context (nodes : gset A) (nodes_enough : ∀ a, enters a = true → succ a ≠ [] → a ∈ nodes).

Lemma edge_count_visit seen next :
  enters next = true → next ∉ seen →
  edge_count (nodes ∖ seen) = length (succ next) + edge_count (nodes ∖ ({[next]} ∪ seen)).
Proof using nodes_enough.
  intros He Hnew. unfold edge_count. destruct (decide (next ∈ nodes)) as [Hin|Hout].
  - assert (nodes ∖ seen = {[next]} ∪ nodes ∖ ({[next]} ∪ seen)) as ->.
    { apply set_eq. intros x. destruct (decide (x = next)); set_solver. }
    rewrite elements_union_singleton by set_solver. done.
  - assert (nodes ∖ seen = nodes ∖ ({[next]} ∪ seen)) as <- by set_solver.
    destruct (decide (succ next = [])) as [->|Hne]; [done|]. by destruct Hout; apply nodes_enough.
Qed.

Lemma elem_of_pushed x next stack : x ∈ rev (succ next) ++ stack ↔ x ∈ succ next ∨ x ∈ stack.
Proof. by rewrite elem_of_app, !list_elem_of_In, <-in_rev. Qed.

Lemma search_spec fuel start stack seen :
  length stack + edge_count (nodes ∖ seen) < fuel →
  (∀ n, n ∈ stack → tc (follows start) start n) →
  start ∉ seen →
  (∀ n c, n = start ∨ n ∈ seen → follows start n c →
     c ∈ stack ∨ c ∈ seen ∨ c ≠ start ∧ enters c = false) →
  ∃ b, search fuel start stack seen = Some b ∧ (b = true ↔ tc (follows start) start start).
Proof using nodes_enough.
  revert stack seen. induction fuel as [|fuel IH]; intros stack seen Hfuel Hsound Hstart Hclosed;
    [lia|]. cbn [search]. destruct stack as [|next stack].
  - exists false. split; [done|]. split; [done|]. intros Hloop. exfalso.
    assert (∀ n, tc (follows start) start n → n ∈ seen ∨ n ≠ start ∧ enters n = false) as Hall.
    { apply tc_ind_r.
      - intros n Hn. destruct (Hclosed start n (or_introl eq_refl) Hn) as [Hin|?]; [|done].
        by apply elem_of_nil in Hin.
      - intros n c _ Hc [Hn|[Hne Hno]].
        + destruct (Hclosed n c (or_intror Hn) Hc) as [Hin|?]; [|done]. by apply elem_of_nil in Hin.
        + destruct Hc as [[?|?] _]; congruence. }
    by destruct (Hall start Hloop) as [?|[? _]].
  - simpl in Hfuel. assert (tc (follows start) start next) as Hnext by (apply Hsound; left).
    case_bool_decide as Heq.
    { subst next. exists true. by split. }
    destruct (enters next) eqn:He; simpl.
    2:{ apply IH; [lia|intros n Hn; apply Hsound; by right|done|].
        intros n c Hn Hc. destruct (Hclosed n c Hn Hc) as [[->|?]%elem_of_cons|?]; auto. }
    case_bool_decide as Hvis.
    + rewrite (edge_count_visit seen next) in Hfuel by done. apply IH.
      * rewrite length_app, length_rev. lia.
      * intros n [Hn|Hn]%elem_of_pushed; [|apply Hsound; by right].
        eapply tc_r; [exact Hnext|]. split; [by right|done].
      * set_solver.
      * intros n c Hn Hc. rewrite elem_of_pushed. destruct (decide (n = next)) as [->|Hnn].
        { left. left. by destruct Hc. }
        destruct (Hclosed n c) as [[->|?]%elem_of_cons|?]; [set_solver|done|set_solver..].
    + apply IH; [lia|intros n Hn; apply Hsound; by right|done|].
      intros n c Hn Hc. destruct (Hclosed n c Hn Hc) as [[->|?]%elem_of_cons|?]; auto.
Qed.

(** The search ends, and finds the way back exactly when there is one. *)
Lemma reaches_itself_spec start :
  ∃ b, reaches_itself nodes start = Some b ∧ (b = true ↔ tc (follows start) start start).
Proof using nodes_enough.
  apply search_spec.
  - unfold search_fuel. rewrite length_rev, difference_empty_L. lia.
  - intros n Hn. apply tc_once. split; [by left|]. rewrite <-(app_nil_r (rev _)) in Hn.
    apply elem_of_pushed in Hn as [?|Hn]; [done|by apply elem_of_nil in Hn].
  - set_solver.
  - intros n c [->|Hn] [_ Hc]; [|set_solver]. left. rewrite <-(app_nil_r (rev _)).
    apply elem_of_pushed. by left.
Qed.
End loop_search.

(** ** All that is reached

    [while let Some(next) = pending.pop() { if reached.insert(next) { .. } }]:
    the nodes reached from the successors of a start. *)
Section closure.
  Context {A : Type} `{Countable A} (succ : A → list A).

Fixpoint collect (fuel : nat) (stack : list A) (reached : gset A) : option (gset A) :=
  match fuel with
  | 0 => None
  | S fuel =>
      match stack with
      | [] => Some reached
      | next :: stack =>
          if bool_decide (next ∈ reached) then collect fuel stack reached
          else collect fuel (rev (succ next) ++ stack) ({[next]} ∪ reached)
      end
  end.
Definition closure (nodes : gset A) (start : A) : option (gset A) :=
  collect (S (length (succ start) + edge_count succ nodes)) (rev (succ start)) ∅.

Definition leads : relation A := λ a b, b ∈ succ a.

Context (nodes : gset A) (nodes_enough : ∀ a, succ a ≠ [] → a ∈ nodes).

Lemma collect_spec start fuel stack reached :
  length stack + edge_count succ (nodes ∖ reached) < fuel →
  (∀ n, n ∈ stack ∨ n ∈ reached → tc leads start n) →
  (∀ c, leads start c → c ∈ stack ∨ c ∈ reached) →
  (∀ n c, n ∈ reached → leads n c → c ∈ stack ∨ c ∈ reached) →
  ∃ all, collect fuel stack reached = Some all ∧ ∀ n, n ∈ all ↔ tc leads start n.
Proof using nodes_enough.
  revert stack reached.
  induction fuel as [|fuel IH]; intros stack reached Hfuel Hsound Hstart Hclosed; [lia|].
  cbn [collect]. destruct stack as [|next stack].
  - exists reached. split; [done|]. intros n. split; [intros Hn; apply Hsound; by right|].
    revert n. apply tc_ind_r.
    + intros n Hn. destruct (Hstart n Hn) as [Hin|Hin]; [by apply elem_of_nil in Hin|done].
    + intros n c _ Hc Hn. destruct (Hclosed n c Hn Hc) as [Hin|Hin]; [by apply elem_of_nil in Hin|done].
  - cbn [length] in Hfuel. case_bool_decide as Hseen.
    + apply IH; [lia|..].
      * intros n [Hn|Hn]; apply Hsound; [left; by right|by right].
      * intros c Hc. destruct (Hstart c Hc) as [[->|Hin]%elem_of_cons|Hin]; eauto.
      * intros n c Hn Hc. destruct (Hclosed n c Hn Hc) as [[->|Hin]%elem_of_cons|Hin]; eauto.
    + apply IH.
      * rewrite length_app, length_rev.
        rewrite (edge_count_visit succ (λ _, true) nodes (λ a _, nodes_enough a) reached next) in Hfuel by done. lia.
      * intros n. rewrite (elem_of_pushed succ), elem_of_union, elem_of_singleton.
        intros [[Hn|Hn]|[->|Hn]].
        -- eapply tc_r; [apply (Hsound next); left; by left|exact Hn].
        -- apply Hsound. left. by right.
        -- apply Hsound. left. by left.
        -- apply Hsound. by right.
      * intros c Hc. rewrite (elem_of_pushed succ), elem_of_union, elem_of_singleton.
        destruct (Hstart c Hc) as [[->|Hin]%elem_of_cons|Hin]; eauto.
      * intros n c Hn Hc. rewrite (elem_of_pushed succ), elem_of_union, elem_of_singleton.
        apply elem_of_union in Hn as [->%elem_of_singleton|Hn]; [by left; left|].
        destruct (Hclosed n c Hn Hc) as [[->|Hin]%elem_of_cons|Hin]; eauto.
Qed.

(** The loop ends with the nodes a path of one edge at least leads to. *)
Lemma closure_spec start :
  ∃ all, closure nodes start = Some all ∧ ∀ n, n ∈ all ↔ tc leads start n.
Proof using nodes_enough.
  apply collect_spec.
  - rewrite length_rev, difference_empty_L. lia.
  - intros n [Hn|Hn]; [|set_solver]. apply tc_once. by rewrite list_elem_of_In, <-in_rev, <-list_elem_of_In in Hn.
  - intros c Hc. left. by rewrite list_elem_of_In, <-in_rev, <-list_elem_of_In.
  - set_solver.
Qed.
End closure.

(** ** Step relations

    A machine whose operations keep [P] keeps it over any run of them. *)
Lemma rtc_invariant {S} (R : relation S) (P : S → Prop) s s' :
  (∀ a b, P a → R a b → P b) → rtc R s s' → P s → P s'.
Proof. intros Hstep. induction 1; eauto. Qed.

Lemma tc_iff {S} (R R' : relation S) a b : (∀ x y, R x y ↔ R' x y) → tc R a b ↔ tc R' a b.
Proof.
  intros HR. split; (induction 1 as [x y Hxy|x y z Hxy _ IH];
    [apply tc_once|eapply tc_l; [|exact IH]]; by apply HR).
Qed.

(** ** Automation *)
Create HintDb dagq discriminated.
Create Rewrite HintDb dagq.
#[export] Hint Resolve sort_by_perm sort_by_key_perm sort_by_key_sorted dedup_onto_nodup push_once_nodup NoDup_nil_2 : dagq.
#[export] Hint Rewrite @parse_as_str using typeclasses eauto : dagq.
