(* ===== verification/Text.v ===== *)
(** * Text of the source: [str] as UTF-8 bytes

    A Rust [str] is modelled as the Rocq [string] of its UTF-8 bytes, one
    [ascii] a byte.  This file holds what the domain layer uses of [str]:
    [trim] (which cuts the characters of the Unicode property [White_Space]),
    [split], [split_once], [split_whitespace], [strip_prefix], [starts_with],
    [join] and the test for a lowercase slug. *)
From S2P Require Import Prelude.
From Stdlib Require Import Ascii Wf_nat.
From stdpp Require Import strings pretty.

(** ** Bytes *)
Definition byte_of (c : ascii) : N := Ascii.N_of_ascii c.
Definition byte_in (c : ascii) (lo hi : N) : bool :=
  (lo <=? byte_of c)%N && (byte_of c <=? hi)%N.
Definition byte_is (c : ascii) (n : N) : bool := (byte_of c =? n)%N.

(** ** White space

    The characters of [char::is_whitespace] (Unicode [White_Space]) by their
    encodings of one, two and three bytes: U+0009 to U+000D and U+0020;
    U+0085 and U+00A0; U+1680, U+2000 to U+200A, U+2028, U+2029, U+202F,
    U+205F and U+3000. *)
Definition ws1 (a : ascii) : bool := byte_in a 9 13 || byte_is a 32.
Definition ws2 (a b : ascii) : bool :=
  byte_is a 194 && (byte_is b 133 || byte_is b 160).
Definition ws3 (a b c : ascii) : bool :=
  (byte_is a 225 && byte_is b 154 && byte_is c 128)
  || (byte_is a 226 && byte_is b 128
      && (byte_in c 128 138 || byte_is c 168 || byte_is c 169 || byte_is c 175))
  || (byte_is a 226 && byte_is b 129 && byte_is c 159)
  || (byte_is a 227 && byte_is b 128 && byte_is c 128).

(** [drop_ws w2 w3 s] drops the white space at the front of [s]; the tests of
    the encodings of two and three bytes are arguments, so that the same
    function reads a text from its end. *)
Fixpoint drop_ws (w2 : ascii → ascii → bool) (w3 : ascii → ascii → ascii → bool)
    (s : string) : string :=
  match s with
  | EmptyString => EmptyString
  | String a s1 =>
      if ws1 a then drop_ws w2 w3 s1
      else match s1 with
      | EmptyString => s
      | String b s2 =>
          if w2 a b then drop_ws w2 w3 s2
          else match s2 with
          | EmptyString => s
          | String c s3 => if w3 a b c then drop_ws w2 w3 s3 else s
          end
      end
  end.

Fixpoint rev_onto (s acc : string) : string :=
  match s with
  | EmptyString => acc
  | String a s' => rev_onto s' (String a acc)
  end.
Definition rev_text (s : string) : string := rev_onto s EmptyString.

(** [str::trim_start], [str::trim_end] and [str::trim]. *)
Definition trim_start (s : string) : string := drop_ws ws2 ws3 s.
Definition trim_end (s : string) : string :=
  rev_text (drop_ws (λ b a, ws2 a b) (λ c b a, ws3 a b c) (rev_text s)).
Definition trim (s : string) : string := trim_end (trim_start s).

(** [str::is_empty], and [s.trim().is_empty()]. *)
Definition is_empty (s : string) : bool :=
  match s with EmptyString => true | _ => false end.
Definition is_blank (s : string) : bool := is_empty (trim s).

(** ** Parts of a text *)
Fixpoint strip_prefix (p s : string) : option string :=
  match p, s with
  | EmptyString, _ => Some s
  | String a p', String b s' =>
      if Ascii.eqb a b then strip_prefix p' s' else None
  | String _ _, EmptyString => None
  end.
Definition starts_with (s p : string) : bool := is_some (strip_prefix p s).

(** [s.split(sep)] of one byte: never empty, and [""] splits into [[""]]. *)
Fixpoint split_on (sep : ascii) (s : string) : list string :=
  match s with
  | EmptyString => [EmptyString]
  | String a s' =>
      if Ascii.eqb a sep then EmptyString :: split_on sep s'
      else match split_on sep s' with
      | [] => [String a EmptyString]
      | w :: ws => String a w :: ws
      end
  end.

(** [parts.join(sep)]. *)
Fixpoint join (sep : string) (parts : list string) : string :=
  match parts with
  | [] => EmptyString
  | [w] => w
  | w :: ws => w +:+ sep +:+ join sep ws
  end.

Definition bytes (s : string) : list ascii := String.list_ascii_of_string s.

(** [value.bytes().all(|b| b.is_ascii_lowercase() || b.is_ascii_digit() ||
    b == b'-' || b == b'_')]. *)
Definition slug_byte (c : ascii) : bool :=
  byte_in c 97 122 || byte_in c 48 57 || byte_is c 45 || byte_is c 95.
Definition slug_text (s : string) : bool := forallb slug_byte (bytes s).

(** [to_string] of an integer. *)
Definition decimal (z : Z) : string := pretty z.

(** [format!] of the parts of a text, in order. *)
Definition format (parts : list string) : string := foldr String.append EmptyString parts.

(** The [Debug] of an [Option], of a [Vec] and of an [i64] in a tuple struct. *)
Definition debug_option {A} (show : A → string) (o : option A) : string :=
  match o with Some a => format ["Some("; show a; ")"] | None => "None" end.
Definition debug_list {A} (show : A → string) (l : list A) : string :=
  format ["["; join ", " (show <$> l); "]"].
Definition debug_tuple (name : string) (value : Z) : string :=
  format [name; "("; decimal value; ")"].

(** [s.chars().take(n).collect()]: a character is a byte and the
    continuation bytes (128 to 191) after it. *)
Fixpoint take_chars (n : nat) (s : string) : string :=
  match s with
  | EmptyString => EmptyString
  | String a s' =>
      if byte_in a 128 191 then String a (take_chars n s')
      else match n with 0 => EmptyString | S n => String a (take_chars n s') end
  end.

(** [str::split_once] and [str::rsplit_once] at a character: what is before
    its first, its last, and what is after. *)
Fixpoint split_once (sep : ascii) (s : string) : option (string * string) :=
  match s with
  | EmptyString => None
  | String a s =>
      if Ascii.eqb a sep then Some (EmptyString, s)
      else cut ← split_once sep s; Some (String a cut.1, cut.2)
  end.
Fixpoint rsplit_once (sep : ascii) (s : string) : option (string * string) :=
  match s with
  | EmptyString => None
  | String a s =>
      match rsplit_once sep s with
      | Some cut => Some (String a cut.1, cut.2)
      | None => if Ascii.eqb a sep then Some (EmptyString, s) else None
      end
  end.

(** [strip_suffix] of a character, [split_once] at the first of a set of
    characters, and [splitn]. *)
Fixpoint strip_last (c : ascii) (s : string) : option string :=
  match s with
  | EmptyString => None
  | String a EmptyString => if Ascii.eqb a c then Some EmptyString else None
  | String a s => String a <$> strip_last c s
  end.
Fixpoint split_once_any (seps : list ascii) (s : string) : option (string * string) :=
  match s with
  | EmptyString => None
  | String a s =>
      if existsb (Ascii.eqb a) seps then Some (EmptyString, s)
      else cut ← split_once_any seps s; Some (String a cut.1, cut.2)
  end.
Fixpoint splitn (n : nat) (sep : ascii) (s : string) : list string :=
  match n with
  | 0 => []
  | S n =>
      match n, split_once sep s with
      | S _, Some (part, rest) => part :: splitn n sep rest
      | _, _ => [s]
      end
  end.

(** [str::split_whitespace]: the words between the white space, none empty;
    [word] is the one being read, backwards. *)
Definition end_word (word : string) (words : list string) : list string :=
  if is_empty word then words else rev_text word :: words.
Fixpoint words_from (s word : string) : list string :=
  match s with
  | EmptyString => end_word word []
  | String a s1 =>
      if ws1 a then end_word word (words_from s1 EmptyString)
      else match s1 with
      | EmptyString => end_word (String a word) []
      | String b s2 =>
          if ws2 a b then end_word word (words_from s2 EmptyString)
          else match s2 with
          | EmptyString => words_from s1 (String a word)
          | String c s3 =>
              if ws3 a b c then end_word word (words_from s3 EmptyString)
              else words_from s1 (String a word)
          end
      end
  end.
Definition split_whitespace (s : string) : list string := words_from s EmptyString.

(** [str::lines]: the pieces ended by a newline, each without it and without
    the carriage return before it, and what comes after the last. *)
Definition newline : ascii := Ascii.ascii_of_nat 10.
Definition carriage_return : ascii := Ascii.ascii_of_nat 13.
Definition strip_return (s : string) : string :=
  match rev_text s with
  | String c r => if Ascii.eqb c carriage_return then rev_text r else s
  | EmptyString => s
  end.
Definition lines (s : string) : list string :=
  match rev (split_on newline s) with
  | [] => []
  | last :: ended =>
      (strip_return <$> rev ended) ++ (if is_empty last then [] else [last])
  end.

(** ** Lemmas *)
Lemma append_cons a (s t : string) : String a s +:+ t = String a (s +:+ t).
Proof. reflexivity. Qed.

Lemma append_assoc (s t u : string) : s +:+ (t +:+ u) = (s +:+ t) +:+ u.
Proof. induction s as [|a s IH]; [done|]. rewrite !append_cons. by rewrite IH. Qed.

Lemma append_nil_r (s : string) : s +:+ EmptyString = s.
Proof. induction s as [|a s IH]; [done|]. rewrite append_cons. by rewrite IH. Qed.

Lemma rev_onto_app s t acc : rev_onto (s +:+ t) acc = rev_onto t (rev_onto s acc).
Proof. revert acc. induction s; simpl; auto. Qed.

Lemma rev_onto_acc s acc : rev_onto s acc = rev_onto s EmptyString +:+ acc.
Proof.
  revert acc. induction s as [|a s IH]; intros acc; simpl; [done|].
  rewrite IH, (IH (String a EmptyString)). by rewrite <-append_assoc.
Qed.

Lemma rev_text_cons a s : rev_text (String a s) = rev_text s +:+ String a EmptyString.
Proof. unfold rev_text. simpl. apply rev_onto_acc. Qed.

Lemma rev_text_app s t : rev_text (s +:+ t) = rev_text t +:+ rev_text s.
Proof. unfold rev_text. by rewrite rev_onto_app, rev_onto_acc. Qed.

Lemma rev_text_involutive s : rev_text (rev_text s) = s.
Proof.
  induction s as [|a s IH]; [done|].
  rewrite rev_text_cons, rev_text_app, IH. done.
Qed.

Lemma rev_text_empty s : rev_text s = EmptyString → s = EmptyString.
Proof. intros Hs. by rewrite <-(rev_text_involutive s), Hs. Qed.

(** [drop_ws] leaves nothing to drop. *)
Lemma drop_ws_idemp w2 w3 s : drop_ws w2 w3 (drop_ws w2 w3 s) = drop_ws w2 w3 s.
Proof.
  induction s as [s IH] using (induction_ltof1 _ String.length); unfold ltof in IH.
  destruct s as [|a s1]; [done|]. cbn [drop_ws].
  destruct (ws1 a) eqn:Ha; [apply IH; simpl; lia|].
  destruct s1 as [|b s2]; [simpl; by rewrite Ha|].
  destruct (w2 a b) eqn:Hb; [apply IH; simpl; lia|].
  destruct s2 as [|c s3]; [simpl; by rewrite Ha, Hb|].
  destruct (w3 a b c) eqn:Hc; [apply IH; simpl; lia|].
  cbn [drop_ws]. by rewrite Ha, Hb, Hc.
Qed.

Lemma trim_start_idemp s : trim_start (trim_start s) = trim_start s.
Proof. apply drop_ws_idemp. Qed.

Lemma trim_end_idemp s : trim_end (trim_end s) = trim_end s.
Proof. unfold trim_end. by rewrite rev_text_involutive, drop_ws_idemp. Qed.

Lemma split_on_nonempty sep s : split_on sep s ≠ [].
Proof. destruct s as [|a s]; simpl; [done|]. destruct (Ascii.eqb _ _); [done|]. by destruct (split_on sep s). Qed.

Lemma strip_prefix_Some p s r : strip_prefix p s = Some r ↔ s = p +:+ r.
Proof.
  revert s. induction p as [|a p IH]; intros s; simpl; [naive_solver|].
  destruct s as [|b s]; [split; discriminate|].
  destruct (Ascii.eqb_spec a b) as [->|Hne].
  - rewrite IH. change (String b p +:+ r) with (String b (p +:+ r)). naive_solver.
  - split; [done|]. intros [=]; by subst.
Qed.

Lemma join_push a sep w ws :
  join sep (String a w :: ws) = String a (join sep (w :: ws)).
Proof. by destruct ws. Qed.

Lemma join_split sep s :
  join (String sep EmptyString) (split_on sep s) = s.
Proof.
  induction s as [|a s IH]; [done|]. cbn [split_on].
  pose proof (split_on_nonempty sep s) as Hne.
  destruct (Ascii.eqb_spec a sep) as [->|Ha].
  - destruct (split_on sep s) as [|w ws]; [done|].
    change (String sep (join (String sep EmptyString) (w :: ws)) = String sep s). by f_equal.
  - destruct (split_on sep s) as [|w ws]; [done|]. by rewrite join_push, IH.
Qed.

(** What precedes the first byte [sep] of a text is determined by it. *)
Definition free_of (sep : ascii) (s : string) : bool :=
  forallb (λ b, negb (Ascii.eqb b sep)) (bytes s).

Lemma free_of_cons sep a s :
  free_of sep (String a s) = negb (Ascii.eqb a sep) && free_of sep s.
Proof. reflexivity. Qed.

Lemma cut_unique sep s t x y :
  free_of sep s = true → free_of sep t = true →
  s +:+ String sep x = t +:+ String sep y → s = t ∧ x = y.
Proof.
  revert t. induction s as [|a s IH]; intros [|b t] Hs Ht Heq; simpl in Heq.
  - by injection Heq.
  - injection Heq as <- _. by rewrite free_of_cons, Ascii.eqb_refl in Ht.
  - injection Heq as -> _. by rewrite free_of_cons, Ascii.eqb_refl in Hs.
  - rewrite free_of_cons in Hs, Ht. bool_split. injection Heq as -> Heq.
    by destruct (IH t) as [-> ->].
Qed.

Lemma pretty_go_free sep x s :
  (∀ n, negb (Ascii.eqb (pretty_N_char n) sep) = true) →
  free_of sep s = true → free_of sep (pretty_N_go x s) = true.
Proof.
  intros Hsep. revert s. induction (N.lt_wf_0 x) as [x _ IH]; intros s Hs.
  assert (x = 0 ∨ 0 < x)%N as [->|?] by lia; [by rewrite pretty_N_go_0|].
  rewrite pretty_N_go_step by done. apply IH; [by apply N.div_lt|].
  by rewrite free_of_cons, Hsep.
Qed.

(** A decimal number has no colon. *)
Lemma decimal_free_of_colon z : free_of ":" (decimal z) = true.
Proof.
  assert (∀ n, negb (Ascii.eqb (pretty_N_char n) ":") = true) as Hsep.
  { intros n. unfold pretty_N_char. by repeat case_match. }
  assert (∀ n : N, free_of ":" (pretty n) = true) as HN.
  { intros n. unfold pretty, pretty_N. case_decide; [done|]. by apply pretty_go_free. }
  unfold decimal, pretty, pretty_Z. destruct z as [|p|p]; [done|apply (HN (Npos p))|].
  exact (HN (Npos p)).
Qed.

Lemma decimal_inj z w : decimal z = decimal w → z = w.
Proof. apply (inj pretty). Qed.
