(* ===== verification/Vocab.v ===== *)
(** * The vocabulary: enums of fixed text values

    One Module per enum the source declares with [string_enum!]: the type [t]
    with the source's constructors, the text of each value ([as_str]), the
    [StringEnum] instance that lists them in order, the proof of its laws, and
    the inherent methods of the enum. *)
From S2P Require Import Prelude.

(** Where a task stands; only plan review, a bypass or a retry make it [Ready]. *)
Module TaskStatus.
Inductive t : Set :=
  | Draft
  | Submitted
  | Ready
  | InProgress
  | Completed
  | Canceled
  | Replaced.
#[global] Instance eq_dec : EqDecision t.
Proof. solve_decision. Defined.
Definition as_str (v : t) : string :=
  match v with
  | Draft => "draft"
  | Submitted => "submitted"
  | Ready => "ready"
  | InProgress => "in_progress"
  | Completed => "completed"
  | Canceled => "canceled"
  | Replaced => "replaced"
  end.
#[global] Instance string_enum : StringEnum t :=
  Build_StringEnum t "TaskStatus" as_str
    [Draft; Submitted; Ready; InProgress; Completed; Canceled;
     Replaced].
#[global] Instance laws : StringEnumLaws t.
Proof. string_enum_laws. Qed.
End TaskStatus.
Abbreviation TaskStatus := TaskStatus.t.

(** Where a run stands. *)
Module RunStatus.
Inductive t : Set :=
  | Claimed
  | Starting
  | Running
  | Validating
  | AwaitingIntegration
  | Integrating
  | NeedsSession
  | Integrated
  | Succeeded
  | Failed
  | Interrupted
  | Replaced.
#[global] Instance eq_dec : EqDecision t.
Proof. solve_decision. Defined.
Definition as_str (v : t) : string :=
  match v with
  | Claimed => "claimed"
  | Starting => "starting"
  | Running => "running"
  | Validating => "validating"
  | AwaitingIntegration => "awaiting_integration"
  | Integrating => "integrating"
  | NeedsSession => "needs_session"
  | Integrated => "integrated"
  | Succeeded => "succeeded"
  | Failed => "failed"
  | Interrupted => "interrupted"
  | Replaced => "replaced"
  end.
#[global] Instance string_enum : StringEnum t :=
  Build_StringEnum t "RunStatus" as_str
    [Claimed; Starting; Running; Validating; AwaitingIntegration;
     Integrating; NeedsSession; Integrated; Succeeded; Failed;
     Interrupted; Replaced].
#[global] Instance laws : StringEnumLaws t.
Proof. string_enum_laws. Qed.
(** Whether a run in this status keeps its task from the candidates and from
    another claim. *)
Definition is_unfinished (self : t) : bool :=
  match self with
  | Claimed | Starting | Running | Validating | AwaitingIntegration
  | Integrating | NeedsSession => true
  | _ => false
  end.
End RunStatus.
Abbreviation RunStatus := RunStatus.t.

(** The agent a worker session runs on. *)
Module Provider.
Inductive t : Set :=
  | Claude
  | Codex.
#[global] Instance eq_dec : EqDecision t.
Proof. solve_decision. Defined.
Definition as_str (v : t) : string :=
  match v with
  | Claude => "claude"
  | Codex => "codex"
  end.
#[global] Instance string_enum : StringEnum t :=
  Build_StringEnum t "Provider" as_str
    [Claude; Codex].
#[global] Instance laws : StringEnumLaws t.
Proof. string_enum_laws. Qed.
(** The provider a worker moves to when this one cannot be used. *)
Definition other (self : t) : t :=
  match self with Claude => Codex | Codex => Claude end.
End Provider.
Abbreviation Provider := Provider.t.

(** How a supervisor was started. *)
Module SupervisorMode.
Inductive t : Set :=
  | Launchd
  | InCmux.
#[global] Instance eq_dec : EqDecision t.
Proof. solve_decision. Defined.
Definition as_str (v : t) : string :=
  match v with
  | Launchd => "launchd"
  | InCmux => "in_cmux"
  end.
#[global] Instance string_enum : StringEnum t :=
  Build_StringEnum t "SupervisorMode" as_str
    [Launchd; InCmux].
#[global] Instance laws : StringEnumLaws t.
Proof. string_enum_laws. Qed.
End SupervisorMode.
Abbreviation SupervisorMode := SupervisorMode.t.

(** The part a workspace plays for a queue. *)
Module SessionRole.
Inductive t : Set :=
  | Supervisor
  | Worker
  | Planner
  | Inbox
  | Observer.
#[global] Instance eq_dec : EqDecision t.
Proof. solve_decision. Defined.
Definition as_str (v : t) : string :=
  match v with
  | Supervisor => "supervisor"
  | Worker => "worker"
  | Planner => "planner"
  | Inbox => "inbox"
  | Observer => "observer"
  end.
#[global] Instance string_enum : StringEnum t :=
  Build_StringEnum t "SessionRole" as_str
    [Supervisor; Worker; Planner; Inbox; Observer].
#[global] Instance laws : StringEnumLaws t.
Proof. string_enum_laws. Qed.
End SessionRole.
Abbreviation SessionRole := SessionRole.t.

(** Whether the tasks of a goal may run. *)
Module GoalStatus.
Inductive t : Set :=
  | Draft
  | Open.
#[global] Instance eq_dec : EqDecision t.
Proof. solve_decision. Defined.
Definition as_str (v : t) : string :=
  match v with
  | Draft => "draft"
  | Open => "open"
  end.
#[global] Instance string_enum : StringEnum t :=
  Build_StringEnum t "GoalStatus" as_str
    [Draft; Open].
#[global] Instance laws : StringEnumLaws t.
Proof. string_enum_laws. Qed.
End GoalStatus.
Abbreviation GoalStatus := GoalStatus.t.

(** How a goal was closed. *)
Module GoalVerdict.
Inductive t : Set :=
  | Achieved
  | Abandoned.
#[global] Instance eq_dec : EqDecision t.
Proof. solve_decision. Defined.
Definition as_str (v : t) : string :=
  match v with
  | Achieved => "achieved"
  | Abandoned => "abandoned"
  end.
#[global] Instance string_enum : StringEnum t :=
  Build_StringEnum t "GoalVerdict" as_str
    [Achieved; Abandoned].
#[global] Instance laws : StringEnumLaws t.
Proof. string_enum_laws. Qed.
End GoalVerdict.
Abbreviation GoalVerdict := GoalVerdict.t.

(** Why an ask needs a person. *)
Module AskReason.
Inductive t : Set :=
  | Authentication
  | Cost
  | Scope
  | Discard
  | RecoveryFailed.
#[global] Instance eq_dec : EqDecision t.
Proof. solve_decision. Defined.
Definition as_str (v : t) : string :=
  match v with
  | Authentication => "authentication"
  | Cost => "cost"
  | Scope => "scope"
  | Discard => "discard"
  | RecoveryFailed => "recovery_failed"
  end.
#[global] Instance string_enum : StringEnum t :=
  Build_StringEnum t "AskReason" as_str
    [Authentication; Cost; Scope; Discard; RecoveryFailed].
#[global] Instance laws : StringEnumLaws t.
Proof. string_enum_laws. Qed.
(** The reasons of a [queue_hold] ask. *)
Definition holds_the_queue (self : t) : bool :=
  match self with Authentication | Cost => true | _ => false end.
End AskReason.
Abbreviation AskReason := AskReason.t.

(** Where a proposal stands. *)
Module ProposalStatus.
Inductive t : Set :=
  | Submitted
  | Revising
  | Accepted
  | Canceled.
#[global] Instance eq_dec : EqDecision t.
Proof. solve_decision. Defined.
Definition as_str (v : t) : string :=
  match v with
  | Submitted => "submitted"
  | Revising => "revising"
  | Accepted => "accepted"
  | Canceled => "canceled"
  end.
#[global] Instance string_enum : StringEnum t :=
  Build_StringEnum t "ProposalStatus" as_str
    [Submitted; Revising; Accepted; Canceled].
#[global] Instance laws : StringEnumLaws t.
Proof. string_enum_laws. Qed.
End ProposalStatus.
Abbreviation ProposalStatus := ProposalStatus.t.

(** Who opened a planner. *)
Module PlannerOrigin.
Inductive t : Set :=
  | Person
  | Runtime.
#[global] Instance eq_dec : EqDecision t.
Proof. solve_decision. Defined.
Definition as_str (v : t) : string :=
  match v with
  | Person => "person"
  | Runtime => "runtime"
  end.
#[global] Instance string_enum : StringEnum t :=
  Build_StringEnum t "PlannerOrigin" as_str
    [Person; Runtime].
#[global] Instance laws : StringEnumLaws t.
Proof. string_enum_laws. Qed.
End PlannerOrigin.
Abbreviation PlannerOrigin := PlannerOrigin.t.

(** How the agent of a planner runs. *)
Module PlannerRoute.
Inductive t : Set :=
  | Interactive
  | Headless.
#[global] Instance eq_dec : EqDecision t.
Proof. solve_decision. Defined.
Definition as_str (v : t) : string :=
  match v with
  | Interactive => "interactive"
  | Headless => "headless"
  end.
#[global] Instance string_enum : StringEnum t :=
  Build_StringEnum t "PlannerRoute" as_str
    [Interactive; Headless].
#[global] Instance laws : StringEnumLaws t.
Proof. string_enum_laws. Qed.
End PlannerRoute.
Abbreviation PlannerRoute := PlannerRoute.t.

(** Why the runtime closed a planner. *)
Module PlannerCloseCode.
Inductive t : Set :=
  | PersonRetired
  | RuntimeExited
  | RuntimeLost
  | RuntimeSessionGone
  | RuntimeExitTimedOut
  | RuntimeAnswerWait
  | Abandoned.
#[global] Instance eq_dec : EqDecision t.
Proof. solve_decision. Defined.
Definition as_str (v : t) : string :=
  match v with
  | PersonRetired => "person_retired"
  | RuntimeExited => "runtime_exited"
  | RuntimeLost => "runtime_lost"
  | RuntimeSessionGone => "runtime_session_gone"
  | RuntimeExitTimedOut => "runtime_exit_timed_out"
  | RuntimeAnswerWait => "runtime_answer_wait"
  | Abandoned => "abandoned"
  end.
#[global] Instance string_enum : StringEnum t :=
  Build_StringEnum t "PlannerCloseCode" as_str
    [PersonRetired; RuntimeExited; RuntimeLost; RuntimeSessionGone;
     RuntimeExitTimedOut; RuntimeAnswerWait; Abandoned].
#[global] Instance laws : StringEnumLaws t.
Proof. string_enum_laws. Qed.
End PlannerCloseCode.
Abbreviation PlannerCloseCode := PlannerCloseCode.t.

(** How a planner session stands. *)
Module PlannerState.
Inductive t : Set :=
  | Opening
  | Working
  | Idle
  | Exited
  | Lost
  | Closed.
#[global] Instance eq_dec : EqDecision t.
Proof. solve_decision. Defined.
Definition as_str (v : t) : string :=
  match v with
  | Opening => "opening"
  | Working => "working"
  | Idle => "idle"
  | Exited => "exited"
  | Lost => "lost"
  | Closed => "closed"
  end.
#[global] Instance string_enum : StringEnum t :=
  Build_StringEnum t "PlannerState" as_str
    [Opening; Working; Idle; Exited; Lost; Closed].
#[global] Instance laws : StringEnumLaws t.
Proof. string_enum_laws. Qed.
End PlannerState.
Abbreviation PlannerState := PlannerState.t.

(** The verdict of a review of a run. *)
Module ReviewDecision.
Inductive t : Set :=
  | Pass
  | Revise
  | Concern.
#[global] Instance eq_dec : EqDecision t.
Proof. solve_decision. Defined.
Definition as_str (v : t) : string :=
  match v with
  | Pass => "pass"
  | Revise => "revise"
  | Concern => "concern"
  end.
#[global] Instance string_enum : StringEnum t :=
  Build_StringEnum t "ReviewDecision" as_str
    [Pass; Revise; Concern].
#[global] Instance laws : StringEnumLaws t.
Proof. string_enum_laws. Qed.
End ReviewDecision.
Abbreviation ReviewDecision := ReviewDecision.t.

(** What a receipt reports of its run. *)
Module ReceiptResult.
Inductive t : Set :=
  | Succeeded
  | Failed
  | AlreadySatisfied.
#[global] Instance eq_dec : EqDecision t.
Proof. solve_decision. Defined.
Definition as_str (v : t) : string :=
  match v with
  | Succeeded => "succeeded"
  | Failed => "failed"
  | AlreadySatisfied => "already_satisfied"
  end.
#[global] Instance string_enum : StringEnum t :=
  Build_StringEnum t "ReceiptResult" as_str
    [Succeeded; Failed; AlreadySatisfied].
#[global] Instance laws : StringEnumLaws t.
Proof. string_enum_laws. Qed.
End ReceiptResult.
Abbreviation ReceiptResult := ReceiptResult.t.

(** What a receipt reports of a check. *)
Module CheckStatus.
Inductive t : Set :=
  | Passed
  | Failed
  | NotApplicable.
#[global] Instance eq_dec : EqDecision t.
Proof. solve_decision. Defined.
Definition as_str (v : t) : string :=
  match v with
  | Passed => "passed"
  | Failed => "failed"
  | NotApplicable => "not_applicable"
  end.
#[global] Instance string_enum : StringEnum t :=
  Build_StringEnum t "CheckStatus" as_str
    [Passed; Failed; NotApplicable].
#[global] Instance laws : StringEnumLaws t.
Proof. string_enum_laws. Qed.
End CheckStatus.
Abbreviation CheckStatus := CheckStatus.t.

(** A receipt check a task can demand evidence for. *)
Module EvidenceCheck.
Inductive t : Set :=
  | Tests
  | E2e
  | SubagentReview.
#[global] Instance eq_dec : EqDecision t.
Proof. solve_decision. Defined.
Definition as_str (v : t) : string :=
  match v with
  | Tests => "tests"
  | E2e => "e2e"
  | SubagentReview => "subagent_review"
  end.
#[global] Instance string_enum : StringEnum t :=
  Build_StringEnum t "EvidenceCheck" as_str
    [Tests; E2e; SubagentReview].
#[global] Instance laws : StringEnumLaws t.
Proof. string_enum_laws. Qed.
End EvidenceCheck.
Abbreviation EvidenceCheck := EvidenceCheck.t.

(** The level the priority of a task comes from. *)
Module PrioritySource.
Inductive t : Set :=
  | Task
  | Goal
  | Default.
#[global] Instance eq_dec : EqDecision t.
Proof. solve_decision. Defined.
Definition as_str (v : t) : string :=
  match v with
  | Task => "task"
  | Goal => "goal"
  | Default => "default"
  end.
#[global] Instance string_enum : StringEnum t :=
  Build_StringEnum t "PrioritySource" as_str
    [Task; Goal; Default].
#[global] Instance laws : StringEnumLaws t.
Proof. string_enum_laws. Qed.
End PrioritySource.
Abbreviation PrioritySource := PrioritySource.t.

(** How a worker runs. *)
Module WorkerMode.
Inductive t : Set :=
  | Interactive
  | Headless.
#[global] Instance eq_dec : EqDecision t.
Proof. solve_decision. Defined.
Definition as_str (v : t) : string :=
  match v with
  | Interactive => "interactive"
  | Headless => "headless"
  end.
#[global] Instance string_enum : StringEnum t :=
  Build_StringEnum t "WorkerMode" as_str
    [Interactive; Headless].
#[global] Instance laws : StringEnumLaws t.
Proof. string_enum_laws. Qed.
End WorkerMode.
Abbreviation WorkerMode := WorkerMode.t.

(** Where a planning request stands. *)
Module RequestStatus.
Inductive t : Set :=
  | Open
  | Proposed
  | Declined
  | Exhausted.
#[global] Instance eq_dec : EqDecision t.
Proof. solve_decision. Defined.
Definition as_str (v : t) : string :=
  match v with
  | Open => "open"
  | Proposed => "proposed"
  | Declined => "declined"
  | Exhausted => "exhausted"
  end.
#[global] Instance string_enum : StringEnum t :=
  Build_StringEnum t "RequestStatus" as_str
    [Open; Proposed; Declined; Exhausted].
#[global] Instance laws : StringEnumLaws t.
Proof. string_enum_laws. Qed.
(** Whether the request waits for a person to reword or drop it. *)
Definition needs_a_person (self : t) : bool :=
  match self with Declined | Exhausted => true | _ => false end.
End RequestStatus.
Abbreviation RequestStatus := RequestStatus.t.

(** Whether a goal or task comes from a person. *)
Module Origin.
Inductive t : Set :=
  | Human
  | Ai
  | Unknown.
#[global] Instance eq_dec : EqDecision t.
Proof. solve_decision. Defined.
Definition as_str (v : t) : string :=
  match v with
  | Human => "human"
  | Ai => "ai"
  | Unknown => "unknown"
  end.
#[global] Instance string_enum : StringEnum t :=
  Build_StringEnum t "Origin" as_str
    [Human; Ai; Unknown].
#[global] Instance laws : StringEnumLaws t.
Proof. string_enum_laws. Qed.
End Origin.
Abbreviation Origin := Origin.t.

(** What made a goal or task. *)
Module OriginKind.
Inductive t : Set :=
  | Request
  | Person
  | Finding
  | FollowUp
  | GoalGap
  | Reopened
  | Draft
  | Planner
  | Runtime.
#[global] Instance eq_dec : EqDecision t.
Proof. solve_decision. Defined.
Definition as_str (v : t) : string :=
  match v with
  | Request => "request"
  | Person => "person"
  | Finding => "finding"
  | FollowUp => "follow_up"
  | GoalGap => "goal_gap"
  | Reopened => "reopened"
  | Draft => "draft"
  | Planner => "planner"
  | Runtime => "runtime"
  end.
#[global] Instance string_enum : StringEnum t :=
  Build_StringEnum t "OriginKind" as_str
    [Request; Person; Finding; FollowUp; GoalGap; Reopened; Draft;
     Planner; Runtime].
#[global] Instance laws : StringEnumLaws t.
Proof. string_enum_laws. Qed.
End OriginKind.
Abbreviation OriginKind := OriginKind.t.

(** Who set a priority. *)
Module PriorityBy.
Inductive t : Set :=
  | Human
  | Ai.
#[global] Instance eq_dec : EqDecision t.
Proof. solve_decision. Defined.
Definition as_str (v : t) : string :=
  match v with
  | Human => "human"
  | Ai => "ai"
  end.
#[global] Instance string_enum : StringEnum t :=
  Build_StringEnum t "PriorityBy" as_str
    [Human; Ai].
#[global] Instance laws : StringEnumLaws t.
Proof. string_enum_laws. Qed.
End PriorityBy.
Abbreviation PriorityBy := PriorityBy.t.

(** The actors of the queue. *)
Module ActorRole.
Inductive t : Set :=
  | User
  | Inbox
  | Planner
  | Worker
  | ReviewJob
  | RecoveryJob
  | PlanReviewJob
  | GoalReviewJob
  | ThroughputReviewJob
  | SetupReviewJob
  | Observer
  | Supervisor
  | Wrapper
  | Integrator
  | ExecutorTelemetry.
#[global] Instance eq_dec : EqDecision t.
Proof. solve_decision. Defined.
Definition as_str (v : t) : string :=
  match v with
  | User => "user"
  | Inbox => "inbox"
  | Planner => "planner"
  | Worker => "worker"
  | ReviewJob => "review-job"
  | RecoveryJob => "recovery-job"
  | PlanReviewJob => "plan-review-job"
  | GoalReviewJob => "goal-review-job"
  | ThroughputReviewJob => "throughput-review-job"
  | SetupReviewJob => "setup-review-job"
  | Observer => "observer"
  | Supervisor => "supervisor"
  | Wrapper => "wrapper"
  | Integrator => "integrator"
  | ExecutorTelemetry => "executor-telemetry"
  end.
#[global] Instance string_enum : StringEnum t :=
  Build_StringEnum t "ActorRole" as_str
    [User; Inbox; Planner; Worker; ReviewJob; RecoveryJob;
     PlanReviewJob; GoalReviewJob; ThroughputReviewJob;
     SetupReviewJob; Observer; Supervisor; Wrapper; Integrator;
     ExecutorTelemetry].
#[global] Instance laws : StringEnumLaws t.
Proof. string_enum_laws. Qed.
Definition ALL : list t :=
  [User; Inbox; Planner; Worker; ReviewJob; RecoveryJob; PlanReviewJob;
   GoalReviewJob; ThroughputReviewJob; SetupReviewJob; Observer; Supervisor;
   Wrapper; Integrator; ExecutorTelemetry].
End ActorRole.
Abbreviation ActorRole := ActorRole.t.

(** How far an actor is trusted. *)
Module TrustLevel.
Inductive t : Set :=
  | Human
  | TrustedControlPlane
  | UntrustedAgent.
#[global] Instance eq_dec : EqDecision t.
Proof. solve_decision. Defined.
Definition as_str (v : t) : string :=
  match v with
  | Human => "human"
  | TrustedControlPlane => "trusted_control_plane"
  | UntrustedAgent => "untrusted_agent"
  end.
#[global] Instance string_enum : StringEnum t :=
  Build_StringEnum t "TrustLevel" as_str
    [Human; TrustedControlPlane; UntrustedAgent].
#[global] Instance laws : StringEnumLaws t.
Proof. string_enum_laws. Qed.
End TrustLevel.
Abbreviation TrustLevel := TrustLevel.t.

(** Where a registered draft came from. *)
Module DraftOrigin.
Inductive t : Set :=
  | FollowUp
  | GoalGap
  | Reopened
  | Revisit
  | Recurring.
#[global] Instance eq_dec : EqDecision t.
Proof. solve_decision. Defined.
Definition as_str (v : t) : string :=
  match v with
  | FollowUp => "follow_up"
  | GoalGap => "goal_gap"
  | Reopened => "reopened"
  | Revisit => "revisit"
  | Recurring => "recurring"
  end.
#[global] Instance string_enum : StringEnum t :=
  Build_StringEnum t "DraftOrigin" as_str
    [FollowUp; GoalGap; Reopened; Revisit; Recurring].
#[global] Instance laws : StringEnumLaws t.
Proof. string_enum_laws. Qed.
End DraftOrigin.
Abbreviation DraftOrigin := DraftOrigin.t.

(** How a follow-up stands to its source goal. *)
Module MembershipClassification.
Inductive t : Set :=
  | Required
  | OutOfScope
  | Undecided.
#[global] Instance eq_dec : EqDecision t.
Proof. solve_decision. Defined.
Definition as_str (v : t) : string :=
  match v with
  | Required => "required"
  | OutOfScope => "out_of_scope"
  | Undecided => "undecided"
  end.
#[global] Instance string_enum : StringEnum t :=
  Build_StringEnum t "MembershipClassification" as_str
    [Required; OutOfScope; Undecided].
#[global] Instance laws : StringEnumLaws t.
Proof. string_enum_laws. Qed.
End MembershipClassification.
Abbreviation MembershipClassification := MembershipClassification.t.

(** Why a follow-up keeps its goal from closing as achieved. *)
Module UnsettledReason.
Inductive t : Set :=
  | Unjudged
  | Undecided
  | NeedsRecheck
  | RequiredOutside.
#[global] Instance eq_dec : EqDecision t.
Proof. solve_decision. Defined.
Definition as_str (v : t) : string :=
  match v with
  | Unjudged => "unjudged"
  | Undecided => "undecided"
  | NeedsRecheck => "needs_recheck"
  | RequiredOutside => "required_outside"
  end.
#[global] Instance string_enum : StringEnum t :=
  Build_StringEnum t "UnsettledReason" as_str
    [Unjudged; Undecided; NeedsRecheck; RequiredOutside].
#[global] Instance laws : StringEnumLaws t.
Proof. string_enum_laws. Qed.
(** What it means, for a refused close. *)
Definition explain (self : t) : string :=
  match self with
  | Unjudged => "not judged"
  | Undecided => "undecided"
  | NeedsRecheck => "judged before the acceptance changed"
  | RequiredOutside => "required but outside the goal"
  end.
End UnsettledReason.
Abbreviation UnsettledReason := UnsettledReason.t.

(** Where a finding stands. *)
Module FindingStatus.
Inductive t : Set :=
  | Open
  | Proposed
  | Resolved
  | Dismissed.
#[global] Instance eq_dec : EqDecision t.
Proof. solve_decision. Defined.
Definition as_str (v : t) : string :=
  match v with
  | Open => "open"
  | Proposed => "proposed"
  | Resolved => "resolved"
  | Dismissed => "dismissed"
  end.
#[global] Instance string_enum : StringEnum t :=
  Build_StringEnum t "FindingStatus" as_str
    [Open; Proposed; Resolved; Dismissed].
#[global] Instance laws : StringEnumLaws t.
Proof. string_enum_laws. Qed.
(** [open] and [proposed] still ask for a remedy. *)
Definition is_unsettled (self : t) : bool :=
  match self with Open | Proposed => true | _ => false end.
End FindingStatus.
Abbreviation FindingStatus := FindingStatus.t.

(** What a Spike found. *)
Module SpikeVerdict.
Inductive t : Set :=
  | Holds
  | DoesNotHold
  | Unresolved.
#[global] Instance eq_dec : EqDecision t.
Proof. solve_decision. Defined.
Definition as_str (v : t) : string :=
  match v with
  | Holds => "holds"
  | DoesNotHold => "does_not_hold"
  | Unresolved => "unresolved"
  end.
#[global] Instance string_enum : StringEnum t :=
  Build_StringEnum t "SpikeVerdict" as_str
    [Holds; DoesNotHold; Unresolved].
#[global] Instance laws : StringEnumLaws t.
Proof. string_enum_laws. Qed.
End SpikeVerdict.
Abbreviation SpikeVerdict := SpikeVerdict.t.

(** Where a replanning operation came from. *)
Module ReplanOrigin.
Inductive t : Set :=
  | Manual
  | Worker
  | Runtime.
#[global] Instance eq_dec : EqDecision t.
Proof. solve_decision. Defined.
Definition as_str (v : t) : string :=
  match v with
  | Manual => "manual"
  | Worker => "worker"
  | Runtime => "runtime"
  end.
#[global] Instance string_enum : StringEnum t :=
  Build_StringEnum t "ReplanOrigin" as_str
    [Manual; Worker; Runtime].
#[global] Instance laws : StringEnumLaws t.
Proof. string_enum_laws. Qed.
End ReplanOrigin.
Abbreviation ReplanOrigin := ReplanOrigin.t.

(** Where a replanning operation stands. *)
Module ReplanStatus.
Inductive t : Set :=
  | Candidate
  | Diagnosing
  | Continuing
  | PauseRequested
  | Quiescing
  | Snapshotting
  | Parked
  | Planning
  | Reviewing
  | AwaitingAnswer
  | Applying
  | Applied
  | ContinuingAfterPark
  | Withdrawn
  | Blocked.
#[global] Instance eq_dec : EqDecision t.
Proof. solve_decision. Defined.
Definition as_str (v : t) : string :=
  match v with
  | Candidate => "candidate"
  | Diagnosing => "diagnosing"
  | Continuing => "continuing"
  | PauseRequested => "pause_requested"
  | Quiescing => "quiescing"
  | Snapshotting => "snapshotting"
  | Parked => "parked"
  | Planning => "planning"
  | Reviewing => "reviewing"
  | AwaitingAnswer => "awaiting_answer"
  | Applying => "applying"
  | Applied => "applied"
  | ContinuingAfterPark => "continuing_after_park"
  | Withdrawn => "withdrawn"
  | Blocked => "blocked"
  end.
#[global] Instance string_enum : StringEnum t :=
  Build_StringEnum t "ReplanStatus" as_str
    [Candidate; Diagnosing; Continuing; PauseRequested; Quiescing;
     Snapshotting; Parked; Planning; Reviewing; AwaitingAnswer;
     Applying; Applied; ContinuingAfterPark; Withdrawn; Blocked].
#[global] Instance laws : StringEnumLaws t.
Proof. string_enum_laws. Qed.
End ReplanStatus.
Abbreviation ReplanStatus := ReplanStatus.t.

(** A step of a task or run that a guard refuses. *)
Module GuardedStep.
Inductive t : Set :=
  | Claim
  | Resume
  | Recover
  | Revise
  | Ready
  | Edit
  | Cancel
  | Dependency
  | Integrate.
#[global] Instance eq_dec : EqDecision t.
Proof. solve_decision. Defined.
Definition as_str (v : t) : string :=
  match v with
  | Claim => "claim"
  | Resume => "resume"
  | Recover => "recover"
  | Revise => "revise"
  | Ready => "ready"
  | Edit => "edit"
  | Cancel => "cancel"
  | Dependency => "dependency"
  | Integrate => "integrate"
  end.
#[global] Instance string_enum : StringEnum t :=
  Build_StringEnum t "GuardedStep" as_str
    [Claim; Resume; Recover; Revise; Ready; Edit; Cancel; Dependency;
     Integrate].
#[global] Instance laws : StringEnumLaws t.
Proof. string_enum_laws. Qed.
End GuardedStep.
Abbreviation GuardedStep := GuardedStep.t.

(** How sure an AI is of the judgement behind its recommendation. *)
Module AskConfidence.
Inductive t : Set :=
  | High
  | Low.
#[global] Instance eq_dec : EqDecision t.
Proof. solve_decision. Defined.
Definition as_str (v : t) : string :=
  match v with
  | High => "high"
  | Low => "low"
  end.
#[global] Instance string_enum : StringEnum t :=
  Build_StringEnum t "AskConfidence" as_str
    [High; Low].
#[global] Instance laws : StringEnumLaws t.
Proof. string_enum_laws. Qed.
End AskConfidence.
Abbreviation AskConfidence := AskConfidence.t.

(** What the review job recommends for its concern. *)
Module LandingRecommendation.
Inductive t : Set :=
  | Land
  | SendBack.
#[global] Instance eq_dec : EqDecision t.
Proof. solve_decision. Defined.
Definition as_str (v : t) : string :=
  match v with
  | Land => "land"
  | SendBack => "send_back"
  end.
#[global] Instance string_enum : StringEnum t :=
  Build_StringEnum t "LandingRecommendation" as_str
    [Land; SendBack].
#[global] Instance laws : StringEnumLaws t.
Proof. string_enum_laws. Qed.
End LandingRecommendation.
Abbreviation LandingRecommendation := LandingRecommendation.t.

(** Why a person is needed for a concern. *)
Module ConcernReason.
Inductive t : Set :=
  | Scope
  | Discard.
#[global] Instance eq_dec : EqDecision t.
Proof. solve_decision. Defined.
Definition as_str (v : t) : string :=
  match v with
  | Scope => "scope"
  | Discard => "discard"
  end.
#[global] Instance string_enum : StringEnum t :=
  Build_StringEnum t "ConcernReason" as_str
    [Scope; Discard].
#[global] Instance laws : StringEnumLaws t.
Proof. string_enum_laws. Qed.
End ConcernReason.
Abbreviation ConcernReason := ConcernReason.t.

(** Why a concern went to a person rather than being applied. *)
Module EscalatedBecause.
Inductive t : Set :=
  | NoRecommendation
  | LowConfidence
  | Scope
  | Discard
  | ReviseLimit
  | Unsent.
#[global] Instance eq_dec : EqDecision t.
Proof. solve_decision. Defined.
Definition as_str (v : t) : string :=
  match v with
  | NoRecommendation => "no_recommendation"
  | LowConfidence => "low_confidence"
  | Scope => "scope"
  | Discard => "discard"
  | ReviseLimit => "revise_limit"
  | Unsent => "unsent"
  end.
#[global] Instance string_enum : StringEnum t :=
  Build_StringEnum t "EscalatedBecause" as_str
    [NoRecommendation; LowConfidence; Scope; Discard; ReviseLimit;
     Unsent].
#[global] Instance laws : StringEnumLaws t.
Proof. string_enum_laws. Qed.
End EscalatedBecause.
Abbreviation EscalatedBecause := EscalatedBecause.t.

(** How a plan replaces a task. *)
Module PlanChoice.
Inductive t : Set :=
  | Split
  | Redistribute.
#[global] Instance eq_dec : EqDecision t.
Proof. solve_decision. Defined.
Definition as_str (v : t) : string :=
  match v with
  | Split => "split"
  | Redistribute => "redistribute"
  end.
#[global] Instance string_enum : StringEnum t :=
  Build_StringEnum t "PlanChoice" as_str
    [Split; Redistribute].
#[global] Instance laws : StringEnumLaws t.
Proof. string_enum_laws. Qed.
End PlanChoice.
Abbreviation PlanChoice := PlanChoice.t.

(** How an acceptance item goes to a replacement. *)
Module ItemDisposition.
Inductive t : Set :=
  | Split
  | Redistribute
  | Landed
  | Deleted.
#[global] Instance eq_dec : EqDecision t.
Proof. solve_decision. Defined.
Definition as_str (v : t) : string :=
  match v with
  | Split => "split"
  | Redistribute => "redistribute"
  | Landed => "landed"
  | Deleted => "deleted"
  end.
#[global] Instance string_enum : StringEnum t :=
  Build_StringEnum t "ItemDisposition" as_str
    [Split; Redistribute; Landed; Deleted].
#[global] Instance laws : StringEnumLaws t.
Proof. string_enum_laws. Qed.
End ItemDisposition.
Abbreviation ItemDisposition := ItemDisposition.t.

(** What a child of a replacement starts from. *)
Module CarrySource.
Inductive t : Set :=
  | Base
  | SnapshotHead
  | SnapshotDiff.
#[global] Instance eq_dec : EqDecision t.
Proof. solve_decision. Defined.
Definition as_str (v : t) : string :=
  match v with
  | Base => "base"
  | SnapshotHead => "snapshot_head"
  | SnapshotDiff => "snapshot_diff"
  end.
#[global] Instance string_enum : StringEnum t :=
  Build_StringEnum t "CarrySource" as_str
    [Base; SnapshotHead; SnapshotDiff].
#[global] Instance laws : StringEnumLaws t.
Proof. string_enum_laws. Qed.
End CarrySource.
Abbreviation CarrySource := CarrySource.t.

(** What a problem of a replacement plan is about. *)
Module PlanProblemCode.
Inductive t : Set :=
  | OperationMismatch
  | NotWithPlanner
  | VersionStale
  | BlankRationale
  | NoChildren
  | ChildUnknown
  | ChildNotMember
  | ChildNotPending
  | MemberNotChild
  | OriginalAsChild
  | GoalMismatch
  | ItemUnmapped
  | ItemUnknown
  | ItemRepeated
  | ChildItemMissing
  | DeletionUnauthorized
  | LandedUnproven
  | ChildHoldsNothing
  | VerificationWeakened
  | EvidenceDropped
  | PathsMissing
  | CarryUnclear
  | PredecessorDropped
  | DependencyCycle
  | SuccessorUnmapped
  | SuccessorUnknown
  | SuccessorNeedsUnclear
  | SuccessorStarted.
#[global] Instance eq_dec : EqDecision t.
Proof. solve_decision. Defined.
Definition as_str (v : t) : string :=
  match v with
  | OperationMismatch => "operation_mismatch"
  | NotWithPlanner => "not_with_planner"
  | VersionStale => "version_stale"
  | BlankRationale => "blank_rationale"
  | NoChildren => "no_children"
  | ChildUnknown => "child_unknown"
  | ChildNotMember => "child_not_member"
  | ChildNotPending => "child_not_pending"
  | MemberNotChild => "member_not_child"
  | OriginalAsChild => "original_as_child"
  | GoalMismatch => "goal_mismatch"
  | ItemUnmapped => "item_unmapped"
  | ItemUnknown => "item_unknown"
  | ItemRepeated => "item_repeated"
  | ChildItemMissing => "child_item_missing"
  | DeletionUnauthorized => "deletion_unauthorized"
  | LandedUnproven => "landed_unproven"
  | ChildHoldsNothing => "child_holds_nothing"
  | VerificationWeakened => "verification_weakened"
  | EvidenceDropped => "evidence_dropped"
  | PathsMissing => "paths_missing"
  | CarryUnclear => "carry_unclear"
  | PredecessorDropped => "predecessor_dropped"
  | DependencyCycle => "dependency_cycle"
  | SuccessorUnmapped => "successor_unmapped"
  | SuccessorUnknown => "successor_unknown"
  | SuccessorNeedsUnclear => "successor_needs_unclear"
  | SuccessorStarted => "successor_started"
  end.
#[global] Instance string_enum : StringEnum t :=
  Build_StringEnum t "PlanProblemCode" as_str
    [OperationMismatch; NotWithPlanner; VersionStale; BlankRationale;
     NoChildren; ChildUnknown; ChildNotMember; ChildNotPending;
     MemberNotChild; OriginalAsChild; GoalMismatch; ItemUnmapped;
     ItemUnknown; ItemRepeated; ChildItemMissing;
     DeletionUnauthorized; LandedUnproven; ChildHoldsNothing;
     VerificationWeakened; EvidenceDropped; PathsMissing;
     CarryUnclear; PredecessorDropped; DependencyCycle;
     SuccessorUnmapped; SuccessorUnknown; SuccessorNeedsUnclear;
     SuccessorStarted].
#[global] Instance laws : StringEnumLaws t.
Proof. string_enum_laws. Qed.
End PlanProblemCode.
Abbreviation PlanProblemCode := PlanProblemCode.t.

(** How a released task goes on. *)
Module ReleaseDecision.
Inductive t : Set :=
  | Claim
  | Resume
  | RetryInherit
  | RetryFresh.
#[global] Instance eq_dec : EqDecision t.
Proof. solve_decision. Defined.
Definition as_str (v : t) : string :=
  match v with
  | Claim => "claim"
  | Resume => "resume"
  | RetryInherit => "retry_inherit"
  | RetryFresh => "retry_fresh"
  end.
#[global] Instance string_enum : StringEnum t :=
  Build_StringEnum t "ReleaseDecision" as_str
    [Claim; Resume; RetryInherit; RetryFresh].
#[global] Instance laws : StringEnumLaws t.
Proof. string_enum_laws. Qed.
End ReleaseDecision.
Abbreviation ReleaseDecision := ReleaseDecision.t.

(** Where a hold stands. *)
Module HoldState.
Inductive t : Set :=
  | Settling
  | Held.
#[global] Instance eq_dec : EqDecision t.
Proof. solve_decision. Defined.
Definition as_str (v : t) : string :=
  match v with
  | Settling => "settling"
  | Held => "held"
  end.
#[global] Instance string_enum : StringEnum t :=
  Build_StringEnum t "HoldState" as_str
    [Settling; Held].
#[global] Instance laws : StringEnumLaws t.
Proof. string_enum_laws. Qed.
End HoldState.
Abbreviation HoldState := HoldState.t.

(** Where the run of a held task stands in its wait. *)
Module RunHoldWait.
Inductive t : Set :=
  | None
  | Settling
  | Settled.
#[global] Instance eq_dec : EqDecision t.
Proof. solve_decision. Defined.
Definition as_str (v : t) : string :=
  match v with
  | None => "none"
  | Settling => "settling"
  | Settled => "settled"
  end.
#[global] Instance string_enum : StringEnum t :=
  Build_StringEnum t "RunHoldWait" as_str
    [None; Settling; Settled].
#[global] Instance laws : StringEnumLaws t.
Proof. string_enum_laws. Qed.
End RunHoldWait.
Abbreviation RunHoldWait := RunHoldWait.t.

(** Which result a hold kept. *)
Module KeptSource.
Inductive t : Set :=
  | RecoveryVerdict
  | TriageAnswer
  | LiveVerdict.
#[global] Instance eq_dec : EqDecision t.
Proof. solve_decision. Defined.
Definition as_str (v : t) : string :=
  match v with
  | RecoveryVerdict => "recovery_verdict"
  | TriageAnswer => "triage_answer"
  | LiveVerdict => "live_verdict"
  end.
#[global] Instance string_enum : StringEnum t :=
  Build_StringEnum t "KeptSource" as_str
    [RecoveryVerdict; TriageAnswer; LiveVerdict].
#[global] Instance laws : StringEnumLaws t.
Proof. string_enum_laws. Qed.
End KeptSource.
Abbreviation KeptSource := KeptSource.t.

(** Why a kept result was discarded. *)
Module DiscardReason.
Inductive t : Set :=
  | Changed
  | LiveSession
  | Refused
  | TaskEnded.
#[global] Instance eq_dec : EqDecision t.
Proof. solve_decision. Defined.
Definition as_str (v : t) : string :=
  match v with
  | Changed => "changed"
  | LiveSession => "live_session"
  | Refused => "refused"
  | TaskEnded => "task_ended"
  end.
#[global] Instance string_enum : StringEnum t :=
  Build_StringEnum t "DiscardReason" as_str
    [Changed; LiveSession; Refused; TaskEnded].
#[global] Instance laws : StringEnumLaws t.
Proof. string_enum_laws. Qed.
End DiscardReason.
Abbreviation DiscardReason := DiscardReason.t.

(** Why a hold closed with its task. *)
Module HoldEnd.
Inductive t : Set :=
  | Completed
  | Canceled
  | Replaced.
#[global] Instance eq_dec : EqDecision t.
Proof. solve_decision. Defined.
Definition as_str (v : t) : string :=
  match v with
  | Completed => "completed"
  | Canceled => "canceled"
  | Replaced => "replaced"
  end.
#[global] Instance string_enum : StringEnum t :=
  Build_StringEnum t "HoldEnd" as_str
    [Completed; Canceled; Replaced].
#[global] Instance laws : StringEnumLaws t.
Proof. string_enum_laws. Qed.
End HoldEnd.
Abbreviation HoldEnd := HoldEnd.t.

(** Why a hold is told to a person. *)
Module HoldReminder.
Inductive t : Set :=
  | UntilPassed
  | LongHeld.
#[global] Instance eq_dec : EqDecision t.
Proof. solve_decision. Defined.
Definition as_str (v : t) : string :=
  match v with
  | UntilPassed => "until_passed"
  | LongHeld => "long_held"
  end.
#[global] Instance string_enum : StringEnum t :=
  Build_StringEnum t "HoldReminder" as_str
    [UntilPassed; LongHeld].
#[global] Instance laws : StringEnumLaws t.
Proof. string_enum_laws. Qed.
End HoldReminder.
Abbreviation HoldReminder := HoldReminder.t.

(** How a turn of a headless worker ended. *)
Module TurnOutcome.
Inductive t : Set :=
  | Succeeded
  | Failed
  | Silent
  | TimedOut
  | LaunchMismatch
  | Stopped.
#[global] Instance eq_dec : EqDecision t.
Proof. solve_decision. Defined.
Definition as_str (v : t) : string :=
  match v with
  | Succeeded => "succeeded"
  | Failed => "failed"
  | Silent => "silent"
  | TimedOut => "timed_out"
  | LaunchMismatch => "launch_mismatch"
  | Stopped => "stopped"
  end.
#[global] Instance string_enum : StringEnum t :=
  Build_StringEnum t "TurnOutcome" as_str
    [Succeeded; Failed; Silent; TimedOut; LaunchMismatch; Stopped].
#[global] Instance laws : StringEnumLaws t.
Proof. string_enum_laws. Qed.
End TurnOutcome.
Abbreviation TurnOutcome := TurnOutcome.t.

(** Why a turn failed. *)
Module TurnFailure.
Inductive t : Set :=
  | Authentication
  | UsageLimit
  | Model
  | Sandbox
  | Launch
  | Other.
#[global] Instance eq_dec : EqDecision t.
Proof. solve_decision. Defined.
Definition as_str (v : t) : string :=
  match v with
  | Authentication => "authentication"
  | UsageLimit => "usage_limit"
  | Model => "model"
  | Sandbox => "sandbox"
  | Launch => "launch"
  | Other => "other"
  end.
#[global] Instance string_enum : StringEnum t :=
  Build_StringEnum t "TurnFailure" as_str
    [Authentication; UsageLimit; Model; Sandbox; Launch; Other].
#[global] Instance laws : StringEnumLaws t.
Proof. string_enum_laws. Qed.
End TurnFailure.
Abbreviation TurnFailure := TurnFailure.t.

(** Why a provider cannot be used. *)
Module SwitchReason.
Inductive t : Set :=
  | Disabled
  | ExecutableMissing
  | Authentication
  | UsageLimit
  | LaunchFailed.
#[global] Instance eq_dec : EqDecision t.
Proof. solve_decision. Defined.
Definition as_str (v : t) : string :=
  match v with
  | Disabled => "provider_disabled"
  | ExecutableMissing => "executable_missing"
  | Authentication => "authentication"
  | UsageLimit => "usage_limit"
  | LaunchFailed => "launch_failed"
  end.
#[global] Instance string_enum : StringEnum t :=
  Build_StringEnum t "SwitchReason" as_str
    [Disabled; ExecutableMissing; Authentication; UsageLimit;
     LaunchFailed].
#[global] Instance laws : StringEnumLaws t.
Proof. string_enum_laws. Qed.
End SwitchReason.
Abbreviation SwitchReason := SwitchReason.t.

(** ** Methods that name several enums *)

(** [SessionRole::actor_role]. *)
Definition actor_role (self : SessionRole) : ActorRole :=
  match self with
  | SessionRole.Supervisor => ActorRole.Supervisor
  | SessionRole.Worker => ActorRole.Worker
  | SessionRole.Planner => ActorRole.Planner
  | SessionRole.Inbox => ActorRole.Inbox
  | SessionRole.Observer => ActorRole.Observer
  end.

(** [ActorRole::trust]. *)
Definition trust (self : ActorRole) : TrustLevel :=
  match self with
  | ActorRole.User => TrustLevel.Human
  | ActorRole.Supervisor | ActorRole.Wrapper | ActorRole.Integrator
  | ActorRole.ExecutorTelemetry => TrustLevel.TrustedControlPlane
  | ActorRole.Inbox | ActorRole.Planner | ActorRole.Worker
  | ActorRole.ReviewJob | ActorRole.RecoveryJob | ActorRole.PlanReviewJob
  | ActorRole.GoalReviewJob | ActorRole.ThroughputReviewJob
  | ActorRole.SetupReviewJob | ActorRole.Observer => TrustLevel.UntrustedAgent
  end.

(** How old a heartbeat that holds is at most, in seconds. *)
Definition HEARTBEAT_TIMEOUT_SECS : Z := 30.

(** [OriginKind::origin]. *)
Definition origin_of_kind (self : OriginKind) : Origin :=
  match self with
  | OriginKind.Request | OriginKind.Person => Origin.Human
  | OriginKind.Finding | OriginKind.FollowUp | OriginKind.GoalGap
  | OriginKind.Reopened | OriginKind.Draft | OriginKind.Planner
  | OriginKind.Runtime => Origin.Ai
  end.

(** [OriginKind::of_draft]. *)
Definition kind_of_draft (origin : option DraftOrigin) : OriginKind :=
  match origin with
  | Some DraftOrigin.FollowUp => OriginKind.FollowUp
  | Some DraftOrigin.GoalGap => OriginKind.GoalGap
  | Some DraftOrigin.Reopened => OriginKind.Reopened
  | Some DraftOrigin.Revisit | Some DraftOrigin.Recurring | None => OriginKind.Draft
  end.

(** ** Enums written out by hand in the source *)

(** What moves a task between statuses by hand or by plan review. *)
Module TaskAction.
Inductive t : Set :=
  | Ready
  | Draft
  | Cancel
  | Submit
  | Approve
  | BypassReview
  | Reopen.
#[global] Instance eq_dec : EqDecision t.
Proof. solve_decision. Defined.
End TaskAction.
Abbreviation TaskAction := TaskAction.t.

(** Whether a run implements or investigates. *)
Module ExecutionClass.
Inductive t : Set :=
  | Implementation
  | Spike.
#[global] Instance eq_dec : EqDecision t.
Proof. solve_decision. Defined.
Definition as_str (v : t) : string :=
  match v with
  | Implementation => "implementation"
  | Spike => "spike"
  end.
#[global] Instance string_enum : StringEnum t :=
  Build_StringEnum t "ExecutionClass" as_str
    [Implementation; Spike].
#[global] Instance laws : StringEnumLaws t.
Proof. string_enum_laws. Qed.
Definition is_spike (self : t) : bool := bool_decide (self = Spike).
End ExecutionClass.
Abbreviation ExecutionClass := ExecutionClass.t.

(** How urgently a person wants a task claimed, lowest first: the derived
    order is the order of the stored values. *)
Module Priority.
Inductive t : Set :=
  | Low
  | Normal
  | High
  | Urgent
  | Interrupt.
#[global] Instance eq_dec : EqDecision t.
Proof. solve_decision. Defined.
Definition ALL : list t := [Low; Normal; High; Urgent; Interrupt].
Definition as_str (v : t) : string :=
  match v with
  | Low => "low"
  | Normal => "normal"
  | High => "high"
  | Urgent => "urgent"
  | Interrupt => "interrupt"
  end.
#[global] Instance string_enum : StringEnum t :=
  Build_StringEnum t "Priority" as_str
    ALL.
#[global] Instance laws : StringEnumLaws t.
Proof. string_enum_laws. Qed.
Definition as_i64 (self : t) : Z :=
  match self with Low => 0 | Normal => 1 | High => 2 | Urgent => 3 | Interrupt => 4 end.
(** [#[default]]. *)
Definition default : t := Normal.
(** The derived [Ord]. *)
Definition leb (a b : t) : bool := (as_i64 a <=? as_i64 b)%Z.
Definition ltb (a b : t) : bool := (as_i64 a <? as_i64 b)%Z.
End Priority.
Abbreviation Priority := Priority.t.

(** The known kinds of an ask, and [Other] for one a newer binary wrote. *)
Module AskKind.
Inductive t : Set :=
  | ApproveLanding
  | AnswerPrompt
  | Decide
  | WorkerQuestion
  | Blocked
  | StuckExit
  | FollowUp
  | Stalled
  | ApprovePlan
  | ApproveGoal
  | CorrectGoal
  | PlannerQuestion
  | QueueHold
  | UpdateFailed
  | ApproveUpdate
  | ApproveRelease
  | ApproveClose
  | Other (value : string).
#[global] Instance eq_dec : EqDecision t.
Proof. solve_decision. Defined.
Definition known : list t :=
  [ApproveLanding; AnswerPrompt; Decide; WorkerQuestion; Blocked; StuckExit;
   FollowUp; Stalled; ApprovePlan; ApproveGoal; CorrectGoal; PlannerQuestion;
   QueueHold; UpdateFailed; ApproveUpdate; ApproveRelease; ApproveClose].
Definition as_str (v : t) : string :=
  match v with
  | ApproveLanding => "approve_landing"
  | AnswerPrompt => "answer_prompt"
  | Decide => "decide"
  | WorkerQuestion => "worker_question"
  | Blocked => "blocked"
  | StuckExit => "stuck_exit"
  | FollowUp => "follow_up"
  | Stalled => "stalled"
  | ApprovePlan => "approve_plan"
  | ApproveGoal => "approve_goal"
  | CorrectGoal => "correct_goal"
  | PlannerQuestion => "planner_question"
  | QueueHold => "queue_hold"
  | UpdateFailed => "update_failed"
  | ApproveUpdate => "approve_update"
  | ApproveRelease => "approve_release"
  | ApproveClose => "approve_close"
  | Other value => value
  end.
(** The known kind of a text: the match of its [FromStr]. *)
Definition parse (value : string) : option t :=
  List.find (λ v, bool_decide (as_str v = value)) known.
(** The kind of a stored ask: never fails. *)
Definition read (value : string) : t := unwrap_or (parse value) (Other value).
Definition is_known (self : t) : bool :=
  match self with Other _ => false | _ => true end.
Definition is_approval (self : t) : bool :=
  match self with
  | ApproveLanding | ApproveClose | Decide | ApprovePlan | ApproveGoal
  | CorrectGoal | ApproveUpdate | UpdateFailed | ApproveRelease => true
  | _ => false
  end.
Definition takes_reasoned_answers (self : t) : bool :=
  match self with ApprovePlan | ApproveLanding => true | _ => false end.
Definition offers_finding_answers (self : t) : bool :=
  match self with Blocked | Stalled => true | _ => false end.
Definition is_update (self : t) : bool :=
  match self with UpdateFailed | ApproveUpdate | ApproveRelease => true | _ => false end.

Lemma read_as_str_known v : is_known v = true → read (as_str v) = v.
Proof. by destruct v. Qed.
Lemma as_str_read value : as_str (read value) = value.
Proof.
  unfold read, parse. destruct (List.find _ _) as [v|] eqn:Hfind; [|done].
  apply List.find_some in Hfind as [_ Hv]. simpl. by apply bool_decide_eq_true in Hv.
Qed.
End AskKind.
Abbreviation AskKind := AskKind.t.
