(* ===== verification/Ids.v ===== *)
(** * Identifiers

    The identifiers of [src/src/domain/ids.rs]: each wraps the raw value in a
    type of its own, so that a task's cannot stand in for a goal's.  The row
    identifiers hold an [i64]; [RunId], [CommitSha] and [LeaseToken] hold
    text.  Their checked constructors are in [Errors.v], which has the errors
    they fail with. *)
From S2P Require Import Prelude Text.

(** The [tasks.id] rowid. *)
Module TaskId.
Record t : Set := new { as_i64 : Z }.
#[global] Instance eq_dec : EqDecision t.
Proof. solve_decision. Defined.
#[global] Program Instance countable : Countable t :=
  inj_countable' as_i64 new _.
Next Obligation. by intros []. Qed.
Definition display (self : t) : string := decimal (as_i64 self).
End TaskId.
Abbreviation TaskId := TaskId.t.

(** The [goals.id] rowid. *)
Module GoalId.
Record t : Set := new { as_i64 : Z }.
#[global] Instance eq_dec : EqDecision t.
Proof. solve_decision. Defined.
#[global] Program Instance countable : Countable t :=
  inj_countable' as_i64 new _.
Next Obligation. by intros []. Qed.
Definition display (self : t) : string := decimal (as_i64 self).
End GoalId.
Abbreviation GoalId := GoalId.t.

(** The [proposals.id] rowid. *)
Module ProposalId.
Record t : Set := new { as_i64 : Z }.
#[global] Instance eq_dec : EqDecision t.
Proof. solve_decision. Defined.
#[global] Program Instance countable : Countable t :=
  inj_countable' as_i64 new _.
Next Obligation. by intros []. Qed.
Definition display (self : t) : string := decimal (as_i64 self).
End ProposalId.
Abbreviation ProposalId := ProposalId.t.

(** The [findings.id] rowid. *)
Module FindingId.
Record t : Set := new { as_i64 : Z }.
#[global] Instance eq_dec : EqDecision t.
Proof. solve_decision. Defined.
#[global] Program Instance countable : Countable t :=
  inj_countable' as_i64 new _.
Next Obligation. by intros []. Qed.
Definition display (self : t) : string := decimal (as_i64 self).
End FindingId.
Abbreviation FindingId := FindingId.t.

(** The [plan_requests.id] rowid. *)
Module RequestId.
Record t : Set := new { as_i64 : Z }.
#[global] Instance eq_dec : EqDecision t.
Proof. solve_decision. Defined.
#[global] Program Instance countable : Countable t :=
  inj_countable' as_i64 new _.
Next Obligation. by intros []. Qed.
Definition display (self : t) : string := decimal (as_i64 self).
End RequestId.
Abbreviation RequestId := RequestId.t.

(** The [replan_operations.id] rowid. *)
Module ReplanId.
Record t : Set := new { as_i64 : Z }.
#[global] Instance eq_dec : EqDecision t.
Proof. solve_decision. Defined.
#[global] Program Instance countable : Countable t :=
  inj_countable' as_i64 new _.
Next Obligation. by intros []. Qed.
Definition display (self : t) : string := decimal (as_i64 self).
End ReplanId.
Abbreviation ReplanId := ReplanId.t.

(** The [task_holds.id] rowid. *)
Module HoldId.
Record t : Set := new { as_i64 : Z }.
#[global] Instance eq_dec : EqDecision t.
Proof. solve_decision. Defined.
#[global] Program Instance countable : Countable t :=
  inj_countable' as_i64 new _.
Next Obligation. by intros []. Qed.
Definition display (self : t) : string := decimal (as_i64 self).
End HoldId.
Abbreviation HoldId := HoldId.t.

(** The [planners.id] rowid. *)
Module PlannerId.
Record t : Set := new { as_i64 : Z }.
#[global] Instance eq_dec : EqDecision t.
Proof. solve_decision. Defined.
#[global] Program Instance countable : Countable t :=
  inj_countable' as_i64 new _.
Next Obligation. by intros []. Qed.
Definition display (self : t) : string := decimal (as_i64 self).
End PlannerId.
Abbreviation PlannerId := PlannerId.t.

(** The [asks.id] rowid. *)
Module AskId.
Record t : Set := new { as_i64 : Z }.
#[global] Instance eq_dec : EqDecision t.
Proof. solve_decision. Defined.
#[global] Program Instance countable : Countable t :=
  inj_countable' as_i64 new _.
Next Obligation. by intros []. Qed.
Definition display (self : t) : string := decimal (as_i64 self).
End AskId.
Abbreviation AskId := AskId.t.

(** The [run_events.id] rowid, the cursor of the readers. *)
Module EventId.
Record t : Set := new { as_i64 : Z }.
#[global] Instance eq_dec : EqDecision t.
Proof. solve_decision. Defined.
#[global] Program Instance countable : Countable t :=
  inj_countable' as_i64 new _.
Next Obligation. by intros []. Qed.
Definition display (self : t) : string := decimal (as_i64 self).
End EventId.
Abbreviation EventId := EventId.t.

(** The UUID of a run; never blank. *)
Module RunId.
Record t : Set := wrap { as_str : string }.
#[global] Instance eq_dec : EqDecision t.
Proof. solve_decision. Defined.
#[global] Program Instance countable : Countable t :=
  inj_countable' as_str wrap _.
Next Obligation. by intros []. Qed.
End RunId.
Abbreviation RunId := RunId.t.

(** A full Git object ID. *)
Module CommitSha.
Record t : Set := wrap { as_str : string }.
#[global] Instance eq_dec : EqDecision t.
Proof. solve_decision. Defined.
#[global] Program Instance countable : Countable t :=
  inj_countable' as_str wrap _.
Next Obligation. by intros []. Qed.
End CommitSha.
Abbreviation CommitSha := CommitSha.t.

(** The token a process holds leases under. *)
Module LeaseToken.
Record t : Set := wrap { as_str : string }.
#[global] Instance eq_dec : EqDecision t.
Proof. solve_decision. Defined.
#[global] Program Instance countable : Countable t :=
  inj_countable' as_str wrap _.
Next Obligation. by intros []. Qed.
End LeaseToken.
Abbreviation LeaseToken := LeaseToken.t.
