(* ===== verification/Errors.v ===== *)
(** * The rejections of the domain

    [DomainError] of [src/src/domain/error.rs] with every variant of the
    source, and the constructors of checked values that fail with one: the
    [FromStr] of the enums, the levels of [Priority], [RunId::new] and
    [CommitSha::parse]. *)
From S2P Require Import Prelude Text Vocab Ids.
From Stdlib Require Import Ascii.

(** What holds a priority: a task or a goal
    ([src/src/domain/authorization.rs]). *)
Module PriorityHolder.
Inductive t : Set :=
  | Task (id : TaskId)
  | Goal (id : GoalId).
#[global] Instance eq_dec : EqDecision t.
Proof. solve_decision. Defined.
End PriorityHolder.
Abbreviation PriorityHolder := PriorityHolder.t.

(** Why the applied replacements of a replaced task do not say what replaced
    it ([src/src/domain/replan_apply.rs]). *)
Module ReplacementFault.
Inductive t : Set :=
  | Empty
  | Missing (to : TaskId)
  | Cycle (to : TaskId).
#[global] Instance eq_dec : EqDecision t.
Proof. solve_decision. Defined.
End ReplacementFault.
Abbreviation ReplacementFault := ReplacementFault.t.

Module UnresolvedReplacement.
Record t : Set := mk { task : TaskId; fault : ReplacementFault }.
#[global] Instance eq_dec : EqDecision t.
Proof. solve_decision. Defined.
End UnresolvedReplacement.
Abbreviation UnresolvedReplacement := UnresolvedReplacement.t.

Module DomainError.
Inductive t : Set :=
  | UnknownValue (kind : string) (value : string)
  | TaskHasUnfinishedRun (action : TaskAction)
  | TransitionNotAllowed (status : TaskStatus) (action : TaskAction)
  | GoalClosed (goal_id : GoalId) (verdict : option GoalVerdict)
  | GoalCloseInconsistent (goal_id : GoalId)
  | ReadyNeedsPlanReview (status : TaskStatus)
  | TaskNotEditable (what : string)
  | TaskPriorityNotEditable (task_id : TaskId) (status : TaskStatus)
  | TaskContentNotEditable (task_id : TaskId) (status : TaskStatus)
  | TaskStatusChangedSinceAuthorized (task_id : TaskId) (authorized : TaskStatus)
      (status : TaskStatus)
  | TaskProposalChangedSinceAuthorized (task_id : TaskId)
  | CancelReasonMissing
  | CancelReasonNeedsTarget (reason : string)
  | CancelReasonNeedsNote
  | CancelReasonReserved (reason : string)
  | SelfDependency
  | DependencyCycle (task_id : TaskId) (predecessor_id : TaskId)
  | ReplacedDependency (task_id : TaskId) (predecessor_id : TaskId)
  | OwnGoalDependency (goal_id : GoalId)
  | AbandonedGoalDependency (goal_id : GoalId)
  | GoalDependencyCycle (task_id : TaskId) (goal_id : GoalId)
  | GoalMembershipCycle (task_id : TaskId) (goal_id : GoalId)
  | EmptyProposal
  | SearchQuery (reason : string)
  | TaskInOtherProposal (task_id : TaskId) (proposal_id : ProposalId)
  | GoalInOtherProposal (goal_id : GoalId) (proposal_id : ProposalId)
  | ProposalNotInStatus (proposal_id : ProposalId) (status : ProposalStatus)
      (expected : ProposalStatus)
  | ProposalNotActive (proposal_id : ProposalId) (status : ProposalStatus)
  | Blank (field : string)
  | NonPositiveId (field : string)
  | GoalAlreadyClosed (goal_id : GoalId) (verdict : option GoalVerdict)
  | GoalCloseBlocked (goal_id : GoalId) (verdict : GoalVerdict) (blocking : list
      (TaskStatus * nat))
  | GoalFollowUpsUnsettled (goal_id : GoalId) (follow_ups : list (TaskId * string))
  | GoalReplacementsUnresolved (goal_id : GoalId) (unresolved : list
      UnresolvedReplacement)
  | MalformedReceipt (reason : string)
  | ReceiptRunMismatch (receipt_run_id : string) (run_id : RunId)
  | AgentReportedResult (result : ReceiptResult) (summary : string)
  | ReceiptCheckFailed (check : string) (evidence_or_reason : string)
  | ReceiptCheckUnexplained (check : string) (status : CheckStatus)
  | InvalidCommit (field : string)
  | FollowUpsNotArray
  | BaseChecksMissing
  | MissingRunDirectory
  | GoalNotDraft (goal_id : GoalId)
  | GoalNotReopenable (goal_id : GoalId) (verdict : option GoalVerdict)
  | InvalidNoteKind (kind : string)
  | InvalidFindingKind (kind : string)
  | ReservedFindingKind (kind : string) (watch : string)
  | InvalidTaskChange (change : string)
  | ChangeNotInSet (change : string) (changes : list string)
  | ChangeMissing (task_id : TaskId) (changes : list string)
  | TitlePrefixOutsideSet (task_id : TaskId) (title : string) (prefixes : list
      string)
  | InvalidGoalTag (tag : string)
  | GoalTagRepeated (tag : string)
  | GoalTagNotInSet (tag : string) (tags : list string)
  | GoalTagMissing (goal_id : GoalId) (tags : list string)
  | WorkerModeUnsupported (provider : Provider) (mode : WorkerMode)
  | InteractiveWorkerRetired
  | FindingNotInStatus (finding_id : FindingId) (status : FindingStatus) (to :
      FindingStatus)
  | FindingCoverRefused (finding_id : FindingId) (why : string)
  | AskFindingNotBlocked (kind : AskKind)
  | AskRequestNotPlannerQuestion (kind : AskKind)
  | RequestNotOpen (request_id : RequestId) (status : RequestStatus)
  | SpikeCycleLimit (task_id : TaskId) (goal_id : GoalId) (cycles : nat) (max : nat)
  | TaskReplanning (task_id : TaskId) (operation : ReplanId) (status :
      ReplanStatus) (step : GuardedStep)
  | TaskHeld (task_id : TaskId) (hold : HoldId) (step : GuardedStep)
  | HoldReasonEmpty
  | TaskNotHoldable (task_id : TaskId) (status : TaskStatus)
  | TaskAlreadyHeld (task_id : TaskId) (hold : HoldId)
  | TaskNotHeld (task_id : TaskId)
  | HoldNotSettled (task_id : TaskId) (hold : HoldId)
  | ReleaseReadMoved (task_id : TaskId) (hold : HoldId)
  | WorkerModelRefused (provider : Provider) (model : string)
  | RunNotReplannable (run_id : RunId) (status : RunStatus) (task_status :
      TaskStatus)
  | ReplanPremiseStale (operation : ReplanId) (why : string)
  | ReplanDiagnosisHeld (operation : ReplanId) (task_id : TaskId) (hold : HoldId)
  | ReplanGenerationStale (operation : ReplanId) (expected : Z) (actual : Z)
  | ReplanMoveNotAllowed (operation : ReplanId) (from : ReplanStatus) (to :
      ReplanStatus)
  | ReplanNeedsSnapshot (operation : ReplanId) (to : ReplanStatus)
  | ReplanApplyUnavailable (operation : ReplanId)
  | ReplanNotResolvable (operation : ReplanId) (reason : string)
  | InvalidReplacementPlan (reason : string)
  | ReplanDeletionRepeated (operation : ReplanId) (ordinal : nat)
  | ReplanDeletionMapped (operation : ReplanId) (ordinal : nat)
  | SnapshotRefused (path : string) (why : string)
  | SnapshotPathRefused (path : string)
  | RequestRefInvalid (value : string)
  | RequestPriorityDiffers (request_id : RequestId) (priority : Priority) (given :
      Priority)
  | PersonsPriority (holder : PriorityHolder) (priority : Priority) (role :
      ActorRole)
  | GoalGapMoved (task_id : TaskId) (from : GoalId) (to : option GoalId)
  | AskWithoutTopic
  | AskTopicNotWorkerQuestion (kind : AskKind)
  | AskRecommendationNotAnOption (recommendation : string) (options : list string)
  | BlockedAskWithoutRecommendation
  | AskWithoutTarget (kind : AskKind)
  | UpdateAskWithTarget (kind : AskKind)
  | AskKindReason (kind : AskKind) (reason : AskReason)
  | EventWithoutTarget (kind : string)
  | AskHoldsTheQueue (reason : AskReason)
  | HoldWithoutQueueReason (reason : AskReason)
  | TaskNotClaimable (task_id : TaskId) (status : TaskStatus)
  | RunOfUnclaimedTask (task_id : TaskId) (status : TaskStatus)
  | RunTransitionNotAllowed (status : RunStatus) (operation : string)
  | RunInconsistent (run_id : RunId) (reason : string)
  | InvalidPathGlob (glob : string) (reason : string)
  | RunWithoutTask (run_id : RunId)
  | BelowMinimum (field : string) (min : Z) (value : Z)
  | LandingBranchMissing (name : string)
  | LandingBranchUnresolved (remote : string)
  | PushRemoteMissing (remote : string).
End DomainError.
Abbreviation DomainError := DomainError.t.

(** What every fallible operation of the domain returns. *)
Abbreviation Result := (result DomainError).

(** ** Values from text *)

(** The [FromStr] that [string_enum!] writes: the value whose text is
    [value], or [UnknownValue] with the name of the enum. *)
Definition from_str (A : Type) `{StringEnum A} (value : string) : Result A :=
  match parse_enum value with
  | Some v => Ok v
  | None => Err (DomainError.UnknownValue (type_name A) value)
  end.

Section from_str.
  Context {A : Type} `{StringEnumLaws A}.

Lemma from_str_as_str (v : A) : from_str A (as_str v) = Ok v.
Proof. unfold from_str. by rewrite parse_as_str. Qed.

Lemma from_str_Ok value (v : A) : from_str A value = Ok v ↔ as_str v = value.
Proof.
  unfold from_str. rewrite <-parse_Some.
  destruct (parse_enum value); naive_solver.
Qed.

Lemma from_str_Err value e :
  from_str A value = Err e →
  e = DomainError.UnknownValue (type_name A) value ∧ ∀ v : A, as_str v ≠ value.
Proof.
  intros Herr. unfold from_str in Herr.
  destruct (parse_enum value) eqn:Hp; [done|]. injection Herr as <-.
  split; [done|]. intros v <-. by rewrite parse_as_str in Hp.
Qed.
End from_str.

(** [Priority::from_i64]: the level stored as [value]. *)
Definition priority_from_i64 (value : Z) : Result Priority :=
  match (if (0 <=? value)%Z then Priority.ALL !! Z.to_nat value else None) with
  | Some level => Ok level
  | None => Err (DomainError.UnknownValue "Priority" (decimal value))
  end.

(** [RunId::new] and [CommitSha::parse]. *)
Definition run_id_new (id : string) : Result RunId :=
  if is_blank id then Err (DomainError.Blank "run ID") else Ok (RunId.wrap id).

Definition hex_digit (c : ascii) : bool :=
  byte_in c 48 57 || byte_in c 97 102 || byte_in c 65 70.
Definition commit_sha_parse (commit field : string) : Result CommitSha :=
  if ((String.length commit =? 40) || (String.length commit =? 64))
     && forallb hex_digit (bytes commit)
  then Ok (CommitSha.wrap commit)
  else Err (DomainError.InvalidCommit field).

Lemma priority_from_i64_Ok value p :
  priority_from_i64 value = Ok p ↔ Priority.as_i64 p = value.
Proof.
  unfold priority_from_i64. destruct (Z.leb_spec 0 value) as [Hv|Hv].
  - rewrite <-(Z2Nat.id value Hv) at 2. generalize (Z.to_nat value). intros n.
    do 5 (destruct n as [|n]; [destruct p; simpl; split; (congruence || lia)|]).
    rewrite lookup_ge_None_2 by (simpl; lia). destruct p; simpl; split; (discriminate || lia).
  - destruct p; simpl; split; (discriminate || lia).
Qed.

(** The text of a value of any [string_enum!] enum parses back to that
    value; a text parses only to the value whose text it is; and a text that
    is no value's is refused with [UnknownValue], which names the enum and
    carries the text. *)
Theorem enum_text_round_trip (A : Type) `{StringEnumLaws A} :
  (∀ v : A, from_str A (as_str v) = Ok v) ∧
  (∀ value (v : A), from_str A value = Ok v → value = as_str v) ∧
  (∀ value, (∀ v : A, as_str v ≠ value) →
    from_str A value = Err (DomainError.UnknownValue (type_name A) value)).
Proof.
  split_and!.
  - apply from_str_as_str.
  - intros value v Hok. symmetry. by apply from_str_Ok.
  - intros value Hnone. destruct (from_str A value) as [v|e] eqn:Hv.
    + apply from_str_Ok in Hv. by destruct (Hnone v).
    + by apply from_str_Err in Hv as [-> _].
Qed.

Lemma enum_text_round_trip_witness :
  from_str RunStatus (as_str RunStatus.NeedsSession) = Ok RunStatus.NeedsSession ∧
  from_str RunStatus "landed" = Err (DomainError.UnknownValue "RunStatus" "landed").
Proof.
  pose proof (enum_text_round_trip RunStatus) as (Hrt & _ & Herr). split.
  - apply Hrt.
  - apply Herr. intros v. by destruct v.
Defined.
