(* ===== verification/Labels.v ===== *)
(** * Labels of the repository's own: changes and tags

    [src/src/domain/change.rs] and [src/src/domain/goal_tag.rs]: the label
    types with their checks, and the sets a repository may name of them. *)
From S2P Require Import Prelude Text Vocab Ids Errors.

(** The kind of change a task makes: a lowercase slug, neither [unknown] nor
    [all]. *)
Module TaskChange.
Record t : Set := wrap { as_str : string }.
#[global] Instance eq_dec : EqDecision t.
Proof. solve_decision. Defined.
Definition NONE : string := "unknown".
Definition ALL : string := "all".
Definition MAX_LEN : nat := 64.

Definition from_str (value : string) : Result t :=
  _ ← require
    (negb (is_empty value)
     && (String.length value <=? MAX_LEN)
     && bool_decide (value ≠ NONE)
     && bool_decide (value ≠ ALL)
     && slug_text value)
    (DomainError.InvalidTaskChange value);
  Ok (wrap value).
End TaskChange.
Abbreviation TaskChange := TaskChange.t.

(** A tag of a goal: a lowercase slug. *)
Module GoalTag.
Record t : Set := wrap { as_str : string }.
#[global] Instance eq_dec : EqDecision t.
Proof. solve_decision. Defined.
Definition MAX_LEN : nat := 64.

Definition from_str (value : string) : Result t :=
  _ ← require
    (negb (is_empty value) && (String.length value <=? MAX_LEN) && slug_text value)
    (DomainError.InvalidGoalTag value);
  Ok (wrap value).
End GoalTag.
Abbreviation GoalTag := GoalTag.t.

(** ** Lists that name a value twice

    The loop [for (index, x) in l.iter().enumerate()] that stops at the first
    [x] of [l[..index]]: [repeated seen l] is that [x]. *)
Fixpoint repeated {A} `{EqDecision A} (seen l : list A) : option A :=
  match l with
  | [] => None
  | x :: rest => if decide (x ∈ seen) then Some x else repeated (seen ++ [x]) rest
  end.

Lemma repeated_None {A} `{EqDecision A} (l seen : list A) :
  NoDup seen → repeated seen l = None ↔ NoDup (seen ++ l).
Proof.
  revert seen. induction l as [|x l IH]; intros seen Hseen; simpl.
  { by rewrite app_nil_r. }
  destruct (decide (x ∈ seen)) as [Hx|Hx].
  - split; [done|]. rewrite NoDup_app. intros (_ & Hdisj & _). destruct (Hdisj x); [done|left].
  - rewrite IH; [by rewrite <-app_assoc|].
    apply NoDup_app. split_and!; [done|set_solver|apply NoDup_singleton].
Qed.

(** [goal_tag::check_distinct]. *)
Definition check_distinct (tags : list GoalTag) : Result unit :=
  match repeated [] tags with
  | Some tag => Err (DomainError.GoalTagRepeated (GoalTag.as_str tag))
  | None => Ok tt
  end.

Lemma check_distinct_Ok tags u : check_distinct tags = Ok u ↔ NoDup tags.
Proof.
  destruct u. unfold check_distinct.
  rewrite <-(repeated_None tags []) by constructor. destruct (repeated [] tags); naive_solver.
Qed.

(** ** The sets of a repository *)

(** [[tasks] changes] of [dagq.toml]. *)
Module ChangeSet.
Record t : Set := wrap { values : list TaskChange }.

Definition new (changes : list TaskChange) : result string t :=
  match changes with
  | [] => Err "names no change"
  | _ =>
      match repeated [] changes with
      | Some change => Err ("names " +:+ TaskChange.as_str change +:+ " twice")
      | None => Ok (wrap changes)
      end
  end.

Definition names (self : t) : list string := TaskChange.as_str <$> values self.

Definition check (self : t) (change : TaskChange) : Result unit :=
  require (bool_decide (change ∈ values self))
    (DomainError.ChangeNotInSet (TaskChange.as_str change) (names self)).

Definition check_declared (self : t) (task_id : TaskId) (change : option TaskChange) :
    Result unit :=
  match change with
  | Some change => check self change
  | None => Err (DomainError.ChangeMissing task_id (names self))
  end.
End ChangeSet.
Abbreviation ChangeSet := ChangeSet.t.

(** [[goals] tags] of [dagq.toml]. *)
Module TagSet.
Record t : Set := wrap { values : list GoalTag }.

Definition new (tags : list GoalTag) : result string t :=
  match tags with
  | [] => Err "names no tag"
  | _ =>
      match repeated [] tags with
      | Some tag => Err ("names " +:+ GoalTag.as_str tag +:+ " twice")
      | None => Ok (wrap tags)
      end
  end.

Definition names (self : t) : list string := GoalTag.as_str <$> values self.

Fixpoint check (self : t) (tags : list GoalTag) : Result unit :=
  match tags with
  | [] => Ok tt
  | tag :: rest =>
      _ ← require (bool_decide (tag ∈ values self))
        (DomainError.GoalTagNotInSet (GoalTag.as_str tag) (names self));
      check self rest
  end.

Definition check_declared (self : t) (goal_id : GoalId) (tags : list GoalTag) : Result unit :=
  _ ← require (negb (bool_decide (tags = [])))
    (DomainError.GoalTagMissing goal_id (names self));
  check self tags.
End TagSet.
Abbreviation TagSet := TagSet.t.

Lemma change_set_new_Ok changes s :
  ChangeSet.new changes = Ok s ↔ s = ChangeSet.wrap changes ∧ changes ≠ [] ∧ NoDup changes.
Proof.
  unfold ChangeSet.new. rewrite <-(repeated_None changes []) by constructor.
  destruct changes as [|c changes]; [naive_solver|].
  destruct (repeated [] (c :: changes)); naive_solver.
Qed.
