(* ===== verification/Scope.v ===== *)
(** * The paths a task may change

    [src/src/domain/scope.rs]: the check of the globs a task declares, the
    matcher of a glob against a path, and the paths of a diff outside every
    glob.  The matcher works on UTF-8 bytes; [char_match] and [path_match]
    are the documented meaning over characters and segments it is compared
    with. *)
From S2P Require Import Prelude Text Vocab Ids Errors.
From Stdlib Require Import Ascii.

Module Scope.

(** ** The globs a task declares *)

(** Why a glob is refused, the first of the source's conditions that holds. *)
Definition glob_fault (glob : string) : option string :=
  if is_blank glob then Some "it is blank"
  else if starts_with glob "/" then Some "it must be relative to the repository root"
  else if existsb (λ s, bool_decide (s = ".") || bool_decide (s = "..")) (split_on "/" glob)
  then Some "it must not have a . or .. segment"
  else if existsb is_empty (split_on "/" glob)
  then Some "it must not have an empty segment"
  else None.

Fixpoint validate_path_globs (globs : list string) : Result unit :=
  match globs with
  | [] => Ok tt
  | glob :: rest =>
      match glob_fault glob with
      | Some reason => Err (DomainError.InvalidPathGlob glob reason)
      | None => validate_path_globs rest
      end
  end.

Definition dedup_globs (globs : list string) : list string := dedup_onto [] globs.

(** ** The matcher *)

(** [u8::leading_ones]. *)
Definition leading_ones (b : ascii) : nat :=
  let n := byte_of b in
  if (n <? 128)%N then 0 else if (n <? 192)%N then 1
  else if (n <? 224)%N then 2 else if (n <? 240)%N then 3
  else if (n <? 248)%N then 4 else if (n <? 252)%N then 5
  else if (n <? 254)%N then 6 else if (n <? 255)%N then 7 else 8.

(** The width of the sequence the first byte of [text] begins, 0 of none. *)
Definition char_width (text : list ascii) : nat :=
  match text with
  | [] => 0
  | b :: _ => match leading_ones b with 0 => 1 | n => n end
  end.

Fixpoint segment_matches (glob text : list ascii) : bool :=
  match glob with
  | [] => match text with [] => true | _ => false end
  | "*"%char :: rest =>
      existsb (λ skip, segment_matches rest (drop skip text)) (seq 0 (S (length text)))
  | "?"%char :: rest =>
      let width := char_width text in
      (0 <? width) && (width <=? length text) && segment_matches rest (drop width text)
  | c :: rest =>
      match text with
      | b :: text' => Ascii.eqb b c && segment_matches rest text'
      | [] => false
      end
  end.

Fixpoint segments_match (glob path : list string) : bool :=
  match glob with
  | [] => match path with [] => true | _ => false end
  | first :: rest =>
      if bool_decide (first = "**") then
        existsb (λ skip, segments_match rest (drop skip path)) (seq 0 (S (length path)))
      else match path with
      | segment :: tail =>
          segment_matches (bytes first) (bytes segment) && segments_match rest tail
      | [] => false
      end
  end.

Definition glob_matches (glob path : string) : bool :=
  segments_match (split_on "/" glob) (split_on "/" path).

Definition out_of_scope (globs changed : list string) : list string :=
  match globs with
  | [] => []
  | _ => List.filter (λ path, negb (existsb (λ glob, glob_matches glob path) globs)) changed
  end.

Definition scope_violation_reason (paths : list string) : string :=
  "changed paths outside the task's --paths: " +:+ join ", " paths.

(** ** What a glob means *)

(** A character of UTF-8: a byte below 128, or a leading byte of width 2 to 4
    and its continuation bytes. *)
Definition continuation (b : ascii) : bool := leading_ones b =? 1.
Definition utf8_char (c : list ascii) : bool :=
  match c with
  | [] => false
  | b :: more =>
      forallb continuation more &&
      match leading_ones b with
      | 0 => length more =? 0
      | 1 => false
      | n => (n <=? 4) && (S (length more) =? n)
      end
  end.

(** The documented meaning inside a segment, over characters: [*] any run of
    characters, [?] one character, everything else itself. *)
Inductive char_match : list (list ascii) → list (list ascii) → Prop :=
  | match_nil : char_match [] []
  | match_star g skipped cs : char_match g cs → char_match (["*"%char] :: g) (skipped ++ cs)
  | match_any g c cs : char_match g cs → char_match (["?"%char] :: g) (c :: cs)
  | match_literal c g cs :
      c ≠ ["*"%char] → c ≠ ["?"%char] → char_match g cs → char_match (c :: g) (c :: cs).

(** And over segments: [**] zero or more whole segments. *)
Inductive path_match (seg : string → string → Prop) : list string → list string → Prop :=
  | path_nil : path_match seg [] []
  | path_deep g skipped p : path_match seg g p → path_match seg ("**" :: g) (skipped ++ p)
  | path_segment s g t p :
      s ≠ "**" → seg s t → path_match seg g p → path_match seg (s :: g) (t :: p).

(** ** Lemmas *)
Lemma existsb_drop {A} (p : list A → bool) (l : list A) :
  existsb (λ skip, p (drop skip l)) (seq 0 (S (length l))) = true ↔
  ∃ skipped rest, l = skipped ++ rest ∧ p rest = true.
Proof.
  rewrite existsb_exists. split.
  - intros (k & _ & Hp). exists (take k l), (drop k l). by rewrite take_drop.
  - intros (skipped & rest & -> & Hp). exists (length skipped).
    rewrite in_seq, length_app, drop_app_length. split; [lia|done].
Qed.

Lemma segment_matches_star g t :
  segment_matches ("*"%char :: g) t = true ↔
  ∃ skipped rest, t = skipped ++ rest ∧ segment_matches g rest = true.
Proof. apply (existsb_drop (segment_matches g)). Qed.

Lemma segment_matches_any g t :
  segment_matches ("?"%char :: g) t = true ↔
  0 < char_width t ≤ length t ∧ segment_matches g (drop (char_width t) t) = true.
Proof.
  cbn [segment_matches]. rewrite !andb_true_iff, Nat.ltb_lt, Nat.leb_le. done.
Qed.

Lemma segment_matches_literal c g t :
  c ≠ "*"%char → c ≠ "?"%char →
  segment_matches (c :: g) t = true ↔ ∃ t', t = c :: t' ∧ segment_matches g t' = true.
Proof.
  intros Hstar Hany.
  assert (segment_matches (c :: g) t = match t with
    | b :: t' => Ascii.eqb b c && segment_matches g t' | [] => false end) as ->.
  { destruct c as [[] [] [] [] [] [] [] []]; try done. }
  destruct t as [|b t']; [naive_solver|].
  rewrite andb_true_iff, Ascii.eqb_eq. naive_solver.
Qed.

Definition plain (b : ascii) : Prop := b ≠ "*"%char ∧ b ≠ "?"%char.

Lemma segment_matches_plain c g t :
  Forall plain c →
  segment_matches (c ++ g) t = true ↔ ∃ t', t = c ++ t' ∧ segment_matches g t' = true.
Proof.
  intros Hc. revert t. induction Hc as [|b c [Hs Ha] _ IH]; intros t; simpl app.
  - naive_solver.
  - rewrite segment_matches_literal by done. setoid_rewrite IH. naive_solver.
Qed.

Lemma utf8_plain c :
  utf8_char c = true → c ≠ ["*"%char] → c ≠ ["?"%char] → Forall plain c.
Proof.
  destruct c as [|b more]; [done|]. unfold utf8_char. intros [Hmore Hb]%andb_true_iff Hs Ha.
  constructor.
  - split; intros ->; cbv in Hb; destruct more; by try discriminate.
  - apply Forall_forall. intros x Hx%list_elem_of_In.
    pose proof (proj1 (forallb_forall _ _) Hmore x Hx) as Hcont.
    split; intros ->; by cbv in Hcont.
Qed.

Lemma utf8_width c t :
  utf8_char c = true → char_width (c ++ t) = length c ∧ 0 < length c.
Proof.
  destruct c as [|b more]; [done|]. unfold utf8_char. intros [_ Hb]%andb_true_iff.
  simpl. destruct (leading_ones b) as [|[|n]]; [|done|].
  - apply Nat.eqb_eq in Hb. lia.
  - apply andb_true_iff in Hb as [_ Hb]. apply Nat.eqb_eq in Hb. lia.
Qed.

(** A cut of a text falls between two characters or inside one. *)
Lemma concat_cut (cs : list (list ascii)) skipped rest :
  concat cs = skipped ++ rest →
  (∃ cs1 cs2, cs = cs1 ++ cs2 ∧ rest = concat cs2) ∨
  (∃ cs1 a b cs2, cs = cs1 ++ (a ++ b) :: cs2 ∧ a ≠ [] ∧ b ≠ [] ∧ rest = b ++ concat cs2).
Proof.
  revert skipped. induction cs as [|c cs IH]; intros skipped Heq; simpl in Heq.
  { left. exists [], []. split; [done|]. by destruct skipped. }
  apply app_eq_inv in Heq as [(k & -> & ->)|(k & -> & Heq)].
  - destruct skipped as [|x a]; [left; exists [], ((k) :: cs); done|].
    destruct k as [|y b]; [left; exists [x :: a], cs; by rewrite app_nil_r|].
    right. exists [], (x :: a), (y :: b), cs. done.
  - destruct (IH _ Heq) as [(cs1 & cs2 & -> & ->)|(cs1 & a & b & cs2 & -> & ? & ? & ->)].
    + left. by exists (c :: cs1), cs2.
    + right. by exists (c :: cs1), a, b, cs2.
Qed.

(** A literal character of the glob and the text it meets. *)
Lemma literal_head c g cs :
  utf8_char c = true → Forall (λ c, utf8_char c = true) cs →
  (∃ t', concat cs = c ++ t' ∧ segment_matches g t' = true) →
  ∃ cs', cs = c :: cs' ∧ segment_matches g (concat cs') = true.
Proof.
  intros Hc Hcs (t' & Heq & Hm).
  destruct cs as [|d cs]; simpl in Heq.
  { pose proof (proj2 (utf8_width c [] Hc)). destruct c; simpl in *; [lia|discriminate]. }
  inv Hcs as [|? ? Hd Hcs'].
  pose proof (proj1 (utf8_width c t' Hc)) as Hwc.
  pose proof (proj1 (utf8_width d (concat cs) Hd)) as Hwd.
  assert (length d = length c) as Hlen by (rewrite Heq in Hwd; congruence).
  apply app_inj_1 in Heq as [-> <-]; [|done]. by exists cs.
Qed.

(** A literal character never begins at a continuation byte. *)
Lemma literal_not_continuation c b t t' :
  utf8_char c = true → b ≠ [] → Forall (λ x, continuation x = true) b → b ++ t ≠ c ++ t'.
Proof.
  intros Hc Hb Hcont Heq. destruct b as [|x b]; [done|].
  destruct c as [|y c]; [by simpl in Hc|]. injection Heq as -> _.
  inv Hcont. unfold utf8_char in Hc. apply andb_true_iff in Hc as [_ Hc].
  unfold continuation in *. destruct (leading_ones y) as [|[|]]; done.
Qed.

Lemma utf8_tail_continuation a b :
  a ≠ [] → utf8_char (a ++ b) = true → Forall (λ x, continuation x = true) b.
Proof.
  destruct a as [|x a]; [done|]. intros _ [Hmore _]%andb_true_iff.
  rewrite forallb_app in Hmore. apply andb_true_iff in Hmore as [_ Hb].
  apply Forall_forall. intros y Hy%list_elem_of_In. by eapply forallb_forall in Hb.
Qed.

(** What the character meaning accepts, the matcher accepts. *)
Lemma char_match_accepted g cs :
  Forall (λ c, utf8_char c = true) g → Forall (λ c, utf8_char c = true) cs →
  char_match g cs → segment_matches (concat g) (concat cs) = true.
Proof.
  intros Hg Hcs Hm. revert Hg Hcs.
  induction Hm as [|g skipped cs _ IH|g c cs _ IH|c g cs Hs Ha _ IH]; intros Hg Hcs; [done| | |].
  - inv Hg. apply Forall_app in Hcs as [_ Hcs]. simpl concat. rewrite concat_app.
    apply segment_matches_star. eauto.
  - inv Hg. inv Hcs as [|? ? Hc Hcs']. simpl concat.
    destruct (utf8_width c (concat cs) Hc) as [Hw Hlen].
    apply segment_matches_any. rewrite Hw, length_app, drop_app_length. split; [lia|eauto].
  - inv Hg. inv Hcs as [|? ? Hc Hcs']. simpl concat.
    apply segment_matches_plain; [by apply utf8_plain|]. eauto.
Qed.

(** On a text of single bytes the matcher accepts nothing more. *)
Lemma segment_matches_ascii g cs :
  Forall (λ c, utf8_char c = true) g → Forall (λ c, utf8_char c = true) cs →
  Forall (λ c, length c = 1) cs →
  segment_matches (concat g) (concat cs) = true → char_match g cs.
Proof.
  intros Hg. revert cs. induction Hg as [|c g Hc Hg IH]; intros cs Hcs H1 Hm; simpl in Hm.
  { destruct cs as [|d cs]; [constructor|]. inv Hcs as [|? ? Hd _].
    destruct d; [by simpl in Hd|done]. }
  destruct (decide (c = ["*"%char])) as [->|Hs]; [|destruct (decide (c = ["?"%char])) as [->|Ha]].
  - apply segment_matches_star in Hm as (sk & r & Heq & Hr).
    destruct (concat_cut _ _ _ Heq) as [(cs1 & cs2 & -> & ->)|(cs1 & a & b & cs2 & -> & Hna & Hnb & _)].
    + apply Forall_app in Hcs as [_ ?]. apply Forall_app in H1 as [_ ?].
      constructor. eauto.
    + apply Forall_app in H1 as [_ H1]. inv H1 as [|? ? Hlen _]. rewrite length_app in Hlen.
      destruct a, b; simpl in Hlen; try done; lia.
  - apply segment_matches_any in Hm as ([Hw _] & Hr).
    destruct cs as [|d cs]; [simpl in Hw; lia|]. inv Hcs as [|? ? Hd ?]. inv H1.
    simpl concat in Hr. rewrite (proj1 (utf8_width d (concat cs) Hd)), drop_app_length in Hr.
    constructor. eauto.
  - apply segment_matches_plain in Hm; [|by apply utf8_plain].
    destruct (literal_head _ _ _ Hc Hcs Hm) as (cs' & -> & Hr). inv Hcs. inv H1.
    constructor; eauto.
Qed.

(** Without [?] in the glob the matcher is exact on any text, and from inside
    a character it can only skip to the next one. *)
Lemma segment_matches_no_any g :
  Forall (λ c, utf8_char c = true) g → ["?"%char] ∉ g →
  (∀ cs, Forall (λ c, utf8_char c = true) cs →
    segment_matches (concat g) (concat cs) = true → char_match g cs) ∧
  (∀ b cs, b ≠ [] → Forall (λ x, continuation x = true) b →
    Forall (λ c, utf8_char c = true) cs →
    segment_matches (concat g) (b ++ concat cs) = true →
    ∃ s cs', cs = s ++ cs' ∧ char_match g cs').
Proof.
  induction 1 as [|c g Hc Hg IH]; intros Hany.
  { split; [|intros [|]; done]. intros [|d cs] Hcs Hm; [constructor|].
    inv Hcs as [|? ? Hd _]. destruct d; [by simpl in Hd|done]. }
  apply not_elem_of_cons in Hany as [Ha Hany]. destruct (IH Hany) as [IHS IHQ]. clear IH.
  assert (c ≠ ["?"%char]) as Hq by congruence.
  destruct (decide (c = ["*"%char])) as [->|Hs].
  - split.
    + intros cs Hcs Hm. apply segment_matches_star in Hm as (sk & r & Heq & Hr).
      destruct (concat_cut _ _ _ Heq) as [(cs1 & cs2 & -> & ->)|(cs1 & a & b & cs2 & -> & Hna & Hnb & ->)].
      * apply Forall_app in Hcs as [_ ?]. constructor. eauto.
      * apply Forall_app in Hcs as [_ Hcs]. inv Hcs as [|? ? Hab ?].
        destruct (IHQ b cs2) as (s & cs' & -> & ?); [done|by apply (utf8_tail_continuation a)|done|done|].
        change (cs1 ++ (a ++ b) :: s ++ cs') with (cs1 ++ ((a ++ b) :: s) ++ cs').
        rewrite app_assoc. by constructor.
    + intros b cs Hb Hcont Hcs Hm. apply segment_matches_star in Hm as (sk & r & Heq & Hr).
      destruct (concat_cut (b :: cs) _ _ Heq) as
        [([|b' cs1] & cs2 & Hsplit & ->)|([|b' cs1] & a & b2 & cs2 & Hsplit & Hna & Hnb & ->)];
        simpl in Hsplit.
      * subst cs2. simpl in Hr. destruct (IHQ b cs) as (s & cs' & -> & ?); [done..|].
        exists [], (s ++ cs'). split; [done|]. by constructor.
      * injection Hsplit as <- ->. apply Forall_app in Hcs as [_ ?].
        exists [], (cs1 ++ cs2). split; [done|]. constructor. eauto.
      * injection Hsplit as -> <-. apply Forall_app in Hcont as [_ ?].
        destruct (IHQ b2 cs) as (s & cs' & -> & ?); [done..|].
        exists [], (s ++ cs'). split; [done|]. by constructor.
      * injection Hsplit as <- ->. apply Forall_app in Hcs as [_ Hcs]. inv Hcs as [|? ? Hab ?].
        destruct (IHQ b2 cs2) as (s & cs' & -> & ?); [done|by apply (utf8_tail_continuation a)|done|done|].
        exists (cs1 ++ (a ++ b2) :: s), cs'. rewrite <-app_assoc. split; [done|].
        by apply (match_star _ []).
  - split.
    + intros cs Hcs Hm. simpl in Hm. apply segment_matches_plain in Hm; [|by apply utf8_plain].
      destruct (literal_head _ _ _ Hc Hcs Hm) as (cs' & -> & Hr). inv Hcs.
      constructor; eauto.
    + intros b cs Hb Hcont Hcs Hm. simpl in Hm.
      apply segment_matches_plain in Hm as (t' & Heq & _); [|by apply utf8_plain].
      exfalso. by eapply literal_not_continuation in Heq.
Qed.

Lemma segments_match_path g p :
  segments_match g p = true ↔
  path_match (λ s t, segment_matches (bytes s) (bytes t) = true) g p.
Proof.
  split.
  - revert p. induction g as [|s g IH]; intros p; cbn [segments_match].
    + destruct p; [constructor|done].
    + case_bool_decide as Hs.
      * subst s. intros Hex. apply (existsb_drop (segments_match g)) in Hex as (sk & r & -> & Hr).
        constructor. auto.
      * destruct p as [|t p]; [done|]. intros [? ?]%andb_true_iff. constructor; auto.
  - induction 1 as [|g sk p _ IH|s g t p Hs Hseg _ IH]; [done| |]; cbn [segments_match].
    + rewrite bool_decide_true by done. apply (existsb_drop (segments_match g)). eauto.
    + rewrite bool_decide_false by done. by rewrite Hseg, IH.
Qed.

Lemma segment_matches_literal_only g t :
  Forall plain g → segment_matches g t = true ↔ t = g.
Proof.
  intros Hg. rewrite <-(app_nil_r g) at 1. rewrite segment_matches_plain by done.
  split; [|intros ->; exists []; by rewrite app_nil_r].
  intros ([|] & -> & Hm); [by rewrite app_nil_r|done].
Qed.

Lemma bytes_inj s t : bytes s = bytes t → s = t.
Proof.
  unfold bytes. intros Heq.
  by rewrite <-(String.string_of_list_ascii_of_string s), Heq,
    String.string_of_list_ascii_of_string.
Qed.

Lemma split_on_bytes (P : ascii → Prop) sep s :
  Forall P (bytes s) → Forall (λ w, Forall P (bytes w)) (split_on sep s).
Proof.
  unfold bytes. induction s as [|a s IH]; simpl; intros Hs; [by repeat constructor|].
  inv Hs as [|? ? Ha Hs']. specialize (IH Hs').
  destruct (Ascii.eqb a sep); [by constructor|].
  destruct (split_on sep s) as [|w ws]; [by repeat constructor|].
  inv IH. constructor; [by constructor|done].
Qed.

Lemma segments_match_literal g p :
  Forall (λ w, Forall plain (bytes w)) g → segments_match g p = true ↔ p = g.
Proof.
  intros Hg. revert p. induction Hg as [|s g Hs _ IH]; intros p; cbn [segments_match].
  { destruct p; naive_solver. }
  rewrite bool_decide_false by (intros ->; by inv Hs as [|? ? [] _]).
  destruct p as [|t p]; [naive_solver|].
  rewrite andb_true_iff, segment_matches_literal_only, IH by done. split.
  - intros [->%bytes_inj ->]. done.
  - by intros [= -> ->].
Qed.

Lemma glob_fault_None glob :
  glob_fault glob = None ↔
  is_blank glob = false ∧ ∀ s, s ∈ split_on "/" glob → s ≠ "" ∧ s ≠ "." ∧ s ≠ "..".
Proof.
  unfold glob_fault. destruct (is_blank glob); [naive_solver|].
  assert (starts_with glob "/" = true → "" ∈ split_on "/" glob) as Hslash.
  { destruct glob as [|a s]; [done|]. unfold starts_with. simpl.
    destruct a as [[] [] [] [] [] [] [] []]; try done. intros _. left. }
  destruct (existsb _ _) eqn:Hdots at 1.
  { apply existsb_exists in Hdots as (s & Hs%list_elem_of_In & Hd).
    apply orb_true_iff in Hd. rewrite !bool_decide_eq_true in Hd.
    destruct (starts_with _ _); naive_solver. }
  destruct (existsb is_empty _) eqn:Hempty at 1.
  { apply existsb_exists in Hempty as (s & Hs%list_elem_of_In & Hd).
    destruct s; [|done]. destruct (starts_with _ _); naive_solver. }
  destruct (starts_with glob "/"); [naive_solver|]. split; [|done]. intros _. split; [done|].
  intros s Hs%list_elem_of_In.
  destruct (bool_decide (s = ".") || bool_decide (s = "..")) eqn:Hd.
  { assert (existsb (λ s, bool_decide (s = ".") || bool_decide (s = "..")) (split_on "/" glob) = true)
      by (apply existsb_exists; eauto). congruence. }
  destruct (is_empty s) eqn:He.
  { assert (existsb is_empty (split_on "/" glob) = true) by (apply existsb_exists; eauto). congruence. }
  bool_split. split_and!; [by destruct s|done|done].
Qed.

(** The character [*??] would need two of, as bytes of its three. *)
Lemma star_splits_a_character :
  segment_matches (bytes "*??") (bytes "あ") = true ∧
  ¬ char_match [["*"%char]; ["?"%char]; ["?"%char]] [bytes "あ"].
Proof.
  split; [by vm_compute|]. intros Hm.
  inversion Hm as [|g sk cs Hm' Hg Hcs| |]; subst; try done.
  inversion Hm' as [| |g1 c1 cs1 Hm1|]; subst; try done.
  inversion Hm1 as [| |g2 c2 cs2 Hm2|]; subst; try done.
  apply (f_equal length) in Hcs. rewrite length_app in Hcs. simpl in Hcs. lia.
Qed.

(** ** Theorems *)

(** A glob matches a path exactly when the segments of the path fall to
    those of the glob: a segment [**] takes any number of whole segments,
    every other segment takes one that the byte matcher accepts. *)
Theorem glob_matches_segments glob path :
  glob_matches glob path = true ↔
  path_match (λ s t, segment_matches (bytes s) (bytes t) = true)
    (split_on "/" glob) (split_on "/" path).
Proof. apply segments_match_path. Qed.

(** C40: inside a segment the byte matcher decides the documented meaning over
    characters ([*] any run of characters, [?] one character, everything else
    itself) for every valid UTF-8 glob and text, when the text is ASCII or the
    glob has no [?]; and whatever the meaning accepts, the matcher accepts on
    any text. *)
Theorem segment_matches_documented (g cs : list (list ascii)) :
  Forall (λ c, utf8_char c = true) g → Forall (λ c, utf8_char c = true) cs →
  (char_match g cs → segment_matches (concat g) (concat cs) = true) ∧
  (Forall (λ c, length c = 1) cs ∨ ["?"%char] ∉ g →
    segment_matches (concat g) (concat cs) = true → char_match g cs).
Proof.
  intros Hg Hcs. split; [by apply char_match_accepted|].
  intros [Hascii|Hany]; [by apply segment_matches_ascii|].
  by apply segment_matches_no_any.
Qed.

Lemma segment_matches_documented_witness :
  segment_matches (bytes "é*") (bytes "éa") = true ∧
  char_match [bytes "é"; ["*"%char]] [bytes "é"; ["a"%char]].
Proof.
  assert (Forall (λ c, utf8_char c = true) [bytes "é"; ["*"%char]]) as Hg
    by (repeat constructor).
  assert (Forall (λ c, utf8_char c = true) [bytes "é"; ["a"%char]]) as Hcs
    by (repeat constructor).
  split; [by vm_compute|].
  apply (segment_matches_documented _ _ Hg Hcs); [|by vm_compute].
  right. by apply (bool_decide_eq_false_1 (["?"%char] ∈ [bytes "é"; ["*"%char]])).
Defined.

(** A diff stays inside the paths of its task exactly when the task
    declares no glob or every changed path matches one; otherwise the paths
    reported are the changed ones that no glob matches, in the order given. *)
Theorem out_of_scope_exact globs changed :
  (out_of_scope globs changed = [] ↔
    globs = [] ∨ ∀ path, path ∈ changed → ∃ glob, glob ∈ globs ∧ glob_matches glob path = true) ∧
  (∀ path, path ∈ out_of_scope globs changed ↔
    globs ≠ [] ∧ path ∈ changed ∧ ∀ glob, glob ∈ globs → glob_matches glob path = false) ∧
  out_of_scope globs changed `sublist_of` changed.
Proof.
  assert (∀ path, path ∈ out_of_scope globs changed ↔
    globs ≠ [] ∧ path ∈ changed ∧ ∀ glob, glob ∈ globs → glob_matches glob path = false) as Hin.
  { intros path. destruct globs as [|g globs]; [set_solver|].
    unfold out_of_scope. rewrite list_elem_of_In, filter_In, <-list_elem_of_In, negb_true_iff.
    rewrite <-not_true_iff_false, existsb_exists. setoid_rewrite <-list_elem_of_In.
    split.
    - intros [Hp Hno]. split_and!; [done|done|]. intros glob Hglob.
      apply not_true_iff_false. eauto.
    - intros (_ & Hp & Hall). split; [done|]. intros (glob & Hglob & Hm).
      by rewrite Hall in Hm. }
  split_and!; [|exact Hin|].
  - split.
    + intros Hnil. destruct (decide (globs = [])) as [|Hne]; [by left|]. right.
      intros path Hp. destruct (existsb (λ glob, glob_matches glob path) globs) eqn:He.
      { apply existsb_exists in He as (glob & Hglob%list_elem_of_In & Hm). eauto. }
      assert (path ∈ out_of_scope globs changed) as Hbad.
      { apply Hin. split_and!; [done..|]. intros glob Hglob%list_elem_of_In.
        apply not_true_iff_false. intros Hm. apply not_true_iff_false in He. apply He.
        apply existsb_exists. eauto. }
      rewrite Hnil in Hbad. set_solver.
    + intros Hall. destruct (out_of_scope globs changed) as [|p l] eqn:Hout; [done|].
      assert (p ∈ p :: l) as Hp by left.
      apply Hin in Hp as (? & Hp & Hno). destruct Hall as [|Hall]; [done|].
      destruct (Hall _ Hp) as (glob & Hglob & Hm). by rewrite Hno in Hm.
  - clear Hin. destruct globs as [|g globs]; [apply sublist_nil_l|]. unfold out_of_scope.
    induction changed as [|p changed IH]; simpl; [constructor|].
    destruct (negb _); [by apply sublist_skip|by apply sublist_cons].
Qed.

(** A list of globs is accepted exactly when each is not blank and has no
    empty, [.] or [..] segment (so none is absolute); a refusal names the
    first glob that breaks this and why. *)
Theorem validate_path_globs_exact globs :
  (validate_path_globs globs = Ok tt ↔
    ∀ glob, glob ∈ globs →
      is_blank glob = false ∧ ∀ s, s ∈ split_on "/" glob → s ≠ "" ∧ s ≠ "." ∧ s ≠ "..") ∧
  (∀ e, validate_path_globs globs = Err e →
    ∃ before glob after reason, globs = before ++ glob :: after ∧
      e = DomainError.InvalidPathGlob glob reason ∧ glob_fault glob = Some reason ∧
      ∀ g, g ∈ before → glob_fault g = None).
Proof.
  setoid_rewrite <-glob_fault_None. induction globs as [|g globs [IHok IHerr]].
  { split; [|done]. split; [set_solver|done]. }
  simpl. destruct (glob_fault g) as [reason|] eqn:Hg.
  - split; [split; [done|]|].
    + intros Hall. specialize (Hall g). rewrite Hg in Hall. discriminate Hall. left.
    + intros e [= <-]. exists [], g, globs, reason. split_and!; [done..|set_solver].
  - split.
    + rewrite IHok. set_solver.
    + intros e He. destruct (IHerr e He) as (before & glob & after & reason & -> & ? & ? & Hb).
      exists (g :: before), glob, after, reason. split_and!; [done..|].
      intros g' [->|?]%elem_of_cons; auto.
Qed.

(** A glob without [*] and [?] matches the path that is its own text and
    no other. *)
Theorem literal_glob_exact glob path :
  Forall plain (bytes glob) → glob_matches glob path = true ↔ path = glob.
Proof.
  intros Hg. unfold glob_matches. rewrite segments_match_literal by by apply split_on_bytes.
  split; [|by intros ->].
  intros Heq. by rewrite <-(join_split "/" path), Heq, join_split.
Qed.

Lemma literal_glob_exact_witness :
  glob_matches "src/lib.rs" "src/lib.rs" = true ∧ glob_matches "src/lib.rs" "src/lib_rs" = false.
Proof.
  assert (Forall plain (bytes "src/lib.rs")) as Hg
    by (repeat (constructor; [by split|]); constructor).
  split.
  - by apply (literal_glob_exact _ _ Hg).
  - apply not_true_iff_false. by rewrite (literal_glob_exact _ "src/lib_rs" Hg).
Defined.
End Scope.
