(* ===== verification/Workers.v ===== *)
(** * The worker a task asks for

    [src/src/domain/worker.rs]: the pairs of a provider and a mode that the
    runtime can run, how a task's stored or edited fields resolve to one, and
    why a supervisor cannot claim for one. *)
From S2P Require Import Prelude Text Vocab Ids Errors.

(** [refuse_interactive]. *)
Definition refuse_interactive (mode : option WorkerMode) : Result unit :=
  match mode with
  | Some WorkerMode.Interactive => Err DomainError.InteractiveWorkerRetired
  | Some WorkerMode.Headless | None => Ok tt
  end.

Module Worker.
Record t : Set := mk { provider : Provider; mode : WorkerMode }.
#[global] Instance eq_dec : EqDecision t.
Proof. solve_decision. Defined.
Definition CLAUDE_INTERACTIVE : t := mk Provider.Claude WorkerMode.Interactive.
Definition CLAUDE_HEADLESS : t := mk Provider.Claude WorkerMode.Headless.
Definition DEFAULT : t := CLAUDE_HEADLESS.
Definition ALL : list t :=
  [CLAUDE_INTERACTIVE; CLAUDE_HEADLESS; mk Provider.Codex WorkerMode.Headless].

Definition new (provider : Provider) (mode : WorkerMode) : Result t :=
  match provider, mode with
  | Provider.Codex, WorkerMode.Interactive =>
      Err (DomainError.WorkerModeUnsupported provider mode)
  | _, _ => Ok (mk provider mode)
  end.

Definition default_mode (provider : Provider) : WorkerMode :=
  match provider with Provider.Claude | Provider.Codex => WorkerMode.Headless end.

Definition resolve (provider : option Provider) (mode : option WorkerMode) : Result t :=
  let provider := unwrap_or provider Provider.Claude in
  new provider (unwrap_or mode (default_mode provider)).

(** [Worker::with]. *)
Definition with_ (self : t) (provider' : option Provider) (mode' : option WorkerMode) :
    Result t :=
  match provider', mode' with
  | None, None => Ok self
  | Some provider', mode' => new provider' (unwrap_or mode' (default_mode provider'))
  | None, Some mode' => new (provider self) mode'
  end.
End Worker.
Abbreviation Worker := Worker.t.

Definition PROVIDER_UNAVAILABLE : string := "provider_unavailable".
Definition MODE_UNAVAILABLE : string := "mode_unavailable".

(** Why [worker] cannot be claimed by a supervisor that runs [supported]. *)
Definition unavailable (worker : Worker) (supported : list Worker) : option string :=
  let worker := Worker.mk (Worker.provider worker) WorkerMode.Headless in
  if bool_decide (worker ∈ supported) then None
  else if existsb (λ w, bool_decide (Worker.provider w = Worker.provider worker)) supported
  then Some MODE_UNAVAILABLE
  else Some PROVIDER_UNAVAILABLE.

Module ProviderCheck.
Record t : Set := mk {
  provider : Provider;
  executable : string;
  found : bool;
  error : option string;
  modes : list WorkerMode;
}.
#[global] Instance updatable : Updatable t :=
  λ r, mk (provider r) (executable r) (found r) (error r) (modes r).

Definition usable (self : t) : bool :=
  found self && negb (bool_decide (modes self = [])).

(** [ProviderCheck::disable]: the slice is changed in place. *)
Definition disable (checks : list t) (p : Provider) : list t :=
  (λ check, if bool_decide (provider check = p)
            then check <| modes := [] |> <| error := Some "provider_disabled" |>
            else check) <$> checks.
End ProviderCheck.

(** ** Lemmas *)
Lemma worker_new_Ok p m w :
  Worker.new p m = Ok w ↔ w = Worker.mk p m ∧ w ∈ Worker.ALL.
Proof. destruct p, m; simpl; unfold Worker.ALL; set_solver. Qed.

Lemma worker_new_Err p m e :
  Worker.new p m = Err e ↔
  p = Provider.Codex ∧ m = WorkerMode.Interactive ∧ e = DomainError.WorkerModeUnsupported p m.
Proof. destruct p, m; simpl; naive_solver. Qed.

#[export] Hint Resolve -> worker_new_Ok : dagq.

(** ** Theorems *)

(** A worker that a task's fields or an edit resolve to is always one of
    the three the runtime runs; the fields left out are Claude and the
    provider's default mode on a new task, and the worker's own provider on
    an edit that names a mode only; the one refusal is Codex's interactive
    mode. *)
Theorem worker_resolution (w : Worker) (p : option Provider) (m : option WorkerMode) :
  w ∈ Worker.ALL →
  (∀ w', Worker.resolve p m = Ok w' ∨ Worker.with_ w p m = Ok w' → w' ∈ Worker.ALL) ∧
  (∀ w', Worker.with_ w p m = Ok w' →
    Worker.provider w' = unwrap_or p (Worker.provider w) ∧
    Worker.mode w' = unwrap_or m (if is_some p then WorkerMode.Headless else Worker.mode w)) ∧
  (∀ e, Worker.resolve p m = Err e ∨ Worker.with_ w p m = Err e →
    e = DomainError.WorkerModeUnsupported Provider.Codex WorkerMode.Interactive ∧
    m = Some WorkerMode.Interactive).
Proof.
  intros Hw. split_and!.
  - intros w' [Hr|Hr].
    + by apply worker_new_Ok in Hr as [_ ?].
    + destruct p, m; simpl in Hr; try by apply worker_new_Ok in Hr as [_ ?]. by injection Hr as <-.
  - intros w' Hr. destruct p as [p|], m as [m|]; simpl in *;
      try (apply worker_new_Ok in Hr as [-> _]; by try destruct p).
    by injection Hr as <-.
  - intros e [He|He]; destruct p as [p|], m as [m|]; simpl in He; try done;
      unfold Worker.resolve in He; simpl in He;
      apply worker_new_Err in He as (Hp & Hm & ->); subst; try done;
      try (by destruct p); rewrite ?Hp; done.
Qed.

Lemma worker_resolution_witness :
  Worker.with_ Worker.DEFAULT (Some Provider.Codex) None
    = Ok (Worker.mk Provider.Codex WorkerMode.Headless) ∧
  Worker.mk Provider.Codex WorkerMode.Headless ∈ Worker.ALL.
Proof.
  assert (Worker.DEFAULT ∈ Worker.ALL) as Hd by (unfold Worker.ALL; set_solver).
  split; [done|].
  apply (worker_resolution Worker.DEFAULT (Some Provider.Codex) None Hd). by right.
Defined.
