(* ===== verification/Priorities.v ===== *)
(** * Priorities and origins

    Where the priority of a task comes from and who set it
    ([src/src/domain/mod.rs], [src/src/domain/plan_request.rs]), what a goal
    or task records of its maker at its creation, and who may change a
    priority a person set ([src/src/domain/authorization.rs]). *)
From S2P Require Import Prelude Text Vocab Ids Errors.

(** The priority of a task before the claim order raises it, and the level it
    comes from. *)
Definition base_priority (own goal : option Priority) : Priority * PrioritySource :=
  match own, goal with
  | Some own, _ => (own, PrioritySource.Task)
  | None, Some goal => (goal, PrioritySource.Goal)
  | None, None => (Priority.Normal, PrioritySource.Default)
  end.

(** ** Origins *)
Module RecordedOrigin.
Record t : Set := mk {
  origin : Origin;
  kind : option OriginKind;
  request_id : option RequestId;
}.
Definition UNKNOWN : t := mk Origin.Unknown None None.
Definition of_kind (kind : OriginKind) : t := mk (origin_of_kind kind) (Some kind) None.
Definition request (request : RequestId) : t :=
  mk Origin.Human (Some OriginKind.Request) (Some request).
End RecordedOrigin.
Abbreviation RecordedOrigin := RecordedOrigin.t.

Module CreatingPlanner.
Record t : Set := mk {
  opened_by : option PlannerOrigin;
  request : option RequestId;
  revised_request : option RequestId;
  finding : bool;
  draft : option (option DraftOrigin);
}.
End CreatingPlanner.
Abbreviation CreatingPlanner := CreatingPlanner.t.

Module Creator.
Inductive t : Set :=
  | Person
  | Planner (planner : CreatingPlanner)
  | Draft (origin : DraftOrigin)
  | Other.
Definition is_person (self : t) : bool :=
  match self with Person => true | _ => false end.
End Creator.
Abbreviation Creator := Creator.t.

Definition creation_origin (creator : Creator) : RecordedOrigin :=
  match creator with
  | Creator.Person => RecordedOrigin.of_kind OriginKind.Person
  | Creator.Draft origin => RecordedOrigin.of_kind (kind_of_draft (Some origin))
  | Creator.Other => RecordedOrigin.of_kind OriginKind.Runtime
  | Creator.Planner planner =>
      match CreatingPlanner.request planner with
      | Some request => RecordedOrigin.request request
      | None =>
          if bool_decide (CreatingPlanner.opened_by planner = Some PlannerOrigin.Person)
          then RecordedOrigin.of_kind OriginKind.Person
          else if CreatingPlanner.finding planner
          then RecordedOrigin.of_kind OriginKind.Finding
          else match CreatingPlanner.draft planner with
          | Some draft => RecordedOrigin.of_kind (kind_of_draft draft)
          | None =>
              match CreatingPlanner.revised_request planner with
              | Some request => RecordedOrigin.request request
              | None => RecordedOrigin.of_kind OriginKind.Planner
              end
          end
      end
  end.

(** ** Who set a priority *)

(** [PriorityBy::of] and [PriorityBy::effective]. *)
Definition priority_by_of (creator : Creator) : PriorityBy :=
  if Creator.is_person creator then PriorityBy.Human else PriorityBy.Ai.

Definition priority_by_effective (own : option Priority) (own_by goal_by : option PriorityBy) :
    PriorityBy :=
  match own with
  | Some _ => unwrap_or own_by PriorityBy.Human
  | None => unwrap_or goal_by PriorityBy.Ai
  end.

Definition goal_priority_at_creation (creator : Creator)
    (request : option (RequestId * Priority)) (given : option Priority) :
    Result (Priority * PriorityBy) :=
  match request with
  | Some (request_id, priority) =>
      match given with
      | Some given =>
          if bool_decide (given ≠ priority)
          then Err (DomainError.RequestPriorityDiffers request_id priority given)
          else Ok (priority, PriorityBy.Human)
      | None => Ok (priority, PriorityBy.Human)
      end
  | None => Ok (unwrap_or given Priority.default, priority_by_of creator)
  end.

Definition task_priority_at_creation (creator : Creator)
    (request : option (RequestId * Priority)) (given : option Priority)
    (goal : option (Priority * PriorityBy)) :
    Result (option Priority * option PriorityBy) :=
  match request with
  | Some (request_id, priority) =>
      match given with
      | Some given' =>
          if bool_decide (given' ≠ priority)
          then Err (DomainError.RequestPriorityDiffers request_id priority given')
          else Ok (Some priority, Some PriorityBy.Human)
      | None =>
          if bool_decide (goal = Some (priority, PriorityBy.Human))
          then Ok (None, None)
          else Ok (Some priority, Some PriorityBy.Human)
      end
  | None => Ok (given, (λ _, priority_by_of creator) <$> given)
  end.

(** ** Who may change it *)
Definition changes_persons_priority (role : ActorRole) : bool :=
  match role with ActorRole.User | ActorRole.Inbox => true | _ => false end.

Definition check_priority_change (role : ActorRole) (holder : PriorityHolder)
    (priority : Priority) (by_ : PriorityBy) : Result unit :=
  require (bool_decide (by_ ≠ PriorityBy.Human) || changes_persons_priority role)
    (DomainError.PersonsPriority holder priority role).

(** ** Theorems *)

(** The priority of a request is the one its goals and tasks take, as a
    person's: whatever the planner that creates the task gives, and whatever
    goal it joins, the task is created with the request's priority in effect
    and a person as its setter, or refused because the planner gave another
    priority; a goal likewise. *)
Theorem request_priority_prevails creator request_id priority given goal :
  (∀ own own_by,
    task_priority_at_creation creator (Some (request_id, priority)) given goal = Ok (own, own_by) →
    fst (base_priority own (fst <$> goal)) = priority ∧
    priority_by_effective own own_by (snd <$> goal) = PriorityBy.Human) ∧
  (∀ p by_,
    goal_priority_at_creation creator (Some (request_id, priority)) given = Ok (p, by_) →
    p = priority ∧ by_ = PriorityBy.Human) ∧
  (∀ e, task_priority_at_creation creator (Some (request_id, priority)) given goal = Err e ↔
    ∃ g, given = Some g ∧ g ≠ priority ∧
      e = DomainError.RequestPriorityDiffers request_id priority g) ∧
  (∀ e, goal_priority_at_creation creator (Some (request_id, priority)) given = Err e ↔
    ∃ g, given = Some g ∧ g ≠ priority ∧
      e = DomainError.RequestPriorityDiffers request_id priority g).
Proof.
  unfold task_priority_at_creation, goal_priority_at_creation.
  destruct given as [g|]; simpl; repeat case_bool_decide; subst;
    split_and!; intros; simplify_eq/=; split_and?; try done; naive_solver.
Qed.

(** Without a request a task keeps the priority given, set by its
    creator, so its effective setter is a person only when a person created
    it with a priority of its own or it inherits a person's from its goal. *)
Theorem priority_without_request creator given goal :
  ∃ own own_by,
    task_priority_at_creation creator None given goal = Ok (own, own_by) ∧
    own = given ∧
    (priority_by_effective own own_by (snd <$> goal) = PriorityBy.Human ↔
      (given ≠ None ∧ creator = Creator.Person) ∨
      (given = None ∧ snd <$> goal = Some PriorityBy.Human)).
Proof.
  unfold task_priority_at_creation.
  exists given, ((λ _, priority_by_of creator) <$> given). split_and!; [done..|].
  destruct given as [g|]; simpl.
  - unfold priority_by_of. destruct creator; simpl; naive_solver.
  - destruct goal as [[p []]|]; simpl; naive_solver.
Qed.

(** What a goal or task records of its maker is coherent: the origin is
    the one of its kind, a request is recorded exactly with the kind
    [request], and the origin is a person's exactly for a person, a person's
    planner and a request's planner (its own, or that of the proposal it
    revises when nothing else opened it). *)
Theorem creation_origin_coherent creator :
  let r := creation_origin creator in
  ∃ kind, RecordedOrigin.kind r = Some kind ∧
    RecordedOrigin.origin r = origin_of_kind kind ∧
    (kind = OriginKind.Request ↔ RecordedOrigin.request_id r ≠ None) ∧
    (RecordedOrigin.origin r = Origin.Human ↔
      creator = Creator.Person ∨
      ∃ p, creator = Creator.Planner p ∧
        (CreatingPlanner.request p ≠ None ∨
         CreatingPlanner.opened_by p = Some PlannerOrigin.Person ∨
         (CreatingPlanner.finding p = false ∧ CreatingPlanner.draft p = None ∧
          CreatingPlanner.revised_request p ≠ None))).
Proof.
  destruct creator as [|[opened [req|] revised [] draft]|origin|]; simpl; unfold creation_origin;
    simpl; try case_bool_decide; try destruct draft as [[[]|]|]; try destruct revised;
    try destruct origin; simpl; eexists; split_and!; try done; naive_solver.
Qed.

(** A person's priority is changed by the user and the inbox only; every
    other actor may change only what the AI set. *)
Theorem priority_change_guard role holder priority by_ :
  (check_priority_change role holder priority by_ = Ok tt ↔
    by_ = PriorityBy.Ai ∨ role = ActorRole.User ∨ role = ActorRole.Inbox) ∧
  (check_priority_change role holder priority by_ = Ok tt ∨
   check_priority_change role holder priority by_ =
     Err (DomainError.PersonsPriority holder priority role)).
Proof. unfold check_priority_change; destruct by_, role; simpl; naive_solver. Qed.
