(* ===== verification/Inputs.v ===== *)
(** * Inputs of the aggregates

    [src/src/domain/input.rs]: what a caller asks to create or change, with
    the rules it is checked by, and the stored state a store hands back. *)
From S2P Require Import Prelude Text Vocab Ids Errors Labels Scope Workers.

(** ** What a caller asks for *)
Module NewTask.
Record t : Set := mk {
  title : string;
  description : string;
  acceptance : string;
  verification_commands : list string;
  dependencies : list TaskId;
  goal_dependencies : list GoalId;
  goal_id : option GoalId;
  context : string;
  required_evidence : list EvidenceCheck;
  paths : list string;
  priority : option Priority;
  change : option TaskChange;
  provider : option Provider;
  worker_mode : option WorkerMode;
  wait_for_build : bool;
  execution_class : ExecutionClass;
}.

Definition worker (self : t) : Result Worker :=
  Worker.resolve (provider self) (worker_mode self).

(** [NewTask::required_evidence]: the checks in the order given, each once. *)
Definition unique_evidence (self : t) : list EvidenceCheck :=
  dedup_onto [] (required_evidence self).

Definition validate (self : t) : Result unit :=
  _ ← require (negb (is_blank (title self))) (DomainError.Blank "task title");
  _ ← require (forallb (λ s, negb (is_blank s)) (verification_commands self))
        (DomainError.Blank "verification commands");
  _ ← require (forallb (λ id, (0 <? TaskId.as_i64 id)%Z) (dependencies self))
        (DomainError.NonPositiveId "dependency IDs");
  _ ← require (is_none_or (goal_id self) (λ id, (0 <? GoalId.as_i64 id)%Z))
        (DomainError.NonPositiveId "goal ID");
  _ ← require (forallb (λ id, (0 <? GoalId.as_i64 id)%Z) (goal_dependencies self))
        (DomainError.NonPositiveId "goal dependency IDs");
  _ ← match goal_id self with
      | Some goal_id =>
          if bool_decide (goal_id ∈ goal_dependencies self)
          then Err (DomainError.OwnGoalDependency goal_id) else Ok tt
      | None => Ok tt
      end;
  _ ← worker self;
  Scope.validate_path_globs (paths self).
End NewTask.
Abbreviation NewTask := NewTask.t.

Module NewGoal.
Record t : Set := mk {
  title : string;
  description : string;
  acceptance : string;
  constraints : string;
  doc : option string;
  draft : bool;
  priority : option Priority;
  tags : list GoalTag;
}.

Definition validate (self : t) : Result unit :=
  _ ← require (negb (is_blank (title self))) (DomainError.Blank "goal title");
  check_distinct (tags self).
End NewGoal.
Abbreviation NewGoal := NewGoal.t.

Module GoalEdit.
Record t : Set := mk {
  title : option string;
  description : option string;
  acceptance : option string;
  constraints : option string;
  doc : option string;
  priority : option Priority;
  tags : option (list GoalTag);
}.

Definition is_empty (self : t) : bool :=
  is_none (priority self) && is_none (tags self) && is_none (title self)
  && is_none (description self) && is_none (acceptance self)
  && is_none (constraints self) && is_none (doc self).
End GoalEdit.
Abbreviation GoalEdit := GoalEdit.t.

Module TaskEdit.
Record t : Set := mk {
  title : option string;
  description : option string;
  acceptance : option string;
  verification_commands : option (list string);
  required_evidence : option (list EvidenceCheck);
  paths : option (list string);
  context : option string;
  change : option TaskChange;
  provider : option Provider;
  worker_mode : option WorkerMode;
  wait_for_build : option bool;
  execution_class : option ExecutionClass;
}.

Definition verify_only (self : t) : bool :=
  is_some (verification_commands self) && is_none (title self)
  && is_none (description self) && is_none (acceptance self)
  && is_none (required_evidence self) && is_none (paths self)
  && is_none (context self) && is_none (change self)
  && is_none (provider self) && is_none (worker_mode self)
  && is_none (wait_for_build self) && is_none (execution_class self).

Definition is_empty (self : t) : bool :=
  is_none (title self) && is_none (description self) && is_none (acceptance self)
  && is_none (verification_commands self) && is_none (required_evidence self)
  && is_none (paths self) && is_none (context self) && is_none (change self)
  && is_none (provider self) && is_none (worker_mode self)
  && is_none (wait_for_build self) && is_none (execution_class self).

(** A field of text that an edit may replace but not blank. *)
Definition not_blanked (field : string) (value : option string) : Result unit :=
  match value with
  | Some value => require (negb (is_blank value)) (DomainError.Blank field)
  | None => Ok tt
  end.

Definition validate (self : t) : Result unit :=
  _ ← not_blanked "task title" (title self);
  _ ← not_blanked "task description" (description self);
  _ ← not_blanked "task acceptance" (acceptance self);
  _ ← match verification_commands self with
      | Some commands =>
          require (forallb (λ s, negb (is_blank s)) commands)
            (DomainError.Blank "verification commands")
      | None => Ok tt
      end;
  match paths self with
  | Some paths => Scope.validate_path_globs paths
  | None => Ok tt
  end.
End TaskEdit.
Abbreviation TaskEdit := TaskEdit.t.

(** ** What a store hands back *)
Module TaskRecord.
Record t : Set := mk {
  id : TaskId;
  title : string;
  description : string;
  acceptance : string;
  verification_commands : list string;
  required_evidence : list EvidenceCheck;
  paths : list string;
  priority : option Priority;
  goal_priority : option Priority;
  change : option TaskChange;
  wait_for_build : bool;
  execution_class : ExecutionClass;
  worker : Worker;
  named_mode : option WorkerMode;
  status : TaskStatus;
  goal_id : option GoalId;
  context : string;
  created_at : string;
  updated_at : string;
}.
End TaskRecord.
Abbreviation TaskRecord := TaskRecord.t.

Module GoalRecord.
Record t : Set := mk {
  id : GoalId;
  title : string;
  description : string;
  acceptance : string;
  constraints : string;
  doc : option string;
  priority : Priority;
  tags : list GoalTag;
  status : GoalStatus;
  closed_at : option string;
  verdict : option GoalVerdict;
  created_at : string;
  updated_at : string;
}.
End GoalRecord.
Abbreviation GoalRecord := GoalRecord.t.

Module RunRecord.
Record t : Set := mk {
  id : RunId;
  task_id : TaskId;
  status : RunStatus;
  requested_provider : Provider;
  actual_provider : Provider;
  worker_mode : WorkerMode;
  base_commit : CommitSha;
  branch : option string;
  worktree_path : option string;
  workspace_id : option string;
  receipt_path : option string;
  log_path : option string;
  result_commit : option CommitSha;
  repo_path : option string;
  run_dir : option string;
  last_error : option string;
  workspace_closed_at : option Z;
  created_at : string;
}.
End RunRecord.
Abbreviation RunRecord := RunRecord.t.

(** Where a claimed run is provisioned. *)
Module RunPlan.
Record t : Set := mk {
  repo_path : string;
  run_dir : string;
  branch : string;
  worktree_path : string;
  receipt_path : string;
  log_path : string;
}.
End RunPlan.
Abbreviation RunPlan := RunPlan.t.

(** ** Lemmas *)
Lemma forallb_negb_blank l :
  forallb (λ s, negb (is_blank s)) l = true ↔ ∀ s, s ∈ l → is_blank s = false.
Proof.
  rewrite forallb_forall. setoid_rewrite <-list_elem_of_In. setoid_rewrite negb_true_iff. done.
Qed.

(** What a checked new task promises its registration. *)
Lemma new_task_validated n :
  NewTask.validate n = Ok tt →
  is_blank (NewTask.title n) = false ∧
  (∀ s, s ∈ NewTask.verification_commands n → is_blank s = false) ∧
  (∀ g, NewTask.goal_id n = Some g →
    (0 < GoalId.as_i64 g)%Z ∧ g ∉ NewTask.goal_dependencies n) ∧
  (∃ w, NewTask.worker n = Ok w) ∧
  Scope.validate_path_globs (NewTask.paths n) = Ok tt.
Proof.
  unfold NewTask.validate. intros Hv. res_inv. bool_split. split_and!; eauto.
  - by apply forallb_negb_blank.
  - intros g Hg. rewrite Hg in *. simpl in *. case_bool_decide; [done|].
    split; [by apply Z.ltb_lt|done].
Qed.
#[export] Hint Resolve new_task_validated : dagq.
