(* ===== verification/FollowUps.v ===== *)
(** * Follow-ups and their source goal

    [src/src/domain/follow_up.rs]: the check of a judgement of whether a
    follow-up belongs to the goal it came from, and which follow-ups keep that
    goal from closing as achieved. *)
From S2P Require Import Prelude Text Vocab Ids Errors.

(** ** Judgements *)
Module MembershipJudgement.
Record t : Set := mk {
  classification : MembershipClassification;
  acceptance_items : list string;
  reason : string;
  evidence : list string;
  destination_goal_id : option GoalId;
  destination_acceptance_items : list string;
  source_goal_id : option GoalId;
  corrects : option Z;
}.

Definition validate (self : t) (previous : option (Z * MembershipClassification))
    (source : GoalId) : result string unit :=
  if is_blank (reason self)
     || existsb is_blank
          (acceptance_items self ++ evidence self ++ destination_acceptance_items self)
  then Err "reason and each supplied item/reference must be non-blank"
  else if bool_decide (classification self = MembershipClassification.Required)
       && bool_decide (acceptance_items self = [])
  then Err "required needs at least one acceptance item"
  else if bool_decide (classification self ≠ MembershipClassification.Undecided)
       && bool_decide (evidence self = [])
  then Err "required and out_of_scope need evidence"
  else if bool_decide (classification self = MembershipClassification.OutOfScope)
       && (is_none (destination_goal_id self)
           || bool_decide (destination_goal_id self = Some source))
  then Err "out_of_scope needs a destination different from the source goal"
  else if bool_decide (classification self = MembershipClassification.Required)
       && is_some_and (destination_goal_id self) (λ g, bool_decide (g ≠ source))
  then Err "required belongs to the source goal"
  else if bool_decide (classification self ≠ MembershipClassification.OutOfScope)
       && negb (bool_decide (destination_acceptance_items self = []))
  then Err "only out_of_scope names items of a destination goal's acceptance"
  else if is_some_and previous (λ '(_, class),
            bool_decide (class ≠ MembershipClassification.Undecided)
            && bool_decide (classification self = MembershipClassification.Undecided))
  then Err "a decided judgement cannot return to undecided"
  else if is_some_and previous (λ '(id, class),
            bool_decide (class ≠ MembershipClassification.Undecided)
            && bool_decide (class ≠ classification self)
            && bool_decide (corrects self ≠ Some id))
  then Err "a correction must name the previous judgement with --corrects"
  else if is_some (corrects self) && bool_decide (corrects self ≠ fst <$> previous)
  then Err "--corrects must name the latest judgement"
  else Ok tt.
End MembershipJudgement.
Abbreviation MembershipJudgement := MembershipJudgement.t.

(** ** Follow-ups of a goal *)
Module SourceFollowUp.
Record t : Set := mk {
  task : TaskId;
  status : TaskStatus;
  in_goal : bool;
  judgement : option (Z * MembershipClassification * bool);
}.

Definition unsettled_reason (self : t) : option UnsettledReason :=
  match status self with
  | TaskStatus.Completed | TaskStatus.Canceled => None
  | _ =>
      match judgement self with
      | None => Some UnsettledReason.Unjudged
      | Some (_, MembershipClassification.Undecided, _) => Some UnsettledReason.Undecided
      | Some (_, _, true) => Some UnsettledReason.NeedsRecheck
      | Some (_, MembershipClassification.Required, false) =>
          if negb (in_goal self) then Some UnsettledReason.RequiredOutside else None
      | Some _ => None
      end
  end.

Definition unsettled (self : t) : option string :=
  UnsettledReason.explain <$> unsettled_reason self.
End SourceFollowUp.
Abbreviation SourceFollowUp := SourceFollowUp.t.

(** Each follow-up that keeps its source goal from closing as achieved, with
    why, in task order. *)
Definition unsettled_follow_ups (follow_ups : list SourceFollowUp) : list (TaskId * string) :=
  sort_by_key (λ '(task, _), [TaskId.as_i64 task])
    (omap (λ f, (λ why, (SourceFollowUp.task f, why)) <$> SourceFollowUp.unsettled f) follow_ups).

(** ** Lemmas *)
Lemma unsettled_reason_None f :
  SourceFollowUp.unsettled_reason f = None ↔
  SourceFollowUp.status f = TaskStatus.Completed ∨
  SourceFollowUp.status f = TaskStatus.Canceled ∨
  ∃ id class, SourceFollowUp.judgement f = Some (id, class, false) ∧
    class ≠ MembershipClassification.Undecided ∧
    (class = MembershipClassification.Required → SourceFollowUp.in_goal f = true).
Proof.
  unfold SourceFollowUp.unsettled_reason.
  destruct (SourceFollowUp.status f), (SourceFollowUp.judgement f) as [[[id []] []]|],
    (SourceFollowUp.in_goal f); simpl; naive_solver.
Qed.

Lemma unsettled_follow_ups_nil l :
  unsettled_follow_ups l = [] ↔
  ∀ f, f ∈ l → SourceFollowUp.unsettled_reason f = None.
Proof.
  unfold unsettled_follow_ups. rewrite <-(Permutation_nil_r _), sort_by_key_perm.
  rewrite Permutation_nil_r. unfold SourceFollowUp.unsettled.
  induction l as [|f l IH]; [set_solver|]. simpl.
  destruct (SourceFollowUp.unsettled_reason f) eqn:Hf; simpl.
  - split; [done|]. intros Hall. rewrite Hall in Hf; [done|left].
  - rewrite IH. set_solver.
Qed.

(** ** Theorems *)

(** The judgements of a follow-up follow one rule of change: of two
    judgements accepted one after the other, a decided one is never followed
    by an undecided one, and a change of a decided classification names the
    judgement it corrects; and an accepted judgement names what its class
    needs - a required one an item of the source goal's acceptance and no
    other goal, an out-of-scope one a goal other than the source, both
    evidence. *)
Theorem judgement_accepted j previous source :
  MembershipJudgement.validate j previous source = Ok tt →
  let class := MembershipJudgement.classification j in
  (∀ id before, previous = Some (id, before) → before ≠ MembershipClassification.Undecided →
    class ≠ MembershipClassification.Undecided ∧
    (class ≠ before → MembershipJudgement.corrects j = Some id)) ∧
  (∀ id, MembershipJudgement.corrects j = Some id → ∃ before, previous = Some (id, before)) ∧
  (class = MembershipClassification.Required →
    MembershipJudgement.acceptance_items j ≠ [] ∧
    ∀ g, MembershipJudgement.destination_goal_id j = Some g → g = source) ∧
  (class = MembershipClassification.OutOfScope →
    ∃ g, MembershipJudgement.destination_goal_id j = Some g ∧ g ≠ source) ∧
  (class ≠ MembershipClassification.OutOfScope →
    MembershipJudgement.destination_acceptance_items j = []) ∧
  (class ≠ MembershipClassification.Undecided → MembershipJudgement.evidence j ≠ []).
Proof.
  unfold MembershipJudgement.validate. intros Hok.
  repeat match type of Hok with
  | (if ?b then Err _ else _) = _ => destruct b eqn:?; [discriminate Hok|]
  end. clear Hok.
  repeat match goal with H : _ && _ = false |- _ => apply andb_false_iff in H end.
  rewrite ?bool_decide_eq_false, ?negb_false_iff, ?bool_decide_eq_true in *.
  split_and!.
  - intros id before -> Hb. simpl in *. rewrite !andb_false_iff, !bool_decide_eq_false in *. split.
    + naive_solver.
    + intros Hne. apply dec_stable. naive_solver.
  - intros id Hid. rewrite Hid in *. simpl in *. destruct previous as [[id' before]|]; simpl in *;
      [|naive_solver]. exists before. apply dec_stable. naive_solver.
  - intros Hreq. split; [naive_solver|]. intros g Hg. rewrite Hg in *. simpl in *.
    rewrite ?bool_decide_eq_false in *. apply dec_stable. naive_solver.
  - intros Hout. destruct (MembershipJudgement.destination_goal_id j) as [g|] eqn:Hg; simpl in *;
      [|naive_solver]. exists g. split; [done|]. rewrite ?bool_decide_eq_false in *. naive_solver.
  - naive_solver.
  - naive_solver.
Qed.

Lemma judgement_accepted_witness :
  ∃ j, MembershipJudgement.validate j (Some (3%Z, MembershipClassification.OutOfScope))
         (GoalId.new 1) = Ok tt ∧
    MembershipJudgement.corrects j = Some 3%Z.
Proof.
  pose (j := MembershipJudgement.mk MembershipClassification.Required ["the parser"] "it needs it"
    ["docs/a.md"] None [] None (Some 3%Z)).
  assert (MembershipJudgement.validate j (Some (3%Z, MembershipClassification.OutOfScope))
    (GoalId.new 1) = Ok tt) as Hok by (vm_compute; reflexivity).
  exists j. split; [exact Hok|].
  apply (proj1 (judgement_accepted _ _ _ Hok) 3%Z MembershipClassification.OutOfScope eq_refl);
    discriminate.
Defined.
