(* ===== verification/Tasks.v ===== *)
(** * Tasks

    [src/src/domain/task.rs]: the transition table of a task's status, the
    record [Task] with its two constructors, every operation that changes a
    task, the checks of its dependencies, and the whole form it crosses
    processes in. *)
From S2P Require Import Prelude Text Vocab Ids Errors Labels Scope Workers Priorities Inputs.

(** ** The status *)

(** [TaskStatus::transition]. *)
Definition status_transition (self : TaskStatus) (action : TaskAction)
    (unfinished_run : bool) : Result TaskStatus :=
  match self, action with
  | TaskStatus.Draft, TaskAction.Submit => Ok TaskStatus.Submitted
  | TaskStatus.Ready, TaskAction.Reopen => Ok TaskStatus.Submitted
  | TaskStatus.Submitted, TaskAction.Approve
  | TaskStatus.Draft, TaskAction.BypassReview
  | TaskStatus.Submitted, TaskAction.BypassReview => Ok TaskStatus.Ready
  | TaskStatus.Draft, TaskAction.Ready
  | TaskStatus.Submitted, TaskAction.Ready => Err (DomainError.ReadyNeedsPlanReview self)
  | TaskStatus.Ready, TaskAction.Draft
  | TaskStatus.Submitted, TaskAction.Draft => Ok TaskStatus.Draft
  | TaskStatus.Draft, TaskAction.Cancel
  | TaskStatus.Submitted, TaskAction.Cancel
  | TaskStatus.Ready, TaskAction.Cancel => Ok TaskStatus.Canceled
  | TaskStatus.InProgress, _ =>
      if unfinished_run then Err (DomainError.TaskHasUnfinishedRun action)
      else match action with
      | TaskAction.Ready => Ok TaskStatus.Ready
      | TaskAction.Draft => Ok TaskStatus.Draft
      | TaskAction.Cancel => Ok TaskStatus.Canceled
      | _ => Err (DomainError.TransitionNotAllowed self action)
      end
  | _, _ => Err (DomainError.TransitionNotAllowed self action)
  end.

(** [TaskStatus::dependencies_editable], [priority_editable],
    [content_editable] and [is_terminal]. *)
Definition status_dependencies_editable (self : TaskStatus) : bool :=
  match self with
  | TaskStatus.Draft | TaskStatus.Submitted | TaskStatus.Ready => true
  | _ => false
  end.
Definition status_priority_editable (self : TaskStatus) : bool :=
  status_dependencies_editable self || bool_decide (self = TaskStatus.InProgress).
Definition status_content_editable (self : TaskStatus) : bool :=
  match self with TaskStatus.Draft | TaskStatus.Submitted => true | _ => false end.
Definition status_is_terminal (self : TaskStatus) : bool :=
  match self with
  | TaskStatus.Completed | TaskStatus.Canceled | TaskStatus.Replaced => true
  | _ => false
  end.

(** ** Moves between goals *)

(** The goal a task moves to, as the move reads it. *)
Module Destination.
Record t : Set := mk { id : GoalId; priority : Priority; priority_by : PriorityBy }.
End Destination.
Abbreviation Destination := Destination.t.

Module MovedBy.
Inductive t : Set :=
  | Person
  | Ai
  | AiJudgedOutOfScope.
#[global] Instance eq_dec : EqDecision t.
Proof. solve_decision. Defined.
Definition of_role (role : ActorRole) : t :=
  if changes_persons_priority role then Person else Ai.
Definition judged_out_of_scope (role : ActorRole) : t :=
  match of_role role with Person => Person | _ => AiJudgedOutOfScope end.
End MovedBy.
Abbreviation MovedBy := MovedBy.t.

(** ** The task *)
Module Task.
Record t : Set := mk {
  id : TaskId;
  title : string;
  description : string;
  acceptance : string;
  verification_commands : list string;
  required_evidence : list EvidenceCheck;
  paths : list string;
  priority : Priority;
  priority_source : PrioritySource;
  priority_by : PriorityBy;
  own_priority : option Priority;
  own_priority_by : option PriorityBy;
  goal_priority : option Priority;
  goal_priority_by : option PriorityBy;
  origin : RecordedOrigin;
  change : option TaskChange;
  wait_for_build : bool;
  execution_class : ExecutionClass;
  worker : Worker;
  named_mode : option WorkerMode;
  status : TaskStatus;
  goal_id : option GoalId;
  context : string;
  created_at : string;
  updated_at : string;
}.
#[global] Instance updatable : Updatable t :=
  λ r, mk (id r) (title r) (description r) (acceptance r) (verification_commands
    r) (required_evidence r) (paths r) (priority r) (priority_source r)
    (priority_by r) (own_priority r) (own_priority_by r) (goal_priority r)
    (goal_priority_by r) (origin r) (change r) (wait_for_build r)
    (execution_class r) (worker r) (named_mode r) (status r) (goal_id r)
    (context r) (created_at r) (updated_at r).

Definition require_positive (id : TaskId) : Result unit :=
  require (0 <? TaskId.as_i64 id)%Z (DomainError.NonPositiveId "task ID").

(** [Task::new]. *)
Definition new (id : TaskId) (new : NewTask) (created_at : string) : Result t :=
  _ ← NewTask.validate new;
  _ ← require_positive id;
  let '(priority, priority_source) := base_priority (NewTask.priority new) None in
  worker ← NewTask.worker new;
  Ok {|
    id := id;
    worker := worker;
    named_mode := NewTask.worker_mode new;
    required_evidence := NewTask.unique_evidence new;
    paths := Scope.dedup_globs (NewTask.paths new);
    priority := priority;
    priority_source := priority_source;
    priority_by := priority_by_effective (NewTask.priority new) None None;
    own_priority := NewTask.priority new;
    own_priority_by := None;
    goal_priority := None;
    goal_priority_by := None;
    origin := RecordedOrigin.UNKNOWN;
    change := NewTask.change new;
    wait_for_build := NewTask.wait_for_build new;
    execution_class := NewTask.execution_class new;
    title := NewTask.title new;
    description := NewTask.description new;
    acceptance := NewTask.acceptance new;
    verification_commands := NewTask.verification_commands new;
    status := TaskStatus.Draft;
    goal_id := NewTask.goal_id new;
    context := NewTask.context new;
    updated_at := created_at;
    created_at := created_at;
  |}.

(** [Task::restore]. *)
Definition restore (record : TaskRecord) : Result t :=
  _ ← require_positive (TaskRecord.id record);
  _ ← require (negb (is_blank (TaskRecord.title record))) (DomainError.Blank "task title");
  _ ← require (is_none_or (TaskRecord.goal_id record) (λ id, (0 <? GoalId.as_i64 id)%Z))
        (DomainError.NonPositiveId "goal ID");
  let '(priority, priority_source) :=
    base_priority (TaskRecord.priority record) (TaskRecord.goal_priority record) in
  Ok {|
    id := TaskRecord.id record;
    title := TaskRecord.title record;
    description := TaskRecord.description record;
    acceptance := TaskRecord.acceptance record;
    verification_commands := TaskRecord.verification_commands record;
    required_evidence := TaskRecord.required_evidence record;
    paths := TaskRecord.paths record;
    priority := priority;
    priority_source := priority_source;
    priority_by := priority_by_effective (TaskRecord.priority record) None None;
    own_priority := TaskRecord.priority record;
    own_priority_by := None;
    goal_priority := TaskRecord.goal_priority record;
    goal_priority_by := None;
    origin := RecordedOrigin.UNKNOWN;
    change := TaskRecord.change record;
    wait_for_build := TaskRecord.wait_for_build record;
    execution_class := TaskRecord.execution_class record;
    worker := TaskRecord.worker record;
    named_mode := TaskRecord.named_mode record;
    status := TaskRecord.status record;
    goal_id := TaskRecord.goal_id record;
    context := TaskRecord.context record;
    created_at := TaskRecord.created_at record;
    updated_at := TaskRecord.updated_at record;
  |}.

(** [Task::with_record]. *)
Definition with_record (self : t) (own_by goal_by : option PriorityBy)
    (origin' : RecordedOrigin) : t :=
  self <| own_priority_by := opt_and (own_priority self) own_by |>
       <| goal_priority_by := opt_and (goal_priority self) goal_by |>
       <| priority_by := priority_by_effective (own_priority self) own_by goal_by |>
       <| origin := origin' |>.

(** The accessors that compute: [own_priority_by] and [stored_worker_mode]. *)
Definition shown_own_priority_by (self : t) : option PriorityBy :=
  (λ _, unwrap_or (own_priority_by self) PriorityBy.Human) <$> own_priority self.

Definition stored_worker_mode (self : t) : option WorkerMode :=
  match Worker.provider (worker self) with
  | Provider.Claude => named_mode self
  | Provider.Codex => Some (Worker.mode (worker self))
  end.

Definition dependencies_editable (task : t) : bool :=
  status_dependencies_editable (status task).
Definition require_editable (task : t) (what : string) : Result unit :=
  require (dependencies_editable task) (DomainError.TaskNotEditable what).

(** ** Operations *)
Definition transition (task : t) (action : TaskAction) (unfinished_run : bool) : Result t :=
  status' ← status_transition (status task) action unfinished_run;
  Ok (task <| status := status' |>).

Definition claim (task : t) : Result t :=
  _ ← require (bool_decide (status task = TaskStatus.Ready))
        (DomainError.TaskNotClaimable (id task) (status task));
  Ok (task <| status := TaskStatus.InProgress |>).

Definition persons_priority_taken_from_goal (task : t) (to : option Destination) :
    option Priority :=
  let inherits_the_same :=
    is_some (own_priority task)
    || bool_decide (priority_by task ≠ PriorityBy.Human)
    || is_some_and to (λ goal,
         bool_decide ((Destination.priority goal, Destination.priority_by goal)
                      = (priority task, PriorityBy.Human))) in
  then_some (negb inherits_the_same) (priority task).

Definition priority_kept_on_move (task : t) (to : option Destination) (by_ : MovedBy) :
    option Priority :=
  if bool_decide (by_ = MovedBy.Ai) then persons_priority_taken_from_goal task to else None.

Definition persons_priority_dropped_on_move (task : t) (to : option Destination)
    (by_ : MovedBy) : option Priority :=
  if bool_decide (by_ = MovedBy.AiJudgedOutOfScope)
  then persons_priority_taken_from_goal task to else None.

Definition set_goal (task : t) (to : option Destination) (by_ : MovedBy) : Result t :=
  _ ← require_editable task "the goal";
  if bool_decide (goal_id task = Destination.id <$> to) then Ok task
  else
    let task :=
      match priority_kept_on_move task to by_ with
      | Some kept =>
          task <| own_priority := Some kept |> <| own_priority_by := Some PriorityBy.Human |>
      | None => task
      end in
    let task := task <| goal_id := Destination.id <$> to |> in
    let task := task <| goal_priority := Destination.priority <$> to |> in
    let task := task <| goal_priority_by := Destination.priority_by <$> to |> in
    let '(priority', source') := base_priority (own_priority task) (goal_priority task) in
    let task := task <| priority := priority' |> <| priority_source := source' |> in
    Ok (task <| priority_by :=
          priority_by_effective (own_priority task) (own_priority_by task)
            (goal_priority_by task) |>).

Definition set_paths (task : t) (globs : list string) : Result t :=
  _ ← Scope.validate_path_globs globs;
  _ ← require_editable task "the paths";
  Ok (task <| paths := Scope.dedup_globs globs |>).

Definition set_priority (task : t) (own : option Priority) : Result t :=
  _ ← require (status_priority_editable (status task))
        (DomainError.TaskPriorityNotEditable (id task) (status task));
  let task := task <| own_priority := own |> in
  let '(priority', source') := base_priority own (goal_priority task) in
  Ok (task <| priority := priority' |> <| priority_source := source' |>).

Definition edit (task : t) (edit : TaskEdit) : Result t :=
  _ ← TaskEdit.validate edit;
  _ ← require (status_content_editable (status task))
        (DomainError.TaskContentNotEditable (id task) (status task));
  let task := task <| title := unwrap_or (TaskEdit.title edit) (title task) |> in
  let task := task <| description := unwrap_or (TaskEdit.description edit) (description task) |> in
  let task := task <| acceptance := unwrap_or (TaskEdit.acceptance edit) (acceptance task) |> in
  let task := task <| verification_commands :=
    unwrap_or (TaskEdit.verification_commands edit) (verification_commands task) |> in
  let task := task <| required_evidence :=
    match TaskEdit.required_evidence edit with
    | Some checks => dedup_onto [] checks
    | None => required_evidence task
    end |> in
  let task := task <| paths :=
    match TaskEdit.paths edit with
    | Some globs => Scope.dedup_globs globs
    | None => paths task
    end |> in
  let task := task <| context := unwrap_or (TaskEdit.context edit) (context task) |> in
  let task := task <| change :=
    match TaskEdit.change edit with Some change => Some change | None => change task end |> in
  let task := task <| wait_for_build :=
    unwrap_or (TaskEdit.wait_for_build edit) (wait_for_build task) |> in
  let task := task <| execution_class :=
    unwrap_or (TaskEdit.execution_class edit) (execution_class task) |> in
  worker' ← Worker.with_ (worker task) (TaskEdit.provider edit) (TaskEdit.worker_mode edit);
  let task := task <| worker := worker' |> in
  Ok (match TaskEdit.provider edit, TaskEdit.worker_mode edit with
      | _, Some mode => task <| named_mode := Some mode |>
      | Some _, None => task <| named_mode := None |>
      | None, None => task
      end).

Definition release_on (task : t) (provider : Provider) : Result t :=
  worker' ← Worker.with_ (worker task) (Some provider) None;
  Ok (task <| worker := worker' |> <| named_mode := None |>).

(** The [expect] after [verify_only] cannot fail: the guard has the commands. *)
Definition edit_ended_verify (task : t) (edit : TaskEdit) : Result t :=
  _ ← TaskEdit.validate edit;
  _ ← require (bool_decide (status task = TaskStatus.InProgress) && TaskEdit.verify_only edit)
        (DomainError.TaskContentNotEditable (id task) (status task));
  Ok (task <| verification_commands :=
        unwrap_or (TaskEdit.verification_commands edit) (verification_commands task) |>).

(** ** Checks *)
Definition check_status_authorized (task : t) (authorized : TaskStatus) : Result unit :=
  require (bool_decide (status task = authorized))
    (DomainError.TaskStatusChangedSinceAuthorized (id task) authorized (status task)).

Definition check_dependencies_editable (task : t) : Result unit :=
  require_editable task "dependencies".

Definition check_not_own_goal (task : t) (goal : GoalId) : Result unit :=
  require (bool_decide (goal_id task ≠ Some goal)) (DomainError.OwnGoalDependency goal).

Definition check_membership_acyclic (task : t) (goal : GoalId)
    (depends_on_goal creates_cycle : bool) : Result unit :=
  _ ← require (negb depends_on_goal) (DomainError.OwnGoalDependency goal);
  require (negb creates_cycle) (DomainError.GoalMembershipCycle (id task) goal).
End Task.
Abbreviation Task := Task.t.

Definition check_not_self (task_id predecessor_id : TaskId) : Result unit :=
  require (bool_decide (task_id ≠ predecessor_id)) DomainError.SelfDependency.

Definition check_acyclic (task_id predecessor_id : TaskId) (creates_cycle : bool) :
    Result unit :=
  require (negb creates_cycle) (DomainError.DependencyCycle task_id predecessor_id).

Definition check_not_replaced (task_id predecessor_id : TaskId) (predecessor : TaskStatus) :
    Result unit :=
  require (bool_decide (predecessor ≠ TaskStatus.Replaced))
    (DomainError.ReplacedDependency task_id predecessor_id).

Definition check_goal_acyclic (task_id : TaskId) (goal_id : GoalId) (creates_cycle : bool) :
    Result unit :=
  require (negb creates_cycle) (DomainError.GoalDependencyCycle task_id goal_id).

(** Why [task_id] may not be canceled as a duplicate of [duplicate_of]. *)
Definition duplicate_refusal (task_id duplicate_of : TaskId)
    (target : option (TaskStatus * option TaskId)) : option string :=
  if bool_decide (task_id = duplicate_of)
  then Some ("task " +:+ TaskId.display task_id +:+ " cannot be a duplicate of itself")
  else match target with
  | None => Some ("task " +:+ TaskId.display duplicate_of +:+ " does not exist")
  | Some (TaskStatus.Canceled, Some original) =>
      Some ("task " +:+ TaskId.display duplicate_of +:+ " is canceled as a duplicate of task "
            +:+ TaskId.display original +:+ "; pass --duplicate-of " +:+ TaskId.display original)
  | Some (TaskStatus.Canceled, None) =>
      Some ("task " +:+ TaskId.display duplicate_of
            +:+ " is canceled; a duplicate needs a task that is not")
  | Some _ => None
  end.

(** ** The whole form *)
Module TaskWire.
Record t : Set := mk {
  id : TaskId;
  title : string;
  description : string;
  acceptance : string;
  verification_commands : list string;
  required_evidence : list EvidenceCheck;
  paths : list string;
  priority : Priority;
  priority_source : PrioritySource;
  priority_by : PriorityBy;
  own_priority : option Priority;
  own_priority_by : option PriorityBy;
  goal_priority : option Priority;
  goal_priority_by : option PriorityBy;
  origin : RecordedOrigin;
  change : option TaskChange;
  wait_for_build : bool;
  execution_class : ExecutionClass;
  worker : Worker;
  named_mode : option WorkerMode;
  status : TaskStatus;
  goal_id : option GoalId;
  context : string;
  created_at : string;
  updated_at : string;
}.

(** [From<Task> for TaskWire] and [From<TaskWire> for Task]. *)
Definition of_task (task : Task) : t :=
  mk (Task.id task) (Task.title task) (Task.description task) (Task.acceptance
    task) (Task.verification_commands task) (Task.required_evidence task)
    (Task.paths task) (Task.priority task) (Task.priority_source task)
    (Task.priority_by task) (Task.own_priority task) (Task.own_priority_by task)
    (Task.goal_priority task) (Task.goal_priority_by task) (Task.origin task)
    (Task.change task) (Task.wait_for_build task) (Task.execution_class task)
    (Task.worker task) (Task.named_mode task) (Task.status task) (Task.goal_id
    task) (Task.context task) (Task.created_at task) (Task.updated_at task).
Definition to_task (wire : t) : Task :=
  Task.mk (id wire) (title wire) (description wire) (acceptance wire)
    (verification_commands wire) (required_evidence wire) (paths wire) (priority
    wire) (priority_source wire) (priority_by wire) (own_priority wire)
    (own_priority_by wire) (goal_priority wire) (goal_priority_by wire) (origin
    wire) (change wire) (wait_for_build wire) (execution_class wire) (worker
    wire) (named_mode wire) (status wire) (goal_id wire) (context wire)
    (created_at wire) (updated_at wire).
End TaskWire.
Abbreviation TaskWire := TaskWire.t.

(** ** Invariants *)
Module TaskInv.

(** What every stored task satisfies. *)
Definition valid (t : Task) : Prop :=
  (0 < TaskId.as_i64 (Task.id t))%Z ∧ is_blank (Task.title t) = false ∧
  ∀ g, Task.goal_id t = Some g → (0 < GoalId.as_i64 g)%Z.
(** The priority shown is the base priority of the levels kept. *)
Definition priority_coherent (t : Task) : Prop :=
  (Task.priority t, Task.priority_source t)
  = base_priority (Task.own_priority t) (Task.goal_priority t).
(** And the setter shown is the one of the level it comes from. *)
Definition setter_coherent (t : Task) : Prop :=
  Task.priority_by t = priority_by_effective
    (Task.own_priority t) (Task.own_priority_by t) (Task.goal_priority_by t).
(** The provider and the mode a task names resolve to its worker. *)
Definition worker_coherent (t : Task) : Prop :=
  Worker.resolve (Some (Worker.provider (Task.worker t))) (Task.named_mode t) = Ok (Task.worker t).
(** Checks and globs are kept once each. *)
Definition kept_once (t : Task) : Prop :=
  NoDup (Task.required_evidence t) ∧ NoDup (Task.paths t).

Record wf (t : Task) : Prop := {
  wf_valid : valid t;
  wf_priority : priority_coherent t;
  wf_worker : worker_coherent t;
  wf_once : kept_once t;
}.

(** The operations that change a task. *)
Inductive op : Set :=
  | Transition (action : TaskAction) (unfinished_run : bool)
  | Claim
  | SetGoal (to : option Destination) (by_ : MovedBy)
  | SetPaths (globs : list string)
  | SetPriority (own : option Priority)
  | Edit (edit : TaskEdit)
  | ReleaseOn (provider : Provider)
  | EditEndedVerify (edit : TaskEdit).

Definition apply (o : op) (t : Task) : Result Task :=
  match o with
  | Transition action unfinished => Task.transition t action unfinished
  | Claim => Task.claim t
  | SetGoal to by_ => Task.set_goal t to by_
  | SetPaths globs => Task.set_paths t globs
  | SetPriority own => Task.set_priority t own
  | Edit edit => Task.edit t edit
  | ReleaseOn provider => Task.release_on t provider
  | EditEndedVerify edit => Task.edit_ended_verify t edit
  end.

(** A goal a task moves to is one of the store's: its ID is positive. *)
Definition destination_ok (o : op) : Prop :=
  match o with
  | SetGoal (Some d) _ => (0 < GoalId.as_i64 (Destination.id d))%Z
  | _ => True
  end.

Definition run (ops : list op) (t : Task) : Result Task :=
  foldl (λ r o, r ≫= apply o) (Ok t) ops.

(** *** Each operation, inverted *)
Lemma transition_inv t a u t' :
  Task.transition t a u = Ok t' →
  ∃ s, status_transition (Task.status t) a u = Ok s ∧ t' = t <| Task.status := s |>.
Proof. unfold Task.transition. intros ?. res_inv. eauto. Qed.

Lemma claim_inv t t' :
  Task.claim t = Ok t' →
  Task.status t = TaskStatus.Ready ∧ t' = t <| Task.status := TaskStatus.InProgress |>.
Proof. unfold Task.claim. intros ?. res_inv. by bool_split. Qed.

Lemma set_goal_inv t to by_ t' :
  Task.set_goal t to by_ = Ok t' →
  Task.dependencies_editable t = true ∧
  ((Task.goal_id t = Destination.id <$> to ∧ t' = t) ∨
   (Task.goal_id t ≠ Destination.id <$> to ∧
    ∃ own own_by,
      (own, own_by) = match Task.priority_kept_on_move t to by_ with
        | Some kept => (Some kept, Some PriorityBy.Human)
        | None => (Task.own_priority t, Task.own_priority_by t) end ∧
      Task.own_priority t' = own ∧ Task.own_priority_by t' = own_by ∧
      Task.goal_id t' = Destination.id <$> to ∧
      Task.goal_priority t' = Destination.priority <$> to ∧
      Task.goal_priority_by t' = Destination.priority_by <$> to ∧
      (Task.priority t', Task.priority_source t')
        = base_priority own (Destination.priority <$> to) ∧
      Task.priority_by t' = priority_by_effective own own_by (Destination.priority_by <$> to) ∧
      Task.id t' = Task.id t ∧ Task.title t' = Task.title t ∧ Task.status t' = Task.status t ∧
      Task.worker t' = Task.worker t ∧ Task.named_mode t' = Task.named_mode t ∧
      Task.required_evidence t' = Task.required_evidence t ∧ Task.paths t' = Task.paths t)).
Proof.
  unfold Task.set_goal, Task.require_editable. intros Hok. res_inv. split; [done|].
  case_bool_decide as Hg; [left; by res_inv|right]. split; [done|].
  destruct (Task.priority_kept_on_move t to by_) as [kept|]; simpl in *;
    [|destruct (base_priority (Task.own_priority t) (Destination.priority <$> to)) as [p s] eqn:Hb];
    res_inv; eexists _, _; split_and!; simpl; rewrite ?Hb; reflexivity.
Qed.

Lemma task_edit_inv t e t' :
  Task.edit t e = Ok t' →
  TaskEdit.validate e = Ok tt ∧ status_content_editable (Task.status t) = true ∧
  Worker.with_ (Task.worker t) (TaskEdit.provider e) (TaskEdit.worker_mode e)
    = Ok (Task.worker t') ∧
  Task.named_mode t' = match TaskEdit.provider e, TaskEdit.worker_mode e with
    | _, Some mode => Some mode | Some _, None => None | None, None => Task.named_mode t end ∧
  Task.title t' = unwrap_or (TaskEdit.title e) (Task.title t) ∧
  Task.required_evidence t' = match TaskEdit.required_evidence e with
    | Some checks => dedup_onto [] checks | None => Task.required_evidence t end ∧
  Task.paths t' = match TaskEdit.paths e with
    | Some globs => Scope.dedup_globs globs | None => Task.paths t end ∧
  Task.id t' = Task.id t ∧ Task.status t' = Task.status t ∧ Task.goal_id t' = Task.goal_id t ∧
  Task.priority t' = Task.priority t ∧ Task.priority_source t' = Task.priority_source t ∧
  Task.priority_by t' = Task.priority_by t ∧
  Task.own_priority t' = Task.own_priority t ∧ Task.goal_priority t' = Task.goal_priority t ∧
  Task.own_priority_by t' = Task.own_priority_by t ∧
  Task.goal_priority_by t' = Task.goal_priority_by t.
Proof.
  unfold Task.edit. intros Hok. apply bind_Ok in Hok as ([] & Hv & Hok).
  apply bind_Ok in Hok as ([] & Hs & Hok). apply require_Ok in Hs.
  apply bind_Ok in Hok as (w & Hw & Hok). injection Hok as <-.
  destruct (TaskEdit.provider e), (TaskEdit.worker_mode e); simpl in *; split_and!; done.
Qed.

(** *** Preservation *)
Lemma worker_with_coherent w p m named w' :
  Worker.resolve (Some (Worker.provider w)) named = Ok w →
  Worker.with_ w p m = Ok w' →
  Worker.resolve (Some (Worker.provider w')) (match p, m with
    | _, Some mode => Some mode | Some _, None => None | None, None => named end) = Ok w'.
Proof.
  unfold Worker.resolve. simpl. intros Hw Hwith.
  destruct p as [p|], m as [m|]; simpl in Hwith;
    try (apply worker_new_Ok in Hwith as [-> Hin]; apply worker_new_Ok; by split).
  by injection Hwith as <-.
Qed.

Lemma task_new_wf id n at_ t : Task.new id n at_ = Ok t → wf t ∧ Task.status t = TaskStatus.Draft ∧
  setter_coherent t.
Proof.
  unfold Task.new, Task.require_positive. intros Hok. res_inv.
  destruct (base_priority _ _) as [p s] eqn:Hb. res_inv.
  assert (NewTask.validate n = Ok tt) as Hv by (by destruct x).
  apply new_task_validated in Hv as (Htitle & _ & Hgoal & _).
  split; [|by split].
  constructor; simpl.
  - split_and!; [by apply Z.ltb_lt|done|]. intros g Hg. by apply Hgoal.
  - unfold priority_coherent. simpl. by rewrite Hb.
  - match goal with H : NewTask.worker _ = Ok _ |- _ => rename H into Hw end.
    unfold NewTask.worker, Worker.resolve in Hw.
    apply worker_new_Ok in Hw as [-> Hin]. unfold worker_coherent, Worker.resolve. simpl.
    by apply worker_new_Ok.
  - split; apply dedup_onto_nodup, NoDup_nil_2.
Qed.

Lemma task_apply_wf o t t' : wf t → destination_ok o → apply o t = Ok t' → wf t'.
Proof.
  intros [Hv Hp Hw Ho] Hd Hok. destruct o as [a u| |to by_|globs|own|e|p|e]; simpl in Hok, Hd.
  - apply transition_inv in Hok as (s & _ & ->). by constructor.
  - apply claim_inv in Hok as (_ & ->). by constructor.
  - apply set_goal_inv in Hok as (_ & [[_ ->]|(_ & own & own_by & _ & Hown & Hby & Hgoal & Hgp &
      Hgb & Hprio & _ & Hid & Htitle & _ & Hwk & Hnm & Hev & Hpa)]); [by constructor|].
    constructor.
    + destruct Hv as (? & ? & ?). unfold valid. rewrite Hid, Htitle, Hgoal. split_and!; [done..|].
      intros g Hg. destruct to; simpl in Hg; naive_solver.
    + unfold priority_coherent. by rewrite Hown, Hgp, Hprio.
    + unfold worker_coherent. by rewrite Hwk, Hnm.
    + unfold kept_once. by rewrite Hev, Hpa.
  - unfold Task.set_paths in Hok. res_inv. constructor; [done..|].
    split; [apply Ho|]. apply dedup_onto_nodup, NoDup_nil_2.
  - unfold Task.set_priority in Hok. res_inv. simpl in *.
    destruct (base_priority _ _) as [p s] eqn:Hb. res_inv.
    constructor; [done| |done|done]. unfold priority_coherent. simpl. by rewrite Hb.
  - apply task_edit_inv in Hok as (Hval & _ & Hwith & Hnm & Htitle & Hev & Hpa & Hid & _ & Hg & Hpr &
      Hsrc & _ & Hown & Hgp & _). constructor.
    + destruct Hv as (? & Hblank & ?). unfold valid. rewrite Hid, Htitle, Hg. split_and!; [done| |done].
      unfold TaskEdit.validate, TaskEdit.not_blanked in Hval.
      destruct (TaskEdit.title e); simpl; [|done]. res_inv. by bool_split.
    + unfold priority_coherent. by rewrite Hpr, Hsrc, Hown, Hgp.
    + unfold worker_coherent. rewrite Hnm. by eapply worker_with_coherent in Hwith.
    + unfold kept_once. rewrite Hev, Hpa. destruct Ho.
      destruct (TaskEdit.required_evidence e), (TaskEdit.paths e); split;
        unfold Scope.dedup_globs; auto using dedup_onto_nodup, NoDup_nil_2.
  - unfold Task.release_on in Hok. apply bind_Ok in Hok as (w & Hwith & Hok). injection Hok as <-.
    constructor; [done..| |done].
    eapply (worker_with_coherent _ _ None) in Hwith; [|exact Hw]. done.
  - unfold Task.edit_ended_verify in Hok. res_inv. by constructor.
Qed.

Lemma task_run_Ok_cons o ops t t' :
  run (o :: ops) t = Ok t' ↔ ∃ t1, apply o t = Ok t1 ∧ run ops t1 = Ok t'.
Proof.
  unfold run. simpl. destruct (apply o t) as [t1|e]; [naive_solver|].
  assert (foldl (λ r o, r ≫= apply o) (Err e) ops = Err e) as ->
    by (induction ops; simpl; auto).
  naive_solver.
Qed.

(** Any property the operations keep holds at the end of a run of them. *)
Lemma task_run_invariant (P : Task → Prop) (Q : op → Prop) ops t t' :
  (∀ o t t', Q o → P t → apply o t = Ok t' → P t') →
  Forall Q ops → P t → run ops t = Ok t' → P t'.
Proof.
  intros Hstep HQ. revert t. induction HQ as [|o ops Ho _ IH]; intros t HP Hrun.
  { by injection Hrun as <-. }
  apply task_run_Ok_cons in Hrun as (t1 & Ho1 & Hrun). eauto.
Qed.

(** *** Statuses *)
Lemma transition_to_ready s a u :
  status_transition s a u = Ok TaskStatus.Ready →
  a = TaskAction.Approve ∨ a = TaskAction.BypassReview ∨ s = TaskStatus.InProgress.
Proof. destruct s, a; try destruct u; simpl; naive_solver. Qed.

Lemma transition_not_started s a u s' :
  status_transition s a u = Ok s' → s' ≠ TaskStatus.InProgress ∧ s' ≠ TaskStatus.Completed ∧
    s' ≠ TaskStatus.Replaced.
Proof. destruct s, a; try destruct u; simpl; intros [=<-]; done. Qed.

(** The status after an operation, by the operation. *)
Lemma apply_status o t t' :
  apply o t = Ok t' →
  match o with
  | Transition a u => status_transition (Task.status t) a u = Ok (Task.status t')
  | Claim => Task.status t = TaskStatus.Ready ∧ Task.status t' = TaskStatus.InProgress
  | SetGoal _ _ | SetPaths _ => Task.status t' = Task.status t ∧ Task.dependencies_editable t = true
  | SetPriority _ => Task.status t' = Task.status t ∧ status_priority_editable (Task.status t) = true
  | Edit _ => Task.status t' = Task.status t ∧ status_content_editable (Task.status t) = true
  | ReleaseOn _ => Task.status t' = Task.status t
  | EditEndedVerify _ => Task.status t' = Task.status t ∧ Task.status t = TaskStatus.InProgress
  end.
Proof.
  destruct o as [a u| |to by_|globs|own|e|p|e]; simpl; intros Hok.
  - by apply transition_inv in Hok as (s & ? & ->).
  - by apply claim_inv in Hok as (? & ->).
  - apply set_goal_inv in Hok as (? & [[_ ->]|(_ & own & own_by & Hrest)]); [done|].
    split; [|done]. apply Hrest.
  - unfold Task.set_paths, Task.require_editable in Hok. by res_inv.
  - unfold Task.set_priority in Hok. res_inv. simpl in *.
    destruct (base_priority _ _). by res_inv.
  - apply task_edit_inv in Hok. split; apply Hok.
  - unfold Task.release_on in Hok. by res_inv.
  - unfold Task.edit_ended_verify in Hok. res_inv. bool_split. done.
Qed.

(** A history without the approval of a review keeps a task unready. *)
Definition unreviewed (s : TaskStatus) : bool :=
  match s with
  | TaskStatus.Draft | TaskStatus.Submitted | TaskStatus.Canceled => true
  | _ => false
  end.
Definition readies (o : op) : bool :=
  match o with
  | Transition TaskAction.Approve _ | Transition TaskAction.BypassReview _ => true
  | _ => false
  end.

Definition is_claim (o : op) : bool := match o with Claim => true | _ => false end.

Lemma apply_not_started o t t' :
  is_claim o = false → Task.status t ≠ TaskStatus.InProgress → apply o t = Ok t' →
  Task.status t' ≠ TaskStatus.InProgress.
Proof.
  intros Hc Hs Hok. apply apply_status in Hok. destruct o; simpl in *; try done.
  - by apply transition_not_started in Hok as (? & _).
  - by destruct Hok as [-> _].
  - by destruct Hok as [-> _].
  - by destruct Hok as [-> _].
  - by destruct Hok as [-> _].
  - by rewrite Hok.
  - by destruct Hok as [-> _].
Qed.

(** A run of operations none of which passes a test. *)
Lemma run_without (P : Task → Prop) (test : op → bool) ops t t' :
  (∀ o t t', test o = false → P t → apply o t = Ok t' → P t') →
  existsb test ops = false → P t → run ops t = Ok t' → P t'.
Proof.
  intros Hstep Hex. apply (task_run_invariant P (λ o, test o = false)); [done|].
  apply Forall_forall. intros o Ho. apply not_true_iff_false. intros Ht.
  apply not_true_iff_false in Hex. apply Hex, existsb_exists. exists o.
  by rewrite <-list_elem_of_In.
Qed.

Lemma apply_unreviewed o t t' :
  readies o = false → unreviewed (Task.status t) = true → apply o t = Ok t' →
  unreviewed (Task.status t') = true.
Proof.
  intros Hr Hu Hok. apply apply_status in Hok.
  destruct o as [a u| |to by_|globs|own|e|p|e]; simpl in *.
  - destruct (Task.status t), a; simpl in *; try done; by injection Hok as <-.
  - destruct Hok as [Hready _]. by rewrite Hready in Hu.
  - by destruct Hok as [-> _].
  - by destruct Hok as [-> _].
  - by destruct Hok as [-> _].
  - by destruct Hok as [-> _].
  - by rewrite Hok.
  - by destruct Hok as [-> _].
Qed.
End TaskInv.

(** ** Theorems *)

(** The transition table of a task's status. A draft is submitted; plan
    review readies a submitted task and a bypass a draft or submitted one;
    plan review sends a ready task back to submitted; a submitted or ready
    task returns to draft; an in-progress task without an unfinished run is
    retried, redrafted or canceled; everything before the claim is canceled.
    Every other pair is refused, with the reason that fits it. *)
Theorem task_status_table self action unfinished_run :
  match status_transition self action unfinished_run with
  | Ok s =>
      (self = TaskStatus.Draft ∧ action = TaskAction.Submit ∧ s = TaskStatus.Submitted) ∨
      (self = TaskStatus.Ready ∧ action = TaskAction.Reopen ∧ s = TaskStatus.Submitted) ∨
      (self = TaskStatus.Submitted ∧ action = TaskAction.Approve ∧ s = TaskStatus.Ready) ∨
      (self ∈ [TaskStatus.Draft; TaskStatus.Submitted] ∧ action = TaskAction.BypassReview ∧
        s = TaskStatus.Ready) ∨
      (self ∈ [TaskStatus.Submitted; TaskStatus.Ready] ∧ action = TaskAction.Draft ∧
        s = TaskStatus.Draft) ∨
      (self ∈ [TaskStatus.Draft; TaskStatus.Submitted; TaskStatus.Ready] ∧
        action = TaskAction.Cancel ∧ s = TaskStatus.Canceled) ∨
      (self = TaskStatus.InProgress ∧ unfinished_run = false ∧
        (action, s) ∈ [(TaskAction.Ready, TaskStatus.Ready); (TaskAction.Draft, TaskStatus.Draft);
                       (TaskAction.Cancel, TaskStatus.Canceled)])
  | Err (DomainError.TaskHasUnfinishedRun a) =>
      a = action ∧ self = TaskStatus.InProgress ∧ unfinished_run = true
  | Err (DomainError.ReadyNeedsPlanReview s) =>
      s = self ∧ self ∈ [TaskStatus.Draft; TaskStatus.Submitted] ∧ action = TaskAction.Ready
  | Err (DomainError.TransitionNotAllowed s a) =>
      s = self ∧ a = action ∧
      (status_is_terminal self = true ∨ self = TaskStatus.InProgress ∨
       (self, action) ∈
        [(TaskStatus.Draft, TaskAction.Draft); (TaskStatus.Draft, TaskAction.Approve);
         (TaskStatus.Draft, TaskAction.Reopen); (TaskStatus.Submitted, TaskAction.Submit);
         (TaskStatus.Submitted, TaskAction.Reopen); (TaskStatus.Ready, TaskAction.Submit);
         (TaskStatus.Ready, TaskAction.Approve); (TaskStatus.Ready, TaskAction.BypassReview);
         (TaskStatus.Ready, TaskAction.Ready)])
  | Err _ => False
  end.
Proof. destruct self, action; try destruct unfinished_run; simpl; set_solver. Qed.

(** C33: every task registered and then taken through any sequence of the
    operations that succeed keeps its well-formedness: a positive ID and goal
    ID, a title that is not blank, the priority and source its levels give,
    a provider and named mode that resolve to its worker, and required checks
    and globs without repetition. *)
Theorem task_wf_throughout id n created_at t ops t' :
  Task.new id n created_at = Ok t → Forall TaskInv.destination_ok ops →
  TaskInv.run ops t = Ok t' → TaskInv.wf t'.
Proof.
  intros Hnew Hops Hrun. apply TaskInv.task_new_wf in Hnew as (Hwf & _).
  eapply (TaskInv.task_run_invariant TaskInv.wf); eauto using TaskInv.task_apply_wf.
Qed.

(** C34: a task that is ready or in progress passed plan review or a person's
    bypass: from its registration, any sequence of operations that leaves it
    neither draft, submitted nor canceled contains one of the two, and one
    that leaves it in progress contains a claim. *)
Theorem started_task_was_reviewed id n created_at t ops t' :
  Task.new id n created_at = Ok t → TaskInv.run ops t = Ok t' →
  (Task.status t' ∉ [TaskStatus.Draft; TaskStatus.Submitted; TaskStatus.Canceled] →
    ∃ a u, TaskInv.Transition a u ∈ ops ∧ (a = TaskAction.Approve ∨ a = TaskAction.BypassReview)) ∧
  (Task.status t' = TaskStatus.InProgress → TaskInv.Claim ∈ ops).
Proof.
  intros Hnew Hrun. apply TaskInv.task_new_wf in Hnew as (_ & Hdraft & _). split.
  - intros Hstatus. destruct (existsb TaskInv.readies ops) eqn:Hex.
    { apply existsb_exists in Hex as (o & Ho%list_elem_of_In & Hr).
      destruct o as [[] u| | | | | | |]; try done; eauto. }
    pose proof (TaskInv.run_without (λ t, TaskInv.unreviewed (Task.status t) = true)
      _ ops t t' TaskInv.apply_unreviewed Hex) as Hu.
    cbv beta in Hu. rewrite Hdraft in Hu. specialize (Hu eq_refl Hrun). destruct (Task.status t'); set_solver.
  - intros Hstatus. destruct (existsb TaskInv.is_claim ops) eqn:Hex.
    { apply existsb_exists in Hex as (o & Ho%list_elem_of_In & Hc). by destruct o. }
    pose proof (TaskInv.run_without (λ t, Task.status t ≠ TaskStatus.InProgress)
      _ ops t t' TaskInv.apply_not_started Hex) as Hn.
    cbv beta in Hn. rewrite Hdraft in Hn. by destruct (Hn ltac:(done) Hrun).
Qed.

(** A task to evaluate the theorems on. *)
Definition sample_new : NewTask := {|
  NewTask.title := "parse receipts"; NewTask.description := ""; NewTask.acceptance := "";
  NewTask.verification_commands := ["cargo test"]; NewTask.dependencies := [];
  NewTask.goal_dependencies := []; NewTask.goal_id := Some (GoalId.new 4);
  NewTask.context := ""; NewTask.required_evidence := [EvidenceCheck.Tests; EvidenceCheck.Tests];
  NewTask.paths := ["src/**"; "docs/*.md"; "src/**"]; NewTask.priority := None;
  NewTask.change := None; NewTask.provider := None; NewTask.worker_mode := None;
  NewTask.wait_for_build := false; NewTask.execution_class := ExecutionClass.Implementation;
|}.
Definition sample_task : Task := Eval vm_compute in
  match Task.new (TaskId.new 7) sample_new "t0" with
  | Ok t => Task.with_record (t <| Task.goal_priority := Some Priority.Urgent |>
                                <| Task.priority := Priority.Urgent |>
                                <| Task.priority_source := PrioritySource.Goal |>)
              None (Some PriorityBy.Human) RecordedOrigin.UNKNOWN
  | Err _ => Task.mk (TaskId.new 0) "" "" "" [] [] [] Priority.Low PrioritySource.Task
      PriorityBy.Ai None None None None RecordedOrigin.UNKNOWN None false
      ExecutionClass.Spike Worker.DEFAULT None TaskStatus.Draft None "" "" ""
  end.

Lemma task_wf_throughout_witness :
  ∃ t t', Task.new (TaskId.new 7) sample_new "t0" = Ok t ∧
    TaskInv.run [TaskInv.Transition TaskAction.Submit false;
                 TaskInv.SetPaths ["src/lib.rs"];
                 TaskInv.Transition TaskAction.Approve false; TaskInv.Claim] t = Ok t' ∧
    Task.status t' = TaskStatus.InProgress ∧ TaskInv.wf t'.
Proof.
  eexists _, _. split_and!.
  - vm_compute. reflexivity.
  - vm_compute. reflexivity.
  - reflexivity.
  - eapply (task_wf_throughout (TaskId.new 7) sample_new "t0" _
      [TaskInv.Transition TaskAction.Submit false; TaskInv.SetPaths ["src/lib.rs"];
       TaskInv.Transition TaskAction.Approve false; TaskInv.Claim]).
    + vm_compute. reflexivity.
    + repeat constructor.
    + vm_compute. reflexivity.
Defined.

Lemma started_task_was_reviewed_witness :
  ∃ t t', TaskInv.run [TaskInv.Transition TaskAction.BypassReview false; TaskInv.Claim] t = Ok t' ∧
    TaskInv.Claim ∈ [TaskInv.Transition TaskAction.BypassReview false; TaskInv.Claim].
Proof.
  eexists _, _. split.
  - instantiate (2 := sample_task). vm_compute. reflexivity.
  - eapply (started_task_was_reviewed (TaskId.new 7) sample_new "t0"); vm_compute; reflexivity.
Defined.

(** The status of a task that ended never changes: of all the operations
    only a release's change of the worker's provider succeeds on it, and it
    leaves the status as it is. *)
Theorem ended_task_keeps_its_status o t t' :
  status_is_terminal (Task.status t) = true → TaskInv.apply o t = Ok t' →
  Task.status t' = Task.status t ∧ ∃ provider, o = TaskInv.ReleaseOn provider.
Proof.
  intros Ht Hok. apply TaskInv.apply_status in Hok.
  unfold Task.dependencies_editable, status_priority_editable in Hok.
  destruct o as [a u| |to by_|globs|own|e|p|e]; simpl in Hok;
    destruct (Task.status t) eqn:Hs; try done; try destruct a; simpl in *; naive_solver.
Qed.

Lemma ended_task_keeps_its_status_witness :
  status_is_terminal (Task.status (sample_task <| Task.status := TaskStatus.Completed |>)) = true ∧
  ∃ t', TaskInv.apply (TaskInv.ReleaseOn Provider.Codex)
    (sample_task <| Task.status := TaskStatus.Completed |>) = Ok t' ∧
    Task.status t' = Task.status (sample_task <| Task.status := TaskStatus.Completed |>).
Proof.
  split; [reflexivity|]. eexists. split; [vm_compute; reflexivity|].
  apply (ended_task_keeps_its_status (TaskInv.ReleaseOn Provider.Codex)
    (sample_task <| Task.status := TaskStatus.Completed |>)); vm_compute; reflexivity.
Defined.

(** The AI never loses a person's priority by moving a task: when a
    person set the priority in effect, the task has the same priority, a
    person's still, after any move the AI makes, whatever goal it goes to or
    comes from. *)
Theorem ai_move_keeps_persons_priority t to t' :
  TaskInv.priority_coherent t → TaskInv.setter_coherent t →
  Task.priority_by t = PriorityBy.Human →
  Task.set_goal t to MovedBy.Ai = Ok t' →
  Task.priority t' = Task.priority t ∧ Task.priority_by t' = PriorityBy.Human ∧
  TaskInv.priority_coherent t' ∧ TaskInv.setter_coherent t'.
Proof.
  intros Hp Hs Hby Hok.
  apply TaskInv.set_goal_inv in Hok as (_ & [[_ ->]|(_ & own & own_by & Hkept & Hown & Hob & Hgoal &
    Hgp & Hgb & Hprio & Hpb & _)]); [done|].
  assert (TaskInv.priority_coherent t' ∧ TaskInv.setter_coherent t') as [Hp' Hs'].
  { unfold TaskInv.priority_coherent, TaskInv.setter_coherent.
    by rewrite Hown, Hob, Hgp, Hgb, Hprio. }
  unfold TaskInv.priority_coherent, TaskInv.setter_coherent in Hp, Hs. rewrite Hby in Hs.
  unfold Task.priority_kept_on_move, Task.persons_priority_taken_from_goal in Hkept.
  rewrite Hby in Hkept. simpl in Hkept.
  destruct (Task.own_priority t) as [p|]; simpl in *.
  { injection Hkept as -> ->. simpl in *. split_and!; congruence. }
  destruct to as [d|]; simpl in *;
    [case_bool_decide as Hsame; simpl in *; [injection Hsame as Hd1 Hd2|]|];
    injection Hkept as -> ->; simpl in *; split_and!; congruence.
Qed.

Definition sample_low_goal : option Destination :=
  Some (Destination.mk (GoalId.new 9) Priority.Low PriorityBy.Ai).
Definition sample_kept : Task := Eval vm_compute in
  unwrap_or (match Task.set_goal sample_task sample_low_goal MovedBy.Ai with
             | Ok t => Some t | Err _ => None end) sample_task.

Lemma ai_move_keeps_persons_priority_witness :
  Task.set_goal sample_task sample_low_goal MovedBy.Ai = Ok sample_kept ∧
  Task.priority sample_kept = Priority.Urgent ∧ Task.priority_by sample_kept = PriorityBy.Human.
Proof.
  assert (Task.set_goal sample_task sample_low_goal MovedBy.Ai = Ok sample_kept) as Hok
    by (vm_compute; reflexivity).
  destruct (ai_move_keeps_persons_priority sample_task sample_low_goal sample_kept
    eq_refl eq_refl eq_refl Hok) as (Hp & Hb & _).
  by split_and!.
Defined.

(** Any other move of a task without a priority of its own gives it the
    priority and the setter of its new goal ([normal] by the AI out of any
    goal); one with its own keeps it; and of the moves by the AI that record
    an out-of-scope judgement, [persons_priority_dropped_on_move] names
    exactly those after which a person's priority is gone. *)
Theorem other_moves_take_the_goals t to by_ t' :
  TaskInv.priority_coherent t → TaskInv.setter_coherent t → by_ ≠ MovedBy.Ai →
  Task.goal_id t ≠ Destination.id <$> to → Task.set_goal t to by_ = Ok t' →
  Task.own_priority t' = Task.own_priority t ∧
  (Task.own_priority t = None →
    Task.priority t' = unwrap_or (Destination.priority <$> to) Priority.Normal ∧
    Task.priority_by t' = unwrap_or (Destination.priority_by <$> to) PriorityBy.Ai) ∧
  (Task.own_priority t ≠ None →
    Task.priority t' = Task.priority t ∧ Task.priority_by t' = Task.priority_by t) ∧
  (by_ = MovedBy.AiJudgedOutOfScope → ∀ p,
    Task.persons_priority_dropped_on_move t to by_ = Some p ↔
    p = Task.priority t ∧ Task.priority_by t = PriorityBy.Human ∧
    (Task.priority t', Task.priority_by t') ≠ (p, PriorityBy.Human)).
Proof.
  intros Hp Hs Hai Hg Hok.
  apply TaskInv.set_goal_inv in Hok as (_ & [[Heq _]|(_ & own & own_by & Hkept & Hown & Hob & Hgoal &
    Hgp & Hgb & Hprio & Hpb & _)]); [done|].
  unfold Task.priority_kept_on_move in Hkept. rewrite bool_decide_false in Hkept by done.
  injection Hkept as -> ->. unfold TaskInv.priority_coherent, TaskInv.setter_coherent in Hp, Hs.
  unfold Task.persons_priority_dropped_on_move, Task.persons_priority_taken_from_goal.
  destruct (Task.own_priority t) as [q|], to as [d|]; simpl in *; simplify_eq/=;
    split_and!; intros; subst; rewrite ?bool_decide_true by done; simpl; try done;
    try (rewrite Hpb, Hs; congruence);
    destruct (Task.priority_by t); simpl; repeat case_bool_decide; simpl; naive_solver congruence.
Qed.

Definition sample_moved : Task := Eval vm_compute in
  unwrap_or (match Task.set_goal sample_task sample_low_goal MovedBy.AiJudgedOutOfScope with
             | Ok t => Some t | Err _ => None end) sample_task.

Lemma other_moves_take_the_goals_witness :
  Task.set_goal sample_task sample_low_goal MovedBy.AiJudgedOutOfScope = Ok sample_moved ∧
  Task.priority sample_moved = Priority.Low ∧
  Task.persons_priority_dropped_on_move sample_task sample_low_goal
    MovedBy.AiJudgedOutOfScope = Some Priority.Urgent.
Proof.
  assert (Task.set_goal sample_task sample_low_goal MovedBy.AiJudgedOutOfScope = Ok sample_moved)
    as Hok by (vm_compute; reflexivity).
  destruct (other_moves_take_the_goals sample_task sample_low_goal MovedBy.AiJudgedOutOfScope
    sample_moved eq_refl eq_refl ltac:(done) ltac:(done) Hok) as (_ & Hnone & _ & Hdrop).
  split; [exact Hok|]. split; [exact (proj1 (Hnone eq_refl))|].
  apply (Hdrop eq_refl). by split_and!.
Defined.

(** The setter of the priority shown stays that of the level it comes
    from across every operation but [set_priority], which leaves it to the
    store; that operation gives the task its own level, or with none its
    goal's again. *)
Theorem priority_setter_coherent o t t' :
  TaskInv.setter_coherent t → TaskInv.apply o t = Ok t' →
  TaskInv.setter_coherent t' ∨
  ∃ own, o = TaskInv.SetPriority own ∧ Task.own_priority t' = own ∧
    (Task.priority t', Task.priority_source t') = base_priority own (Task.goal_priority t) ∧
    Task.priority_by t' = Task.priority_by t.
Proof.
  intros Hs Hok. destruct o as [a u| |to by_|globs|own|e|p|e]; simpl in Hok.
  - left. by apply TaskInv.transition_inv in Hok as (s & _ & ->).
  - left. by apply TaskInv.claim_inv in Hok as (_ & ->).
  - left. apply TaskInv.set_goal_inv in Hok as (_ & [[_ ->]|(_ & own & own_by & _ & Hown & Hob & _ &
      _ & Hgb & _ & Hpb & _)]); [done|].
    unfold TaskInv.setter_coherent. by rewrite Hown, Hob, Hgb.
  - left. unfold Task.set_paths in Hok. by res_inv.
  - right. unfold Task.set_priority in Hok. res_inv. simpl in *.
    destruct (base_priority own (Task.goal_priority t)) as [p s] eqn:Hb. res_inv.
    exists own. simpl. rewrite Hb. by split_and!.
  - left. apply TaskInv.task_edit_inv in Hok. destruct_and! Hok.
    unfold TaskInv.setter_coherent in *. congruence.
  - left. unfold Task.release_on in Hok. by res_inv.
  - left. unfold Task.edit_ended_verify in Hok. by res_inv.
Qed.

Lemma priority_setter_coherent_witness :
  ∃ t', TaskInv.apply (TaskInv.SetPaths ["docs/**"]) sample_task = Ok t' ∧
    TaskInv.setter_coherent t'.
Proof.
  pose proof (priority_setter_coherent (TaskInv.SetPaths ["docs/**"]) sample_task _
    eq_refl eq_refl) as Hc.
  eexists. split; [reflexivity|]. destruct Hc as [Hc|(own & Hbad & _)]; [exact Hc|discriminate Hbad].
Defined.

(** What the store keeps of a well-formed task's worker - its provider
    and [stored_worker_mode] - resolves back to the same worker. *)
Theorem stored_worker_resolves t :
  TaskInv.wf t →
  Worker.resolve (Some (Worker.provider (Task.worker t))) (Task.stored_worker_mode t)
  = Ok (Task.worker t).
Proof.
  intros [_ _ Hw _]. unfold TaskInv.worker_coherent in Hw.
  unfold Task.stored_worker_mode. destruct (Task.worker t) as [[] m]; simpl in *; [done|].
  unfold Worker.resolve in *. simpl in *. by destruct m, (Task.named_mode t) as [[]|].
Qed.

Lemma stored_worker_resolves_witness :
  Worker.resolve (Some Provider.Claude) None = Ok (Task.worker sample_task).
Proof.
  refine (stored_worker_resolves sample_task _).
  constructor; [by split_and!; [| |intros g [= <-]]|done|done|].
  split; simpl; repeat (apply NoDup_cons; split; [set_solver|]); apply NoDup_nil_2.
Defined.

(** A task crosses processes unchanged: its whole form, read back, is the
    same task, and so is a whole form made into a task and back. *)
Theorem task_wire_round_trip :
  (∀ task, TaskWire.to_task (TaskWire.of_task task) = task) ∧
  (∀ wire, TaskWire.of_task (TaskWire.to_task wire) = wire).
Proof. by split; intros []. Qed.

(** A task may be canceled as a duplicate exactly of another task that
    exists and is not canceled, so the records of duplicates never chain. *)
Theorem duplicate_allowed task_id duplicate_of target :
  duplicate_refusal task_id duplicate_of target = None ↔
  task_id ≠ duplicate_of ∧ ∃ status original, target = Some (status, original) ∧
    status ≠ TaskStatus.Canceled.
Proof.
  unfold duplicate_refusal. case_bool_decide; [naive_solver|].
  destruct target as [[[] [o|]]|]; naive_solver.
Qed.
