(* ===== verification/Goals.v ===== *)
(** * Goals

    [src/src/domain/goal.rs]: the verdict's rule on the tasks of a goal, the
    record [Goal] with its constructors, every operation that changes a goal,
    the checks that gate its close, the order of [goal list], and the whole
    form it crosses processes in; with the counts by status of
    [src/src/domain/views.rs]. *)
From S2P Require Import Prelude Text Vocab Ids Errors Labels Scope Workers Priorities Inputs.
From S2P Require Import Tasks FollowUps.

(** [GoalVerdict::allows]. *)
Definition verdict_allows (self : GoalVerdict) (task : TaskStatus) : bool :=
  match self with
  | GoalVerdict.Achieved => status_is_terminal task
  | GoalVerdict.Abandoned => bool_decide (task ≠ TaskStatus.InProgress)
  end.

(** ** Counts by status *)
Module TaskStatusCounts.
Record t : Set := mk {
  total : nat;
  draft : nat;
  submitted : nat;
  ready : nat;
  in_progress : nat;
  completed : nat;
  canceled : nat;
  replaced : nat;
}.
#[global] Instance updatable : Updatable t :=
  λ r, mk (total r) (draft r) (submitted r) (ready r) (in_progress r) (completed r)
    (canceled r) (replaced r).
Definition zero : t := mk 0 0 0 0 0 0 0 0.

Definition count (self : t) (status : TaskStatus) (n : nat) : t :=
  let self := self <| total := total self + n |> in
  match status with
  | TaskStatus.Draft => self <| draft := draft self + n |>
  | TaskStatus.Submitted => self <| submitted := submitted self + n |>
  | TaskStatus.Ready => self <| ready := ready self + n |>
  | TaskStatus.InProgress => self <| in_progress := in_progress self + n |>
  | TaskStatus.Completed => self <| completed := completed self + n |>
  | TaskStatus.Canceled => self <| canceled := canceled self + n |>
  | TaskStatus.Replaced => self <| replaced := replaced self + n |>
  end.

(** The count of a status. *)
Definition of_status (self : t) (status : TaskStatus) : nat :=
  match status with
  | TaskStatus.Draft => draft self
  | TaskStatus.Submitted => submitted self
  | TaskStatus.Ready => ready self
  | TaskStatus.InProgress => in_progress self
  | TaskStatus.Completed => completed self
  | TaskStatus.Canceled => canceled self
  | TaskStatus.Replaced => replaced self
  end.
End TaskStatusCounts.
Abbreviation TaskStatusCounts := TaskStatusCounts.t.

(** One row of [goal list]. *)
Module GoalSummary.
Record t : Set := mk {
  id : GoalId;
  title : string;
  status : GoalStatus;
  priority : Priority;
  tags : list GoalTag;
  closed : bool;
  verdict : option GoalVerdict;
  tasks : TaskStatusCounts;
}.
End GoalSummary.
Abbreviation GoalSummary := GoalSummary.t.

(** ** The goal *)
Module Goal.
Record t : Set := mk {
  id : GoalId;
  title : string;
  description : string;
  acceptance : string;
  constraints : string;
  doc : option string;
  priority : Priority;
  priority_by : PriorityBy;
  origin : RecordedOrigin;
  tags : list GoalTag;
  status : GoalStatus;
  closed_at : option string;
  verdict : option GoalVerdict;
  created_at : string;
  updated_at : string;
}.
#[global] Instance updatable : Updatable t :=
  λ r, mk (id r) (title r) (description r) (acceptance r) (constraints r) (doc
    r) (priority r) (priority_by r) (origin r) (tags r) (status r) (closed_at r)
    (verdict r) (created_at r) (updated_at r).

Definition require_positive (id : GoalId) : Result unit :=
  require (0 <? GoalId.as_i64 id)%Z (DomainError.NonPositiveId "goal ID").

(** A reference that is not blank: [doc.filter(|d| !d.trim().is_empty())]. *)
Definition referenced (doc : option string) : option string :=
  match doc with
  | Some d => if negb (is_blank d) then Some d else None
  | None => None
  end.

Definition new (id : GoalId) (new : NewGoal) (created_at : string) : Result t :=
  _ ← NewGoal.validate new;
  _ ← require_positive id;
  Ok {|
    id := id;
    title := NewGoal.title new;
    description := NewGoal.description new;
    acceptance := NewGoal.acceptance new;
    constraints := NewGoal.constraints new;
    doc := referenced (NewGoal.doc new);
    priority := unwrap_or (NewGoal.priority new) Priority.default;
    priority_by := PriorityBy.Ai;
    origin := RecordedOrigin.UNKNOWN;
    tags := NewGoal.tags new;
    status := if NewGoal.draft new then GoalStatus.Draft else GoalStatus.Open;
    closed_at := None;
    verdict := None;
    updated_at := created_at;
    created_at := created_at;
  |}.

Definition restore (record : GoalRecord) : Result t :=
  _ ← require_positive (GoalRecord.id record);
  _ ← require (negb (is_blank (GoalRecord.title record))) (DomainError.Blank "goal title");
  _ ← check_distinct (GoalRecord.tags record);
  _ ← require (Bool.eqb (is_some (GoalRecord.closed_at record))
                        (is_some (GoalRecord.verdict record)))
        (DomainError.GoalCloseInconsistent (GoalRecord.id record));
  Ok {|
    id := GoalRecord.id record;
    title := GoalRecord.title record;
    description := GoalRecord.description record;
    acceptance := GoalRecord.acceptance record;
    constraints := GoalRecord.constraints record;
    doc := GoalRecord.doc record;
    priority := GoalRecord.priority record;
    priority_by := PriorityBy.Human;
    origin := RecordedOrigin.UNKNOWN;
    tags := GoalRecord.tags record;
    status := GoalRecord.status record;
    closed_at := GoalRecord.closed_at record;
    verdict := GoalRecord.verdict record;
    created_at := GoalRecord.created_at record;
    updated_at := GoalRecord.updated_at record;
  |}.

Definition with_record (self : t) (by_ : PriorityBy) (origin' : RecordedOrigin) : t :=
  self <| priority_by := by_ |> <| origin := origin' |>.

Definition is_closed (self : t) : bool := is_some (closed_at self).
Definition is_draft (self : t) : bool :=
  bool_decide (status self = GoalStatus.Draft) && negb (is_closed self).

Definition require_open (goal : t) : Result unit :=
  require (negb (is_closed goal)) (DomainError.GoalAlreadyClosed (id goal) (verdict goal)).

(** ** Operations *)
Definition check_accepts_tasks (goal : t) : Result unit :=
  require (negb (is_closed goal)) (DomainError.GoalClosed (id goal) (verdict goal)).

Definition check_accepts_dependents (goal : t) : Result unit :=
  require (bool_decide (verdict goal ≠ Some GoalVerdict.Abandoned))
    (DomainError.AbandonedGoalDependency (id goal)).

Definition edit (goal : t) (edit : GoalEdit) : Result t :=
  goal ← match GoalEdit.priority edit with
    | Some p => _ ← check_accepts_tasks goal; Ok (goal <| priority := p |>)
    | None => Ok goal
    end;
  goal ← match GoalEdit.tags edit with
    | Some ts => _ ← check_distinct ts; Ok (goal <| tags := ts |>)
    | None => Ok goal
    end;
  goal ← match GoalEdit.title edit with
    | Some text =>
        _ ← require (negb (is_blank text)) (DomainError.Blank "goal title");
        Ok (goal <| title := text |>)
    | None => Ok goal
    end;
  let goal := goal <| description := unwrap_or (GoalEdit.description edit) (description goal) |> in
  let goal := goal <| acceptance := unwrap_or (GoalEdit.acceptance edit) (acceptance goal) |> in
  let goal := goal <| constraints := unwrap_or (GoalEdit.constraints edit) (constraints goal) |> in
  let goal := goal <| doc :=
    match GoalEdit.doc edit with
    | Some d => referenced (Some d)
    | None => doc goal
    end |> in
  Ok goal.

Definition ready (goal : t) : Result t :=
  _ ← require_open goal;
  _ ← require (bool_decide (status goal = GoalStatus.Draft))
        (DomainError.GoalNotDraft (id goal));
  Ok (goal <| status := GoalStatus.Open |>).

Definition reopen (goal : t) (reopened_at : string) : Result t :=
  _ ← require (bool_decide (verdict goal = Some GoalVerdict.Achieved))
        (DomainError.GoalNotReopenable (id goal) (verdict goal));
  Ok (goal <| status := GoalStatus.Open |> <| verdict := None |> <| closed_at := None |>
           <| updated_at := reopened_at |>).

Definition check_follow_ups (goal_id : GoalId) (verdict : GoalVerdict)
    (follow_ups : list SourceFollowUp) : Result unit :=
  if bool_decide (verdict ≠ GoalVerdict.Achieved) then Ok tt
  else
    let unsettled := unsettled_follow_ups follow_ups in
    require (bool_decide (unsettled = [])) (DomainError.GoalFollowUpsUnsettled goal_id unsettled).

Definition check_replacements (goal_id : GoalId) (verdict : GoalVerdict)
    (unresolved : list UnresolvedReplacement) : Result unit :=
  if bool_decide (verdict ≠ GoalVerdict.Achieved) then Ok tt
  else require (bool_decide (unresolved = []))
         (DomainError.GoalReplacementsUnresolved goal_id unresolved).

(** The counts of the unfinished statuses that do not allow the verdict. *)
Definition blocking (verdict : GoalVerdict) (held : TaskStatusCounts) :
    list (TaskStatus * nat) :=
  List.filter (λ '(status, n), (0 <? n) && negb (verdict_allows verdict status))
    [(TaskStatus.Draft, TaskStatusCounts.draft held);
     (TaskStatus.Submitted, TaskStatusCounts.submitted held);
     (TaskStatus.Ready, TaskStatusCounts.ready held);
     (TaskStatus.InProgress, TaskStatusCounts.in_progress held)].

Definition close (goal : t) (verdict' : GoalVerdict) (counts : TaskStatusCounts)
    (replacing : list (TaskId * TaskStatus)) (closed_at' : string) : Result t :=
  _ ← require_open goal;
  let held := foldl (λ held '(_, status), TaskStatusCounts.count held status 1)
                counts replacing in
  let blocking := blocking verdict' held in
  _ ← require (bool_decide (blocking = []))
        (DomainError.GoalCloseBlocked (id goal) verdict' blocking);
  Ok (goal <| verdict := Some verdict' |> <| updated_at := closed_at' |>
           <| closed_at := Some closed_at' |>).
End Goal.
Abbreviation Goal := Goal.t.

(** [task_counts] and [close_goal_in] of
    [src/src/infrastructure/task_store.rs]: the counts of the rows of a query
    grouped by status, and the one check of every close, on what the queries
    of the transaction read. *)
Definition task_counts (rows : list (TaskStatus * nat)) : TaskStatusCounts :=
  foldl (λ counts '(status, n), TaskStatusCounts.count counts status n)
    TaskStatusCounts.zero rows.

Definition close_goal_in (goal : Goal) (verdict : GoalVerdict)
    (rows : list (TaskStatus * nat)) (replacing : list (TaskId * TaskStatus))
    (follow_ups : list SourceFollowUp) (unresolved : list UnresolvedReplacement)
    (now : string) : Result Goal :=
  let counts := task_counts rows in
  closed ← Goal.close goal verdict counts replacing now;
  _ ← Goal.check_follow_ups (Goal.id goal) verdict follow_ups;
  _ ← Goal.check_replacements (Goal.id goal) verdict unresolved;
  Ok closed.

(** [Destination::of]. *)
Definition destination_of (goal : Goal) : Destination :=
  Destination.mk (Goal.id goal) (Goal.priority goal) (Goal.priority_by goal).

(** [goal list]: [goals.retain] by tag, then the sort by whether it is
    closed, the priority (highest first) and the ID. *)
Definition goal_list_key (goal : GoalSummary) : list Z :=
  [if GoalSummary.closed goal then 1 else 0;
   - Priority.as_i64 (GoalSummary.priority goal);
   GoalId.as_i64 (GoalSummary.id goal)]%Z.
Definition goal_list (goals : list GoalSummary) (tags : list GoalTag) : list GoalSummary :=
  sort_by_key goal_list_key
    (match tags with
     | [] => goals
     | _ => List.filter (λ goal, existsb (λ tag, bool_decide (tag ∈ tags)) (GoalSummary.tags goal))
              goals
     end).

(** ** The whole form *)
Module GoalWire.
Record t : Set := mk {
  id : GoalId;
  title : string;
  description : string;
  acceptance : string;
  constraints : string;
  doc : option string;
  priority : Priority;
  priority_by : PriorityBy;
  origin : RecordedOrigin;
  tags : list GoalTag;
  status : GoalStatus;
  closed_at : option string;
  verdict : option GoalVerdict;
  created_at : string;
  updated_at : string;
}.

Definition of_goal (goal : Goal) : t :=
  mk (Goal.id goal) (Goal.title goal) (Goal.description goal) (Goal.acceptance
    goal) (Goal.constraints goal) (Goal.doc goal) (Goal.priority goal)
    (Goal.priority_by goal) (Goal.origin goal) (Goal.tags goal) (Goal.status
    goal) (Goal.closed_at goal) (Goal.verdict goal) (Goal.created_at goal)
    (Goal.updated_at goal).
Definition to_goal (wire : t) : Goal :=
  Goal.mk (id wire) (title wire) (description wire) (acceptance wire)
    (constraints wire) (doc wire) (priority wire) (priority_by wire) (origin
    wire) (tags wire) (status wire) (closed_at wire) (verdict wire) (created_at
    wire) (updated_at wire).
End GoalWire.
Abbreviation GoalWire := GoalWire.t.

(** ** Invariants *)
Module GoalInv.

(** What every goal keeps. *)
Record wf (g : Goal) : Prop := {
  wf_id : (0 < GoalId.as_i64 (Goal.id g))%Z;
  wf_title : is_blank (Goal.title g) = false;
  wf_tags : NoDup (Goal.tags g);
  wf_closed : Goal.closed_at g = None ↔ Goal.verdict g = None;
}.

(** The operations that change a goal. *)
Inductive op : Set :=
  | Edit (edit : GoalEdit)
  | Ready
  | Reopen (at_ : string)
  | Close (verdict : GoalVerdict) (counts : TaskStatusCounts)
      (replacing : list (TaskId * TaskStatus)) (at_ : string).

Definition apply (o : op) (g : Goal) : Result Goal :=
  match o with
  | Edit edit => Goal.edit g edit
  | Ready => Goal.ready g
  | Reopen at_ => Goal.reopen g at_
  | Close verdict counts replacing at_ => Goal.close g verdict counts replacing at_
  end.

Definition step (g g' : Goal) : Prop := ∃ o, apply o g = Ok g'.

Lemma close_inv g v counts replacing at_ g' :
  Goal.close g v counts replacing at_ = Ok g' →
  Goal.closed_at g = None ∧
  Goal.blocking v (foldl (λ held '(_, s), TaskStatusCounts.count held s 1) counts replacing) = [] ∧
  g' = g <| Goal.verdict := Some v |> <| Goal.updated_at := at_ |>
         <| Goal.closed_at := Some at_ |>.
Proof.
  unfold Goal.close, Goal.require_open, Goal.is_closed. intros Hok. res_inv. bool_split.
  split_and!; [|done|done]. by destruct (Goal.closed_at g).
Qed.

Lemma goal_edit_inv g e g' :
  Goal.edit g e = Ok g' →
  Goal.id g' = Goal.id g ∧ Goal.status g' = Goal.status g ∧
  Goal.closed_at g' = Goal.closed_at g ∧ Goal.verdict g' = Goal.verdict g ∧
  Goal.title g' = unwrap_or (GoalEdit.title e) (Goal.title g) ∧
  (∀ t, GoalEdit.title e = Some t → is_blank t = false) ∧
  Goal.tags g' = unwrap_or (GoalEdit.tags e) (Goal.tags g) ∧
  (∀ ts, GoalEdit.tags e = Some ts → NoDup ts) ∧
  Goal.priority g' = unwrap_or (GoalEdit.priority e) (Goal.priority g) ∧
  (GoalEdit.priority e ≠ None → Goal.closed_at g = None) ∧
  Goal.description g' = unwrap_or (GoalEdit.description e) (Goal.description g) ∧
  Goal.acceptance g' = unwrap_or (GoalEdit.acceptance e) (Goal.acceptance g) ∧
  Goal.constraints g' = unwrap_or (GoalEdit.constraints e) (Goal.constraints g).
Proof.
  unfold Goal.edit, Goal.check_accepts_tasks, Goal.is_closed.
  intros Hok. apply bind_Ok in Hok as (g1 & Hp & Hok).
  apply bind_Ok in Hok as (g2 & Ht & Hok). apply bind_Ok in Hok as (g3 & Hn & Hok).
  injection Hok as <-.
  destruct (GoalEdit.priority e), (GoalEdit.tags e), (GoalEdit.title e); res_inv; bool_split;
    repeat match goal with H : check_distinct _ = Ok _ |- _ => apply check_distinct_Ok in H end;
    simpl in *; split_and!; intros; simplify_eq; try done; by destruct (Goal.closed_at g).
Qed.

Lemma goal_new_wf id n at_ g : Goal.new id n at_ = Ok g → wf g.
Proof.
  unfold Goal.new, Goal.require_positive, NewGoal.validate. intros Hok. res_inv. bool_split.
  constructor; simpl; [by apply Z.ltb_lt|done|by eapply check_distinct_Ok|done].
Qed.

Lemma restore_wf r g : Goal.restore r = Ok g → wf g.
Proof.
  unfold Goal.restore, Goal.require_positive. intros Hok. res_inv. bool_split.
  constructor; simpl; [by apply Z.ltb_lt|done|by eapply check_distinct_Ok|].
  by destruct (GoalRecord.closed_at r), (GoalRecord.verdict r).
Qed.

Lemma goal_apply_wf o g g' : wf g → apply o g = Ok g' → wf g'.
Proof.
  intros [Hid Ht Hts Hc] Hok. destruct o as [e| |at_|v counts replacing at_]; simpl in Hok.
  - apply goal_edit_inv in Hok as (Hid' & _ & Hc' & Hv & Ht' & Hblank & Htags & Hnd & _).
    constructor; rewrite ?Hid', ?Hc', ?Hv, ?Ht', ?Htags; [done| | |done].
    + destruct (GoalEdit.title e); simpl; auto.
    + destruct (GoalEdit.tags e); simpl; auto.
  - unfold Goal.ready in Hok. res_inv. by constructor.
  - unfold Goal.reopen in Hok. res_inv. by constructor.
  - apply close_inv in Hok as (_ & _ & ->). by constructor.
Qed.

(** *** Counts *)
Lemma of_status_count c s n s' :
  TaskStatusCounts.of_status (TaskStatusCounts.count c s n) s'
  = TaskStatusCounts.of_status c s' + (if decide (s = s') then n else 0).
Proof. destruct s, s'; simpl; lia. Qed.

Lemma of_status_foldl {A} (st : A → TaskStatus) (num : A → nat) l c s :
  0 < TaskStatusCounts.of_status
        (foldl (λ c x, TaskStatusCounts.count c (st x) (num x)) c l) s ↔
  0 < TaskStatusCounts.of_status c s ∨ ∃ x, x ∈ l ∧ st x = s ∧ 0 < num x.
Proof.
  revert c. induction l as [|x l IH]; intros c; simpl; [set_solver by lia|].
  rewrite IH, of_status_count. setoid_rewrite elem_of_cons.
  destruct (decide (st x = s)) as [<-|Hne].
  - split.
    + intros [?|(y & ? & ? & ?)]; [|by eauto 10].
      destruct (decide (0 < num x)); [by eauto 10|]. left. lia.
    + intros [?|(y & [->|?] & ? & ?)]; [left; lia|left; lia|eauto].
  - rewrite Nat.add_0_r. naive_solver.
Qed.

Lemma foldl_pairs {A B C} (f : C → A → B → C) (l : list (A * B)) c :
  foldl (λ c '(a, b), f c a b) c l = foldl (λ c x, f c (fst x) (snd x)) c l.
Proof. revert c. induction l as [|[a b] l IH]; intros c; simpl; auto. Qed.

Lemma blocking_nil v held :
  Goal.blocking v held = [] ↔
  ∀ s, 0 < TaskStatusCounts.of_status held s → verdict_allows v s = true.
Proof.
  unfold Goal.blocking. split.
  - intros Hnil s Hs.
    assert (∀ x, In x [(TaskStatus.Draft, TaskStatusCounts.draft held);
       (TaskStatus.Submitted, TaskStatusCounts.submitted held);
       (TaskStatus.Ready, TaskStatusCounts.ready held);
       (TaskStatus.InProgress, TaskStatusCounts.in_progress held)] →
       0 < snd x → verdict_allows v (fst x) = true) as Hall.
    { intros [s' n] Hin Hn. simpl in Hn. destruct (verdict_allows v s') eqn:Ha; [done|].
      assert (In (s', n) []) as []. rewrite <-Hnil. apply filter_In. split; [done|].
      rewrite Ha. simpl. apply Nat.ltb_lt in Hn. simpl in *. by rewrite Hn. }
    destruct s; try by destruct v.
    + by apply (Hall (TaskStatus.Draft, TaskStatusCounts.draft held)); [naive_solver|].
    + by apply (Hall (TaskStatus.Submitted, TaskStatusCounts.submitted held)); [naive_solver|].
    + by apply (Hall (TaskStatus.Ready, TaskStatusCounts.ready held)); [naive_solver|].
    + by apply (Hall (TaskStatus.InProgress, TaskStatusCounts.in_progress held)); [naive_solver|].
  - intros Hall. pose proof (Hall TaskStatus.Draft) as H1. pose proof (Hall TaskStatus.Submitted) as H2.
    pose proof (Hall TaskStatus.Ready) as H3. pose proof (Hall TaskStatus.InProgress) as H4.
    simpl in *.
    destruct held as [to d s r i c ca re]; simpl in *.
    destruct d, s, r, i; simpl in *; rewrite ?H1, ?H2, ?H3, ?H4 by lia; done.
Qed.
End GoalInv.

(** ** Theorems *)

(** C35: a goal closes exactly when it is not closed yet and every task of it,
    with every task outside it that replaces one of them, allows the verdict -
    ended for [achieved], not in progress for [abandoned] - and, for
    [achieved], every follow-up found from it is settled and no replacement
    record is broken; the close records the verdict and the time and changes
    nothing else. *)
Theorem goal_closes_exactly goal verdict rows replacing follow_ups unresolved now goal' :
  close_goal_in goal verdict rows replacing follow_ups unresolved now = Ok goal' ↔
  Goal.closed_at goal = None ∧
  (∀ s n, (s, n) ∈ rows → 0 < n → verdict_allows verdict s = true) ∧
  (∀ t s, (t, s) ∈ replacing → verdict_allows verdict s = true) ∧
  (verdict = GoalVerdict.Achieved →
    unresolved = [] ∧ ∀ f, f ∈ follow_ups → SourceFollowUp.unsettled_reason f = None) ∧
  goal' = goal <| Goal.verdict := Some verdict |> <| Goal.updated_at := now |>
               <| Goal.closed_at := Some now |>.
Proof.
  assert (Goal.blocking verdict
      (foldl (λ held '(_, s), TaskStatusCounts.count held s 1) (task_counts rows) replacing) = [] ↔
    (∀ s n, (s, n) ∈ rows → 0 < n → verdict_allows verdict s = true) ∧
    (∀ t s, (t, s) ∈ replacing → verdict_allows verdict s = true)) as Hblock.
  { rewrite GoalInv.blocking_nil.
    rewrite (GoalInv.foldl_pairs (λ held _ s, TaskStatusCounts.count held s 1)).
    setoid_rewrite (GoalInv.of_status_foldl snd (λ _, 1)). unfold task_counts.
    rewrite GoalInv.foldl_pairs. setoid_rewrite (GoalInv.of_status_foldl fst snd).
    split.
    - intros Hall. split.
      + intros s n Hin Hn. apply Hall. left. right. by exists (s, n).
      + intros t s Hin. apply Hall. right. exists (t, s). split_and!; [done|done|lia].
    - intros [Hrows Hrep] s [[H0|([s' n] & Hin & Hs & Hn)]|([t s'] & Hin & Hs & _)]; simpl in *.
      + by destruct s; simpl in H0; lia.
      + subst. eauto.
      + subst. eauto. }
  unfold close_goal_in, Goal.check_follow_ups, Goal.check_replacements. split.
  - intros Hok. apply bind_Ok in Hok as (closed & Hclose & Hok).
    apply GoalInv.close_inv in Hclose as (Hopen & Hnil & ->).
    apply Hblock in Hnil as [Hrows Hrep].
    apply bind_Ok in Hok as (? & Hfu & Hok). apply bind_Ok in Hok as (? & Hre & Hok).
    injection Hok as <-. split_and!; [done..| |done]. intros ->. simpl in *.
    res_inv. bool_split. split; [done|]. by apply unsettled_follow_ups_nil.
  - intros (Hopen & Hrows & Hrep & Hach & ->). unfold Goal.close, Goal.require_open, Goal.is_closed.
    rewrite Hopen. simpl. rewrite (bool_decide_true _ (proj2 Hblock (conj Hrows Hrep))). simpl.
    case_bool_decide as Hv; simpl; [done|].
    destruct (Hach Hv) as [-> Hfu]. apply unsettled_follow_ups_nil in Hfu. by rewrite Hfu.
Qed.

(** A refused close leaves its reason: a closed goal its verdict, and an
    open one the unfinished statuses - with their counts over the goal's own
    tasks and those replacing them - that do not allow the verdict, all of
    them and no other. *)
Theorem goal_close_refused goal verdict counts replacing at_ e :
  Goal.close goal verdict counts replacing at_ = Err e →
  (Goal.closed_at goal ≠ None ∧
    e = DomainError.GoalAlreadyClosed (Goal.id goal) (Goal.verdict goal)) ∨
  (Goal.closed_at goal = None ∧
   ∃ blocking, e = DomainError.GoalCloseBlocked (Goal.id goal) verdict blocking ∧ blocking ≠ [] ∧
    ∀ s n, (s, n) ∈ blocking ↔
      status_is_terminal s = false ∧ verdict_allows verdict s = false ∧ 0 < n ∧
      n = TaskStatusCounts.of_status
            (foldl (λ held '(_, s), TaskStatusCounts.count held s 1) counts replacing) s).
Proof.
  unfold Goal.close, Goal.require_open, Goal.is_closed. intros Herr.
  destruct (Goal.closed_at goal) as [at'|]; simpl in Herr; [left; naive_solver|right].
  split; [done|]. case_bool_decide as Hnil; [done|]. simpl in Herr. injection Herr as <-.
  eexists. split_and!; [done|done|].
  generalize (foldl (λ held '(_, s), TaskStatusCounts.count held s 1) counts replacing).
  intros held s n. unfold Goal.blocking. rewrite list_elem_of_In, filter_In, andb_true_iff.
  rewrite Nat.ltb_lt, negb_true_iff. split.
  - intros (Hin & Hn & Ha). destruct Hin as [[= <- <-]|[[= <- <-]|[[= <- <-]|[[= <- <-]|[]]]]]; done.
  - intros (Hs & Ha & Hn & ->). destruct s; simpl in *; try done; naive_solver.
Qed.

Definition sample_goal : Goal :=
  Goal.mk (GoalId.new 4) "receipts" "" "" "" None Priority.High PriorityBy.Human
    RecordedOrigin.UNKNOWN [] GoalStatus.Open None None "t0" "t0".

Lemma goal_close_refused_witness :
  Goal.close sample_goal GoalVerdict.Achieved
    (task_counts [(TaskStatus.Completed, 3); (TaskStatus.Ready, 1)])
    [(TaskId.new 9, TaskStatus.Ready)] "t1"
  = Err (DomainError.GoalCloseBlocked (GoalId.new 4) GoalVerdict.Achieved [(TaskStatus.Ready, 2)]) ∧
  ∃ blocking, blocking = [(TaskStatus.Ready, 2)] ∧ (TaskStatus.Ready, 2) ∈ blocking.
Proof.
  split; [reflexivity|]. exists [(TaskStatus.Ready, 2)]. split; [done|].
  destruct (goal_close_refused sample_goal GoalVerdict.Achieved
    (task_counts [(TaskStatus.Completed, 3); (TaskStatus.Ready, 1)])
    [(TaskId.new 9, TaskStatus.Ready)] "t1"
    (DomainError.GoalCloseBlocked (GoalId.new 4) GoalVerdict.Achieved [(TaskStatus.Ready, 2)])
    eq_refl) as [[Hbad _]|(_ & b & Hb & _ & Hall)].
  - by destruct Hbad.
  - injection Hb as <-. apply Hall. split_and!; [done|done|lia|done].
Defined.

(** Over any run of the operations a goal keeps its well-formedness: a
    positive ID, a title that is not blank, tags without repetition and a
    close time exactly when there is a verdict; a stored goal has them when
    it is read back, a new one when it is registered. *)
Theorem goal_wf_throughout g g' :
  ((∃ id n at_, Goal.new id n at_ = Ok g) ∨ ∃ r, Goal.restore r = Ok g) →
  rtc GoalInv.step g g' → GoalInv.wf g'.
Proof.
  intros Hstart Hsteps. eapply (rtc_invariant GoalInv.step GoalInv.wf); [|exact Hsteps|].
  - intros a b Ha [o Ho]. by eapply GoalInv.goal_apply_wf.
  - destruct Hstart as [(id & n & at_ & Hn)|(r & Hr)];
      [by eapply GoalInv.goal_new_wf|by eapply GoalInv.restore_wf].
Qed.

Lemma goal_wf_throughout_witness :
  ∃ g g', Goal.new (GoalId.new 4) (NewGoal.mk "receipts" "" "" "" (Some " ") true None []) "t0" = Ok g ∧
    Goal.ready g = Ok g' ∧ Goal.doc g' = None ∧ GoalInv.wf g'.
Proof.
  eexists _, _. split; [vm_compute; reflexivity|]. split; [vm_compute; reflexivity|].
  split; [reflexivity|].
  eapply goal_wf_throughout.
  - left. exists (GoalId.new 4), (NewGoal.mk "receipts" "" "" "" (Some " ") true None []), "t0".
    vm_compute. reflexivity.
  - apply rtc_once. exists GoalInv.Ready. reflexivity.
Defined.

(** A reopened goal is the one that closed: only a goal closed as
    achieved reopens, and closing and reopening one gives it back open, with
    no verdict and no close time and every other field as it was. *)
Theorem reopen_undoes_close g verdict counts replacing closed_at reopened_at g1 :
  Goal.close g verdict counts replacing closed_at = Ok g1 →
  (verdict = GoalVerdict.Achieved →
    Goal.verdict g = None →
    Goal.reopen g1 reopened_at
    = Ok (g <| Goal.status := GoalStatus.Open |> <| Goal.updated_at := reopened_at |>)) ∧
  (verdict = GoalVerdict.Abandoned →
    Goal.reopen g1 reopened_at
    = Err (DomainError.GoalNotReopenable (Goal.id g) (Some GoalVerdict.Abandoned))).
Proof.
  intros (Hopen & _ & ->)%GoalInv.close_inv. split; [|by intros ->].
  intros -> Hv. unfold Goal.reopen. simpl. destruct g; simpl in *. by subst.
Qed.

Lemma reopen_undoes_close_witness :
  ∃ g1, Goal.close sample_goal GoalVerdict.Achieved TaskStatusCounts.zero [] "t1" = Ok g1 ∧
    Goal.reopen g1 "t2" = Ok (sample_goal <| Goal.updated_at := "t2" |>).
Proof.
  pose proof (reopen_undoes_close sample_goal GoalVerdict.Achieved TaskStatusCounts.zero [] "t1" "t2"
    _ eq_refl) as [Hre _].
  eexists. split; [reflexivity|]. exact (Hre eq_refl eq_refl).
Defined.

(** [goal list] shows the goals that carry one of the tags asked for (all
    of them when none is asked for), each once: the unclosed before the
    closed, each part by priority, highest first, then by ID. *)
Theorem goal_list_order goals tags :
  (∀ g, g ∈ goal_list goals tags ↔
    g ∈ goals ∧ (tags = [] ∨ ∃ tag, tag ∈ GoalSummary.tags g ∧ tag ∈ tags)) ∧
  (∀ before g middle g' after, goal_list goals tags = before ++ g :: middle ++ g' :: after →
    (GoalSummary.closed g = true → GoalSummary.closed g' = true) ∧
    (GoalSummary.closed g = GoalSummary.closed g' →
      Priority.leb (GoalSummary.priority g') (GoalSummary.priority g) = true ∧
      (GoalSummary.priority g = GoalSummary.priority g' →
        (GoalId.as_i64 (GoalSummary.id g) ≤ GoalId.as_i64 (GoalSummary.id g'))%Z))) ∧
  (tags = [] → goal_list goals tags ≡ₚ goals).
Proof.
  unfold goal_list. split_and!.
  - intros g. rewrite sort_by_key_perm. destruct tags as [|t tags]; [naive_solver|].
    rewrite list_elem_of_In, filter_In, <-list_elem_of_In, existsb_exists.
    setoid_rewrite <-list_elem_of_In. setoid_rewrite bool_decide_eq_true. naive_solver.
  - intros before g middle g' after Heq.
    apply sort_by_key_before in Heq. unfold by_key, goal_list_key in Heq.
    rewrite !lex_leb_cons in Heq. unfold Priority.leb. rewrite Z.leb_le.
    destruct (GoalSummary.closed g), (GoalSummary.closed g');
      (split; [intros Hc; first [done|exfalso; lia]|]); intros Hc; try done;
      (split; [lia|]); intros Hp; rewrite Hp in Heq; lia.
  - intros ->. apply sort_by_key_perm.
Qed.

(** A goal crosses processes unchanged. *)
Theorem goal_wire_round_trip :
  (∀ goal, GoalWire.to_goal (GoalWire.of_goal goal) = goal) ∧
  (∀ wire, GoalWire.of_goal (GoalWire.to_goal wire) = wire).
Proof. by split; intros []. Qed.
