(* ===== verification/Proposals.v ===== *)
(** * Proposals

    [src/src/domain/proposal.rs]: a submission with its check, the record
    [Proposal] with its constructors, every operation that changes one, and
    the check that a task or goal joins it. *)
From S2P Require Import Prelude Text Vocab Ids Errors.

(** [ProposalStatus::is_active]. *)
Definition proposal_is_active (self : ProposalStatus) : bool :=
  match self with ProposalStatus.Submitted | ProposalStatus.Revising => true | _ => false end.

Module PlannerOwner.
Record t : Set := mk { origin : PlannerOrigin; workspace_id : option string }.
End PlannerOwner.
Abbreviation PlannerOwner := PlannerOwner.t.

Module Submission.
Record t : Set := mk {
  tasks : list TaskId;
  goals : list GoalId;
  proposal : option ProposalId;
  owner : PlannerOwner;
}.

Definition validate (self : t) : Result unit :=
  _ ← require (forallb (λ id, (0 <? TaskId.as_i64 id)%Z) (tasks self))
        (DomainError.NonPositiveId "task ID");
  _ ← require (forallb (λ id, (0 <? GoalId.as_i64 id)%Z) (goals self))
        (DomainError.NonPositiveId "goal ID");
  _ ← require (is_none_or (proposal self) (λ id, (0 <? ProposalId.as_i64 id)%Z))
        (DomainError.NonPositiveId "proposal ID");
  require (is_none_or (PlannerOwner.workspace_id (owner self)) (λ id, negb (is_blank id)))
    (DomainError.Blank "planner workspace ID").
End Submission.
Abbreviation Submission := Submission.t.

(** ** Ascending IDs without repetition *)

(** [Vec::dedup]: of equal neighbours the first stays. *)
Fixpoint dedup_neighbours {A} `{EqDecision A} (l : list A) : list A :=
  match l with
  | [] => []
  | x :: rest =>
      match rest with
      | y :: _ => if decide (x = y) then dedup_neighbours rest else x :: dedup_neighbours rest
      | [] => [x]
      end
  end.

(** [sorted]: [ids.sort()] and [ids.dedup()] on the IDs' order. *)
Definition sorted {A} `{EqDecision A} (value : A → Z) (ids : list A) : list A :=
  dedup_neighbours (sort_by_key (λ id, [value id]) ids).

(** ** The proposal *)
Module ProposalRecord.
Record t : Set := mk {
  id : ProposalId;
  status : ProposalStatus;
  owner : PlannerOwner;
  submitted_at : string;
  revise_count : Z;
  task_ids : list TaskId;
  goal_ids : list GoalId;
  created_at : string;
  updated_at : string;
}.
End ProposalRecord.
Abbreviation ProposalRecord := ProposalRecord.t.

Module Proposal.
Record t : Set := mk {
  id : ProposalId;
  status : ProposalStatus;
  owner : PlannerOwner;
  submitted_at : string;
  (** A [u32]. *)
  revise_count : Z;
  task_ids : list TaskId;
  goal_ids : list GoalId;
  created_at : string;
  updated_at : string;
}.
#[global] Instance updatable : Updatable t :=
  λ r, mk (id r) (status r) (owner r) (submitted_at r) (revise_count r) (task_ids r)
    (goal_ids r) (created_at r) (updated_at r).

Definition require_id (id : ProposalId) : Result unit :=
  require (0 <? ProposalId.as_i64 id)%Z (DomainError.NonPositiveId "proposal ID").
Definition require_tasks (task_ids : list TaskId) : Result unit :=
  require (negb (bool_decide (task_ids = []))) DomainError.EmptyProposal.
Definition require_status (proposal : t) (expected : ProposalStatus) : Result unit :=
  require (bool_decide (status proposal = expected))
    (DomainError.ProposalNotInStatus (id proposal) (status proposal) expected).

Definition submit (id : ProposalId) (owner : PlannerOwner) (task_ids : list TaskId)
    (goal_ids : list GoalId) (now : string) : Result t :=
  _ ← require_id id;
  _ ← require_tasks task_ids;
  Ok {|
    id := id;
    status := ProposalStatus.Submitted;
    owner := owner;
    submitted_at := now;
    revise_count := 0;
    task_ids := sorted TaskId.as_i64 task_ids;
    goal_ids := sorted GoalId.as_i64 goal_ids;
    created_at := now;
    updated_at := now;
  |}.

Definition restore (record : ProposalRecord) : Result t :=
  _ ← require_id (ProposalRecord.id record);
  Ok {|
    id := ProposalRecord.id record;
    status := ProposalRecord.status record;
    owner := ProposalRecord.owner record;
    submitted_at := ProposalRecord.submitted_at record;
    revise_count := ProposalRecord.revise_count record;
    task_ids := sorted TaskId.as_i64 (ProposalRecord.task_ids record);
    goal_ids := sorted GoalId.as_i64 (ProposalRecord.goal_ids record);
    created_at := ProposalRecord.created_at record;
    updated_at := ProposalRecord.updated_at record;
  |}.

(** ** Operations *)
Definition resubmit (proposal : t) (owner' : PlannerOwner) (tasks : list TaskId)
    (goals : list GoalId) (now : string) : Result t :=
  _ ← require_status proposal ProposalStatus.Revising;
  _ ← require_tasks tasks;
  Ok (proposal <| status := ProposalStatus.Submitted |>
               <| owner := owner' |>
               <| task_ids := sorted TaskId.as_i64 tasks |>
               <| goal_ids := sorted GoalId.as_i64 goals |>
               <| submitted_at := now |>
               <| updated_at := now |>).

Definition accept (proposal : t) (now : string) : Result t :=
  _ ← require_status proposal ProposalStatus.Submitted;
  Ok (proposal <| status := ProposalStatus.Accepted |> <| updated_at := now |>).

Definition retry (proposal : t) (now : string) : Result t :=
  _ ← require_status proposal ProposalStatus.Submitted;
  Ok (proposal <| submitted_at := now |> <| updated_at := now |>).

Definition cancel (proposal : t) (now : string) : Result t :=
  _ ← require_status proposal ProposalStatus.Submitted;
  Ok (proposal <| status := ProposalStatus.Canceled |> <| updated_at := now |>).

Definition withdraw (proposal : t) (now : string) : Result t :=
  _ ← require (proposal_is_active (status proposal))
        (DomainError.ProposalNotActive (id proposal) (status proposal));
  Ok (proposal <| status := ProposalStatus.Canceled |> <| updated_at := now |>).

Definition reopen (id : ProposalId) (tasks : list TaskId) (now : string) : Result t :=
  proposal ← submit id (PlannerOwner.mk PlannerOrigin.Runtime None) tasks [] now;
  Ok (proposal <| status := ProposalStatus.Revising |>).

(** [revise_count += 1] on a [u32], as the release profile compiles it: it
    wraps at [2^32]. *)
Definition send_back (proposal : t) (now : string) : Result t :=
  _ ← require_status proposal ProposalStatus.Submitted;
  Ok (proposal <| status := ProposalStatus.Revising |>
               <| revise_count := ((revise_count proposal + 1) mod 2 ^ 32)%Z |>
               <| updated_at := now |>).
End Proposal.
Abbreviation Proposal := Proposal.t.

Definition check_task_joins (task_id : TaskId) (current : option (ProposalId * ProposalStatus))
    (target : option ProposalId) : Result unit :=
  match current with
  | Some (proposal_id, status) =>
      if proposal_is_active status && bool_decide (Some proposal_id ≠ target)
      then Err (DomainError.TaskInOtherProposal task_id proposal_id) else Ok tt
  | None => Ok tt
  end.

Definition check_goal_joins (goal_id : GoalId) (current : option (ProposalId * ProposalStatus))
    (target : option ProposalId) : Result unit :=
  match current with
  | Some (proposal_id, status) =>
      if proposal_is_active status && bool_decide (Some proposal_id ≠ target)
      then Err (DomainError.GoalInOtherProposal goal_id proposal_id) else Ok tt
  | None => Ok tt
  end.

(** ** Lemmas *)
Section sorted.
  Context {A : Type} `{EqDecision A} (value : A → Z).

Definition ascending (l : list A) : Prop := StronglySorted (λ a b, (value a < value b)%Z) l.

Lemma dedup_neighbours_cons (y z : A) l :
  dedup_neighbours (y :: z :: l)
  = if decide (y = z) then dedup_neighbours (z :: l) else y :: dedup_neighbours (z :: l).
Proof. done. Qed.

Lemma dedup_neighbours_elem (l : list A) x : x ∈ dedup_neighbours l ↔ x ∈ l.
Proof.
  induction l as [|y l IH]; [done|].
  destruct l as [|z l]; [done|]. rewrite dedup_neighbours_cons. case_decide as Hy.
  - subst. rewrite IH. set_solver.
  - rewrite !elem_of_cons, IH. set_solver.
Qed.

Lemma elem_of_sorted l x : x ∈ sorted value l ↔ x ∈ l.
Proof. unfold sorted. by rewrite dedup_neighbours_elem, elem_of_sort_by_key. Qed.

Lemma sorted_nil l : sorted value l = [] ↔ l = [].
Proof.
  split; [|by intros ->]. intros Hnil. destruct l as [|x l]; [done|].
  assert (x ∈ sorted value (x :: l)) as Hx by (apply elem_of_sorted; left).
  rewrite Hnil in Hx. by apply not_elem_of_nil in Hx.
Qed.
  Context `{!Inj (=) (=) value}.

Lemma dedup_neighbours_ascending (l : list A) :
  StronglySorted (by_key (λ a, [value a])) l → ascending (dedup_neighbours l).
Proof.
  induction 1 as [|y l Hl IH Hy]; [constructor|].
  destruct l as [|z l]; [by repeat constructor|].
  rewrite dedup_neighbours_cons. case_decide as Heq; [done|].
  constructor; [done|]. apply Forall_forall. intros x Hx.
  rewrite dedup_neighbours_elem in Hx. inv Hl as [|? ? _ Hz].
  inv Hy as [|? ? Hyz _]. unfold by_key in *. apply lex_leb_cons in Hyz.
  assert (value y ≠ value z) as Hne by (intros Hv; by apply (inj value) in Hv).
  apply elem_of_cons in Hx as [->|Hx]; [naive_solver lia|].
  rewrite Forall_forall in Hz. specialize (Hz x Hx). apply lex_leb_cons in Hz. naive_solver lia.
Qed.

Lemma sorted_ascending l : ascending (sorted value l).
Proof. apply dedup_neighbours_ascending, sort_by_key_sorted. Qed.
End sorted.

#[export] Instance task_id_inj : Inj (=) (=) TaskId.as_i64.
Proof. by intros [] [] [=->]. Qed.
#[export] Instance goal_id_inj : Inj (=) (=) GoalId.as_i64.
Proof. by intros [] [] [=->]. Qed.

Module ProposalInv.
Record wf (p : Proposal) : Prop := {
  wf_id : (0 < ProposalId.as_i64 (Proposal.id p))%Z;
  wf_tasks : ascending TaskId.as_i64 (Proposal.task_ids p);
  wf_some : Proposal.task_ids p ≠ [];
  wf_goals : ascending GoalId.as_i64 (Proposal.goal_ids p);
  wf_count : (0 ≤ Proposal.revise_count p < 2 ^ 32)%Z;
}.

Inductive op : Set :=
  | Resubmit (owner : PlannerOwner) (tasks : list TaskId) (goals : list GoalId)
  | Accept
  | Retry
  | Cancel
  | Withdraw
  | SendBack.

Definition apply (o : op) (now : string) (p : Proposal) : Result Proposal :=
  match o with
  | Resubmit owner tasks goals => Proposal.resubmit p owner tasks goals now
  | Accept => Proposal.accept p now
  | Retry => Proposal.retry p now
  | Cancel => Proposal.cancel p now
  | Withdraw => Proposal.withdraw p now
  | SendBack => Proposal.send_back p now
  end.

Definition step (p p' : Proposal) : Prop := ∃ o now, apply o now p = Ok p'.

Lemma submit_wf id owner tasks goals now p :
  Proposal.submit id owner tasks goals now = Ok p →
  wf p ∧ Proposal.status p = ProposalStatus.Submitted ∧ Proposal.revise_count p = 0%Z ∧
  (∀ t, t ∈ Proposal.task_ids p ↔ t ∈ tasks) ∧ (∀ g, g ∈ Proposal.goal_ids p ↔ g ∈ goals).
Proof.
  unfold Proposal.submit, Proposal.require_id, Proposal.require_tasks. intros Hok. res_inv.
  bool_split. split_and!; [constructor| | | |]; simpl; try done.
  - by apply Z.ltb_lt.
  - apply sorted_ascending, _.
  - by rewrite sorted_nil.
  - apply sorted_ascending, _.
  - intros t. apply elem_of_sorted.
  - intros g. apply elem_of_sorted.
Qed.

Lemma reopen_wf id tasks now p : Proposal.reopen id tasks now = Ok p → wf p ∧
  Proposal.status p = ProposalStatus.Revising ∧ Proposal.revise_count p = 0%Z.
Proof.
  unfold Proposal.reopen. intros Hok. apply bind_Ok in Hok as (p1 & Hs & Hok).
  injection Hok as <-. apply submit_wf in Hs as ([] & _ & Hc & _). split_and!; [by constructor|done..].
Qed.

Lemma proposal_apply_wf o now p p' : wf p → apply o now p = Ok p' → wf p'.
Proof.
  intros [Hid Ht Hs Hg Hc] Hok. destruct o as [owner tasks goals| | | | |]; simpl in Hok;
    unfold Proposal.resubmit, Proposal.accept, Proposal.retry, Proposal.cancel,
      Proposal.withdraw, Proposal.send_back, Proposal.require_tasks in Hok;
    res_inv; bool_split; constructor; simpl; try done.
  - apply sorted_ascending, _.
  - by rewrite sorted_nil.
  - apply sorted_ascending, _.
  - apply Z.mod_pos_bound. lia.
Qed.
End ProposalInv.

(** ** Theorems *)

(** A proposal submitted by a planner or reopened by plan review keeps,
    over any run of its operations, a positive ID, at least one member task,
    its tasks and goals in ascending order without repetition and a count of
    revises within 32 bits. *)
Theorem proposal_wf_throughout p p' :
  ((∃ id owner tasks goals now, Proposal.submit id owner tasks goals now = Ok p) ∨
   (∃ id tasks now, Proposal.reopen id tasks now = Ok p)) →
  rtc ProposalInv.step p p' → ProposalInv.wf p'.
Proof.
  intros Hstart Hsteps. apply (rtc_invariant ProposalInv.step ProposalInv.wf p); [|done|].
  - intros a b Ha (o & now & Ho). by eapply ProposalInv.proposal_apply_wf.
  - destruct Hstart as [(id & owner & tasks & goals & now & Hs)|(id & tasks & now & Hs)];
      [by apply ProposalInv.submit_wf in Hs as [? _]|by apply ProposalInv.reopen_wf in Hs as [? _]].
Qed.

Definition sample_owner : PlannerOwner := PlannerOwner.mk PlannerOrigin.Runtime None.

Lemma proposal_wf_throughout_witness :
  ∃ p p', Proposal.submit (ProposalId.new 2) sample_owner
      [TaskId.new 9; TaskId.new 3; TaskId.new 9] [] "t0" = Ok p ∧
    Proposal.send_back p "t1" = Ok p' ∧ Proposal.task_ids p' = [TaskId.new 3; TaskId.new 9] ∧
    ProposalInv.wf p'.
Proof.
  eexists _, _. split; [vm_compute; reflexivity|]. split; [vm_compute; reflexivity|].
  split; [reflexivity|].
  eapply proposal_wf_throughout.
  - left. exists (ProposalId.new 2), sample_owner, [TaskId.new 9; TaskId.new 3; TaskId.new 9],
      [], "t0". vm_compute. reflexivity.
  - apply rtc_once. exists ProposalInv.SendBack, "t1". vm_compute. reflexivity.
Defined.

(** The life of a proposal. Only a submitted one is accepted, canceled,
    retried or sent back, only a revising one is submitted again, and both
    are withdrawn; each operation leads to the status it means, an accepted
    or canceled proposal takes no operation, and the revises counted grow by
    exactly the one a send-back counts (below the 32-bit bound) and by
    nothing else. *)
Theorem proposal_life o now p p' :
  ProposalInv.wf p → ProposalInv.apply o now p = Ok p' →
  proposal_is_active (Proposal.status p) = true ∧
  (Proposal.status p', Proposal.revise_count p') =
    match o with
    | ProposalInv.Resubmit _ _ _ | ProposalInv.Retry =>
        (ProposalStatus.Submitted, Proposal.revise_count p)
    | ProposalInv.Accept => (ProposalStatus.Accepted, Proposal.revise_count p)
    | ProposalInv.Cancel | ProposalInv.Withdraw =>
        (ProposalStatus.Canceled, Proposal.revise_count p)
    | ProposalInv.SendBack =>
        (ProposalStatus.Revising,
         if bool_decide (Proposal.revise_count p = 2 ^ 32 - 1)%Z then 0%Z
         else (Proposal.revise_count p + 1)%Z)
    end ∧
  (Proposal.status p = ProposalStatus.Revising ↔
    Proposal.status p ≠ ProposalStatus.Submitted) ∧
  (Proposal.status p = ProposalStatus.Revising →
    o = ProposalInv.Withdraw ∨ ∃ owner tasks goals, o = ProposalInv.Resubmit owner tasks goals) ∧
  Proposal.updated_at p' = now.
Proof.
  intros [_ _ _ _ Hc] Hok. destruct o as [owner tasks goals| | | | |]; simpl in Hok;
    unfold Proposal.resubmit, Proposal.accept, Proposal.retry, Proposal.cancel,
      Proposal.withdraw, Proposal.send_back, Proposal.require_status in Hok;
    res_inv; bool_split; simpl;
    try match goal with H : Proposal.status p = _ |- _ => rewrite H end;
    try (destruct (Proposal.status p); simpl in *; try done); split_and!;
    try done; try naive_solver.
  case_bool_decide as Hmax; f_equal; [by rewrite Hmax|apply Z.mod_small; lia].
Qed.

Lemma proposal_life_witness :
  ∃ p p', ProposalInv.apply ProposalInv.SendBack "t1" p = Ok p' ∧
    (Proposal.status p', Proposal.revise_count p') = (ProposalStatus.Revising, 1%Z).
Proof.
  pose (p := Proposal.mk (ProposalId.new 2) ProposalStatus.Submitted sample_owner "t0" 0%Z
    [TaskId.new 3] [] "t0" "t0").
  assert (ProposalInv.wf p) as Hwf.
  { constructor; simpl; [lia|repeat constructor|done|constructor|lia]. }
  pose proof (proposal_life ProposalInv.SendBack "t1" p _ Hwf eq_refl) as (_ & Hs & _).
  exists p. eexists. split; [reflexivity|]. exact Hs.
Defined.

(** A task or goal joins a proposal exactly when the proposal it is in,
    if any, is that one or no longer holds its members; a refusal names the
    proposal that holds it. *)
Theorem joins_one_active_proposal task_id goal_id current target :
  (check_task_joins task_id current target = Ok tt ↔
    ∀ id status, current = Some (id, status) → proposal_is_active status = true →
      target = Some id) ∧
  (∀ e, check_task_joins task_id current target = Err e →
    ∃ id status, current = Some (id, status) ∧ e = DomainError.TaskInOtherProposal task_id id) ∧
  (check_goal_joins goal_id current target = Ok tt ↔ check_task_joins task_id current target = Ok tt).
Proof.
  unfold check_task_joins, check_goal_joins. split_and!.
  - destruct current as [[id status]|]; [|by split; [intros _ ? ? ?|]].
    destruct (proposal_is_active status) eqn:Ha; simpl.
    + case_bool_decide as Hne; (split; [|try done]); try discriminate.
      * intros Hall. destruct Hne. symmetry. exact (Hall id status eq_refl Ha).
      * intros _ id' status' [= <- <-] _. symmetry. first [done|by apply dec_stable].
    + split; [|done]. intros _ id' status' [= <- <-]. by rewrite Ha.
  - intros e. destruct current as [[id status]|]; [|done].
    destruct (_ && _); [|done]. intros [= <-]. eauto.
  - destruct current as [[id status]|]; [|done]. by destruct (_ && _).
Qed.
