(* ===== verification/Runs.v ===== *)
(** * Runs

    [src/src/domain/run.rs]: the record [TaskRun] - one attempt at a task, from
    its claim to its landing - and every command that moves it, each refused
    with the status it found and the operation; and of
    [src/src/domain/run/recorded.rs] the record of a change of side between
    the unfinished statuses and the others. *)
From S2P Require Import Prelude Text Vocab Ids Errors Labels Scope Workers Priorities Inputs Tasks.
From Stdlib Require Import Ascii.

(** [str::to_ascii_lowercase]. *)
Definition byte_lower (c : ascii) : ascii :=
  if byte_in c 65 90 then ascii_of_N (byte_of c + 32) else c.
Definition to_ascii_lowercase (s : string) : string :=
  String.string_of_list_ascii (byte_lower <$> bytes s).

Module TaskRun.
Record t : Set := mk {
  id : RunId;
  task_id : TaskId;
  status : RunStatus;
  requested_provider : Provider;
  actual_provider : Provider;
  worker_mode : WorkerMode;
  base_commit : CommitSha;
  branch : option string;
  worktree_path : option string;
  workspace_id : option string;
  receipt_path : option string;
  log_path : option string;
  result_commit : option CommitSha;
  repo_path : option string;
  run_dir : option string;
  last_error : option string;
  workspace_closed_at : option Z;
  created_at : string;
}.
#[global] Instance updatable : Updatable t :=
  λ r, mk (id r) (task_id r) (status r) (requested_provider r) (actual_provider
    r) (worker_mode r) (base_commit r) (branch r) (worktree_path r)
    (workspace_id r) (receipt_path r) (log_path r) (result_commit r) (repo_path
    r) (run_dir r) (last_error r) (workspace_closed_at r) (created_at r).

(** [TaskRun::new]. *)
Definition new (id : RunId) (task : Task) (base : CommitSha) (claimed_at : string) : Result t :=
  _ ← require (bool_decide (Task.status task = TaskStatus.InProgress))
        (DomainError.RunOfUnclaimedTask (Task.id task) (Task.status task));
  base ← commit_sha_parse (to_ascii_lowercase (CommitSha.as_str base)) "base commit";
  Ok {|
    id := id;
    task_id := Task.id task;
    status := RunStatus.Claimed;
    requested_provider := Worker.provider (Task.worker task);
    actual_provider := Worker.provider (Task.worker task);
    worker_mode := Worker.mode (Task.worker task);
    base_commit := base;
    branch := None;
    worktree_path := None;
    workspace_id := None;
    receipt_path := None;
    log_path := None;
    result_commit := None;
    repo_path := None;
    run_dir := None;
    last_error := None;
    workspace_closed_at := None;
    created_at := claimed_at;
  |}.

(** [TaskRun::restore]. *)
Definition restore (record : RunRecord) : Result t :=
  _ ← require (bool_decide (RunRecord.status record ≠ RunStatus.Integrated)
               || is_some (RunRecord.result_commit record))
        (DomainError.RunInconsistent (RunRecord.id record)
           "is integrated without a result commit");
  Ok {|
    id := RunRecord.id record;
    task_id := RunRecord.task_id record;
    status := RunRecord.status record;
    requested_provider := RunRecord.requested_provider record;
    actual_provider := RunRecord.actual_provider record;
    worker_mode := RunRecord.worker_mode record;
    base_commit := RunRecord.base_commit record;
    branch := RunRecord.branch record;
    worktree_path := RunRecord.worktree_path record;
    workspace_id := RunRecord.workspace_id record;
    receipt_path := RunRecord.receipt_path record;
    log_path := RunRecord.log_path record;
    result_commit := RunRecord.result_commit record;
    repo_path := RunRecord.repo_path record;
    run_dir := RunRecord.run_dir record;
    last_error := RunRecord.last_error record;
    workspace_closed_at := RunRecord.workspace_closed_at record;
    created_at := RunRecord.created_at record;
  |}.

(** [TaskRun::requesting] and [TaskRun::running_on]. *)
Definition requesting (self : t) (worker : Worker) : t :=
  self <| requested_provider := Worker.provider worker |>
       <| actual_provider := Worker.provider worker |>
       <| worker_mode := Worker.mode worker |>.
Definition running_on (self : t) (worker : Worker) : t :=
  self <| actual_provider := Worker.provider worker |> <| worker_mode := Worker.mode worker |>.

Definition require_status (run : t) (allowed : list RunStatus) (operation : string) :
    Result unit :=
  require (bool_decide (status run ∈ allowed))
    (DomainError.RunTransitionNotAllowed (status run) operation).

Definition UNFINISHED : list RunStatus :=
  [RunStatus.Claimed; RunStatus.Starting; RunStatus.Running; RunStatus.Validating;
   RunStatus.Integrating].

(** ** Provisioning and the session *)
Definition start_provisioning (run : t) (plan : RunPlan) : Result t :=
  _ ← require_status run [RunStatus.Claimed] "provision";
  Ok (run <| status := RunStatus.Starting |>
          <| repo_path := Some (RunPlan.repo_path plan) |>
          <| run_dir := Some (RunPlan.run_dir plan) |>
          <| branch := Some (RunPlan.branch plan) |>
          <| worktree_path := Some (RunPlan.worktree_path plan) |>
          <| receipt_path := Some (RunPlan.receipt_path plan) |>
          <| log_path := Some (RunPlan.log_path plan) |>).

Definition attach_workspace (run : t) (workspace : string) : Result t :=
  _ ← require_status run [RunStatus.Starting] "attach a workspace to";
  _ ← require (is_none (workspace_id run))
        (DomainError.RunTransitionNotAllowed (status run) "attach a second workspace to");
  Ok (run <| workspace_id := Some workspace |>).

Definition check_reopenable (run : t) : Result unit :=
  require_status run [RunStatus.Running] "reopen the session of".

Definition reopen_workspace (run : t) (workspace : string) : Result t :=
  _ ← check_reopenable run;
  Ok (run <| workspace_id := Some workspace |> <| workspace_closed_at := None |>).

Definition check_ready_for_wrapper (run : t) : Result unit :=
  _ ← require_status run [RunStatus.Starting] "start the wrapper of";
  require (is_some (workspace_id run))
    (DomainError.RunTransitionNotAllowed (status run)
       "start the wrapper without a workspace of").

Definition mark_running (run : t) : Result t :=
  _ ← require_status run [RunStatus.Starting] "mark running";
  Ok (run <| status := RunStatus.Running |>).

(** [session_end_status]: an exit code is an [i32]. *)
Definition session_end_status (exit_code : option Z) (receipt : bool) : RunStatus :=
  match exit_code with
  | Some code =>
      if negb (code =? 0)%Z && negb receipt then RunStatus.Failed else RunStatus.Validating
  | None => RunStatus.Validating
  end.

Definition finish_session (run : t) (exit_code : option Z) (receipt : bool) : Result t :=
  _ ← require_status run [RunStatus.Starting; RunStatus.Running] "finish the session of";
  let run := run <| status := session_end_status exit_code receipt |> in
  Ok (match status run, exit_code with
      | RunStatus.Failed, Some code =>
          run <| last_error := Some ("session exited with code " +:+ decimal code) |>
      | _, _ => run
      end).

(** ** Validation *)
Definition accept (run : t) (commit : CommitSha) : Result t :=
  _ ← require_status run [RunStatus.Validating] "accept";
  Ok (run <| status := RunStatus.AwaitingIntegration |> <| result_commit := Some commit |>).

Definition reject (run : t) (commit : option CommitSha) (reason : option string)
    (resumable : bool) : Result t :=
  _ ← require_status run [RunStatus.Validating] "reject";
  let run := run <| status := if resumable then RunStatus.NeedsSession else RunStatus.Failed |> in
  let run := run <| result_commit := commit |> in
  Ok (if is_some reason then run <| last_error := reason |> else run).

Definition close_satisfied (run : t) : Result t :=
  _ ← require_status run [RunStatus.Validating] "close as already satisfied";
  Ok (run <| status := RunStatus.Succeeded |> <| result_commit := None |>).

Definition decide_satisfied (run : t) (reason : string) : Result t :=
  _ ← require_status run [RunStatus.Validating] "decide the already_satisfied claim of";
  Ok (run <| status := RunStatus.Failed |> <| last_error := Some reason |>).

Definition restart_validation (run : t) : Result t :=
  _ ← require_status run [RunStatus.AwaitingIntegration] "validate again";
  Ok (run <| status := RunStatus.Validating |>).

(** ** Waiting and parking *)
Definition decide_landing (run : t) (to : RunStatus) (reason : string) : Result t :=
  _ ← require_status run [RunStatus.AwaitingIntegration] "decide the landing of";
  _ ← require (bool_decide (to ∈ [RunStatus.NeedsSession; RunStatus.Failed]))
        (DomainError.RunTransitionNotAllowed (status run)
           "decide a landing other than a send-back or a cancel for");
  Ok (run <| status := to |> <| last_error := Some reason |>).

Definition park_after_recheck (run : t) (reason : string) : Result t :=
  _ ← require_status run [RunStatus.AwaitingIntegration] "park after a landing recheck";
  Ok (run <| status := RunStatus.NeedsSession |> <| last_error := Some reason |>).

Definition park_after_e2e (run : t) (reason : string) : Result t :=
  _ ← require_status run [RunStatus.AwaitingIntegration] "park after a failed e2e";
  Ok (run <| status := RunStatus.NeedsSession |> <| last_error := Some reason |>).

Definition park_live (run : t) (reason : string) : Result t :=
  _ ← require_status run [RunStatus.Running] "park a live session";
  Ok (run <| status := RunStatus.NeedsSession |> <| last_error := Some reason |>).

Definition park_for_replan (run : t) (reason : string) : Result t :=
  _ ← require_status run
        [RunStatus.Claimed; RunStatus.Starting; RunStatus.Running; RunStatus.Validating;
         RunStatus.AwaitingIntegration; RunStatus.NeedsSession; RunStatus.Failed;
         RunStatus.Interrupted]
        "park for a replanning";
  Ok (run <| status := RunStatus.NeedsSession |> <| last_error := Some reason |>).

Definition park_for_hold (run : t) (reason : string) : Result t :=
  _ ← require_status run
        [RunStatus.Claimed; RunStatus.Starting; RunStatus.Running; RunStatus.Validating;
         RunStatus.AwaitingIntegration; RunStatus.NeedsSession]
        "park for a hold";
  Ok (run <| status := RunStatus.NeedsSession |> <| last_error := Some reason |>).

Definition end_for_replacement (run : t) : Result t :=
  _ ← require_status run [RunStatus.NeedsSession] "end for a replacement";
  Ok (run <| status := RunStatus.Replaced |>).

Definition end_for_release (run : t) (reason : string) : Result t :=
  _ ← require_status run
        [RunStatus.Validating; RunStatus.AwaitingIntegration; RunStatus.NeedsSession;
         RunStatus.Failed; RunStatus.Interrupted]
        "end for a release";
  Ok (run <| status := RunStatus.Failed |> <| last_error := Some reason |>).

Definition abandon (run : t) (message : string) : Result t :=
  Ok (run <| last_error := Some message |>).

Definition interrupt (run : t) : Result t :=
  if bool_decide (status run = RunStatus.AwaitingIntegration) then Ok run
  else
    _ ← require_status run UNFINISHED "recover";
    Ok (run <| status :=
          if bool_decide (status run = RunStatus.Integrating)
          then RunStatus.AwaitingIntegration else RunStatus.Interrupted |>).

(** ** The landing *)
Definition begin_integration (run : t) : Result t :=
  _ ← require_status run
        [RunStatus.AwaitingIntegration; RunStatus.NeedsSession]
        "integrate";
  Ok (run <| status := RunStatus.Integrating |>).

Definition leave_integration (run : t) (to : RunStatus) (reason operation : string) : Result t :=
  _ ← require_status run [RunStatus.Integrating] operation;
  Ok (run <| status := to |> <| last_error := Some reason |>).

Definition defer_integration (run : t) (reason : string) : Result t :=
  leave_integration run RunStatus.NeedsSession reason "defer the integration of".
Definition hold_integration (run : t) (reason : string) : Result t :=
  leave_integration run RunStatus.AwaitingIntegration reason "hold the integration of".
Definition fail_integration (run : t) (reason : string) : Result t :=
  leave_integration run RunStatus.Failed reason "fail the integration of".

Definition abort_integration (run : t) (revert_to : RunStatus) (message : string) : Result t :=
  _ ← require (bool_decide (revert_to ∈ [RunStatus.AwaitingIntegration; RunStatus.NeedsSession]))
        (DomainError.RunTransitionNotAllowed (status run)
           "return to a status it could not have integrated from");
  leave_integration run revert_to message "abort the integration of".

Definition hand_over_integration (run : t) (revert_to : RunStatus) : Result t :=
  _ ← require (bool_decide (revert_to ∈ [RunStatus.AwaitingIntegration; RunStatus.NeedsSession]))
        (DomainError.RunTransitionNotAllowed (status run)
           "return to a status it could not have integrated from");
  _ ← require_status run [RunStatus.Integrating] "hand over the landing of";
  Ok (run <| status := revert_to |>).

Definition finish_integration (run : t) (commit : CommitSha) : Result t :=
  _ ← require_status run [RunStatus.Integrating] "finish the integration of";
  Ok (run <| status := RunStatus.Integrated |> <| result_commit := Some commit |>
          <| last_error := None |>).

(** ** Resumes and the recovery *)
Definition check_resumable (run : t) : Result unit :=
  require_status run [RunStatus.NeedsSession] "resume".

Definition resolve_approved_resume (run : t) (head : CommitSha) : Result t :=
  _ ← require_status run [RunStatus.NeedsSession] "resolve the resume of";
  Ok (run <| result_commit := Some head |>).

Definition skip_resume (run : t) (head : CommitSha) (approved : bool) : Result t :=
  _ ← check_resumable run;
  if approved then resolve_approved_resume run head
  else Ok (run <| status := RunStatus.Validating |>).

Definition finish_resume (run : t) (to : RunStatus) (reason : option string) : Result t :=
  _ ← require_status run [RunStatus.NeedsSession] "finish the resume of";
  _ ← require (bool_decide (to ∈ [RunStatus.Validating; RunStatus.AwaitingIntegration;
                                  RunStatus.Failed]))
        (DomainError.RunTransitionNotAllowed (status run)
           "end a resume in a status a session cannot reach for");
  let run := run <| status := to |> in
  Ok (if is_some reason then run <| last_error := reason |> else run).

Definition exhaust_resumes (run : t) (reason : string) : Result t :=
  _ ← check_resumable run;
  Ok (run <| status := RunStatus.Failed |> <| last_error := Some reason |>).

Definition check_triageable (run : t) : Result unit :=
  require_status run [RunStatus.Failed; RunStatus.Interrupted] "triage".

Definition resume_after_triage (run : t) (instruction : string) : Result t :=
  _ ← check_triageable run;
  Ok (run <| status := RunStatus.NeedsSession |> <| last_error := Some instruction |>).

Definition hand_off_after_triage (run : t) : Result t :=
  _ ← require_status run [RunStatus.Failed] "hand off";
  Ok (run <| status := RunStatus.Validating |> <| result_commit := None |>
          <| last_error := None |>).

(** ** The workspace of a run at rest *)
Definition require_open_workspace_at_rest (run : t) (operation : string) : Result unit :=
  _ ← require_status run
        [RunStatus.AwaitingIntegration; RunStatus.NeedsSession; RunStatus.Validating] operation;
  require (is_none (workspace_closed_at run))
    (DomainError.RunTransitionNotAllowed (status run) operation).

Definition workspace_closed (run : t) (closed_at : Z) : Result t :=
  _ ← require_open_workspace_at_rest run "close the workspace of";
  _ ← require (is_some (workspace_id run))
        (DomainError.RunTransitionNotAllowed (status run) "close the workspace it never had of");
  Ok (run <| workspace_closed_at := Some closed_at |>).

Definition record_closed_workspace (run : t) (workspace : string) (closed_at : Z) : Result t :=
  Ok (if bool_decide (workspace_id run = Some workspace) && is_none (workspace_closed_at run)
      then run <| workspace_closed_at := Some closed_at |> else run).

Definition record_close_failure (run : t) (message : string) : Result t :=
  _ ← require_open_workspace_at_rest run "record a failed close of the workspace of";
  Ok (run <| last_error := Some message |>).

Definition record_cleanup_failure (run : t) (message : string) : Result t :=
  Ok (run <| last_error := Some message |>).
End TaskRun.
Abbreviation TaskRun := TaskRun.t.

(** ** The record of a change of side *)

(** The payload of [run_unfinished_changed]. *)
Module UnfinishedChanged.
Record t : Set := mk { unfinished : bool; from : RunStatus; to : RunStatus }.
End UnfinishedChanged.
Abbreviation UnfinishedChanged := UnfinishedChanged.t.

Definition unfinished_change (from to : RunStatus) : option UnfinishedChanged :=
  then_some (negb (Bool.eqb (RunStatus.is_unfinished from) (RunStatus.is_unfinished to)))
    (UnfinishedChanged.mk (RunStatus.is_unfinished to) from to).

(** ** The machine *)
Module RunInv.

(** The commands that move a run. *)
Inductive op : Set :=
  | StartProvisioning (plan : RunPlan)
  | AttachWorkspace (workspace : string)
  | ReopenWorkspace (workspace : string)
  | MarkRunning
  | FinishSession (exit_code : option Z) (receipt : bool)
  | Accept (commit : CommitSha)
  | Reject (commit : option CommitSha) (reason : option string) (resumable : bool)
  | CloseSatisfied
  | DecideSatisfied (reason : string)
  | RestartValidation
  | DecideLanding (to : RunStatus) (reason : string)
  | ParkAfterRecheck (reason : string)
  | ParkAfterE2e (reason : string)
  | ParkLive (reason : string)
  | ParkForReplan (reason : string)
  | ParkForHold (reason : string)
  | EndForReplacement
  | EndForRelease (reason : string)
  | Abandon (message : string)
  | Interrupt
  | BeginIntegration
  | DeferIntegration (reason : string)
  | HoldIntegration (reason : string)
  | FailIntegration (reason : string)
  | AbortIntegration (revert_to : RunStatus) (message : string)
  | HandOverIntegration (revert_to : RunStatus)
  | FinishIntegration (commit : CommitSha)
  | SkipResume (head : CommitSha) (approved : bool)
  | ResolveApprovedResume (head : CommitSha)
  | FinishResume (to : RunStatus) (reason : option string)
  | ExhaustResumes (reason : string)
  | ResumeAfterTriage (instruction : string)
  | HandOffAfterTriage
  | WorkspaceClosed (closed_at : Z)
  | RecordClosedWorkspace (workspace : string) (closed_at : Z)
  | RecordCloseFailure (message : string)
  | RecordCleanupFailure (message : string).

Definition apply (o : op) (r : TaskRun) : Result TaskRun :=
  match o with
  | StartProvisioning plan => TaskRun.start_provisioning r plan
  | AttachWorkspace workspace => TaskRun.attach_workspace r workspace
  | ReopenWorkspace workspace => TaskRun.reopen_workspace r workspace
  | MarkRunning => TaskRun.mark_running r
  | FinishSession exit_code receipt => TaskRun.finish_session r exit_code receipt
  | Accept commit => TaskRun.accept r commit
  | Reject commit reason resumable => TaskRun.reject r commit reason resumable
  | CloseSatisfied => TaskRun.close_satisfied r
  | DecideSatisfied reason => TaskRun.decide_satisfied r reason
  | RestartValidation => TaskRun.restart_validation r
  | DecideLanding to reason => TaskRun.decide_landing r to reason
  | ParkAfterRecheck reason => TaskRun.park_after_recheck r reason
  | ParkAfterE2e reason => TaskRun.park_after_e2e r reason
  | ParkLive reason => TaskRun.park_live r reason
  | ParkForReplan reason => TaskRun.park_for_replan r reason
  | ParkForHold reason => TaskRun.park_for_hold r reason
  | EndForReplacement => TaskRun.end_for_replacement r
  | EndForRelease reason => TaskRun.end_for_release r reason
  | Abandon message => TaskRun.abandon r message
  | Interrupt => TaskRun.interrupt r
  | BeginIntegration => TaskRun.begin_integration r
  | DeferIntegration reason => TaskRun.defer_integration r reason
  | HoldIntegration reason => TaskRun.hold_integration r reason
  | FailIntegration reason => TaskRun.fail_integration r reason
  | AbortIntegration revert_to message => TaskRun.abort_integration r revert_to message
  | HandOverIntegration revert_to => TaskRun.hand_over_integration r revert_to
  | FinishIntegration commit => TaskRun.finish_integration r commit
  | SkipResume head approved => TaskRun.skip_resume r head approved
  | ResolveApprovedResume head => TaskRun.resolve_approved_resume r head
  | FinishResume to reason => TaskRun.finish_resume r to reason
  | ExhaustResumes reason => TaskRun.exhaust_resumes r reason
  | ResumeAfterTriage instruction => TaskRun.resume_after_triage r instruction
  | HandOffAfterTriage => TaskRun.hand_off_after_triage r
  | WorkspaceClosed closed_at => TaskRun.workspace_closed r closed_at
  | RecordClosedWorkspace workspace closed_at => TaskRun.record_closed_workspace r workspace closed_at
  | RecordCloseFailure message => TaskRun.record_close_failure r message
  | RecordCleanupFailure message => TaskRun.record_cleanup_failure r message
  end.

(** A run of commands and the runs it goes through. *)
Definition run (ops : list op) (r : TaskRun) : Result TaskRun :=
  foldl (λ x o, x ≫= apply o) (Ok r) ops.

(** The statuses a command may take a run to, another than its own. *)
Definition successors (s : RunStatus) : list RunStatus :=
  match s with
  | RunStatus.Claimed => [RunStatus.Starting; RunStatus.NeedsSession; RunStatus.Interrupted]
  | RunStatus.Starting =>
      [RunStatus.Running; RunStatus.Validating; RunStatus.Failed; RunStatus.NeedsSession;
       RunStatus.Interrupted]
  | RunStatus.Running =>
      [RunStatus.Validating; RunStatus.Failed; RunStatus.NeedsSession; RunStatus.Interrupted]
  | RunStatus.Validating =>
      [RunStatus.AwaitingIntegration; RunStatus.NeedsSession; RunStatus.Failed;
       RunStatus.Succeeded; RunStatus.Interrupted]
  | RunStatus.AwaitingIntegration =>
      [RunStatus.Validating; RunStatus.Integrating; RunStatus.NeedsSession; RunStatus.Failed]
  | RunStatus.Integrating =>
      [RunStatus.Integrated; RunStatus.AwaitingIntegration; RunStatus.NeedsSession;
       RunStatus.Failed]
  | RunStatus.NeedsSession =>
      [RunStatus.Integrating; RunStatus.Validating; RunStatus.AwaitingIntegration;
       RunStatus.Failed; RunStatus.Replaced]
  | RunStatus.Failed => [RunStatus.NeedsSession; RunStatus.Validating]
  | RunStatus.Interrupted => [RunStatus.NeedsSession; RunStatus.Failed]
  | RunStatus.Integrated | RunStatus.Succeeded | RunStatus.Replaced => []
  end.

(** [open_command H] opens a command that succeeded into its guards and the
    run it leaves. *)
Ltac open_command H :=
  unfold TaskRun.start_provisioning, TaskRun.attach_workspace, TaskRun.reopen_workspace,
    TaskRun.check_reopenable, TaskRun.mark_running, TaskRun.finish_session, TaskRun.accept,
    TaskRun.reject, TaskRun.close_satisfied, TaskRun.decide_satisfied, TaskRun.restart_validation,
    TaskRun.decide_landing, TaskRun.park_after_recheck, TaskRun.park_after_e2e, TaskRun.park_live,
    TaskRun.park_for_replan, TaskRun.park_for_hold, TaskRun.end_for_replacement,
    TaskRun.end_for_release, TaskRun.abandon, TaskRun.interrupt, TaskRun.begin_integration,
    TaskRun.defer_integration, TaskRun.hold_integration, TaskRun.fail_integration,
    TaskRun.abort_integration, TaskRun.leave_integration, TaskRun.hand_over_integration,
    TaskRun.finish_integration, TaskRun.skip_resume, TaskRun.resolve_approved_resume,
    TaskRun.finish_resume, TaskRun.exhaust_resumes, TaskRun.check_resumable,
    TaskRun.resume_after_triage, TaskRun.check_triageable, TaskRun.hand_off_after_triage,
    TaskRun.workspace_closed, TaskRun.record_closed_workspace, TaskRun.record_close_failure,
    TaskRun.record_cleanup_failure, TaskRun.require_open_workspace_at_rest,
    TaskRun.require_status, TaskRun.UNFINISHED in H.

(** A status in a list of a guard is one of them. *)
Ltac in_cases :=
  repeat match goal with
  | H : _ ∈ _ :: _ |- _ => apply elem_of_cons in H as [H|H]
  | H : _ ∈ [] |- _ => by apply not_elem_of_nil in H
  end.

Lemma run_run_Ok_cons o ops r r' :
  run (o :: ops) r = Ok r' ↔ ∃ r1, apply o r = Ok r1 ∧ run ops r1 = Ok r'.
Proof.
  unfold run. simpl. destruct (apply o r) as [r1|e]; [naive_solver|].
  assert (foldl (λ x o, x ≫= apply o) (Err e) ops = Err e) as ->
    by (induction ops; simpl; auto).
  naive_solver.
Qed.

Lemma run_run_invariant (P : TaskRun → Prop) ops r r' :
  (∀ o r r', P r → apply o r = Ok r' → P r') → P r → run ops r = Ok r' → P r'.
Proof.
  intros Hstep. revert r. induction ops as [|o ops IH]; intros r HP Hrun.
  { by injection Hrun as <-. }
  apply run_run_Ok_cons in Hrun as (r1 & Ho & Hrun). eauto.
Qed.

(** The status after a command, by the command. *)
Definition target (o : op) (s : RunStatus) : RunStatus :=
  match o with
  | StartProvisioning _ => RunStatus.Starting
  | MarkRunning => RunStatus.Running
  | FinishSession exit_code receipt => TaskRun.session_end_status exit_code receipt
  | Accept _ => RunStatus.AwaitingIntegration
  | Reject _ _ resumable => if resumable then RunStatus.NeedsSession else RunStatus.Failed
  | CloseSatisfied => RunStatus.Succeeded
  | DecideSatisfied _ | EndForRelease _ | FailIntegration _ | ExhaustResumes _ => RunStatus.Failed
  | RestartValidation | HandOffAfterTriage => RunStatus.Validating
  | DecideLanding to _ | FinishResume to _ => to
  | ParkAfterRecheck _ | ParkAfterE2e _ | ParkLive _ | ParkForReplan _ | ParkForHold _
  | DeferIntegration _ | ResumeAfterTriage _ => RunStatus.NeedsSession
  | EndForReplacement => RunStatus.Replaced
  | Interrupt =>
      match s with
      | RunStatus.AwaitingIntegration | RunStatus.Integrating => RunStatus.AwaitingIntegration
      | _ => RunStatus.Interrupted
      end
  | BeginIntegration => RunStatus.Integrating
  | HoldIntegration _ => RunStatus.AwaitingIntegration
  | AbortIntegration revert_to _ | HandOverIntegration revert_to => revert_to
  | FinishIntegration _ => RunStatus.Integrated
  | SkipResume _ approved => if approved then s else RunStatus.Validating
  | _ => s
  end.

Lemma apply_target o r r' :
  apply o r = Ok r' →
  TaskRun.status r' = target o (TaskRun.status r) ∧
  (target o (TaskRun.status r) = TaskRun.status r ∨
   target o (TaskRun.status r) ∈ successors (TaskRun.status r)).
Proof.
  intros Hok. destruct o; simpl in Hok; open_command Hok.
  all: try (case_bool_decide; [|]).
  all: res_inv; bool_split.
  all: repeat match goal with
    | H : (if ?b then _ else _) = Ok _ |- _ => destruct b; res_inv; bool_split
    end.
  all: in_cases; simpl.
  all: try match goal with H : TaskRun.status _ = _ |- _ => rewrite H in * end.
  all: simpl; unfold TaskRun.session_end_status; try (destruct exit_code as [code|]).
  all: repeat case_match; simpl in *; subst.
  all: split; try done; try (by left); try (right; set_solver).
Qed.

(** *** What a run claimed anew keeps *)
Definition provisioned (r : TaskRun) : Prop :=
  TaskRun.repo_path r ≠ None ∧ TaskRun.run_dir r ≠ None ∧ TaskRun.branch r ≠ None ∧
  TaskRun.worktree_path r ≠ None ∧ TaskRun.receipt_path r ≠ None ∧ TaskRun.log_path r ≠ None.
Definition bare (r : TaskRun) : Prop :=
  TaskRun.repo_path r = None ∧ TaskRun.run_dir r = None ∧ TaskRun.branch r = None ∧
  TaskRun.worktree_path r = None ∧ TaskRun.receipt_path r = None ∧ TaskRun.log_path r = None ∧
  TaskRun.workspace_id r = None ∧ TaskRun.result_commit r = None.

Definition status_wf (r : TaskRun) : Prop :=
  match TaskRun.status r with
  | RunStatus.Claimed => bare r
  | RunStatus.Starting | RunStatus.Running => provisioned r
  | RunStatus.Integrated => TaskRun.result_commit r ≠ None
  | RunStatus.Succeeded => TaskRun.result_commit r = None
  | _ => True
  end.
Definition closed_wf (r : TaskRun) : Prop :=
  TaskRun.workspace_closed_at r ≠ None → TaskRun.workspace_id r ≠ None.
Definition wf (r : TaskRun) : Prop := status_wf r ∧ closed_wf r.

Lemma run_new_wf id task base at_ r : TaskRun.new id task base at_ = Ok r →
  wf r ∧ TaskRun.status r = RunStatus.Claimed.
Proof.
  unfold TaskRun.new. intros Hok. res_inv.
  split; [|done]. split; [by split_and!|by intros []].
Qed.

Lemma run_apply_wf o r r' : wf r → apply o r = Ok r' → wf r'.
Proof.
  intros [Hs Hc] Hok. destruct o; simpl in Hok; open_command Hok.
  all: try (case_bool_decide; [|]).
  all: res_inv; bool_split.
  all: repeat match goal with
    | H : (if ?b then _ else _) = Ok _ |- _ => destruct b eqn:?; res_inv; bool_split
    end.
  all: repeat case_match; subst; in_cases; subst; first [destruct r|destruct r']; unfold wf, status_wf, closed_wf in *;
    simpl in *; subst; simpl in *.
  all: unfold TaskRun.session_end_status in *; repeat case_match; simplify_eq/=.
  all: unfold bare, provisioned in *; simpl in *; split; try done; try tauto.
  all: try (intros _; congruence).
  all: match goal with H : is_some ?o = true |- _ => by destruct o | _ => idtac end.
Qed.

(** The commands that end the landing name its commit. *)
Lemma apply_integrated o r r' :
  apply o r = Ok r' → TaskRun.status r' = RunStatus.Integrated →
  (∃ commit, o = FinishIntegration commit ∧ TaskRun.status r = RunStatus.Integrating ∧
    TaskRun.result_commit r' = Some commit ∧ TaskRun.last_error r' = None) ∨
  (TaskRun.status r = RunStatus.Integrated ∧ TaskRun.result_commit r' = TaskRun.result_commit r).
Proof.
  intros Hok Hint. pose proof (apply_target _ _ _ Hok) as [Ht _]. rewrite Hint in Ht. symmetry in Ht.
  destruct o; simpl in Hok; open_command Hok.
  all: try (case_bool_decide; [|]).
  all: res_inv; bool_split.
  all: repeat match goal with
    | H : (if ?b then _ else _) = Ok _ |- _ => destruct b eqn:?; res_inv; bool_split
    end.
  all: in_cases; simpl in *; try congruence; subst; try naive_solver.
  all: unfold TaskRun.session_end_status in *; repeat case_match; simplify_eq/=; naive_solver.
Qed.
End RunInv.

(** ** Theorems *)

(** C14: the state machine of a run. The commands take a run from a status to
    another exactly along the table [successors]: claimed, starting, running,
    validating, awaiting integration, integrating, integrated, with the parks
    in [needs_session], the failures, the interruptions and the returns from
    them; every pair of the table is taken by some command on any run in that
    status, and no command takes another. *)
Theorem run_moves_exactly r s :
  s ≠ TaskRun.status r →
  (∃ o r', RunInv.apply o r = Ok r' ∧ TaskRun.status r' = s) ↔
  s ∈ RunInv.successors (TaskRun.status r).
Proof.
  intros Hne. split.
  - intros (o & r' & Hok & <-). apply RunInv.apply_target in Hok as [Ht [Hsame|Hin]]; congruence.
  - assert (∀ o r', RunInv.apply o r = Ok r' → TaskRun.status r' = s →
      ∃ o r', RunInv.apply o r = Ok r' ∧ TaskRun.status r' = s) as Hex by eauto.
    destruct r as [i ti st rp ap wm bc br wt ws rc lg res rpa rd le wc ca]; simpl in *.
    destruct st; simpl; intros Hin; RunInv.in_cases; subst.
    + by eapply (Hex (RunInv.StartProvisioning (RunPlan.mk "" "" "" "" "" ""))).
    + by eapply (Hex (RunInv.ParkForHold "")).
    + by eapply (Hex RunInv.Interrupt).
    + by eapply (Hex RunInv.MarkRunning).
    + by eapply (Hex (RunInv.FinishSession None true)).
    + by eapply (Hex (RunInv.FinishSession (Some 1%Z) false)).
    + by eapply (Hex (RunInv.ParkForHold "")).
    + by eapply (Hex RunInv.Interrupt).
    + by eapply (Hex (RunInv.FinishSession None true)).
    + by eapply (Hex (RunInv.FinishSession (Some 1%Z) false)).
    + by eapply (Hex (RunInv.ParkForHold "")).
    + by eapply (Hex RunInv.Interrupt).
    + by eapply (Hex (RunInv.Accept (CommitSha.wrap ""))).
    + by eapply (Hex (RunInv.ParkForHold "")).
    + by eapply (Hex (RunInv.DecideSatisfied "")).
    + by eapply (Hex RunInv.CloseSatisfied).
    + by eapply (Hex RunInv.Interrupt).
    + by eapply (Hex RunInv.RestartValidation).
    + by eapply (Hex RunInv.BeginIntegration).
    + by eapply (Hex (RunInv.ParkForHold "")).
    + by eapply (Hex (RunInv.EndForRelease "")).
    + by eapply (Hex (RunInv.FinishIntegration (CommitSha.wrap ""))).
    + by eapply (Hex (RunInv.HoldIntegration "")).
    + by eapply (Hex (RunInv.DeferIntegration "")).
    + by eapply (Hex (RunInv.FailIntegration "")).
    + by eapply (Hex RunInv.BeginIntegration).
    + by eapply (Hex (RunInv.SkipResume (CommitSha.wrap "") false)).
    + by eapply (Hex (RunInv.FinishResume RunStatus.AwaitingIntegration None)).
    + by eapply (Hex (RunInv.ExhaustResumes "")).
    + by eapply (Hex RunInv.EndForReplacement).
    + by eapply (Hex (RunInv.ResumeAfterTriage "")).
    + by eapply (Hex RunInv.HandOffAfterTriage).
    + by eapply (Hex (RunInv.ResumeAfterTriage "")).
    + by eapply (Hex (RunInv.EndForRelease "")).
Qed.

Definition sample_commit : CommitSha := CommitSha.wrap "0123456789abcdef0123456789abcdef01234567".
Definition sample_run : TaskRun :=
  TaskRun.mk (RunId.wrap "r1") (TaskId.new 7) RunStatus.Claimed Provider.Claude Provider.Claude
    WorkerMode.Headless sample_commit None None None None None None None None None None "t0".

Lemma run_moves_exactly_witness :
  ∃ o r', RunInv.apply o sample_run = Ok r' ∧ TaskRun.status r' = RunStatus.Starting.
Proof.
  apply (run_moves_exactly sample_run RunStatus.Starting); [discriminate|].
  simpl. left.
Defined.

(** A refused command leaves the reason every caller reads: the status it
    found, the run's own. *)
Theorem run_refusal_names_status o r e :
  RunInv.apply o r = Err e →
  ∃ operation, e = DomainError.RunTransitionNotAllowed (TaskRun.status r) operation.
Proof.
  intros Herr. destruct o; simpl in Herr; RunInv.open_command Herr; unfold require in Herr;
    try discriminate; repeat (case_match; simpl in Herr; try discriminate); injection Herr as <-; eauto.
Qed.

Lemma run_refusal_names_status_witness :
  RunInv.apply RunInv.BeginIntegration sample_run
  = Err (DomainError.RunTransitionNotAllowed RunStatus.Claimed "integrate") ∧
  ∃ operation, DomainError.RunTransitionNotAllowed RunStatus.Claimed "integrate"
    = DomainError.RunTransitionNotAllowed (TaskRun.status sample_run) operation.
Proof.
  split; [reflexivity|].
  apply (run_refusal_names_status RunInv.BeginIntegration sample_run). reflexivity.
Defined.

(** A run that landed, closed as satisfied or was replaced is over: no
    sequence of commands moves it to another status. *)
Theorem ended_run_stays r ops r' :
  RunInv.successors (TaskRun.status r) = [] → RunInv.run ops r = Ok r' →
  TaskRun.status r' = TaskRun.status r.
Proof.
  intros Hend Hrun.
  apply (RunInv.run_run_invariant (λ x, TaskRun.status x = TaskRun.status r) ops r); [|done|done].
  intros o x x' Hx Hok. apply RunInv.apply_target in Hok as [-> Ht]. rewrite Hx in *.
  destruct Ht as [->|Hin]; [done|]. rewrite Hend in Hin. by apply not_elem_of_nil in Hin.
Qed.

Lemma ended_run_stays_witness :
  ∃ r', RunInv.run [RunInv.Abandon "cleanup"; RunInv.RecordCleanupFailure "branch"]
          (sample_run <| TaskRun.status := RunStatus.Integrated |>) = Ok r' ∧
    TaskRun.status r' = RunStatus.Integrated.
Proof.
  eexists. split; [reflexivity|].
  refine (ended_run_stays (sample_run <| TaskRun.status := RunStatus.Integrated |>)
    [RunInv.Abandon "cleanup"; RunInv.RecordCleanupFailure "branch"] _ _ _); reflexivity.
Defined.

(** A run claimed for a task keeps its shape through any sequence of
    commands: while claimed nothing is provisioned, while starting or running
    every path of its plan is there, once integrated it names the landed
    commit, closed as satisfied it names none, and a session is recorded as
    closed only when there was one. *)
Theorem run_wf_throughout id task base claimed_at r ops r' :
  TaskRun.new id task base claimed_at = Ok r → RunInv.run ops r = Ok r' → RunInv.wf r'.
Proof.
  intros [Hwf _]%RunInv.run_new_wf Hrun.
  by eapply (RunInv.run_run_invariant RunInv.wf); eauto using RunInv.run_apply_wf.
Qed.

Definition sample_claimed : Task := Eval vm_compute in
  sample_task <| Task.status := TaskStatus.InProgress |>.

Definition sample_plan : RunPlan :=
  RunPlan.mk "/r" "/q/runs/r1" "dagq/r1" "/q/w" "/q/c" "/q/l".
Definition sample_start : list RunInv.op := [RunInv.StartProvisioning sample_plan; RunInv.MarkRunning].
Definition sample_running : TaskRun := Eval vm_compute in
  match RunInv.run sample_start sample_run with Ok r => r | Err _ => sample_run end.

Lemma run_wf_throughout_witness :
  RunInv.run sample_start sample_run = Ok sample_running ∧ RunInv.provisioned sample_running.
Proof.
  assert (RunInv.run sample_start sample_run = Ok sample_running) as Hrun
    by (vm_compute; reflexivity).
  split; [exact Hrun|].
  apply (run_wf_throughout (RunId.wrap "r1") sample_claimed sample_commit "t0" sample_run
    sample_start sample_running); [vm_compute; reflexivity|exact Hrun].
Defined.

(** C15: the only way to [integrated] is the end of a landing: a run that a
    sequence of commands integrated went through [finish_integration] while
    it was integrating, and it names the commit that command landed. *)
Theorem integrated_only_by_landing id task base claimed_at r ops r' :
  TaskRun.new id task base claimed_at = Ok r → RunInv.run ops r = Ok r' →
  TaskRun.status r' = RunStatus.Integrated →
  ∃ before commit after r1,
    ops = before ++ RunInv.FinishIntegration commit :: after ∧
    RunInv.run before r = Ok r1 ∧ TaskRun.status r1 = RunStatus.Integrating ∧
    TaskRun.result_commit r' = Some commit.
Proof.
  intros [_ Hclaimed]%RunInv.run_new_wf.
  assert (TaskRun.status r ≠ RunStatus.Integrated) as Hstart by (rewrite Hclaimed; done).
  clear Hclaimed. revert r' . induction ops as [|o ops IH] using rev_ind; intros r' Hrun Hint.
  { injection Hrun as <-. congruence. }
  unfold RunInv.run in Hrun. rewrite foldl_app in Hrun. simpl in Hrun.
  apply bind_Ok in Hrun as (r1 & Hbefore & Hok). fold (RunInv.run ops r) in Hbefore.
  destruct (RunInv.apply_integrated _ _ _ Hok Hint) as [(commit & -> & Hst & Hres & _)|[Hst Hres]].
  - by exists ops, commit, [], r1.
  - destruct (IH r1 Hbefore Hst) as (before & commit & after & r2 & -> & ? & ? & ?).
    exists before, commit, (after ++ [o]), r2. rewrite <-app_assoc. split_and!; [done..|congruence].
Qed.

Definition sample_landing : list RunInv.op :=
  sample_start ++ [RunInv.FinishSession (Some 0%Z) true; RunInv.Accept sample_commit;
    RunInv.BeginIntegration; RunInv.FinishIntegration sample_commit].
Definition sample_landed : TaskRun := Eval vm_compute in
  match RunInv.run sample_landing sample_run with Ok r => r | Err _ => sample_run end.

Lemma integrated_only_by_landing_witness :
  RunInv.run sample_landing sample_run = Ok sample_landed ∧
  ∃ before commit after r1,
    sample_landing = before ++ RunInv.FinishIntegration commit :: after ∧
    RunInv.run before sample_run = Ok r1 ∧ TaskRun.status r1 = RunStatus.Integrating ∧
    TaskRun.result_commit sample_landed = Some commit.
Proof.
  assert (RunInv.run sample_landing sample_run = Ok sample_landed) as Hrun
    by (vm_compute; reflexivity).
  split; [exact Hrun|].
  apply (integrated_only_by_landing (RunId.wrap "r1") sample_claimed sample_commit "t0" sample_run
    sample_landing sample_landed); [vm_compute; reflexivity|exact Hrun|vm_compute; reflexivity].
Defined.

(** The [run_unfinished_changed] records of the statuses a run goes through,
    one after each saved transition. *)
Fixpoint unfinished_changes (from : RunStatus) (saved : list RunStatus) : list UnfinishedChanged :=
  match saved with
  | [] => []
  | to :: rest => option_list (unfinished_change from to) ++ unfinished_changes to rest
  end.

(** The measurement's fold of the candidates is right: over any sequence
    of saved statuses, the records of [unfinished_change] replayed from where
    the run began - each must change the side the fold is on - end on the
    side the run is on. *)
Theorem unfinished_changes_replay from saved :
  foldl (λ side change,
      match side with
      | Some side =>
          if bool_decide (UnfinishedChanged.unfinished change = negb side)
          then Some (UnfinishedChanged.unfinished change) else None
      | None => None
      end)
    (Some (RunStatus.is_unfinished from)) (unfinished_changes from saved)
  = Some (RunStatus.is_unfinished (unwrap_or (last saved) from)).
Proof.
  revert from. induction saved as [|to saved IH]; intros from; [done|].
  cbn [unfinished_changes]. rewrite foldl_app, last_cons. unfold unfinished_change, then_some.
  assert (unwrap_or (match last saved with Some y => Some y | None => Some to end) from
    = unwrap_or (last saved) to) as -> by (by destruct (last saved)).
  rewrite <-IH. f_equal.
  destruct (RunStatus.is_unfinished from), (RunStatus.is_unfinished to); reflexivity.
Qed.

(** *** The claim *)
Lemma commit_sha_parse_Ok s f c :
  commit_sha_parse s f = Ok c ↔
  c = CommitSha.wrap s ∧ (String.length s = 40 ∨ String.length s = 64) ∧
  Forall (λ b, hex_digit b = true) (bytes s).
Proof.
  unfold commit_sha_parse. rewrite <-!Nat.eqb_eq.
  assert (forallb hex_digit (bytes s) = true ↔ Forall (λ b, hex_digit b = true) (bytes s)) as Hf.
  { rewrite forallb_forall, Forall_forall. by setoid_rewrite <-list_elem_of_In. }
  destruct (String.length s =? 40), (String.length s =? 64), (forallb hex_digit (bytes s)) eqn:Hb;
    simpl; naive_solver.
Qed.

Lemma bytes_to_lower s : bytes (to_ascii_lowercase s) = byte_lower <$> bytes s.
Proof. unfold to_ascii_lowercase, bytes. by rewrite String.list_ascii_of_string_of_list_ascii. Qed.

Lemma length_bytes s : String.length s = length (bytes s).
Proof. unfold bytes. induction s; simpl; auto. Qed.

Lemma hex_digit_lower b : hex_digit b = true → hex_digit (byte_lower b) = true.
Proof. destruct b as [[] [] [] [] [] [] [] []]; by vm_compute. Qed.

(** A claim starts a run. Whenever a task is claimed, a run of it is
    made, on the commit of main the supervisor read (in lowercase, which is
    again a full object ID), claimed and unprovisioned, of the task claimed
    and with the provider and mode of its worker; a task that is not in
    progress gets no run. *)
Theorem claim_starts_run id task task' base field claimed_at :
  commit_sha_parse (CommitSha.as_str base) field = Ok base →
  (Task.claim task = Ok task' →
    ∃ r, TaskRun.new id task' base claimed_at = Ok r ∧
      TaskRun.status r = RunStatus.Claimed ∧ RunInv.bare r ∧
      TaskRun.task_id r = Task.id task ∧
      TaskRun.requested_provider r = Worker.provider (Task.worker task) ∧
      TaskRun.actual_provider r = Worker.provider (Task.worker task) ∧
      TaskRun.worker_mode r = Worker.mode (Task.worker task) ∧
      CommitSha.as_str (TaskRun.base_commit r) = to_ascii_lowercase (CommitSha.as_str base)) ∧
  (Task.status task ≠ TaskStatus.InProgress →
    TaskRun.new id task base claimed_at
    = Err (DomainError.RunOfUnclaimedTask (Task.id task) (Task.status task))).
Proof.
  intros (_ & Hlen & Hhex)%commit_sha_parse_Ok. split.
  - intros [_ ->]%TaskInv.claim_inv. unfold TaskRun.new. simpl.
    assert (commit_sha_parse (to_ascii_lowercase (CommitSha.as_str base)) "base commit"
      = Ok (CommitSha.wrap (to_ascii_lowercase (CommitSha.as_str base)))) as ->.
    { apply commit_sha_parse_Ok. split; [done|].
      rewrite length_bytes, bytes_to_lower, length_fmap, <-length_bytes. split; [done|].
      apply Forall_fmap. eapply Forall_impl; [done|]. apply hex_digit_lower. }
    eexists. split; [reflexivity|]. by split_and!.
  - intros Hst. unfold TaskRun.new. by rewrite bool_decide_false.
Qed.

Definition sample_ready : Task := Eval vm_compute in sample_task <| Task.status := TaskStatus.Ready |>.

Lemma claim_starts_run_witness :
  Task.claim sample_ready = Ok sample_claimed ∧
  ∃ r, TaskRun.new (RunId.wrap "r1") sample_claimed sample_commit "t0" = Ok r ∧
    TaskRun.task_id r = TaskId.new 7.
Proof.
  assert (Task.claim sample_ready = Ok sample_claimed) as Hclaim by (vm_compute; reflexivity).
  split; [exact Hclaim|].
  assert (commit_sha_parse (CommitSha.as_str sample_commit) "base commit" = Ok sample_commit)
    as Hbase by (vm_compute; reflexivity).
  destruct (claim_starts_run (RunId.wrap "r1") sample_ready sample_claimed sample_commit
    "base commit" "t0" Hbase) as [Hrun _].
  destruct (Hrun Hclaim) as (r & Hr & _ & _ & Hid & _). exists r. split; [exact Hr|exact Hid].
Defined.
