(* ===== verification/ClaimOrder.v ===== *)
(** * The order of claims and slots

    Where a ready task stands among the others and what a free slot takes:
    the rank of a task ([ClaimRank] of [src/src/domain/mod.rs]), the class
    limits and the aging across the execution classes
    ([src/src/domain/claim_order.rs]), the line of a fill pass
    ([src/src/domain/slot_order.rs]), the room the landing queue leaves
    ([src/src/domain/light_slots.rs]), the spacing of claims
    ([src/src/domain/claim_spacing.rs]) and the settings of a supervisor
    ([src/src/domain/slot_limits.rs]).

    Times are [i64] milliseconds as [Z]; counts are [usize] as [N]. *)
From S2P Require Import Prelude Text Vocab Ids Errors Labels.

(** ** The rank of a claim *)
Module ClaimRank.
Record t : Set := mk { priority : Priority; unblocks : N; id : TaskId }.
Definition new (effective_priority : Priority) (unblocks : N) (id : TaskId) : t :=
  mk effective_priority unblocks id.
(** The derived [Ord], field by field, with [Reverse] on the first two. *)
Definition key (self : t) : list Z :=
  [- Priority.as_i64 (priority self); - Z.of_N (unblocks self); TaskId.as_i64 (id self)]%Z.
Definition leb (a b : t) : bool := lex_leb (key a) (key b).
End ClaimRank.
Abbreviation ClaimRank := ClaimRank.t.

(** ** Candidates and class limits *)
Definition SPIKE_LIMIT : string := "spike_limit".
Definition LIGHT_ROOM : string := "light_room".
Definition DEFAULT_CLASS_AGING_SECS : N := 3600.
Definition LIGHT_ROOM_KEPT_SECS : Z := 300.

Module Candidate.
Record t : Set := mk {
  id : TaskId;
  class : ExecutionClass;
  priority : Priority;
  ready_at_ms : option Z;
}.
#[global] Instance eq_dec : EqDecision t.
Proof. solve_decision. Defined.
End Candidate.
Abbreviation Candidate := Candidate.t.

Module ClassLimits.
Record t : Set := mk { max_spikes : option N; running_spikes : N }.

Definition limit (self : t) (class : ExecutionClass) : option string :=
  match class with
  | ExecutionClass.Spike =>
      match max_spikes self with
      | Some max => if (max <=? running_spikes self)%N then Some SPIKE_LIMIT else None
      | None => None
      end
  | ExecutionClass.Implementation => None
  end.

Definition held (self : t) : list ExecutionClass :=
  List.filter (λ class, is_some (limit self class))
    [ExecutionClass.Implementation; ExecutionClass.Spike].
End ClassLimits.
Abbreviation ClassLimits := ClassLimits.t.

Module Arranged.
Record t : Set := mk {
  order : list TaskId;
  aged : list TaskId;
  limited : list (TaskId * string);
}.
End Arranged.
Abbreviation Arranged := Arranged.t.

(** ** Aging *)

(** [i64::try_from(aging_secs).unwrap_or(i64::MAX).saturating_mul(1000)]. *)
Definition i64_of_usize (n : N) : Z := Z.min i64_max (Z.of_N n).
Definition overdue (waited_ms : Z) (aging_secs : N) : bool :=
  (saturate_i64 (i64_of_usize aging_secs * 1000) <? waited_ms)%Z.

Section arrange.
  Context (now_ms : Z) (aging_secs : N).

(** The closure [wait]: how long past the threshold the candidate waited. *)
Definition wait (candidate : Candidate) : option Z :=
  match Candidate.ready_at_ms candidate with
  | Some at_ =>
      let waited := saturate_i64 (now_ms - at_) in
      if overdue waited aging_secs then Some waited else None
  | None => None
  end.

Definition of_class (class : ExecutionClass) (candidate : Candidate) : bool :=
  bool_decide (Candidate.class candidate = class).

(** [Iterator::max] of a list of waits. *)
Definition max_of (waits : list Z) : option Z :=
  foldr (λ w longest, match longest with Some l => Some (Z.max w l) | None => Some w end)
    None waits.

Definition class_wait (tier : list Candidate) (class : ExecutionClass) : option Z :=
  max_of (omap wait (List.filter (of_class class) tier)).

(** The class that goes first in a tier of [priority]. *)
Definition first_class (priority : Priority) (tier : list Candidate) : option ExecutionClass :=
  if bool_decide (priority = Priority.Interrupt) then None else
  match class_wait tier ExecutionClass.Implementation,
        class_wait tier ExecutionClass.Spike with
  | Some implementation, Some spike =>
      if (spike <? implementation)%Z then Some ExecutionClass.Implementation
      else if (implementation <? spike)%Z then Some ExecutionClass.Spike
      else None
  | Some _, None => Some ExecutionClass.Implementation
  | None, Some _ => Some ExecutionClass.Spike
  | None, None => None
  end.

(** [class]'s candidates, then the others. *)
Definition class_ahead (class : ExecutionClass) (tier : list Candidate) : list Candidate :=
  List.filter (of_class class) tier ++ List.filter (negb ∘ of_class class) tier.

(** [Iterator::position]. *)
Fixpoint position {A} (p : A → bool) (l : list A) : option nat :=
  match l with
  | [] => None
  | x :: l' => if p x then Some 0 else S <$> position p l'
  end.

(** The tasks of the arranged tier whose index is less than it was. *)
Definition moved_ahead (tier arranged : list Candidate) : list TaskId :=
  omap (λ '(index, candidate),
      match position
              (λ c, bool_decide (Candidate.id c = Candidate.id candidate)) tier with
      | Some was => if index <? was then Some (Candidate.id candidate) else None
      | None => None
      end)
    (imap pair arranged).

(** One turn of the loop: the candidates of a tier in their new order and the
    tasks that moved ahead. *)
Definition arrange_tier (priority : Priority) (tier : list Candidate) :
    list Candidate * list TaskId :=
  match first_class priority tier with
  | Some class =>
      let arranged := class_ahead class tier in (arranged, moved_ahead tier arranged)
  | None => (tier, [])
  end.

(** [tier_end - tier_start]: the candidates of [kept]'s first priority. *)
Definition tier_len (priority : Priority) (kept : list Candidate) : nat :=
  unwrap_or
    (position (λ c, negb (bool_decide (Candidate.priority c = priority))) kept)
    (length kept).

(** The loop over the tiers; [length kept] turns are enough, since each turn
    takes one candidate at least. *)
Fixpoint arrange_tiers (fuel : nat) (kept : list Candidate) :
    list Candidate * list TaskId :=
  match fuel, kept with
  | S fuel, first :: _ =>
      let priority := Candidate.priority first in
      let n := tier_len priority kept in
      let '(tier, aged) := arrange_tier priority (take n kept) in
      let '(rest, aged') := arrange_tiers fuel (drop n kept) in
      (tier ++ rest, aged ++ aged')
  | _, _ => ([], [])
  end.
End arrange.

Definition kept_of (excluded : gset TaskId) (limits : ClassLimits)
    (candidates : list Candidate) : list Candidate :=
  List.filter (λ c, bool_decide (Candidate.id c ∉ excluded)
    && is_none (ClassLimits.limit limits (Candidate.class c))) candidates.

Definition limited_of (excluded : gset TaskId) (limits : ClassLimits)
    (candidates : list Candidate) : list (TaskId * string) :=
  omap (λ c,
    if bool_decide (Candidate.id c ∈ excluded) then None
    else pair (Candidate.id c) <$> ClassLimits.limit limits (Candidate.class c)) candidates.

Definition arrange (candidates : list Candidate) (excluded : gset TaskId)
    (limits : ClassLimits) (now_ms : Z) (aging_secs : N) : Arranged :=
  let kept := kept_of excluded limits candidates in
  let '(order, aged) := arrange_tiers now_ms aging_secs (length kept) kept in
  Arranged.mk (Candidate.id <$> order) aged (limited_of excluded limits candidates).

(** ** What a pass makes of an order's deferral *)
Module ClassDeferralStep.
Inductive t : Set := Open | Superseded | Ended (why : string).
#[global] Instance eq_dec : EqDecision t.
Proof. solve_decision. Defined.
End ClassDeferralStep.
Abbreviation ClassDeferralStep := ClassDeferralStep.t.

Definition class_deferral_step (why : string) (now : option string)
    (candidate passed : bool) (normal_secs : option Z) : ClassDeferralStep :=
  let kept :=
    bool_decide (why = LIGHT_ROOM) && is_none now
    && is_some_and normal_secs (λ secs, (secs <? LIGHT_ROOM_KEPT_SECS)%Z) in
  if bool_decide (now = Some why) || (candidate && passed && kept) then ClassDeferralStep.Open
  else if candidate && negb passed then ClassDeferralStep.Superseded
  else if candidate then ClassDeferralStep.Ended "cleared"
  else ClassDeferralStep.Ended "not_candidate".

(** ** The line of a fill pass *)
Module SlotKind.
Inductive t : Set := Resume | Recovery | Claim.
#[global] Instance eq_dec : EqDecision t.
Proof. solve_decision. Defined.
(** The derived [Ord]: the order of the variants. *)
Definition index (self : t) : Z :=
  match self with Resume => 0 | Recovery => 1 | Claim => 2 end.
End SlotKind.
Abbreviation SlotKind := SlotKind.t.

Module SlotCandidate.
Record t {T : Type} : Type := mk { kind : SlotKind; priority : Priority; item : T }.
Arguments t : clear implicits.
Arguments mk {T}.
End SlotCandidate.
Abbreviation SlotCandidate := SlotCandidate.t.

Definition claims (order : list TaskId) (effective : gmap TaskId Priority) :
    list (SlotCandidate TaskId) :=
  omap (λ id, (λ p, SlotCandidate.mk SlotKind.Claim p id) <$> effective !! id) order.

Definition slot_key {T} (candidate : SlotCandidate T) : list Z :=
  [- Priority.as_i64 (SlotCandidate.priority candidate);
   SlotKind.index (SlotCandidate.kind candidate)]%Z.

Definition slot_order {T} (candidates : list (SlotCandidate T)) : list (SlotCandidate T) :=
  sort_by_key slot_key candidates.

(** ** The room the landing queue leaves *)
Module LightChanges.
Record t : Set := wrap { values : list TaskChange }.
Definition default : t := wrap [].

(** The loop of [new], over [seen = values[..index]] and the rest. *)
Fixpoint check_each (changes : option ChangeSet) (seen rest : list TaskChange) :
    result string unit :=
  match rest with
  | [] => Ok tt
  | value :: rest' =>
      if decide (value ∈ seen) then Err ("names " +:+ TaskChange.as_str value +:+ " twice")
      else match changes with
      | None =>
          Err ("names " +:+ TaskChange.as_str value
               +:+ ", but there is no [tasks] changes to name it in")
      | Some set =>
          if decide (value ∈ ChangeSet.values set)
          then check_each changes (seen ++ [value]) rest'
          else Err ("names " +:+ TaskChange.as_str value
                    +:+ ", which is not one of [tasks] changes")
      end
  end.

Definition new (values : list TaskChange) (changes : option ChangeSet) : result string t :=
  match values with
  | [] => Err "names no change; leave the key out to claim none in the light room"
  | _ => _ ← check_each changes [] values; Ok (wrap values)
  end.

Definition is_empty (self : t) : bool := bool_decide (values self = []).

Definition admits (self : t) (change : option TaskChange) (paths : list string) : bool :=
  is_some_and change (λ change, bool_decide (change ∈ values self))
  && negb (bool_decide (paths = [])).
End LightChanges.
Abbreviation LightChanges := LightChanges.t.

Definition outside_the_slots (landing_queue parallel : N) : N := N.min landing_queue parallel.

Module ClaimRoom.
Inductive t : Set := Any | LightOnly | None.
#[global] Instance eq_dec : EqDecision t.
Proof. solve_decision. Defined.
End ClaimRoom.
Abbreviation ClaimRoom := ClaimRoom.t.

Definition claim_room (used landing_queue parallel returning : N) (light : bool) : ClaimRoom :=
  if (used <? parallel)%N then ClaimRoom.Any
  else if light && (returning =? 0)%N
          && (used - N.min (outside_the_slots landing_queue parallel) used <? parallel)%N
  then ClaimRoom.LightOnly
  else ClaimRoom.None.

(** ** The spacing of claims *)

(** [claim_spacing::in_effect]; [max_load] is read only for whether it is
    set. *)
Definition spacing_in_effect {load : Type} (max_load : option load) (spacing_secs : N) :
    option N :=
  if is_some max_load && (0 <? spacing_secs)%N then Some spacing_secs else None.

Definition next_claim_ms (spacing_secs : option N) (last_claim_ms : option Z) : option Z :=
  spacing ← spacing_secs;
  secs ← then_some (Z.of_N spacing <=? i64_max)%Z (Z.of_N spacing);
  last ← last_claim_ms;
  Some (saturate_i64 (last + saturate_i64 (secs * 1000))).

Definition waits (next : option Z) (now_ms : Z) : bool :=
  is_some_and next (λ next, (now_ms <? next)%Z).

(** [i64::div_euclid] by 1000 rounds down, as [Z.div] does. *)
Definition waited_secs (since_ms now_ms : Z) : Z :=
  Z.max 0 (saturate_i64 (now_ms - since_ms) / 1000).

Definition gated (room : ClaimRoom) (held : bool) (spacing_secs : option N)
    (last_claim_ms : option Z) (now_ms : Z) : ClaimRoom :=
  if held || waits (next_claim_ms spacing_secs last_claim_ms) now_ms
  then ClaimRoom.None else room.

(** ** The limits a supervisor uses *)
Definition DEFAULT_PARALLEL : N := 4.
Definition DEFAULT_RUNTIME_PLANNERS : N := 1.
Definition DEFAULT_MAX_WAITING : N := 4.
Definition DEFAULT_CLAIM_SPACING_SECS : N := 180.

Module SettingSource.
Inductive t : Set := Flag | File | Default.
#[global] Instance eq_dec : EqDecision t.
Proof. solve_decision. Defined.
Definition as_str (self : t) : string :=
  match self with Flag => "flag" | File => "dagq.toml" | Default => "default" end.
Definition parse (text : string) : option t :=
  List.find (λ source, bool_decide (as_str source = text)) [Flag; File; Default].
End SettingSource.
Abbreviation SettingSource := SettingSource.t.

Module Setting.
Record t : Set := mk { value : N; source : SettingSource }.
Definition resolve (flag file : option N) (default : N) : t :=
  match flag, file with
  | Some value, _ => mk value SettingSource.Flag
  | None, Some value => mk value SettingSource.File
  | None, None => mk default SettingSource.Default
  end.
End Setting.
Abbreviation Setting := Setting.t.

Module OptionalSetting.
Record t : Set := mk { value : option N; source : SettingSource }.
Definition from_file (file : option N) : t :=
  mk file (if is_some file then SettingSource.File else SettingSource.Default).
End OptionalSetting.
Abbreviation OptionalSetting := OptionalSetting.t.

Module SupervisorConfig.
Record t : Set := mk {
  parallel : option N;
  max_waiting : option N;
  runtime_planners : option N;
  claim_spacing : option N;
  light_changes : option LightChanges;
  max_spikes : option N;
  class_aging : option N;
  max_investigations : option N;
}.
Definition light (self : t) : LightChanges := unwrap_or (light_changes self) LightChanges.default.
End SupervisorConfig.
Abbreviation SupervisorConfig := SupervisorConfig.t.

Module SlotFlags.
Record t : Set := mk {
  parallel : option N;
  max_waiting : option N;
  runtime_planners : option N;
  claim_spacing : option N;
}.
Definition complete (self : t) : bool :=
  is_some (parallel self) && is_some (max_waiting self)
  && is_some (runtime_planners self) && is_some (claim_spacing self).
End SlotFlags.
Abbreviation SlotFlags := SlotFlags.t.

Module SlotLimits.
Record t : Set := mk {
  parallel : Setting;
  max_waiting : Setting;
  runtime_planners : Setting;
  claim_spacing : Setting;
  max_spikes : OptionalSetting;
  class_aging : Setting;
  max_investigations : OptionalSetting;
}.
Definition resolve (flags : SlotFlags) (file : SupervisorConfig) : t :=
  mk
    (Setting.resolve (SlotFlags.parallel flags) (SupervisorConfig.parallel file)
      DEFAULT_PARALLEL)
    (Setting.resolve (SlotFlags.max_waiting flags) (SupervisorConfig.max_waiting file)
      DEFAULT_MAX_WAITING)
    (Setting.resolve (SlotFlags.runtime_planners flags)
      (SupervisorConfig.runtime_planners file) DEFAULT_RUNTIME_PLANNERS)
    (Setting.resolve (SlotFlags.claim_spacing flags) (SupervisorConfig.claim_spacing file)
      DEFAULT_CLAIM_SPACING_SECS)
    (OptionalSetting.from_file (SupervisorConfig.max_spikes file))
    (Setting.resolve None (SupervisorConfig.class_aging file) DEFAULT_CLASS_AGING_SECS)
    (OptionalSetting.from_file (SupervisorConfig.max_investigations file)).
End SlotLimits.
Abbreviation SlotLimits := SlotLimits.t.

(** ** The tiers of an order *)
Lemma position_first {A} (p : A → bool) l n :
  position p l = Some n ↔
  ∃ before x after, l = before ++ x :: after ∧ length before = n ∧ p x = true
    ∧ Forall (λ y, p y = false) before.
Proof.
  revert n. induction l as [|x l IH]; intros n; simpl.
  { split; [done|]. intros ([|? ?] & ? & ? & ? & ?); done. }
  destruct (p x) eqn:Hx.
  - split.
    + intros [= <-]. exists [], x, l. by repeat constructor.
    + intros ([|y before] & z & after & [= -> Heq] & <- & Hz & Hall); [done|].
      inversion Hall; congruence.
  - rewrite fmap_Some. split.
    + intros (m & (before & z & after & -> & <- & Hz & Hall)%IH & ->).
      exists (x :: before), z, after. by repeat constructor.
    + intros ([|y before] & z & after & [= -> Heq] & <- & Hz & Hall); [congruence|].
      exists (length before). split; [|done]. apply IH.
      exists before, z, after. by inversion Hall.
Qed.

Lemma position_None {A} (p : A → bool) l :
  position p l = None ↔ Forall (λ y, p y = false) l.
Proof.
  induction l as [|x l IH]; simpl; [by split|].
  destruct (p x) eqn:Hx.
  - split; [done|]. inversion 1; congruence.
  - rewrite fmap_None, IH, Forall_cons. naive_solver.
Qed.

Definition of_priority (p : Priority) (c : Candidate) : bool :=
  bool_decide (Candidate.priority c = p).

(** The tier of [p] is the candidates up to the first of another priority. *)
Lemma tier_split p kept :
  let n := tier_len p kept in
  Forall (λ c, Candidate.priority c = p) (take n kept)
  ∧ match drop n kept with [] => True | c :: _ => Candidate.priority c ≠ p end.
Proof.
  unfold tier_len. destruct (position _ kept) as [n|] eqn:Hpos; simpl.
  - apply position_first in Hpos as (before & x & after & -> & <- & Hx & Hall).
    rewrite take_app_length, drop_app_length. bool_split. split; [|done].
    eapply Forall_impl; [exact Hall|]. simpl. intros y Hy. by bool_split.
  - apply position_None in Hpos. rewrite take_ge, drop_ge by done. split; [|done].
    eapply Forall_impl; [exact Hpos|]. simpl. intros y Hy. by bool_split.
Qed.

Lemma tier_len_pos first kept : 0 < tier_len (Candidate.priority first) (first :: kept).
Proof.
  unfold tier_len. destruct (position _ _) as [n|] eqn:Hpos; simpl; [|lia].
  apply position_first in Hpos as ([|? ?] & x & after & [= -> ->] & <- & Hx & _); simpl; [|lia].
  by bool_split.
Qed.

(** The claim rule's order: a higher priority first. *)
Definition by_priority (a b : Candidate) : Prop :=
  (Priority.as_i64 (Candidate.priority b) ≤ Priority.as_i64 (Candidate.priority a))%Z.

Lemma priority_as_i64_inj p q : Priority.as_i64 p = Priority.as_i64 q → p = q.
Proof. by destruct p, q. Qed.

(** What follows the tier of the first candidate is of a lower priority. *)
Lemma after_tier first kept c :
  StronglySorted by_priority (first :: kept) →
  c ∈ drop (tier_len (Candidate.priority first) (first :: kept)) (first :: kept) →
  (Priority.as_i64 (Candidate.priority c) < Priority.as_i64 (Candidate.priority first))%Z.
Proof.
  intros Hs Hc. pose proof (tier_split (Candidate.priority first) (first :: kept)) as [_ Hnext].
  pose proof (tier_len_pos first kept) as Hpos.
  remember (tier_len _ _) as n eqn:Hn. clear Hn.
  destruct n as [|n]; [lia|]. simpl in Hc, Hnext.
  inversion Hs as [|? ? Hkept Hfirst]; subst.
  rewrite <-(take_drop n kept) in Hkept, Hfirst.
  apply Forall_app in Hfirst as [_ Hfirst]. apply StronglySorted_app in Hkept as (_ & _ & Hkept).
  destruct (drop n kept) as [|next rest]; [by apply elem_of_nil in Hc|].
  inversion Hfirst as [|? ? Hle _]; subst. inversion Hkept as [|? ? _ Hrest]; subst.
  assert (Priority.as_i64 (Candidate.priority next)
          ≠ Priority.as_i64 (Candidate.priority first)) as Hne
    by (intros ?%priority_as_i64_inj; done).
  unfold by_priority in *. apply elem_of_cons in Hc as [->|Hc]; [lia|].
  rewrite Forall_forall in Hrest. specialize (Hrest _ Hc). lia.
Qed.

Lemma filter_all {A} (p : A → bool) l :
  Forall (λ x, p x = true) l → List.filter p l = l.
Proof. induction 1 as [|x l Hx _ IH]; simpl; [done|]. by rewrite Hx, IH. Qed.

Lemma filter_none {A} (p : A → bool) l :
  Forall (λ x, p x = false) l → List.filter p l = [].
Proof. induction 1 as [|x l Hx _ IH]; simpl; [done|]. by rewrite Hx. Qed.

(** A sorted list of kept candidates is the tier of its first priority, then
    the tiers below. *)
Lemma kept_tiers first kept :
  StronglySorted by_priority (first :: kept) →
  let p := Candidate.priority first in
  let n := tier_len p (first :: kept) in
  take n (first :: kept) = List.filter (of_priority p) (first :: kept)
  ∧ (∀ q, q ≠ p → List.filter (of_priority q) (first :: kept)
              = List.filter (of_priority q) (drop n (first :: kept)))
  ∧ StronglySorted by_priority (drop n (first :: kept)).
Proof.
  intros Hs p n. pose proof (tier_split p (first :: kept)) as [Htier _]. fold n in Htier.
  assert (Forall (λ c, Candidate.priority c ≠ p) (drop n (first :: kept))) as Hrest.
  { apply Forall_forall. intros c Hc Heq. apply (after_tier first kept) in Hc; [|done].
    rewrite Heq in Hc. unfold p in Hc. lia. }
  split_and!.
  - rewrite <-(take_drop n (first :: kept)) at 2. rewrite List.filter_app.
    rewrite filter_all, filter_none, app_nil_r; [done| |].
    + eapply Forall_impl; [exact Hrest|]. intros c ?. by apply bool_decide_eq_false.
    + eapply Forall_impl; [exact Htier|]. intros c ?. by apply bool_decide_eq_true.
  - intros q Hq. rewrite <-(take_drop n (first :: kept)) at 1. rewrite List.filter_app.
    rewrite (filter_none _ (take _ _)); [done|].
    eapply Forall_impl; [exact Htier|]. intros c ?. apply bool_decide_eq_false. congruence.
  - rewrite <-(take_drop n (first :: kept)) in Hs. by apply StronglySorted_app in Hs as (_ & _ & ?).
Qed.

(** ** The arranged order *)
Section arranged.
  Context (now_ms : Z) (aging_secs : N).

(** The class that goes first in each priority of [kept], and the key of the
    order aging gives: priority, then class. *)
Definition favoured (kept : list Candidate) (p : Priority) : option ExecutionClass :=
  first_class now_ms aging_secs p (List.filter (of_priority p) kept).

Definition class_key (favour : Priority → option ExecutionClass) (c : Candidate) : list Z :=
  [- Priority.as_i64 (Candidate.priority c);
   if bool_decide (favour (Candidate.priority c) = Some (Candidate.class c)) then 0 else 1]%Z.

Lemma arrange_tier_sorted favour p tier :
  Forall (λ c, Candidate.priority c = p) tier → first_class now_ms aging_secs p tier = favour p →
  (arrange_tier now_ms aging_secs p tier).1 = sort_by_key (class_key favour) tier.
Proof.
  intros Htier Hfavour. rewrite Forall_forall in Htier. unfold arrange_tier. rewrite Hfavour.
  destruct (favour p) as [class|] eqn:Hp; simpl.
  - symmetry. unfold class_ahead, sort_by_key. apply sort_by_partition. intros x y Hx Hy.
    unfold by_key, class_key, of_class. rewrite (Htier x Hx), (Htier y Hy), Hp. simpl.
    rewrite Z.ltb_irrefl, Z.eqb_refl. simpl.
    repeat case_bool_decide; simplify_eq; try done; simpl; congruence.
  - symmetry. unfold sort_by_key. apply sort_by_id; [apply by_key_total|apply by_key_trans|].
    assert (∀ x y, x ∈ tier → y ∈ tier → by_key (class_key favour) x y) as Hall.
    { intros x y Hx Hy. unfold by_key, class_key. rewrite (Htier x Hx), (Htier y Hy), Hp.
      simpl. by rewrite Z.ltb_irrefl, Z.eqb_refl. }
    clear Htier Hfavour. induction tier as [|x tier IH]; [constructor|]. constructor.
    + apply IH. intros; apply Hall; by right.
    + apply Forall_forall. intros y Hy. apply Hall; [left|by right].
Qed.

Lemma arrange_tiers_cons fuel first kept :
  arrange_tiers now_ms aging_secs (S fuel) (first :: kept)
  = let p := Candidate.priority first in
    let n := tier_len p (first :: kept) in
    let tier := arrange_tier now_ms aging_secs p (take n (first :: kept)) in
    let rest := arrange_tiers now_ms aging_secs fuel (drop n (first :: kept)) in
    (tier.1 ++ rest.1, tier.2 ++ rest.2).
Proof.
  cbn [arrange_tiers]. cbv zeta. destruct (arrange_tier _ _ _ _), (arrange_tiers _ _ _ _). done.
Qed.

(** [favour] says which class goes first in each priority [kept] has. *)
Definition favours (favour : Priority → option ExecutionClass) (kept : list Candidate) : Prop :=
  ∀ p, Exists (λ c, of_priority p c) kept →
    first_class now_ms aging_secs p (List.filter (of_priority p) kept) = favour p.

Lemma favours_tiers favour first kept :
  StronglySorted by_priority (first :: kept) → favours favour (first :: kept) →
  let p := Candidate.priority first in
  let n := tier_len p (first :: kept) in
  first_class now_ms aging_secs p (take n (first :: kept)) = favour p
  ∧ favours favour (drop n (first :: kept)).
Proof.
  intros Hs Hfavour p n. pose proof (kept_tiers first kept Hs) as (Htier & Hbelow & _).
  fold p n in Htier, Hbelow. split.
  - rewrite Htier. apply Hfavour. constructor. by apply bool_decide_spec.
  - intros q Hq. assert (q ≠ p) as Hne.
    { apply Exists_exists in Hq as (c & Hc & Hcq). apply (after_tier first kept) in Hc; [|done].
      apply bool_decide_spec in Hcq. subst q. intros Heq. rewrite Heq in Hc. unfold p in Hc. lia. }
    rewrite <-(Hbelow q Hne). apply Hfavour.
    rewrite <-(take_drop n (first :: kept)). apply Exists_app. by right.
Qed.

Lemma rest_fuel first kept fuel :
  length (first :: kept) ≤ S fuel →
  length (drop (tier_len (Candidate.priority first) (first :: kept)) (first :: kept)) ≤ fuel.
Proof. pose proof (tier_len_pos first kept). rewrite length_drop. simpl. lia. Qed.

(** The loop is a stable sort by priority and favoured class. *)
Lemma arrange_tiers_sorted fuel kept :
  length kept ≤ fuel → StronglySorted by_priority kept →
  (arrange_tiers now_ms aging_secs fuel kept).1
  = sort_by_key (class_key (favoured kept)) kept.
Proof.
  intros Hfuel Hs. unfold favoured.
  enough (∀ favour, favours favour kept →
    (arrange_tiers now_ms aging_secs fuel kept).1 = sort_by_key (class_key favour) kept)
    as Hgen by by apply Hgen.
  revert kept Hfuel Hs. induction fuel as [|fuel IH]; intros [|first kept] Hfuel Hs favour Hfavour;
    simpl in Hfuel; try done; try lia.
  rewrite arrange_tiers_cons. cbv zeta. cbn [fst].
  pose proof (kept_tiers first kept Hs) as (_ & _ & Hrest).
  pose proof (tier_split (Candidate.priority first) (first :: kept)) as [Hsame _].
  pose proof (favours_tiers favour first kept Hs Hfavour) as [Hp Hbelow]. cbv zeta in *.
  rewrite (arrange_tier_sorted favour _ _ Hsame Hp),
    (IH _ (rest_fuel first kept fuel Hfuel) Hrest favour Hbelow).
  rewrite <-sort_by_key_app; [by rewrite take_drop|].
  intros x y Hx Hy. rewrite Forall_forall in Hsame. specialize (Hsame x Hx).
  apply (after_tier first kept) in Hy; [|done].
  unfold by_key, class_key. apply lex_leb_cons. left. rewrite Hsame. lia.
Qed.

(** Whether or not the candidates are in order, none is lost or made up. *)
Lemma arrange_tier_perm p tier : (arrange_tier now_ms aging_secs p tier).1 ≡ₚ tier.
Proof.
  unfold arrange_tier. destruct (first_class _ _ _ _) as [class|]; simpl; [|done].
  unfold class_ahead. induction tier as [|x tier IH]; simpl; [done|].
  unfold compose at 1. destruct (of_class class x); simpl; [by rewrite IH|].
  by rewrite <-Permutation_middle, IH.
Qed.

Lemma arrange_tiers_perm fuel kept :
  length kept ≤ fuel → (arrange_tiers now_ms aging_secs fuel kept).1 ≡ₚ kept.
Proof.
  revert kept. induction fuel as [|fuel IH]; intros [|first kept] Hfuel;
    simpl in Hfuel; try done; try lia.
  rewrite arrange_tiers_cons. cbv zeta. cbn [fst]. rewrite arrange_tier_perm, IH by by apply rest_fuel.
  by rewrite take_drop.
Qed.
End arranged.

(** ** Which class goes first *)
Lemma max_of_None ws : max_of ws = None ↔ ws = [].
Proof. destruct ws as [|w ws]; simpl; [done|]. by destruct (max_of ws). Qed.

Lemma max_of_Some ws m : max_of ws = Some m ↔ m ∈ ws ∧ Forall (λ w, (w ≤ m)%Z) ws.
Proof.
  revert m. induction ws as [|w ws IH]; intros m; simpl.
  { split; [done|]. intros [Hm _]. by apply elem_of_nil in Hm. }
  rewrite elem_of_cons, Forall_cons.
  destruct (max_of ws) as [l|] eqn:Hl.
  - specialize (proj1 (IH l) eq_refl) as [Hin Hall]. split.
    + intros [= <-]. split_and!; [|lia|].
      * destruct (Z.max_spec w l) as [[_ ->]|[_ ->]]; auto.
      * eapply Forall_impl; [exact Hall|]. simpl. lia.
    + intros ([->|Hm] & Hw & Hws); f_equal.
      * rewrite Forall_forall in Hws. specialize (Hws l Hin). lia.
      * rewrite Forall_forall in Hws, Hall. specialize (Hws l Hin). specialize (Hall m Hm). lia.
  - apply max_of_None in Hl as ->. split.
    + intros [= ->]. split_and!; [by left|lia|constructor].
    + intros ([->|Hm] & _ & _); [done|by apply elem_of_nil in Hm].
Qed.

Section first_class.
  Context (now_ms : Z) (aging_secs : N).
  Implicit Types (tier : list Candidate) (class : ExecutionClass).

Lemma wait_Some c w :
  wait now_ms aging_secs c = Some w ↔
  ∃ at_, Candidate.ready_at_ms c = Some at_ ∧ w = saturate_i64 (now_ms - at_)
    ∧ (saturate_i64 (i64_of_usize aging_secs * 1000) < w)%Z.
Proof.
  unfold wait, overdue. destruct (Candidate.ready_at_ms c) as [at_|]; [|naive_solver].
  case_match eqn:Hlt; [apply Z.ltb_lt in Hlt|apply Z.ltb_ge in Hlt]; split; intros H.
  - injection H as <-. eauto.
  - destruct H as (? & [= <-] & -> & _). done.
  - done.
  - destruct H as (? & [= <-] & -> & ?). lia.
Qed.

Lemma elem_of_class_waits tier class w :
  w ∈ omap (wait now_ms aging_secs) (List.filter (of_class class) tier) ↔
  ∃ c, c ∈ tier ∧ Candidate.class c = class ∧ wait now_ms aging_secs c = Some w.
Proof.
  rewrite list_elem_of_omap. unfold of_class.
  split; intros (c & Hc).
  - destruct Hc as [Hc Hw]. apply list_elem_of_In, filter_In in Hc as [Hc Hclass].
    apply bool_decide_eq_true in Hclass. apply list_elem_of_In in Hc. eauto.
  - destruct Hc as (Hc & Hclass & Hw). exists c. split; [|done].
    apply list_elem_of_In, filter_In. by rewrite <-list_elem_of_In, bool_decide_eq_true.
Qed.

Lemma class_wait_Some tier class m :
  class_wait now_ms aging_secs tier class = Some m ↔
  (∃ c, c ∈ tier ∧ Candidate.class c = class ∧ wait now_ms aging_secs c = Some m)
  ∧ (∀ c w, c ∈ tier → Candidate.class c = class → wait now_ms aging_secs c = Some w → (w ≤ m)%Z).
Proof.
  unfold class_wait. rewrite max_of_Some, elem_of_class_waits, Forall_forall.
  setoid_rewrite elem_of_class_waits. naive_solver.
Qed.

Lemma class_wait_None tier class :
  class_wait now_ms aging_secs tier class = None ↔
  ∀ c w, c ∈ tier → Candidate.class c = class → wait now_ms aging_secs c ≠ Some w.
Proof.
  unfold class_wait. rewrite max_of_None. split.
  - intros Hnil c w Hc Hclass Hw.
    assert (w ∈ @nil Z) as []%elem_of_nil by (rewrite <-Hnil; apply elem_of_class_waits; eauto).
  - intros Hnone. apply elem_of_nil_inv. intros w (c & Hc & Hclass & Hw)%elem_of_class_waits.
    by eapply Hnone.
Qed.

(** A class goes first when one of its candidates waited past the threshold
    and longer than every candidate of the other class did. *)
Definition waited_longest (tier : list Candidate) (class : ExecutionClass) : Prop :=
  ∃ c w, c ∈ tier ∧ Candidate.class c = class ∧ wait now_ms aging_secs c = Some w
    ∧ ∀ c' w', c' ∈ tier → Candidate.class c' ≠ class →
        wait now_ms aging_secs c' = Some w' → (w' < w)%Z.

Lemma class_wait_longest tier class other :
  (∀ c, Candidate.class c ≠ class ↔ Candidate.class c = other) →
  waited_longest tier class ↔
  ∃ m, class_wait now_ms aging_secs tier class = Some m ∧
    ∀ m', class_wait now_ms aging_secs tier other = Some m' → (m' < m)%Z.
Proof.
  intros Hother. unfold waited_longest. split.
  - intros (c & w & Hc & Hclass & Hw & Hless).
    destruct (class_wait now_ms aging_secs tier class) as [m|] eqn:Hm.
    + exists m. split; [done|]. intros m' ((c' & Hc' & Hclass' & Hw') & _)%class_wait_Some.
      apply class_wait_Some in Hm as [_ Hle]. specialize (Hle _ _ Hc Hclass Hw).
      assert (w' := Hless c' m' Hc' (proj2 (Hother c') Hclass') Hw'). lia.
    + exfalso. rewrite class_wait_None in Hm. by eapply Hm.
  - intros (m & ((c & Hc & Hclass & Hw) & _)%class_wait_Some & Hless).
    exists c, m. split_and!; try done. intros c' w' Hc' Hclass' Hw'.
    destruct (class_wait now_ms aging_secs tier other) as [m'|] eqn:Hm'.
    + specialize (Hless m' eq_refl). apply class_wait_Some in Hm' as [_ Hle].
      specialize (Hle c' w' Hc' (proj1 (Hother c') Hclass') Hw'). lia.
    + exfalso. rewrite class_wait_None in Hm'. apply (Hm' c' w' Hc'); [|done]. by apply Hother.
Qed.

Lemma first_class_spec p tier class :
  first_class now_ms aging_secs p tier = Some class ↔
  p ≠ Priority.Interrupt ∧ waited_longest tier class.
Proof.
  unfold first_class. case_bool_decide as Hp; [naive_solver|].
  rewrite (class_wait_longest tier class
    (match class with ExecutionClass.Spike => ExecutionClass.Implementation
     | ExecutionClass.Implementation => ExecutionClass.Spike end))
    by (intros c; destruct (Candidate.class c), class; split; congruence).
  destruct class;
    destruct (class_wait now_ms aging_secs tier ExecutionClass.Implementation) as [i|],
             (class_wait now_ms aging_secs tier ExecutionClass.Spike) as [s|];
    repeat case_match; rewrite ?Z.ltb_lt, ?Z.ltb_ge in *;
    split; intros Hx; try done;
    try (split; [done|]; eexists; split; [done|]; intros ? [= <-]; lia);
    try (split; [done|]; eexists; split; [done|]; done);
    destruct Hx as (_ & m & [= <-] & Hm);
    specialize (Hm _ eq_refl); lia.
Qed.
End first_class.

(** ** The tasks aging moved ahead *)
Lemma class_ahead_perm class tier : class_ahead class tier ≡ₚ tier.
Proof.
  unfold class_ahead. induction tier as [|x tier IH]; simpl; [done|].
  unfold compose at 1. destruct (of_class class x); simpl; [by rewrite IH|].
  by rewrite <-Permutation_middle, IH.
Qed.

(** Where [class_ahead] puts a candidate. *)
Lemma class_ahead_lookup class before c after :
  class_ahead class (before ++ c :: after)
    !! (if of_class class c then length (List.filter (of_class class) before)
        else length (List.filter (of_class class) (before ++ c :: after))
             + length (List.filter (negb ∘ of_class class) before)) = Some c.
Proof.
  unfold class_ahead. destruct (of_class class c) eqn:Hc.
  - rewrite List.filter_app. cbn [List.filter]. rewrite Hc, <-app_assoc.
    rewrite lookup_app_r by lia. by rewrite Nat.sub_diag.
  - rewrite lookup_app_r by lia. rewrite Nat.add_comm, Nat.add_sub.
    rewrite List.filter_app. cbn [List.filter]. unfold compose at 3. rewrite Hc. simpl.
    rewrite lookup_app_r by lia. by rewrite Nat.sub_diag.
Qed.

Lemma class_split_length class l :
  length (List.filter (of_class class) l) + length (List.filter (negb ∘ of_class class) l)
  = length l.
Proof.
  induction l as [|x l IH]; simpl; [done|].
  change ((negb ∘ of_class class) x) with (negb (of_class class x)).
  destruct (of_class class x); simpl; lia.
Qed.

Lemma position_of_id c before after :
  NoDup (Candidate.id <$> before ++ c :: after) →
  position (λ c', bool_decide (Candidate.id c' = Candidate.id c)) (before ++ c :: after)
  = Some (length before).
Proof.
  intros Hnd. apply position_first. exists before, c, after. split_and!; try done.
  - by apply bool_decide_eq_true.
  - apply Forall_forall. intros y Hy. apply bool_decide_eq_false. intros Heq.
    rewrite fmap_app, fmap_cons in Hnd. apply NoDup_app in Hnd as (_ & Hdisj & _).
    apply (Hdisj (Candidate.id y)); [by apply list_elem_of_fmap_2|]. rewrite Heq. left.
Qed.

(** A candidate of the class that goes first moves ahead exactly when one of
    the other class stood before it. *)
Lemma moved_ahead_spec class tier id :
  NoDup (Candidate.id <$> tier) →
  id ∈ moved_ahead tier (class_ahead class tier) ↔
  ∃ i j c y, tier !! i = Some c ∧ tier !! j = Some y ∧ j < i ∧ Candidate.id c = id
    ∧ Candidate.class c = class ∧ Candidate.class y ≠ class.
Proof.
  intros Hnd. unfold moved_ahead. rewrite list_elem_of_omap.
  assert (∀ index c before after, tier = before ++ c :: after →
    class_ahead class tier !! index = Some c →
    index = if of_class class c then length (List.filter (of_class class) before)
        else length (List.filter (of_class class) tier)
             + length (List.filter (negb ∘ of_class class) before)) as Hindex.
  { intros index c before after -> Hc.
    eapply (NoDup_lookup (class_ahead class (before ++ c :: after))); [|done|apply class_ahead_lookup].
    rewrite class_ahead_perm. by apply NoDup_fmap_1 in Hnd. }
  split.
  - intros ([index c] & (i0 & c0 & Heq0 & Hc)%elem_of_lookup_imap_1 & Hmoved). injection Heq0 as <- <-.
    assert (c ∈ tier) as (before & after & Htier)%list_elem_of_split.
    { rewrite <-(class_ahead_perm class). by eapply list_elem_of_lookup_2. }
    rewrite Htier in Hmoved at 1. rewrite position_of_id in Hmoved by by rewrite <-Htier.
    destruct (index <? length before) eqn:Hlt; [|done]. injection Hmoved as <-.
    apply Nat.ltb_lt in Hlt. apply (Hindex _ _ _ _ Htier) in Hc.
    pose proof (class_split_length class before).
    destruct (of_class class c) eqn:Hclass.
    + destruct (List.filter (negb ∘ of_class class) before) as [|y rest] eqn:Hother;
        [simpl in *; lia|].
      assert (y ∈ List.filter (negb ∘ of_class class) before) as Hy by (rewrite Hother; left).
      apply list_elem_of_In, filter_In in Hy as [Hy Hny]. unfold compose in Hny.
      apply list_elem_of_In, list_elem_of_lookup in Hy as [j Hj].
      exists (length before), j, c, y. subst tier. pose proof (lookup_lt_Some _ _ _ Hj).
      unfold of_class in *. bool_split. split_and!; try done.
      * rewrite lookup_app_r by lia. by rewrite Nat.sub_diag.
      * by rewrite lookup_app_l.
    + exfalso. assert (length (List.filter (of_class class) before)
                       ≤ length (List.filter (of_class class) tier)); [|lia].
      rewrite Htier, List.filter_app, length_app. lia.
  - intros (i & j & c & y & Hi & Hj & Hlt & <- & Hclass & Hy).
    apply list_elem_of_split_length in Hi as (before & after & Htier & ->).
    assert (of_class class c = true) as Hc by by apply bool_decide_eq_true.
    assert (of_class class y = false) as Hyc by by apply bool_decide_eq_false.
    exists (length (List.filter (of_class class) before), c). split.
    + apply elem_of_lookup_imap. do 2 eexists. split; [done|]. subst tier.
      pose proof (class_ahead_lookup class before c after) as Hl. by rewrite Hc in Hl.
    + rewrite Htier at 1. rewrite position_of_id by by rewrite <-Htier.
      rewrite Htier, lookup_app_l in Hj by done.
      apply list_elem_of_split_length in Hj as (b1 & b2 & -> & ->).
      pose proof (class_split_length class b1). pose proof (class_split_length class b2).
      assert (length (List.filter (of_class class) (b1 ++ y :: b2)) < length (b1 ++ y :: b2)) as Hl.
      { rewrite List.filter_app. cbn [List.filter]. rewrite Hyc, !length_app. simpl. lia. }
      apply Nat.ltb_lt in Hl. by rewrite Hl.
Qed.

(** A candidate that stood behind one of the other class of its priority,
    whose class goes first there. *)
Definition passes_over (favour : Priority → option ExecutionClass) (kept : list Candidate)
    (id : TaskId) : Prop :=
  ∃ i j c y, kept !! i = Some c ∧ kept !! j = Some y ∧ j < i ∧ Candidate.id c = id
    ∧ Candidate.priority y = Candidate.priority c ∧ Candidate.class y ≠ Candidate.class c
    ∧ favour (Candidate.priority c) = Some (Candidate.class c).

Lemma arrange_tier_aged now_ms aging_secs favour p tier id :
  NoDup (Candidate.id <$> tier) → Forall (λ c, Candidate.priority c = p) tier →
  first_class now_ms aging_secs p tier = favour p →
  id ∈ (arrange_tier now_ms aging_secs p tier).2 ↔ passes_over favour tier id.
Proof.
  intros Hnd Htier Hfavour. rewrite Forall_lookup in Htier. unfold arrange_tier, passes_over.
  rewrite Hfavour. destruct (favour p) as [class|] eqn:Hp; simpl.
  - rewrite moved_ahead_spec by done.
    split; intros (i & j & c & y & Hi & Hj & Hlt & Hid & H1).
    + destruct H1 as [Hc Hy]. exists i, j, c, y.
      rewrite (Htier _ _ Hi), (Htier _ _ Hj), Hp. by subst class.
    + destruct H1 as (_ & Hy & Hc). rewrite (Htier _ _ Hi), Hp in Hc. injection Hc as ->.
      by exists i, j, c, y.
  - split; [by intros ?%elem_of_nil|]. intros (i & j & c & y & Hi & _ & _ & _ & _ & _ & Hc).
    rewrite (Htier _ _ Hi) in Hc. congruence.
Qed.

Lemma arrange_tiers_aged now_ms aging_secs fuel kept id :
  length kept ≤ fuel → StronglySorted by_priority kept → NoDup (Candidate.id <$> kept) →
  id ∈ (arrange_tiers now_ms aging_secs fuel kept).2
  ↔ passes_over (favoured now_ms aging_secs kept) kept id.
Proof.
  intros Hfuel Hs Hnd. unfold favoured.
  enough (∀ favour, favours now_ms aging_secs favour kept →
    id ∈ (arrange_tiers now_ms aging_secs fuel kept).2 ↔ passes_over favour kept id)
    as Hgen by by apply Hgen.
  revert kept Hfuel Hs Hnd.
  induction fuel as [|fuel IH]; intros [|first kept] Hfuel Hs Hnd favour Hfavour;
    simpl in Hfuel; try lia;
    try (split; [by intros ?%elem_of_nil|by intros (? & ? & ? & ? & ? & _)]).
  rewrite arrange_tiers_cons. cbv zeta. cbn [snd].
  pose proof (kept_tiers first kept Hs) as (_ & _ & Hrest).
  pose proof (tier_split (Candidate.priority first) (first :: kept)) as [Hsame _].
  pose proof (favours_tiers _ _ favour first kept Hs Hfavour) as [Hp Hbelow]. cbv zeta in *.
  pose proof (λ c, after_tier first kept c Hs) as Hafter.
  pose proof (rest_fuel first kept fuel Hfuel) as Hlen.
  set (n := tier_len (Candidate.priority first) (first :: kept)) in *.
  pose proof (take_drop n (first :: kept)) as Hsplit.
  set (l1 := take n (first :: kept)) in *. set (l2 := drop n (first :: kept)) in *.
  rewrite <-Hsplit in Hnd |- *. clearbody l1 l2.
  rewrite fmap_app in Hnd. apply NoDup_app in Hnd as (Hnd1 & _ & Hnd2).
  rewrite elem_of_app, (arrange_tier_aged _ _ favour), (IH _ Hlen Hrest Hnd2 favour) by done. split.
  - intros [(i & j & c & y & Hi & Hj & Hx)|(i & j & c & y & Hi & Hj & Hx)].
    + exists i, j, c, y. split_and!; try apply Hx; by apply lookup_app_l_Some.
    + exists (length l1 + i), (length l1 + j), c, y.
      rewrite !lookup_app_r by lia.
      replace (length l1 + i - length l1) with i by lia.
      replace (length l1 + j - length l1) with j by lia.
      split_and!; try apply Hx; try done. destruct Hx. lia.
  - intros (i & j & c & y & Hi & Hj & Hlt & Hid & Hprio & Hx).
    apply lookup_app_Some in Hi as [Hi|[Hi1 Hi]], Hj as [Hj|[Hj1 Hj]].
    + left. by exists i, j, c, y.
    + apply lookup_lt_Some in Hi. lia.
    + exfalso. rewrite Forall_lookup in Hsame. apply Hsame in Hj.
      apply list_elem_of_lookup_2, Hafter in Hi. rewrite <-Hprio, Hj in Hi. lia.
    + right. exists (i - length l1), (j - length l1), c, y.
      split_and!; try apply Hx; try done. lia.
Qed.

(** ** Theorems *)
Lemma arrange_parts candidates excluded limits now_ms aging_secs :
  let kept := kept_of excluded limits candidates in
  let tiers := arrange_tiers now_ms aging_secs (length kept) kept in
  arrange candidates excluded limits now_ms aging_secs
  = Arranged.mk (Candidate.id <$> tiers.1) tiers.2 (limited_of excluded limits candidates).
Proof. intros kept tiers. unfold arrange. fold kept. fold tiers. by destruct tiers. Qed.

Lemma kept_of_sorted excluded limits candidates :
  StronglySorted by_priority candidates →
  StronglySorted by_priority (kept_of excluded limits candidates).
Proof. apply StronglySorted_filter. Qed.

Lemma elem_of_kept excluded limits candidates c :
  c ∈ kept_of excluded limits candidates ↔
  c ∈ candidates ∧ (Candidate.id c ∉ excluded) ∧ ClassLimits.limit limits (Candidate.class c) = None.
Proof.
  unfold kept_of. rewrite list_elem_of_In, filter_In, <-list_elem_of_In.
  rewrite andb_true_iff, bool_decide_eq_true. unfold is_none.
  destruct (ClassLimits.limit _ _); naive_solver.
Qed.

(** C36: the arranged order is the stable sort of the kept candidates by
    effective priority and, within one, the class that goes first: the rule's
    order stands among the tasks of one priority and class, no task leaves
    its priority, and a class goes first in a priority exactly when the
    priority is not [interrupt] and one of its candidates waited past the
    threshold and longer than every candidate of the other class there. *)
Theorem arrange_order candidates excluded limits now_ms aging_secs :
  StronglySorted by_priority candidates →
  let kept := kept_of excluded limits candidates in
  let favour := favoured now_ms aging_secs kept in
  Arranged.order (arrange candidates excluded limits now_ms aging_secs)
  = Candidate.id <$> sort_by_key (class_key favour) kept
  ∧ ∀ p class, favour p = Some class ↔
      p ≠ Priority.Interrupt
      ∧ waited_longest now_ms aging_secs (List.filter (of_priority p) kept) class.
Proof.
  intros Hs kept favour. split.
  - rewrite arrange_parts. simpl. fold kept.
    by rewrite arrange_tiers_sorted by (first [done | (by apply kept_of_sorted)]).
  - intros p class. apply first_class_spec.
Qed.

(** A Spike that waited the longest goes ahead of an implementation of its
    priority, not of one above it. *)
Definition sample_candidates : list Candidate :=
  [Candidate.mk (TaskId.new 1) ExecutionClass.Implementation Priority.High (Some 0%Z);
   Candidate.mk (TaskId.new 2) ExecutionClass.Implementation Priority.Normal (Some 9000%Z);
   Candidate.mk (TaskId.new 3) ExecutionClass.Spike Priority.Normal (Some 0%Z);
   Candidate.mk (TaskId.new 4) ExecutionClass.Spike Priority.Low None].

Lemma sample_sorted : StronglySorted by_priority sample_candidates.
Proof. unfold sample_candidates. repeat constructor; vm_compute; discriminate. Defined.

Lemma arrange_order_witness :
  Arranged.order (arrange sample_candidates ∅ (ClassLimits.mk None 0) 10000 5)
  = TaskId.new <$> [1; 3; 2; 4]%Z
  ∧ Arranged.order (arrange sample_candidates ∅ (ClassLimits.mk None 0) 10000 5)
    = Candidate.id <$> sort_by_key
        (class_key (favoured 10000 5 (kept_of ∅ (ClassLimits.mk None 0) sample_candidates)))
        (kept_of ∅ (ClassLimits.mk None 0) sample_candidates).
Proof.
  split; [vm_compute; reflexivity|].
  exact (proj1 (arrange_order sample_candidates ∅ (ClassLimits.mk None 0) 10000 5 sample_sorted)).
Defined.

(** Whatever order they come in, no candidate is lost: each one is
    excluded, left out by a class limit with that limit's reason, or in the
    order, once; and nothing else is. *)
Theorem arrange_conserves candidates excluded limits now_ms aging_secs :
  let arranged := arrange candidates excluded limits now_ms aging_secs in
  Arranged.order arranged
    ≡ₚ Candidate.id <$> kept_of excluded limits candidates
  ∧ (∀ c, c ∈ kept_of excluded limits candidates ↔
       c ∈ candidates ∧ (Candidate.id c ∉ excluded)
       ∧ ClassLimits.limit limits (Candidate.class c) = None)
  ∧ (∀ id reason, (id, reason) ∈ Arranged.limited arranged ↔
       ∃ c, c ∈ candidates ∧ Candidate.id c = id ∧ (id ∉ excluded)
         ∧ Candidate.class c = ExecutionClass.Spike ∧ reason = SPIKE_LIMIT
         ∧ ∃ max, ClassLimits.max_spikes limits = Some max
             ∧ (max ≤ ClassLimits.running_spikes limits)%N).
Proof.
  cbv zeta. rewrite arrange_parts. simpl. split_and!.
  - by rewrite arrange_tiers_perm.
  - apply elem_of_kept.
  - intros id reason. unfold limited_of. rewrite list_elem_of_omap.
    split; intros (c & Hc & Hx); exists c; (split; [done|]).
    + case_bool_decide; [done|]. unfold ClassLimits.limit in Hx.
      destruct (Candidate.class c); [done|].
      destruct (ClassLimits.max_spikes limits) as [max|]; [|done].
      destruct (N.leb_spec max (ClassLimits.running_spikes limits)); [|done].
      injection Hx as <- <-. eauto 10.
    + destruct Hx as (<- & Hid & Hclass & -> & max & Hmax & Hle). rewrite bool_decide_false by done.
      unfold ClassLimits.limit. rewrite Hclass, Hmax. apply N.leb_le in Hle. by rewrite Hle.
Qed.

(** The tasks reported as aged are exactly those of the class that goes
    first which stood, in the rule's order, behind a task of the other class
    of the same priority. *)
Theorem aged_exact candidates excluded limits now_ms aging_secs id :
  StronglySorted by_priority candidates → NoDup (Candidate.id <$> candidates) →
  let kept := kept_of excluded limits candidates in
  id ∈ Arranged.aged (arrange candidates excluded limits now_ms aging_secs)
  ↔ passes_over (favoured now_ms aging_secs kept) kept id.
Proof.
  intros Hs Hnd kept. rewrite arrange_parts. simpl. fold kept. apply arrange_tiers_aged; [done| |].
  - by apply kept_of_sorted.
  - unfold kept, kept_of. clear Hs kept.
    induction candidates as [|c candidates IH]; simpl in *; [done|].
    apply NoDup_cons in Hnd as [Hc Hnd]. specialize (IH Hnd). case_match; [|done].
    simpl. apply NoDup_cons. split; [|done]. intros (c' & Heq & Hin)%list_elem_of_fmap.
    apply Hc. rewrite Heq. apply list_elem_of_fmap_2.
    by apply list_elem_of_In, filter_In, proj1, list_elem_of_In in Hin.
Qed.

Lemma aged_exact_witness :
  Arranged.aged (arrange sample_candidates ∅ (ClassLimits.mk None 0) 10000 5) = [TaskId.new 3]
  ∧ passes_over (favoured 10000 5 (kept_of ∅ (ClassLimits.mk None 0) sample_candidates))
      (kept_of ∅ (ClassLimits.mk None 0) sample_candidates) (TaskId.new 3).
Proof.
  assert (NoDup (Candidate.id <$> sample_candidates)) as Hnd
    by (apply (bool_decide_unpack _); vm_compute; exact I).
  assert (Arranged.aged (arrange sample_candidates ∅ (ClassLimits.mk None 0) 10000 5)
          = [TaskId.new 3]) as Haged by (vm_compute; reflexivity).
  split; [exact Haged|].
  apply (proj1 (aged_exact sample_candidates ∅ (ClassLimits.mk None 0) 10000 5
    (TaskId.new 3) sample_sorted Hnd)).
  rewrite Haged. apply list_elem_of_here.
Defined.

(** *** The line of a fill pass *)
Definition is_kind {T} (kind : SlotKind) (candidate : SlotCandidate T) : bool :=
  bool_decide (SlotCandidate.kind candidate = kind).

Definition claim_of (c : Candidate) : SlotCandidate TaskId :=
  SlotCandidate.mk SlotKind.Claim (Candidate.priority c) (Candidate.id c).

Lemma claims_of_candidates l effective :
  (∀ c, c ∈ l → effective !! Candidate.id c = Some (Candidate.priority c)) →
  claims (Candidate.id <$> l) effective = claim_of <$> l.
Proof.
  intros Heff. induction l as [|c l IH]; [done|]. cbn. rewrite (Heff c) by left. cbn.
  f_equal. apply IH. intros; apply Heff; by right.
Qed.

Lemma StronglySorted_fmap {A B} (f : A → B) (R : B → B → Prop) l :
  StronglySorted (λ x y, R (f x) (f y)) l → StronglySorted R (f <$> l).
Proof. induction 1; simpl; constructor; [done|]. by apply Forall_fmap. Qed.

Lemma StronglySorted_impl {A} (R S : A → A → Prop) l :
  (∀ x y, R x y → S x y) → StronglySorted R l → StronglySorted S l.
Proof.
  intros HRS. induction 1 as [|x l Hl IH Hx]; constructor; [done|].
  eapply Forall_impl; [exact Hx|]. apply HRS.
Qed.

Lemma is_kind_claims order effective (kind : SlotKind) :
  List.filter (is_kind kind) (claims order effective)
  = if bool_decide (kind = SlotKind.Claim) then claims order effective else [].
Proof.
  case_bool_decide as Hk; [subst kind|]; [apply filter_all|apply filter_none];
    apply Forall_forall; intros c (id & Hid & Hc)%list_elem_of_omap;
    destruct (effective !! id); simplify_eq/=; [done|]. by apply bool_decide_eq_false.
Qed.

(** [a] gets its slot before [b] does, or they tie. *)
Definition in_line (a b : SlotCandidate TaskId) : Prop :=
  Priority.ltb (SlotCandidate.priority b) (SlotCandidate.priority a) = true
  ∨ SlotCandidate.priority a = SlotCandidate.priority b
    ∧ (SlotKind.index (SlotCandidate.kind a) ≤ SlotKind.index (SlotCandidate.kind b))%Z.

(** In the line of a fill pass a higher effective priority gets its slot
    first, and on the same priority a resume before a recovery job before a
    claim; candidates of one kind and priority keep the order they came in;
    and the claims stand in it in the very order the claim's arrangement
    gave them, aging included. *)
Theorem slot_line_order candidates excluded limits now_ms aging_secs effective
    (others : list (SlotCandidate TaskId)) :
  StronglySorted by_priority candidates →
  (∀ c, c ∈ candidates → effective !! Candidate.id c = Some (Candidate.priority c)) →
  Forall (λ o, SlotCandidate.kind o ≠ SlotKind.Claim) others →
  let order := Arranged.order (arrange candidates excluded limits now_ms aging_secs) in
  let line := slot_order (others ++ claims order effective) in
  line ≡ₚ others ++ claims order effective
  ∧ StronglySorted in_line line
  ∧ (∀ kind p, List.filter (λ o, is_kind kind o && bool_decide (SlotCandidate.priority o = p)) line
       = List.filter (λ o, is_kind kind o && bool_decide (SlotCandidate.priority o = p))
           (others ++ claims order effective))
  ∧ SlotCandidate.item <$> List.filter (is_kind SlotKind.Claim) line = order.
Proof.
  intros Hs Heff Hothers order line.
  split_and!; [apply sort_by_key_perm| | |].
  - eapply StronglySorted_impl; [|apply sort_by_key_sorted].
    intros x y Hxy. unfold by_key, slot_key in Hxy. unfold in_line, Priority.ltb.
    apply lex_leb_cons in Hxy as [Hlt|[Heq Hxy]].
    + left. apply Z.ltb_lt. lia.
    + right. split; [apply priority_as_i64_inj; lia|].
      apply lex_leb_cons in Hxy as [?|[? _]]; lia.
  - intros kind p. set (q := SlotCandidate.mk kind p (TaskId.new 0)).
    assert (∀ l : list (SlotCandidate TaskId), List.filter (λ o, is_kind kind o
        && bool_decide (SlotCandidate.priority o = p)) l
      = List.filter (ties (by_key slot_key) q) l) as Hties.
    { intros l. apply List.filter_ext. intros [k p' i]. subst q. by destruct k, kind, p', p. }
    rewrite !Hties. apply sort_by_key_stable.
  - unfold line, slot_order. rewrite sort_by_key_filter, List.filter_app, is_kind_claims.
    rewrite (filter_none _ others), bool_decide_true, app_nil_l by
      (first [done | (eapply Forall_impl; [exact Hothers|]; intros o ?; by apply bool_decide_eq_false)]).
    unfold order. rewrite arrange_parts. simpl. set (kept := kept_of _ _ _).
    rewrite arrange_tiers_sorted by (first [done | (by apply kept_of_sorted)]).
    set (l := sort_by_key _ kept).
    rewrite claims_of_candidates by
      (intros c Hc; apply Heff; by apply elem_of_sort_by_key, elem_of_kept, proj1 in Hc).
    rewrite sort_by_key_id, <-list_fmap_compose; [done|].
    apply StronglySorted_fmap. eapply StronglySorted_impl; [|apply sort_by_key_sorted].
    intros x y Hxy. unfold by_key, class_key in Hxy. apply lex_leb_cons in Hxy.
    apply lex_leb_cons. destruct Hxy as [Hlt|[Heq _]]; [by left|by right].
Qed.

Definition sample_effective : gmap TaskId Priority :=
  list_to_map ((λ c, (Candidate.id c, Candidate.priority c)) <$> sample_candidates).
Definition sample_others : list (SlotCandidate TaskId) :=
  [SlotCandidate.mk SlotKind.Recovery Priority.Normal (TaskId.new 9);
   SlotCandidate.mk SlotKind.Resume Priority.Normal (TaskId.new 8)].

Lemma slot_line_order_witness :
  let order := Arranged.order (arrange sample_candidates ∅ (ClassLimits.mk None 0) 10000 5) in
  let line := slot_order (sample_others ++ claims order sample_effective) in
  (SlotCandidate.item <$> line = TaskId.new <$> [1; 8; 9; 3; 2; 4]%Z)
  ∧ SlotCandidate.item <$> List.filter (is_kind SlotKind.Claim) line = order.
Proof.
  intros order line. split; [vm_compute; reflexivity|].
  assert (∀ c, c ∈ sample_candidates →
    sample_effective !! Candidate.id c = Some (Candidate.priority c)) as Heff.
  { apply Forall_forall. unfold sample_candidates. repeat constructor. }
  assert (Forall (λ o, SlotCandidate.kind o ≠ SlotKind.Claim) sample_others) as Hothers
    by (unfold sample_others; repeat constructor; discriminate).
  exact (proj2 (proj2 (proj2 (slot_line_order sample_candidates ∅ (ClassLimits.mk None 0)
    10000 5 sample_effective sample_others sample_sorted Heff Hothers)))).
Defined.

(** *** The room for a claim *)

(** Any task is claimed only under [parallel] runs in the slots; a light
    one also while the runs outside the landing queue are under it, with no
    run waiting to go back; and a claim so made leaves at most [parallel]
    runs outside the landing queue, and at most twice [parallel] leased. *)
Theorem claim_room_exact used landing_queue parallel returning light :
  let room := claim_room used landing_queue parallel returning light in
  (room = ClaimRoom.Any ↔ (used < parallel)%N)
  ∧ (room = ClaimRoom.LightOnly ↔
       (parallel ≤ used)%N ∧ light = true ∧ returning = 0%N
       ∧ (used < parallel + N.min landing_queue parallel)%N)
  ∧ (room ≠ ClaimRoom.None →
       (used + 1 - outside_the_slots landing_queue parallel ≤ parallel)%N
       ∧ (used + 1 ≤ 2 * parallel)%N).
Proof.
  unfold claim_room, outside_the_slots.
  destruct (N.ltb_spec used parallel); [split_and!; (split || idtac); intros; try done; lia|].
  destruct light, (N.eqb_spec returning 0), (N.ltb_spec
    (used - N.min (N.min landing_queue parallel) used) parallel); simpl;
    split_and!; (split || idtac); intros; try done; destruct_and?; try done; try lia.
Qed.

(** A claim is made now only when there is room for it, the claims are
    not held, and the spacing in effect after the latest claim is over;
    the first claim of a queue waits for no spacing. *)
Theorem gated_exact room held spacing_secs last_claim_ms now_ms :
  let gate := gated room held spacing_secs last_claim_ms now_ms in
  (gate = room ∨ gate = ClaimRoom.None)
  ∧ (gate ≠ ClaimRoom.None ↔
     room ≠ ClaimRoom.None ∧ held = false
     ∧ ∀ secs last, spacing_secs = Some secs → last_claim_ms = Some last →
         (Z.of_N secs ≤ i64_max)%Z →
         (saturate_i64 (last + saturate_i64 (Z.of_N secs * 1000)) ≤ now_ms)%Z).
Proof.
  cbv zeta. unfold gated, waits, next_claim_ms. destruct held; simpl.
  { split; [by right|]. split; [done|]. by intros (_ & ? & _). }
  destruct spacing_secs as [secs|]; simpl; [|split; [by left|naive_solver]].
  unfold then_some. destruct (Z.leb_spec (Z.of_N secs) i64_max) as [Hfit|Hfit]; simpl.
  - destruct last_claim_ms as [last|]; simpl; [|split; [by left|naive_solver]].
    destruct (Z.ltb_spec now_ms (saturate_i64 (last + saturate_i64 (Z.of_N secs * 1000)))).
    + split; [by right|]. split; [done|]. intros (_ & _ & Hle).
      specialize (Hle _ _ eq_refl eq_refl Hfit). lia.
    + split; [by left|]. split; [|by intros (? & _)].
      intros Hroom. split_and!; [done..|]. intros ? ? [= <-] [= <-] _. done.
  - split; [by left|]. split; [|by intros (? & _)].
    intros Hroom. split_and!; [done..|]. intros ? ? [= <-] _ ?. lia.
Qed.

(** [LightChanges::new] takes a list of distinct changes of the set, and
    nothing else. *)
Lemma light_changes_new_Ok values changes light :
  LightChanges.new values changes = Ok light ↔
  light = LightChanges.wrap values ∧ values ≠ [] ∧ NoDup values
  ∧ ∃ set, changes = Some set ∧ ∀ v, v ∈ values → v ∈ ChangeSet.values set.
Proof.
  assert (∀ rest seen u, NoDup seen →
    LightChanges.check_each changes seen rest = Ok u ↔
    NoDup (seen ++ rest) ∧ (rest = [] ∨ ∃ set, changes = Some set
      ∧ ∀ v, v ∈ rest → v ∈ ChangeSet.values set)) as Heach.
  { induction rest as [|v rest IH]; intros seen [] Hseen; simpl.
    { rewrite app_nil_r. naive_solver. }
    destruct (decide (v ∈ seen)) as [Hv|Hv].
    { split; [done|]. intros [(_ & Hdisj & _)%NoDup_app _]. destruct (Hdisj v); [done|left]. }
    destruct changes as [set|]; [|split; [done|naive_solver]].
    destruct (decide (v ∈ ChangeSet.values set)) as [Hin|Hin].
    - rewrite IH, <-app_assoc by
        (apply NoDup_app; split_and!; [done|set_solver|apply NoDup_singleton]).
      simpl. split; intros [Hnd Hset]; (split; [done|]); right; exists set; (split; [done|]).
      + intros w [->|Hw]%elem_of_cons; [done|]. destruct Hset as [->|(? & [= <-] & Hset)];
          [by apply elem_of_nil in Hw|auto].
      + intros w Hw. destruct Hset as [?|(? & [= <-] & Hset)]; [done|]. apply Hset. by right.
    - split; [done|]. intros [_ [?|(? & [= <-] & Hset)]]; [done|].
      destruct Hin. apply Hset. left. }
  unfold LightChanges.new. destruct values as [|v values]; [naive_solver|].
  rewrite bind_Ok. setoid_rewrite Heach; [|constructor]. simpl.
  split.
  - intros ([] & (Hnd & [?|Hset]) & [= <-]); done.
  - intros (-> & _ & Hnd & Hset). exists tt. split_and!; auto.
Qed.

(** A flag prevails over the file, and the file over the default. *)
Lemma slot_limits_parallel flags file :
  Setting.value (SlotLimits.parallel (SlotLimits.resolve flags file))
  = unwrap_or (SlotFlags.parallel flags)
      (unwrap_or (SupervisorConfig.parallel file) DEFAULT_PARALLEL).
Proof. simpl. by destruct (SlotFlags.parallel flags), (SupervisorConfig.parallel file). Qed.
