(* ===== verification/Concern.v ===== *)
(** * What becomes of a review's concern

    [src/src/domain/concern.rs]: whether the runtime applies what the review
    job recommends for its [concern], or asks a person, and how the fields of
    a verdict are read. *)
From S2P Require Import Prelude Text Vocab.

Module ConcernDecision.
Inductive t : Set :=
  | Land
  | SendBack
  | Ask (because : EscalatedBecause).
#[global] Instance eq_dec : EqDecision t.
Proof. solve_decision. Defined.
End ConcernDecision.
Abbreviation ConcernDecision := ConcernDecision.t.

Definition decide_concern (recommendation : option LandingRecommendation)
    (confidence : option AskConfidence) (reason_category : option ConcernReason)
    (revise_left : bool) : ConcernDecision :=
  match recommendation with
  | None => ConcernDecision.Ask EscalatedBecause.NoRecommendation
  | Some recommendation =>
      match reason_category with
      | Some ConcernReason.Scope => ConcernDecision.Ask EscalatedBecause.Scope
      | Some ConcernReason.Discard => ConcernDecision.Ask EscalatedBecause.Discard
      | None =>
          if bool_decide (confidence ≠ Some AskConfidence.High)
          then ConcernDecision.Ask EscalatedBecause.LowConfidence
          else match recommendation with
          | LandingRecommendation.Land => ConcernDecision.Land
          | LandingRecommendation.SendBack =>
              if revise_left then ConcernDecision.SendBack
              else ConcernDecision.Ask EscalatedBecause.ReviseLimit
          end
      end
  end.

(** [value.map(str::trim).filter(|v| !v.is_empty())]. *)
Definition given (value : option string) : option string :=
  v ← trim <$> value; if is_empty v then None else Some v.

Definition known {T} `{StringEnum T} (value : option string) : option T :=
  v ← given value; parse_enum v.

Definition reason (value : option string) : option ConcernReason :=
  v ← given value; Some (unwrap_or (parse_enum v) ConcernReason.Scope).

Lemma known_Some {T} `{StringEnumLaws T} value (t : T) :
  as_str t ≠ EmptyString →
  known value = Some t ↔ ∃ text, value = Some text ∧ trim text = as_str t.
Proof.
  intros Hne. unfold known, given. destruct value as [text|]; simpl; [|naive_solver].
  destruct (is_empty (trim text)) eqn:He; simpl.
  - split; [done|]. intros (? & [= <-] & Ht). rewrite <-Ht in Hne. by destruct (trim text).
  - rewrite parse_Some. split.
    + intros Ht. by exists text.
    + by intros (? & [= <-] & Ht).
Qed.

Lemma reason_None value :
  reason value = None ↔ value = None ∨ ∃ text, value = Some text ∧ is_blank text = true.
Proof.
  unfold reason, given, is_blank.
  destruct value as [text|]; simpl; [|split; [by left|done]].
  destruct (is_empty (trim text)) eqn:He; simpl.
  - split; [|done]. intros _. right. by exists text.
  - split; [done|]. intros [?|(? & [= <-] & ?)]; [done|congruence].
Qed.

(** From the text of a verdict, a concern is landed without a person
    exactly when the job recommends [land] with [high] confidence and names
    no reason a person is needed, and sent back exactly when it recommends
    [send_back] so and the run has a revise left; a missing or unknown
    recommendation or confidence, and any reason that is not blank, an
    unknown one included, goes to a person. *)
Theorem concern_applied_exactly recommendation confidence category revise_left :
  let decision := decide_concern (known recommendation) (known confidence) (reason category)
    revise_left in
  let says value text := ∃ t, value = Some t ∧ trim t = text in
  let no_reason := category = None ∨ ∃ t, category = Some t ∧ is_blank t = true in
  (decision = ConcernDecision.Land ↔
     says recommendation "land" ∧ says confidence "high" ∧ no_reason)
  ∧ (decision = ConcernDecision.SendBack ↔
     says recommendation "send_back" ∧ says confidence "high" ∧ no_reason
     ∧ revise_left = true).
Proof.
  cbv zeta. unfold decide_concern.
  pose proof (known_Some recommendation LandingRecommendation.Land) as Hland. specialize (Hland ltac:(done)).
  pose proof (known_Some recommendation LandingRecommendation.SendBack) as Hback. specialize (Hback ltac:(done)).
  pose proof (known_Some confidence AskConfidence.High) as Hhigh. specialize (Hhigh ltac:(done)).
  cbn [as_str LandingRecommendation.string_enum LandingRecommendation.as_str
    AskConfidence.string_enum AskConfidence.as_str] in Hland, Hback, Hhigh.
  rewrite <-Hland, <-Hback, <-Hhigh, <-reason_None.
  destruct (known recommendation) as [[]|], (reason category) as [[]|],
    (known confidence) as [[]|], revise_left; simpl;
    split; split; intros; destruct_and?; done.
Qed.
