(* ===== verification/Replans.v ===== *)
(** * Replanning operations

    [src/src/domain/task_replan.rs]: where an operation stands and the moves
    between, what it guards, the checks of its moves, its condition mappings,
    and the one open operation a task keeps; and the writes of
    [src/src/infrastructure/replans.rs] that carry them out on the table of
    operations.

    A table is the list of its rows in the order of their ids.  The planning
    requests, proposals and events the same transactions write are other
    tables and are not here; nor are the columns no decision below reads (the
    copied conditions, the mappings' authority, who asked). *)
From S2P Require Import Prelude Text Vocab Ids Errors.

Module Replan.

(** ** Where an operation stands *)
Definition is_closed (self : ReplanStatus) : bool :=
  match self with
  | ReplanStatus.Continuing | ReplanStatus.Applied
  | ReplanStatus.ContinuingAfterPark | ReplanStatus.Withdrawn => true
  | _ => false
  end.

Definition guards (self : ReplanStatus) : bool :=
  negb (is_closed self)
  && match self with ReplanStatus.Candidate | ReplanStatus.Diagnosing => false | _ => true end.

Definition parks (self : ReplanStatus) : bool :=
  match self with
  | ReplanStatus.PauseRequested | ReplanStatus.Quiescing | ReplanStatus.Snapshotting => true
  | _ => false
  end.

Definition needs_snapshot (self : ReplanStatus) : bool :=
  match self with
  | ReplanStatus.Parked | ReplanStatus.Planning | ReplanStatus.Reviewing
  | ReplanStatus.AwaitingAnswer | ReplanStatus.Applying | ReplanStatus.Applied => true
  | _ => false
  end.

Definition ends_request_undecided (self : ReplanStatus) (planner_open : bool) : bool :=
  is_closed self && negb planner_open.

Definition hands_to_planner (self : ReplanStatus) : bool :=
  match self with
  | ReplanStatus.Parked | ReplanStatus.Planning | ReplanStatus.Reviewing
  | ReplanStatus.AwaitingAnswer => true
  | _ => false
  end.

Definition renews_request (self to : ReplanStatus) (declined_at_close : bool) : bool :=
  negb (hands_to_planner self) && hands_to_planner to && declined_at_close.

Definition reopens (self : ReplanStatus) : bool :=
  match self with
  | ReplanStatus.ContinuingAfterPark | ReplanStatus.Withdrawn => true
  | _ => false
  end.

Definition next (self : ReplanStatus) : list ReplanStatus :=
  match self with
  | ReplanStatus.Candidate =>
      [ReplanStatus.Diagnosing; ReplanStatus.Continuing; ReplanStatus.PauseRequested]
  | ReplanStatus.Diagnosing =>
      [ReplanStatus.Diagnosing; ReplanStatus.Continuing; ReplanStatus.PauseRequested;
       ReplanStatus.Blocked]
  | ReplanStatus.PauseRequested =>
      [ReplanStatus.Quiescing; ReplanStatus.Snapshotting; ReplanStatus.Continuing;
       ReplanStatus.Blocked]
  | ReplanStatus.Quiescing =>
      [ReplanStatus.Snapshotting; ReplanStatus.Continuing; ReplanStatus.Blocked]
  | ReplanStatus.Snapshotting =>
      [ReplanStatus.Parked; ReplanStatus.Continuing; ReplanStatus.Blocked]
  | ReplanStatus.Parked =>
      [ReplanStatus.Planning; ReplanStatus.ContinuingAfterPark; ReplanStatus.Blocked]
  | ReplanStatus.Planning =>
      [ReplanStatus.Reviewing; ReplanStatus.ContinuingAfterPark; ReplanStatus.Withdrawn;
       ReplanStatus.Blocked]
  | ReplanStatus.Reviewing | ReplanStatus.AwaitingAnswer =>
      [ReplanStatus.Planning; ReplanStatus.Reviewing; ReplanStatus.AwaitingAnswer;
       ReplanStatus.Applying; ReplanStatus.ContinuingAfterPark; ReplanStatus.Withdrawn;
       ReplanStatus.Blocked]
  | ReplanStatus.Applying => [ReplanStatus.Applied; ReplanStatus.Blocked]
  | ReplanStatus.Blocked =>
      [ReplanStatus.Quiescing; ReplanStatus.Snapshotting; ReplanStatus.Parked;
       ReplanStatus.Planning; ReplanStatus.Reviewing; ReplanStatus.Applying;
       ReplanStatus.ContinuingAfterPark; ReplanStatus.Withdrawn]
  | ReplanStatus.ContinuingAfterPark | ReplanStatus.Withdrawn => [ReplanStatus.Blocked]
  | ReplanStatus.Continuing | ReplanStatus.Applied => []
  end.

Definition can_move_to (self to : ReplanStatus) : bool := bool_decide (to ∈ next self).

(** ** What guards a task *)
Record ReplanGuard : Set := mk_guard {
  guard_task : TaskId;
  guard_operation : ReplanId;
  guard_status : ReplanStatus;
}.
Record HoldGuard : Set := mk_hold { hold_task : TaskId; hold_hold : HoldId }.
Record TaskGuards : Set := mk_guards {
  guards_replan : option ReplanGuard;
  guards_hold : option HoldGuard;
}.

(** [Option::filter] of the guard that still guards. *)
Definition fencing (guard : option ReplanGuard) : option ReplanGuard :=
  g ← guard; if guards (guard_status g) then Some g else None.

Inductive Fence : Set :=
  | FenceReplan (guard : ReplanGuard)
  | FenceHold (hold : HoldGuard).

Definition fence (self : TaskGuards) : option Fence :=
  match fencing (guards_replan self), guards_hold self with
  | Some replan, _ => Some (FenceReplan replan)
  | None, Some hold => Some (FenceHold hold)
  | None, None => None
  end.

Definition holds_step (step : GuardedStep) : bool :=
  match step with
  | GuardedStep.Claim | GuardedStep.Resume | GuardedStep.Recover | GuardedStep.Revise
  | GuardedStep.Integrate => true
  | _ => false
  end.

Definition check_step (self : TaskGuards) (step : GuardedStep) : Result unit :=
  match fencing (guards_replan self) with
  | Some guard =>
      Err (DomainError.TaskReplanning (guard_task guard) (guard_operation guard)
             (guard_status guard) step)
  | None =>
      match guards_hold self with
      | Some hold =>
          if holds_step step
          then Err (DomainError.TaskHeld (hold_task hold) (hold_hold hold) step)
          else Ok tt
      | None => Ok tt
      end
  end.

Definition check_replannable (run_id : RunId) (run : RunStatus) (task : TaskStatus)
    (latest : bool) : Result unit :=
  require
    (latest && bool_decide (task = TaskStatus.InProgress)
     && negb (bool_decide (run = RunStatus.Integrated) || bool_decide (run = RunStatus.Succeeded)))
    (DomainError.RunNotReplannable run_id run task).

(** ** Operations *)
Inductive ReplanCause : Set :=
  LocalDefect | AcceptanceUnclear | OversizedUnit | Conflict | Verification | Environment.
Inductive DiagnosisChoice : Set := ChooseContinue | ChooseReplan | ChooseAsk.

Record DiagnosisPremise : Set := mk_premise {
  premise_run_status : RunStatus;
  premise_read_until : option EventId;
  premise_head : option string;
  premise_manual : option bool;
  premise_max_auto_parks : option nat;
}.

(** Whether the run's HEAD is another than the one the job read. *)
Definition head_moved (self : DiagnosisPremise) (now : option string) : bool :=
  match premise_head self, now with
  | Some read, Some now => negb (bool_decide (read = now))
  | _, _ => false
  end.

Record Diagnosis : Set := mk_diagnosis {
  evidence : list EventId;
  causes : list ReplanCause;
  choice : option DiagnosisChoice;
  confidence : option string;
  next_check : option string;
  window_end : option EventId;
  remaining : option nat;
  decided_by : option string;
  summary : option string;
  premise : option DiagnosisPremise;
}.
#[global] Instance diagnosis_updatable : Updatable Diagnosis :=
  λ d, mk_diagnosis (evidence d) (causes d) (choice d) (confidence d) (next_check d)
    (window_end d) (remaining d) (decided_by d) (summary d) (premise d).
Definition no_diagnosis : Diagnosis :=
  mk_diagnosis [] [] None None None None None None None None.

Record Operation : Set := mk_operation {
  id : ReplanId;
  task_id : TaskId;
  run_id : RunId;
  goal_id : option GoalId;
  origin : ReplanOrigin;
  status : ReplanStatus;
  status_reason : option string;
  (** An [i64] that counts moves: never near its bound. *)
  generation : Z;
  return_phase : option ReplanStatus;
  reason : string;
  task_version : string;
  goal_acceptance_version : option Z;
  diagnosis : Diagnosis;
  snapshot_id : option string;
  request_id : option RequestId;
  proposal_id : option ProposalId;
  created_at : Z;
  updated_at : Z;
  closed_at : option Z;
}.
#[global] Instance operation_updatable : Updatable Operation :=
  λ o, mk_operation (id o) (task_id o) (run_id o) (goal_id o) (origin o) (status o)
    (status_reason o) (generation o) (return_phase o) (reason o) (task_version o)
    (goal_acceptance_version o) (diagnosis o) (snapshot_id o) (request_id o) (proposal_id o)
    (created_at o) (updated_at o) (closed_at o).

Definition guard (self : Operation) : option ReplanGuard :=
  then_some (guards (status self)) (mk_guard (task_id self) (id self) (status self)).

Record ReplanMove : Set := mk_move {
  to : ReplanStatus;
  move_reason : string;
  move_snapshot : option string;
  move_diagnosis : option Diagnosis;
}.

Definition into_apply (status : ReplanStatus) : bool :=
  match status with ReplanStatus.Applying | ReplanStatus.Applied => true | _ => false end.

Definition check_move_as (op : Operation) (generation_read : Z) (step : ReplanMove)
    (apply : bool) : Result unit :=
  _ ← require (bool_decide (generation op = generation_read))
    (DomainError.ReplanGenerationStale (id op) generation_read (generation op));
  _ ← require (can_move_to (status op) (to step))
    (DomainError.ReplanMoveNotAllowed (id op) (status op) (to step));
  _ ← require (apply || negb (into_apply (to step)))
    (DomainError.ReplanApplyUnavailable (id op));
  _ ← require
    (negb (needs_snapshot (to step)) || is_some (move_snapshot step) || is_some (snapshot_id op))
    (DomainError.ReplanNeedsSnapshot (id op) (to step));
  require (negb (is_blank (move_reason step))) (DomainError.Blank "reason").

Definition check_move (op : Operation) (generation_read : Z) (step : ReplanMove) : Result unit :=
  check_move_as op generation_read step false.
Definition check_apply_move (op : Operation) (generation_read : Z) (step : ReplanMove) :
    Result unit :=
  check_move_as op generation_read step true.

Definition generation_after (from to : ReplanStatus) (generation : Z) : Z :=
  if (bool_decide (to = ReplanStatus.PauseRequested) && negb (guards from))
     || bool_decide (to = ReplanStatus.Diagnosing)
  then generation + 1 else generation.

Definition needs_task_alone (from to : ReplanStatus) : bool :=
  negb (is_closed to) && negb (guards from).

(** ** Condition mappings *)
Record ConditionMapping : Set := mk_mapping {
  ordinal : nat;
  hash : string;
  child_task_id : option TaskId;
  child_ordinal : option nat;
  disposition : string;
}.

(** The loop of [check_mappings], with the sets it fills. *)
Fixpoint check_each_mapping (operation : ReplanId) (deleted mapped : gset nat)
    (mappings : list ConditionMapping) : Result unit :=
  match mappings with
  | [] => Ok tt
  | mapping :: rest =>
      let n := ordinal mapping in
      '(deleted, mapped) ←
        (match child_task_id mapping with
         | None =>
             _ ← require (bool_decide (n ∉ deleted))
               (DomainError.ReplanDeletionRepeated operation n);
             Ok ({[n]} ∪ deleted, mapped)
         | Some _ => Ok (deleted, {[n]} ∪ mapped)
         end : Result (gset nat * gset nat));
      _ ← require (negb (bool_decide (n ∈ deleted) && bool_decide (n ∈ mapped)))
        (DomainError.ReplanDeletionMapped operation n);
      check_each_mapping operation deleted mapped rest
  end.

Definition check_mappings (operation : ReplanId) (existing added : list ConditionMapping) :
    Result unit :=
  check_each_mapping operation ∅ ∅ (existing ++ added).

(** ** The operation a task keeps *)
Record Carry : Set := mk_carry {
  kept : option ReplanId;
  moved : option (ReplanId * Z);
  superseded : list ReplanId;
}.

(** [open.last()]. *)
Definition current (open : list Operation) : option Operation :=
  match List.find (λ op, guards (status op)) open with
  | Some op => Some op
  | None => last open
  end.

Definition carry (open : list Operation) (latest : RunId) : Carry :=
  match current open with
  | None => mk_carry None None []
  | Some k =>
      mk_carry (Some (id k))
        (then_some (negb (guards (status k)) && negb (bool_decide (run_id k = latest)))
           (id k, generation k + 1)%Z)
        (id <$> List.filter
           (λ op, negb (bool_decide (id op = id k)) && negb (guards (status op))) open)
  end.

Inductive Request : Set :=
  | Join (operation : ReplanId)
  | Refuse (operation : ReplanId)
  | Open.

Definition request_on (kept : option Operation) (run : RunId) : Request :=
  match kept with
  | Some op =>
      if bool_decide (run_id op = run) || guards (status op) then Join (id op)
      else Refuse (id op)
  | None => Open
  end.

(** ** A person's resolution of a blocked operation *)
Inductive ReplanResolution : Set := ResolveContinue | ResolveWithdraw | ResolveReplan.

Record ResolveState : Set := mk_resolve {
  resolve_operation : Operation;
  resolve_generation : Z;
  resolve_resolution : ReplanResolution;
  resolve_children : list (TaskId * TaskStatus);
  resolve_snapshot_problem : option string;
}.

(** A child that may not be claimed: what a resolution can release. *)
Definition releasable (status : TaskStatus) : bool :=
  match status with
  | TaskStatus.Draft | TaskStatus.Submitted | TaskStatus.Canceled => true
  | _ => false
  end.

Definition resolve_to (state : ResolveState) : Result ReplanStatus :=
  let op := resolve_operation state in
  let refuse why := Err (DomainError.ReplanNotResolvable (id op) why) in
  if is_closed (status op) then
    refuse ("it is closed as " +:+ as_str (status op) +:+ ", so there is nothing to resolve")
  else if negb (bool_decide (status op = ReplanStatus.Blocked)) then
    refuse ("it is " +:+ as_str (status op) +:+ ", not blocked: the runtime moves it on")
  else if negb (bool_decide (generation op = resolve_generation state)) then
    refuse ("it is at generation " +:+ decimal (generation op) +:+ ", not "
      +:+ decimal (resolve_generation state) +:+ ": read it again (`replans "
      +:+ ReplanId.display (id op) +:+ "`) and decide on what it is now")
  else if bool_decide (return_phase op = Some ReplanStatus.Applying) then
    refuse "it was held at its apply, which the runtime's planner pass checks again and sends back to a planner itself; a snapshot that does not match is not resolved here"
  else match resolve_snapshot_problem state with
  | Some problem =>
      refuse ("its snapshot is not as the park saved it, and no choice overwrites it: "
        +:+ problem)
  | None =>
  match List.find (λ '(_, status), negb (releasable status)) (resolve_children state) with
  | Some (task, status) =>
      refuse ("task " +:+ TaskId.display task +:+ " of its replacement proposal is "
        +:+ as_str status +:+ ": a child that may be claimed is not released")
  | None =>
      Ok (match resolve_resolution state with
      | ResolveContinue => ReplanStatus.ContinuingAfterPark
      | ResolveWithdraw => ReplanStatus.Withdrawn
      | ResolveReplan =>
          if is_some (snapshot_id op) then ReplanStatus.Parked
          else if bool_decide (return_phase op = Some ReplanStatus.Snapshotting)
          then ReplanStatus.Snapshotting
          else ReplanStatus.Quiescing
      end)
  end
  end.

(** ** The records of a continuation *)
Record ReplanMoved : Set := mk_moved {
  moved_operation : ReplanId;
  moved_to : ReplanStatus;
  moved_generation : Z;
}.
Record RestoreRecord : Set := mk_restore {
  restore_operation : ReplanId;
  restore_generation : option Z;
}.
Inductive ContinuationRecord : Set :=
  | Moved (moved : ReplanMoved)
  | Restored (restored : RestoreRecord)
  | RestoreFailed (failed : RestoreRecord)
  | ResumeStarted
  | ResumeFinished.

(** [Iterator::find_map]. *)
Fixpoint find_map {A B} (f : A → option B) (l : list A) : option B :=
  match l with
  | [] => None
  | x :: l' => match f x with Some y => Some y | None => find_map f l' end
  end.

Definition restore_result (op : Operation) (record : ContinuationRecord) : option bool :=
  match record with
  | Restored restored =>
      then_some (bool_decide (restore_operation restored = id op))
        (is_none_or (restore_generation restored) (λ g, bool_decide (g = generation op)))
  | RestoreFailed failed =>
      then_some (bool_decide (restore_operation failed = id op)) false
  | _ => None
  end.

Definition restored_now (op : Operation) (records : list ContinuationRecord) : bool :=
  unwrap_or (find_map (restore_result op) (rev records)) false.

(** The move into the status and generation the operation is at. *)
Definition moved_here (op : Operation) (record : ContinuationRecord) : bool :=
  match record with
  | Moved m =>
      bool_decide (moved_operation m = id op) && bool_decide (moved_to m = status op)
      && bool_decide (moved_generation m = generation op)
  | _ => false
  end.

(** [&records[since..]]: what follows the last record that satisfies [p], all
    of them when none does. *)
Fixpoint after_last (p : ContinuationRecord → bool) (l : list ContinuationRecord) :
    list ContinuationRecord :=
  match l with
  | [] => []
  | x :: l' => if existsb p l' then after_last p l' else if p x then l' else x :: l'
  end.

Fixpoint no_resume_finished (started : bool) (records : list ContinuationRecord) : bool :=
  match records with
  | [] => true
  | ResumeStarted :: rest => no_resume_finished true rest
  | ResumeFinished :: rest => if started then false else no_resume_finished started rest
  | _ :: rest => no_resume_finished started rest
  end.

Definition first_resume_of_continuation (op : Operation) (records : list ContinuationRecord) :
    bool :=
  no_resume_finished false (after_last (moved_here op) records).

(** ** The writes on the table of operations *)

(** What a write reads of the other tables, in its transaction: the guards of
    a diagnosis, whether the operation's request was declined by the runtime
    at its close and is open, and the id of the request it records if it
    records one. *)
Record Reads : Set := mk_reads {
  now_hold : option HoldId;
  now_task_status : TaskStatus;
  now_latest_run : option (RunId * RunStatus);
  (** The task's progress events, oldest first. *)
  now_progress : list (EventId * string);
  (** Whether a person's request of the operation is recorded. *)
  now_person_joined : bool;
  now_auto_parks : nat;
  now_task_version : string;
  now_declined_at_close : bool;
  now_request_open : bool;
  fresh_request : RequestId;
}.

Definition check_not_held (op : Operation) (now : Reads) : Result unit :=
  match now_hold now with
  | Some hold => Err (DomainError.ReplanDiagnosisHeld (id op) (task_id op) hold)
  | None => Ok tt
  end.

Definition is_landing (status : RunStatus) : bool :=
  match status with
  | RunStatus.Integrating | RunStatus.Integrated | RunStatus.Succeeded => true
  | _ => false
  end.

Definition check_premise (op : Operation) (to : ReplanStatus) (premise : DiagnosisPremise)
    (now : Reads) : Result unit :=
  let stale why := Err (DomainError.ReplanPremiseStale (id op) why) in
  let task := "task " +:+ TaskId.display (task_id op) in
  _ ← check_not_held op now;
  _ ← (if bool_decide (now_task_status now = TaskStatus.InProgress) then Ok tt
       else stale (task +:+ " is " +:+ as_str (now_task_status now)));
  _ ← match now_latest_run now with
      | Some (run, status) =>
          if bool_decide (run = run_id op) && bool_decide (status = premise_run_status premise)
             && negb (is_landing status)
          then Ok tt
          else stale ("run " +:+ RunId.as_str run +:+ " is " +:+ as_str status
                 +:+ ", and the diagnosis read run " +:+ RunId.as_str (run_id op) +:+ " "
                 +:+ as_str (premise_run_status premise))
      | None => stale (task +:+ " has no run")
      end;
  _ ← match premise_read_until premise with
      | Some window_end =>
          match List.find (λ '(event, _), (EventId.as_i64 window_end <? EventId.as_i64 event)%Z)
                  (now_progress now) with
          | Some (event, kind) =>
              stale (kind +:+ " event " +:+ EventId.display event
                +:+ " came after the last event it read (" +:+ EventId.display window_end
                +:+ ")")
          | None => Ok tt
          end
      | None => Ok tt
      end;
  _ ← (if bool_decide (premise_manual premise = Some false)
          && (bool_decide (origin op = ReplanOrigin.Manual) || now_person_joined now)
       then stale "a person's request joined the operation since it was decided"
       else Ok tt);
  _ ← match premise_max_auto_parks premise with
      | Some limit =>
          if bool_decide (to = ReplanStatus.PauseRequested) && (limit <=? now_auto_parks now)
          then stale ("the lineage's parks without a person are used up ("
                 +:+ decimal (Z.of_nat (now_auto_parks now)) +:+ " of "
                 +:+ decimal (Z.of_nat limit) +:+ ")")
          else Ok tt
      | None => Ok tt
      end;
  if bool_decide (now_task_version now = task_version op) then Ok tt
  else stale (task +:+ " was edited").

(** What a write is refused with: an error of the domain, an operation that is
    not there, or another one open on the task. *)
Inductive WriteError : Set :=
  | Refused (error : DomainError)
  | NoOperation (operation : ReplanId)
  | OtherOpen (operation : ReplanId) (task : TaskId) (other : ReplanId)
  | OpenOnOtherRun (operation : ReplanId) (task : TaskId) (run : RunId).

Definition of_domain {A} (r : Result A) : result WriteError A :=
  match r with Ok a => Ok a | Err e => Err (Refused e) end.

Definition read_operation (table : list Operation) (operation : ReplanId) :
    result WriteError Operation :=
  match List.find (λ op, bool_decide (id op = operation)) table with
  | Some op => Ok op
  | None => Err (NoOperation operation)
  end.

(** [SELECT ... WHERE task_id = task AND closed_at IS NULL ORDER BY id]. *)
Definition open_operations (table : list Operation) (task : TaskId) : list Operation :=
  List.filter (λ op, bool_decide (task_id op = task) && is_none (closed_at op)) table.

(** [UPDATE ... WHERE id = operation]. *)
Definition update_row (operation : ReplanId) (f : Operation → Operation)
    (table : list Operation) : list Operation :=
  (λ op, if bool_decide (id op = operation) then f op else op) <$> table.

(** A diagnosis keeps the evidence the request named. *)
Definition merged_diagnosis (old : Diagnosis) (made : option Diagnosis) : Diagnosis :=
  match made with
  | None => old
  | Some made => made <| evidence := dedup_onto (evidence old) (evidence made) |>
  end.

(** The request of the operation after a move: renewed on the way back to the
    planner, recorded at the fence of a diagnosis no person asked for. *)
Definition request_after (reads : Reads) (step : ReplanMove) (op : Operation) :
    option RequestId :=
  match request_id op with
  | Some request =>
      if renews_request (status op) (to step) true && now_declined_at_close reads
      then Some (fresh_request reads) else Some request
  | None =>
      if is_some (move_diagnosis step) && bool_decide (to step = ReplanStatus.PauseRequested)
      then Some (fresh_request reads) else None
  end.

Definition moved_row (reads : Reads) (step : ReplanMove) (now : Z) (op : Operation) : Operation :=
  op <| status_reason := Some (move_reason step) |>
     <| generation := generation_after (status op) (to step) (generation op) |>
     <| return_phase := then_some (bool_decide (to step = ReplanStatus.Blocked)) (status op) |>
     <| snapshot_id := match move_snapshot step with
                       | Some snapshot => Some snapshot
                       | None => snapshot_id op
                       end |>
     <| diagnosis := merged_diagnosis (diagnosis op) (move_diagnosis step) |>
     <| updated_at := now |>
     <| closed_at := then_some (is_closed (to step)) now |>
     <| request_id := request_after reads step op |>
     <| status := to step |>.

Definition move_in_as (reads : Reads) (table : list Operation)
    (operation : ReplanId) (generation_read : Z) (step : ReplanMove) (now : Z) (apply : bool) :
    result WriteError (list Operation) :=
  op ← read_operation table operation;
  _ ← of_domain (if apply then check_apply_move op generation_read step
                 else check_move op generation_read step);
  _ ← of_domain
        match move_diagnosis step ≫= premise with
        | Some premise => check_premise op (to step) premise reads
        | None =>
            if bool_decide (to step = ReplanStatus.Diagnosing)
            then check_not_held op reads else Ok tt
        end;
  _ ← (if needs_task_alone (status op) (to step) then
         match List.find (λ other, negb (bool_decide (id other = operation)))
                 (open_operations table (task_id op)) with
         | Some other => Err (OtherOpen operation (task_id op) (id other))
         | None => Ok tt
         end
       else Ok tt);
  Ok (update_row operation (moved_row reads step now) table).

Definition move_in (reads : Reads) (table : list Operation)
    (operation : ReplanId) (generation_read : Z) (step : ReplanMove) (now : Z) :
    result WriteError (list Operation) :=
  move_in_as reads table operation generation_read step now false.

(** The close of [others] as superseded by [kept], one after the other. *)
Fixpoint supersede (reads : Reads) (why : string) (others : list Operation)
    (now : Z) (table : list Operation) : result WriteError (list Operation) :=
  match others with
  | [] => Ok table
  | older :: rest =>
      table ← move_in reads table (id older) (generation older)
        (mk_move ReplanStatus.Continuing why None None) now;
      supersede reads why rest now table
  end.

Definition carry_open_to (reads : Reads) (table : list Operation) (task : TaskId)
    (run : RunId) (now : Z) : result WriteError (list Operation) :=
  let open := open_operations table task in
  let carried := carry open run in
  match kept carried with
  | None => Ok table
  | Some k =>
      table ← supersede reads
        ("superseded by replan operation " +:+ ReplanId.display k +:+ " of the task")
        (List.filter (λ op, bool_decide (id op ∈ superseded carried)) open) now table;
      match moved carried with
      | None => Ok table
      | Some (operation, g) =>
          Ok (update_row operation
                (λ op, op <| run_id := run |> <| generation := g |> <| updated_at := now |>)
                table)
      end
  end.

(** A request or proposal on a run of the task: the table after it, the
    operation it joined or opened, and whether it opened it. *)
Record NewReplan : Set := mk_new { new_run : RunId; new_reason : string; new_evidence : list EventId }.

Definition record_replan (reads : Reads) (table : list Operation)
    (new : NewReplan) (new_origin : ReplanOrigin) (task : TaskId) (run_status : RunStatus)
    (task_status : TaskStatus) (goal : option GoalId) (latest : RunId) (version : string)
    (acceptance_version : option Z) (fresh : ReplanId) (now : Z) :
    result WriteError (list Operation * ReplanId * bool) :=
  _ ← of_domain (require (negb (is_blank (new_reason new))) (DomainError.Blank "reason"));
  table ← (if bool_decide (latest = new_run new)
           then carry_open_to reads table task (new_run new) now else Ok table);
  '(table, operation, created) ←
  (match request_on (current (open_operations table task)) (new_run new) with
  | Join operation => Ok (table, operation, false)
  | Refuse operation => Err (OpenOnOtherRun operation task (new_run new))
  | Open =>
      _ ← of_domain (check_replannable (new_run new) run_status task_status
                       (bool_decide (latest = new_run new)));
      Ok (table ++ [mk_operation fresh task (new_run new) goal new_origin ReplanStatus.Candidate
                      None 1 None (new_reason new) version acceptance_version
                      (no_diagnosis <| evidence := new_evidence new |>)
                      None None None now now None],
          fresh, true)
  end : result WriteError (list Operation * ReplanId * bool));
  op ← read_operation table operation;
  Ok (if bool_decide (new_origin = ReplanOrigin.Manual) && is_none (request_id op)
      then update_row operation
             (λ op, op <| request_id := Some (fresh_request reads) |> <| updated_at := now |>)
             table
      else table,
      operation, created).

(** [reopen_blocked]: [None] when an operation that guards the task keeps it. *)
Definition reopen_blocked (reads : Reads) (table : list Operation)
    (operation : ReplanId) (generation_read : Z) (why : string) (now : Z) :
    result WriteError (option (list Operation)) :=
  op ← read_operation table operation;
  let open := open_operations table (task_id op) in
  if existsb (λ other, guards (status other)) open then Ok None else
  table ← supersede reads
    ("superseded by replan operation " +:+ ReplanId.display operation
     +:+ " of the task, held blocked again: " +:+ why)
    (List.filter (λ other, negb (bool_decide (id other = operation))) open) now table;
  table ← move_in reads table operation generation_read
    (mk_move ReplanStatus.Blocked why None None) now;
  Ok (Some table).

Definition choice_text (resolution : ReplanResolution) : string :=
  match resolution with
  | ResolveContinue => "continue the run on its saved work"
  | ResolveWithdraw => "withdraw the plan and continue the run on its saved work"
  | ResolveReplan => "plan it again"
  end.

(** [replan_again]: back to [parked], on a new request when its own ended. *)
Definition replan_again (reads : Reads) (table : list Operation) (op : Operation)
    (why : string) (now : Z) : result WriteError (list Operation) :=
  table ← move_in reads table (id op) (generation op)
    (mk_move ReplanStatus.Parked why None None) now;
  moved ← read_operation table (id op);
  Ok (if is_some (request_id moved) && bool_decide (request_id moved = request_id op)
         && negb (now_request_open reads)
      then update_row (id op) (λ op, op <| request_id := Some (fresh_request reads) |>) table
      else table).

Definition resolve_replan (reads : Reads) (table : list Operation)
    (operation : ReplanId) (generation_read : Z) (resolution : ReplanResolution)
    (why by_role : string) (children : list (TaskId * TaskStatus))
    (snapshot_problem : option string) (now : Z) : result WriteError (list Operation) :=
  _ ← of_domain (require (negb (is_blank why)) (DomainError.Blank "reason"));
  op ← read_operation table operation;
  target ← of_domain (resolve_to (mk_resolve op generation_read resolution children
                                    snapshot_problem));
  let g := (generation op + 1)%Z in
  let raise op := op <| generation := g |> <| updated_at := now |> in
  let table := update_row operation raise table in
  let why := by_role +:+ " chose to " +:+ choice_text resolution +:+ ": " +:+ why in
  if bool_decide (target = ReplanStatus.Parked)
  then replan_again reads table (raise op) why now
  else move_in reads table operation g (mk_move target why None None) now.

(** [guard_of]: the first operation of the task that guards it. *)
Definition guard_of (table : list Operation) (task : TaskId) : option ReplanGuard :=
  (λ op, mk_guard task (id op) (status op)) <$>
    List.find (λ op, bool_decide (task_id op = task) && guards (status op)) table.

(** ** The moves an operation makes *)
Definition moves : relation ReplanStatus := λ s s', can_move_to s s' = true.

Lemma can_move_to_spec s s' : can_move_to s s' = true ↔ s' ∈ next s.
Proof. apply bool_decide_eq_true. Qed.

Lemma closed_not_guarding s : is_closed s = true → guards s = false.
Proof. by destruct s. Qed.

(** Past the pause's fence an operation never goes back to where it leaves
    its run going: it guards its task, or it has ended. *)
Lemma fenced_stays s s' :
  rtc moves s s' → guards s = true ∨ reopens s = true ∨ s = ReplanStatus.Applied →
  guards s' = true ∨ is_closed s' = true.
Proof.
  intros Hsteps Hs.
  assert (guards s' = true ∨ reopens s' = true ∨ s' = ReplanStatus.Applied
          ∨ s' = ReplanStatus.Continuing) as Hs'.
  { apply (rtc_invariant moves (λ s, guards s = true ∨ reopens s = true
      ∨ s = ReplanStatus.Applied ∨ s = ReplanStatus.Continuing) s s'); [|done|naive_solver].
    intros a b Ha Hab%can_move_to_spec. destruct a; simpl in Hab; try (destruct_or?; done);
      repeat (apply elem_of_cons in Hab as [->|Hab]; [by auto|]); by apply elem_of_nil in Hab. }
  destruct Hs' as [?|[Hr|[-> | ->]]]; auto. right. by destruct s'.
Qed.

(** A continuation before the park and an applied replacement are final. *)
Lemma final_stays s s' :
  rtc moves s s' → s = ReplanStatus.Continuing ∨ s = ReplanStatus.Applied → s' = s.
Proof.
  intros Hsteps Hs. destruct Hsteps as [|? y ? Hxy _]; [done|].
  apply can_move_to_spec in Hxy. destruct Hs as [-> | ->]; by apply elem_of_nil in Hxy.
Qed.

(** ** The checks *)
Lemma check_move_as_Ok op g step apply u :
  check_move_as op g step apply = Ok u ↔
  generation op = g ∧ to step ∈ next (status op)
  ∧ (into_apply (to step) = true → apply = true)
  ∧ (needs_snapshot (to step) = true → is_some (move_snapshot step) || is_some (snapshot_id op))
  ∧ is_blank (move_reason step) = false.
Proof.
  destruct u. unfold check_move_as. rewrite <-can_move_to_spec. split.
  - intros H. res_inv. bool_split. destruct_and?.
    repeat match goal with H : _ || _ = true |- _ => apply orb_true_iff in H end.
    split_and!; try done.
    + intros Happ. by destruct apply, (into_apply (to step)); destruct_or?.
    + intros Hsnap. rewrite Hsnap in *. destruct (is_some (move_snapshot step)); [done|].
      naive_solver.
  - intros (Hg & Hmove & Happ & Hsnap & Hreason). rewrite bool_decide_true by done. simpl.
    rewrite Hmove. simpl.
    assert (apply || negb (into_apply (to step)) = true) as ->.
    { destruct (into_apply (to step)), apply; try done. by specialize (Happ eq_refl). }
    simpl. assert (negb (needs_snapshot (to step)) || is_some (move_snapshot step)
                   || is_some (snapshot_id op) = true) as ->.
    { destruct (needs_snapshot (to step)); [|done]. simpl. by apply Is_true_eq_true, Hsnap. }
    simpl. by rewrite Hreason.
Qed.

Lemma fencing_Some g g' : fencing g = Some g' ↔ g = Some g' ∧ guards (guard_status g') = true.
Proof.
  unfold fencing. destruct g as [g|]; simpl; [|by split; intros; destruct_and?].
  destruct (guards (guard_status g)) eqn:Hg; split.
  - by intros [= <-].
  - by intros [? _].
  - done.
  - intros [[= <-] ?]. congruence.
Qed.

(** An ordinary step of a task or its run goes on exactly when no
    replanning operation guards the task and no hold reaches the step: an
    operation past its fence refuses every step, a hold the claim, the
    resume, the recovery, the revise and the landing but not a change of the
    plan; each refuses whatever the other says, the operation named first;
    and the run's turn is fenced exactly while either is there. *)
Theorem check_step_exact (self : TaskGuards) step :
  let replanning g := guards_replan self = Some g ∧ guards (guard_status g) = true in
  (check_step self step = Ok tt ↔
     (∀ g, ¬ replanning g)
     ∧ (∀ h, guards_hold self = Some h →
          step ∈ [GuardedStep.Ready; GuardedStep.Edit; GuardedStep.Cancel;
                  GuardedStep.Dependency]))
  ∧ (∀ g, replanning g →
       check_step self step = Err (DomainError.TaskReplanning (guard_task g)
         (guard_operation g) (guard_status g) step))
  ∧ (fence self = None ↔ check_step self GuardedStep.Claim = Ok tt).
Proof.
  cbv zeta. setoid_rewrite <-fencing_Some. unfold check_step, fence.
  destruct (fencing (guards_replan self)) as [g|].
  { split_and!; [|by intros ? [= <-]|done]. split; [done|]. intros [Hnone _]. by destruct (Hnone g). }
  destruct (guards_hold self) as [h|]; simpl.
  - split_and!; [|done|by split]. destruct step; simpl;
      (split; [intros H; first [discriminate H | split; [done|intros; set_solver]]|]);
      intros [_ Hstep]; specialize (Hstep h eq_refl); try done;
      repeat (apply elem_of_cons in Hstep as [?|Hstep]; [done|]); by apply elem_of_nil in Hstep.
  - split_and!; [|done|by split]. split; [|done]. by split.
Qed.

Definition is_deletion (m : ConditionMapping) : bool := is_none (child_task_id m).
Definition deleted_items (l : list ConditionMapping) : list nat :=
  ordinal <$> List.filter is_deletion l.
Definition mapped_items (l : list ConditionMapping) : list nat :=
  ordinal <$> List.filter (negb ∘ is_deletion) l.

Lemma check_each_mapping_Ok operation l deleted mapped u :
  deleted ## mapped →
  check_each_mapping operation deleted mapped l = Ok u ↔
  NoDup (deleted_items l)
  ∧ (∀ n, n ∈ deleted_items l → (n ∉ deleted) ∧ (n ∉ mapped) ∧ n ∉ mapped_items l)
  ∧ (∀ n, n ∈ mapped_items l → n ∉ deleted).
Proof.
  destruct u. revert deleted mapped.
  induction l as [|m l IH]; intros deleted mapped Hdisj; cbn [check_each_mapping].
  { split; [|done]. intros _. split_and!; [constructor|..]; by intros n ?%elem_of_nil. }
  unfold deleted_items, mapped_items in *. cbn [List.filter].
  change ((negb ∘ is_deletion) m) with (negb (is_deletion m)).
  destruct (child_task_id m) as [child|] eqn:Hchild; simpl;
    [assert (is_deletion m = false) as Hm by (unfold is_deletion; by rewrite Hchild)
    |assert (is_deletion m = true) as Hm by (unfold is_deletion; by rewrite Hchild)];
    rewrite Hm; cbn [negb]; rewrite ?fmap_cons; clear Hm.
  - case_bool_decide as Hdel; [rewrite bool_decide_true by set_solver|
      rewrite andb_false_l || rewrite (bool_decide_false (_ ∈ deleted)) by done]; simpl.
    + split; [done|]. intros (_ & _ & Hm). destruct (Hm (ordinal m)); [left|done].
    + rewrite IH by set_solver. clear IH.
      setoid_rewrite not_elem_of_union. setoid_rewrite not_elem_of_singleton.
      setoid_rewrite elem_of_cons. split; intros (Hnd & Hd & Hm); split_and!; try done.
      * intros n Hn. specialize (Hd n Hn). tauto.
      * intros n [->|Hn]; auto.
      * intros n Hn. specialize (Hd n Hn). tauto.
      * auto.
  - case_bool_decide as Hdel; simpl; [|split; [done|]; intros (_ & Hd & _);
      by destruct (Hd (ordinal m) (list_elem_of_here _ _)) as (? & _)].
    rewrite (bool_decide_true (ordinal m ∈ {[ordinal m]} ∪ deleted)) by set_solver. simpl.
    case_bool_decide as Hmap; simpl.
    + split; [done|]. intros (_ & Hd & _).
      by destruct (Hd (ordinal m) (list_elem_of_here _ _)) as (_ & ? & _).
    + rewrite IH by set_solver. clear IH. rewrite NoDup_cons.
      setoid_rewrite not_elem_of_union. setoid_rewrite not_elem_of_singleton.
      setoid_rewrite elem_of_cons. split; [intros (Hnd & Hd & Hm)|intros ([Ho Hnd] & Hd & Hm)];
        split_and!; try done.
      * intros Hn. by destruct (Hd _ Hn) as [[? _] _].
      * intros n [->|Hn]; [|by specialize (Hd n Hn); tauto]. split_and!; try done.
        intros Hn. by destruct (Hm _ Hn).
      * intros n Hn. by destruct (Hm n Hn).
      * intros n Hn. specialize (Hd n (or_intror Hn)). split; [|tauto]. split; [congruence|tauto].
      * intros n Hn. split; [|by apply Hm]. intros ->.
        by destruct (Hd _ (or_introl eq_refl)) as (_ & _ & ?).
Qed.

(** Condition mappings are taken exactly when no acceptance item is
    deleted twice and no deleted item has a child, counting those recorded
    before; an item may go to several children. *)
Theorem check_mappings_exact operation existing added u :
  let all := existing ++ added in
  check_mappings operation existing added = Ok u ↔
  NoDup (deleted_items all) ∧ ∀ n, n ∈ deleted_items all → n ∉ mapped_items all.
Proof.
  cbv zeta. unfold check_mappings. rewrite check_each_mapping_Ok by set_solver. split.
  - intros (Hnd & Hd & _). split; [done|]. intros n Hn. by apply Hd.
  - intros [Hnd Hd]. split_and!; [done| |set_solver].
    intros n Hn. split_and!; [set_solver..|by apply Hd].
Qed.

(** ** The table of operations *)
Record row_wf (op : Operation) : Prop := {
  row_closed : is_some (closed_at op) = is_closed (status op);
  row_snapshot : needs_snapshot (status op) = true → is_some (snapshot_id op) = true;
  row_phase : is_some (return_phase op) = bool_decide (status op = ReplanStatus.Blocked);
}.

(** One row per id, each well formed, and one open operation at most per
    task. *)
Record table_wf (table : list Operation) : Prop := {
  ids_unique : NoDup (id <$> table);
  rows_wf : ∀ op, op ∈ table → row_wf op;
  one_open : ∀ a b, a ∈ table → b ∈ table → closed_at a = None → closed_at b = None →
    task_id a = task_id b → id a = id b;
}.

Lemma read_operation_Ok table operation op :
  read_operation table operation = Ok op → op ∈ table ∧ id op = operation.
Proof.
  unfold read_operation. destruct (List.find _ _) as [o|] eqn:Hfind; [|done].
  intros [= <-]. apply List.find_some in Hfind as [Hin Hid].
  apply bool_decide_eq_true in Hid. by rewrite list_elem_of_In.
Qed.

Lemma elem_of_open table task op :
  op ∈ open_operations table task ↔ op ∈ table ∧ task_id op = task ∧ closed_at op = None.
Proof.
  unfold open_operations. rewrite list_elem_of_In, filter_In, <-list_elem_of_In.
  rewrite andb_true_iff, bool_decide_eq_true. unfold is_none.
  destruct (closed_at op); naive_solver.
Qed.

Lemma elem_of_update operation f table x :
  x ∈ update_row operation f table ↔
  (x ∈ table ∧ id x ≠ operation) ∨ ∃ y, y ∈ table ∧ id y = operation ∧ x = f y.
Proof.
  unfold update_row. rewrite list_elem_of_fmap. split.
  - intros (y & -> & Hy). case_bool_decide; eauto.
  - intros [[Hx Hne]|(y & Hy & Hid & ->)].
    + exists x. by rewrite bool_decide_false.
    + exists y. by rewrite bool_decide_true.
Qed.

(** A write of one row keeps the table well formed when it keeps the row's
    id and task, leaves it well formed, and opens it only on a task with no
    other open operation. *)
Lemma update_row_wf operation f table op :
  table_wf table → op ∈ table → id op = operation →
  id (f op) = id op → task_id (f op) = task_id op → row_wf (f op) →
  (closed_at (f op) = None → closed_at op = None
     ∨ ∀ other, other ∈ open_operations table (task_id op) → id other = operation) →
  table_wf (update_row operation f table).
Proof.
  intros [Hnd Hrows Hone] Hop Hid Hfid Htask Hwf Hopen.
  assert (∀ y, y ∈ table → id y = operation → y = op) as Huniq.
  { intros y Hy Hyid. apply (nodup_key_inj id table); [done..|congruence]. }
  split.
  - assert (id <$> update_row operation f table = id <$> table) as ->; [|done].
    unfold update_row. rewrite <-list_fmap_compose. apply list_fmap_ext. intros i y Hy.
    simpl. case_bool_decide as Hyid; [|done].
    rewrite (Huniq y); [done|by eapply list_elem_of_lookup_2|done].
  - intros x [[Hx _]|(y & Hy & Hyid & ->)]%elem_of_update; [by apply Hrows|].
    by rewrite (Huniq y Hy Hyid).
  - intros a b Ha Hb Hca Hcb Htab.
    apply elem_of_update in Ha as [[Ha Hna]|(y & Hy & Hyid & ->)];
      apply elem_of_update in Hb as [[Hb Hnb]|(z & Hz & Hzid & ->)].
    + by apply Hone.
    + rewrite (Huniq z Hz Hzid) in *. destruct (Hopen Hcb) as [Hclosed|Halone].
      * rewrite Hfid. apply Hone; [done..|congruence].
      * destruct Hna. apply Halone, elem_of_open. split_and!; congruence.
    + rewrite (Huniq y Hy Hyid) in *. destruct (Hopen Hca) as [Hclosed|Halone].
      * rewrite Hfid. apply Hone; [done..|congruence].
      * destruct Hnb. apply Halone, elem_of_open. split_and!; congruence.
    + by rewrite (Huniq y Hy Hyid), (Huniq z Hz Hzid).
Qed.

(** What any write makes of the rows there were: each stays, of its task, and
    moves only along [next], its generation never falling. *)
Definition row_evolves (op op' : Operation) : Prop :=
  id op' = id op ∧ task_id op' = task_id op ∧ rtc moves (status op) (status op')
  ∧ (generation op ≤ generation op')%Z.
Definition evolves (table table' : list Operation) : Prop :=
  ∀ op, op ∈ table → ∃ op', op' ∈ table' ∧ row_evolves op op'.

#[global] Instance row_evolves_preorder : PreOrder row_evolves.
Proof.
  split.
  - intros op. split_and!; done || reflexivity.
  - intros a b c (H1 & H2 & H3 & H4) (H5 & H6 & H7 & H8).
    split_and!; [congruence|congruence|by etrans|lia].
Qed.
#[global] Instance evolves_preorder : PreOrder evolves.
Proof.
  split; [intros t op Hop; by exists op|].
  intros t1 t2 t3 H12 H23 op Hop. destruct (H12 op Hop) as (op' & Hop' & Hev).
  destruct (H23 op' Hop') as (op'' & Hop'' & Hev'). exists op''. split; [done|by etrans].
Qed.

Lemma update_row_evolves operation f table :
  (∀ op, op ∈ table → id op = operation → row_evolves op (f op)) →
  evolves table (update_row operation f table).
Proof.
  intros Hf op Hop. destruct (decide (id op = operation)) as [Hid|Hid].
  - exists (f op). split; [|by apply Hf]. apply elem_of_update. right. eauto.
  - exists op. split; [|reflexivity]. apply elem_of_update. by left.
Qed.

Lemma of_domain_Ok {A} (r : Result A) a : of_domain r = Ok a ↔ r = Ok a.
Proof. destruct r; simpl; split; congruence. Qed.

Lemma generation_after_le from to g : (g ≤ generation_after from to g)%Z.
Proof. unfold generation_after. case_match; lia. Qed.

Lemma find_none_id table operation task :
  List.find (λ other, negb (bool_decide (id other = operation))) (open_operations table task)
  = None → ∀ other, other ∈ open_operations table task → id other = operation.
Proof.
  intros Hnone other Hin. apply list_elem_of_In in Hin.
  pose proof (List.find_none _ _ Hnone _ Hin) as Hid. simpl in Hid. by bool_split.
Qed.

(** What a move that is taken found and did. *)
Lemma move_in_as_Ok reads table operation g step now apply table' :
  move_in_as reads table operation g step now apply = Ok table' →
  ∃ op, op ∈ table ∧ id op = operation ∧ check_move_as op g step apply = Ok tt
    ∧ (needs_task_alone (status op) (to step) = true →
         ∀ other, other ∈ open_operations table (task_id op) → id other = operation)
    ∧ table' = update_row operation (moved_row reads step now) table.
Proof.
  unfold move_in_as. intros H. res_inv.
  match goal with H : read_operation _ _ = Ok ?o |- _ =>
    apply read_operation_Ok in H as [Hin Hid]; exists o end.
  split_and!; [done|done| | |done].
  - match goal with H : of_domain (if apply then _ else _) = Ok ?u |- _ =>
      destruct u; rewrite of_domain_Ok in H end. by destruct apply.
  - intros Halone. match goal with H : (if needs_task_alone _ _ then _ else _) = _ |- _ =>
      rewrite Halone in H; destruct (List.find _ _) eqn:Hfind in H; [done|] end.
    by apply find_none_id.
Qed.

Lemma move_in_as_wf reads table operation g step now apply table' :
  move_in_as reads table operation g step now apply = Ok table' →
  table_wf table → table_wf table'.
Proof.
  intros (op & Hin & Hid & Hcheck & Halone & ->)%move_in_as_Ok Hwf.
  rewrite check_move_as_Ok in Hcheck. destruct Hcheck as (Hg & Hmove & _ & Hsnap & _).
  pose proof (rows_wf _ Hwf op Hin) as [Hclosed Hopsnap _].
  apply (update_row_wf _ _ _ op); try done.
  - split; simpl.
    + unfold then_some. by destruct (is_closed (to step)).
    + intros Hneeds. specialize (Hsnap Hneeds). destruct (move_snapshot step); [done|].
      simpl in Hsnap. by apply Is_true_eq_true.
    + unfold then_some. by case_bool_decide.
  - intros Hopen. destruct (closed_at op) eqn:Hca; [right|by left]. apply Halone.
    simpl in Hopen, Hclosed. unfold needs_task_alone.
    rewrite (closed_not_guarding (status op)) by congruence.
    unfold then_some in Hopen. by destruct (is_closed (to step)).
Qed.

Lemma move_in_as_evolves reads table operation g step now apply table' :
  move_in_as reads table operation g step now apply = Ok table' → table_wf table →
  evolves table table'.
Proof.
  intros (op & Hin & Hid & Hcheck & _ & ->)%move_in_as_Ok [Hnd _ _].
  rewrite check_move_as_Ok in Hcheck. destruct Hcheck as (_ & Hmove & _).
  apply update_row_evolves. intros y Hy Hyid.
  assert (y = op) as -> by (apply (nodup_key_inj id table); [done..|congruence]).
  split_and!; try done; simpl; [|apply generation_after_le].
  apply rtc_once, can_move_to_spec. done.
Qed.

(** A write of columns that tell nothing of where the operation stands. *)
Lemma keep_row_wf operation f table :
  (∀ op, id (f op) = id op ∧ task_id (f op) = task_id op ∧ status (f op) = status op
     ∧ closed_at (f op) = closed_at op ∧ snapshot_id (f op) = snapshot_id op
     ∧ return_phase (f op) = return_phase op) →
  table_wf table → table_wf (update_row operation f table).
Proof.
  intros Hf Hwf. destruct (decide (Exists (λ op, id op = operation) table)) as [Hex|Hno].
  - apply Exists_exists in Hex as (op & Hin & Hid).
    destruct (Hf op) as (Hi & Ht & Hs & Hc & Hsn & Hp).
    apply (update_row_wf _ _ _ op); try done.
    + destruct (rows_wf _ Hwf op Hin). split; rewrite ?Hc, ?Hs, ?Hsn, ?Hp; done.
    + rewrite Hc. by left.
  - assert (update_row operation f table = table) as ->; [|done].
    rewrite <-(list_fmap_id table) at 2. apply list_fmap_ext. intros i y Hy.
    rewrite bool_decide_false; [done|]. intros Hid. apply Hno, Exists_exists.
    exists y. split; [by eapply list_elem_of_lookup_2|done].
Qed.

Lemma supersede_keeps reads why others now table table' :
  supersede reads why others now table = Ok table' → table_wf table →
  table_wf table' ∧ evolves table table'.
Proof.
  revert table. induction others as [|older rest IH]; intros table Hs Hwf; simpl in Hs.
  { injection Hs as <-. by split. }
  apply bind_Ok in Hs as (t & Hmove & Hs). unfold move_in in Hmove.
  pose proof (move_in_as_wf _ _ _ _ _ _ _ _ Hmove Hwf) as Hwf'.
  destruct (IH t Hs Hwf') as [? ?]. split; [done|].
  etrans; [by eapply move_in_as_evolves|done].
Qed.

(** The writes the runtime makes on the table; a new operation takes an id no
    row has. *)
Inductive table_step : relation (list Operation) :=
  | step_move reads table operation g step now apply table' :
      move_in_as reads table operation g step now apply = Ok table' → table_step table table'
  | step_carry reads table task run now table' :
      carry_open_to reads table task run now = Ok table' → table_step table table'
  | step_record reads table new new_origin task run_status task_status goal latest version
      acceptance_version fresh now table' operation created :
      record_replan reads table new new_origin task run_status task_status goal latest version
        acceptance_version fresh now = Ok (table', operation, created) →
      fresh ∉ (id <$> table) → table_step table table'
  | step_reopen reads table operation g why now table' :
      reopen_blocked reads table operation g why now = Ok (Some table') →
      table_step table table'
  | step_resolve reads table operation g resolution why by_role children problem now table' :
      resolve_replan reads table operation g resolution why by_role children problem now
        = Ok table' → table_step table table'.

Definition keeps (table table' : list Operation) : Prop := table_wf table' ∧ evolves table table'.

Lemma move_in_keeps reads table operation g step now table' :
  move_in reads table operation g step now = Ok table' → table_wf table → keeps table table'.
Proof. intros Hm Hwf. split; [by eapply move_in_as_wf|by eapply move_in_as_evolves]. Qed.

Lemma keeps_trans table1 table2 table3 :
  keeps table1 table2 → keeps table2 table3 → keeps table1 table3.
Proof. intros [_ H1] [Hwf H2]. split; [done|by etrans]. Qed.

Lemma current_None open : current open = None → open = [].
Proof.
  unfold current. destruct (List.find _ _); [done|]. intros Hl. by apply last_None.
Qed.

Lemma current_in open op : current open = Some op → op ∈ open.
Proof.
  unfold current. destruct (List.find _ _) eqn:Hfind.
  - intros [= <-]. by apply List.find_some, proj1, list_elem_of_In in Hfind.
  - intros [before ->]%last_Some. set_solver.
Qed.

Lemma carry_moved open run operation g :
  moved (carry open run) = Some (operation, g) →
  ∃ op, op ∈ open ∧ id op = operation ∧ g = (generation op + 1)%Z ∧ guards (status op) = false.
Proof.
  unfold carry. destruct (current open) as [k|] eqn:Hk; simpl; [|done].
  unfold then_some. destruct (guards (status k)) eqn:Hg; simpl; [done|].
  case_match; [|done]. intros [= <- <-]. exists k. split_and!; try done. by apply current_in.
Qed.

(** At most one operation is open on a task, so a carry closes none. *)
Lemma carry_supersedes_none table task run :
  table_wf table → superseded (carry (open_operations table task) run) = [].
Proof.
  intros Hwf. unfold carry. destruct (current _) as [k|] eqn:Hk; [|done]. simpl.
  apply current_in, elem_of_open in Hk as (Hin & Htask & Hopen).
  assert (∀ l : list Operation, (∀ op, op ∈ l → id op = id k) →
    id <$> List.filter (λ op, negb (bool_decide (id op = id k)) && negb (guards (status op))) l
    = []) as Hnil.
  { induction l as [|op l IH]; intros Hl; [done|]. cbn [List.filter].
    rewrite (bool_decide_true (id op = id k)) by (apply Hl; left). apply IH.
    intros o Ho. apply Hl. by right. }
  apply Hnil. intros op (Hop & Ht & Hc)%elem_of_open.
  apply (one_open _ Hwf); congruence.
Qed.

Lemma keep_row_evolves operation f table :
  (∀ op, op ∈ table → id op = operation → id (f op) = id op ∧ task_id (f op) = task_id op
     ∧ status (f op) = status op ∧ (generation op ≤ generation (f op))%Z) →
  evolves table (update_row operation f table).
Proof.
  intros Hf. apply update_row_evolves. intros op Hop Hid.
  destruct (Hf op Hop Hid) as (? & ? & Hs & ?). split_and!; try done. by rewrite Hs.
Qed.

Lemma update_row_ids operation f table :
  (∀ op, id (f op) = id op) → id <$> update_row operation f table = id <$> table.
Proof.
  intros Hf. unfold update_row. rewrite <-list_fmap_compose. apply list_fmap_ext.
  intros i op _. simpl. by case_match.
Qed.

Lemma carry_open_to_keeps reads table task run now table' :
  carry_open_to reads table task run now = Ok table' → table_wf table →
  keeps table table' ∧ id <$> table' = id <$> table.
Proof.
  unfold carry_open_to. intros Hc Hwf. rewrite (carry_supersedes_none table task run Hwf) in Hc.
  destruct (kept _); [|injection Hc as <-; split; [by split|done]].
  assert (∀ l, List.filter (λ op : Operation, bool_decide (id op ∈ @nil ReplanId)) l = [])
    as Hnone by (intros l; induction l as [|o l IHl]; [done|];
      cbn [List.filter]; rewrite bool_decide_false by apply not_elem_of_nil; done).
  rewrite Hnone in Hc. cbn [supersede] in Hc. simpl in Hc.
  destruct (moved _) as [[operation g]|] eqn:Hmoved; injection Hc as <-; [|split; [by split|done]].
  apply carry_moved in Hmoved as (op & [Hin _]%elem_of_open & Hid & -> & _).
  split; [split|by apply update_row_ids].
  - by apply keep_row_wf.
  - apply keep_row_evolves. intros o Ho Hoid. split_and!; try done. simpl.
    rewrite (nodup_key_inj id table o op); [lia|apply Hwf|done|done|congruence].
Qed.

Lemma reopen_blocked_keeps reads table operation g why now table' :
  reopen_blocked reads table operation g why now = Ok (Some table') →
  table_wf table → keeps table table'.
Proof.
  unfold reopen_blocked. intros H Hwf. apply bind_Ok in H as (op & _ & H).
  cbv zeta in H. destruct (existsb _ _); [done|].
  apply bind_Ok in H as (table1 & Hs & H). apply bind_Ok in H as (table2 & Hm & [= <-]).
  pose proof (supersede_keeps _ _ _ _ _ _ Hs Hwf) as [Hwf1 Hev1].
  apply keeps_trans with table1; [by split|by eapply move_in_keeps].
Qed.

Lemma replan_again_keeps reads table op why now table' :
  replan_again reads table op why now = Ok table' → table_wf table → keeps table table'.
Proof.
  unfold replan_again. intros H Hwf. apply bind_Ok in H as (table1 & Hm & H).
  apply bind_Ok in H as (moved & _ & H). injection H as <-.
  pose proof (move_in_keeps _ _ _ _ _ _ _ Hm Hwf) as [Hwf1 Hev1].
  case_match; [|by split]. split; [by apply keep_row_wf|].
  etrans; [done|]. by apply keep_row_evolves.
Qed.

Lemma resolve_replan_keeps reads table operation g resolution why by_role children problem now
    table' :
  resolve_replan reads table operation g resolution why by_role children problem now = Ok table' →
  table_wf table → keeps table table'.
Proof.
  unfold resolve_replan. intros H Hwf. apply bind_Ok in H as (u & _ & H).
  apply bind_Ok in H as (op & Hread & H). apply bind_Ok in H as (target & _ & H).
  cbv zeta in H. set (raise := λ op0 : Operation, _) in H.
  apply read_operation_Ok in Hread as [Hin Hid].
  assert (table_wf (update_row operation raise table)) as Hwf1 by by apply keep_row_wf.
  assert (evolves table (update_row operation raise table)) as Hev1.
  { apply keep_row_evolves. intros o Ho Hoid. split_and!; try done. simpl.
    rewrite (nodup_key_inj id table o op); [lia|apply Hwf|done|done|congruence]. }
  case_bool_decide.
  - eapply keeps_trans; [by split|by eapply replan_again_keeps].
  - eapply keeps_trans; [by split|by eapply move_in_keeps].
Qed.

Lemma record_replan_keeps reads table new new_origin task run_status task_status goal latest
    version acceptance_version fresh now table' operation created :
  record_replan reads table new new_origin task run_status task_status goal latest version
    acceptance_version fresh now = Ok (table', operation, created) →
  fresh ∉ (id <$> table) → table_wf table → keeps table table'.
Proof.
  unfold record_replan. intros H Hfresh Hwf. apply bind_Ok in H as (u & _ & H).
  apply bind_Ok in H as (table1 & Hcarry & H).
  assert (keeps table table1 ∧ id <$> table1 = id <$> table) as [Hk1 Hids].
  { clear H. case_bool_decide; [eapply carry_open_to_keeps; [exact Hcarry|done]|].
    injection Hcarry as <-. split; [by split|done]. }
  apply bind_Ok in H as ([[table2 o] c] & Hreq & H).
  assert (keeps table1 table2) as Hk2.
  { destruct (request_on _ _) eqn:Hon; [injection Hreq as <- <- <-; destruct Hk1; by split|done|].
    apply bind_Ok in Hreq as (u' & _ & [= <- <- <-]).
    assert (open_operations table1 task = []) as Hnone.
    { apply current_None. unfold request_on in Hon. by repeat case_match. }
    destruct Hk1 as [[Hnd Hrows Hone] _]. split.
    - split.
      + rewrite fmap_app, Hids. apply NoDup_app. rewrite <-Hids. split_and!; [done| |].
        * rewrite Hids. intros i Hi ->%list_elem_of_singleton. done.
        * apply NoDup_singleton.
      + intros op [Hop| ->%list_elem_of_singleton]%elem_of_app; [by apply Hrows|]. by split.
      + assert (∀ a, a ∈ table1 → closed_at a = None → task_id a ≠ task) as Hno.
        { intros a Ha Hc Ht.
          assert (a ∈ @nil Operation) as []%elem_of_nil by (rewrite <-Hnone; by apply elem_of_open). }
        intros a b [Ha| ->%list_elem_of_singleton]%elem_of_app
          [Hb| ->%list_elem_of_singleton]%elem_of_app Hca Hcb Hab; simpl in *; auto.
        * by destruct (Hno a Ha Hca).
        * by destruct (Hno b Hb Hcb).
    - intros op Hop. exists op. split; [apply elem_of_app; by left|reflexivity]. }
  apply bind_Ok in H as (op & _ & [= <- <- <-]).
  apply (keeps_trans _ _ _ Hk1). apply (keeps_trans _ _ _ Hk2). destruct Hk2 as [Hwf2 _].
  destruct (_ && _); [|by split]. split; [by apply keep_row_wf|by apply keep_row_evolves].
Qed.

Lemma table_step_keeps table table' :
  table_step table table' → table_wf table → keeps table table'.
Proof.
  destruct 1; intros Hwf.
  - split; [by eapply move_in_as_wf|by eapply move_in_as_evolves].
  - by eapply carry_open_to_keeps.
  - by eapply record_replan_keeps.
  - by eapply reopen_blocked_keeps.
  - by eapply resolve_replan_keeps.
Qed.

Lemma table_steps_keep table table' :
  rtc table_step table table' → table_wf table → keeps table table'.
Proof.
  induction 1 as [|t1 t2 t3 Hstep _ IH]; intros Hwf; [by split|].
  pose proof (table_step_keeps _ _ Hstep Hwf) as Hk.
  apply (keeps_trans _ _ _ Hk). apply IH, Hk.
Qed.

Lemma open_at_most_one table task : table_wf table → length (open_operations table task) ≤ 1.
Proof.
  intros Hwf. destruct (open_operations table task) as [|a [|b rest]] eqn:Hopen; simpl; try lia.
  exfalso. assert (NoDup (id <$> open_operations table task)) as Hnd.
  { unfold open_operations. pose proof (ids_unique _ Hwf) as Hnd. revert Hnd. clear.
    induction table as [|o table IH]; [done|]. rewrite fmap_cons, NoDup_cons. intros [Hno Hnd].
    cbn [List.filter]. case_match; [|auto]. rewrite fmap_cons, NoDup_cons. split; [|auto].
    intros (x & Hx & Hin)%list_elem_of_fmap. apply Hno. rewrite Hx. apply list_elem_of_fmap_2.
    by apply list_elem_of_In, filter_In, proj1, list_elem_of_In in Hin. }
  rewrite Hopen, !fmap_cons, NoDup_cons in Hnd. destruct Hnd as [Hna _]. apply Hna.
  assert (∀ x, x ∈ a :: b :: rest → x ∈ table ∧ task_id x = task ∧ closed_at x = None) as Hin
    by (intros x; rewrite <-Hopen; apply elem_of_open).
  destruct (Hin a) as (Ha & Hta & Hca); [left|].
  destruct (Hin b) as (Hb & Htb & Hcb); [right; left|].
  rewrite (one_open _ Hwf a b); try done; [left|congruence].
Qed.

Lemma guard_of_current table task :
  table_wf table →
  guard_of table task = current (open_operations table task) ≫= guard.
Proof.
  intros Hwf. pose proof (open_at_most_one table task Hwf) as Hlen.
  unfold guard_of. destruct (List.find _ table) as [op|] eqn:Hfind; simpl.
  - apply List.find_some in Hfind as [Hin Hp]. bool_split. apply list_elem_of_In in Hin.
    assert (op ∈ open_operations table task) as Hop.
    { apply elem_of_open. split_and!; [done|done|]. pose proof (row_closed _ (rows_wf _ Hwf op Hin)) as Hc.
      assert (is_closed (status op) = false) as Hcl by
        (destruct (is_closed (status op)) eqn:He; [apply closed_not_guarding in He; congruence|done]).
      rewrite Hcl in Hc. by destruct (closed_at op). }
    destruct (open_operations table task) as [|a [|b rest]]; simpl in Hlen; try lia;
      [by apply elem_of_nil in Hop|]. apply list_elem_of_singleton in Hop as ->.
    assert (current [a] = Some a) as -> by (unfold current; simpl; by destruct (guards (status a))).
    simpl. unfold guard, then_some. match goal with H : guards _ = true |- _ => rewrite H end.
    by subst task.
  - destruct (current _) as [k|] eqn:Hk; [|done]. simpl.
    apply current_in, elem_of_open in Hk as (Hin & Htask & _). apply list_elem_of_In in Hin.
    pose proof (List.find_none _ _ Hfind k Hin) as Hno. simpl in Hno.
    rewrite bool_decide_true in Hno by done. simpl in Hno.
    unfold guard, then_some. by rewrite Hno.
Qed.

Lemma empty_table_wf : table_wf [].
Proof.
  split; [apply NoDup_nil_2|by intros op ?%elem_of_nil|by intros a b ?%elem_of_nil].
Qed.

(** C16: whatever requests, moves, carries to a new run, reopenings and
    resolutions are written on the queue's table, every task has one open
    operation at most; a row is closed exactly when its status is an end, a
    status that needs a snapshot has one, a blocked operation remembers its
    phase; and the guard the steps of a task read is the one of that open
    operation. *)
Theorem replan_table_invariant table :
  rtc table_step [] table →
  (∀ op, op ∈ table → row_wf op)
  ∧ ∀ task, length (open_operations table task) ≤ 1
      ∧ guard_of table task = current (open_operations table task) ≫= guard.
Proof.
  intros Hsteps. destruct (table_steps_keep _ _ Hsteps empty_table_wf) as [Hwf _].
  split; [apply Hwf|]. intros task. split; [by apply open_at_most_one|by apply guard_of_current].
Qed.

Definition sample_reads : Reads :=
  mk_reads None TaskStatus.InProgress None [] false 0 "v1" false true (RequestId.new 7).
Definition sample_run : RunId := RunId.wrap "run-1".
Definition sample_task : TaskId := TaskId.new 3.
Definition sample_record : result WriteError (list Operation * ReplanId * bool) :=
  record_replan sample_reads [] (mk_new sample_run "it goes on too long" [])
    ReplanOrigin.Manual sample_task RunStatus.Running TaskStatus.InProgress None sample_run "v1"
    None (ReplanId.new 1) 100.
Definition sample_opened : list Operation :=
  Eval vm_compute in match sample_record with Ok (table, _, _) => table | Err _ => [] end.
Definition sample_pause : ReplanMove := mk_move ReplanStatus.PauseRequested "park it" None None.
Definition sample_parking : list Operation :=
  Eval vm_compute in
    match move_in_as sample_reads sample_opened (ReplanId.new 1) 1 sample_pause 200 false with
    | Ok table => table | Err _ => []
    end.

Lemma sample_steps : rtc table_step [] sample_parking.
Proof.
  assert (sample_record = Ok (sample_opened, ReplanId.new 1, true)) as Hopen
    by (vm_compute; reflexivity).
  assert (move_in_as sample_reads sample_opened (ReplanId.new 1) 1 sample_pause 200 false
          = Ok sample_parking) as Hmove by (vm_compute; reflexivity).
  eapply rtc_l; [eapply step_record; [exact Hopen|apply not_elem_of_nil]|].
  eapply rtc_l; [eapply step_move; exact Hmove|apply rtc_refl].
Defined.

Lemma replan_table_invariant_witness :
  length (open_operations sample_parking sample_task) = 1
  ∧ guard_of sample_parking sample_task
    = current (open_operations sample_parking sample_task) ≫= guard.
Proof.
  split; [vm_compute; reflexivity|].
  exact (proj2 (proj2 (replan_table_invariant sample_parking sample_steps) sample_task)).
Defined.

(** An operation moves only along [next], under a generation that never
    falls, and is never lost: once past its fence it guards its task until it
    ends, and never goes back to leaving its run going; a continuation before
    the park and an applied replacement are final. *)
Theorem operation_life table table' op :
  table_wf table → rtc table_step table table' → op ∈ table →
  ∃ op', op' ∈ table' ∧ row_evolves op op'
    ∧ (guards (status op) = true → guards (status op') = true ∨ is_closed (status op') = true)
    ∧ (status op = ReplanStatus.Continuing ∨ status op = ReplanStatus.Applied →
         status op' = status op).
Proof.
  intros Hwf Hsteps Hop. destruct (table_steps_keep _ _ Hsteps Hwf) as [_ Hev].
  destruct (Hev op Hop) as (op' & Hop' & Hrow). exists op'. split_and!; try done.
  - intros Hg. destruct Hrow as (_ & _ & Hmoves & _). eapply fenced_stays; [exact Hmoves|by left].
  - intros Hfinal. destruct Hrow as (_ & _ & Hmoves & _). by apply final_stays.
Qed.

Lemma operation_life_witness :
  ∃ op', op' ∈ sample_parking ∧ id op' = ReplanId.new 1.
Proof.
  assert (move_in_as sample_reads sample_opened (ReplanId.new 1) 1 sample_pause 200 false
          = Ok sample_parking) as Hmove by (vm_compute; reflexivity).
  assert (table_wf sample_opened) as Hwf.
  { split.
    - apply (bool_decide_unpack _). vm_compute. exact I.
    - intros op Hop. unfold sample_opened in Hop.
      apply list_elem_of_singleton in Hop. subst op. split; reflexivity || discriminate.
    - intros a b Ha Hb _ _ _. unfold sample_opened in Ha, Hb.
      apply list_elem_of_singleton in Ha, Hb. subst. reflexivity. }
  assert (rtc table_step sample_opened sample_parking) as Hsteps.
  { eapply rtc_l; [eapply step_move; exact Hmove|apply rtc_refl]. }
  destruct (operation_life sample_opened sample_parking _ Hwf Hsteps (list_elem_of_here _ _))
    as (op' & Hin & (Hid & _) & _).
  exists op'. split; [exact Hin|exact Hid].
Defined.

(** ** Resolutions *)

(** A person's resolution is taken exactly of a blocked operation read
    under its generation, not held from its apply, whose snapshot is as
    saved, and no child of whose replacement may be claimed; a new plan goes
    back to [parked] with a snapshot, else to the save. *)
Theorem resolve_to_exact (state : ResolveState) target :
  let op := resolve_operation state in
  resolve_to state = Ok target ↔
  status op = ReplanStatus.Blocked ∧ generation op = resolve_generation state
  ∧ return_phase op ≠ Some ReplanStatus.Applying ∧ resolve_snapshot_problem state = None
  ∧ Forall (λ c, c.2 ∈ [TaskStatus.Draft; TaskStatus.Submitted; TaskStatus.Canceled])
      (resolve_children state)
  ∧ match resolve_resolution state with
    | ResolveContinue => target = ReplanStatus.ContinuingAfterPark
    | ResolveWithdraw => target = ReplanStatus.Withdrawn
    | ResolveReplan =>
        (is_some (snapshot_id op) = true ∧ target = ReplanStatus.Parked)
        ∨ (snapshot_id op = None ∧ return_phase op = Some ReplanStatus.Snapshotting
           ∧ target = ReplanStatus.Snapshotting)
        ∨ (snapshot_id op = None ∧ return_phase op ≠ Some ReplanStatus.Snapshotting
           ∧ target = ReplanStatus.Quiescing)
    end.
Proof.
  cbv zeta. unfold resolve_to. set (op := resolve_operation state).
  assert (∀ s, releasable s = true ↔
    s ∈ [TaskStatus.Draft; TaskStatus.Submitted; TaskStatus.Canceled]) as Hrel.
  { intros s. rewrite !elem_of_cons, elem_of_nil. destruct s; simpl; naive_solver. }
  setoid_rewrite <-Hrel.
  destruct (decide (status op = ReplanStatus.Blocked)) as [Hst|Hst];
    [|rewrite (bool_decide_false (status op = _)) by done; simpl;
      destruct (is_closed (status op)); split; [done|by intros [? _]|done|by intros [? _]]].
  rewrite Hst. simpl.
  destruct (decide (generation op = resolve_generation state)) as [Hg|Hg];
    [rewrite (bool_decide_true (generation op = _)) by done
    |rewrite (bool_decide_false (generation op = _)) by done; simpl;
     split; [done|by intros (_ & ? & _)]]. simpl.
  destruct (decide (return_phase op = Some ReplanStatus.Applying)) as [Hp|Hp];
    [rewrite (bool_decide_true (return_phase op = _)) by done;
     split; [done|by intros (_ & _ & ? & _)]
    |rewrite (bool_decide_false (return_phase op = Some ReplanStatus.Applying)) by done].
  destruct (resolve_snapshot_problem state); [split; [done|]; by intros (_ & _ & _ & ? & _)|].
  destruct (List.find _ _) as [[task status']|] eqn:Hfind.
  - split; [done|]. intros (_ & _ & _ & _ & Hall & _).
    apply List.find_some in Hfind as [Hin Hno]. apply list_elem_of_In in Hin.
    rewrite Forall_forall in Hall. apply Hall in Hin. simpl in Hin. by rewrite Hin in Hno.
  - assert (Forall (λ c : TaskId * TaskStatus, releasable c.2 = true) (resolve_children state)) as Hall.
    { apply Forall_forall. intros [task s] Hin%list_elem_of_In.
      pose proof (List.find_none _ _ Hfind _ Hin) as Hno. simpl in Hno. by bool_split. }
    destruct (resolve_resolution state), (snapshot_id op); simpl;
      repeat case_bool_decide; naive_solver.
Qed.

(** A resolution raises the generation it was read under, so the same
    resolution, or any other decided on what was read then, is refused the
    second time and writes nothing. *)
Theorem resolved_once reads table operation g resolution why by_role children problem now table' :
  table_wf table →
  resolve_replan reads table operation g resolution why by_role children problem now = Ok table' →
  (∃ op', op' ∈ table' ∧ id op' = operation ∧ (g < generation op')%Z)
  ∧ ∀ reads' resolution' why' by_role' children' problem' now' table'',
      resolve_replan reads' table' operation g resolution' why' by_role' children' problem' now'
      ≠ Ok table''.
Proof.
  intros Hwf H.
  assert (∃ op', op' ∈ table' ∧ id op' = operation ∧ (g < generation op')%Z) as Hraised.
  { unfold resolve_replan in H. apply bind_Ok in H as (u & _ & H).
    apply bind_Ok in H as (op & Hread & H). apply bind_Ok in H as (target & Hto & H).
    apply of_domain_Ok, resolve_to_exact in Hto. simpl in Hto. destruct Hto as (_ & Hg & _).
    apply read_operation_Ok in Hread as [Hin Hid]. cbv zeta in H.
    set (raise := λ op0 : Operation, _) in H.
    assert (table_wf (update_row operation raise table)) as Hwf1 by by apply keep_row_wf.
    assert (evolves (update_row operation raise table) table') as Hev.
    { case_bool_decide; [by eapply replan_again_keeps|by eapply move_in_keeps]. }
    destruct (Hev (raise op)) as (op' & Hin' & Hi & _ & _ & Hle).
    { apply elem_of_update. right. eauto. }
    exists op'. split; [done|]. simpl in *. split; [congruence|lia]. }
  split; [done|]. intros. intros H2.
  assert (table_wf table') as Hwf' by by eapply resolve_replan_keeps.
  unfold resolve_replan in H2. apply bind_Ok in H2 as (u & _ & H2).
  apply bind_Ok in H2 as (op & [Hin Hid]%read_operation_Ok & H2).
  apply bind_Ok in H2 as (target & Hto & _).
  apply of_domain_Ok, resolve_to_exact in Hto. simpl in Hto. destruct Hto as (_ & Hg & _).
  destruct Hraised as (op' & Hin' & Hid' & Hlt).
  rewrite (nodup_key_inj id table' op op') in Hg; [lia|apply Hwf'|done|done|congruence].
Qed.

Definition sample_blocked : list Operation :=
  Eval vm_compute in
    match move_in_as sample_reads sample_parking (ReplanId.new 1) 2
            (mk_move ReplanStatus.Blocked "the writer does not end" None None) 300 false with
    | Ok table => table | Err _ => []
    end.
Definition sample_resolved : list Operation :=
  Eval vm_compute in
    match resolve_replan sample_reads sample_blocked (ReplanId.new 1) 2 ResolveContinue
            "go on" "user" [] None 400 with
    | Ok table => table | Err _ => []
    end.

Lemma resolved_once_witness : ∃ op', op' ∈ sample_resolved ∧ id op' = ReplanId.new 1
  ∧ (2 < generation op')%Z.
Proof.
  assert (move_in_as sample_reads sample_parking (ReplanId.new 1) 2
    (mk_move ReplanStatus.Blocked "the writer does not end" None None) 300 false
    = Ok sample_blocked) as Hblock by (vm_compute; reflexivity).
  assert (resolve_replan sample_reads sample_blocked (ReplanId.new 1) 2 ResolveContinue
            "go on" "user" [] None 400 = Ok sample_resolved) as Hres by (vm_compute; reflexivity).
  assert (table_wf sample_blocked) as Hwf.
  { eapply move_in_as_wf; [exact Hblock|].
    exact (proj1 (table_steps_keep _ _ sample_steps empty_table_wf)). }
  exact (proj1 (resolved_once _ _ _ _ _ _ _ _ _ _ _ Hwf Hres)).
Defined.

(** ** Continuations *)
Lemma find_map_rev {A B} (f : A → option B) l y :
  find_map f (rev l) = Some y ↔
  ∃ before x after, l = before ++ x :: after ∧ f x = Some y
    ∧ Forall (λ z, f z = None) after.
Proof.
  induction l as [|z l IH] using rev_ind; simpl.
  { split; [done|]. intros ([|? ?] & ? & ? & ? & _); done. }
  rewrite rev_app_distr. simpl. destruct (f z) as [v|] eqn:Hz.
  - split.
    + intros [= <-]. exists l, z, []. by repeat constructor.
    + intros (before & x & after & Heq & Hx & Hall).
      destruct after as [|w after _] using rev_ind.
      * apply app_inj_tail in Heq as [_ ->]. congruence.
      * rewrite app_comm_cons, app_assoc in Heq. apply app_inj_tail in Heq as [_ ->].
        apply Forall_app in Hall as [_ Hall]. inversion Hall; congruence.
  - rewrite IH. split.
    + intros (before & x & after & -> & Hx & Hall). exists before, x, (after ++ [z]).
      split_and!; [by rewrite <-app_assoc|done|]. apply Forall_app. by repeat constructor.
    + intros (before & x & after & Heq & Hx & Hall).
      destruct after as [|w after _] using rev_ind.
      * apply app_inj_tail in Heq as [_ ->]. congruence.
      * rewrite app_comm_cons, app_assoc in Heq. apply app_inj_tail in Heq as [-> ->].
        apply Forall_app in Hall as [Hall _]. eauto 10.
Qed.

(** The work of an operation is restored exactly when the last restore result
    of it is a success at the generation it is at, or one that names none. *)
Lemma restored_now_exact op records :
  restored_now op records = true ↔
  ∃ before g after,
    records = before ++ Restored (mk_restore (id op) g) :: after
    ∧ is_none_or g (λ g, bool_decide (g = generation op)) = true
    ∧ Forall (λ r, restore_result op r = None) after.
Proof.
  unfold restored_now. split.
  - destruct (find_map _ _) as [b|] eqn:Hf; simpl; [|done]. intros ->.
    apply find_map_rev in Hf as (before & x & after & -> & Hx & Hall).
    destruct x as [|[o g]|[o g]| |]; simpl in Hx; unfold then_some in Hx;
      try (case_bool_decide; simplify_eq; fail); try done.
    case_bool_decide as Ho; [|done]. injection Hx as Hx. simpl in Ho. subst o. eauto 10.
  - intros (before & g & after & -> & Hg & Hall).
    assert (find_map (restore_result op)
      (rev (before ++ Restored (mk_restore (id op) g) :: after)) = Some true) as ->; [|done].
    apply find_map_rev. do 3 eexists. split_and!; [done| |done].
    simpl. unfold then_some. rewrite bool_decide_true by done. by rewrite Hg.
Qed.

End Replan.
