(* ===== verification/Replacements.v ===== *)
(** * Applied replacements

    [unresolved_replacements] of [src/src/domain/replan_apply.rs]: the walk
    from replaced tasks through the tasks that replaced them, and the records
    it finds broken; and the closure of the wait graph an apply checks
    ([closes_loop], [successor_edges]). *)
From S2P Require Import Prelude Text Vocab Ids Errors.

Module Replacements.

(** The derived [Ord] of [UnresolvedReplacement], of which a [BTreeSet] keeps
    its elements in order. *)
Definition unresolved_key (u : UnresolvedReplacement) : list Z :=
  TaskId.as_i64 (UnresolvedReplacement.task u)
  :: match UnresolvedReplacement.fault u with
     | ReplacementFault.Empty => [0]
     | ReplacementFault.Missing to => [1; TaskId.as_i64 to]
     | ReplacementFault.Cycle to => [2; TaskId.as_i64 to]
     end%Z.

Section walk.
  Context (replacements : gmap TaskId (list TaskId)) (statuses : gmap TaskId TaskStatus).

Definition children (task : TaskId) : list TaskId := unwrap_or (replacements !! task) [].

Definition is_replaced (task : TaskId) : bool :=
  bool_decide (statuses !! task = Some TaskStatus.Replaced).

(** The tasks visited and the faults found so far. *)
Definition walked : Type := gset TaskId * list UnresolvedReplacement.

Definition insert_fault (task : TaskId) (fault : ReplacementFault) (state : walked) : walked :=
  (state.1, push_once state.2 (UnresolvedReplacement.mk task fault)).

Definition child_fault (path : list TaskId) (child : TaskId) : option ReplacementFault :=
  if is_none (statuses !! child) then Some (ReplacementFault.Missing child)
  else if bool_decide (child ∈ path) then Some (ReplacementFault.Cycle child)
  else None.

(** One turn of the loop over the children of [task], and the loop; [into]
    walks into a child. *)
Definition visit_child (into : TaskId → walked → option walked) (task : TaskId)
    (path : list TaskId) (child : TaskId) (state : walked) : option walked :=
  match child_fault path child with
  | Some fault => Some (insert_fault task fault state)
  | None => if bool_decide (child ∈ state.1) then Some state else into child state
  end.

Fixpoint visit_children (into : TaskId → walked → option walked) (task : TaskId)
    (path : list TaskId) (l : list TaskId) (state : walked) : option walked :=
  match l with
  | [] => Some state
  | child :: l' =>
      state ← visit_child into task path child state;
      visit_children into task path l' state
  end.

(** What a visit records of [task] before its children. *)
Definition enter (task : TaskId) (root : bool) (state : walked) : walked :=
  let state := ({[task]} ∪ state.1, state.2) in
  if bool_decide (children task = []) && (root || is_replaced task)
  then insert_fault task ReplacementFault.Empty state else state.

(** [walk], with the fuel of its recursion; [None] is out of fuel. *)
Fixpoint walk (fuel : nat) (task : TaskId) (root : bool) (path : list TaskId)
    (state : walked) : option walked :=
  match fuel with
  | 0 => None
  | S fuel =>
      let path := path ++ [task] in
      visit_children (λ child state, walk fuel child false path state) task path
        (children task) (enter task root state)
  end.

Fixpoint walk_roots (fuel : nat) (from : list TaskId) (state : walked) : option walked :=
  match from with
  | [] => Some state
  | task :: rest =>
      state ← (if bool_decide (task ∈ state.1) then Some state
               else walk fuel task true [] state);
      walk_roots fuel rest state
  end.

(** Enough fuel: a walk goes only into tasks that are there, each once. *)
Definition walk_fuel : nat := S (size statuses).

Definition unresolved_replacements (from : list TaskId) : option (list UnresolvedReplacement) :=
  (λ state, sort_by_key unresolved_key state.2) <$> walk_roots walk_fuel from (∅, []).

(** ** What the walk is for *)

(** [child] is in place of [task], and is there. *)
Definition replaces (task child : TaskId) : Prop :=
  child ∈ children task ∧ is_Some (statuses !! child).

Definition reached (from : list TaskId) (task : TaskId) : Prop :=
  ∃ root, root ∈ from ∧ rtc replaces root task.

(** A task whose record says what replaced it, all the way down. *)
Inductive resolved : TaskId → Prop :=
  | resolved_intro task :
      (∀ child, child ∈ children task → is_Some (statuses !! child)) →
      (∀ child, child ∈ children task → resolved child) →
      (children task = [] → is_replaced task = false) →
      resolved task.

(** What a fault found at [task] says of the record. *)
Definition fault_holds (from : list TaskId) (u : UnresolvedReplacement) : Prop :=
  let task := UnresolvedReplacement.task u in
  reached from task
  ∧ match UnresolvedReplacement.fault u with
    | ReplacementFault.Empty => children task = [] ∧ (task ∈ from ∨ is_replaced task = true)
    | ReplacementFault.Missing to => to ∈ children task ∧ statuses !! to = None
    | ReplacementFault.Cycle to => replaces task to ∧ rtc replaces to task
    end.

(** ** The walk ends *)
Definition unvisited (visited : gset TaskId) : nat := size (dom statuses ∖ visited).

Definition grows (state state' : walked) : Prop :=
  state.1 ⊆ state'.1 ∧ ∀ u, u ∈ state.2 → u ∈ state'.2.

#[local] Instance grows_preorder : PreOrder grows.
Proof.
  split; [by intros [V F]; split|].
  intros [V1 F1] [V2 F2] [V3 F3] [H1 H2] [H3 H4]. split; simpl in *; [set_solver|auto].
Qed.

Lemma insert_fault_grows task fault state : grows state (insert_fault task fault state).
Proof. split; simpl; [done|]. intros u Hu. apply push_once_elem. by left. Qed.

Lemma insert_fault_in task fault state :
  UnresolvedReplacement.mk task fault ∈ (insert_fault task fault state).2.
Proof. apply push_once_elem. by right. Qed.

Lemma enter_visited task root state : (enter task root state).1 = {[task]} ∪ state.1.
Proof. unfold enter. by destruct (_ && _). Qed.

Lemma enter_grows task root state : grows state (enter task root state).
Proof.
  split; [rewrite enter_visited; set_solver|]. intros u Hu. unfold enter.
  destruct (_ && _); [|done]. apply push_once_elem. by left.
Qed.

Lemma visit_children_grows into task path l state state' :
  (∀ child s s', into child s = Some s' → grows s s') →
  visit_children into task path l state = Some state' → grows state state'.
Proof.
  intros Hinto. revert state. induction l as [|child l IH]; intros state Hv; simpl in Hv.
  { by injection Hv as <-. }
  apply bind_Some in Hv as (s & Hs & Hv). etrans; [|by apply IH].
  unfold visit_child in Hs. destruct (child_fault path child).
  { injection Hs as <-. apply insert_fault_grows. }
  case_bool_decide; [by injection Hs as <-|by eapply Hinto].
Qed.

Lemma walk_grows fuel task root path state state' :
  walk fuel task root path state = Some state' → grows (enter task root state) state'.
Proof.
  revert task root path state state'.
  induction fuel as [|fuel IH]; intros task root path state state' Hw; [done|].
  cbn [walk] in Hw. eapply visit_children_grows; [|exact Hw].
  intros child s s' Hs. simpl in Hs. etrans; [apply (enter_grows child false)|by eapply IH].
Qed.

Lemma unvisited_grows V V' : V ⊆ V' → unvisited V' ≤ unvisited V.
Proof. intros HV. unfold unvisited. apply subseteq_size. set_solver. Qed.

Lemma unvisited_visit V child :
  is_Some (statuses !! child) → child ∉ V → unvisited ({[child]} ∪ V) < unvisited V.
Proof.
  intros Hc%elem_of_dom Hn. unfold unvisited. apply subset_size. split; [set_solver|].
  intros Hsub. specialize (Hsub child). set_solver.
Qed.

Lemma child_fault_None path child :
  child_fault path child = None ↔ is_Some (statuses !! child) ∧ child ∉ path.
Proof.
  unfold child_fault. destruct (statuses !! child) eqn:Hc; simpl.
  - destruct (decide (child ∈ path)) as [Hp|Hp].
    + rewrite bool_decide_true by done. split; [done|]. by intros [_ ?].
    + rewrite bool_decide_false by done. split; [|done]. intros _. by split; [eexists|].
  - split; [done|]. by intros [[? ?] _].
Qed.

Lemma walk_total fuel task root path state :
  unvisited ({[task]} ∪ state.1) < fuel → is_Some (walk fuel task root path state).
Proof.
  revert task root path state. induction fuel as [|fuel IH]; intros task root path state Hm; [lia|].
  cbn [walk]. rewrite <-(enter_visited task root) in Hm.
  revert Hm. generalize (enter task root state) as s. generalize (path ++ [task]) as p. clear path root state.
  generalize (children task) as l. induction l as [|child l IHl]; intros p s Hm; simpl; [eauto|].
  assert (∃ s', visit_child (λ child state, walk fuel child false p state) task p child s = Some s'
            ∧ grows s s') as (s' & -> & Hg).
  { unfold visit_child. destruct (child_fault p child) eqn:Hf.
    { eexists. split; [done|]. apply insert_fault_grows. }
    apply child_fault_None in Hf as [Hthere _]. case_bool_decide as Hvis; [by eexists|].
    pose proof (unvisited_visit s.1 child Hthere Hvis).
    destruct (IH child false p s) as [s' Hs']; [lia|]. exists s'. split; [done|].
    etrans; [apply (enter_grows child false)|by eapply walk_grows]. }
  simpl. apply IHl. destruct Hg as [HV _]. pose proof (unvisited_grows _ _ HV). lia.
Qed.

Lemma walk_roots_total from state : is_Some (walk_roots walk_fuel from state).
Proof.
  revert state. induction from as [|task rest IH]; intros state; cbn [walk_roots]; [eauto|].
  case_bool_decide; [apply IH|].
  destruct (walk_total walk_fuel task true [] state) as [s Hs].
  - unfold walk_fuel, unvisited. rewrite <-size_dom. apply Nat.lt_succ_r, subseteq_size. set_solver.
  - rewrite Hs. apply IH.
Qed.

(** ** What the walk finds *)
Section found.
  Context (from : list TaskId).

(** The record of a child of [task] was looked at: it is reported missing, or
    the child was visited. *)
Definition looked_at (state : walked) (task child : TaskId) : Prop :=
  match statuses !! child with
  | Some _ => child ∈ state.1
  | None => UnresolvedReplacement.mk task (ReplacementFault.Missing child) ∈ state.2
  end.

(** What holds between visits, [path] the tasks still followed: everything
    found holds, an empty record of a visited task is found, and a task whose
    visit is over had every child looked at and is resolved unless something
    was found. *)
Record walk_inv (path : list TaskId) (state : walked) : Prop := {
  inv_sound : ∀ u, u ∈ state.2 → fault_holds from u;
  inv_empty : ∀ task, task ∈ state.1 → children task = [] → is_replaced task = true →
    UnresolvedReplacement.mk task ReplacementFault.Empty ∈ state.2;
  inv_closed : ∀ task child, task ∈ state.1 → task ∉ path → child ∈ children task →
    looked_at state task child;
  inv_path : ∀ task, task ∈ path → task ∈ state.1;
  inv_resolved : state.2 = [] → ∀ task, task ∈ state.1 → task ∉ path → resolved task;
}.

Lemma looked_at_grows state state' task child :
  grows state state' → looked_at state task child → looked_at state' task child.
Proof. intros [HV HF]. unfold looked_at. case_match; auto. Qed.

Lemma insert_fault_inv path task fault state :
  fault_holds from (UnresolvedReplacement.mk task fault) →
  walk_inv path state → walk_inv path (insert_fault task fault state).
Proof.
  intros Hf [H1 H2 H3 H4 H5]. pose proof (insert_fault_grows task fault state) as Hg. split.
  - intros u [Hu| ->]%push_once_elem; auto.
  - intros t Ht Hc Hr. apply Hg. by apply H2.
  - intros t c Ht Hp Hc. eapply looked_at_grows; [exact Hg|by apply H3].
  - done.
  - intros Hnil. pose proof (insert_fault_in task fault state) as Hin.
    rewrite Hnil in Hin. by apply elem_of_nil in Hin.
Qed.

Lemma enter_inv path task root state :
  task ∉ state.1 → reached from task → (root = true → task ∈ from) →
  walk_inv path state → walk_inv (path ++ [task]) (enter task root state).
Proof.
  intros Hfresh Hreach Hroot [H1 H2 H3 H4 H5].
  assert (task ∉ path) as Hp by (intros ?%H4; done).
  pose proof (enter_grows task root state) as Hg. split.
  - unfold enter. destruct (bool_decide (children task = []) && _) eqn:He; [|done].
    intros u [Hu| ->]%push_once_elem; [by apply H1|]. apply andb_true_iff in He as [Hc Hr].
    apply bool_decide_eq_true in Hc. split; [done|]. simpl. split; [done|].
    apply orb_true_iff in Hr as [Hr|Hr]; auto.
  - intros t Ht Hc Hr. rewrite enter_visited in Ht. apply elem_of_union in Ht as [Ht|Ht].
    + apply elem_of_singleton in Ht as ->. unfold enter.
      rewrite bool_decide_true, Hr, orb_true_r by done. simpl. apply push_once_elem. by right.
    + apply Hg. by apply H2.
  - intros t c Ht Hn Hc. rewrite enter_visited in Ht. eapply looked_at_grows; [exact Hg|].
    apply H3; set_solver.
  - intros t. rewrite enter_visited. intros [Ht|Ht%list_elem_of_singleton]%elem_of_app;
      [apply H4 in Ht|]; set_solver.
  - intros Hnil t Ht Hn. rewrite enter_visited in Ht. apply H5; [|set_solver..].
    destruct (state.2) as [|u rest] eqn:Hs; [done|]. exfalso.
    assert (u ∈ (enter task root state).2) as Hu by (apply Hg; rewrite Hs; left).
    rewrite Hnil in Hu. by apply elem_of_nil in Hu.
Qed.

(** The loop over the children: each was looked at, and is resolved unless
    something was found. *)
Lemma visit_children_inv into task path l state state' :
  (∀ child s s', into child s = Some s' → walk_inv path s → child ∉ s.1 →
     child ∈ children task → is_Some (statuses !! child) →
     walk_inv path s' ∧ grows s s' ∧ child ∈ s'.1) →
  reached from task → (∀ p, p ∈ path → rtc replaces p task) → task ∈ path →
  (∀ child, child ∈ l → child ∈ children task) →
  visit_children into task path l state = Some state' → walk_inv path state →
  walk_inv path state' ∧ grows state state'
  ∧ ∀ child, child ∈ l → looked_at state' task child
      ∧ (state'.2 = [] → is_Some (statuses !! child) ∧ resolved child).
Proof.
  intros Hinto Hreach Hpath Htask. revert state.
  induction l as [|child l IH]; intros state Hl Hv Hinv; simpl in Hv.
  { injection Hv as <-. split_and!; [done|reflexivity|]. intros c Hc. by apply elem_of_nil in Hc. }
  apply bind_Some in Hv as (s & Hs & Hv).
  assert (child ∈ children task) as Hchild by (apply Hl; left).
  assert (walk_inv path s ∧ grows state s ∧ looked_at s task child
          ∧ (s.2 = [] → is_Some (statuses !! child) ∧ resolved child)) as (Hi & Hg & Hlook & Hres).
  { unfold visit_child in Hs. destruct (child_fault path child) as [fault|] eqn:Hf.
    - injection Hs as <-.
      assert (fault_holds from (UnresolvedReplacement.mk task fault)
              ∧ looked_at (insert_fault task fault state) task child) as [Hfault Hlook].
      { unfold child_fault in Hf. unfold looked_at.
        destruct (statuses !! child) eqn:Hc; simpl in Hf.
        - case_bool_decide as Hp; [|done]. injection Hf as <-. split; [|by apply Hinv].
          split; [done|]. simpl. split; [split; [done|by eexists]|]. by apply Hpath.
        - injection Hf as <-. split; [by split|apply insert_fault_in]. }
      split_and!; [by apply insert_fault_inv|apply insert_fault_grows|done|].
      intros Hnil. pose proof (insert_fault_in task fault state) as Hin.
      rewrite Hnil in Hin. by apply elem_of_nil in Hin.
    - apply child_fault_None in Hf as [Hthere Hp].
      assert (∀ s0 : walked, walk_inv path s0 → child ∈ s0.1 → looked_at s0 task child
        ∧ (s0.2 = [] → is_Some (statuses !! child) ∧ resolved child)) as Hdone.
      { intros s0 Hi Hvis. split; [unfold looked_at; by destruct Hthere as [? ->]|].
        intros Hnil. split; [done|]. by apply (inv_resolved _ _ Hi). }
      case_bool_decide as Hvis.
      + injection Hs as <-. split_and!; [done|reflexivity|by apply Hdone..].
      + destruct (Hinto _ _ _ Hs Hinv Hvis Hchild Hthere) as (Hi & Hg & Hc).
        split_and!; [done|done|by apply Hdone..]. }
  destruct (IH s) as (Hi' & Hg' & Hall); [intros; apply Hl; by right|done|done|].
  split_and!; [done|by etrans|].
  intros c [->|Hc]%elem_of_cons; [|by apply Hall]. split; [by eapply looked_at_grows|].
  intros Hnil. apply Hres. destruct s.2 as [|u rest] eqn:Hs2; [done|]. exfalso.
  assert (u ∈ state'.2) as Hu by (apply Hg'; rewrite Hs2; left).
  rewrite Hnil in Hu. by apply elem_of_nil in Hu.
Qed.

Lemma reached_step task child : reached from task → replaces task child → reached from child.
Proof. intros (r & Hr & Hsteps) Hc. exists r. split; [done|]. by eapply rtc_r. Qed.

(** The end of a visit: [task] is no longer followed. *)
Lemma leave_inv path task state :
  task ∉ path →
  (∀ child, child ∈ children task → looked_at state task child
     ∧ (state.2 = [] → is_Some (statuses !! child) ∧ resolved child)) →
  walk_inv (path ++ [task]) state → walk_inv path state.
Proof.
  intros Hfresh Hall [H1 H2 H3 H4 H5]. split; [done|done| | |].
  - intros t c Ht Hn Hc. destruct (decide (t = task)) as [->|Hne]; [by apply Hall|].
    apply H3; set_solver.
  - intros t Ht. apply H4. apply elem_of_app. by left.
  - intros Hnil t Ht Hn. destruct (decide (t = task)) as [->|Hne]; [|apply H5; set_solver].
    constructor.
    + intros c Hc. by apply Hall.
    + intros c Hc. by apply Hall.
    + intros Hc. apply not_true_iff_false. intros Hr.
      pose proof (H2 task Ht Hc Hr) as Hin. rewrite Hnil in Hin. by apply elem_of_nil in Hin.
Qed.

Lemma walk_keeps_inv fuel task root path state state' :
  walk fuel task root path state = Some state' →
  task ∉ state.1 → reached from task → (root = true → task ∈ from) →
  (∀ p, p ∈ path → rtc replaces p task) → walk_inv path state →
  walk_inv path state' ∧ grows state state' ∧ task ∈ state'.1.
Proof.
  revert task root path state state'.
  induction fuel as [|fuel IH]; intros task root path state state' Hw Hfresh Hreach Hroot Hpath Hinv;
    [done|]. cbn [walk] in Hw.
  pose proof (enter_inv path task root state Hfresh Hreach Hroot Hinv) as Hentered.
  assert (task ∉ path) as Hp by (intros ?%(inv_path _ _ Hinv); done).
  assert (∀ p, p ∈ path ++ [task] → rtc replaces p task) as Hpath'.
  { intros p [?| ->%list_elem_of_singleton]%elem_of_app; [by apply Hpath|reflexivity]. }
  assert (∀ child s s', walk fuel child false (path ++ [task]) s = Some s' →
     walk_inv (path ++ [task]) s → child ∉ s.1 → child ∈ children task →
     is_Some (statuses !! child) →
     walk_inv (path ++ [task]) s' ∧ grows s s' ∧ child ∈ s'.1) as Hinto.
  { intros child s s' Hs His Hvis Hchild Hthere.
    assert (replaces task child) as Hstep by by split.
    eapply IH; [exact Hs|exact Hvis|by eapply reached_step|intros [=]| |exact His].
    intros p Hpp. eapply rtc_r; [by apply Hpath'|exact Hstep]. }
  assert (task ∈ path ++ [task]) as Htask by (apply elem_of_app; right; left).
  destruct (visit_children_inv _ task (path ++ [task]) (children task) _ state' Hinto Hreach
    Hpath' Htask (λ _ H, H) Hw Hentered) as (Hinv' & Hg & Hall).
  split_and!; [by eapply leave_inv| |].
  - etrans; [apply enter_grows|exact Hg].
  - apply Hg. rewrite enter_visited. set_solver.
Qed.

Lemma walk_roots_inv fuel rest state state' :
  walk_roots fuel rest state = Some state' → (∀ t, t ∈ rest → t ∈ from) → walk_inv [] state →
  walk_inv [] state' ∧ grows state state' ∧ ∀ t, t ∈ rest → t ∈ state'.1.
Proof.
  revert state. induction rest as [|task rest IH]; intros state Hw Hfrom Hinv; simpl in Hw.
  { injection Hw as <-. split_and!; [done|reflexivity|]. intros t Ht. by apply elem_of_nil in Ht. }
  apply bind_Some in Hw as (s & Hs & Hw).
  assert (task ∈ from) as Htask by (apply Hfrom; left).
  assert (walk_inv [] s ∧ grows state s ∧ task ∈ s.1) as (Hi & Hg & Hin).
  { case_bool_decide as Hvis; [injection Hs as <-; by split_and!|].
    eapply walk_keeps_inv; [exact Hs|done|by exists task|done| |done].
    intros p Hp. by apply elem_of_nil in Hp. }
  destruct (IH s Hw) as (Hi' & Hg' & Hall); [intros; apply Hfrom; by right|done|].
  split_and!; [done|by etrans|]. intros t [->|Ht]%elem_of_cons; [by apply Hg'|by apply Hall].
Qed.

Lemma visited_all state task :
  walk_inv [] state → (∀ t, t ∈ from → t ∈ state.1) → reached from task → task ∈ state.1.
Proof.
  intros Hinv Hroots (r & Hr & Hsteps). apply Hroots in Hr.
  eapply (rtc_invariant replaces (λ t, t ∈ state.1)); [|exact Hsteps|done].
  intros a b Ha [Hb [st Hst]].
  pose proof (inv_closed _ _ Hinv a b Ha (not_elem_of_nil _) Hb) as Hl.
  unfold looked_at in Hl. by rewrite Hst in Hl.
Qed.

Lemma empty_inv : walk_inv [] (∅, []).
Proof.
  split; simpl.
  - intros u Hu. by apply elem_of_nil in Hu.
  - set_solver.
  - set_solver.
  - intros t Ht. by apply elem_of_nil in Ht.
  - set_solver.
Qed.

(** A resolved task has no fault below it. *)
Lemma resolved_below task other : resolved task → rtc replaces task other → resolved other.
Proof.
  intros Hres Hsteps. revert Hres. induction Hsteps as [|a b c [Hb _] _ IH]; [done|].
  intros Ha. apply IH. inversion Ha as [? _ Hall _]; subst. by apply Hall.
Qed.

Lemma resolved_no_loop task : resolved task → ∀ child, replaces task child → ¬ rtc replaces child task.
Proof.
  induction 1 as [task Hthere Hres IH Hempty]. intros child [Hc Hsome] Hback.
  assert (∃ next, replaces child next ∧ rtc replaces next child) as (next & Hn & Hloop).
  { inversion Hback as [|? next ? Hn Hrest]; subst.
    - exists task. by split; [split|].
    - exists next. split; [done|]. eapply rtc_r; [exact Hrest|by split]. }
  by apply (IH child Hc next Hn).
Qed.
End found.
End walk.

(** The walk over the applied replacements always ends and reports, in
    order, exactly what is broken: every fault it reports is there, on a
    record reached from a replaced task asked about (a record that names no
    task, a task that is not there, a loop back to a task still followed);
    every empty record and missing task so reached is reported; and nothing is
    reported exactly when each task asked about is resolved all the way down,
    with no loop. *)
Theorem unresolved_exact replacements statuses from :
  ∃ l, unresolved_replacements replacements statuses from = Some l
  ∧ StronglySorted (by_key unresolved_key) l
  ∧ (∀ u, u ∈ l → fault_holds replacements statuses from u)
  ∧ (∀ task, reached replacements statuses from task →
       (children replacements task = [] → is_replaced statuses task = true →
          UnresolvedReplacement.mk task ReplacementFault.Empty ∈ l)
       ∧ ∀ to, to ∈ children replacements task → statuses !! to = None →
          UnresolvedReplacement.mk task (ReplacementFault.Missing to) ∈ l)
  ∧ ((∀ task, task ∈ from → is_replaced statuses task = true) →
       l = [] ↔ ∀ task, task ∈ from → resolved replacements statuses task).
Proof.
  unfold unresolved_replacements.
  destruct (walk_roots_total replacements statuses from (∅, [])) as [state Hw]. rewrite Hw.
  destruct (walk_roots_inv replacements statuses from _ from _ _ Hw (λ _ H, H)
    (empty_inv replacements statuses from)) as (Hinv & _ & Hroots).
  pose proof (λ t, visited_all replacements statuses from state t Hinv Hroots) as Hall.
  assert (∀ u, u ∈ sort_by_key unresolved_key state.2 ↔ u ∈ state.2) as Hin
    by (intros u; apply elem_of_sort_by_key).
  eexists. split_and!; [done|apply sort_by_key_sorted| | |].
  - intros u Hu%Hin. by eapply inv_sound.
  - intros task Ht%Hall. split.
    + intros Hc Hr. apply Hin. by eapply inv_empty.
    + intros to Hto Hno. apply Hin.
      pose proof (inv_closed _ _ _ _ _ Hinv task to Ht (not_elem_of_nil _) Hto) as Hl.
      unfold looked_at in Hl. by rewrite Hno in Hl.
  - intros Hrep. split.
    + intros Hnil task Ht. apply (inv_resolved _ _ _ _ _ Hinv);
        [|by apply Hroots|apply not_elem_of_nil].
      apply elem_of_nil_inv. intros u Hu%Hin. rewrite Hnil in Hu. by apply elem_of_nil in Hu.
    + intros Hres. apply elem_of_nil_inv. intros u Hu%Hin.
      apply (inv_sound _ _ _ _ _ Hinv) in Hu as [(root & Hroot & Hsteps) Hfault].
      pose proof (resolved_below _ _ _ _ (Hres root Hroot) Hsteps) as Hres'.
      destruct (UnresolvedReplacement.fault u) as [|to|to].
      * destruct Hfault as [Hc Hr]. inversion Hres' as [? _ _ Hno]; subst.
        specialize (Hno Hc). destruct Hr as [Hr%Hrep|Hr]; congruence.
      * destruct Hfault as [Hto Hno]. inversion Hres' as [? Hthere _ _]; subst.
        destruct (Hthere to Hto). congruence.
      * destruct Hfault as [Hstep Hback]. by apply (resolved_no_loop _ _ _ Hres' to Hstep).
Qed.

Example sample_unresolved :
  let t := TaskId.new in
  unresolved_replacements
    {[ t 1 := [t 2; t 3]; t 2 := [t 1]; t 3 := [t 9] ]}%Z
    {[ t 1 := TaskStatus.Replaced; t 2 := TaskStatus.Replaced; t 3 := TaskStatus.Replaced ]}%Z
    [t 1]%Z
  = Some [UnresolvedReplacement.mk (t 2) (ReplacementFault.Cycle (t 1));
          UnresolvedReplacement.mk (t 3) (ReplacementFault.Missing (t 9))]%Z.
Proof. vm_compute. reflexivity. Qed.

(** ** Loops of the wait graph *)
Module WaitNode.
Inductive t : Set := Task (task : TaskId) | Goal (goal : GoalId).
#[global] Instance eq_dec : EqDecision t.
Proof. solve_decision. Defined.
#[global] Program Instance countable : Countable t :=
  inj_countable' (λ n, match n with Task task => inl task | Goal goal => inr goal end)
    (λ s, match s with inl task => Task task | inr goal => Goal goal end) _.
Next Obligation. by intros []. Qed.
End WaitNode.
Abbreviation WaitNode := WaitNode.t.

Abbreviation WaitGraph := (gmap WaitNode (list WaitNode)).

Definition waits_for (graph : WaitGraph) (node : WaitNode) : list WaitNode :=
  unwrap_or (graph !! node) [].

(** The graph with the edges of one task, and with all of them. *)
Definition add_edges (graph : WaitGraph) (edge : TaskId * list TaskId) : WaitGraph :=
  let node := WaitNode.Task edge.1 in
  <[node := dedup_onto (waits_for graph node) (WaitNode.Task <$> edge.2)]> graph.

Definition with_edges (waits : WaitGraph) (edges : list (TaskId * list TaskId)) : WaitGraph :=
  foldl add_edges waits edges.

(** Whether the search from [task] comes back to it: every node is entered. *)
Definition waits_for_itself (graph : WaitGraph) (task : TaskId) : option bool :=
  reaches_itself (waits_for graph) (λ _, true) (dom graph) (WaitNode.Task task).

(** [Iterator::find] of a test that may run out of fuel. *)
Fixpoint find_task (test : TaskId → option bool) (tasks : list TaskId) : option (option TaskId) :=
  match tasks with
  | [] => Some None
  | task :: rest =>
      found ← test task; if (found : bool) then Some (Some task) else find_task test rest
  end.

Definition closes_loop (waits : WaitGraph) (edges : list (TaskId * list TaskId)) :
    option (option TaskId) :=
  let graph := with_edges waits edges in
  find_task (waits_for_itself graph) (fst <$> edges).

Definition waits_edge (graph : WaitGraph) : relation WaitNode :=
  λ a b, b ∈ waits_for graph a.

Lemma waits_for_itself_spec graph task :
  ∃ b, waits_for_itself graph task = Some b
    ∧ (b = true ↔ tc (waits_edge graph) (WaitNode.Task task) (WaitNode.Task task)).
Proof.
  unfold waits_for_itself.
  destruct (reaches_itself_spec (waits_for graph) (λ _, true) (dom graph)) with (start := WaitNode.Task task)
    as (b & -> & Hb).
  - intros a _ Ha. apply elem_of_dom. unfold waits_for in Ha. by destruct (graph !! a).
  - exists b. split; [done|]. rewrite Hb. apply tc_iff. intros x y.
    split; [by intros [_ ?]|intros ?; split; [by right|done]].
Qed.

(** The edges of the graph an apply would leave. *)
Lemma with_edges_spec waits edges a b :
  waits_edge (with_edges waits edges) a b ↔
  waits_edge waits a b
  ∨ ∃ task needs need, (task, needs) ∈ edges ∧ need ∈ needs
      ∧ a = WaitNode.Task task ∧ b = WaitNode.Task need.
Proof.
  unfold with_edges. revert waits. induction edges as [|[task needs] edges IH]; intros waits; simpl.
  { split; [by left|]. intros [?|(? & ? & ? & Hin & _)]; [done|by apply elem_of_nil in Hin]. }
  rewrite IH. unfold waits_edge at 1, add_edges. simpl. unfold waits_for at 1.
  destruct (decide (a = WaitNode.Task task)) as [->|Hne].
  - rewrite lookup_insert. case_decide; [|done]. simpl. rewrite dedup_onto_elem. split.
    + intros [[Hb|Hb]|Hb].
      * by left.
      * apply list_elem_of_fmap in Hb as (need & -> & Hneed). right.
        exists task, needs, need. split_and!; [left|done..].
      * right. destruct Hb as (t & ns & n & Hin & ?). exists t, ns, n.
        split; [by right|done].
    + intros [Hb|(t & ns & n & Hin & Hn & [= <-] & ->)]; [by left; left|].
      apply elem_of_cons in Hin as [[= <-]|Hin].
      * left. right. by apply list_elem_of_fmap_2.
      * right. exists task, ns, n. by split_and!.
  - rewrite lookup_insert_ne by done. split.
    + intros [Hb|(t & ns & n & Hin & ?)]; [by left|right]. exists t, ns, n.
      split; [by right|done].
    + intros [Hb|(t & ns & n & Hin & Hn & -> & ->)]; [by left|].
      apply elem_of_cons in Hin as [[= <-]|Hin]; [done|].
      right. exists t, ns, n. by split_and!.
Qed.

(** What waits for what once an apply wrote its edges, said without the graph
    the source builds. *)
Definition waits_after (waits : WaitGraph) (edges : list (TaskId * list TaskId)) :
    relation WaitNode :=
  λ a b, waits_edge waits a b
    ∨ ∃ task needs need, (task, needs) ∈ edges ∧ need ∈ needs
        ∧ a = WaitNode.Task task ∧ b = WaitNode.Task need.

Lemma tc_waits_after waits edges a b :
  tc (waits_after waits edges) a b ↔ tc (waits_edge (with_edges waits edges)) a b.
Proof.
  apply tc_iff. intros x y. symmetry. apply with_edges_spec.
Qed.

(** A loop closed by new edges goes through the source of one. *)
Lemma loop_through_new waits edges n :
  (∀ t, t ∈ edges.*1 → ¬ tc (waits_edge (with_edges waits edges)) (WaitNode.Task t) (WaitNode.Task t)) →
  tc (waits_edge (with_edges waits edges)) n n → tc (waits_edge waits) n n.
Proof.
  intros Hno. set (R := waits_edge (with_edges waits edges)).
  enough (∀ a m, tc R a m → rtc R m a → tc (waits_edge waits) a m) as Hgen
    by (intros Hn; by apply Hgen).
  assert (∀ a b, R a b → rtc R b a → waits_edge waits a b) as Hstep.
  { intros a b Hab Hback. apply with_edges_spec in Hab as Hsplit.
    destruct Hsplit as [?|(t & ns & need & Hin & _ & -> & _)]; [done|].
    exfalso. apply (Hno t); [by apply (list_elem_of_fmap_2 fst) in Hin|].
    eapply tc_rtc_r; [by apply tc_once|done]. }
  intros a m Ham. induction Ham as [a b Hab|a b c Hab Hbc IH]; intros Hback.
  - by apply tc_once, Hstep.
  - eapply tc_l.
    + apply Hstep; [done|]. etrans; [by apply tc_rtc|done].
    + apply IH. etrans; [exact Hback|]. by apply rtc_once.
Qed.

(** C37: before an apply re-points the tasks that wait for the replaced one,
    the search over tasks and goals ends, and names the first of them that
    would wait for itself; when it names none, none would, and an apply on a
    wait graph without loops leaves it without loops. *)
Theorem closes_loop_exact (waits : WaitGraph) edges :
  let loops n := tc (waits_after waits edges) n n in
  ∃ found, closes_loop waits edges = Some found
  ∧ match found with
    | Some task => ∃ before rest, edges.*1 = before ++ task :: rest
        ∧ loops (WaitNode.Task task) ∧ Forall (λ t, ¬ loops (WaitNode.Task t)) before
    | None => (∀ t, t ∈ edges.*1 → ¬ loops (WaitNode.Task t))
        ∧ ((∀ n, ¬ tc (waits_edge waits) n n) → ∀ n, ¬ loops n)
    end.
Proof.
  intros loops. unfold closes_loop. set (after := with_edges waits edges).
  assert (∀ n, loops n ↔ tc (waits_edge after) n n) as Hloops by (intros n; apply tc_waits_after).
  assert (∀ tasks, ∃ found, find_task (waits_for_itself after) tasks = Some found
    ∧ match found with
      | Some task => ∃ before rest, tasks = before ++ task :: rest
          ∧ loops (WaitNode.Task task) ∧ Forall (λ t, ¬ loops (WaitNode.Task t)) before
      | None => ∀ t, t ∈ tasks → ¬ loops (WaitNode.Task t)
      end) as Hfind.
  { induction tasks as [|task tasks (found & IHf & IH)]; simpl.
    { exists None. split; [done|]. intros t Ht. by apply elem_of_nil in Ht. }
    destruct (waits_for_itself_spec after task) as ([] & Hs & Hb); rewrite Hs; simpl.
    - exists (Some task). split; [done|]. exists [], tasks. split_and!; [done|by apply Hloops, Hb|constructor].
    - assert (¬ loops (WaitNode.Task task)) as Hno by (intros Hl%Hloops%Hb; done).
      exists found. split; [done|]. destruct found as [t|].
      + destruct IH as (before & rest & -> & Hl & Hall). exists (task :: before), rest.
        split_and!; [done|done|by constructor].
      + intros t [->|Ht]%elem_of_cons; [done|by apply IH]. }
  destruct (Hfind edges.*1) as ([task|] & Hf & Hspec); eexists; (split; [exact Hf|]); [done|].
  split; [done|]. intros Hacyclic n Hn. apply (Hacyclic n).
  apply (loop_through_new waits edges); [|by apply Hloops].
  intros t Ht Hl. by apply (Hspec t Ht), Hloops.
Qed.

Example sample_loop :
  let task n := WaitNode.Task (TaskId.new n) in
  closes_loop
    {[ task 1%Z := [WaitNode.Goal (GoalId.new 5)]; WaitNode.Goal (GoalId.new 5) := [task 2%Z] ]}
    [(TaskId.new 3, [TaskId.new 1]); (TaskId.new 2, [TaskId.new 1])]%Z
  = Some (Some (TaskId.new 2%Z)).
Proof. vm_compute. reflexivity. Qed.

End Replacements.
