(* ===== verification/ReplanPlans.v ===== *)
(** * Replacement plans

    [src/src/domain/replan_plan.rs]: the plan a planner submits to replace a
    parked task by child tasks, and [check_plan], the judgement of it that a
    submit, a lint and plan review apply; and the check again right before an
    apply ([apply_problems] of [src/src/domain/replan_apply.rs]).

    A value of JSON is a library's: the plan reads it through [JsonValue].  A
    [BTreeSet] of tasks is the list of its elements in order, its
    [contains] the membership of that list; a set only asked for membership
    is a [gset]. *)
From S2P Require Import Prelude Text Vocab Ids Errors Tasks Replans.

(** What a check reads of [serde_json::Value]. *)
Class JsonValue (J : Type) := {
  json_eq_dec :: EqDecision J;
  (** [Value::as_array]. *)
  as_array : J → option (list J);
  (** [Display]: its compact text. *)
  json_text : J → string;
}.

(** ** The conditions an operation fixed
    ([src/src/domain/task_replan.rs]) *)
Module AcceptanceItem.
Record t : Set := mk { ordinal : nat; text : string; hash : string }.
#[global] Instance eq_dec : EqDecision t.
Proof. solve_decision. Defined.
End AcceptanceItem.
Abbreviation AcceptanceItem := AcceptanceItem.t.

(** The items of an acceptance, one per non-blank line, numbered from 1;
    [sha256] is the text of the digest, which the [sha2] crate computes. *)
Definition acceptance_items (sha256 : string → string) (acceptance : string) :
    list AcceptanceItem :=
  imap (λ index text, AcceptanceItem.mk (index + 1) text (sha256 text))
    (List.filter (λ line, negb (is_empty line)) (trim <$> lines acceptance)).

Module GoalConditions.
Record t : Set := mk {
  id : GoalId;
  acceptance_version : Z;
  acceptance : list AcceptanceItem;
}.
End GoalConditions.
Abbreviation GoalConditions := GoalConditions.t.

Module OriginalConditions.
Record t {J : Type} : Type := mk {
  title : string;
  description : string;
  acceptance : list AcceptanceItem;
  paths : list string;
  verify : list string;
  evidence : J;
  predecessors : list TaskId;
  successors : list TaskId;
  goal : option GoalConditions;
}.
Arguments t : clear implicits.
Arguments mk {J}.
End OriginalConditions.
Abbreviation OriginalConditions := OriginalConditions.t.

(** The operation a plan is checked against: its row and the conditions it
    copied. *)
Module PlannedOperation.
Record t {J : Type} : Type := mk {
  row : Replan.Operation;
  conditions : OriginalConditions J;
}.
Arguments t : clear implicits.
Arguments mk {J}.
End PlannedOperation.
Abbreviation PlannedOperation := PlannedOperation.t.

(** ** The plan *)
Module PlanChild.
Record t : Set := mk { task_id : TaskId; carry : CarrySource; order : option N }.
End PlanChild.
Abbreviation PlanChild := PlanChild.t.

Module ChildItem.
Record t : Set := mk { task_id : TaskId; ordinal : nat }.
End ChildItem.
Abbreviation ChildItem := ChildItem.t.

Module PlanMapping.
Record t : Set := mk {
  ordinal : nat;
  hash : string;
  disposition : ItemDisposition;
  children : list ChildItem;
  landed_task_id : option TaskId;
  authority_ask_id : option AskId;
  reason : option string;
}.
End PlanMapping.
Abbreviation PlanMapping := PlanMapping.t.

Module PlanSuccessor.
Record t : Set := mk { task_id : TaskId; needs : list TaskId; reason : option string }.
End PlanSuccessor.
Abbreviation PlanSuccessor := PlanSuccessor.t.

Module ReplacementPlan.
Record t : Set := mk {
  operation_id : ReplanId;
  task_version : string;
  goal_acceptance_version : option Z;
  choice : PlanChoice;
  rationale : string;
  children : list PlanChild;
  mappings : list PlanMapping;
  successors : list PlanSuccessor;
}.
Definition child_ids (self : t) : list TaskId := PlanChild.task_id <$> children self.
End ReplacementPlan.
Abbreviation ReplacementPlan := ReplacementPlan.t.

Module PlanProblem.
Record t : Set := mk { code : PlanProblemCode; task_id : option TaskId; reason : string }.
#[global] Instance eq_dec : EqDecision t.
Proof. solve_decision. Defined.
End PlanProblem.
Abbreviation PlanProblem := PlanProblem.t.

(** ** What the check reads of the queue *)
Module PlanTask.
Record t {J : Type} : Type := mk {
  status : TaskStatus;
  goal_id : option GoalId;
  acceptance : list AcceptanceItem;
  verify : list string;
  paths : list string;
  evidence : list J;
  depends_on : list TaskId;
}.
Arguments t : clear implicits.
Arguments mk {J}.
#[global] Instance updatable J : Updatable (t J) :=
  λ r, mk (status r) (goal_id r) (acceptance r) (verify r) (paths r) (evidence r) (depends_on r).
End PlanTask.
Abbreviation PlanTask := PlanTask.t.

Module DeletionAuthority.
Record t : Set := mk {
  about_operation : bool;
  scope : bool;
  answered_by_person : bool;
  answer : string;
  options : list string;
}.
End DeletionAuthority.
Abbreviation DeletionAuthority := DeletionAuthority.t.

Definition deletion_token (item : AcceptanceItem) : string :=
  let hash := take_chars 12 (AcceptanceItem.hash item) in
  format ["delete:"; decimal (Z.of_nat (AcceptanceItem.ordinal item)); ":"; hash].

Definition approves_deletion (authority : DeletionAuthority) (item : AcceptanceItem) : bool :=
  let token := deletion_token item in
  bool_decide (trim (DeletionAuthority.answer authority) = token)
  && bool_decide (token ∈ DeletionAuthority.options authority).

Module PlanContext.
Record t {J : Type} : Type := mk {
  operation : PlannedOperation J;
  task_version_now : string;
  goal_acceptance_version_now : option Z;
  members : list TaskId;
  tasks : gmap TaskId (PlanTask J);
  downstream : gset TaskId;
  authorities : gmap AskId DeletionAuthority;
}.
Arguments t : clear implicits.
Arguments mk {J}.
#[global] Instance updatable J : Updatable (t J) :=
  λ r, mk (operation r) (task_version_now r) (goal_acceptance_version_now r) (members r)
    (tasks r) (downstream r) (authorities r).
End PlanContext.
Abbreviation PlanContext := PlanContext.t.

(** A fix plan review makes itself ([src/src/domain/plan_review.rs]). *)
Module PlanReviewAction.
Inductive t : Set :=
  | AddDependency (task_id depends_on : TaskId)
  | LowerPriority (task_id : TaskId) (priority : Priority)
  | CancelDuplicate (task_id duplicate_of : TaskId).
Definition task_id (self : t) : TaskId :=
  match self with
  | AddDependency task_id _ | LowerPriority task_id _ | CancelDuplicate task_id _ => task_id
  end.
End PlanReviewAction.
Abbreviation PlanReviewAction := PlanReviewAction.t.

Module ReplanPlan.
Section check.
  Context {J : Type} `{JsonValue J}.
  Implicit Types (plan : ReplacementPlan) (ctx : PlanContext J).

(** *** The context once a pass's actions apply *)
Definition after_action (action : PlanReviewAction) ctx : PlanContext J :=
  if bool_decide (PlanReviewAction.task_id action ∉ PlanContext.members ctx) then ctx
  else match action with
  | PlanReviewAction.CancelDuplicate task_id _ =>
      ctx <| PlanContext.tasks :=
        alter (λ task, task <| PlanTask.status := TaskStatus.Canceled |>) task_id
          (PlanContext.tasks ctx) |>
  | PlanReviewAction.AddDependency task_id depends_on =>
      ctx <| PlanContext.tasks :=
        alter (λ task, task <| PlanTask.depends_on :=
                 push_once (PlanTask.depends_on task) depends_on |>) task_id
          (PlanContext.tasks ctx) |>
  | PlanReviewAction.LowerPriority _ _ => ctx
  end.

Definition after_actions ctx (actions : list PlanReviewAction) : PlanContext J :=
  foldl (λ ctx action, after_action action ctx) ctx actions.

(** *** Reporting *)

(** [if condition { push(code, task_id, reason) }]. *)
Definition report (condition : bool) (code : PlanProblemCode) (task_id : option TaskId)
    (reason : string) : list PlanProblem :=
  if condition then [PlanProblem.mk code task_id reason] else [].

(** A loop that reports for each element, in order. *)
Definition for_each {A} (l : list A) (f : A → list PlanProblem) : list PlanProblem :=
  concat (f <$> l).

(** The tasks of a [BTreeSet], in order. *)
Definition task_set (l : list TaskId) : list TaskId :=
  sort_by_key (λ task, [TaskId.as_i64 task]) (remove_dups l).

Definition debug_task (task : TaskId) : string := debug_tuple "TaskId" (TaskId.as_i64 task).
Definition debug_goal (goal : GoalId) : string := debug_tuple "GoalId" (GoalId.as_i64 goal).

Section with_context.
  Context (plan : ReplacementPlan) (ctx : PlanContext J) (children : list TaskId).
Let op : Replan.Operation := PlannedOperation.row (PlanContext.operation ctx).
Let conditions : OriginalConditions J := PlannedOperation.conditions (PlanContext.operation ctx).
Let tasks : gmap TaskId (PlanTask J) := PlanContext.tasks ctx.
Let the_task : string := TaskId.display (Replan.task_id op).

(** *** The plan as a whole *)
Definition check_made_on : list PlanProblem :=
  report (negb (bool_decide (ReplacementPlan.operation_id plan = Replan.id op)))
    PlanProblemCode.OperationMismatch None
    (format ["the plan names replan operation "; ReplanId.display (ReplacementPlan.operation_id plan);
       ", but the proposal replaces task "; the_task; " of operation "; ReplanId.display (Replan.id op)])
  ++ report (negb (Replan.hands_to_planner (Replan.status op)))
    PlanProblemCode.NotWithPlanner None
    (format ["replan operation "; ReplanId.display (Replan.id op); " is "; as_str (Replan.status op);
       ", not with its planner"])
  ++ report
    (negb (bool_decide (ReplacementPlan.task_version plan = Replan.task_version op))
     || negb (bool_decide (PlanContext.task_version_now ctx = Replan.task_version op)))
    PlanProblemCode.VersionStale None
    (format ["the plan was made on the conditions of task "; the_task; " at version ";
       ReplacementPlan.task_version plan; ", the operation fixed "; Replan.task_version op;
       " and they are "; PlanContext.task_version_now ctx; " now"])
  ++ report
    (negb (bool_decide (ReplacementPlan.goal_acceptance_version plan = Replan.goal_acceptance_version op))
     || negb (bool_decide (PlanContext.goal_acceptance_version_now ctx = Replan.goal_acceptance_version op)))
    PlanProblemCode.VersionStale None
    (format ["the plan was made on goal acceptance version ";
       debug_option decimal (ReplacementPlan.goal_acceptance_version plan); ", the operation fixed ";
       debug_option decimal (Replan.goal_acceptance_version op); " and it is ";
       debug_option decimal (PlanContext.goal_acceptance_version_now ctx);
       " now: the goal's acceptance is not the planner's to change"])
  ++ report (is_blank (ReplacementPlan.rationale plan)) PlanProblemCode.BlankRationale None
    "the plan gives no rationale for its choice"
  ++ report (bool_decide (children = [])) PlanProblemCode.NoChildren None
    "the plan names no child task; to continue the run, decline the request with --continue-run".

Definition pending (status : TaskStatus) : bool :=
  match status with TaskStatus.Draft | TaskStatus.Submitted => true | _ => false end.

Definition check_child (child : TaskId) : list PlanProblem :=
  let child_task := "child task " +:+ TaskId.display child in
  report (bool_decide (child = Replan.task_id op)) PlanProblemCode.OriginalAsChild (Some child)
    (format ["task "; TaskId.display child; " is the task being replaced; its children are new tasks"])
  ++ report (bool_decide (child ∉ PlanContext.members ctx))
    PlanProblemCode.ChildNotMember (Some child)
    (format [child_task; " is not a task of the proposal"])
  ++ match tasks !! child with
     | None =>
         report true PlanProblemCode.ChildUnknown (Some child)
           (format [child_task; " does not exist"])
     | Some task =>
         report (negb (bool_decide (PlanTask.goal_id task = Replan.goal_id op)))
           PlanProblemCode.GoalMismatch (Some child)
           (format [child_task; " belongs to goal "; debug_option debug_goal (PlanTask.goal_id task);
              ", the task being replaced to goal "; debug_option debug_goal (Replan.goal_id op)])
     end
  ++ match tasks !! child with
     | None => []
     | Some task =>
         report (negb (pending (PlanTask.status task))) PlanProblemCode.ChildNotPending (Some child)
           (format [child_task; " is "; as_str (PlanTask.status task);
              "; a child is a task the replacement has not started (draft or submitted), so map what it held to the others"])
     end.

Definition check_member (member : TaskId) : list PlanProblem :=
  report (bool_decide (member ∉ children)) PlanProblemCode.MemberNotChild (Some member)
    (format ["task "; TaskId.display member;
       " is in the proposal but not a child of the plan; a replacement proposal holds its children only"]).

(** *** The items of the acceptance *)

(** [collect] into a [BTreeMap]: the last item of an ordinal stays. *)
Definition items : gmap nat AcceptanceItem :=
  foldl (λ items item, <[AcceptanceItem.ordinal item := item]> items) ∅
    (OriginalConditions.acceptance conditions).

Definition child_item_exists (held : ChildItem) : bool :=
  bool_decide (ChildItem.task_id held ∈ children)
  && is_some_and (tasks !! ChildItem.task_id held) (λ task,
       existsb (λ item, bool_decide (AcceptanceItem.ordinal item = ChildItem.ordinal held))
         (PlanTask.acceptance task)).

Definition show_nat (n : nat) : string := decimal (Z.of_nat n).

Definition check_held (ordinal : nat) (held : ChildItem) : list PlanProblem :=
  report (negb (child_item_exists held)) PlanProblemCode.ChildItemMissing
    (Some (ChildItem.task_id held))
    (format ["acceptance item "; show_nat ordinal; " goes to item "; show_nat (ChildItem.ordinal held);
       " of task "; TaskId.display (ChildItem.task_id held);
       ", which is not an item of a child of the plan"]).

Definition deletion_authorized (item : AcceptanceItem) (mapping : PlanMapping) : bool :=
  is_some_and (ask ← PlanMapping.authority_ask_id mapping; PlanContext.authorities ctx !! ask)
    (λ authority,
       DeletionAuthority.about_operation authority
       && DeletionAuthority.scope authority
       && DeletionAuthority.answered_by_person authority
       && approves_deletion authority item).

Definition landing_proven (mapping : PlanMapping) : bool :=
  is_some_and
    (task ← PlanMapping.landed_task_id mapping;
     if bool_decide (task ≠ Replan.task_id op) then tasks !! task else None)
    (λ task, bool_decide (PlanTask.status task = TaskStatus.Completed)).

Definition check_disposition (item : AcceptanceItem) (mapping : PlanMapping) : list PlanProblem :=
  let the_item := "acceptance item " +:+ show_nat (PlanMapping.ordinal mapping) in
  match PlanMapping.disposition mapping with
  | ItemDisposition.Deleted =>
      report (negb (bool_decide (PlanMapping.children mapping = [])))
        PlanProblemCode.DeletionUnauthorized None
        (format [the_item; " is deleted and held by children at once"])
      ++ report (negb (deletion_authorized item mapping)) PlanProblemCode.DeletionUnauthorized None
        (format [the_item; " is deleted without a person's answer `"; deletion_token item;
           "` to a scope ask about the operation (authority_ask_id); ask one with --because scope offering that option, or map it to a child"])
  | disposition =>
      report (bool_decide (PlanMapping.children mapping = [])) PlanProblemCode.ItemUnmapped None
        (format [the_item; " ("; as_str disposition; ") names no child item that holds it"])
      ++ report (bool_decide (disposition = ItemDisposition.Landed) && negb (landing_proven mapping))
        PlanProblemCode.LandedUnproven None
        (format [the_item;
           " is called landed without a completed task that landed it (landed_task_id); the parked run's saved work has not landed"])
  end.

Definition check_hash (item : AcceptanceItem) (mapping : PlanMapping) : list PlanProblem :=
  report (negb (bool_decide (AcceptanceItem.hash item = PlanMapping.hash mapping)))
    PlanProblemCode.VersionStale None
    (format ["acceptance item "; show_nat (PlanMapping.ordinal mapping); " of task "; the_task;
       " has hash "; AcceptanceItem.hash item; ", the plan names "; PlanMapping.hash mapping]).

(** What the first mapping of an item is checked for. *)
Definition check_mapping (item : AcceptanceItem) (mapping : PlanMapping) : list PlanProblem :=
  check_hash item mapping
  ++ for_each (PlanMapping.children mapping) (check_held (PlanMapping.ordinal mapping))
  ++ check_disposition item mapping.

(** The loop over the mappings, from the ordinals mapped and the tasks that
    hold an item so far: what it reports, and both at its end. *)
Fixpoint map_items (mappings : list PlanMapping) (seen : gset nat) (holding : gset TaskId) :
    list PlanProblem * (gset nat * gset TaskId) :=
  match mappings with
  | [] => ([], (seen, holding))
  | mapping :: rest =>
      let ordinal := PlanMapping.ordinal mapping in
      match items !! ordinal with
      | None =>
          let '(problems, found) := map_items rest seen holding in
          (report true PlanProblemCode.ItemUnknown None
             (format ["task "; the_task; " has no acceptance item "; show_nat ordinal;
                " as the operation fixed it"]) ++ problems, found)
      | Some item =>
          if bool_decide (ordinal ∈ seen) then
            let '(problems, found) := map_items rest seen holding in
            (check_hash item mapping
             ++ report true PlanProblemCode.ItemRepeated None
                  (format ["acceptance item "; show_nat ordinal;
                     " is mapped more than once; list its children in one mapping"])
             ++ problems, found)
          else
            let '(problems, found) := map_items rest ({[ordinal]} ∪ seen)
              (list_to_set (ChildItem.task_id <$> PlanMapping.children mapping) ∪ holding) in
            (check_mapping item mapping ++ problems, found)
      end
  end.

Definition item_ordinals : list nat :=
  sort_by_key (λ ordinal, [Z.of_nat ordinal]) (elements (dom items)).

Definition check_items : list PlanProblem :=
  let '(problems, (seen, holding)) := map_items (ReplacementPlan.mappings plan) ∅ ∅ in
  problems
  ++ for_each item_ordinals (λ ordinal,
       report (bool_decide (ordinal ∉ seen)) PlanProblemCode.ItemUnmapped None
         (format ["acceptance item "; show_nat ordinal; " of task "; the_task;
            " is mapped to no child and not deleted"]))
  ++ for_each children (λ child,
       report (bool_decide (child ∉ holding)) PlanProblemCode.ChildHoldsNothing (Some child)
         (format ["child task "; TaskId.display child; " holds no acceptance item of task "; the_task])).

(** *** The checks of the task *)
Definition check_child_checks (child : TaskId) : list PlanProblem :=
  match tasks !! child with
  | None => []
  | Some task =>
      let child_task := "child task " +:+ TaskId.display child in
      for_each (OriginalConditions.verify conditions) (λ command,
        report (bool_decide (command ∉ PlanTask.verify task))
          PlanProblemCode.VerificationWeakened (Some child)
          (format [child_task; " does not run the verification `"; command;
             "` of the task being replaced"]))
      ++ report (bool_decide (PlanTask.verify task = [])) PlanProblemCode.VerificationWeakened
        (Some child) (format [child_task; " has no verification command"])
      ++ report
        (negb (bool_decide (OriginalConditions.paths conditions = []))
         && bool_decide (PlanTask.paths task = []))
        PlanProblemCode.PathsMissing (Some child)
        (format [child_task; " declares no paths, while the task being replaced declared them"])
  end.

Definition known_children : list (PlanTask J) := omap (λ child, tasks !! child) children.

Definition required_evidence : list J :=
  unwrap_or (as_array (OriginalConditions.evidence conditions)) [].

Definition check_checks : list PlanProblem :=
  for_each required_evidence (λ check,
    report (negb (existsb (λ task, bool_decide (check ∈ PlanTask.evidence task)) known_children))
      PlanProblemCode.EvidenceDropped None
      (format ["no child requires the evidence "; json_text check; " of the task being replaced"]))
  ++ for_each children check_child_checks.

(** *** The saved work *)
Definition takes_saved (child : PlanChild) : bool :=
  negb (bool_decide (PlanChild.carry child = CarrySource.Base)).

(** The first loop: each child that takes saved work says in which order, a
    place no other has. *)
Fixpoint check_orders (l : list PlanChild) (orders : gmap N TaskId) : list PlanProblem :=
  match l with
  | [] => []
  | child :: rest =>
      let id := PlanChild.task_id child in
      if negb (takes_saved child) then check_orders rest orders
      else match PlanChild.order child with
      | None =>
          report true PlanProblemCode.CarryUnclear (Some id)
            (format ["child task "; TaskId.display id; " takes "; as_str (PlanChild.carry child);
               " without the order it takes it in"])
          ++ check_orders rest orders
      | Some order =>
          match orders !! order with
          | None => []
          | Some other =>
              report true PlanProblemCode.CarryUnclear (Some id)
                (format ["children "; TaskId.display other; " and "; TaskId.display id;
                   " both take saved work in order "; decimal (Z.of_N order)])
          end
          ++ check_orders rest (<[order := id]> orders)
      end
  end.

(** The children that take each part of the saved work: its [takers], in the
    order of the map's keys, the texts of the parts. *)
Definition takers (source : CarrySource) : list TaskId :=
  PlanChild.task_id <$>
    List.filter (λ child, bool_decide (PlanChild.carry child = source)) (ReplacementPlan.children plan).

Definition check_takers (source : CarrySource) : list PlanProblem :=
  match takers source with
  | _ :: second :: _ =>
      report true PlanProblemCode.CarryUnclear (Some second)
        (format [as_str source; " goes to children "; debug_list debug_task (takers source);
           ": each part of the saved work goes to one child, which the others wait for"])
  | _ => []
  end.

Fixpoint check_named (l : list PlanChild) (named : gset TaskId) : list PlanProblem :=
  match l with
  | [] => []
  | child :: rest =>
      let id := PlanChild.task_id child in
      report (bool_decide (id ∈ named)) PlanProblemCode.CarryUnclear (Some id)
        (format ["child task "; TaskId.display id; " is named twice"])
      ++ check_named rest ({[id]} ∪ named)
  end.

Definition check_carry : list PlanProblem :=
  check_orders (ReplacementPlan.children plan) ∅
  ++ for_each [CarrySource.SnapshotDiff; CarrySource.SnapshotHead] check_takers
  ++ check_named (ReplacementPlan.children plan) ∅.

(** *** The dependencies *)
Definition has_ended (task : TaskId) : bool :=
  is_some_and (tasks !! task) (λ task,
    bool_decide (PlanTask.status task = TaskStatus.Completed)
    || bool_decide (PlanTask.status task = TaskStatus.Canceled)).

Definition check_waits (child : TaskId) : list PlanProblem :=
  match tasks !! child with
  | None => []
  | Some task =>
      for_each (OriginalConditions.predecessors conditions) (λ predecessor,
        report (negb (has_ended predecessor) && bool_decide (predecessor ∉ PlanTask.depends_on task))
          PlanProblemCode.PredecessorDropped (Some child)
          (format ["child task "; TaskId.display child; " does not wait for task ";
             TaskId.display predecessor; ", which the task being replaced waits for"]))
      ++ for_each (PlanTask.depends_on task) (λ on,
        report (bool_decide (on = Replan.task_id op) || bool_decide (on ∈ PlanContext.downstream ctx))
          PlanProblemCode.DependencyCycle (Some child)
          (format ["child task "; TaskId.display child; " waits for task "; TaskId.display on;
             ", which is the task being replaced or waits for it: the replacement would close a loop"]))
  end.

Definition waits_of (task : TaskId) : list TaskId :=
  match tasks !! task with Some task => PlanTask.depends_on task | None => [] end.

(** Whether the search from [start] over the children comes back to it. *)
Definition in_loop (start : TaskId) : option bool :=
  reaches_itself waits_of (λ next, bool_decide (next ∈ children)) (list_to_set children) start.

(** A loop that reports for each element by a test that may run out of
    fuel. *)
Fixpoint for_each_test (l : list TaskId) (test : TaskId → option bool)
    (problems : TaskId → bool → list PlanProblem) : option (list PlanProblem) :=
  match l with
  | [] => Some []
  | x :: rest =>
      found ← test x;
      more ← for_each_test rest test problems;
      Some (problems x found ++ more)
  end.

Definition check_dependencies : option (list PlanProblem) :=
  loops ← for_each_test children in_loop (λ start found,
    report found PlanProblemCode.DependencyCycle (Some start)
      (format ["child task "; TaskId.display start; " waits for itself through the other children"]));
  Some (for_each children check_waits ++ loops).

(** *** The successors *)
Definition check_needs (successor : PlanSuccessor) : list PlanProblem :=
  let id := PlanSuccessor.task_id successor in
  let needs := task_set (PlanSuccessor.needs successor) in
  if bool_decide (needs = []) || negb (forallb (λ need, bool_decide (need ∈ children)) needs) then
    report true PlanProblemCode.SuccessorNeedsUnclear (Some id)
      (format ["successor "; TaskId.display id;
         " must wait for one or more children of the plan, it names ";
         debug_list debug_task (PlanSuccessor.needs successor)])
  else
    report ((length needs <? length children) && is_none_or (PlanSuccessor.reason successor) is_blank)
      PlanProblemCode.SuccessorNeedsUnclear (Some id)
      (format ["successor "; TaskId.display id;
         " waits for only some of the children without a reason why the others hold nothing it needs"]).

Definition waits_or_ended (status : TaskStatus) : bool :=
  match status with
  | TaskStatus.Draft | TaskStatus.Submitted | TaskStatus.Ready => true
  | _ => status_is_terminal status
  end.

Definition check_not_started (successor : TaskId) : list PlanProblem :=
  match tasks !! successor with
  | None => []
  | Some task =>
      report (negb (waits_or_ended (PlanTask.status task))) PlanProblemCode.SuccessorStarted
        (Some successor)
        (format ["successor "; TaskId.display successor; " is "; as_str (PlanTask.status task);
           " already: its run is not the replacement's to change"])
  end.

(** The loop over the successors, from those listed so far: what it reports,
    and those listed at its end. *)
Fixpoint map_successors (l : list PlanSuccessor) (listed : gset TaskId) :
    list PlanProblem * gset TaskId :=
  match l with
  | [] => ([], listed)
  | successor :: rest =>
      let id := PlanSuccessor.task_id successor in
      if bool_decide (id ∉ OriginalConditions.successors conditions) || bool_decide (id ∈ listed) then
        let '(problems, listed) := map_successors rest listed in
        (report true PlanProblemCode.SuccessorUnknown (Some id)
           (format ["task "; TaskId.display id; " is not a successor of task "; the_task;
              " as the operation fixed it, or is listed twice"]) ++ problems, listed)
      else
        let '(problems, listed) := map_successors rest ({[id]} ∪ listed) in
        (check_needs successor ++ check_not_started id ++ problems, listed)
  end.

Definition check_successors : list PlanProblem :=
  let '(problems, listed) := map_successors (ReplacementPlan.successors plan) ∅ in
  problems
  ++ for_each (task_set (OriginalConditions.successors conditions)) (λ id,
       report (bool_decide (id ∉ listed)) PlanProblemCode.SuccessorUnmapped (Some id)
         (format ["successor "; TaskId.display id; " of task "; the_task;
            " is not given the children it waits for in its place"])).
End with_context.

Definition check_plan plan ctx : option (list PlanProblem) :=
  let children := task_set (ReplacementPlan.child_ids plan) in
  dependencies ← check_dependencies ctx children;
  Some (check_made_on plan ctx children
        ++ for_each children (check_child ctx)
        ++ for_each (PlanContext.members ctx) (check_member children)
        ++ check_items plan ctx children
        ++ check_checks ctx children
        ++ check_carry plan
        ++ dependencies
        ++ check_successors plan ctx children).

Definition describe (problems : list PlanProblem) : list string :=
  (λ problem, format [as_str (PlanProblem.code problem); ": "; PlanProblem.reason problem]) <$> problems.

(** ** What a plan without problems is *)

Lemma report_nil condition code task reason :
  report condition code task reason = [] ↔ condition = false.
Proof. by destruct condition. Qed.

Lemma for_each_nil {A} (l : list A) f : for_each l f = [] ↔ ∀ x, x ∈ l → f x = [].
Proof.
  induction l as [|x l IH]; unfold for_each in *; simpl; [set_solver|].
  rewrite app_nil, IH. set_solver.
Qed.

Lemma elem_of_task_set l task : task ∈ task_set l ↔ task ∈ l.
Proof. unfold task_set. by rewrite elem_of_sort_by_key, elem_of_remove_dups. Qed.

Lemma task_set_nil l : task_set l = [] ↔ l = [].
Proof.
  split; [|by intros ->]. intros Hnil. destruct l as [|x l]; [done|].
  assert (x ∈ task_set (x :: l)) as Hx by (apply elem_of_task_set; left).
  rewrite Hnil in Hx. by apply elem_of_nil in Hx.
Qed.

Lemma task_set_nodup l : NoDup (task_set l).
Proof. unfold task_set. rewrite sort_by_key_perm. apply NoDup_remove_dups. Qed.

Section fits.
  Context (plan : ReplacementPlan) (ctx : PlanContext J).
Let op : Replan.Operation := PlannedOperation.row (PlanContext.operation ctx).
Let conditions : OriginalConditions J := PlannedOperation.conditions (PlanContext.operation ctx).
Let tasks : gmap TaskId (PlanTask J) := PlanContext.tasks ctx.
Let children : list TaskId := ReplacementPlan.child_ids plan.

(** The plan was made for this operation, while its planner has it, on the
    conditions it fixed, which still hold. *)
Definition made_on_operation : Prop :=
  ReplacementPlan.operation_id plan = Replan.id op
  ∧ Replan.hands_to_planner (Replan.status op) = true
  ∧ ReplacementPlan.task_version plan = Replan.task_version op
  ∧ PlanContext.task_version_now ctx = Replan.task_version op
  ∧ ReplacementPlan.goal_acceptance_version plan = Replan.goal_acceptance_version op
  ∧ PlanContext.goal_acceptance_version_now ctx = Replan.goal_acceptance_version op
  ∧ is_blank (ReplacementPlan.rationale plan) = false.

(** A child is a new task of the proposal and of the goal, not yet started,
    that runs every verification of the task, declares paths if the task did,
    waits for what the task waits for unless it ended, and for nothing that
    waits for the task. *)
Record child_fits (child : TaskId) (task : PlanTask J) : Prop := {
  fits_there : tasks !! child = Some task;
  fits_new : child ≠ Replan.task_id op;
  fits_goal : PlanTask.goal_id task = Replan.goal_id op;
  fits_pending :
    PlanTask.status task = TaskStatus.Draft ∨ PlanTask.status task = TaskStatus.Submitted;
  fits_verify : OriginalConditions.verify conditions ⊆ PlanTask.verify task;
  fits_verified : PlanTask.verify task ≠ [];
  fits_paths : OriginalConditions.paths conditions ≠ [] → PlanTask.paths task ≠ [];
  fits_waits : ∀ p, p ∈ OriginalConditions.predecessors conditions →
    p ∈ PlanTask.depends_on task
    ∨ ∃ ended, tasks !! p = Some ended
        ∧ (PlanTask.status ended = TaskStatus.Completed ∨ PlanTask.status ended = TaskStatus.Canceled);
  fits_downstream : ∀ on, on ∈ PlanTask.depends_on task →
    on ≠ Replan.task_id op ∧ on ∉ PlanContext.downstream ctx;
}.

(** A child waits for another of the children. *)
Definition child_waits (a b : TaskId) : Prop :=
  a ∈ children ∧ ∃ task, tasks !! a = Some task ∧ b ∈ PlanTask.depends_on task.

(** [held] is an item a child has. *)
Definition held_by_child (held : ChildItem) : Prop :=
  ChildItem.task_id held ∈ children
  ∧ ∃ task item, tasks !! ChildItem.task_id held = Some task
      ∧ item ∈ PlanTask.acceptance task ∧ AcceptanceItem.ordinal item = ChildItem.ordinal held.

(** A person answered a scope ask about the operation with the deletion of
    this very item. *)
Definition deleted_by_person (item : AcceptanceItem) (mapping : PlanMapping) : Prop :=
  ∃ ask authority, PlanMapping.authority_ask_id mapping = Some ask
    ∧ PlanContext.authorities ctx !! ask = Some authority
    ∧ DeletionAuthority.about_operation authority = true
    ∧ DeletionAuthority.scope authority = true
    ∧ DeletionAuthority.answered_by_person authority = true
    ∧ trim (DeletionAuthority.answer authority) = deletion_token item
    ∧ deletion_token item ∈ DeletionAuthority.options authority.

Definition landed_elsewhere (mapping : PlanMapping) : Prop :=
  ∃ landed task, PlanMapping.landed_task_id mapping = Some landed ∧ landed ≠ Replan.task_id op
    ∧ tasks !! landed = Some task ∧ PlanTask.status task = TaskStatus.Completed.

(** A mapping of an item as the operation fixed it: to items of children, or
    deleted by a person; called landed only with the task that landed it. *)
Definition mapping_fits (mapping : PlanMapping) : Prop :=
  (∃ item, items ctx !! PlanMapping.ordinal mapping = Some item
    ∧ AcceptanceItem.hash item = PlanMapping.hash mapping
    ∧ (PlanMapping.disposition mapping = ItemDisposition.Deleted → deleted_by_person item mapping))
  ∧ (∀ held, held ∈ PlanMapping.children mapping → held_by_child held)
  ∧ (PlanMapping.disposition mapping = ItemDisposition.Deleted ↔ PlanMapping.children mapping = [])
  ∧ (PlanMapping.disposition mapping = ItemDisposition.Landed → landed_elsewhere mapping).

(** A successor waits for children of the plan, for all of them or with a
    reason, and has not started. *)
Definition successor_fits (successor : PlanSuccessor) : Prop :=
  PlanSuccessor.needs successor ≠ []
  ∧ PlanSuccessor.needs successor ⊆ children
  ∧ (children ⊆ PlanSuccessor.needs successor
     ∨ ∃ reason, PlanSuccessor.reason successor = Some reason ∧ is_blank reason = false)
  ∧ ∀ task, tasks !! PlanSuccessor.task_id successor = Some task →
      waits_or_ended (PlanTask.status task) = true.

Record plan_fits : Prop := {
  fits_made_on : made_on_operation;
  fits_some : children ≠ [];
  fits_once : NoDup children;
  fits_members : ∀ task, task ∈ PlanContext.members ctx ↔ task ∈ children;
  fits_children : ∀ child, child ∈ children → ∃ task, child_fits child task;
  fits_acyclic : ∀ child, ¬ tc child_waits child child;
  (** Every item of the acceptance is mapped once, and no other. *)
  fits_mapped : ∀ ordinal, ordinal ∈ PlanMapping.ordinal <$> ReplacementPlan.mappings plan
    ↔ is_Some (items ctx !! ordinal);
  fits_mapped_once : NoDup (PlanMapping.ordinal <$> ReplacementPlan.mappings plan);
  fits_mappings : ∀ mapping, mapping ∈ ReplacementPlan.mappings plan → mapping_fits mapping;
  fits_holding : ∀ child, child ∈ children → ∃ mapping held,
    mapping ∈ ReplacementPlan.mappings plan ∧ held ∈ PlanMapping.children mapping
    ∧ ChildItem.task_id held = child;
  fits_evidence : ∀ check, check ∈ required_evidence ctx → ∃ child task,
    child ∈ children ∧ tasks !! child = Some task ∧ check ∈ PlanTask.evidence task;
  (** Each part of the saved work goes to one child, in an order of its own. *)
  fits_carry : ∀ source, source ≠ CarrySource.Base → length (takers plan source) ≤ 1;
  fits_ordered : ∀ child, child ∈ ReplacementPlan.children plan → takes_saved child = true →
    is_Some (PlanChild.order child);
  fits_orders : NoDup (omap PlanChild.order (List.filter takes_saved (ReplacementPlan.children plan)));
  fits_successors : ∀ task, task ∈ PlanSuccessor.task_id <$> ReplacementPlan.successors plan
    ↔ task ∈ OriginalConditions.successors conditions;
  fits_listed_once : NoDup (PlanSuccessor.task_id <$> ReplacementPlan.successors plan);
  fits_needs : ∀ successor, successor ∈ ReplacementPlan.successors plan → successor_fits successor;
}.

(** *** The plan as a whole *)
Lemma check_made_on_nil ch : check_made_on plan ctx ch = [] ↔ made_on_operation ∧ ch ≠ [].
Proof.
  unfold check_made_on, made_on_operation. rewrite !app_nil, !report_nil, !orb_false_iff,
    !negb_false_iff, !bool_decide_eq_true, bool_decide_eq_false. tauto.
Qed.

Lemma pending_spec status :
  pending status = true ↔ status = TaskStatus.Draft ∨ status = TaskStatus.Submitted.
Proof. destruct status; simpl; naive_solver. Qed.

Lemma check_child_nil child :
  check_child ctx child = [] ↔
  child ≠ Replan.task_id op ∧ child ∈ PlanContext.members ctx
  ∧ ∃ task, tasks !! child = Some task ∧ PlanTask.goal_id task = Replan.goal_id op
      ∧ (PlanTask.status task = TaskStatus.Draft ∨ PlanTask.status task = TaskStatus.Submitted).
Proof.
  unfold check_child. fold op tasks. rewrite !app_nil, !report_nil, !bool_decide_eq_false.
  destruct (tasks !! child) as [task|]; [|naive_solver].
  rewrite !report_nil, !negb_false_iff, bool_decide_eq_true, pending_spec.
  split; [|naive_solver]. intros (? & Hmem & ? & ?). split_and!; [done|by apply dec_stable|eauto].
Qed.

Lemma check_member_nil ch member : check_member ch member = [] ↔ member ∈ ch.
Proof.
  unfold check_member. rewrite report_nil, bool_decide_eq_false.
  split; [apply dec_stable|auto].
Qed.

(** *** The items *)
Lemma check_held_nil ordinal held :
  check_held ctx (task_set children) ordinal held = [] ↔ held_by_child held.
Proof.
  unfold check_held, child_item_exists, held_by_child. fold tasks.
  rewrite report_nil, negb_false_iff, andb_true_iff, bool_decide_eq_true, elem_of_task_set.
  destruct (tasks !! ChildItem.task_id held) as [task|]; simpl; [|naive_solver].
  rewrite existsb_exists. setoid_rewrite bool_decide_eq_true. setoid_rewrite <-list_elem_of_In.
  naive_solver.
Qed.

Lemma deletion_authorized_spec item mapping :
  deletion_authorized ctx item mapping = true ↔ deleted_by_person item mapping.
Proof.
  unfold deletion_authorized, deleted_by_person, approves_deletion.
  destruct (PlanMapping.authority_ask_id mapping) as [ask|]; simpl; [|naive_solver].
  destruct (PlanContext.authorities ctx !! ask) as [authority|] eqn:Hask; simpl; [|naive_solver].
  rewrite !andb_true_iff, !bool_decide_eq_true. naive_solver.
Qed.

Lemma landing_proven_spec mapping :
  landing_proven ctx mapping = true ↔ landed_elsewhere mapping.
Proof.
  unfold landing_proven, landed_elsewhere. fold op tasks.
  destruct (PlanMapping.landed_task_id mapping) as [landed|]; simpl; [|naive_solver].
  case_bool_decide as Hne; simpl; [|naive_solver].
  destruct (tasks !! landed) as [task|] eqn:Ht; simpl; [|naive_solver].
  rewrite bool_decide_eq_true. naive_solver.
Qed.

Lemma check_disposition_nil item mapping :
  check_disposition ctx item mapping = [] ↔
  (PlanMapping.disposition mapping = ItemDisposition.Deleted → deleted_by_person item mapping)
  ∧ (PlanMapping.disposition mapping = ItemDisposition.Deleted ↔ PlanMapping.children mapping = [])
  ∧ (PlanMapping.disposition mapping = ItemDisposition.Landed → landed_elsewhere mapping).
Proof.
  unfold check_disposition.
  destruct (PlanMapping.disposition mapping); rewrite app_nil, !report_nil;
    rewrite ?negb_false_iff, ?andb_false_iff, ?negb_false_iff, ?deletion_authorized_spec,
      ?landing_proven_spec, ?bool_decide_eq_true, ?bool_decide_eq_false; naive_solver.
Qed.

Lemma check_mapping_nil m item :
  items ctx !! PlanMapping.ordinal m = Some item →
  check_mapping ctx (task_set children) item m = [] ↔ mapping_fits m.
Proof.
  intros Hitem. unfold mapping_fits, check_mapping, check_hash.
  rewrite !app_nil, report_nil, negb_false_iff, bool_decide_eq_true, for_each_nil,
    check_disposition_nil. setoid_rewrite check_held_nil. rewrite Hitem. naive_solver.
Qed.

(** The loop over the mappings reports nothing exactly when each names an
    item not named before and fits; then it saw the ordinals and the tasks
    they name. *)
Lemma map_items_nil l seen holding problems seen' holding' :
  map_items ctx (task_set children) l seen holding = (problems, (seen', holding')) →
  (problems = [] ↔ (∀ m, m ∈ l → mapping_fits m ∧ PlanMapping.ordinal m ∉ seen)
      ∧ NoDup (PlanMapping.ordinal <$> l))
  ∧ (problems = [] → (∀ n, n ∈ seen' ↔ n ∈ seen ∨ n ∈ PlanMapping.ordinal <$> l)
      ∧ ∀ t, t ∈ holding' ↔ t ∈ holding
          ∨ ∃ m held, m ∈ l ∧ held ∈ PlanMapping.children m ∧ ChildItem.task_id held = t).
Proof.
  revert seen holding problems. induction l as [|m l IH]; intros seen holding problems Heq; simpl in Heq.
  { injection Heq as <- <- <-. split; [split; [intros _; split; [set_solver|constructor]|done]|].
    intros _. split; [set_solver|]. set_solver. }
  destruct (items ctx !! PlanMapping.ordinal m) as [item|] eqn:Hitem.
  2:{ destruct (map_items _ _ l seen holding) as [ps found]. injection Heq as <- ->.
      split; [|done]. split; [done|]. intros [Hall _]. destruct (Hall m) as [[(i & Hi & _) _] _];
        [left|congruence]. }
  case_bool_decide as Hseen.
  { destruct (map_items _ _ l seen holding) as [ps found]. injection Heq as <- ->.
    split; [|by intros [_ ?]%app_nil]. split; [by intros [_ ?]%app_nil|].
    intros [Hall _]. destruct (Hall m); [left|done]. }
  destruct (map_items _ _ l _ _) as [ps [sn hd]] eqn:Hrest. injection Heq as <- <- <-.
  destruct (IH _ _ _ Hrest) as [Hnil Hend]. clear IH Hrest.
  rewrite app_nil, (check_mapping_nil m item Hitem), fmap_cons, NoDup_cons. split.
  - rewrite Hnil. setoid_rewrite elem_of_cons. setoid_rewrite elem_of_union.
    setoid_rewrite elem_of_singleton. rewrite list_elem_of_fmap. naive_solver.
  - intros [_ Hps]. destruct (Hend Hps) as [Hs Hh]. split.
    + intros n. rewrite Hs. set_solver.
    + intros t. rewrite Hh. set_solver.
Qed.

Lemma elem_of_item_ordinals ordinal : ordinal ∈ item_ordinals ctx ↔ is_Some (items ctx !! ordinal).
Proof.
  unfold item_ordinals. by rewrite elem_of_sort_by_key, elem_of_elements, elem_of_dom.
Qed.

Lemma check_items_nil :
  check_items plan ctx (task_set children) = [] ↔
  (∀ ordinal, ordinal ∈ PlanMapping.ordinal <$> ReplacementPlan.mappings plan
     ↔ is_Some (items ctx !! ordinal))
  ∧ NoDup (PlanMapping.ordinal <$> ReplacementPlan.mappings plan)
  ∧ (∀ mapping, mapping ∈ ReplacementPlan.mappings plan → mapping_fits mapping)
  ∧ (∀ child, child ∈ children → ∃ mapping held, mapping ∈ ReplacementPlan.mappings plan
       ∧ held ∈ PlanMapping.children mapping ∧ ChildItem.task_id held = child).
Proof.
  unfold check_items. destruct (map_items _ _ _ ∅ ∅) as [ps [seen holding]] eqn:Hmap.
  destruct (map_items_nil _ _ _ _ _ _ Hmap) as [Hnil Hend].
  rewrite !app_nil, !for_each_nil. setoid_rewrite report_nil. setoid_rewrite bool_decide_eq_false.
  setoid_rewrite elem_of_task_set. setoid_rewrite elem_of_item_ordinals. rewrite Hnil. split.
  - intros ([Hall Hnd] & Hseen & Hhold). destruct (Hend (proj2 Hnil (conj Hall Hnd))) as [Hs Hh].
    split_and!; [|done|by intros m Hm; apply Hall|].
    + intros n. split.
      * intros (m & -> & Hm)%list_elem_of_fmap. apply Hall in Hm as [[(i & Hi & _) _] _]. by exists i.
      * intros Hn%Hseen%dec_stable%Hs. set_solver.
    + intros child Hc%Hhold%dec_stable%Hh. destruct Hc as [?|?]; [set_solver|done].
  - intros (Hord & Hnd & Hfit & Hhold).
    assert (∀ m, m ∈ ReplacementPlan.mappings plan → mapping_fits m ∧ PlanMapping.ordinal m ∉ (∅ : gset nat))
      as Hall by (intros m Hm; split; [by apply Hfit|set_solver]).
    destruct (Hend (proj2 Hnil (conj Hall Hnd))) as [Hs Hh].
    split; [by split|]. split; [intros n Hn Hout; apply Hout, Hs; right; by apply Hord|].
    intros child Hc Hout. apply Hout, Hh. right. by apply Hhold.
Qed.

(** *** The checks of the task *)
Lemma check_child_checks_nil child task :
  tasks !! child = Some task →
  check_child_checks ctx child = [] ↔
  OriginalConditions.verify conditions ⊆ PlanTask.verify task
  ∧ PlanTask.verify task ≠ []
  ∧ (OriginalConditions.paths conditions ≠ [] → PlanTask.paths task ≠ []).
Proof.
  intros Ht. unfold check_child_checks. fold tasks conditions. rewrite Ht.
  rewrite !app_nil, for_each_nil, !report_nil. setoid_rewrite report_nil.
  rewrite andb_false_iff, negb_false_iff, bool_decide_eq_true. setoid_rewrite bool_decide_eq_false.
  split.
  - intros (Hv & Hne & Hp). split_and!; [|done|naive_solver].
    intros c Hc. by apply dec_stable, Hv.
  - intros (Hv & Hne & Hp). split_and!; [|done|].
    + intros c Hc Hout. by apply Hout, Hv.
    + destruct (decide (OriginalConditions.paths conditions = [])); [by left|right; auto].
Qed.

Lemma check_evidence_nil check :
  existsb (λ task, bool_decide (check ∈ PlanTask.evidence task))
    (known_children ctx (task_set children)) = true ↔
  ∃ child task, child ∈ children ∧ tasks !! child = Some task ∧ check ∈ PlanTask.evidence task.
Proof.
  rewrite existsb_exists. setoid_rewrite bool_decide_eq_true. setoid_rewrite <-list_elem_of_In.
  unfold known_children. setoid_rewrite list_elem_of_omap. setoid_rewrite elem_of_task_set.
  naive_solver.
Qed.

Lemma check_checks_nil :
  (∀ child, child ∈ children → is_Some (tasks !! child)) →
  check_checks ctx (task_set children) = [] ↔
  (∀ check, check ∈ required_evidence ctx → ∃ child task,
     child ∈ children ∧ tasks !! child = Some task ∧ check ∈ PlanTask.evidence task)
  ∧ ∀ child task, child ∈ children → tasks !! child = Some task →
      OriginalConditions.verify conditions ⊆ PlanTask.verify task
      ∧ PlanTask.verify task ≠ []
      ∧ (OriginalConditions.paths conditions ≠ [] → PlanTask.paths task ≠ []).
Proof.
  intros Hthere. unfold check_checks. rewrite app_nil, !for_each_nil. setoid_rewrite report_nil.
  setoid_rewrite negb_false_iff. setoid_rewrite check_evidence_nil. setoid_rewrite elem_of_task_set.
  apply and_iff_compat_l. split.
  - intros Hall child task Hc Ht. by apply (check_child_checks_nil child task Ht), Hall.
  - intros Hall child Hc. destruct (Hthere child Hc) as [task Ht].
    apply (check_child_checks_nil child task Ht). exact (Hall child task Hc Ht).
Qed.

(** *** The saved work *)
Lemma check_orders_nil l orders :
  check_orders l orders = [] ↔
  (∀ child, child ∈ l → takes_saved child = true → is_Some (PlanChild.order child))
  ∧ NoDup (omap PlanChild.order (List.filter takes_saved l))
  ∧ ∀ order, order ∈ omap PlanChild.order (List.filter takes_saved l) → orders !! order = None.
Proof.
  revert orders. induction l as [|child l IH]; intros orders; simpl.
  { split; [intros _; split_and!; [set_solver|constructor|set_solver]|done]. }
  destruct (takes_saved child) eqn:Hs; simpl.
  2:{ rewrite IH. setoid_rewrite elem_of_cons. naive_solver congruence. }
  destruct (PlanChild.order child) as [order|] eqn:Ho; simpl.
  2:{ split; [done|]. intros [Hall _]. destruct (Hall child) as [? ?]; [left|done|congruence]. }
  rewrite app_nil, IH, NoDup_cons. setoid_rewrite elem_of_cons.
  setoid_rewrite lookup_insert_None. destruct (orders !! order) eqn:Horder; naive_solver.
Qed.

Lemma check_takers_nil source : check_takers plan source = [] ↔ length (takers plan source) ≤ 1.
Proof. unfold check_takers. destruct (takers plan source) as [|? [|??]]; simpl; split; (done || lia). Qed.

Lemma check_named_nil l named :
  check_named l named = [] ↔
  NoDup (PlanChild.task_id <$> l) ∧ ∀ task, task ∈ PlanChild.task_id <$> l → task ∉ named.
Proof.
  revert named. induction l as [|child l IH]; intros named; simpl.
  { split; [split; [constructor|set_solver]|done]. }
  rewrite app_nil, report_nil, bool_decide_eq_false, IH, NoDup_cons. set_solver.
Qed.

Lemma check_carry_nil :
  check_carry plan = [] ↔
  (∀ child, child ∈ ReplacementPlan.children plan → takes_saved child = true →
     is_Some (PlanChild.order child))
  ∧ NoDup (omap PlanChild.order (List.filter takes_saved (ReplacementPlan.children plan)))
  ∧ (∀ source, source ≠ CarrySource.Base → length (takers plan source) ≤ 1)
  ∧ NoDup children.
Proof.
  unfold check_carry. rewrite !app_nil, check_orders_nil, for_each_nil, check_named_nil.
  setoid_rewrite check_takers_nil. split.
  - intros ((Ho & Hnd & _) & Ht & Hn & _). split_and!; [done..| |done].
    intros [] ?; [done| |]; apply Ht; set_solver.
  - intros (Ho & Hnd & Ht & Hn). split; [split; [done|split; [done|by intros order _]]|].
    split; [|split; [done|set_solver]].
    + intros source [->|[->|?%elem_of_nil]%elem_of_cons]%elem_of_cons; [by apply Ht..|done].
Qed.

(** *** The dependencies *)
Lemma has_ended_spec task :
  has_ended ctx task = true ↔ ∃ ended, tasks !! task = Some ended
    ∧ (PlanTask.status ended = TaskStatus.Completed ∨ PlanTask.status ended = TaskStatus.Canceled).
Proof.
  unfold has_ended. fold tasks. destruct (tasks !! task); simpl; [|naive_solver].
  rewrite orb_true_iff, !bool_decide_eq_true. naive_solver.
Qed.

Lemma check_waits_nil child task :
  tasks !! child = Some task →
  check_waits ctx child = [] ↔
  (∀ p, p ∈ OriginalConditions.predecessors conditions →
     p ∈ PlanTask.depends_on task
     ∨ ∃ ended, tasks !! p = Some ended
         ∧ (PlanTask.status ended = TaskStatus.Completed ∨ PlanTask.status ended = TaskStatus.Canceled))
  ∧ ∀ on, on ∈ PlanTask.depends_on task → on ≠ Replan.task_id op ∧ on ∉ PlanContext.downstream ctx.
Proof.
  intros Ht. unfold check_waits. fold tasks conditions op. rewrite Ht, app_nil, !for_each_nil.
  setoid_rewrite report_nil. setoid_rewrite orb_false_iff. setoid_rewrite bool_decide_eq_false.
  apply and_iff_compat_r. setoid_rewrite andb_false_iff. setoid_rewrite negb_false_iff.
  setoid_rewrite has_ended_spec. setoid_rewrite bool_decide_eq_false.
  split; intros Hall p Hp; destruct (Hall p Hp) as [He|Hin]; [by right|left; by apply dec_stable| |by left].
  right. auto.
Qed.

Lemma for_each_test_spec l test problems (P : TaskId → Prop) :
  (∀ x, x ∈ l → ∃ b, test x = Some b ∧ (b = true ↔ P x)) →
  (∀ x b, problems x b = [] ↔ b = false) →
  ∃ ps, for_each_test l test problems = Some ps ∧ (ps = [] ↔ ∀ x, x ∈ l → ¬ P x).
Proof.
  intros Htest Hp. induction l as [|x l IH]; simpl.
  { exists []. split; [done|]. split; [set_solver|done]. }
  destruct IH as (ps & -> & IH); [intros y Hy; apply Htest; by right|].
  destruct (Htest x) as (b & -> & Hb); [left|]. simpl. eexists. split; [done|].
  rewrite app_nil, Hp, IH. setoid_rewrite elem_of_cons. destruct b; naive_solver.
Qed.

Lemma in_loop_spec start :
  start ∈ children →
  ∃ b, in_loop ctx (task_set children) start = Some b ∧ (b = true ↔ tc child_waits start start).
Proof.
  intros Hstart. unfold in_loop.
  destruct (reaches_itself_spec (waits_of ctx) (λ next, bool_decide (next ∈ task_set children))
    (list_to_set (task_set children))) with (start := start) as (b & -> & Hb).
  - intros a Ha _. apply bool_decide_eq_true in Ha. by rewrite elem_of_list_to_set.
  - exists b. split; [done|]. rewrite Hb. apply tc_iff. intros x y. unfold follows, child_waits, waits_of.
    rewrite bool_decide_eq_true, elem_of_task_set. fold tasks.
    destruct (tasks !! x) as [task|]; simpl;
      [|by split; [intros [_ Hy%elem_of_nil]|intros (_ & t & ? & _)]].
    split; [intros [[->|Hx] Hy]; eauto|]. intros (Hx & t & [= <-] & Hy). auto.
Qed.

(** A child that waits for itself is on a loop of children only. *)
Lemma child_loop_is_child child : tc child_waits child child → child ∈ children.
Proof. intros Hl. by inversion Hl as [? ? [? _]|? ? ? [? _]]. Qed.

Lemma check_dependencies_spec :
  ∃ ps, check_dependencies ctx (task_set children) = Some ps
    ∧ (ps = [] ↔ (∀ child, child ∈ children → check_waits ctx child = [])
        ∧ ∀ child, ¬ tc child_waits child child).
Proof.
  unfold check_dependencies.
  destruct (for_each_test_spec (task_set children) (in_loop ctx (task_set children))
    (λ start found, report found PlanProblemCode.DependencyCycle (Some start)
       (format ["child task "; TaskId.display start; " waits for itself through the other children"]))
    (λ start, tc child_waits start start)) as (loops & -> & Hloops).
  - intros x Hx. rewrite elem_of_task_set in Hx. by apply in_loop_spec.
  - intros x b. apply report_nil.
  - simpl. eexists. split; [done|]. rewrite app_nil, for_each_nil, Hloops.
    setoid_rewrite elem_of_task_set. apply and_iff_compat_l.
    split; [intros Hno child Hl|auto]. by apply (Hno child (child_loop_is_child child Hl)).
Qed.

(** *** The successors *)
Lemma task_set_subset_length l l' : l ⊆ l' → (l' ⊆ l ↔ length (task_set l') ≤ length (task_set l)).
Proof.
  intros Hsub. split.
  - intros Hsup. apply submseteq_length, NoDup_submseteq; [apply task_set_nodup|].
    intros x Hx. rewrite elem_of_task_set in Hx |- *. by apply Hsup.
  - intros Hlen. assert (task_set l ≡ₚ task_set l') as Hp.
    { apply submseteq_length_Permutation; [|done]. apply NoDup_submseteq; [apply task_set_nodup|].
      intros x Hx. rewrite elem_of_task_set in Hx |- *. by apply Hsub. }
    intros x Hx. apply elem_of_task_set. rewrite Hp. by apply elem_of_task_set.
Qed.

Lemma check_needs_nil successor :
  check_needs (task_set children) successor = [] ↔
  PlanSuccessor.needs successor ≠ []
  ∧ PlanSuccessor.needs successor ⊆ children
  ∧ (children ⊆ PlanSuccessor.needs successor
     ∨ ∃ reason, PlanSuccessor.reason successor = Some reason ∧ is_blank reason = false).
Proof.
  unfold check_needs. set (needs := PlanSuccessor.needs successor).
  assert (forallb (λ need, bool_decide (need ∈ task_set children)) (task_set needs) = true
          ↔ needs ⊆ children) as Hsub.
  { rewrite forallb_forall. setoid_rewrite <-list_elem_of_In. setoid_rewrite bool_decide_eq_true.
    by setoid_rewrite elem_of_task_set. }
  destruct (bool_decide (task_set needs = [])) eqn:Hnil; simpl.
  { apply bool_decide_eq_true in Hnil. rewrite task_set_nil in Hnil. split; [done|]. by intros [? _]. }
  apply bool_decide_eq_false in Hnil. rewrite task_set_nil in Hnil.
  destruct (forallb _ _); simpl.
  2:{ split; [done|]. intros (_ & Hs & _). by apply Hsub in Hs. }
  assert (needs ⊆ children) as Hs by (by apply Hsub).
  rewrite report_nil, andb_false_iff, Nat.ltb_ge, <-(task_set_subset_length needs children Hs).
  destruct (PlanSuccessor.reason successor); simpl; naive_solver.
Qed.

Lemma check_not_started_nil successor :
  check_not_started ctx successor = [] ↔
  ∀ task, tasks !! successor = Some task → waits_or_ended (PlanTask.status task) = true.
Proof.
  unfold check_not_started. fold tasks. destruct (tasks !! successor); [|naive_solver].
  rewrite report_nil, negb_false_iff. naive_solver.
Qed.

Lemma map_successors_nil l listed problems listed' :
  map_successors ctx (task_set children) l listed = (problems, listed') →
  (problems = [] ↔
     (∀ s, s ∈ l → PlanSuccessor.task_id s ∈ OriginalConditions.successors conditions
        ∧ (PlanSuccessor.task_id s ∉ listed) ∧ successor_fits s)
     ∧ NoDup (PlanSuccessor.task_id <$> l))
  ∧ (problems = [] → ∀ t, t ∈ listed' ↔ t ∈ listed ∨ t ∈ (PlanSuccessor.task_id <$> l)).
Proof.
  revert listed problems. induction l as [|s l IH]; intros listed problems Heq; simpl in Heq.
  { injection Heq as <- <-. split; [split; [intros _; split; [set_solver|constructor]|done]|].
    set_solver. }
  fold conditions in Heq. destruct (bool_decide (_ ∉ _) || bool_decide (_ ∈ _)) eqn:Hrefused.
  { destruct (map_successors _ _ l listed) as [ps found]. injection Heq as <- <-.
    split; [|done]. split; [done|]. intros [Hall _]. destruct (Hall s) as (? & ? & _); [left|].
    apply orb_true_iff in Hrefused as [Hr|Hr]; by apply bool_decide_eq_true in Hr. }
  apply orb_false_iff in Hrefused as [Hin Hnew]. apply bool_decide_eq_false in Hin, Hnew.
  apply dec_stable in Hin. destruct (map_successors _ _ l _) as [ps sn] eqn:Hrest.
  injection Heq as <- <-. destruct (IH _ _ Hrest) as [Hnil Hend]. clear IH Hrest.
  assert (check_needs (task_set children) s = [] ∧ check_not_started ctx (PlanSuccessor.task_id s) = []
          ↔ successor_fits s) as Hone
    by (unfold successor_fits; rewrite check_needs_nil, check_not_started_nil; tauto).
  rewrite !app_nil, (assoc (∧)), Hone, Hnil, fmap_cons, NoDup_cons. split.
  - split.
    + intros (Hs & Hall & Hnd). split_and!; [|intros (s' & Heq & Hs')%list_elem_of_fmap|done].
      * intros s' [->|Hs']%elem_of_cons; [done|]. destruct (Hall s' Hs') as (? & Hn & ?).
        split_and!; [done|set_solver|done].
      * destruct (Hall s' Hs') as (_ & Hn & _). set_solver.
    + intros (Hall & Hns & Hnd). split_and!; [by apply Hall; left| |done].
      intros s' Hs'. destruct (Hall s') as (? & Hn & ?); [by right|]. split_and!; [done| |done].
      apply not_elem_of_union. split; [|done]. intros Heq%elem_of_singleton. apply Hns.
      rewrite <-Heq. by apply list_elem_of_fmap_2.
  - intros [_ Hps] t. rewrite <-Hnil in Hps. rewrite (Hend Hps). set_solver.
Qed.

Lemma check_successors_nil :
  check_successors plan ctx (task_set children) = [] ↔
  (∀ task, task ∈ PlanSuccessor.task_id <$> ReplacementPlan.successors plan
     ↔ task ∈ OriginalConditions.successors conditions)
  ∧ NoDup (PlanSuccessor.task_id <$> ReplacementPlan.successors plan)
  ∧ ∀ successor, successor ∈ ReplacementPlan.successors plan → successor_fits successor.
Proof.
  unfold check_successors. destruct (map_successors _ _ _ ∅) as [ps listed] eqn:Hmap.
  destruct (map_successors_nil _ _ _ _ Hmap) as [Hnil Hend].
  rewrite app_nil, for_each_nil. setoid_rewrite report_nil. setoid_rewrite bool_decide_eq_false.
  setoid_rewrite elem_of_task_set. rewrite Hnil. split.
  - intros ([Hall Hnd] & Hseen). pose proof (Hend (proj2 Hnil (conj Hall Hnd))) as Hl.
    split_and!; [|done|by intros s Hs; apply Hall].
    intros t. split.
    + intros (s & -> & Hs)%list_elem_of_fmap. by apply Hall in Hs as [? _].
    + intros Ht%Hseen%dec_stable%Hl. set_solver.
  - intros (Hsame & Hnd & Hfit).
    assert (∀ s, s ∈ ReplacementPlan.successors plan →
      PlanSuccessor.task_id s ∈ OriginalConditions.successors conditions
      ∧ (PlanSuccessor.task_id s ∉ (∅ : gset TaskId)) ∧ successor_fits s) as Hall.
    { intros s Hs. split_and!; [|set_solver|by apply Hfit]. apply Hsame. by apply list_elem_of_fmap_2. }
    pose proof (Hend (proj2 Hnil (conj Hall Hnd))) as Hl.
    split; [by split|]. intros t Ht Hout. apply Hout, Hl. right. by apply Hsame.
Qed.

(** The children and the members, one by one. *)
Lemma check_children_nil :
  (for_each (task_set children) (check_child ctx) = []
   ∧ for_each (PlanContext.members ctx) (check_member (task_set children)) = []
   ∧ (∀ child task, child ∈ children → tasks !! child = Some task →
        OriginalConditions.verify conditions ⊆ PlanTask.verify task
        ∧ PlanTask.verify task ≠ []
        ∧ (OriginalConditions.paths conditions ≠ [] → PlanTask.paths task ≠ []))
   ∧ (∀ child, child ∈ children → check_waits ctx child = [])) ↔
  (∀ task, task ∈ PlanContext.members ctx ↔ task ∈ children)
  ∧ ∀ child, child ∈ children → ∃ task, child_fits child task.
Proof.
  rewrite !for_each_nil. setoid_rewrite check_child_nil. setoid_rewrite check_member_nil.
  setoid_rewrite elem_of_task_set. split.
  - intros (Hchild & Hmember & Hchecks & Hwaits). split.
    + intros t. split; [apply Hmember|]. intros Ht. by destruct (Hchild t Ht) as (_ & ? & _).
    + intros c Hc. destruct (Hchild c Hc) as (Hne & _ & task & Ht & Hg & Hs). exists task.
      destruct (Hchecks c task Hc Ht) as (Hv & Hnv & Hp).
      destruct (proj1 (check_waits_nil c task Ht) (Hwaits c Hc)) as [Hw Hd]. by split.
  - intros [Hmembers Hfits]. split_and!.
    + intros c Hc. destruct (Hfits c Hc) as (task & [Ht Hne Hg Hs _ _ _ _ _]).
      split_and!; [done|by apply Hmembers|by exists task].
    + intros t. apply Hmembers.
    + intros c task Hc Ht. destruct (Hfits c Hc) as (task' & [Ht' _ _ _ Hv Hn Hp _ _]).
      assert (task' = task) as -> by congruence. by split_and!.
    + intros c Hc. destruct (Hfits c Hc) as (task & [Ht _ _ _ _ _ _ Hw Hd]).
      apply (check_waits_nil c task Ht). by split.
Qed.

Lemma check_plan_total : ∃ problems, check_plan plan ctx = Some problems.
Proof.
  unfold check_plan. fold children. destruct check_dependencies_spec as (deps & -> & _). simpl. by eexists.
Qed.
Lemma check_plan_fits problems : check_plan plan ctx = Some problems → (problems = [] ↔ plan_fits).
Proof.
  unfold check_plan. fold children.
  destruct check_dependencies_spec as (deps & -> & Hdeps). simpl. intros [= <-].
  rewrite !app_nil, check_made_on_nil, task_set_nil, check_items_nil, check_carry_nil, Hdeps,
    check_successors_nil. split.
  - intros ((Hmade & Hsome) & Hchild & Hmember & (Hmap & Hmonce & Hmaps & Hhold) & Hchecks
      & (Hord & Hords & Htake & Honce) & (Hwaits & Hloop) & Hsucc & Hlonce & Hneeds).
    assert (∀ child, child ∈ children → is_Some (tasks !! child)) as Hthere.
    { intros c Hc. rewrite for_each_nil in Hchild. specialize (Hchild c).
      rewrite elem_of_task_set, check_child_nil in Hchild.
      destruct (Hchild Hc) as (_ & _ & task & ? & _). by exists task. }
    apply (check_checks_nil Hthere) in Hchecks as [Hev Hchecks].
    destruct (proj1 check_children_nil (conj Hchild (conj Hmember (conj Hchecks Hwaits)))).
    by split.
  - intros []. destruct (proj2 check_children_nil (conj fits_members0 fits_children0))
      as (Hchild & Hmember & Hchecks & Hwaits).
    split_and!; try done. apply check_checks_nil; [|by split].
    intros c Hc. destruct (fits_children0 c Hc) as [task []]. by exists task.
Qed.

(** C32: the check of a replacement plan ends, and finds no problem exactly
    when the plan is made on the operation's conditions as they still are,
    maps every item of the task's acceptance once - to items of its children,
    or deleted by a person's own answer -, gives every child an item and
    every check of the task, hands each part of the saved work to one child,
    has the children wait as the task did without a loop, and says for every
    successor which children it waits for. *)
Theorem check_plan_exact :
  ∃ problems, check_plan plan ctx = Some problems ∧ (problems = [] ↔ plan_fits).
Proof.
  destruct check_plan_total as (problems & Hproblems). exists problems.
  split; [done|by apply check_plan_fits].
Qed.

End fits.

(** ** A pass judged on what its actions leave *)

(** What an action keeps of a context, and of each of its tasks. *)
Definition task_kept (task task' : PlanTask J) : Prop :=
  PlanTask.depends_on task ⊆ PlanTask.depends_on task'
  ∧ (PlanTask.status task = TaskStatus.Canceled → PlanTask.status task' = TaskStatus.Canceled).

Record context_kept ctx ctx' : Prop := {
  kept_operation : PlanContext.operation ctx' = PlanContext.operation ctx;
  kept_members : PlanContext.members ctx' = PlanContext.members ctx;
  kept_downstream : PlanContext.downstream ctx' = PlanContext.downstream ctx;
  kept_tasks : ∀ t, option_Forall2 task_kept (PlanContext.tasks ctx !! t) (PlanContext.tasks ctx' !! t);
}.

#[local] Instance task_kept_preorder : PreOrder task_kept.
Proof.
  split; [by intros task; split|]. intros a b c [H1 H2] [H3 H4]. split; [by etrans|auto].
Qed.

#[local] Instance context_kept_preorder : PreOrder context_kept.
Proof.
  split.
  - intros ctx. by split.
  - intros a b c [H1 H2 H3 H4] [H5 H6 H7 H8]. split; [congruence..|].
    intros t. specialize (H4 t). specialize (H8 t).
    destruct H4; inversion H8; constructor; by etrans.
Qed.

Lemma alter_kept ctx (f : PlanTask J → PlanTask J) t :
  (∀ task, task_kept task (f task)) →
  context_kept ctx (ctx <| PlanContext.tasks := alter f t (PlanContext.tasks ctx) |>).
Proof.
  intros Hf. split; try done. intros t'. simpl. rewrite lookup_alter.
  destruct (decide (t = t')) as [->|]; destruct (PlanContext.tasks ctx !! t'); by constructor.
Qed.

Lemma after_action_kept action ctx : context_kept ctx (after_action action ctx).
Proof.
  unfold after_action. case_bool_decide; [done|]. destruct action; [|done|]; apply alter_kept.
  - intros task. split; [|done]. intros x Hx. apply push_once_elem. by left.
  - intros task. by split.
Qed.

Lemma after_actions_kept actions ctx : context_kept ctx (after_actions ctx actions).
Proof.
  revert ctx. induction actions as [|action actions IH]; intros ctx; [done|].
  etrans; [apply after_action_kept|apply IH].
Qed.

(** What an action of a task of the proposal leaves of it at the end. *)
Lemma after_actions_done actions action ctx task' :
  let t := PlanReviewAction.task_id action in
  action ∈ actions → t ∈ PlanContext.members ctx →
  PlanContext.tasks (after_actions ctx actions) !! t = Some task' →
  match action with
  | PlanReviewAction.CancelDuplicate _ _ => PlanTask.status task' = TaskStatus.Canceled
  | PlanReviewAction.AddDependency _ on => on ∈ PlanTask.depends_on task'
  | PlanReviewAction.LowerPriority _ _ => True
  end.
Proof.
  intros t (before & after & ->)%list_elem_of_split Hmember.
  unfold after_actions. rewrite foldl_app. simpl. fold (after_actions ctx before).
  set (mid := after_actions ctx before). fold (after_actions (after_action action mid) after).
  pose proof (after_actions_kept before ctx) as [_ Hm _ _].
  pose proof (after_actions_kept after (after_action action mid)) as [_ _ _ Hk]. specialize (Hk t).
  intros Ht. rewrite Ht in Hk. inversion Hk as [task ? [Hd Hs] Hbefore|]; subst. symmetry in Hbefore.
  revert Hbefore. unfold after_action. rewrite bool_decide_false by (unfold mid; rewrite Hm; auto).
  destruct action; simpl; [|done|]; rewrite lookup_alter_eq; intros (old & _ & ->)%fmap_Some.
  - apply Hd, push_once_elem. by right.
  - by apply Hs.
Qed.

(** Plan review judges its own pass on the queue its actions leave: a
    pass it accepts a plan with cancels no task of the proposal, and makes
    none wait for the replaced task, for a task that waits for it, or for a
    child that waits for it, through the children, already. *)
Theorem accepted_pass_keeps_children plan ctx actions :
  let op := PlannedOperation.row (PlanContext.operation ctx) in
  check_plan plan (after_actions ctx actions) = Some [] →
  Forall (λ action, PlanReviewAction.task_id action ∈ PlanContext.members ctx →
    match action with
    | PlanReviewAction.CancelDuplicate _ _ => False
    | PlanReviewAction.AddDependency t on =>
        on ≠ Replan.task_id op ∧ (on ∉ PlanContext.downstream ctx)
        ∧ ¬ rtc (child_waits plan ctx) on t
    | PlanReviewAction.LowerPriority _ _ => True
    end) actions.
Proof.
  intros op Hcheck. destruct (proj1 (check_plan_fits _ _ _ Hcheck) eq_refl) as [].
  pose proof (after_actions_kept actions ctx) as [Hop Hmem Hdown Hkept].
  apply Forall_forall. intros action Hin Hmember. pose proof Hmember as Hchild.
  rewrite <-Hmem in Hchild. apply fits_members0 in Hchild.
  destruct (fits_children0 _ Hchild) as [task' []].
  pose proof (after_actions_done _ _ _ _ Hin Hmember fits_there0) as Hdone.
  destruct action as [t on| |t d]; [|done|by rewrite Hdone in fits_pending0; destruct fits_pending0].
  simpl in *. destruct (fits_downstream0 on Hdone) as [Hne Hdn].
  rewrite Hop in Hne. rewrite Hdown in Hdn. split_and!; [done..|]. intros Hback.
  apply (fits_acyclic0 t). eapply tc_rtc_r.
  - apply tc_once. split; [done|]. by exists task'.
  - revert Hback. apply rtc_congruence with (f := id). intros a b (Ha & task & Ht & Hb).
    split; [done|]. specialize (Hkept a). rewrite Ht in Hkept. inversion Hkept as [? task2 [Hd _] Ht1 Ht2|].
    subst. exists task2. split; [done|by apply Hd].
Qed.

(** ** The items *)

(** An acceptance has its items numbered from 1, none blank. *)
Lemma acceptance_items_ordinals sha256 acceptance :
  AcceptanceItem.ordinal <$> acceptance_items sha256 acceptance
  = seq 1 (length (acceptance_items sha256 acceptance)).
Proof.
  unfold acceptance_items. rewrite length_imap. generalize (List.filter (λ line, negb (is_empty line))
    (trim <$> lines acceptance)) as l. intros l.
  apply list_eq. intros i. rewrite list_lookup_fmap, list_lookup_imap.
  destruct (decide (i < length l)) as [Hi|Hi].
  - rewrite lookup_seq_lt by done. destruct (lookup_lt_is_Some_2 l i Hi) as [x ->]. simpl. f_equal. lia.
  - rewrite lookup_seq_ge by lia. by rewrite (lookup_ge_None_2 l i) by lia.
Qed.

(** The ordinal of what [items] has at an ordinal. *)
Lemma items_ordinal ctx ordinal item :
  items ctx !! ordinal = Some item → AcceptanceItem.ordinal item = ordinal.
Proof.
  unfold items. generalize (OriginalConditions.acceptance
    (PlannedOperation.conditions (PlanContext.operation ctx))) as l.
  intros l. assert (∀ m : gmap nat AcceptanceItem,
    (∀ o i, m !! o = Some i → AcceptanceItem.ordinal i = o) →
    foldl (λ items item, <[AcceptanceItem.ordinal item := item]> items) m l !! ordinal = Some item →
    AcceptanceItem.ordinal item = ordinal) as Hgen; [|by apply Hgen].
  induction l as [|i l IH]; intros m Hm; simpl; [by apply Hm|]. apply IH.
  intros o j. rewrite lookup_insert. case_decide; [naive_solver|apply Hm].
Qed.

(** The words that approve the deletion of two items are the same only for
    the same ordinal and the same start of their hashes. *)
Lemma deletion_token_inj a b :
  deletion_token a = deletion_token b →
  AcceptanceItem.ordinal a = AcceptanceItem.ordinal b
  ∧ take_chars 12 (AcceptanceItem.hash a) = take_chars 12 (AcceptanceItem.hash b).
Proof.
  unfold deletion_token, format. simpl. intros [= Heq].
  apply cut_unique in Heq as [Ho Hh]; [|apply decimal_free_of_colon..].
  apply decimal_inj in Ho. rewrite !append_nil_r in Hh. split; [lia|done].
Qed.

(** In a plan the check passes, one answer of a person deletes one item
    of the acceptance: no two mappings delete by the same ask. *)
Theorem one_answer_one_deletion plan ctx m1 m2 ask :
  check_plan plan ctx = Some [] →
  m1 ∈ ReplacementPlan.mappings plan → m2 ∈ ReplacementPlan.mappings plan →
  PlanMapping.disposition m1 = ItemDisposition.Deleted →
  PlanMapping.disposition m2 = ItemDisposition.Deleted →
  PlanMapping.authority_ask_id m1 = Some ask → PlanMapping.authority_ask_id m2 = Some ask →
  m1 = m2.
Proof.
  intros Hcheck Hm1 Hm2 Hd1 Hd2 Ha1 Ha2.
  destruct (proj1 (check_plan_fits _ _ _ Hcheck) eq_refl) as [].
  assert (∀ m, m ∈ ReplacementPlan.mappings plan →
    PlanMapping.disposition m = ItemDisposition.Deleted → PlanMapping.authority_ask_id m = Some ask →
    ∃ authority item, PlanContext.authorities ctx !! ask = Some authority
      ∧ AcceptanceItem.ordinal item = PlanMapping.ordinal m
      ∧ trim (DeletionAuthority.answer authority) = deletion_token item) as Hanswer.
  { intros m Hm Hd Ha. destruct (fits_mappings0 m Hm) as [(item & Hitem & _ & Hdel) _].
    destruct (Hdel Hd) as (ask' & authority & Hask & Hauth & _ & _ & _ & Htrim & _).
    exists authority, item. split_and!; [congruence|by eapply items_ordinal|done]. }
  destruct (Hanswer m1 Hm1 Hd1 Ha1) as (a1 & i1 & Hl1 & Ho1 & Ht1).
  destruct (Hanswer m2 Hm2 Hd2 Ha2) as (a2 & i2 & Hl2 & Ho2 & Ht2).
  assert (AcceptanceItem.ordinal i1 = AcceptanceItem.ordinal i2) as Hio
    by (apply deletion_token_inj; congruence).
  apply list_elem_of_lookup in Hm1 as [k1 Hk1], Hm2 as [k2 Hk2].
  assert (k1 = k2) as ->; [|congruence].
  apply (NoDup_lookup _ k1 k2 (PlanMapping.ordinal m1) fits_mapped_once0);
    rewrite list_lookup_fmap; [by rewrite Hk1|rewrite Hk2; simpl; congruence].
Qed.
End check.
End ReplanPlan.

(** ** A plan that passes *)
Module PlanSample.

(** JSON with texts and arrays only. *)
#[local] Instance sample_json : JsonValue (gen_tree string) := {|
  as_array v := match v with GenNode 0 l => Some l | _ => None end;
  json_text v := match v with GenLeaf s => s | _ => "[]" end;
|}.
Abbreviation sample_value := (gen_tree string).

Definition task (n : Z) : TaskId := TaskId.new n.

(** The digest stood for by the text itself. *)
Definition sample_items : list AcceptanceItem :=
  acceptance_items id (format ["A1 the API"; String newline " "; String newline "  A2 the docs "]).

Example sample_items_read :
  sample_items = [AcceptanceItem.mk 1 "A1 the API" "A1 the API";
                  AcceptanceItem.mk 2 "A2 the docs" "A2 the docs"].
Proof. vm_compute. reflexivity. Qed.

Definition sample_operation : PlannedOperation sample_value :=
  PlannedOperation.mk
    (Replan.mk_operation (ReplanId.new 4) (task 3) (RunId.wrap "run-1") (Some (GoalId.new 2))
       ReplanOrigin.Manual ReplanStatus.Planning None 2 None "too big" "v1" (Some 1%Z)
       Replan.no_diagnosis (Some "snap") (Some (RequestId.new 6)) (Some (ProposalId.new 7)) 0 0 None)
    (OriginalConditions.mk "big" "d" sample_items ["src/**"] ["cargo test"]
       (GenNode 0 [GenLeaf "ux"]) [task 5] [task 20] None).

Definition sample_child (carry : CarrySource) (order : option N) (n : Z) : PlanChild :=
  PlanChild.mk (task n) carry order.

Definition sample_task (items : list AcceptanceItem) (evidence : list sample_value)
    (depends_on : list TaskId) : PlanTask sample_value :=
  PlanTask.mk TaskStatus.Draft (Some (GoalId.new 2)) items ["cargo test"] ["src/a/**"] evidence
    depends_on.

(** The docs are deleted by a person's answer, or not deleted at all. *)
Definition sample_plan (docs : PlanMapping) : ReplacementPlan :=
  ReplacementPlan.mk (ReplanId.new 4) "v1" (Some 1%Z) PlanChoice.Split "two units"
    [sample_child CarrySource.SnapshotHead (Some 1%N) 10; sample_child CarrySource.Base None 11]
    [PlanMapping.mk 1 "A1 the API" ItemDisposition.Split
       [ChildItem.mk (task 10) 1; ChildItem.mk (task 11) 1] None None None; docs]
    [PlanSuccessor.mk (task 20) [task 11] (Some "it only calls the second")].

Definition docs_deleted : PlanMapping :=
  PlanMapping.mk 2 "A2 the docs" ItemDisposition.Deleted [] None (Some (AskId.new 8)) None.
Definition docs_dropped : PlanMapping :=
  PlanMapping.mk 2 "A2 the docs" ItemDisposition.Deleted [] None None None.

Definition sample_context : PlanContext sample_value :=
  PlanContext.mk sample_operation "v1" (Some 1%Z) [task 10; task 11]
    {[ task 10 := sample_task [AcceptanceItem.mk 1 "a" "a"] [GenLeaf "ux"] [task 5];
       task 11 := sample_task [AcceptanceItem.mk 1 "b" "b"] [] [task 5; task 10];
       task 20 := sample_task [] [] [task 3] ]}
    {[ task 20 ]}
    {[ AskId.new 8 := DeletionAuthority.mk true true true " delete:2:A2 the docs "
         ["delete:2:A2 the docs"; "keep"] ]}.

Example sample_passes :
  ReplanPlan.check_plan (sample_plan docs_deleted) sample_context = Some [].
Proof. vm_compute. reflexivity. Qed.

Example sample_dropped :
  option_map (map PlanProblem.code)
    (ReplanPlan.check_plan (sample_plan docs_dropped) sample_context)
  = Some [PlanProblemCode.DeletionUnauthorized].
Proof. vm_compute. reflexivity. Qed.

(** A pass that makes the first child wait for the second closes a loop; one
    that cancels the second leaves the plan a child it cannot start. *)
Definition codes_after (actions : list PlanReviewAction) : option (list PlanProblemCode) :=
  option_map (map PlanProblem.code)
    (ReplanPlan.check_plan (sample_plan docs_deleted)
       (ReplanPlan.after_actions sample_context actions)).

Example sample_pass_loops :
  codes_after [PlanReviewAction.AddDependency (task 10) (task 11)]
  = Some [PlanProblemCode.DependencyCycle; PlanProblemCode.DependencyCycle].
Proof. vm_compute. reflexivity. Qed.

Example sample_pass_cancels :
  codes_after [PlanReviewAction.CancelDuplicate (task 11) (task 30)]
  = Some [PlanProblemCode.ChildNotPending].
Proof. vm_compute. reflexivity. Qed.

Definition sample_actions : list PlanReviewAction :=
  [PlanReviewAction.AddDependency (task 11) (task 6);
   PlanReviewAction.LowerPriority (task 10) Priority.Low;
   PlanReviewAction.CancelDuplicate (task 30) (task 31)].

Lemma accepted_pass_witness :
  ReplanPlan.check_plan (sample_plan docs_deleted)
    (ReplanPlan.after_actions sample_context sample_actions) = Some []
  ∧ Forall (λ action, PlanReviewAction.task_id action ∈ PlanContext.members sample_context →
      match action with
      | PlanReviewAction.CancelDuplicate _ _ => False
      | PlanReviewAction.AddDependency t on =>
          on ≠ task 3 ∧ (on ∉ PlanContext.downstream sample_context)
          ∧ ¬ rtc (ReplanPlan.child_waits (sample_plan docs_deleted) sample_context) on t
      | PlanReviewAction.LowerPriority _ _ => True
      end) sample_actions.
Proof.
  split; [vm_compute; reflexivity|].
  apply (ReplanPlan.accepted_pass_keeps_children (sample_plan docs_deleted) sample_context
    sample_actions). vm_compute. reflexivity.
Defined.

Lemma one_answer_witness :
  docs_deleted ∈ ReplacementPlan.mappings (sample_plan docs_deleted) ∧ docs_deleted = docs_deleted.
Proof.
  assert (docs_deleted ∈ ReplacementPlan.mappings (sample_plan docs_deleted)) as Hin
    by (right; left).
  split; [exact Hin|].
  apply (ReplanPlan.one_answer_one_deletion (sample_plan docs_deleted) sample_context
    docs_deleted docs_deleted (AskId.new 8)); [vm_compute; reflexivity|exact Hin|exact Hin|done..].
Defined.

Lemma check_plan_witness :
  ReplanPlan.plan_fits (sample_plan docs_deleted) sample_context.
Proof.
  destruct (ReplanPlan.check_plan_exact (sample_plan docs_deleted) sample_context)
    as (ps & Heq & Hfit).
  apply Hfit. rewrite sample_passes in Heq. by injection Heq as <-.
Defined.
End PlanSample.
