(* ===== verification/ReplanApply.v ===== *)
(** * The apply of a replacement plan

    What the trusted runtime checks again right before it applies a plan, in
    the apply's own transaction ([apply_problems] of
    [src/src/domain/replan_apply.rs]), what a refusal calls for, and the edges
    the apply gives the tasks that waited for the replaced one
    ([successor_edges]), whose loops are in Replacements. *)
From S2P Require Import Prelude Text Vocab Ids Errors Tasks Replans ReplanPlans Replacements.

Module PlanRevision.
Record t : Set := mk {
  revision : Z;
  proposal_id : ProposalId;
  plan : ReplacementPlan;
  hash : string;
  approved_at : option Z;
}.
End PlanRevision.
Abbreviation PlanRevision := PlanRevision.t.

Module ApplyRecovery.
Inductive t : Set := Retry | Replan | Person.
#[global] Instance eq_dec : EqDecision t.
Proof. solve_decision. Defined.
(** The derived [Ord]: the order of the variants. *)
Definition rank (self : t) : nat :=
  match self with Retry => 0 | Replan => 1 | Person => 2 end.
Definition max (a b : t) : t := if rank a <=? rank b then b else a.
End ApplyRecovery.
Abbreviation ApplyRecovery := ApplyRecovery.t.

Module ApplyProblem.
Record t : Set := new { recovery : ApplyRecovery; reason : string }.
End ApplyProblem.
Abbreviation ApplyProblem := ApplyProblem.t.

Module ApplyState.
Record t : Set := mk {
  operation : Replan.Operation;
  generation : Z;
  plan : option PlanRevision;
  proposal : option ProposalStatus;
  task : TaskStatus;
  run : RunStatus;
  run_leased : bool;
  children : gmap TaskId TaskStatus;
  child_versions : gmap TaskId string;
  approved_children : option (gmap TaskId string);
  successors : gmap TaskId TaskStatus;
  plan_problems : list PlanProblem;
}.
#[global] Instance updatable : Updatable t :=
  λ s, mk (operation s) (generation s) (plan s) (proposal s) (task s) (run s) (run_leased s)
    (children s) (child_versions s) (approved_children s) (successors s) (plan_problems s).
End ApplyState.
Abbreviation ApplyState := ApplyState.t.

Module ReplanApply.

(** ** The edges of an apply *)
Definition needs_of (plan : ReplacementPlan) (successor : TaskId) : list TaskId :=
  match List.find (λ listed, bool_decide (PlanSuccessor.task_id listed = successor))
          (ReplacementPlan.successors plan) with
  | None => ReplacementPlan.child_ids plan
  | Some listed => PlanSuccessor.needs listed
  end.

Definition successor_edges (plan : ReplacementPlan) (successors : list TaskId) :
    list (TaskId * list TaskId) :=
  (λ successor, (successor, needs_of plan successor)) <$> successors.

(** ** What refuses an apply *)
Definition recovery_of (problems : list ApplyProblem) : option ApplyRecovery :=
  foldl (λ found problem, Some (match found with
    | None => ApplyProblem.recovery problem
    | Some recovery => ApplyRecovery.max recovery (ApplyProblem.recovery problem)
    end)) None problems.

(** [if condition { push(recovery, reason) }], and the loop over a
    [BTreeMap] of tasks, in their order. *)
Definition refuse (condition : bool) (recovery : ApplyRecovery) (reason : string) :
    list ApplyProblem :=
  if condition then [ApplyProblem.new recovery reason] else [].

Definition for_tasks {A} (m : gmap TaskId A) (f : TaskId → A → list ApplyProblem) :
    list ApplyProblem :=
  concat ((λ entry, f entry.1 entry.2) <$>
    sort_by_key (λ entry, [TaskId.as_i64 entry.1]) (map_to_list m)).

Section problems.
  Context (state : ApplyState).
Let op : Replan.Operation := ApplyState.operation state.

Definition waiting : bool :=
  match Replan.status op with
  | ReplanStatus.Reviewing | ReplanStatus.Applying => true
  | status =>
      bool_decide (status = ReplanStatus.Blocked)
      && bool_decide (Replan.return_phase op = Some ReplanStatus.Applying)
  end.

Definition operation_problems : list ApplyProblem :=
  refuse (negb (bool_decide (Replan.generation op = ApplyState.generation state)))
    ApplyRecovery.Retry
    (format ["replan operation "; ReplanId.display (Replan.id op); " is at generation ";
       decimal (Replan.generation op); ", read at "; decimal (ApplyState.generation state)])
  ++ refuse (negb waiting) ApplyRecovery.Retry
    (format ["replan operation "; ReplanId.display (Replan.id op); " is "; as_str (Replan.status op);
       ", not waiting for its apply"]).

Definition debug_proposal (proposal : ProposalId) : string :=
  debug_tuple "ProposalId" (ProposalId.as_i64 proposal).

Definition approval_problems : list ApplyProblem :=
  match ApplyState.plan state with
  | None =>
      refuse true ApplyRecovery.Replan
        (format ["replan operation "; ReplanId.display (Replan.id op); " has no plan"])
  | Some plan =>
      refuse (is_none (PlanRevision.approved_at plan)) ApplyRecovery.Replan
        (format ["plan revision "; decimal (PlanRevision.revision plan); " of replan operation ";
           ReplanId.display (Replan.id op); " was not approved by plan review"])
      ++ refuse (negb (bool_decide (Replan.proposal_id op = Some (PlanRevision.proposal_id plan))))
        ApplyRecovery.Replan
        (format ["plan revision "; decimal (PlanRevision.revision plan); " goes with proposal ";
           ProposalId.display (PlanRevision.proposal_id plan); ", the operation names ";
           debug_option debug_proposal (Replan.proposal_id op)])
      ++ refuse (negb (bool_decide (ApplyState.proposal state = Some ProposalStatus.Accepted)))
        ApplyRecovery.Replan
        (format ["proposal "; ProposalId.display (PlanRevision.proposal_id plan); " is ";
           match ApplyState.proposal state with None => "missing" | Some status => as_str status end;
           ", not accepted"])
  end.

Definition check_problems : list ApplyProblem :=
  concat ((λ problem, refuse true ApplyRecovery.Replan
             (format [as_str (PlanProblem.code problem); ": "; PlanProblem.reason problem])) <$>
    List.filter (λ problem,
        negb (bool_decide (PlanProblem.code problem = PlanProblemCode.NotWithPlanner)))
      (ApplyState.plan_problems state)).

Definition rest_problems : list ApplyProblem :=
  refuse (negb (bool_decide (ApplyState.task state = TaskStatus.InProgress))) ApplyRecovery.Retry
    (format ["task "; TaskId.display (Replan.task_id op); " is "; as_str (ApplyState.task state);
       ", not in progress"])
  ++ refuse
    (negb (bool_decide (ApplyState.run state = RunStatus.NeedsSession)) || ApplyState.run_leased state)
    ApplyRecovery.Retry
    (format ["run "; RunId.as_str (Replan.run_id op); " is "; as_str (ApplyState.run state);
       if ApplyState.run_leased state then " and leased" else EmptyString; ", not parked at rest"]).

Definition child_problems : list ApplyProblem :=
  for_tasks (ApplyState.children state) (λ child status,
    refuse (negb (bool_decide (status = TaskStatus.Submitted))) ApplyRecovery.Replan
      (format ["child task "; TaskId.display child; " is "; as_str status; ", not submitted"])).

Definition version_problems : list ApplyProblem :=
  if is_some_and (ApplyState.plan state) (λ plan, is_some (PlanRevision.approved_at plan)) then
    match ApplyState.approved_children state with
    | None =>
        refuse true ApplyRecovery.Replan
          "plan review's approval recorded no version of the children"
    | Some approved =>
        for_tasks (ApplyState.child_versions state) (λ child now,
          refuse (negb (bool_decide (approved !! child = Some now))) ApplyRecovery.Replan
            (format ["child task "; TaskId.display child;
               " changed since plan review approved the plan (its conditions were at version ";
               unwrap_or (approved !! child) "(none)"; ", they are at "; now; ")"]))
    end
  else [].

Definition not_started (status : TaskStatus) : bool :=
  match status with
  | TaskStatus.Draft | TaskStatus.Submitted | TaskStatus.Ready => true
  | _ => false
  end.

Definition successor_problems : list ApplyProblem :=
  for_tasks (ApplyState.successors state) (λ successor status,
    refuse (negb (not_started status)) ApplyRecovery.Replan
      (format ["task "; TaskId.display successor; " waits for task ";
         TaskId.display (Replan.task_id op); " and is "; as_str status; " already"])).

Definition apply_problems : list ApplyProblem :=
  operation_problems ++ approval_problems ++ check_problems ++ rest_problems
  ++ child_problems ++ version_problems ++ successor_problems.
End problems.

(** ** What an apply needs *)

Section needs.
  Context (state : ApplyState).
Let op : Replan.Operation := ApplyState.operation state.

(** What may still change while the runtime waits: the operation is the one
    it read, waits for its apply, and its task and run are parked at rest. *)
Record at_rest : Prop := {
  rest_generation : Replan.generation op = ApplyState.generation state;
  rest_waiting : Replan.status op = ReplanStatus.Reviewing ∨ Replan.status op = ReplanStatus.Applying
    ∨ Replan.status op = ReplanStatus.Blocked ∧ Replan.return_phase op = Some ReplanStatus.Applying;
  rest_task : ApplyState.task state = TaskStatus.InProgress;
  rest_run : ApplyState.run state = RunStatus.NeedsSession;
  rest_unleased : ApplyState.run_leased state = false;
}.

(** The approval of the latest plan still holds: of this plan, its proposal
    accepted, nothing found by its check, no child started or changed since,
    no task that waits for the replaced one started. *)
Record approval_stands (plan : PlanRevision) (approved : gmap TaskId string) : Prop := {
  stands_plan : ApplyState.plan state = Some plan;
  stands_approved : is_Some (PlanRevision.approved_at plan);
  stands_proposal : Replan.proposal_id op = Some (PlanRevision.proposal_id plan);
  stands_accepted : ApplyState.proposal state = Some ProposalStatus.Accepted;
  stands_checked : ∀ problem, problem ∈ ApplyState.plan_problems state →
    PlanProblem.code problem = PlanProblemCode.NotWithPlanner;
  stands_children : ∀ child status, ApplyState.children state !! child = Some status →
    status = TaskStatus.Submitted;
  stands_recorded : ApplyState.approved_children state = Some approved;
  stands_unchanged : ApplyState.child_versions state ⊆ approved;
  stands_successors : ∀ successor status, ApplyState.successors state !! successor = Some status →
    status = TaskStatus.Draft ∨ status = TaskStatus.Submitted ∨ status = TaskStatus.Ready;
}.

Lemma refuse_nil condition recovery reason :
  refuse condition recovery reason = [] ↔ condition = false.
Proof. by destruct condition. Qed.

Lemma for_tasks_nil {A} (m : gmap TaskId A) f :
  for_tasks m f = [] ↔ ∀ k x, m !! k = Some x → f k x = [].
Proof.
  unfold for_tasks. rewrite concat_nil_Forall, Forall_fmap, Forall_forall. simpl.
  setoid_rewrite elem_of_sort_by_key. split.
  - intros Hall k x Hk. by apply (Hall (k, x)), elem_of_map_to_list.
  - intros Hall [k x] Hk%elem_of_map_to_list. by apply Hall.
Qed.

Lemma waiting_spec :
  waiting state = true ↔
  Replan.status op = ReplanStatus.Reviewing ∨ Replan.status op = ReplanStatus.Applying
  ∨ Replan.status op = ReplanStatus.Blocked ∧ Replan.return_phase op = Some ReplanStatus.Applying.
Proof.
  unfold waiting. fold op. destruct (Replan.status op); rewrite ?andb_true_iff, ?bool_decide_eq_true;
    naive_solver.
Qed.

Lemma retry_nil : operation_problems state ++ rest_problems state = [] ↔ at_rest.
Proof.
  unfold operation_problems, rest_problems. rewrite !app_nil, !refuse_nil, orb_false_iff,
    !negb_false_iff, !bool_decide_eq_true, waiting_spec. fold op. split.
  - intros ((? & ?) & ? & ? & ?). by split.
  - intros []. by split_and!.
Qed.

Lemma not_started_spec status :
  not_started status = true ↔
  status = TaskStatus.Draft ∨ status = TaskStatus.Submitted ∨ status = TaskStatus.Ready.
Proof. destruct status; simpl; naive_solver. Qed.

Lemma check_problems_nil :
  check_problems state = [] ↔
  ∀ problem, problem ∈ ApplyState.plan_problems state →
    PlanProblem.code problem = PlanProblemCode.NotWithPlanner.
Proof.
  unfold check_problems. induction (ApplyState.plan_problems state) as [|p l IH]; simpl.
  { split; [intros _; set_solver|done]. }
  case_bool_decide as Hp; simpl.
  - rewrite IH. set_solver.
  - split; [done|]. intros Hall. destruct Hp. apply Hall. left.
Qed.

Definition replan_problems : list ApplyProblem :=
  approval_problems state ++ check_problems state ++ child_problems state
  ++ version_problems state ++ successor_problems state.

Lemma replan_nil : replan_problems = [] ↔ ∃ plan approved, approval_stands plan approved.
Proof.
  unfold replan_problems, approval_problems, child_problems, version_problems, successor_problems.
  rewrite !app_nil, check_problems_nil, !for_tasks_nil. setoid_rewrite refuse_nil.
  setoid_rewrite negb_false_iff. setoid_rewrite bool_decide_eq_true. setoid_rewrite not_started_spec.
  destruct (ApplyState.plan state) as [plan|] eqn:Hplan; simpl.
  2:{ split; [by intros [? _]|]. intros (p & a & []). congruence. }
  rewrite !app_nil, !refuse_nil, !negb_false_iff, !bool_decide_eq_true. fold op.
  destruct (PlanRevision.approved_at plan) as [at_|] eqn:Happ; simpl.
  2:{ split; [by intros ((? & _) & _)|]. intros (p & a & []).
      assert (p = plan) as -> by congruence. rewrite Happ in stands_approved0.
      by destruct stands_approved0. }
  destruct (ApplyState.approved_children state) as [approved|] eqn:Hchildren.
  2:{ split; [by intros (_ & _ & _ & ? & _)|]. intros (p & a & []). congruence. }
  rewrite for_tasks_nil. setoid_rewrite refuse_nil. setoid_rewrite negb_false_iff.
  setoid_rewrite bool_decide_eq_true. split.
  - intros ((_ & Hprop & Hacc) & Hcheck & Hsub & Hver & Hsucc). exists plan, approved.
    split; try done. by apply map_subseteq_spec.
  - intros (p & a & []). assert (p = plan) as -> by congruence.
    assert (a = approved) as -> by congruence.
    split_and!; try done. by apply map_subseteq_spec.
Qed.
End needs.

(** *** What a refusal calls for *)
Lemma max_spec (a b : ApplyRecovery) :
  (ApplyRecovery.max a b = a ∨ ApplyRecovery.max a b = b)
  ∧ ApplyRecovery.rank a ≤ ApplyRecovery.rank (ApplyRecovery.max a b)
  ∧ ApplyRecovery.rank b ≤ ApplyRecovery.rank (ApplyRecovery.max a b).
Proof. destruct a, b; simpl; split_and!; first [by left|by right|lia]. Qed.

(** The recovery of a refusal is the highest of its problems'. *)
Lemma recovery_of_spec problems :
  match recovery_of problems with
  | None => problems = []
  | Some r => (∃ p, p ∈ problems ∧ ApplyProblem.recovery p = r)
      ∧ ∀ p, p ∈ problems → ApplyRecovery.rank (ApplyProblem.recovery p) ≤ ApplyRecovery.rank r
  end.
Proof.
  unfold recovery_of. induction problems as [|p l IH] using rev_ind; [done|].
  rewrite foldl_app. simpl. destruct (foldl _ None l) as [r|].
  - destruct IH as [(q & Hq & Hr) Hall].
    destruct (max_spec r (ApplyProblem.recovery p)) as ([->| ->] & Hl & Hu).
    + split; [exists q; set_solver|]. intros x [Hx| ->%list_elem_of_singleton]%elem_of_app; [by apply Hall|].
      destruct (max_spec r (ApplyProblem.recovery p)) as ([Hm|Hm] & ? & ?); rewrite Hm in *; lia.
    + split; [exists p; set_solver|]. intros x [Hx| ->%list_elem_of_singleton]%elem_of_app; [|done].
      destruct (max_spec r (ApplyProblem.recovery p)) as ([Hm|Hm] & ? & ?); specialize (Hall x Hx); rewrite Hm in *; lia.
  - subst l. split; [exists p; set_solver|]. intros x ->%list_elem_of_singleton. lia.
Qed.

Definition all_call_for (r : ApplyRecovery) (problems : list ApplyProblem) : Prop :=
  ∀ p, p ∈ problems → ApplyProblem.recovery p = r.

Lemma refuse_calls condition r reason : all_call_for r (refuse condition r reason).
Proof. intros p. unfold refuse. destruct condition; set_solver. Qed.

Lemma app_calls r l l' : all_call_for r l → all_call_for r l' → all_call_for r (l ++ l').
Proof. unfold all_call_for. set_solver. Qed.

Lemma concat_calls r ls : (∀ l, l ∈ ls → all_call_for r l) → all_call_for r (concat ls).
Proof.
  intros Hall. induction ls as [|l ls IH]; simpl; [by intros p ?%elem_of_nil|].
  apply app_calls; [apply Hall; left|]. apply IH. intros l' Hl'. apply Hall. by right.
Qed.

Lemma for_tasks_calls {A} r (m : gmap TaskId A) f :
  (∀ k x, all_call_for r (f k x)) → all_call_for r (for_tasks m f).
Proof. intros Hf. apply concat_calls. intros l (e & -> & _)%list_elem_of_fmap. apply Hf. Qed.

Create HintDb calls discriminated.
#[local] Hint Resolve refuse_calls app_calls for_tasks_calls : calls.

Lemma retry_calls state :
  all_call_for ApplyRecovery.Retry (operation_problems state ++ rest_problems state).
Proof. unfold operation_problems, rest_problems. auto 6 with calls. Qed.

Lemma replan_calls state : all_call_for ApplyRecovery.Replan (replan_problems state).
Proof.
  assert (all_call_for ApplyRecovery.Replan []) as Hnil by by intros p ?%elem_of_nil.
  unfold replan_problems. repeat apply app_calls.
  - unfold approval_problems. destruct (ApplyState.plan state); auto 6 with calls.
  - apply concat_calls. intros l (p & -> & _)%list_elem_of_fmap. apply refuse_calls.
  - apply for_tasks_calls. auto with calls.
  - unfold version_problems. destruct (is_some_and _ _); [|done].
    destruct (ApplyState.approved_children state); auto with calls.
  - apply for_tasks_calls. auto with calls.
Qed.

Lemma apply_problems_parts state :
  apply_problems state ≡ₚ (operation_problems state ++ rest_problems state) ++ replan_problems state.
Proof. unfold apply_problems, replan_problems. solve_Permutation. Qed.

(** An apply goes exactly when the approval of the latest plan still
    holds and the operation, its task and its run are at rest; a refusal
    calls for a new plan exactly when the approval no longer holds, and else
    only for another check: the problems of this check never call for a
    person. *)
Theorem apply_recovery_exact state :
  let stands := ∃ plan approved, approval_stands state plan approved in
  match recovery_of (apply_problems state) with
  | None => stands ∧ at_rest state
  | Some ApplyRecovery.Retry => stands ∧ ¬ at_rest state
  | Some ApplyRecovery.Replan => ¬ stands
  | Some ApplyRecovery.Person => False
  end.
Proof.
  intros stands. pose proof (recovery_of_spec (apply_problems state)) as Hspec.
  pose proof (retry_calls state) as Hretry. pose proof (replan_calls state) as Hreplan.
  assert (stands ↔ replan_problems state = []) as Hstands by (symmetry; apply replan_nil).
  destruct (recovery_of (apply_problems state)) as [r|].
  2:{ rewrite Hstands, <-retry_nil. pose proof (apply_problems_parts state) as Hp. rewrite Hspec in Hp.
      symmetry in Hp. by apply Permutation_nil_r, app_nil in Hp as [? ?]. }
  destruct Hspec as [(p & Hp & <-) Hmax]. assert (∀ q, q ∈ replan_problems state → ApplyRecovery.rank (ApplyProblem.recovery q)
    ≤ ApplyRecovery.rank (ApplyProblem.recovery p)) as Hother
    by (intros q Hq; apply Hmax; rewrite apply_problems_parts; apply elem_of_app; by right).
  rewrite apply_problems_parts, elem_of_app in Hp.
  destruct Hp as [Hp|Hp].
  - rewrite (Hretry p Hp) in *. rewrite Hstands, <-retry_nil. split; [|intros Hnil; rewrite Hnil in Hp; by apply elem_of_nil in Hp].
    destruct (replan_problems state) as [|q l] eqn:Hq; [done|]. exfalso.
    assert (ApplyProblem.recovery q = ApplyRecovery.Replan) as Hr by (apply Hreplan; left).
    specialize (Hother q). rewrite Hr in Hother. simpl in Hother.
    assert (1 ≤ 0) by (apply Hother; left). lia.
  - rewrite (Hreplan p Hp), Hstands. intros Hnil. rewrite Hnil in Hp. by apply elem_of_nil in Hp.
Qed.

(** ** The edges an apply gives *)

(** An apply of a plan its check passes re-points every task that waits
    for the replaced one, in order, to one or more children of the plan: to
    all of them when the plan does not list it, and to those the plan names
    when it does. *)
Theorem successors_repointed {J} `{JsonValue J} plan (ctx : PlanContext J) successors :
  ReplanPlan.check_plan plan ctx = Some [] →
  (successor_edges plan successors).*1 = successors
  ∧ Forall (λ edge, edge.2 ≠ [] ∧ edge.2 ⊆ ReplacementPlan.child_ids plan
      ∧ (edge.1 ∉ OriginalConditions.successors
           (PlannedOperation.conditions (PlanContext.operation ctx)) →
         edge.2 = ReplacementPlan.child_ids plan)
      ∧ ∀ listed, listed ∈ ReplacementPlan.successors plan →
          PlanSuccessor.task_id listed = edge.1 → edge.2 = PlanSuccessor.needs listed)
    (successor_edges plan successors).
Proof.
  intros Hcheck. split.
  { unfold successor_edges. rewrite <-list_fmap_compose. apply list_fmap_id. }
  pose proof (proj1 (ReplanPlan.check_plan_fits _ _ _ Hcheck) eq_refl) as Hfits.
  unfold successor_edges. apply Forall_fmap, Forall_forall. intros s Hs. simpl. unfold needs_of.
  destruct (List.find _ _) as [listed|] eqn:Hfind.
  - apply List.find_some in Hfind as [Hin Hid]. apply list_elem_of_In in Hin.
    apply bool_decide_eq_true in Hid. destruct (ReplanPlan.fits_needs _ _ Hfits listed Hin) as (Hne & Hsub & _).
    split_and!; [done|done| |].
    + intros Hout. destruct Hout. apply (ReplanPlan.fits_successors _ _ Hfits). rewrite <-Hid.
      by apply list_elem_of_fmap_2.
    + intros other Hother Hoid. f_equal. apply list_elem_of_lookup in Hin as [i Hi], Hother as [j Hj].
      assert (i = j) as ->; [|congruence].
      apply (NoDup_lookup _ i j s (ReplanPlan.fits_listed_once _ _ Hfits)); rewrite list_lookup_fmap, ?Hi, ?Hj; simpl; congruence.
  - split_and!; [by apply (ReplanPlan.fits_some _ _ Hfits)|done|done|]. intros listed Hin Hid. exfalso.
    apply list_elem_of_In in Hin. pose proof (List.find_none _ _ Hfind listed Hin) as Hno.
    by apply bool_decide_eq_false in Hno.
Qed.
End ReplanApply.

(** ** An apply *)
Module ApplySample.
Import PlanSample.
#[local] Existing Instance PlanSample.sample_json.

Definition sample_revision : PlanRevision :=
  PlanRevision.mk 1 (ProposalId.new 7) (sample_plan docs_deleted) "h" (Some 5%Z).

Definition sample_state : ApplyState :=
  let op := PlannedOperation.row sample_operation in
  ApplyState.mk (op <| Replan.status := ReplanStatus.Reviewing |>) 2 (Some sample_revision)
    (Some ProposalStatus.Accepted) TaskStatus.InProgress RunStatus.NeedsSession false
    {[ task 10 := TaskStatus.Submitted; task 11 := TaskStatus.Submitted ]}
    {[ task 10 := "c1"; task 11 := "c2" ]} (Some {[ task 10 := "c1"; task 11 := "c2" ]})
    {[ task 20 := TaskStatus.Ready ]} [].

Example sample_applies :
  let recovery state := ReplanApply.recovery_of (ReplanApply.apply_problems state) in
  recovery sample_state = None
  ∧ recovery (sample_state <| ApplyState.run_leased := true |>) = Some ApplyRecovery.Retry
  ∧ recovery (sample_state <| ApplyState.run_leased := true |>
      <| ApplyState.child_versions := {[ task 10 := "c3" ]} |>) = Some ApplyRecovery.Replan.
Proof. vm_compute. split_and!; reflexivity. Qed.

Lemma apply_recovery_witness :
  (∃ plan approved, ReplanApply.approval_stands sample_state plan approved)
  ∧ ReplanApply.at_rest sample_state.
Proof. exact (ReplanApply.apply_recovery_exact sample_state). Defined.

Lemma successors_repointed_witness :
  (ReplanApply.successor_edges (sample_plan docs_deleted) [task 20; task 21]).*1
  = [task 20; task 21].
Proof.
  apply (ReplanApply.successors_repointed (sample_plan docs_deleted) sample_context).
  vm_compute. reflexivity.
Defined.

Example sample_edges :
  ReplanApply.successor_edges (sample_plan docs_deleted) [task 20; task 21]
  = [(task 20, [task 11]); (task 21, [task 10; task 11])].
Proof. vm_compute. reflexivity. Qed.
End ApplySample.
