(* ===== verification/EventKinds.v ===== *)
(** * Kinds of events

    [src/src/domain/event_kind.rs]: the kinds of the events a queue records,
    their texts, and a kind as a reader takes it from a row: one this binary
    knows, or another binary's kept as its text. *)
From S2P Require Import Prelude Text.

Module EventKind.
Inductive t : Set :=
  | AgentCasesBuilt
  | AgentCasesDecided
  | AgentCasesLabeled
  | AgentCasesPrepared
  | AgentCasesRefused
  | AgentCasesRequested
  | AgentCasesTaken
  | AgentEvalCaseChecked
  | AgentEvalFinished
  | AgentEvalRefused
  | AgentEvalRequested
  | AgentEvalRunFinished
  | AgentEvalRunStarted
  | AgentEvalStarted
  | AgentEvalTakenUp
  | AgentEvalWaiting
  | AgentEvalWatchSkipped
  | AgentStarted
  | ApproveWithheld
  | AskAnswered
  | AskClosed
  | AskDelivered
  | AskDeliveryFailed
  | AskOpened
  | AskRequestTaken
  | AskUpdated
  | AttributesBaseline
  | AuthRequired
  | AuthorizationDenied
  | AutoRepaired
  | BackendCallFailed
  | BuildCacheRemoved
  | BuildOutputsRemoved
  | CandidatesSampled
  | CiCheckFailed
  | CiChecked
  | CiJobsMissing
  | CiScheduledChecked
  | CiTurnedGreen
  | CiTurnedRed
  | CiWatchAvailable
  | CiWatchHeld
  | CiWatchResumed
  | CiWatchUnavailable
  | CiWorkflowFresh
  | CiWorkflowStale
  | ClaimDeferralEnded
  | ClaimDeferred
  | ClaimHeld
  | ClaimResumed
  | CleanupFailed
  | ConcernDecided
  | ConcernSendBackEscalated
  | ConflictPrecheck
  | ConflictReceiptRejected
  | ConflictResolved
  | ConflictsConfigChanged
  | ContainerImageBuilt
  | ContainerImageFailed
  | ContainerMemoryWaitEnded
  | ContainerMemoryWaitLong
  | ContainerMemoryWaiting
  | ContainerRuntimeAvailable
  | ContainerRuntimeUnavailable
  | DependencyAdded
  | DependencyRemoved
  | DependencyStranded
  | DraftAdopted
  | DraftOriginRecorded
  | DraftPlannerExhausted
  | DraftPlannerOpened
  | DraftPlannerSettled
  | DraftRevisitCleared
  | DraftRevisitDue
  | DraftRevisitSet
  | EnvironmentAttached
  | EvidenceMissing
  | ExitRequestTimedOut
  | ExitRequested
  | ExitRetried
  | ExitUnsent
  | FindingBaseline
  | FindingPlannerExhausted
  | FindingPlannerOpened
  | FindingRecorded
  | FindingStatusChanged
  | FindingUpdated
  | FirstCommitObserved
  | FollowUpJudged
  | FollowUpAdopted
  | FollowUpRegistered
  | ForecastRecorded
  | GoalClosed
  | GoalCorrectionDecided
  | GoalCreated
  | GoalDecided
  | GoalDependencyAdded
  | GoalDependencyRemoved
  | GoalReopened
  | GoalReviewFailed
  | GoalReviewFinished
  | GoalReviewRearmed
  | GoalReviewStarted
  | GoalStatusChanged
  | GoalSubmitted
  | GoalUpdated
  | HeadlessJobStopped
  | HoldAnswerApplied
  | HoldContinueSent
  | HoldDeferred
  | HoldParked
  | HoldResultApplied
  | HoldResultDiscarded
  | HoldResultKept
  | HoldResultWithheld
  | IdleInferred
  | InboxGuardrailReached
  | InboxNudgeFailed
  | InboxNudged
  | InboxOpened
  | InboxWatcherAbsent
  | InboxWatcherReturned
  | IncrementalSessionsRemoved
  | InputNotReady
  | InstallE2eFinished
  | IntegrateProgramsFinished
  | IntegrationApproved
  | IntegrationDeferred
  | IntegrationError
  | IntegrationFailed
  | IntegrationHandedOver
  | IntegrationHeld
  | IntegrationRebaseAborted
  | IntegrationRebased
  | IntegrationReceipt
  | IntegrationRetried
  | IntegrationStarted
  | JobRestarted
  | KnownDialogUnanswered
  | KpiBreachResolved
  | KpiBreachStarted
  | KpiPushAbandoned
  | KpiPushFailed
  | KpiPushSent
  | LandingDecided
  | LandingBranchResolved
  | LandingBranchUnresolved
  | LandingHeld
  | LandingQueued
  | LandingReleaseStuck
  | LandingReleaseWaiting
  | LandingRecheckClean
  | LandingRecheckFailed
  | LandingRecheckFinished
  | LandingRecheckTargetUnwritable
  | LandingRecheckTargetWritable
  | LandingRecheckMainFailed
  | LandingRecheckMainPassed
  | LandingResumed
  | LeaseAcquired
  | LeaseReleased
  | LedgerBuildFailed
  | LiveAlertBaseline
  | LiveAlertEnded
  | LiveAlertInputChanged
  | LiveAlertReached
  | LiveAlertStarted
  | MainCommitsRecorded
  | MainObserved
  | MainPathsRecorded
  | MainReadFailed
  | MainReadRecovered
  | MainRevertsImported
  | MainRewritten
  | MarkRecorded
  | MarkRetracted
  | MigrationRenumbered
  | Observation
  | ObserveFinished
  | ObserveStarted
  | PlanConcernDecided
  | PlanDecided
  | PlanReviewDiscarded
  | PlanReviewFailed
  | PlanReviewFinished
  | PlanReviewOutcome
  | PlanReviewStarted
  | PlanReviseLost
  | PlanReviseSent
  | PlannerAnswerClaimed
  | PlannerAnswerClosed
  | PlannerAnswerWait
  | PlannerClosed
  | PlannerPromptWritten
  | PlannerReleased
  | PlannerRequestHanded
  | PlannerUnresponsive
  | PromptCleared
  | PromptWaiting
  | ProviderExecutableRelocated
  | ProviderHeld
  | ProviderReleased
  | ProviderSwitched
  | ProviderWaiting
  | ProposalResubmitted
  | ProposalSettled
  | ProposalSubmitted
  | ProposalWithdrawn
  | PushFailed
  | PushFinished
  | PushSkipped
  | QueueBrokerDenied
  | QueueBrokerDown
  | QueueBrokerRunning
  | QueueBrokerStarted
  | QueueBrokerStopRequested
  | QueueBrokerStopped
  | QueueBrokerTokensSwept
  | QueueHoldApplied
  | QueueRelayDown
  | QueueRelayRunning
  | QueueRelayStarted
  | QueueServiceDown
  | QueueServiceRunning
  | QueueServiceStarted
  | QueueServiceStopRequested
  | QueueServiceStopped
  | QueueServiceUnauthenticated
  | QueueWriteHeldLong
  | ReceiptObserved
  | RecoveryFailed
  | RecoveryFinished
  | RecoveryParked
  | RecoveryPromptWritten
  | RecoveryRequested
  | ReleaseCheckFailed
  | ReleaseChecked
  | ReplanApplied
  | ReplanApplyRechecked
  | ReplanCarried
  | ReplanCarryEnded
  | ReplanCarryFailed
  | ReplanChildrenReleased
  | ReplanDiagnosed
  | ReplanDiagnosisFailed
  | ReplanDiagnosisStarted
  | ReplanParked
  | ReplanPlanApproved
  | ReplanPlanSubmitted
  | ReplanRequested
  | ReplanResolved
  | ReplanRestoreFailed
  | ReplanRestored
  | ReplanResultWithheld
  | ReplanStatusChanged
  | ReportWritten
  | RequestDeclined
  | RequestPlannerExhausted
  | RequestPlannerOpened
  | RequestProposed
  | RequestRecorded
  | ResumeFinished
  | ResumeRequestSent
  | ResumeSkipped
  | ResumeStarted
  | ReviewBypassed
  | ReviewFailed
  | ReviewFinished
  | ReviewJobFinished
  | ReviewJobStarted
  | ReviewOutcome
  | ReviewProgramFinished
  | ReviewProgramsFinished
  | ReviewProgramsStarted
  | ReviewRetried
  | ReviewRetryQueued
  | ReviewStarted
  | ReviseFinished
  | ReviseLimitJudged
  | ReviseReceiptRejected
  | ReviseRequested
  | ReviseUnsent
  | ReviseWithheld
  | RunAdopted
  | RunAgentEvalFinished
  | RunAgentEvalRequested
  | RunAgentEvalWaiting
  | WorkerModeConverted
  | RunClaimed
  | RunE2eFailed
  | RunE2eFinished
  | RunE2eStarted
  | RunE2eWaiting
  | RunEnvChanged
  | RunEnvProgramFound
  | RunEnvProgramMissing
  | RunInherited
  | RunIntegrated
  | RunPhaseChanged
  | RunPlanned
  | RunRecovered
  | RunSatisfiedClosed
  | RunSatisfiedDecided
  | RunSatisfiedJudged
  | RunSatisfiedReviewJobFinished
  | RunSatisfiedReviewJobStarted
  | RunSatisfiedReviewStarted
  | RunSatisfiedSnapshot
  | RunSatisfiedVerified
  | RunSlotRegained
  | RunTmpRemoved
  | RunUnfinishedChanged
  | RunWaitingAskAdded
  | RunWaitingDeferred
  | RunWaitingEnded
  | RunWaitingStarted
  | RuntimeError
  | SccacheContainerServerStartFailed
  | SccacheContainerServerStarted
  | SccacheServerStartFailed
  | SccacheServerDetected
  | SccacheServerUnhealthy
  | SccacheServerRestartFailed
  | SccacheServerStarted
  | SccacheWrapperRemoved
  | ScopeViolation
  | ScratchpadRemoved
  | ScreenCaptureFailed
  | ScreenInputSent
  | ScreenRead
  | SessionClosed
  | SessionCompacted
  | SessionExited
  | SessionGoneParked
  | SessionIdleObserved
  | SessionOpened
  | SessionRenewed
  | SessionReopenFailed
  | SessionTokens
  | SessionTurns
  | StaleReceiptNudged
  | StaleReceiptResolved
  | StallConfigLoaded
  | StallNudged
  | StallPreempted
  | StallResolved
  | SubmitNotStarted
  | SubmitResent
  | SubmitRetried
  | SubmitUnconfirmed
  | SlotsFullEnded
  | SlotsFullStarted
  | SupervisionFinished
  | SupervisorConfigChanged
  | SupervisorDraining
  | SupervisorHandedOff
  | SupervisorHeartbeatFailed
  | SupervisorHeartbeatRetried
  | SupervisorAlive
  | SupervisorStarted
  | SupervisorStopped
  | TaskCanceledAsDuplicate
  | TaskCreated
  | TaskEdited
  | TaskGoalChanged
  | TaskHeld
  | TaskHoldEnded
  | TaskHoldReminded
  | TaskPathsChanged
  | TaskPriorityChanged
  | TaskReleased
  | TaskReopened
  | TaskStatusChanged
  | TaskSubmitted
  | TaskWeightPredicted
  | TelemetryTokenIssued
  | TelemetryTokenRevoked
  | ThroughputReviewFinished
  | ThroughputReviewReported
  | ThroughputReviewStarted
  | TriageDecided
  | TriageFailed
  | TriageFinished
  | TriageStarted
  | TurnFinished
  | TurnRequested
  | TurnSessionIdentified
  | TurnStarted
  | TurnWithheld
  | UpdateAnswered
  | UpdateAwaitingApproval
  | UpdateBuilt
  | UpdateDropped
  | UpdateE2ePassed
  | UpdateFailed
  | UpdateInstalled
  | UpdateRestored
  | UpdateRetry
  | UpdateStarted
  | UsageLimited
  | ValidationFinished
  | VerificationCommand
  | WorkspaceClosed
  | WorkspaceCreated
  | WorktreeCreated
  | WorktreeRemoved
  | WrapperHeartbeatExpired
  | WrapperLaunched
  | WrapperStarted
  | WrapperStopped.

Definition as_str (self : t) : string :=
  match self with
  | AgentCasesBuilt => "agent_cases_built"
  | AgentCasesDecided => "agent_cases_decided"
  | AgentCasesLabeled => "agent_cases_labeled"
  | AgentCasesPrepared => "agent_cases_prepared"
  | AgentCasesRefused => "agent_cases_refused"
  | AgentCasesRequested => "agent_cases_requested"
  | AgentCasesTaken => "agent_cases_taken"
  | AgentEvalCaseChecked => "agent_eval_case_checked"
  | AgentEvalFinished => "agent_eval_finished"
  | AgentEvalRefused => "agent_eval_refused"
  | AgentEvalRequested => "agent_eval_requested"
  | AgentEvalRunFinished => "agent_eval_run_finished"
  | AgentEvalRunStarted => "agent_eval_run_started"
  | AgentEvalStarted => "agent_eval_started"
  | AgentEvalTakenUp => "agent_eval_taken_up"
  | AgentEvalWaiting => "agent_eval_waiting"
  | AgentEvalWatchSkipped => "agent_eval_watch_skipped"
  | AgentStarted => "agent_started"
  | ApproveWithheld => "approve_withheld"
  | AskAnswered => "ask_answered"
  | AskClosed => "ask_closed"
  | AskDelivered => "ask_delivered"
  | AskDeliveryFailed => "ask_delivery_failed"
  | AskOpened => "ask_opened"
  | AskRequestTaken => "ask_request_taken"
  | AskUpdated => "ask_updated"
  | AttributesBaseline => "attributes_baseline"
  | AuthRequired => "auth_required"
  | AuthorizationDenied => "authorization_denied"
  | AutoRepaired => "auto_repaired"
  | BackendCallFailed => "backend_call_failed"
  | BuildCacheRemoved => "build_cache_removed"
  | BuildOutputsRemoved => "build_outputs_removed"
  | CandidatesSampled => "candidates_sampled"
  | CiCheckFailed => "ci_check_failed"
  | CiChecked => "ci_checked"
  | CiJobsMissing => "ci_jobs_missing"
  | CiScheduledChecked => "ci_scheduled_checked"
  | CiTurnedGreen => "ci_turned_green"
  | CiTurnedRed => "ci_turned_red"
  | CiWatchAvailable => "ci_watch_available"
  | CiWatchHeld => "ci_watch_held"
  | CiWatchResumed => "ci_watch_resumed"
  | CiWatchUnavailable => "ci_watch_unavailable"
  | CiWorkflowFresh => "ci_workflow_fresh"
  | CiWorkflowStale => "ci_workflow_stale"
  | ClaimDeferralEnded => "claim_deferral_ended"
  | ClaimDeferred => "claim_deferred"
  | ClaimHeld => "claim_held"
  | ClaimResumed => "claim_resumed"
  | CleanupFailed => "cleanup_failed"
  | ConcernDecided => "concern_decided"
  | ConcernSendBackEscalated => "concern_send_back_escalated"
  | ConflictPrecheck => "conflict_precheck"
  | ConflictReceiptRejected => "conflict_receipt_rejected"
  | ConflictResolved => "conflict_resolved"
  | ConflictsConfigChanged => "conflicts_config_changed"
  | ContainerImageBuilt => "container_image_built"
  | ContainerImageFailed => "container_image_failed"
  | ContainerMemoryWaitEnded => "container_memory_wait_ended"
  | ContainerMemoryWaitLong => "container_memory_wait_long"
  | ContainerMemoryWaiting => "container_memory_waiting"
  | ContainerRuntimeAvailable => "container_runtime_available"
  | ContainerRuntimeUnavailable => "container_runtime_unavailable"
  | DependencyAdded => "dependency_added"
  | DependencyRemoved => "dependency_removed"
  | DependencyStranded => "dependency_stranded"
  | DraftAdopted => "draft_adopted"
  | DraftOriginRecorded => "draft_origin_recorded"
  | DraftPlannerExhausted => "draft_planner_exhausted"
  | DraftPlannerOpened => "draft_planner_opened"
  | DraftPlannerSettled => "draft_planner_settled"
  | DraftRevisitCleared => "draft_revisit_cleared"
  | DraftRevisitDue => "draft_revisit_due"
  | DraftRevisitSet => "draft_revisit_set"
  | EnvironmentAttached => "environment_attached"
  | EvidenceMissing => "evidence_missing"
  | ExitRequestTimedOut => "exit_request_timed_out"
  | ExitRequested => "exit_requested"
  | ExitRetried => "exit_retried"
  | ExitUnsent => "exit_unsent"
  | FindingBaseline => "finding_baseline"
  | FindingPlannerExhausted => "finding_planner_exhausted"
  | FindingPlannerOpened => "finding_planner_opened"
  | FindingRecorded => "finding_recorded"
  | FindingStatusChanged => "finding_status_changed"
  | FindingUpdated => "finding_updated"
  | FirstCommitObserved => "first_commit_observed"
  | FollowUpJudged => "follow_up_judged"
  | FollowUpAdopted => "follow_up_adopted"
  | FollowUpRegistered => "follow_up_registered"
  | ForecastRecorded => "forecast_recorded"
  | GoalClosed => "goal_closed"
  | GoalCorrectionDecided => "goal_correction_decided"
  | GoalCreated => "goal_created"
  | GoalDecided => "goal_decided"
  | GoalDependencyAdded => "goal_dependency_added"
  | GoalDependencyRemoved => "goal_dependency_removed"
  | GoalReopened => "goal_reopened"
  | GoalReviewFailed => "goal_review_failed"
  | GoalReviewFinished => "goal_review_finished"
  | GoalReviewRearmed => "goal_review_rearmed"
  | GoalReviewStarted => "goal_review_started"
  | GoalStatusChanged => "goal_status_changed"
  | GoalSubmitted => "goal_submitted"
  | GoalUpdated => "goal_updated"
  | HeadlessJobStopped => "headless_job_stopped"
  | HoldAnswerApplied => "hold_answer_applied"
  | HoldContinueSent => "hold_continue_sent"
  | HoldDeferred => "hold_deferred"
  | HoldParked => "hold_parked"
  | HoldResultApplied => "hold_result_applied"
  | HoldResultDiscarded => "hold_result_discarded"
  | HoldResultKept => "hold_result_kept"
  | HoldResultWithheld => "hold_result_withheld"
  | IdleInferred => "idle_inferred"
  | InboxGuardrailReached => "inbox_guardrail_reached"
  | InboxNudgeFailed => "inbox_nudge_failed"
  | InboxNudged => "inbox_nudged"
  | InboxOpened => "inbox_opened"
  | InboxWatcherAbsent => "inbox_watcher_absent"
  | InboxWatcherReturned => "inbox_watcher_returned"
  | IncrementalSessionsRemoved => "incremental_sessions_removed"
  | InputNotReady => "input_not_ready"
  | InstallE2eFinished => "install_e2e_finished"
  | IntegrateProgramsFinished => "integrate_programs_finished"
  | IntegrationApproved => "integration_approved"
  | IntegrationDeferred => "integration_deferred"
  | IntegrationError => "integration_error"
  | IntegrationFailed => "integration_failed"
  | IntegrationHandedOver => "integration_handed_over"
  | IntegrationHeld => "integration_held"
  | IntegrationRebaseAborted => "integration_rebase_aborted"
  | IntegrationRebased => "integration_rebased"
  | IntegrationReceipt => "integration_receipt"
  | IntegrationRetried => "integration_retried"
  | IntegrationStarted => "integration_started"
  | JobRestarted => "job_restarted"
  | KnownDialogUnanswered => "known_dialog_unanswered"
  | KpiBreachResolved => "kpi_breach_resolved"
  | KpiBreachStarted => "kpi_breach_started"
  | KpiPushAbandoned => "kpi_push_abandoned"
  | KpiPushFailed => "kpi_push_failed"
  | KpiPushSent => "kpi_push_sent"
  | LandingDecided => "landing_decided"
  | LandingBranchResolved => "landing_branch_resolved"
  | LandingBranchUnresolved => "landing_branch_unresolved"
  | LandingHeld => "landing_held"
  | LandingQueued => "landing_queued"
  | LandingReleaseStuck => "landing_release_stuck"
  | LandingReleaseWaiting => "landing_release_waiting"
  | LandingRecheckClean => "landing_recheck_clean"
  | LandingRecheckFailed => "landing_recheck_failed"
  | LandingRecheckFinished => "landing_recheck_finished"
  | LandingRecheckTargetUnwritable => "landing_recheck_target_unwritable"
  | LandingRecheckTargetWritable => "landing_recheck_target_writable"
  | LandingRecheckMainFailed => "landing_recheck_main_failed"
  | LandingRecheckMainPassed => "landing_recheck_main_passed"
  | LandingResumed => "landing_resumed"
  | LeaseAcquired => "lease_acquired"
  | LeaseReleased => "lease_released"
  | LedgerBuildFailed => "ledger_build_failed"
  | LiveAlertBaseline => "live_alert_baseline"
  | LiveAlertEnded => "live_alert_ended"
  | LiveAlertInputChanged => "live_alert_input_changed"
  | LiveAlertReached => "live_alert_reached"
  | LiveAlertStarted => "live_alert_started"
  | MainCommitsRecorded => "main_commits_recorded"
  | MainObserved => "main_observed"
  | MainPathsRecorded => "main_paths_recorded"
  | MainReadFailed => "main_read_failed"
  | MainReadRecovered => "main_read_recovered"
  | MainRevertsImported => "main_reverts_imported"
  | MainRewritten => "main_rewritten"
  | MarkRecorded => "mark_recorded"
  | MarkRetracted => "mark_retracted"
  | MigrationRenumbered => "migration_renumbered"
  | Observation => "observation"
  | ObserveFinished => "observe_finished"
  | ObserveStarted => "observe_started"
  | PlanConcernDecided => "plan_concern_decided"
  | PlanDecided => "plan_decided"
  | PlanReviewDiscarded => "plan_review_discarded"
  | PlanReviewFailed => "plan_review_failed"
  | PlanReviewFinished => "plan_review_finished"
  | PlanReviewOutcome => "plan_review_outcome"
  | PlanReviewStarted => "plan_review_started"
  | PlanReviseLost => "plan_revise_lost"
  | PlanReviseSent => "plan_revise_sent"
  | PlannerAnswerClaimed => "planner_answer_claimed"
  | PlannerAnswerClosed => "planner_answer_closed"
  | PlannerAnswerWait => "planner_answer_wait"
  | PlannerClosed => "planner_closed"
  | PlannerPromptWritten => "planner_prompt_written"
  | PlannerReleased => "planner_released"
  | PlannerRequestHanded => "planner_request_handed"
  | PlannerUnresponsive => "planner_unresponsive"
  | PromptCleared => "prompt_cleared"
  | PromptWaiting => "prompt_waiting"
  | ProviderExecutableRelocated => "provider_executable_relocated"
  | ProviderHeld => "provider_held"
  | ProviderReleased => "provider_released"
  | ProviderSwitched => "provider_switched"
  | ProviderWaiting => "provider_waiting"
  | ProposalResubmitted => "proposal_resubmitted"
  | ProposalSettled => "proposal_settled"
  | ProposalSubmitted => "proposal_submitted"
  | ProposalWithdrawn => "proposal_withdrawn"
  | PushFailed => "push_failed"
  | PushFinished => "push_finished"
  | PushSkipped => "push_skipped"
  | QueueBrokerDenied => "queue_broker_denied"
  | QueueBrokerDown => "queue_broker_down"
  | QueueBrokerRunning => "queue_broker_running"
  | QueueBrokerStarted => "queue_broker_started"
  | QueueBrokerStopRequested => "queue_broker_stop_requested"
  | QueueBrokerStopped => "queue_broker_stopped"
  | QueueBrokerTokensSwept => "queue_broker_tokens_swept"
  | QueueHoldApplied => "queue_hold_applied"
  | QueueRelayDown => "queue_relay_down"
  | QueueRelayRunning => "queue_relay_running"
  | QueueRelayStarted => "queue_relay_started"
  | QueueServiceDown => "queue_service_down"
  | QueueServiceRunning => "queue_service_running"
  | QueueServiceStarted => "queue_service_started"
  | QueueServiceStopRequested => "queue_service_stop_requested"
  | QueueServiceStopped => "queue_service_stopped"
  | QueueServiceUnauthenticated => "queue_service_unauthenticated"
  | QueueWriteHeldLong => "queue_write_held_long"
  | ReceiptObserved => "receipt_observed"
  | RecoveryFailed => "recovery_failed"
  | RecoveryFinished => "recovery_finished"
  | RecoveryParked => "recovery_parked"
  | RecoveryPromptWritten => "recovery_prompt_written"
  | RecoveryRequested => "recovery_requested"
  | ReleaseCheckFailed => "release_check_failed"
  | ReleaseChecked => "release_checked"
  | ReplanApplied => "replan_applied"
  | ReplanApplyRechecked => "replan_apply_rechecked"
  | ReplanCarried => "replan_carried"
  | ReplanCarryEnded => "replan_carry_ended"
  | ReplanCarryFailed => "replan_carry_failed"
  | ReplanChildrenReleased => "replan_children_released"
  | ReplanDiagnosed => "replan_diagnosed"
  | ReplanDiagnosisFailed => "replan_diagnosis_failed"
  | ReplanDiagnosisStarted => "replan_diagnosis_started"
  | ReplanParked => "replan_parked"
  | ReplanPlanApproved => "replan_plan_approved"
  | ReplanPlanSubmitted => "replan_plan_submitted"
  | ReplanRequested => "replan_requested"
  | ReplanResolved => "replan_resolved"
  | ReplanRestoreFailed => "replan_restore_failed"
  | ReplanRestored => "replan_restored"
  | ReplanResultWithheld => "replan_result_withheld"
  | ReplanStatusChanged => "replan_status_changed"
  | ReportWritten => "report_written"
  | RequestDeclined => "request_declined"
  | RequestPlannerExhausted => "request_planner_exhausted"
  | RequestPlannerOpened => "request_planner_opened"
  | RequestProposed => "request_proposed"
  | RequestRecorded => "request_recorded"
  | ResumeFinished => "resume_finished"
  | ResumeRequestSent => "resume_request_sent"
  | ResumeSkipped => "resume_skipped"
  | ResumeStarted => "resume_started"
  | ReviewBypassed => "review_bypassed"
  | ReviewFailed => "review_failed"
  | ReviewFinished => "review_finished"
  | ReviewJobFinished => "review_job_finished"
  | ReviewJobStarted => "review_job_started"
  | ReviewOutcome => "review_outcome"
  | ReviewProgramFinished => "review_program_finished"
  | ReviewProgramsFinished => "review_programs_finished"
  | ReviewProgramsStarted => "review_programs_started"
  | ReviewRetried => "review_retried"
  | ReviewRetryQueued => "review_retry_queued"
  | ReviewStarted => "review_started"
  | ReviseFinished => "revise_finished"
  | ReviseLimitJudged => "revise_limit_judged"
  | ReviseReceiptRejected => "revise_receipt_rejected"
  | ReviseRequested => "revise_requested"
  | ReviseUnsent => "revise_unsent"
  | ReviseWithheld => "revise_withheld"
  | RunAdopted => "run_adopted"
  | RunAgentEvalFinished => "run_agent_eval_finished"
  | RunAgentEvalRequested => "run_agent_eval_requested"
  | RunAgentEvalWaiting => "run_agent_eval_waiting"
  | WorkerModeConverted => "worker_mode_converted"
  | RunClaimed => "run_claimed"
  | RunE2eFailed => "run_e2e_failed"
  | RunE2eFinished => "run_e2e_finished"
  | RunE2eStarted => "run_e2e_started"
  | RunE2eWaiting => "run_e2e_waiting"
  | RunEnvChanged => "run_env_changed"
  | RunEnvProgramFound => "run_env_program_found"
  | RunEnvProgramMissing => "run_env_program_missing"
  | RunInherited => "run_inherited"
  | RunIntegrated => "run_integrated"
  | RunPhaseChanged => "run_phase_changed"
  | RunPlanned => "run_planned"
  | RunRecovered => "run_recovered"
  | RunSatisfiedClosed => "run_satisfied_closed"
  | RunSatisfiedDecided => "run_satisfied_decided"
  | RunSatisfiedJudged => "run_satisfied_judged"
  | RunSatisfiedReviewJobFinished => "run_satisfied_review_job_finished"
  | RunSatisfiedReviewJobStarted => "run_satisfied_review_job_started"
  | RunSatisfiedReviewStarted => "run_satisfied_review_started"
  | RunSatisfiedSnapshot => "run_satisfied_snapshot"
  | RunSatisfiedVerified => "run_satisfied_verified"
  | RunSlotRegained => "run_slot_regained"
  | RunTmpRemoved => "run_tmp_removed"
  | RunUnfinishedChanged => "run_unfinished_changed"
  | RunWaitingAskAdded => "run_waiting_ask_added"
  | RunWaitingDeferred => "run_waiting_deferred"
  | RunWaitingEnded => "run_waiting_ended"
  | RunWaitingStarted => "run_waiting_started"
  | RuntimeError => "runtime_error"
  | SccacheContainerServerStartFailed => "sccache_container_server_start_failed"
  | SccacheContainerServerStarted => "sccache_container_server_started"
  | SccacheServerStartFailed => "sccache_server_start_failed"
  | SccacheServerDetected => "sccache_server_detected"
  | SccacheServerUnhealthy => "sccache_server_unhealthy"
  | SccacheServerRestartFailed => "sccache_server_restart_failed"
  | SccacheServerStarted => "sccache_server_started"
  | SccacheWrapperRemoved => "sccache_wrapper_removed"
  | ScopeViolation => "scope_violation"
  | ScratchpadRemoved => "scratchpad_removed"
  | ScreenCaptureFailed => "screen_capture_failed"
  | ScreenInputSent => "screen_input_sent"
  | ScreenRead => "screen_read"
  | SessionClosed => "session_closed"
  | SessionCompacted => "session_compacted"
  | SessionExited => "session_exited"
  | SessionGoneParked => "session_gone_parked"
  | SessionIdleObserved => "session_idle_observed"
  | SessionOpened => "session_opened"
  | SessionRenewed => "session_renewed"
  | SessionReopenFailed => "session_reopen_failed"
  | SessionTokens => "session_tokens"
  | SessionTurns => "session_turns"
  | StaleReceiptNudged => "stale_receipt_nudged"
  | StaleReceiptResolved => "stale_receipt_resolved"
  | StallConfigLoaded => "stall_config_loaded"
  | StallNudged => "stall_nudged"
  | StallPreempted => "stall_preempted"
  | StallResolved => "stall_resolved"
  | SubmitNotStarted => "submit_not_started"
  | SubmitResent => "submit_resent"
  | SubmitRetried => "submit_retried"
  | SubmitUnconfirmed => "submit_unconfirmed"
  | SlotsFullEnded => "slots_full_ended"
  | SlotsFullStarted => "slots_full_started"
  | SupervisionFinished => "supervision_finished"
  | SupervisorConfigChanged => "supervisor_config_changed"
  | SupervisorDraining => "supervisor_draining"
  | SupervisorHandedOff => "supervisor_handed_off"
  | SupervisorHeartbeatFailed => "supervisor_heartbeat_failed"
  | SupervisorHeartbeatRetried => "supervisor_heartbeat_retried"
  | SupervisorAlive => "supervisor_alive"
  | SupervisorStarted => "supervisor_started"
  | SupervisorStopped => "supervisor_stopped"
  | TaskCanceledAsDuplicate => "task_canceled_as_duplicate"
  | TaskCreated => "task_created"
  | TaskEdited => "task_edited"
  | TaskGoalChanged => "task_goal_changed"
  | TaskHeld => "task_held"
  | TaskHoldEnded => "task_hold_ended"
  | TaskHoldReminded => "task_hold_reminded"
  | TaskPathsChanged => "task_paths_changed"
  | TaskPriorityChanged => "task_priority_changed"
  | TaskReleased => "task_released"
  | TaskReopened => "task_reopened"
  | TaskStatusChanged => "task_status_changed"
  | TaskSubmitted => "task_submitted"
  | TaskWeightPredicted => "task_weight_predicted"
  | TelemetryTokenIssued => "telemetry_token_issued"
  | TelemetryTokenRevoked => "telemetry_token_revoked"
  | ThroughputReviewFinished => "throughput_review_finished"
  | ThroughputReviewReported => "throughput_review_reported"
  | ThroughputReviewStarted => "throughput_review_started"
  | TriageDecided => "triage_decided"
  | TriageFailed => "triage_failed"
  | TriageFinished => "triage_finished"
  | TriageStarted => "triage_started"
  | TurnFinished => "turn_finished"
  | TurnRequested => "turn_requested"
  | TurnSessionIdentified => "turn_session_identified"
  | TurnStarted => "turn_started"
  | TurnWithheld => "turn_withheld"
  | UpdateAnswered => "update_answered"
  | UpdateAwaitingApproval => "update_awaiting_approval"
  | UpdateBuilt => "update_built"
  | UpdateDropped => "update_dropped"
  | UpdateE2ePassed => "update_e2e_passed"
  | UpdateFailed => "update_failed"
  | UpdateInstalled => "update_installed"
  | UpdateRestored => "update_restored"
  | UpdateRetry => "update_retry"
  | UpdateStarted => "update_started"
  | UsageLimited => "usage_limited"
  | ValidationFinished => "validation_finished"
  | VerificationCommand => "verification_command"
  | WorkspaceClosed => "workspace_closed"
  | WorkspaceCreated => "workspace_created"
  | WorktreeCreated => "worktree_created"
  | WorktreeRemoved => "worktree_removed"
  | WrapperHeartbeatExpired => "wrapper_heartbeat_expired"
  | WrapperLaunched => "wrapper_launched"
  | WrapperStarted => "wrapper_started"
  | WrapperStopped => "wrapper_stopped"
  end.

Definition ALL : list t :=
  [AgentCasesBuilt; AgentCasesDecided; AgentCasesLabeled; AgentCasesPrepared; AgentCasesRefused;
   AgentCasesRequested; AgentCasesTaken; AgentEvalCaseChecked; AgentEvalFinished;
   AgentEvalRefused; AgentEvalRequested; AgentEvalRunFinished; AgentEvalRunStarted;
   AgentEvalStarted; AgentEvalTakenUp; AgentEvalWaiting; AgentEvalWatchSkipped; AgentStarted;
   ApproveWithheld; AskAnswered; AskClosed; AskDelivered; AskDeliveryFailed; AskOpened;
   AskRequestTaken; AskUpdated; AttributesBaseline; AuthRequired; AuthorizationDenied;
   AutoRepaired; BackendCallFailed; BuildCacheRemoved; BuildOutputsRemoved; CandidatesSampled;
   CiCheckFailed; CiChecked; CiJobsMissing; CiScheduledChecked; CiTurnedGreen; CiTurnedRed;
   CiWatchAvailable; CiWatchHeld; CiWatchResumed; CiWatchUnavailable; CiWorkflowFresh;
   CiWorkflowStale; ClaimDeferralEnded; ClaimDeferred; ClaimHeld; ClaimResumed; CleanupFailed;
   ConcernDecided; ConcernSendBackEscalated; ConflictPrecheck; ConflictReceiptRejected;
   ConflictResolved; ConflictsConfigChanged; ContainerImageBuilt; ContainerImageFailed;
   ContainerMemoryWaitEnded; ContainerMemoryWaitLong; ContainerMemoryWaiting;
   ContainerRuntimeAvailable; ContainerRuntimeUnavailable; DependencyAdded; DependencyRemoved;
   DependencyStranded; DraftAdopted; DraftOriginRecorded; DraftPlannerExhausted;
   DraftPlannerOpened; DraftPlannerSettled; DraftRevisitCleared; DraftRevisitDue;
   DraftRevisitSet; EnvironmentAttached; EvidenceMissing; ExitRequestTimedOut; ExitRequested;
   ExitRetried; ExitUnsent; FindingBaseline; FindingPlannerExhausted; FindingPlannerOpened;
   FindingRecorded; FindingStatusChanged; FindingUpdated; FirstCommitObserved; FollowUpJudged;
   FollowUpAdopted; FollowUpRegistered; ForecastRecorded; GoalClosed; GoalCorrectionDecided;
   GoalCreated; GoalDecided; GoalDependencyAdded; GoalDependencyRemoved; GoalReopened;
   GoalReviewFailed; GoalReviewFinished; GoalReviewRearmed; GoalReviewStarted;
   GoalStatusChanged; GoalSubmitted; GoalUpdated; HeadlessJobStopped; HoldAnswerApplied;
   HoldContinueSent; HoldDeferred; HoldParked; HoldResultApplied; HoldResultDiscarded;
   HoldResultKept; HoldResultWithheld; IdleInferred; InboxGuardrailReached; InboxNudgeFailed;
   InboxNudged; InboxOpened; InboxWatcherAbsent; InboxWatcherReturned;
   IncrementalSessionsRemoved; InputNotReady; InstallE2eFinished; IntegrateProgramsFinished;
   IntegrationApproved; IntegrationDeferred; IntegrationError; IntegrationFailed;
   IntegrationHandedOver; IntegrationHeld; IntegrationRebaseAborted; IntegrationRebased;
   IntegrationReceipt; IntegrationRetried; IntegrationStarted; JobRestarted;
   KnownDialogUnanswered; KpiBreachResolved; KpiBreachStarted; KpiPushAbandoned; KpiPushFailed;
   KpiPushSent; LandingDecided; LandingBranchResolved; LandingBranchUnresolved; LandingHeld;
   LandingQueued; LandingReleaseStuck; LandingReleaseWaiting; LandingRecheckClean;
   LandingRecheckFailed; LandingRecheckFinished; LandingRecheckTargetUnwritable;
   LandingRecheckTargetWritable; LandingRecheckMainFailed; LandingRecheckMainPassed;
   LandingResumed; LeaseAcquired; LeaseReleased; LedgerBuildFailed; LiveAlertBaseline;
   LiveAlertEnded; LiveAlertInputChanged; LiveAlertReached; LiveAlertStarted;
   MainCommitsRecorded; MainObserved; MainPathsRecorded; MainReadFailed; MainReadRecovered;
   MainRevertsImported; MainRewritten; MarkRecorded; MarkRetracted; MigrationRenumbered;
   Observation; ObserveFinished; ObserveStarted; PlanConcernDecided; PlanDecided;
   PlanReviewDiscarded; PlanReviewFailed; PlanReviewFinished; PlanReviewOutcome;
   PlanReviewStarted; PlanReviseLost; PlanReviseSent; PlannerAnswerClaimed; PlannerAnswerClosed;
   PlannerAnswerWait; PlannerClosed; PlannerPromptWritten; PlannerReleased;
   PlannerRequestHanded; PlannerUnresponsive; PromptCleared; PromptWaiting;
   ProviderExecutableRelocated; ProviderHeld; ProviderReleased; ProviderSwitched;
   ProviderWaiting; ProposalResubmitted; ProposalSettled; ProposalSubmitted; ProposalWithdrawn;
   PushFailed; PushFinished; PushSkipped; QueueBrokerDenied; QueueBrokerDown;
   QueueBrokerRunning; QueueBrokerStarted; QueueBrokerStopRequested; QueueBrokerStopped;
   QueueBrokerTokensSwept; QueueHoldApplied; QueueRelayDown; QueueRelayRunning;
   QueueRelayStarted; QueueServiceDown; QueueServiceRunning; QueueServiceStarted;
   QueueServiceStopRequested; QueueServiceStopped; QueueServiceUnauthenticated;
   QueueWriteHeldLong; ReceiptObserved; RecoveryFailed; RecoveryFinished; RecoveryParked;
   RecoveryPromptWritten; RecoveryRequested; ReleaseCheckFailed; ReleaseChecked; ReplanApplied;
   ReplanApplyRechecked; ReplanCarried; ReplanCarryEnded; ReplanCarryFailed;
   ReplanChildrenReleased; ReplanDiagnosed; ReplanDiagnosisFailed; ReplanDiagnosisStarted;
   ReplanParked; ReplanPlanApproved; ReplanPlanSubmitted; ReplanRequested; ReplanResolved;
   ReplanRestoreFailed; ReplanRestored; ReplanResultWithheld; ReplanStatusChanged;
   ReportWritten; RequestDeclined; RequestPlannerExhausted; RequestPlannerOpened;
   RequestProposed; RequestRecorded; ResumeFinished; ResumeRequestSent; ResumeSkipped;
   ResumeStarted; ReviewBypassed; ReviewFailed; ReviewFinished; ReviewJobFinished;
   ReviewJobStarted; ReviewOutcome; ReviewProgramFinished; ReviewProgramsFinished;
   ReviewProgramsStarted; ReviewRetried; ReviewRetryQueued; ReviewStarted; ReviseFinished;
   ReviseLimitJudged; ReviseReceiptRejected; ReviseRequested; ReviseUnsent; ReviseWithheld;
   RunAdopted; RunAgentEvalFinished; RunAgentEvalRequested; RunAgentEvalWaiting;
   WorkerModeConverted; RunClaimed; RunE2eFailed; RunE2eFinished; RunE2eStarted; RunE2eWaiting;
   RunEnvChanged; RunEnvProgramFound; RunEnvProgramMissing; RunInherited; RunIntegrated;
   RunPhaseChanged; RunPlanned; RunRecovered; RunSatisfiedClosed; RunSatisfiedDecided;
   RunSatisfiedJudged; RunSatisfiedReviewJobFinished; RunSatisfiedReviewJobStarted;
   RunSatisfiedReviewStarted; RunSatisfiedSnapshot; RunSatisfiedVerified; RunSlotRegained;
   RunTmpRemoved; RunUnfinishedChanged; RunWaitingAskAdded; RunWaitingDeferred; RunWaitingEnded;
   RunWaitingStarted; RuntimeError; SccacheContainerServerStartFailed;
   SccacheContainerServerStarted; SccacheServerStartFailed; SccacheServerDetected;
   SccacheServerUnhealthy; SccacheServerRestartFailed; SccacheServerStarted;
   SccacheWrapperRemoved; ScopeViolation; ScratchpadRemoved; ScreenCaptureFailed;
   ScreenInputSent; ScreenRead; SessionClosed; SessionCompacted; SessionExited;
   SessionGoneParked; SessionIdleObserved; SessionOpened; SessionRenewed; SessionReopenFailed;
   SessionTokens; SessionTurns; StaleReceiptNudged; StaleReceiptResolved; StallConfigLoaded;
   StallNudged; StallPreempted; StallResolved; SubmitNotStarted; SubmitResent; SubmitRetried;
   SubmitUnconfirmed; SlotsFullEnded; SlotsFullStarted; SupervisionFinished;
   SupervisorConfigChanged; SupervisorDraining; SupervisorHandedOff; SupervisorHeartbeatFailed;
   SupervisorHeartbeatRetried; SupervisorAlive; SupervisorStarted; SupervisorStopped;
   TaskCanceledAsDuplicate; TaskCreated; TaskEdited; TaskGoalChanged; TaskHeld; TaskHoldEnded;
   TaskHoldReminded; TaskPathsChanged; TaskPriorityChanged; TaskReleased; TaskReopened;
   TaskStatusChanged; TaskSubmitted; TaskWeightPredicted; TelemetryTokenIssued;
   TelemetryTokenRevoked; ThroughputReviewFinished; ThroughputReviewReported;
   ThroughputReviewStarted; TriageDecided; TriageFailed; TriageFinished; TriageStarted;
   TurnFinished; TurnRequested; TurnSessionIdentified; TurnStarted; TurnWithheld;
   UpdateAnswered; UpdateAwaitingApproval; UpdateBuilt; UpdateDropped; UpdateE2ePassed;
   UpdateFailed; UpdateInstalled; UpdateRestored; UpdateRetry; UpdateStarted; UsageLimited;
   ValidationFinished; VerificationCommand; WorkspaceClosed; WorkspaceCreated; WorktreeCreated;
   WorktreeRemoved; WrapperHeartbeatExpired; WrapperLaunched; WrapperStarted; WrapperStopped].

(** The kind named [name]: the [match] of the macro, whose texts are
    distinct. *)
Definition from_name (name : string) : option t :=
  List.find (λ kind, String.eqb (as_str kind) name) ALL.

Lemma from_name_as_str kind : from_name (as_str kind) = Some kind.
Proof. destruct kind; vm_compute; reflexivity. Qed.

Lemma as_str_inj kind kind' : as_str kind = as_str kind' → kind = kind'.
Proof. intros Heq. apply (inj Some). by rewrite <-!from_name_as_str, Heq. Qed.

#[global] Instance eq_dec : EqDecision t.
Proof.
  intros kind kind'. destruct (decide (as_str kind = as_str kind')) as [Heq|Hne].
  - left. by apply as_str_inj.
  - right. by intros ->.
Defined.

Lemma from_name_Some name kind : from_name name = Some kind → as_str kind = name.
Proof. intros Hfind. apply List.find_some in Hfind as [_ Htext]. by apply String.eqb_eq. Qed.

(** Whether an event of the kind may belong to no task, goal or run. *)
Definition is_queue (self : t) : bool :=
  match self with
  | BackendCallFailed | AgentEvalRequested | AgentEvalRefused | AgentEvalWaiting |
  AgentEvalStarted | AgentEvalTakenUp | AgentEvalRunStarted | AgentEvalRunFinished |
  AgentEvalCaseChecked | AgentEvalFinished | AgentEvalWatchSkipped | AgentCasesRequested |
  AgentCasesRefused | AgentCasesPrepared | AgentCasesLabeled | AgentCasesBuilt |
  AgentCasesDecided | AgentCasesTaken | AuthorizationDenied | ObserveStarted | ObserveFinished |
  TelemetryTokenIssued | TelemetryTokenRevoked | ThroughputReviewStarted |
  ThroughputReviewFinished | ThroughputReviewReported | AskOpened | AskAnswered | AskClosed |
  StallConfigLoaded | FindingRecorded | FindingUpdated | FindingStatusChanged | FindingBaseline
  | FindingPlannerOpened | FindingPlannerExhausted | PlannerPromptWritten | AskDelivered |
  AskDeliveryFailed | PlannerAnswerClosed | PlannerAnswerClaimed | RunEnvProgramMissing |
  RunEnvProgramFound | LandingRecheckTargetUnwritable | LandingRecheckTargetWritable |
  ContainerRuntimeUnavailable | ContainerRuntimeAvailable | ContainerImageBuilt |
  ContainerImageFailed | CiChecked | CiTurnedRed | CiTurnedGreen | CiWatchUnavailable |
  CiWatchAvailable | CiCheckFailed | CiJobsMissing | CiScheduledChecked | CiWorkflowStale |
  CiWorkflowFresh | CiWatchHeld | CiWatchResumed | LandingBranchUnresolved |
  LandingBranchResolved | LandingRecheckMainFailed | LandingRecheckMainPassed | SessionOpened |
  SessionClosed | SessionCompacted | IdleInferred | TurnRequested | TurnStarted | TurnFinished |
  TurnSessionIdentified | ProviderExecutableRelocated | ScreenRead | ScreenInputSent |
  PlannerRequestHanded | PlannerUnresponsive | InboxNudged | InboxNudgeFailed | InboxOpened |
  InboxGuardrailReached | InboxWatcherAbsent | InboxWatcherReturned | PlannerReleased |
  PlannerAnswerWait | PlannerClosed | WrapperStopped | RequestRecorded | RequestPlannerOpened |
  RequestProposed | RequestDeclined | RequestPlannerExhausted | SessionTokens | SessionTurns |
  SupervisorStarted | SupervisorAlive | SlotsFullStarted | SlotsFullEnded | SupervisorDraining |
  SupervisorStopped | SupervisorHeartbeatRetried | SupervisorHeartbeatFailed | RunEnvChanged |
  SccacheServerDetected | SccacheServerUnhealthy | SccacheServerRestartFailed |
  SccacheServerStarted | SccacheServerStartFailed | MainCommitsRecorded | MainObserved |
  MainPathsRecorded | MainReadFailed | MainReadRecovered | MainRevertsImported | MainRewritten |
  MarkRecorded | MarkRetracted | ReportWritten | ForecastRecorded | CandidatesSampled |
  KpiBreachStarted | KpiBreachResolved | KpiPushSent | KpiPushFailed | KpiPushAbandoned |
  ClaimHeld | ClaimResumed | ConflictsConfigChanged | SupervisorConfigChanged | LandingHeld |
  LandingResumed | LiveAlertBaseline | LiveAlertInputChanged | LiveAlertStarted | LiveAlertEnded
  | LiveAlertReached | LedgerBuildFailed | AttributesBaseline | QueueHoldApplied | AskUpdated |
  AuthRequired | UsageLimited | AutoRepaired | BuildCacheRemoved | CleanupFailed |
  HeadlessJobStopped | UpdateStarted | UpdateBuilt | UpdateE2ePassed | UpdateInstalled |
  UpdateFailed | UpdateRestored | UpdateAwaitingApproval | UpdateAnswered | UpdateRetry |
  UpdateDropped | InstallE2eFinished | ReleaseChecked | ReleaseCheckFailed | ProviderHeld |
  ProviderReleased | ProviderWaiting | QueueServiceDown | QueueServiceRunning |
  QueueServiceStarted | QueueServiceStopRequested | QueueServiceStopped |
  QueueServiceUnauthenticated | QueueBrokerDenied | QueueBrokerDown | QueueBrokerRunning |
  QueueBrokerStarted | QueueBrokerStopRequested | QueueBrokerStopped | QueueBrokerTokensSwept |
  QueueRelayDown | QueueRelayRunning | QueueRelayStarted | QueueWriteHeldLong => true
  | _ => false
  end.
End EventKind.
Abbreviation EventKind := EventKind.t.

Module RecordedKind.
Inductive t : Set := Known (kind : EventKind) | Other (name : string).
#[global] Instance eq_dec : EqDecision t.
Proof. solve_decision. Defined.
Definition from_name (name : string) : t :=
  match EventKind.from_name name with Some kind => Known kind | None => Other name end.
Definition known (self : t) : option EventKind :=
  match self with Known kind => Some kind | Other _ => None end.
Definition is_in (self : t) (kinds : list EventKind) : bool :=
  is_some_and (known self) (λ kind, bool_decide (kind ∈ kinds)).
Definition as_str (self : t) : string :=
  match self with Known kind => EventKind.as_str kind | Other name => name end.
(** [self == kind]. *)
Definition is_kind (self : t) (kind : EventKind) : bool := bool_decide (known self = Some kind).

(** A row's kind reads and prints unchanged, whichever binary wrote it. *)
Lemma as_str_from_name name : as_str (from_name name) = name.
Proof.
  unfold from_name. destruct (EventKind.from_name name) as [kind|] eqn:Hkind; [|done].
  by apply EventKind.from_name_Some.
Qed.

Lemma known_from_name kind : from_name (EventKind.as_str kind) = Known kind.
Proof. unfold from_name. by rewrite EventKind.from_name_as_str. Qed.
End RecordedKind.
Abbreviation RecordedKind := RecordedKind.t.
