(* ===== verification/Events.v ===== *)
(** * Events

    A row of [run_events] as its readers take it ([RunEvent] of
    [src/src/domain/views.rs]), the check of what a kind may be written on
    ([check_event_target] of [src/src/domain/mod.rs]), and the reading and
    writing of payloads.

    A payload is a value of [serde_json], a library's: it is read and built by
    [Payload], whose laws say that what [json!] wrote reads back.  The
    instance [EventPayload.sample] meets them. *)
From S2P Require Import Prelude Text Ids Errors EventKinds.

Class Payload (P : Type) := {
  (** [Value::get]: nothing of a value that is no object. *)
  field : P → string → option P;
  as_text : P → option string;
  as_number : P → option Z;
  as_flag : P → option bool;
  as_items : P → option (list P);
  is_null : P → bool;
  is_object : P → bool;
  (** What [json!] builds. *)
  of_text : string → P;
  of_number : Z → P;
  of_flag : bool → P;
  of_items : list P → P;
  null : P;
  object : list (string * P) → P;
  (** [value[key] = value'], of an object. *)
  set_field : P → string → P → P;
}.

(** The values of [json!] read back as what they are, and as nothing else. *)
Class PayloadLaws (P : Type) `{Payload P} := {
  field_object fields key :
    field (object fields) key = snd <$> List.find (λ entry, String.eqb entry.1 key) fields;
  as_number_of_number n : as_number (of_number n) = Some n;
  as_text_of_text s : as_text (of_text s) = Some s;
  as_flag_of_flag b : as_flag (of_flag b) = Some b;
  as_number_null : as_number null = None;
  as_text_null : as_text null = None;
  is_object_object fields : is_object (object fields) = true;
  is_null_null : is_null null = true;
  is_null_of_number n : is_null (of_number n) = false;
  is_null_of_text s : is_null (of_text s) = false;
  field_set_field payload key value key' :
    is_object payload = true →
    field (set_field payload key value) key' = if String.eqb key key' then Some value else field payload key';
  is_object_set_field payload key value :
    is_object payload = true → is_object (set_field payload key value) = true;
}.

Section readers.
  Context {P : Type} `{Payload P}.

(** [payload[key].as_str()], [as_i64], [as_u64], [as_bool] and [as_array]; a
    missing key reads as [null]. *)
Definition text_of (payload : P) (key : string) : option string := field payload key ≫= as_text.
Definition number_of (payload : P) (key : string) : option Z := field payload key ≫= as_number.
Definition unsigned_of (payload : P) (key : string) : option N :=
  n ← number_of payload key; if (0 <=? n)%Z then Some (Z.to_N n) else None.
Definition flag_of (payload : P) (key : string) : option bool := field payload key ≫= as_flag.
Definition items_of (payload : P) (key : string) : option (list P) := field payload key ≫= as_items.
Definition null_at (payload : P) (key : string) : bool := is_none_or (field payload key) is_null.
(** [payload[key] == text] and [payload[key] == true]. *)
Definition text_is (payload : P) (key text : string) : bool :=
  bool_decide (text_of payload key = Some text).
Definition flag_is (payload : P) (key : string) : bool :=
  bool_decide (flag_of payload key = Some true).

(** A field of a struct as serde reads it: one the struct needs, one with a
    default, and an [Option], whose [null] and missing key read as none; a
    value of another type fails the whole. *)
Definition required {A} (read : P → option A) (payload : P) (key : string) : option A :=
  field payload key ≫= read.
Definition defaulted {A} (read : P → option A) (default : A) (payload : P) (key : string) :
    option A :=
  match field payload key with Some value => read value | None => Some default end.
Definition optional {A} (read : P → option A) (payload : P) (key : string) : option (option A) :=
  match field payload key with
  | Some value => if is_null value then Some None else Some <$> read value
  | None => Some None
  end.
(** A fixed text value, read back ([string_enum!]). *)
Definition as_enum (A : Type) `{StringEnum A} (value : P) : option A := as_text value ≫= parse_enum.

(** An optional value as [json!] writes it: [null] for none. *)
Definition or_null {A} (write : A → P) (value : option A) : P :=
  match value with Some value => write value | None => null end.

Lemma number_of_object `{!PayloadLaws P} fields key n :
  snd <$> List.find (λ entry, String.eqb entry.1 key) fields = Some (of_number n) →
  number_of (object fields) key = Some n.
Proof. unfold number_of. rewrite field_object. intros ->. apply as_number_of_number. Qed.
End readers.

(** [read_payload] reads what a known payload holds. *)
Ltac read_payload :=
  unfold text_is, flag_is, text_of, unsigned_of, number_of, flag_of;
  rewrite ?field_object; cbn [List.find List.app fst snd fmap option_fmap option_map String.eqb
    Ascii.eqb Bool.eqb mbind option_bind andb];
  rewrite ?as_number_of_number, ?as_text_of_text, ?as_flag_of_flag, ?as_number_null, ?as_text_null,
    ?is_null_null, ?is_null_of_number, ?is_null_of_text, ?is_object_object;
  cbn [mbind option_bind].

Module EventActor.
Record t : Set := mk { role : string; id : string; requested_by : option string }.
#[global] Instance eq_dec : EqDecision t.
Proof. solve_decision. Defined.
End EventActor.
Abbreviation EventActor := EventActor.t.

Module RunEvent.
Record t {P : Type} : Type := mk {
  id : EventId;
  task_id : option TaskId;
  goal_id : option GoalId;
  run_id : option RunId;
  kind : RecordedKind;
  payload : P;
  created_at : string;
  actor : option EventActor;
}.
Arguments t : clear implicits.
Arguments mk {P}.
(** [event.kind == kind] and [event.kind.is_in(kinds)]. *)
Definition is_kind {P} (self : t P) (kind' : EventKind) : bool :=
  RecordedKind.is_kind (kind self) kind'.
Definition is_in {P} (self : t P) (kinds : list EventKind) : bool :=
  RecordedKind.is_in (kind self) kinds.
Definition known {P} (self : t P) : option EventKind := RecordedKind.known (kind self).
End RunEvent.
Abbreviation RunEvent := RunEvent.t.

Definition check_event_target (kind : EventKind) (task_id : option TaskId)
    (goal_id : option GoalId) : Result unit :=
  require (is_some task_id || is_some goal_id || EventKind.is_queue kind)
    (DomainError.EventWithoutTarget (EventKind.as_str kind)).

(** ** Reading a list of events *)
Section reading.
  Context {A : Type}.

(** [iter().rev().find(p)]: the latest of a list kept oldest first. *)
Definition find_last (p : A → bool) (l : list A) : option A := List.find p (rev l).

(** The list after its last element that [p] holds of, or the whole list:
    [rposition] and a slice. *)
Fixpoint since_last (p : A → bool) (l : list A) : list A :=
  match l with
  | [] => []
  | x :: l' => if existsb p l' then since_last p l' else if p x then l' else l
  end.

Definition count_of (p : A → bool) (l : list A) : nat := length (List.filter p l).

Lemma find_last_app p l x :
  find_last p (l ++ [x]) = if p x then Some x else find_last p l.
Proof. unfold find_last. rewrite rev_app_distr. simpl. by destruct (p x). Qed.

Lemma find_last_None p l : find_last p l = None ↔ ∀ x, x ∈ l → p x = false.
Proof.
  induction l as [|x l IH] using rev_ind; [split; [set_solver|done]|].
  rewrite find_last_app. setoid_rewrite elem_of_app. setoid_rewrite list_elem_of_singleton.
  destruct (p x) eqn:Hx; [split; [done|]|rewrite IH; naive_solver].
  intros Hall. by rewrite (Hall x) in Hx; [|by right].
Qed.

Lemma find_last_Some p l x :
  find_last p l = Some x ↔
  p x = true ∧ ∃ before after, l = before ++ x :: after ∧ ∀ y, y ∈ after → p y = false.
Proof.
  induction l as [|y l IH] using rev_ind.
  { split; [done|]. intros (_ & [|??] & ? & ? & _); done. }
  rewrite find_last_app. destruct (p y) eqn:Hy.
  - split.
    + intros [= <-]. split; [done|]. exists l, []. split; [done|]. set_solver.
    + intros (Hx & before & after & Heq & Hafter). f_equal.
      destruct after as [|z after _] using rev_ind; [by apply app_inj_tail in Heq as [_ ->]|].
      exfalso. rewrite app_comm_cons, app_assoc in Heq. apply app_inj_tail in Heq as [_ <-].
      rewrite Hafter in Hy; [done|]. set_solver.
  - rewrite IH. split.
    + intros (Hx & before & after & -> & Hafter). split; [done|].
      exists before, (after ++ [y]). split; [by rewrite <-app_assoc|]. set_solver.
    + intros (Hx & before & after & Heq & Hafter). split; [done|].
      destruct after as [|z after _] using rev_ind.
      { apply app_inj_tail in Heq as [_ ->]. congruence. }
      rewrite app_comm_cons, app_assoc in Heq. apply app_inj_tail in Heq as [-> _].
      exists before, after. split; [done|]. set_solver.
Qed.

Lemma existsb_app_one (p : A → bool) l x : existsb p (l ++ [x]) = existsb p l || p x.
Proof. rewrite existsb_app. simpl. by rewrite orb_false_r. Qed.

Lemma since_last_app p l x :
  since_last p (l ++ [x]) = if p x then [] else since_last p l ++ [x].
Proof.
  induction l as [|y l IH]; simpl; [by destruct (p x)|].
  rewrite existsb_app_one. destruct (p x) eqn:Hx.
  - by rewrite orb_true_r, IH.
  - rewrite orb_false_r. destruct (existsb p l); [by rewrite IH|]. by destruct (p y).
Qed.

Lemma count_of_app p l x : count_of p (l ++ [x]) = count_of p l + (if p x then 1 else 0).
Proof.
  unfold count_of. rewrite List.filter_app, length_app. simpl. by destruct (p x).
Qed.

(** [p] holds of each element of [rest] and what comes before it. *)
Fixpoint at_each (p : list A → A → bool) (before rest : list A) : bool :=
  match rest with
  | [] => true
  | x :: rest => p before x && at_each p (before ++ [x]) rest
  end.

Lemma at_each_spec p before0 l :
  at_each p before0 l = true ↔
  ∀ before x after, l = before ++ x :: after → p (before0 ++ before) x = true.
Proof.
  revert before0. induction l as [|y l IH]; intros before0; simpl.
  { split; [|done]. by intros _ [|??]. }
  rewrite andb_true_iff, IH. split.
  - intros [Hy Hl] [|z before] x after; simpl; intros [= <- Heq]; [by rewrite app_nil_r|].
    rewrite cons_middle, app_assoc. by apply (Hl before x after).
  - intros Hall. split; [rewrite <-(app_nil_r before0); by apply (Hall [] y l)|].
    intros before x after ->. rewrite <-app_assoc. by apply (Hall (y :: before) x after).
Qed.
End reading.

(** ** A library of JSON values that meets the laws *)
Module EventPayload.
Inductive t : Set :=
  | Null
  | Flag (b : bool)
  | Number (n : Z)
  | Text (s : string)
  | Items (l : list t)
  | Object (fields : list (string * t)).
#[global] Instance sample : Payload t := {|
  field payload key :=
    match payload with
    | Object fields => snd <$> List.find (λ entry, String.eqb entry.1 key) fields
    | _ => None
    end;
  as_text payload := match payload with Text s => Some s | _ => None end;
  as_number payload := match payload with Number n => Some n | _ => None end;
  as_flag payload := match payload with Flag b => Some b | _ => None end;
  as_items payload := match payload with Items l => Some l | _ => None end;
  is_null payload := match payload with Null => true | _ => false end;
  is_object payload := match payload with Object _ => true | _ => false end;
  of_text := Text;
  of_number := Number;
  of_flag := Flag;
  of_items := Items;
  null := Null;
  object := Object;
  set_field payload key value :=
    match payload with
    | Object fields =>
        Object ((key, value) :: List.filter (λ entry, negb (String.eqb entry.1 key)) fields)
    | other => other
    end;
|}.
Lemma find_others key key' (fields : list (string * t)) :
  String.eqb key key' = false →
  List.find (λ entry, String.eqb entry.1 key')
    (List.filter (λ entry, negb (String.eqb entry.1 key)) fields)
  = List.find (λ entry, String.eqb entry.1 key') fields.
Proof.
  intros Hother. induction fields as [|[name value] fields IH]; simpl; [done|].
  destruct (String.eqb_spec name key) as [->|]; simpl; [by rewrite Hother|by rewrite IH].
Qed.
#[global] Instance sample_laws : PayloadLaws t.
Proof.
  split; try done; intros [| | | | |fields] key value; try done.
  intros key' _. simpl. destruct (String.eqb key key') eqn:Hkey; [done|]. simpl. by rewrite find_others.
Qed.
End EventPayload.
