(* ===== verification/Reasons.v ===== *)
(** * Reason codes

    [src/src/domain/reason.rs]: why a run failed, waits for a session or was
    interrupted, as the code of an event says it, and the events whose code
    explains the run's current error. *)
From S2P Require Import Prelude Text Vocab Ids EventKinds Events.

Module ReasonCode.
Inductive t : Set :=
  | SessionExitCode
  | SessionKilled
  | ExitTimeout
  | HeartbeatLost
  | WrapperFailed
  | LeaseLost
  | ReceiptMissing
  | ReceiptInvalid
  | WorkerFailed
  | EvidenceFailed
  | EvidenceMissing
  | SpikeResultMissing
  | CommitMismatch
  | WorktreeDirty
  | ScopeViolation
  | RebaseConflict
  | RebaseEmpty
  | RebaseInProgress
  | MigrationNumberTaken
  | VerificationFailed
  | VerificationEnvironment
  | VerificationFlaky
  | E2eFailed
  | BackendTimeout
  | BackendFailed
  | JobFailed
  | SentBack
  | Cancelled
  | TriageResume
  | ResumeExhausted
  | SessionGone
  | ReplanParked
  | Held
  | Orphaned
  | PushFailed
  | GitFailed
  | Released
  | HoldCanceled
  | Other.
#[global] Instance eq_dec : EqDecision t.
Proof. solve_decision. Defined.
Definition as_str (v : t) : string :=
  match v with
  | SessionExitCode => "session_exit_code"
  | SessionKilled => "session_killed"
  | ExitTimeout => "exit_timeout"
  | HeartbeatLost => "heartbeat_lost"
  | WrapperFailed => "wrapper_failed"
  | LeaseLost => "lease_lost"
  | ReceiptMissing => "receipt_missing"
  | ReceiptInvalid => "receipt_invalid"
  | WorkerFailed => "worker_failed"
  | EvidenceFailed => "evidence_failed"
  | EvidenceMissing => "evidence_missing"
  | SpikeResultMissing => "spike_result_missing"
  | CommitMismatch => "commit_mismatch"
  | WorktreeDirty => "worktree_dirty"
  | ScopeViolation => "scope_violation"
  | RebaseConflict => "rebase_conflict"
  | RebaseEmpty => "rebase_empty"
  | RebaseInProgress => "rebase_in_progress"
  | MigrationNumberTaken => "migration_number_taken"
  | VerificationFailed => "verification_failed"
  | VerificationEnvironment => "verification_environment"
  | VerificationFlaky => "verification_flaky"
  | E2eFailed => "e2e_failed"
  | BackendTimeout => "backend_timeout"
  | BackendFailed => "backend_failed"
  | JobFailed => "job_failed"
  | SentBack => "sent_back"
  | Cancelled => "cancelled"
  | TriageResume => "triage_resume"
  | ResumeExhausted => "resume_exhausted"
  | SessionGone => "session_gone"
  | ReplanParked => "replan_parked"
  | Held => "held"
  | Orphaned => "orphaned"
  | PushFailed => "push_failed"
  | GitFailed => "git_failed"
  | Released => "released"
  | HoldCanceled => "hold_canceled"
  | Other => "other"
  end.
Definition ALL : list t :=
  [SessionExitCode; SessionKilled; ExitTimeout; HeartbeatLost; WrapperFailed;
   LeaseLost; ReceiptMissing; ReceiptInvalid; WorkerFailed; EvidenceFailed;
   EvidenceMissing; SpikeResultMissing; CommitMismatch; WorktreeDirty;
   ScopeViolation; RebaseConflict; RebaseEmpty; RebaseInProgress;
   MigrationNumberTaken; VerificationFailed; VerificationEnvironment;
   VerificationFlaky; E2eFailed; BackendTimeout; BackendFailed; JobFailed;
   SentBack; Cancelled; TriageResume; ResumeExhausted; SessionGone; ReplanParked;
   Held; Orphaned; PushFailed; GitFailed; Released; HoldCanceled; Other].
#[global] Instance string_enum : StringEnum t := Build_StringEnum t "ReasonCode" as_str ALL.
#[global] Instance laws : StringEnumLaws t.
Proof. string_enum_laws. Qed.
Definition parse (value : string) : option t := parse_enum value.

Definition of_exit_code (exit_code : Z) : t :=
  if (128 <=? exit_code)%Z then SessionKilled else SessionExitCode.
End ReasonCode.
Abbreviation ReasonCode := ReasonCode.t.

Definition CODE_KEY : string := "code".

Section reasons.
  Context {P : Type} `{Payload P}.

(** The code an event carries, if any. *)
Definition event_code (event : RunEvent P) : option ReasonCode :=
  text_of (RunEvent.payload event) CODE_KEY ≫= ReasonCode.parse.

Definition explains_last_error (event : RunEvent P) : bool :=
  let payload := RunEvent.payload event in
  match RecordedKind.known (RunEvent.kind event) with
  | Some EventKind.SupervisionFinished | Some EventKind.ValidationFinished
  | Some EventKind.IntegrationDeferred | Some EventKind.IntegrationFailed
  | Some EventKind.IntegrationError | Some EventKind.IntegrationHeld
  | Some EventKind.RuntimeError | Some EventKind.LandingDecided
  | Some EventKind.SessionGoneParked | Some EventKind.ReplanParked
  | Some EventKind.HoldParked | Some EventKind.RunE2eFailed => true
  | Some EventKind.RunRecovered => text_is payload "status" "interrupted"
  | Some EventKind.CleanupFailed =>
      negb (text_is payload "by" "triage" || text_is payload "by" "supervisor")
  | Some EventKind.TriageFinished | Some EventKind.TriageDecided
  | Some EventKind.RecoveryRequested => is_some (field payload CODE_KEY)
  | Some EventKind.ResumeFinished => text_is payload "status" "failed"
  | _ => false
  end.
End reasons.
