(* ===== verification/Reviews.v ===== *)
(** * What a run's events say of its reviews and rechecks

    Readers of single events that the folds over a run's history share:
    whether a recorded review lets the run land ([lets_land] of
    [src/src/domain/concern.rs], [judged_converged] of
    [src/src/domain/review_reason.rs]), where its review stands
    ([review_anchor] of [src/src/domain/mod.rs]), what a failed recheck did
    ([src/src/domain/recheck.rs]) and the limit of revises an attempt read
    ([ReviseLimit] of [src/src/domain/mod.rs]). *)
From S2P Require Import Prelude Text Vocab Ids EventKinds Events Concern.

Section reviews.
  Context {P : Type} `{Payload P}.

Definition lets_land (review : P) : bool :=
  match field review "route" ≫= λ route, text_of route "destination" with
  | Some destination => bool_decide (destination = "land")
  | None =>
      match text_of review "verdict" with
      | Some "pass" => true
      | Some "concern" =>
          bool_decide
            (decide_concern (known (text_of review "recommendation"))
               (known (text_of review "confidence"))
               (reason (text_of review "reason_category")) true = ConcernDecision.Land)
      | _ => false
      end
  end.

Definition judged_converged (event : RunEvent P) : bool :=
  RunEvent.is_kind event EventKind.ReviseLimitJudged
  && flag_is (RunEvent.payload event) "converged".

Definition review_anchor (events : list (RunEvent P)) : option (RunEvent P) :=
  find_last
    (λ e, RunEvent.is_in e
       [EventKind.ValidationFinished; EventKind.ReviewStarted; EventKind.ReviewFinished;
        EventKind.ReviseRequested; EventKind.ReviseUnsent; EventKind.ReviseFinished;
        EventKind.ConflictPrecheck; EventKind.ConflictResolved]) events.

(** ** Rechecks *)
Definition RESUMED : string := "resumed".
Definition HELD : string := "held".
Definition SKIPPED : string := "skipped".

Definition recheck_parks (event : RunEvent P) : bool :=
  RunEvent.is_kind event EventKind.LandingRecheckFailed
  && text_is (RunEvent.payload event) "action" RESUMED.

(** [RecordedFailure::restore(event).skipped()] and [environmental()]. *)
Definition skipped (event : RunEvent P) : bool :=
  text_is (RunEvent.payload event) "action" SKIPPED.
Definition environmental (event : RunEvent P) : bool :=
  skipped event && negb (flag_is (RunEvent.payload event) "main_failed").

Definition held_against (events : list (RunEvent P)) (main head : string) :
    option (RunEvent P) :=
  e ← find_last (λ e, RunEvent.is_kind e EventKind.LandingRecheckFailed) events;
  if text_is (RunEvent.payload e) "action" HELD && text_is (RunEvent.payload e) "main" main
     && text_is (RunEvent.payload e) "head" head
  then Some e else None.
End reviews.

(** ** The limit of revises *)
Definition MAX_REVISE_ATTEMPTS : nat := 2.
Module ReviseLimit.
(** [usize] of 64 bits. *)
Record t : Set := wrap { get : nat }.
#[global] Instance eq_dec : EqDecision t.
Proof. solve_decision. Defined.
Definition RECORDED : string := "revise_limit".
Definition new (limit : nat) : option t := then_some (1 <=? limit)%nat (wrap limit).
Definition recorded {P} `{Payload P} (payload : P) : option t :=
  limit ← unsigned_of payload RECORDED; new (N.to_nat limit).
Definition default : t := wrap MAX_REVISE_ATTEMPTS.

Lemma new_Some limit l : new limit = Some l ↔ l = wrap limit ∧ 1 ≤ limit.
Proof.
  unfold new, then_some. destruct (1 <=? limit)%nat eqn:Hle.
  - apply Nat.leb_le in Hle. naive_solver.
  - apply Nat.leb_gt in Hle. split; [done|lia].
Qed.

Lemma recorded_positive {P} `{Payload P} (payload : P) l : recorded payload = Some l → 1 ≤ get l.
Proof.
  unfold recorded. intros (n & _ & Hl)%bind_Some. by apply new_Some in Hl as [-> ?].
Qed.
End ReviseLimit.
Abbreviation ReviseLimit := ReviseLimit.t.
