(* ===== verification/Resumes.v ===== *)
(** * The resumes of a run

    [src/src/domain/resume.rs]: how the resumes of a run that waits for a
    session are counted from its events, when they are used up, how the next
    one starts, and which run's work the next run of the task inherits.

    The fold goes over the events one by one, as the source's loop does: what
    the events so far say of the run ([Parked]), the counts, and the resume in
    progress.  An uncounted resume that turns out to have met only its
    provider's wall is taken back out of the count it started in. *)
From S2P Require Import Prelude Text Vocab Ids EventKinds Events Reasons Reviews.

Definition CONFLICT_ONLY_RESUME_LIMIT : nat := 5.
Definition KILL_ONLY_RESUME_LIMIT : nat := 3.
Definition PROVIDER_ONLY_RESUME_LIMIT : nat := 3.
Definition MAX_RESUME_ATTEMPTS : nat := 3.

Module ResumeConfig.
Record t : Set := mk { conflict_only_limit : nat }.
Definition default : t := mk CONFLICT_ONLY_RESUME_LIMIT.
End ResumeConfig.
Abbreviation ResumeConfig := ResumeConfig.t.

Definition RETRY_INHERIT : string := "retry_inherit".

(** [SwitchReason::of_failure] of [src/src/domain/provider_switch.rs]. *)
Definition of_failure (failure : TurnFailure) : option SwitchReason :=
  match failure with
  | TurnFailure.Authentication => Some SwitchReason.Authentication
  | TurnFailure.UsageLimit => Some SwitchReason.UsageLimit
  | TurnFailure.Launch => Some SwitchReason.LaunchFailed
  | TurnFailure.Model | TurnFailure.Sandbox | TurnFailure.Other => None
  end.

(** The events that park a run for a session. *)
Definition PARKING : list EventKind :=
  [EventKind.IntegrationDeferred; EventKind.IntegrationError; EventKind.EvidenceMissing;
   EventKind.ScopeViolation; EventKind.LandingDecided; EventKind.TriageFinished;
   EventKind.TriageDecided; EventKind.SessionGoneParked; EventKind.RunE2eFailed;
   EventKind.ReplanParked; EventKind.HoldParked].

(** What the events so far say about the run: the source's [History]. *)
Module Parked.
Record t : Set := mk {
  approved : bool;
  passed : bool;
  conflict : bool;
  rechecked : bool;
  killed : bool;
  sent_back : bool;
  held : bool;
  error : option ReasonCode;
}.
#[global] Instance updatable : Updatable t :=
  λ h, mk (approved h) (passed h) (conflict h) (rechecked h) (killed h) (sent_back h) (held h)
    (error h).
Definition default : t := mk false false false false false false false None.

Section see.
  Context {P : Type} `{Payload P}.

Definition parks (event : RunEvent P) : bool :=
  RunEvent.is_in event PARKING || recheck_parks event.

(** What a parking event of [kind] makes of the run. *)
Definition park (self : t) (event : RunEvent P) (kind : EventKind) : t :=
  self
    <| conflict :=
         (bool_decide (kind = EventKind.IntegrationDeferred)
          || bool_decide (kind = EventKind.LandingRecheckFailed))
         && text_is (RunEvent.payload event) "code" (as_str ReasonCode.RebaseConflict) |>
    <| rechecked := bool_decide (kind = EventKind.LandingRecheckFailed) |>
    <| killed :=
         (bool_decide (kind = EventKind.TriageFinished)
          || bool_decide (kind = EventKind.TriageDecided))
         && bool_decide (event_code event = Some ReasonCode.TriageResume)
         && bool_decide (error self = Some ReasonCode.SessionKilled) |>
    <| sent_back :=
         bool_decide (kind = EventKind.LandingDecided)
         && bool_decide (event_code event = Some ReasonCode.SentBack) |>
    <| held := bool_decide (kind = EventKind.HoldParked) |>.

Definition see_park (self : t) (event : RunEvent P) : t :=
  if RunEvent.is_kind event EventKind.IntegrationApproved then self <| approved := true |>
  else if RunEvent.is_kind event EventKind.ReviewFinished
  then self <| passed := lets_land (RunEvent.payload event) |>
  else if judged_converged event then self <| passed := true |>
  else if parks event then
    match RunEvent.known event with Some kind => park self event kind | None => self end
  else if RunEvent.is_kind event EventKind.ResumeStarted
  then self <| killed := false |> <| sent_back := false |> <| held := false |>
  else self.

Definition see (self : t) (event : RunEvent P) : t :=
  let self := see_park self event in
  if explains_last_error event then self <| error := event_code event |> else self.

Definition history (events : list (RunEvent P)) : t := foldl see default events.
End see.

Definition kill_only (self : t) : bool := killed self.
Definition hold_only (self : t) : bool := held self.
Definition conflict_only (self : t) : bool :=
  conflict self && (approved self || passed self || rechecked self).
Definition reviewed_conflict (self : t) : bool := conflict self && (approved self || passed self).
End Parked.
Abbreviation Parked := Parked.t.

Module ConflictOnly.
Record t : Set := mk { passed : bool; approved : bool; rechecked : bool }.
End ConflictOnly.
Abbreviation ConflictOnly := ConflictOnly.t.

Section parked.
  Context {P : Type} `{Payload P}.
  Implicit Types events : list (RunEvent P).

Definition parked_for_conflict_only events : bool := Parked.conflict_only (Parked.history events).
Definition conflict_only_basis events : option ConflictOnly :=
  let history := Parked.history events in
  then_some (Parked.conflict_only history)
    (ConflictOnly.mk (Parked.passed history) (Parked.approved history) (Parked.rechecked history)).
Definition parked_by_recheck events : bool := Parked.rechecked (Parked.history events).
Definition parked_for_kill_only events : bool := Parked.kill_only (Parked.history events).
Definition parked_for_hold events : bool := Parked.hold_only (Parked.history events).
End parked.

(** Where a resume was counted as it started. *)
Module Started.
Inductive t : Set := Counted | ConflictOnly | Held | KillOnly.
#[global] Instance eq_dec : EqDecision t.
Proof. solve_decision. Defined.
End Started.
Abbreviation Started := Started.t.

(** What the events show of the resume in progress. *)
Module Resuming.
(** [request_head] is the head the request was sent at, kept as the text of
    its value: it is only compared with one that is a text. *)
Record t : Set := mk {
  walled : bool;
  worked : bool;
  request_head : option (option string);
}.
#[global] Instance updatable : Updatable t :=
  λ r, mk (walled r) (worked r) (request_head r).
Definition default : t := mk false false None.

Section see.
  Context {P : Type} `{Payload P}.

Definition see (self : t) (event : RunEvent P) : t :=
  let payload := RunEvent.payload event in
  if RunEvent.is_kind event EventKind.TurnFinished then
    let failure := text_of payload "failure" ≫= (@parse_enum TurnFailure _) in
    if text_is payload "outcome" (as_str TurnOutcome.Failed)
       && is_some_and failure (λ failure, is_some (of_failure failure))
    then self <| walled := true |>
    else if negb (text_is payload "outcome" (as_str TurnOutcome.Stopped))
    then self <| worked := true |>
    else self
  else if RunEvent.is_kind event EventKind.ResumeRequestSent
  then self <| request_head := Some (text_of payload "head") |>
  else self.

Definition provider_only (self : t) (finished : P) : bool :=
  walled self && negb (worked self)
  && text_is finished "outcome" "unresolved"
  && bool_decide (flag_of finished "receipt_rewritten" = Some false)
  && is_some (text_of finished "head")
  && bool_decide (request_head self = Some (text_of finished "head")).
End see.
End Resuming.
Abbreviation Resuming := Resuming.t.

Section provider_only.
  Context {P : Type} `{Payload P}.

Definition provider_only_resume (events : list (RunEvent P)) (finished : P) : bool :=
  if existsb (λ e, RunEvent.is_kind e EventKind.ResumeStarted) events
  then Resuming.provider_only
         (foldl Resuming.see Resuming.default
            (since_last (λ e, RunEvent.is_kind e EventKind.ResumeStarted) events)) finished
  else false.

(** [provider_waiting]'s [phase] for a run whose next resume waits. *)
Definition RESUME_WAIT_PHASE : string := "resume".

Definition resume_wait_recorded (events : list (RunEvent P)) : bool :=
  is_some_and
    (find_last
       (λ e, RunEvent.is_in e
               [EventKind.ProviderWaiting; EventKind.ResumeStarted; EventKind.ResumeSkipped]
             || Parked.parks e) events)
    (λ e, RunEvent.is_kind e EventKind.ProviderWaiting
          && text_is (RunEvent.payload e) "phase" RESUME_WAIT_PHASE).
End provider_only.

Definition waits_for_provider (gated : bool) (held : option SwitchReason)
    (fallback may_switch other_usable : bool) : bool :=
  gated && is_some held && negb (fallback && may_switch && other_usable).

Module ResumeCount.
Record t : Set := mk {
  counted : nat;
  conflict_only : nat;
  kill_only : nat;
  held : nat;
  conflict_requests : nat;
  parked_for_conflict : bool;
  parked_for_send_back : bool;
  parked_for_hold : bool;
  provider_only : nat;
  after_provider_only : bool;
}.
#[global] Instance eq_dec : EqDecision t.
Proof. solve_decision. Defined.
#[global] Instance updatable : Updatable t :=
  λ c, mk (counted c) (conflict_only c) (kill_only c) (held c) (conflict_requests c)
    (parked_for_conflict c) (parked_for_send_back c) (parked_for_hold c) (provider_only c)
    (after_provider_only c).
Definition default : t := mk 0 0 0 0 0 false false false 0 false.

Definition conflict_attempts (self : t) : nat := conflict_only self + conflict_requests self.
Definition total (self : t) : nat :=
  counted self + conflict_only self + kill_only self + held self + provider_only self.
Definition waits_on_a_held_provider (self : t) : bool :=
  parked_for_conflict self || after_provider_only self.
Definition left (self : t) : nat := MAX_RESUME_ATTEMPTS - counted self.
Definition exhausted (self : t) (config : ResumeConfig) : bool :=
  let limit := ResumeConfig.conflict_only_limit config in
  negb (parked_for_hold self)
  && ((MAX_RESUME_ATTEMPTS <=? counted self)%nat
      || (KILL_ONLY_RESUME_LIMIT <=? kill_only self)%nat
      || (PROVIDER_ONLY_RESUME_LIMIT <=? provider_only self)%nat
      || ((limit <=? conflict_only self)%nat && negb (parked_for_send_back self))
      || (parked_for_conflict self && (limit <=? conflict_attempts self)%nat)).

(** The state of the loop of [of_events]. *)
Record state : Set := mk_state {
  history : Parked;
  count : t;
  withdrawn : nat;
  (** Where the resume in progress was counted, whether a [send_back] parked
      it, and what its session showed. *)
  resuming : option (Started * bool * Resuming);
}.
#[global] Instance state_updatable : Updatable state :=
  λ s, mk_state (history s) (count s) (withdrawn s) (resuming s).
Definition start : state := mk_state Parked.default default 0 None.

Definition started_as (history : Parked) : Started :=
  if Parked.conflict_only history then Started.ConflictOnly
  else if Parked.hold_only history then Started.Held
  else if Parked.kill_only history then Started.KillOnly
  else Started.Counted.

Definition count_started (self : t) (started : Started) : t :=
  (match started with
   | Started.ConflictOnly => self <| conflict_only := S (conflict_only self) |>
   | Started.Held => self <| held := S (held self) |>
   | Started.KillOnly => self <| kill_only := S (kill_only self) |>
   | Started.Counted => self <| counted := S (counted self) |>
   end) <| after_provider_only := false |>.

(** A [usize] subtraction: [take_back_enough] shows it stays in its range. *)
Definition take_back (self : t) (started : Started) : t :=
  (match started with
   | Started.Counted => self <| counted := counted self - 1 |>
   | _ => self <| conflict_only := conflict_only self - 1 |>
   end) <| provider_only := S (provider_only self) |>.

Section fold.
  Context {P : Type} `{Payload P}.

(** What the end of the resume in progress does: [None] when the loop goes on
    to [history.see] by itself. *)
Definition finish (s : state) (event : RunEvent P) : state :=
  let s' := s <| resuming := None |> in
  match resuming s with
  | Some (started, sent_back, facts) =>
      if Resuming.provider_only facts (RunEvent.payload event) then
        let c := count s <| after_provider_only := true |> in
        match started with
        | Started.Counted | Started.ConflictOnly =>
            s' <| count := take_back c started |>
               <| history := Parked.see (history s) event
                    <| Parked.sent_back := sent_back |> |>
        | _ => s' <| count := c |> <| history := Parked.see (history s) event |>
        end
      else s' <| history := Parked.see (history s) event |>
  | None => s' <| history := Parked.see (history s) event |>
  end.

Definition step (s : state) (event : RunEvent P) : state :=
  let s := s <| resuming :=
    (λ '(started, sent_back, facts), (started, sent_back, Resuming.see facts event)) <$>
      resuming s |> in
  if RunEvent.is_kind event EventKind.ResumeStarted then
    let started := started_as (history s) in
    s <| resuming := Some (started, Parked.sent_back (history s), Resuming.default) |>
      <| count := count_started (count s) started |>
      <| history := Parked.see (history s) event |>
  else if RunEvent.is_kind event EventKind.ResumeFinished then finish s event
  else if RunEvent.is_kind event EventKind.ConflictPrecheck then
    s <| count :=
           (if flag_is (RunEvent.payload event) "requested"
            then count s <| conflict_requests := S (conflict_requests (count s)) |>
            else count s) |>
      <| withdrawn :=
           (if flag_is (RunEvent.payload event) "unsent" then S (withdrawn s) else withdrawn s) |>
      <| history := Parked.see (history s) event |>
  else s <| history := Parked.see (history s) event |>.

Definition finished_count (s : state) : t :=
  count s
    <| conflict_requests := conflict_requests (count s) - withdrawn s |>
    <| parked_for_conflict := Parked.conflict_only (history s) |>
    <| parked_for_send_back := Parked.sent_back (history s) |>
    <| parked_for_hold := Parked.hold_only (history s) |>.

Definition fold_events (events : list (RunEvent P)) : state := foldl step start events.
Definition of_ (events : list (RunEvent P)) : t := finished_count (fold_events events).

Definition after_finish (events : list (RunEvent P)) (finished : P) : t :=
  of_ (events ++
      [RunEvent.mk (EventId.new 0) None None None (RecordedKind.Known EventKind.ResumeFinished)
         finished EmptyString None]).
End fold.
End ResumeCount.
Abbreviation ResumeCount := ResumeCount.t.

(** *** The next resume *)
Section next_resume.
  Context {P : Type} `{Payload P}.
  Implicit Types events : list (RunEvent P).

(** [finish_provider_only]: the finished payload as marked, and the payload
    of the repair's record. *)
Definition finish_provider_only events (finished : P) : option (P * P) :=
  let resumes := ResumeCount.after_finish events finished in
  if bool_decide (ResumeCount.provider_only resumes =
                  ResumeCount.provider_only (ResumeCount.of_ events))
  then None
  else Some
    (set_field (set_field finished "counted" (of_flag false)) "provider_only" (of_flag true),
     object
       [("layer", of_text "runtime");
        ("repair", of_text "provider_resume_uncounted");
        ("conditions", object
           [("turns", of_text "provider_wall");
            ("commit", of_flag false);
            ("receipt_rewritten", of_flag false);
            ("counted_resumes", of_number (Z.of_nat (ResumeCount.counted resumes)));
            ("conflict_only_resumes", of_number (Z.of_nat (ResumeCount.conflict_only resumes)));
            ("provider_only_resumes", of_number (Z.of_nat (ResumeCount.provider_only resumes)))]);
        ("detail", object
           [("attempt", unwrap_or (field finished "attempt") null);
            ("head", unwrap_or (field finished "head") null)])]).

Definition send_back_resumes events (config : ResumeConfig) : bool :=
  negb (ResumeCount.exhausted
          (ResumeCount.of_ events
             <| ResumeCount.parked_for_send_back := true |>
             <| ResumeCount.parked_for_conflict := false |>
             <| ResumeCount.parked_for_hold := false |>) config).

Definition resume_repair (repair : string) (conditions : list (string * P)) (attempt : nat)
    (main : CommitSha) : P :=
  object
    [("layer", of_text "runtime"); ("repair", of_text repair);
     ("conditions", object conditions);
     ("detail", object
        [("attempt", of_number (Z.of_nat attempt)); ("main", of_text (CommitSha.as_str main))])].

Definition resume_start_repair events (main : CommitSha) : option P :=
  let resumes := ResumeCount.of_ events in
  let attempt := S (ResumeCount.total resumes) in
  let number n := of_number (Z.of_nat n) in
  match conflict_only_basis events with
  | Some basis =>
      Some (resume_repair "conflict_resume_uncounted"
        [("review_passed", of_flag (ConflictOnly.passed basis));
         ("landing_approved", of_flag (ConflictOnly.approved basis));
         ("rechecked", of_flag (ConflictOnly.rechecked basis));
         ("parked", of_text (as_str ReasonCode.RebaseConflict));
         ("counted_resumes", number (ResumeCount.counted resumes));
         ("conflict_only_resumes", number (S (ResumeCount.conflict_only resumes)))] attempt main)
  | None =>
      if ResumeCount.parked_for_hold resumes then
        let hold :=
          e ← find_last (λ e, RunEvent.is_kind e EventKind.HoldParked) events;
          field (RunEvent.payload e) "hold_id" in
        Some (resume_repair "hold_resume_uncounted"
          [("parked", of_text (EventKind.as_str EventKind.HoldParked));
           ("hold_id", unwrap_or hold null);
           ("counted_resumes", number (ResumeCount.counted resumes));
           ("hold_resumes", number (S (ResumeCount.held resumes)))] attempt main)
      else if parked_for_kill_only events then
        Some (resume_repair "kill_resume_uncounted"
          [("parked", of_text (as_str ReasonCode.SessionKilled));
           ("counted_resumes", number (ResumeCount.counted resumes));
           ("kill_only_resumes", number (S (ResumeCount.kill_only resumes)))] attempt main)
      else None
  end.

Definition is_inherit_retry (event : RunEvent P) : bool :=
  RunEvent.is_kind event EventKind.TriageFinished
  && text_is (RunEvent.payload event) "action" RETRY_INHERIT.
Definition is_inherit_retry_by_hand (event : RunEvent P) : bool :=
  is_inherit_retry event
  && (text_is (RunEvent.payload event) "by" "user" || text_is (RunEvent.payload event) "by" "inbox").
Definition uses_automatic_inherit (event : RunEvent P) : bool :=
  is_inherit_retry event && negb (is_inherit_retry_by_hand event).
Definition inherits_on_exhaustion run_events task_events : bool :=
  Parked.reviewed_conflict (Parked.history run_events)
  && negb (existsb uses_automatic_inherit task_events).
Definition retried_with_inheritance run_events : bool :=
  is_some_and
    (find_last
       (λ e, RunEvent.is_in e [EventKind.TriageFinished; EventKind.TriageDecided]) run_events)
    is_inherit_retry.
End next_resume.

(** How the next resume of a run starts. *)
Module ResumeStart.
Record t {P : Type} : Type := mk { attempt : nat; counted : bool; repair : option P }.
Arguments t : clear implicits.
Arguments mk {P}.
End ResumeStart.
Abbreviation ResumeStart := ResumeStart.t.

Definition resume_start_plan {P} `{Payload P} (events : list (RunEvent P)) (main : CommitSha) :
    ResumeStart P :=
  let repair := resume_start_repair events main in
  ResumeStart.mk (S (ResumeCount.total (ResumeCount.of_ events))) (is_none repair) repair.

(** How a run whose resumes are used up ends. *)
Module Exhaustion.
Inductive t : Set := Recover | Inherit (branch : option string) (head : CommitSha).
End Exhaustion.
Abbreviation Exhaustion := Exhaustion.t.

(** ** What the counts say *)
Module ResumeProofs.
Section counts.
  Context {P : Type} `{Payload P}.
  Implicit Types (events : list (RunEvent P)) (e : RunEvent P) (h : Parked).

Abbreviation started e := (RunEvent.is_kind e EventKind.ResumeStarted).
Abbreviation hold_parked e := (RunEvent.is_kind e EventKind.HoldParked).

Lemma is_kind_known e k : RunEvent.is_kind e k = true ↔ RunEvent.known e = Some k.
Proof. unfold RunEvent.is_kind, RecordedKind.is_kind, RunEvent.known. apply bool_decide_eq_true. Qed.

Lemma is_kind_other e k k' :
  RunEvent.is_kind e k = true → k ≠ k' → RunEvent.is_kind e k' = false.
Proof.
  intros Hk Hne. apply not_true_iff_false. rewrite is_kind_known in *. congruence.
Qed.

Lemma fold_events_app events e :
  ResumeCount.fold_events (events ++ [e]) = ResumeCount.step (ResumeCount.fold_events events) e.
Proof. unfold ResumeCount.fold_events. by rewrite foldl_app. Qed.

Lemma history_app events e :
  Parked.history (events ++ [e]) = Parked.see (Parked.history events) e.
Proof. unfold Parked.history. by rewrite foldl_app. Qed.

(** Only a hold's park makes the run held, and it is no conflict's. *)
Lemma see_error h e :
  ∃ error, Parked.see h e = Parked.see_park h e <| Parked.error := error |>.
Proof.
  unfold Parked.see. destruct (explains_last_error e); [by eexists|].
  exists (Parked.error (Parked.see_park h e)). by destruct (Parked.see_park h e).
Qed.

Lemma see_held h e :
  Parked.held (Parked.see h e) = true →
  (hold_parked e = true ∧ Parked.conflict (Parked.see h e) = false)
  ∨ (Parked.held h = true ∧ started e = false
     ∧ Parked.conflict (Parked.see h e) = Parked.conflict h).
Proof.
  destruct (see_error h e) as [error ->]. simpl. unfold Parked.see_park.
  destruct (RunEvent.is_kind e EventKind.IntegrationApproved) eqn:Happ.
  { intros Hheld. right. split; [done|]. split; [by eapply is_kind_other|done]. }
  destruct (RunEvent.is_kind e EventKind.ReviewFinished) eqn:Hrev.
  { intros Hheld. right. split; [done|]. split; [by eapply is_kind_other|done]. }
  destruct (judged_converged e) eqn:Hconv.
  { intros Hheld. right. split; [done|]. split; [|done]. unfold judged_converged in Hconv.
    apply andb_true_iff in Hconv as [Hk _]. by eapply is_kind_other. }
  destruct (Parked.parks e) eqn:Hparks.
  - destruct (RunEvent.known e) as [kind|] eqn:Hknown.
    + simpl. intros ->%bool_decide_eq_true. left. by rewrite is_kind_known.
    + intros Hheld. right. split; [done|]. split; [|done].
      apply not_true_iff_false. rewrite is_kind_known. congruence.
  - destruct (started e) eqn:Hstarted; simpl; [done|]. naive_solver.
Qed.

Lemma see_started h e : started e = true → Parked.held (Parked.see h e) = false.
Proof.
  intros Hs. apply not_true_iff_false. intros [[Hk _]|(_ & Hf & _)]%see_held; [|congruence].
  by eapply is_kind_other in Hk; [rewrite Hk in Hs|].
Qed.

Lemma history_held_no_conflict events :
  Parked.held (Parked.history events) = true → Parked.conflict (Parked.history events) = false.
Proof.
  induction events as [|e events IH] using rev_ind; [done|]. rewrite history_app.
  intros [[_ ?]|(Hheld & _ & ->)]%see_held; auto.
Qed.

(** The fold's own view of the parks is that of the log, but for what a
    provider-only resume gives back of a [send_back]. *)
Lemma see_sent_back h e b :
  ∃ b', Parked.see (h <| Parked.sent_back := b |>) e = Parked.see h e <| Parked.sent_back := b' |>.
Proof.
  unfold Parked.see.
  assert (∃ b', Parked.see_park (h <| Parked.sent_back := b |>) e
                = Parked.see_park h e <| Parked.sent_back := b' |>) as [b' ->].
  { unfold Parked.see_park, Parked.park. repeat case_match; eexists; reflexivity. }
  exists b'. by destruct (explains_last_error e).
Qed.

Lemma fold_history events :
  ∃ b, ResumeCount.history (ResumeCount.fold_events events)
       = Parked.history events <| Parked.sent_back := b |>.
Proof.
  induction events as [|e events [b IH]] using rev_ind; [by exists false|].
  rewrite fold_events_app, history_app.
  set (s := ResumeCount.fold_events events) in *.
  assert (∃ b', ResumeCount.history (ResumeCount.step s e)
                = Parked.see (ResumeCount.history s) e <| Parked.sent_back := b' |>) as [b' ->].
  { unfold ResumeCount.step, ResumeCount.finish. simpl.
    assert (∀ h, h = h <| Parked.sent_back := Parked.sent_back h |>) as Heta by by intros [].
    repeat case_match; simpl; eexists; (reflexivity || apply Heta). }
  rewrite IH. destruct (see_sent_back (Parked.history events) e b) as [b'' ->].
  by exists b'.
Qed.

(** ** What a step does to the counts *)
Definition counts (c : ResumeCount) : nat * nat * nat * nat * nat :=
  (ResumeCount.counted c, ResumeCount.conflict_only c, ResumeCount.kill_only c,
   ResumeCount.held c, ResumeCount.provider_only c).
Definition in_progress (s : ResumeCount.state) : option Started :=
  (λ r, r.1.1) <$> ResumeCount.resuming s.
Definition given_back (st : Started) : Prop := st = Started.Counted ∨ st = Started.ConflictOnly.

Lemma counts_inv c c' : counts c = counts c' →
  ResumeCount.counted c = ResumeCount.counted c'
  ∧ ResumeCount.conflict_only c = ResumeCount.conflict_only c'
  ∧ ResumeCount.kill_only c = ResumeCount.kill_only c'
  ∧ ResumeCount.held c = ResumeCount.held c'
  ∧ ResumeCount.provider_only c = ResumeCount.provider_only c'.
Proof. unfold counts. naive_solver. Qed.

Lemma step_counts s e :
  let s' := ResumeCount.step s e in
  let st := ResumeCount.started_as (ResumeCount.history s) in
  (started e = true ∧ in_progress s' = Some st
     ∧ counts (ResumeCount.count s') = counts (ResumeCount.count_started (ResumeCount.count s) st))
  ∨ (started e = false ∧ in_progress s' = None ∧ ∃ st', given_back st' ∧ in_progress s = Some st'
     ∧ counts (ResumeCount.count s') = counts (ResumeCount.take_back (ResumeCount.count s) st'))
  ∨ (started e = false ∧ (in_progress s' = None ∨ in_progress s' = in_progress s)
     ∧ counts (ResumeCount.count s') = counts (ResumeCount.count s)).
Proof.
  destruct s as [h c w r]. cbv zeta. unfold ResumeCount.step. cbn [update_field ResumeCount.history].
  destruct (started e) eqn:Hs; [by left|]. right.
  destruct (RunEvent.is_kind e EventKind.ResumeFinished).
  { unfold ResumeCount.finish. destruct r as [[[st sb] f]|]; simpl.
    2:{ right. split_and!; [done|by left|done]. }
    destruct (Resuming.provider_only _ _).
    2:{ right. split_and!; [done|by left|done]. }
    destruct st; simpl; unfold in_progress, given_back, counts; simpl.
    - left. split_and!; [done|done|]. exists Started.Counted. auto.
    - left. split_and!; [done|done|]. exists Started.ConflictOnly. auto.
    - right. auto.
    - right. auto. }
  right. split; [done|].
  destruct (RunEvent.is_kind e EventKind.ConflictPrecheck); unfold in_progress, counts; simpl;
    (split; [right; by destruct r as [[[??]?]|]|]); [by destruct (flag_is _ _)|done].
Qed.

(** Each resume is in the count it started in, so that taking one back never
    goes below zero. *)
Lemma take_back_enough events st :
  in_progress (ResumeCount.fold_events events) = Some st → given_back st →
  let c := ResumeCount.count (ResumeCount.fold_events events) in
  1 ≤ (if bool_decide (st = Started.Counted) then ResumeCount.counted c
       else ResumeCount.conflict_only c).
Proof.
  cbv zeta. induction events as [|e events IH] using rev_ind; [done|]. rewrite fold_events_app.
  set (s := ResumeCount.fold_events events) in *. intros Hst Hback.
  destruct (step_counts s e) as [(_ & Hin & Hc)|[(_ & Hin & _)|(_ & [Hin|Hin] & Hc)]];
    rewrite Hin in Hst; try done; apply counts_inv in Hc as (Hc1 & Hc2 & _).
  - injection Hst as <-. rewrite Hc1, Hc2.
    destruct (ResumeCount.started_as _); destruct Hback; try done; simpl; lia.
  - specialize (IH Hst Hback). by rewrite Hc1, Hc2.
Qed.

Lemma counts_of events :
  counts (ResumeCount.of_ events) = counts (ResumeCount.count (ResumeCount.fold_events events)).
Proof. reflexivity. Qed.

Lemma total_counts (c : ResumeCount) :
  ResumeCount.total c
  = let '(a, b, k, h, p) := counts c in a + b + k + h + p.
Proof. reflexivity. Qed.
End counts.

(** However a run's events come, the resumes counted under the five counts
    together are exactly the resumes started: none is lost or counted twice,
    also when one that met only its provider's wall is taken back out of the
    count it started in (a subtraction that then never goes below zero), and
    the next resume's number is one more. *)
Theorem resumes_total {P} `{Payload P} (events : list (RunEvent P)) (main : CommitSha) :
  let started := count_of (λ e, RunEvent.is_kind e EventKind.ResumeStarted) events in
  ResumeCount.total (ResumeCount.of_ events) = started
  ∧ ResumeStart.attempt (resume_start_plan events main) = S started.
Proof.
  cbv zeta. assert (ResumeCount.total (ResumeCount.of_ events) =
    count_of (λ e, RunEvent.is_kind e EventKind.ResumeStarted) events) as Htotal.
  { rewrite total_counts, counts_of, <-total_counts.
    induction events as [|e events IH] using rev_ind; [done|].
    rewrite count_of_app, <-IH, fold_events_app, total_counts.
    pose proof (take_back_enough events) as Henough.
    set (s := ResumeCount.fold_events events) in *.
    destruct (step_counts s e) as [(-> & _ & ->)|[(-> & _ & st & Hb & Hst & ->)|(-> & _ & ->)]];
      rewrite <-total_counts.
    - destruct (ResumeCount.started_as _); unfold ResumeCount.total; simpl; lia.
    - specialize (Henough st Hst Hb). destruct Hb as [-> | ->];
        unfold ResumeCount.total; simpl in *; lia.
    - lia. }
  split; [done|]. simpl. by rewrite Htotal.
Qed.

(** Every resume of the log was started while the resumes before it were not
    used up: what the supervisor checks before it opens a session. *)
Definition allowed {P} `{Payload P} (config : ResumeConfig) (events : list (RunEvent P)) : Prop :=
  ∀ before e after, events = before ++ e :: after →
    RunEvent.is_kind e EventKind.ResumeStarted = true →
    ResumeCount.exhausted (ResumeCount.of_ before) config = false.

(** What holds of the fold over such a log; [parks] are the holds' parks. *)
Record within (limit parks : nat) (s : ResumeCount.state) : Prop := {
  within_counted : ResumeCount.counted (ResumeCount.count s) ≤ MAX_RESUME_ATTEMPTS;
  within_conflict : ResumeCount.conflict_only (ResumeCount.count s) ≤ limit;
  within_kill : ResumeCount.kill_only (ResumeCount.count s) ≤ KILL_ONLY_RESUME_LIMIT;
  within_provider : ResumeCount.provider_only (ResumeCount.count s) ≤ PROVIDER_ONLY_RESUME_LIMIT;
  within_open : ∀ st, in_progress s = Some st → given_back st →
    ResumeCount.provider_only (ResumeCount.count s) < PROVIDER_ONLY_RESUME_LIMIT;
  within_held :
    ResumeCount.held (ResumeCount.count s)
    + (if Parked.held (ResumeCount.history s) then 1 else 0) ≤ parks;
}.

Lemma allowed_app {P} `{Payload P} config (events : list (RunEvent P)) e :
  allowed config (events ++ [e]) →
  allowed config events
  ∧ (RunEvent.is_kind e EventKind.ResumeStarted = true →
     ResumeCount.exhausted (ResumeCount.of_ events) config = false).
Proof.
  intros Hall. split; [|intros Hs; by apply (Hall events e [])].
  intros before x after -> Hx. apply (Hall before x (after ++ [e])); [|done].
  by rewrite <-app_assoc.
Qed.

(** A resume starts with each limit it counts toward not reached. *)
Lemma start_within {P} `{Payload P} config (events : list (RunEvent P)) :
  let s := ResumeCount.fold_events events in
  let c := ResumeCount.count s in
  ResumeCount.exhausted (ResumeCount.of_ events) config = false →
  match ResumeCount.started_as (ResumeCount.history s) with
  | Started.Counted =>
      ResumeCount.counted c < MAX_RESUME_ATTEMPTS
      ∧ ResumeCount.provider_only c < PROVIDER_ONLY_RESUME_LIMIT
  | Started.ConflictOnly =>
      ResumeCount.conflict_only c < ResumeConfig.conflict_only_limit config
      ∧ ResumeCount.provider_only c < PROVIDER_ONLY_RESUME_LIMIT
  | Started.KillOnly => ResumeCount.kill_only c < KILL_ONLY_RESUME_LIMIT
  | Started.Held => Parked.held (ResumeCount.history s) = true
  end.
Proof.
  cbv zeta. destruct (fold_history events) as [b Hh].
  pose proof (history_held_no_conflict events) as Hexcl.
  unfold ResumeCount.exhausted, ResumeCount.of_, ResumeCount.finished_count,
    ResumeCount.started_as, ResumeCount.conflict_attempts. cbn [update_field
    ResumeCount.parked_for_hold ResumeCount.counted ResumeCount.kill_only
    ResumeCount.provider_only ResumeCount.conflict_only ResumeCount.parked_for_send_back
    ResumeCount.parked_for_conflict ResumeCount.conflict_requests].
  rewrite Hh. set (s := ResumeCount.fold_events events) in *.
  unfold Parked.conflict_only, Parked.hold_only, Parked.kill_only.
  cbn [update_field Parked.conflict Parked.held Parked.killed Parked.approved Parked.passed
    Parked.rechecked Parked.sent_back].
  set (h := Parked.history events) in *.
  destruct (Parked.conflict h) eqn:Hc, (Parked.held h) eqn:Hheld; cbn [andb orb negb];
    [by specialize (Hexcl eq_refl)| |done|].
  all: destruct (Parked.approved h || Parked.passed h || Parked.rechecked h);
    cbn [andb orb negb]; intros He; try (destruct (Parked.killed h)); bool_split;
    rewrite ?Nat.leb_gt in *; try lia.
Qed.

Lemma start_conflict {P} `{Payload P} config (events : list (RunEvent P)) :
  ResumeCount.started_as (ResumeCount.history (ResumeCount.fold_events events))
    = Started.ConflictOnly →
  ResumeCount.exhausted (ResumeCount.of_ events) config = false →
  ResumeCount.conflict_attempts (ResumeCount.of_ events)
  < ResumeConfig.conflict_only_limit config.
Proof.
  destruct (fold_history events) as [b Hh]. pose proof (history_held_no_conflict events) as Hexcl.
  intros Hst. assert (Parked.conflict_only (ResumeCount.history (ResumeCount.fold_events events))
                      = true) as Hc.
  { unfold ResumeCount.started_as in Hst. by repeat case_match. }
  unfold ResumeCount.exhausted. intros He.
  assert (ResumeCount.parked_for_conflict (ResumeCount.of_ events) = true) as Hp by exact Hc.
  assert (ResumeCount.parked_for_hold (ResumeCount.of_ events) = false) as Hnh.
  { change (Parked.hold_only (ResumeCount.history (ResumeCount.fold_events events)) = false).
    rewrite Hh in *. unfold Parked.hold_only, Parked.conflict_only in *. simpl in *.
    destruct (Parked.held _); [|done]. by rewrite (Hexcl eq_refl) in Hc. }
  rewrite Hp, Hnh in He. cbn [negb andb] in He. apply orb_false_iff in He as [_ He].
  by apply Nat.leb_gt in He.
Qed.

Lemma started_as_held h :
  ResumeCount.started_as h = Started.Held → Parked.held h = true.
Proof.
  unfold ResumeCount.started_as, Parked.hold_only, Parked.kill_only.
  destruct (Parked.conflict_only h), (Parked.held h), (Parked.killed h); done.
Qed.

(** The fold's [held] moves as the log's does. *)
Lemma step_held {P} `{Payload P} (s : ResumeCount.state) (e : RunEvent P) :
  Parked.held (ResumeCount.history (ResumeCount.step s e))
  = Parked.held (Parked.see (ResumeCount.history s) e).
Proof. unfold ResumeCount.step, ResumeCount.finish. simpl. repeat case_match; reflexivity. Qed.

Lemma see_held_count {P} `{Payload P} (h : Parked) (e : RunEvent P) :
  (if Parked.held (Parked.see h e) then 1 else 0)
  ≤ (if Parked.held h then 1 else 0)
    + (if RunEvent.is_kind e EventKind.HoldParked then 1 else 0).
Proof.
  destruct (Parked.held (Parked.see h e)) eqn:Hheld; [|lia].
  apply see_held in Hheld as [[-> _]|(-> & _)]; [|simpl]; case_match; lia.
Qed.

Lemma within_step {P} `{Payload P} config (events : list (RunEvent P)) e parks :
  let s := ResumeCount.fold_events events in
  let limit := ResumeConfig.conflict_only_limit config in
  (RunEvent.is_kind e EventKind.ResumeStarted = true →
   ResumeCount.exhausted (ResumeCount.of_ events) config = false) →
  within limit parks s →
  within limit (parks + (if RunEvent.is_kind e EventKind.HoldParked then 1 else 0))
    (ResumeCount.step s e).
Proof.
  cbv zeta. intros Hallowed Hs. destruct Hs as [Hcounted Hconf Hkill Hprov Hopen Hheld].
  pose proof (take_back_enough events) as Henough.
  pose proof (start_within config events) as Hstart. cbv zeta in *.
  set (s := ResumeCount.fold_events events) in *.
  pose proof (step_held s e) as Hh. pose proof (see_held_count (ResumeCount.history s) e) as Hhc.
  destruct (step_counts s e) as [(Hse & Hin & Hc)|[(Hse & Hin & st & Hb & Hst & Hc)|(Hse & Hin & Hc)]];
    apply counts_inv in Hc as (H1 & H2 & H3 & H4 & H5).
  - specialize (Hstart (Hallowed Hse)). rewrite (see_started _ _ Hse) in Hh.
    destruct (ResumeCount.started_as _) eqn:Has; simpl in *;
      (split; rewrite ?H1, ?H2, ?H3, ?H4, ?H5, ?Hh, ?Hin; simpl; try lia);
      try (intros ? [= <-] [Hb|Hb]; first [lia|discriminate Hb]).
    rewrite Hstart in Hheld. lia.
  - specialize (Hopen st Hst Hb). specialize (Henough st Hst Hb).
    destruct Hb as [-> | ->]; simpl in *;
      (split; rewrite ?H1, ?H2, ?H3, ?H4, ?H5, ?Hh, ?Hin; try done; simpl; lia).
  - split; rewrite ?H1, ?H2, ?H3, ?H4, ?H5, ?Hh; try lia.
    destruct Hin as [-> | ->]; [done|exact Hopen].
Qed.

(** C38: When each resume of a run started while the run's resumes were not used
    up, the counted ones stay within their three attempts, the ones a kill
    caused and the ones that met only their provider's wall within three each,
    and the conflict-only ones within the limit the configuration sets; the
    holds' are at most one for each park a hold made.  So a run opens a bounded
    number of sessions for each hold a person releases. *)
Theorem resumes_bounded {P} `{Payload P} config (events : list (RunEvent P)) :
  allowed config events →
  let resumes := ResumeCount.of_ events in
  let limit := ResumeConfig.conflict_only_limit config in
  let parks := count_of (λ e, RunEvent.is_kind e EventKind.HoldParked) events in
  ResumeCount.counted resumes ≤ MAX_RESUME_ATTEMPTS
  ∧ ResumeCount.kill_only resumes ≤ KILL_ONLY_RESUME_LIMIT
  ∧ ResumeCount.provider_only resumes ≤ PROVIDER_ONLY_RESUME_LIMIT
  ∧ ResumeCount.conflict_only resumes ≤ limit
  ∧ ResumeCount.held resumes ≤ parks
  ∧ count_of (λ e, RunEvent.is_kind e EventKind.ResumeStarted) events ≤ 9 + limit + parks.
Proof.
  cbv zeta. intros Hall.
  assert (within (ResumeConfig.conflict_only_limit config)
    (count_of (λ e, RunEvent.is_kind e EventKind.HoldParked) events)
    (ResumeCount.fold_events events)) as Hin.
  { induction events as [|e events IH] using rev_ind.
    - split; simpl; try lia. done.
    - apply allowed_app in Hall as [Hall Hnow]. rewrite fold_events_app, count_of_app.
      by apply within_step; [|apply IH]. }
  destruct (resumes_total events (CommitSha.wrap EmptyString)) as [<- _].
  destruct Hin as [Hcounted Hconf Hkill Hprov _ Hheld].
  unfold MAX_RESUME_ATTEMPTS, KILL_ONLY_RESUME_LIMIT, PROVIDER_ONLY_RESUME_LIMIT in *.
  pose proof (counts_inv _ _ (counts_of events)) as (H1 & H2 & H3 & H4 & H5).
  unfold ResumeCount.total. rewrite H1, H2, H3, H4, H5. split_and!; lia.
Qed.

(** The next resume starts as its plan says: it is the counted one exactly
    when the plan records no repair, its number is the number of resumes there
    are once it started, and it is a conflict's, a hold's or a kill's
    otherwise, a conflict winning over a hold and a hold over a kill. *)
Theorem resume_start_as_planned {P} `{Payload P} (events : list (RunEvent P)) main e :
  RunEvent.is_kind e EventKind.ResumeStarted = true →
  let plan := resume_start_plan events main in
  let before := ResumeCount.of_ events in
  let after := ResumeCount.of_ (events ++ [e]) in
  ResumeStart.attempt plan = ResumeCount.total after
  ∧ ResumeCount.total after = S (ResumeCount.total before)
  ∧ counts after = counts (ResumeCount.count_started before
      (if parked_for_conflict_only events then Started.ConflictOnly
       else if parked_for_hold events then Started.Held
       else if parked_for_kill_only events then Started.KillOnly else Started.Counted))
  ∧ ResumeStart.counted plan
    = negb (parked_for_conflict_only events || parked_for_hold events
            || parked_for_kill_only events).
Proof.
  intros Hs. cbv zeta.
  assert (counts (ResumeCount.of_ (events ++ [e])) =
    counts (ResumeCount.count_started (ResumeCount.of_ events)
      (if parked_for_conflict_only events then Started.ConflictOnly
       else if parked_for_hold events then Started.Held
       else if parked_for_kill_only events then Started.KillOnly else Started.Counted))) as Hc.
  { rewrite counts_of, fold_events_app.
    destruct (step_counts (ResumeCount.fold_events events) e)
      as [(_ & _ & ->)|[(Hf & _)|(Hf & _)]]; [|congruence..].
    destruct (fold_history events) as [b Hh]. rewrite Hh.
    unfold ResumeCount.started_as, parked_for_conflict_only, parked_for_hold,
      parked_for_kill_only, Parked.hold_only, Parked.kill_only.
    change (Parked.conflict_only (Parked.history events <| Parked.sent_back := b |>))
      with (Parked.conflict_only (Parked.history events)).
    simpl. repeat case_match; reflexivity. }
  assert (ResumeCount.total (ResumeCount.of_ (events ++ [e]))
          = S (ResumeCount.total (ResumeCount.of_ events))) as Htotal.
  { rewrite total_counts, Hc, <-total_counts. unfold ResumeCount.total.
    repeat case_match; simpl; lia. }
  split_and!; [by rewrite Htotal|done|done|].
  destruct (fold_history events) as [b Hh].
  simpl. unfold resume_start_repair, conflict_only_basis, parked_for_conflict_only, parked_for_hold,
    parked_for_kill_only, ResumeCount.of_, ResumeCount.finished_count.
  cbn [update_field ResumeCount.parked_for_hold]. rewrite Hh.
  unfold Parked.hold_only at 1. cbn [update_field Parked.held].
  unfold then_some, Parked.hold_only, Parked.kill_only.
  destruct (Parked.conflict_only _), (Parked.held _), (Parked.killed _); reflexivity.
Qed.

(** *** The end of the resume in progress *)
Section finishing.
  Context {P : Type} `{Payload P}.
  Implicit Types events : list (RunEvent P).
  Abbreviation starts := (λ e : RunEvent P, RunEvent.is_kind e EventKind.ResumeStarted).
  Abbreviation finishes := (λ e : RunEvent P, RunEvent.is_kind e EventKind.ResumeFinished).

(** A resume is in progress: one started, and none finished since. *)
Definition resuming_now events : bool :=
  existsb starts events && negb (existsb finishes (since_last starts events)).

Lemma fold_resuming events :
  match ResumeCount.resuming (ResumeCount.fold_events events) with
  | Some (_, _, facts) =>
      resuming_now events = true
      ∧ facts = foldl Resuming.see Resuming.default (since_last starts events)
      ∧ ResumeCount.after_provider_only (ResumeCount.count (ResumeCount.fold_events events)) = false
  | None => resuming_now events = false
  end.
Proof.
  induction events as [|e events IH] using rev_ind; [done|].
  unfold resuming_now in *. rewrite fold_events_app, existsb_app_one, since_last_app.
  set (s := ResumeCount.fold_events events) in *. unfold ResumeCount.step.
  destruct (RunEvent.is_kind e EventKind.ResumeStarted) eqn:Hs.
  { rewrite orb_true_r. simpl. by split_and!. }
  rewrite orb_false_r, existsb_app_one.
  destruct (RunEvent.is_kind e EventKind.ResumeFinished) eqn:Hf.
  { rewrite orb_true_r, andb_false_r. unfold ResumeCount.finish. simpl.
    repeat case_match; done. }
  rewrite orb_false_r, foldl_app. simpl.
  destruct (ResumeCount.resuming s) as [[[st sb] f]|].
  - destruct IH as (-> & -> & Hafter).
    destruct (RunEvent.is_kind e EventKind.ConflictPrecheck); simpl; [|by split_and!].
    split_and!; [done|done|]. by destruct (flag_is _ _).
  - by destruct (RunEvent.is_kind e EventKind.ConflictPrecheck).
Qed.

Lemma step_finish s e :
  RunEvent.is_kind e EventKind.ResumeFinished = true → ResumeCount.step s e = ResumeCount.finish s e.
Proof.
  intros Hk. unfold ResumeCount.step.
  rewrite (is_kind_other e _ EventKind.ResumeStarted Hk) by done. rewrite Hk. f_equal.
  assert (∀ f, Resuming.see f e = f) as Hsee.
  { intros f. unfold Resuming.see.
    rewrite (is_kind_other e _ EventKind.TurnFinished Hk) by done.
    by rewrite (is_kind_other e _ EventKind.ResumeRequestSent Hk) by done. }
  destruct s as [h c w [[[st sb] f]|]]; [|done]. simpl. by rewrite Hsee.
Qed.

Lemma finish_step events e :
  resuming_now events = true → RunEvent.is_kind e EventKind.ResumeFinished = true →
  let before := ResumeCount.of_ events in
  let after := ResumeCount.of_ (events ++ [e]) in
  let only := provider_only_resume events (RunEvent.payload e) in
  ∃ st, in_progress (ResumeCount.fold_events events) = Some st
  ∧ ResumeCount.after_provider_only after = only
  ∧ (ResumeCount.provider_only after ≠ ResumeCount.provider_only before ↔
     only = true ∧ given_back st)
  ∧ ResumeCount.total after = ResumeCount.total before.
Proof.
  intros Hnow Hk. cbv zeta. pose proof (fold_resuming events) as Hres.
  pose proof (take_back_enough events) as Henough.
  unfold provider_only_resume, in_progress in *.
  assert (existsb starts events = true) as ->.
  { unfold resuming_now in Hnow. by apply andb_true_iff in Hnow as [? _]. }
  unfold ResumeCount.of_, ResumeCount.finished_count. rewrite fold_events_app.
  rewrite (step_finish _ _ Hk). set (s := ResumeCount.fold_events events) in *.
  set (facts := foldl _ _ _) in *.
  destruct s as [h c w [[[st sb] f]|]]; [|simpl in *; congruence].
  destruct Hres as (_ & -> & Hafter). exists st. split; [done|].
  clearbody facts. unfold ResumeCount.finish. simpl in *.
  specialize (Henough st eq_refl). unfold given_back in *.
  destruct (Resuming.provider_only facts (RunEvent.payload e));
    [|simpl; split; [done|]; split; [split; [done|by intros [? _]]|done]].
  destruct st; simpl in *; [specialize (Henough ltac:(by left))
    |specialize (Henough ltac:(by right))| |]; (split; [done|]; split;
    [|unfold ResumeCount.total; simpl; lia]).
  - split; [intros _; split; [done|by left]|lia].
  - split; [intros _; split; [done|by right]|lia].
  - split; [done|by intros [_ [|]]].
  - split; [done|by intros [_ [|]]].
Qed.

(** As a resume in progress ends, the payload of its end is marked
    provider-only, and so not counted, exactly when the resume was counted or
    a conflict's and its session's turns met only their provider's wall
    ([provider_only_resume]); the next resume waits for the provider exactly
    when they did, whatever the resume was; and the number of resumes stays. *)
Theorem provider_only_finish events finished :
  resuming_now events = true →
  ∃ st, in_progress (ResumeCount.fold_events events) = Some st
  ∧ ResumeCount.after_provider_only (ResumeCount.after_finish events finished)
    = provider_only_resume events finished
  ∧ (is_some (finish_provider_only events finished) = true ↔
     provider_only_resume events finished = true ∧ given_back st)
  ∧ ResumeCount.total (ResumeCount.after_finish events finished)
    = ResumeCount.total (ResumeCount.of_ events).
Proof.
  intros Hnow.
  destruct (finish_step events _ Hnow (proj2 (is_kind_known
    (RunEvent.mk (EventId.new 0) None None None (RecordedKind.Known EventKind.ResumeFinished)
       finished EmptyString None) EventKind.ResumeFinished) eq_refl)) as (st & Hst & Ha & Hp & Ht).
  exists st. split; [done|]. split; [exact Ha|]. split; [|exact Ht].
  rewrite <-Hp. unfold finish_provider_only, ResumeCount.after_finish.
  case_bool_decide; simpl; split; done.
Qed.
End finishing.
End ResumeProofs.

(** ** A run that resumes *)
Module ResumeSample.
Import ResumeProofs.

(** [allowed] as a test. *)
Definition allowed_test {P} `{Payload P} (config : ResumeConfig) (events : list (RunEvent P)) : bool :=
  at_each (λ before e, implb (RunEvent.is_kind e EventKind.ResumeStarted)
             (negb (ResumeCount.exhausted (ResumeCount.of_ before) config))) [] events.

Lemma allowed_test_spec {P} `{Payload P} config (events : list (RunEvent P)) :
  allowed_test config events = true → allowed config events.
Proof.
  intros Hall before e after -> He. unfold allowed_test in Hall. rewrite at_each_spec in Hall.
  specialize (Hall before e after eq_refl). rewrite He in Hall. by apply negb_true_iff in Hall.
Qed.

Definition event (n : Z) (kind : EventKind) (fields : list (string * EventPayload.t)) :
    RunEvent EventPayload.t :=
  RunEvent.mk (EventId.new n) None None None (RecordedKind.Known kind) (EventPayload.Object fields)
    EmptyString None.

Definition finished : EventPayload.t :=
  EventPayload.Object
    [("outcome", EventPayload.Text "unresolved"); ("receipt_rewritten", EventPayload.Flag false);
     ("head", EventPayload.Text "c0ffee")].

(** A run the landing deferred, resumed, whose session met a usage limit. *)
Definition walled : list (RunEvent EventPayload.t) :=
  [event 1 EventKind.IntegrationDeferred [("code", EventPayload.Text "verification_failed")];
   event 2 EventKind.ResumeStarted [];
   event 3 EventKind.ResumeRequestSent [("head", EventPayload.Text "c0ffee")];
   event 4 EventKind.TurnFinished
     [("outcome", EventPayload.Text "failed"); ("failure", EventPayload.Text "usage_limit")]].

(** Parked by a hold after it, and resumed again. *)
Definition held_after : list (RunEvent EventPayload.t) :=
  walled ++
  [RunEvent.mk (EventId.new 5) None None None (RecordedKind.Known EventKind.ResumeFinished) finished
     EmptyString None;
   event 6 EventKind.HoldParked [("hold_id", EventPayload.Number 1)];
   event 7 EventKind.ResumeStarted []].

Lemma resumes_bounded_witness :
  ResumeCount.held (ResumeCount.of_ held_after) ≤ 1
  ∧ ResumeCount.provider_only (ResumeCount.of_ held_after) = 1
  ∧ ResumeCount.counted (ResumeCount.of_ held_after) = 0.
Proof.
  assert (allowed ResumeConfig.default held_after) as Hall.
  { apply allowed_test_spec. vm_compute. reflexivity. }
  destruct (resumes_bounded ResumeConfig.default held_after Hall) as (_ & _ & _ & _ & Hheld & _).
  split; [exact Hheld|]. split; vm_compute; reflexivity.
Defined.

Lemma resume_start_as_planned_witness :
  ResumeStart.attempt (resume_start_plan walled (CommitSha.wrap "d00d")) = 2
  ∧ ResumeStart.counted (resume_start_plan walled (CommitSha.wrap "d00d")) = true
  ∧ ResumeCount.total (ResumeCount.of_ (walled ++ [event 5 EventKind.ResumeStarted []])) = 2.
Proof.
  destruct (resume_start_as_planned walled (CommitSha.wrap "d00d")
    (event 5 EventKind.ResumeStarted []) eq_refl) as (H1 & H2 & _).
  split; [vm_compute; reflexivity|]. split; [vm_compute; reflexivity|].
  rewrite H2. vm_compute. reflexivity.
Defined.

Lemma provider_only_finish_witness :
  resuming_now walled = true
  ∧ provider_only_resume walled finished = true
  ∧ ResumeCount.after_provider_only (ResumeCount.after_finish walled finished) = true.
Proof.
  assert (resuming_now walled = true) as Hnow by (vm_compute; reflexivity).
  destruct (provider_only_finish walled finished Hnow) as (st & _ & Hafter & _).
  split; [exact Hnow|]. split; [vm_compute; reflexivity|].
  rewrite Hafter. vm_compute. reflexivity.
Defined.
End ResumeSample.
