(* ===== verification/History.v ===== *)
(** * The history of a run

    [src/src/domain/run/history.rs]: what a run's events, oldest first, say
    about it ([RunHistory]), and the decisions that depend on how often
    something happened or on whether the run was approved; with the fields of
    payloads they read ([src/src/domain/run/payload.rs]) and where the
    recovery of a run that ended stands ([triage_state] of
    [src/src/domain/mod.rs]).

    A [RunHistory] only borrows its events: the functions take them. *)
From S2P Require Import Prelude Text Vocab Ids EventKinds Events Reasons Reviews Resumes Runs.

(** The events that park a run for a session with a reason of their own. *)
Definition HISTORY_PARKING : list EventKind :=
  [EventKind.IntegrationDeferred; EventKind.IntegrationError; EventKind.EvidenceMissing;
   EventKind.ScopeViolation; EventKind.LandingDecided; EventKind.TriageFinished;
   EventKind.TriageDecided; EventKind.RecoveryParked; EventKind.SessionGoneParked;
   EventKind.RunE2eFailed; EventKind.ReplanParked; EventKind.HoldParked].

(** The parks at a turn's end. *)
Definition FENCE_PARKS : list EventKind := [EventKind.ReplanParked; EventKind.HoldParked].

Definition RESOLVABLE_PARKING : list EventKind :=
  [EventKind.IntegrationDeferred; EventKind.IntegrationError; EventKind.EvidenceMissing;
   EventKind.ScopeViolation; EventKind.LandingDecided; EventKind.LandingRecheckFailed;
   EventKind.RunE2eFailed; EventKind.ReplanParked; EventKind.HoldParked].

Definition RESUMES : list EventKind :=
  [EventKind.ResumeStarted; EventKind.ResumeFinished; EventKind.ResumeSkipped].

Module ParkCause.
Inductive t : Set :=
  | Landing | EvidenceMissing | ScopeViolation | SentBack | Triage | Recheck | SessionGone
  | E2e | Replan | Hold.
#[global] Instance eq_dec : EqDecision t.
Proof. solve_decision. Defined.
End ParkCause.
Abbreviation ParkCause := ParkCause.t.

Module Park.
Record t : Set := mk { cause : ParkCause; reason : option string }.
End Park.
Abbreviation Park := Park.t.

Module RecoveredLanding.
Inductive t : Set := Land (event : EventId) | Review (event : EventId).
#[global] Instance eq_dec : EqDecision t.
Proof. solve_decision. Defined.
End RecoveredLanding.
Abbreviation RecoveredLanding := RecoveredLanding.t.

Module ResumedSession.
Inductive t : Set :=
  | NotResumed
  | Open (workspace : string) (attempt : N)
  | Closed.
End ResumedSession.
Abbreviation ResumedSession := ResumedSession.t.

Module TriageState.
Inductive t : Set := Pending | Waiting (until : Z) | Failed | Finished.
#[global] Instance eq_dec : EqDecision t.
Proof. solve_decision. Defined.
End TriageState.
Abbreviation TriageState := TriageState.t.

Module RunHistory.
Section history.
  Context {P : Type} `{Payload P}.
  Implicit Types (events : list (RunEvent P)) (e : RunEvent P).

Definition resolved_to_land e : bool :=
  let payload := RunEvent.payload e in
  let stays := text_is payload "status" (as_str RunStatus.NeedsSession) in
  if RunEvent.is_kind e EventKind.ResumeFinished
  then stays && text_is payload "outcome" "resolved"
  else if RunEvent.is_kind e EventKind.ResumeSkipped
  then stays && flag_is payload "approved"
  else false.

Definition has events kind : bool := existsb (λ e, RunEvent.is_kind e kind) events.
Definition count events kind : nat := count_of (λ e, RunEvent.is_kind e kind) events.
Definition last_of events kinds : option (RunEvent P) :=
  find_last (λ e, RunEvent.is_in e kinds) events.
Definition last events kind : option (RunEvent P) := last_of events [kind].

(** [e.id > id] and [e.id < id]. *)
Definition id_after e (id : EventId) : bool :=
  (EventId.as_i64 id <? EventId.as_i64 (RunEvent.id e))%Z.
Definition id_before e (id : EventId) : bool :=
  (EventId.as_i64 (RunEvent.id e) <? EventId.as_i64 id)%Z.
Definition last_before events (id : EventId) kind : option (RunEvent P) :=
  find_last (λ e, id_before e id && RunEvent.is_kind e kind) events.
Definition has_after events (id : EventId) kind : bool :=
  existsb (λ e, id_after e id && RunEvent.is_kind e kind) events.

(** ** Approvals and the landing queue *)
Definition since_fence_park events : list (RunEvent P) :=
  since_last (λ e, RunEvent.is_in e FENCE_PARKS) events.

Definition approved events : bool :=
  has (since_fence_park events) EventKind.IntegrationApproved.

Definition names_ask e : bool := negb (null_at (RunEvent.payload e) "ask_id").

(** The first landing begun or handed over after [started] is a hand-over. *)
Definition handed_over events (started : EventId) : bool :=
  is_some_and
    (List.find (λ e, id_after e started
       && RunEvent.is_in e [EventKind.IntegrationHandedOver; EventKind.IntegrationStarted]) events)
    (λ e, RunEvent.is_kind e EventKind.IntegrationHandedOver).

(** What moves a run on from where an event queued it. *)
Definition moves_on events e : bool :=
  RunEvent.is_kind e EventKind.IntegrationStarted && negb (handed_over events (RunEvent.id e))
  || RunEvent.is_in e
       [EventKind.ReviewStarted; EventKind.ResumeStarted; EventKind.LandingDecided]
  || RunEvent.is_kind e EventKind.AskOpened
     && text_is (RunEvent.payload e) "kind" "approve_landing".

Definition moved_on_after events (id : EventId) : bool :=
  existsb (λ e, id_after e id && moves_on events e) events.

Definition queued_approval events : option EventId :=
  approved ← find_last
    (λ e, RunEvent.is_kind e EventKind.IntegrationApproved && names_ask e) events;
  then_some (negb (moved_on_after events (RunEvent.id approved))) (RunEvent.id approved).

Definition queued_review_retry events : option EventId :=
  queued ← last events EventKind.ReviewRetryQueued;
  then_some
    (negb (moved_on_after events (RunEvent.id queued))
     && negb (has_after events (RunEvent.id queued) EventKind.ReviewProgramsStarted))
    (RunEvent.id queued).

Definition review_retry_queued_by_ask events (ask_id : AskId) : bool :=
  existsb (λ e, RunEvent.is_kind e EventKind.ReviewRetryQueued
    && bool_decide (number_of (RunEvent.payload e) "ask_id" = Some (AskId.as_i64 ask_id))) events.

Definition review_lets_land events : bool :=
  let events := since_fence_park events in
  match last events EventKind.ReviewFinished with
  | None => false
  | Some review =>
      lets_land (RunEvent.payload review)
      || existsb judged_converged
           (since_last (λ e, RunEvent.is_kind e EventKind.ReviewFinished) events)
  end.

Definition landable events : bool := approved events || review_lets_land events.

Definition recovered_landing events : option RecoveredLanding :=
  recovered ← find_last
    (λ e, RunEvent.is_kind e EventKind.RunRecovered
          && text_is (RunEvent.payload e) "previous_status" (as_str RunStatus.Integrating)) events;
  if moved_on_after events (RunEvent.id recovered) then None
  else Some (if landable events then RecoveredLanding.Land (RunEvent.id recovered)
             else RecoveredLanding.Review (RunEvent.id recovered)).

Definition queued_to_land events : option EventId :=
  match queued_approval events with
  | Some id => Some id
  | None =>
      match recovered_landing events with
      | Some (RecoveredLanding.Land id) => Some id
      | _ => None
      end
  end.

Definition queued_after_resume events : option EventId :=
  queued ← find_last
    (λ e, RunEvent.is_kind e EventKind.LandingQueued || resolved_to_land e) events;
  let via_resume := negb (RunEvent.is_kind queued EventKind.LandingQueued)
                    || text_is (RunEvent.payload queued) "via" "resume" in
  then_some (via_resume && negb (moved_on_after events (RunEvent.id queued))) (RunEvent.id queued).

Definition rewritten_head (start : string) events : string :=
  foldl (λ current e,
    if RunEvent.is_in e [EventKind.IntegrationRebased; EventKind.MigrationRenumbered]
       && bool_decide (text_of (RunEvent.payload e) "head_before" = Some current)
    then unwrap_or (text_of (RunEvent.payload e) "head_after") current
    else current) start events.
Definition landing_rewrote events (commit head : string) : bool :=
  let commit := to_ascii_lowercase commit in
  let current := rewritten_head commit events in
  negb (bool_decide (current = commit)) && bool_decide (current = head).

Definition approved_by_ask events (ask_id : AskId) : bool :=
  existsb (λ e, RunEvent.is_kind e EventKind.IntegrationApproved
    && bool_decide (number_of (RunEvent.payload e) "ask_id" = Some (AskId.as_i64 ask_id))) events.

Definition landing_pushes events : bool :=
  is_none_or (List.find (λ e, RunEvent.is_kind e EventKind.IntegrationApproved) events)
    (λ e, negb (bool_decide (flag_of (RunEvent.payload e) "push" = Some false))).

(** ** Counts and limits *)
Definition resumes events : ResumeCount := ResumeCount.of_ events.

Definition revise_attempts events : nat :=
  count events EventKind.ReviseRequested - count events EventKind.ReviseUnsent.

Definition revise_limit events : ReviseLimit :=
  unwrap_or
    (started ← last_of events [EventKind.ReviewStarted; EventKind.ReviewProgramsStarted];
     ReviseLimit.recorded (RunEvent.payload started))
    ReviseLimit.default.

Definition review_attempts events : nat := count events EventKind.ReviewStarted.
Definition triage_attempts events : nat := count events EventKind.TriageStarted.
Definition conflict_requests events : nat := ResumeCount.conflict_requests (resumes events).

Definition exit_pending events : bool :=
  is_some_and (last_of events [EventKind.ExitRequestTimedOut; EventKind.SessionExited])
    (λ e, RunEvent.is_kind e EventKind.ExitRequestTimedOut).

(** ** Where the run waits *)
Definition park_reason e : option string :=
  let payload := RunEvent.payload e in
  if RunEvent.is_kind e EventKind.TriageFinished || RunEvent.is_kind e EventKind.RecoveryParked
  then text_of payload "instruction" else text_of payload "reason".

Definition park_cause e : ParkCause :=
  let payload := RunEvent.payload e in
  if RunEvent.is_kind e EventKind.EvidenceMissing || is_some (field payload "checks")
  then ParkCause.EvidenceMissing
  else if RunEvent.is_kind e EventKind.ScopeViolation || is_some (field payload "scope_violation")
  then ParkCause.ScopeViolation
  else if RunEvent.is_kind e EventKind.LandingDecided then ParkCause.SentBack
  else if RunEvent.is_kind e EventKind.TriageFinished
          || RunEvent.is_kind e EventKind.TriageDecided
          || RunEvent.is_kind e EventKind.RecoveryParked then ParkCause.Triage
  else if RunEvent.is_kind e EventKind.LandingRecheckFailed then ParkCause.Recheck
  else if RunEvent.is_kind e EventKind.SessionGoneParked then ParkCause.SessionGone
  else if RunEvent.is_kind e EventKind.RunE2eFailed then ParkCause.E2e
  else if RunEvent.is_kind e EventKind.ReplanParked then ParkCause.Replan
  else if RunEvent.is_kind e EventKind.HoldParked then ParkCause.Hold
  else ParkCause.Landing.

Definition last_park events : option Park :=
  (λ e, Park.mk (park_cause e) (park_reason e)) <$>
    find_last (λ e, RunEvent.is_in e HISTORY_PARKING || recheck_parks e) events.

Definition resolvable_park e : bool :=
  RunEvent.is_in e RESOLVABLE_PARKING
  && negb (RunEvent.is_kind e EventKind.LandingRecheckFailed && skipped e).

Definition unresolved_since_park events : bool :=
  is_some_and (find_last resolvable_park events)
    (λ e, negb (RunEvent.is_kind e EventKind.LandingDecided))
  && is_some_and
       (find_last (λ e, resolvable_park e || RunEvent.is_kind e EventKind.ResumeFinished
                        || RunEvent.is_kind e EventKind.ResumeSkipped) events)
       (λ e, RunEvent.is_kind e EventKind.ResumeFinished
             && text_is (RunEvent.payload e) "outcome" "unresolved").

(** ** Turns and the answers owed *)
Definition missing_turns events : list N :=
  omap (λ e, unsigned_of (RunEvent.payload e) "turn")
    (List.filter (λ e, RunEvent.is_kind e EventKind.TurnSessionIdentified
                       && negb (null_at (RunEvent.payload e) "missing")) events).

(** The turns of [part], a part of the run's [events], that ran their request. *)
Definition turns_run events (part : list (RunEvent P)) : list (RunEvent P) :=
  List.filter (λ e, RunEvent.is_kind e EventKind.TurnStarted
    && is_none_or (unsigned_of (RunEvent.payload e) "turn")
         (λ turn, negb (bool_decide (turn ∈ missing_turns events)))) part.

Definition requests_run events : list N :=
  omap (λ e, unsigned_of (RunEvent.payload e) "request") (turns_run events events).

Definition owed_answers events : list P :=
  match last_of events FENCE_PARKS with
  | None => []
  | Some parked =>
      match turns_run events (since_fence_park events) with
      | [] => unwrap_or (items_of (RunEvent.payload parked) "carried_answers") []
      | _ => []
      end
  end.

Definition answers_to_carry events : list string :=
  omap (λ answer, text_of answer "prompt") (owed_answers events).

(** ** The session of the last resume *)
Definition last_resume_skipped events : bool :=
  is_some_and (last_of events RESUMES) (λ e, RunEvent.is_kind e EventKind.ResumeSkipped).

Definition resumed_session events : ResumedSession :=
  match last_of events RESUMES with
  | None => ResumedSession.NotResumed
  | Some e =>
      let payload := RunEvent.payload e in
      let closed workspace :=
        existsb (λ later, id_after later (RunEvent.id e)
          && RunEvent.is_kind later EventKind.WorkspaceClosed
          && text_is (RunEvent.payload later) "workspace_id" workspace) events in
      if RunEvent.is_kind e EventKind.ResumeFinished
         && text_is payload "status" (as_str RunStatus.Validating)
      then match text_of payload "workspace_id", unsigned_of payload "attempt" with
           | Some workspace, Some attempt =>
               if closed workspace then ResumedSession.Closed
               else ResumedSession.Open workspace attempt
           | _, _ => ResumedSession.Closed
           end
      else ResumedSession.Closed
  end.

Definition failed_deliveries events : list AskId :=
  omap (λ e, AskId.new <$> number_of (RunEvent.payload e) "ask_id")
    (List.filter (λ e, RunEvent.is_kind e EventKind.AskDeliveryFailed) events).

Definition registered_follow_ups events : list N :=
  omap (λ e, unsigned_of (RunEvent.payload e) "index")
    (List.filter (λ e, RunEvent.is_kind e EventKind.FollowUpRegistered) events).

Definition push_failure events : option string :=
  e ← last events EventKind.PushFailed; text_of (RunEvent.payload e) "error".

(** [abandon_left_session_open] of [src/src/domain/mod.rs]. *)
Definition abandon_left_session_open e : bool :=
  RunEvent.is_kind e EventKind.RuntimeError
  && flag_is (RunEvent.payload e) "lease_released"
  && is_some_and (field (RunEvent.payload e) "session") (λ session, text_is session "exit" "failed").

Definition session_left_open events : bool :=
  existsb abandon_left_session_open
    (since_last (λ e, RunEvent.is_in e
       [EventKind.SessionExited; EventKind.WorkspaceClosed; EventKind.ResumeStarted]) events).
End history.
End RunHistory.

Section recovery.
  Context {P : Type} `{Payload P}.
  Implicit Types (events : list (RunEvent P)) (e : RunEvent P).

(** [hold_result_discarded]'s and [triage_finished]'s marks
    ([src/src/domain/task_hold.rs]), and the kind of a recovery job's hand-off
    ([src/src/domain/recovery.rs]). *)
Definition SUPERSEDED : string := "superseded".
Definition HELD_ACTION : string := "held".
Definition HAND_OFF_KIND : string := "hand_off".
Definition RECOVER_AGAIN : string := "recover".

Definition discarded_now e : bool :=
  RunEvent.is_kind e EventKind.HoldResultDiscarded
  && negb (flag_is (RunEvent.payload e) SUPERSEDED).

Definition recovery_step e : bool :=
  RunEvent.is_in e [EventKind.ResumeStarted; EventKind.TriageFinished; EventKind.TriageFailed]
  || RunEvent.is_kind e EventKind.TriageDecided
     && text_is (RunEvent.payload e) "action" RECOVER_AGAIN
  || discarded_now e
  || RunEvent.is_kind e EventKind.JobRestarted && text_is (RunEvent.payload e) "job" "triage".

Definition triage_state events : TriageState :=
  match find_last recovery_step events with
  | None => TriageState.Pending
  | Some e =>
      let finished := RunEvent.is_kind e EventKind.TriageFinished in
      let action := text_is (RunEvent.payload e) "action" in
      if finished && action HELD_ACTION || discarded_now e then TriageState.Pending
      else if finished && action "wait"
      then TriageState.Waiting (unwrap_or (number_of (RunEvent.payload e) "recheck_at") 0%Z)
      else if finished && action HAND_OFF_KIND then TriageState.Pending
      else if finished then TriageState.Finished
      else if RunEvent.is_kind e EventKind.TriageFailed
              && is_some (field (RunEvent.payload e) "provider_unusable")
      then TriageState.Pending
      else if RunEvent.is_kind e EventKind.TriageFailed then TriageState.Failed
      else TriageState.Pending
  end.

Definition resume_in_progress events : bool :=
  existsb (λ e, RunEvent.is_kind e EventKind.ResumeStarted) events
  && negb (existsb (λ e, RunEvent.is_in e [EventKind.ResumeFinished; EventKind.ExitRequested])
             (since_last (λ e, RunEvent.is_kind e EventKind.ResumeStarted) events)).
End recovery.

(** ** Decisions *)
Module ConflictDecision.
Inductive t : Set := RequestRebase | Inherit | Ask.
#[global] Instance eq_dec : EqDecision t.
Proof. solve_decision. Defined.
End ConflictDecision.
Abbreviation ConflictDecision := ConflictDecision.t.

Module ReviseDecision.
Inductive t : Set :=
  | Request (attempt number : nat) (limit : ReviseLimit)
  | Ask.
#[global] Instance eq_dec : EqDecision t.
Proof. solve_decision. Defined.
End ReviseDecision.
Abbreviation ReviseDecision := ReviseDecision.t.

Module AfterValidation.
Inductive t : Set := Land | Review | Satisfied | Rest (close : bool).
#[global] Instance eq_dec : EqDecision t.
Proof. solve_decision. Defined.
End AfterValidation.
Abbreviation AfterValidation := AfterValidation.t.

Definition decide_conflict {P} `{Payload P} (events : list (RunEvent P)) (inheritable : bool)
    (config : ResumeConfig) : ConflictDecision :=
  let resumes := RunHistory.resumes events in
  if (MAX_RESUME_ATTEMPTS <=? ResumeCount.counted resumes)%nat then ConflictDecision.Ask
  else if (ResumeCount.conflict_attempts resumes <? ResumeConfig.conflict_only_limit config)%nat
  then ConflictDecision.RequestRebase
  else if inheritable then ConflictDecision.Inherit
  else ConflictDecision.Ask.

Definition decide_revise {P} `{Payload P} (events : list (RunEvent P)) : ReviseDecision :=
  let revises := RunHistory.revise_attempts events in
  let limit := RunHistory.revise_limit events in
  if (ReviseLimit.get limit <=? revises)%nat then ReviseDecision.Ask
  else ReviseDecision.Request (S (RunHistory.count events EventKind.ReviseRequested))
         (S revises) limit.

Definition after_validation (status : RunStatus) (approved awaits_landing_answer : bool) :
    AfterValidation :=
  match status with
  | RunStatus.AwaitingIntegration =>
      if approved then AfterValidation.Land
      else if awaits_landing_answer then AfterValidation.Rest true
      else AfterValidation.Review
  | RunStatus.Validating => AfterValidation.Satisfied
  | RunStatus.NeedsSession => AfterValidation.Rest true
  | _ => AfterValidation.Rest false
  end.

(** ** What the history decides *)
Module HistoryProofs.
Section history.
  Context {P : Type} `{Payload P}.
  Implicit Types (events : list (RunEvent P)) (e : RunEvent P).



(** *** The queue as a machine

    Where an event that queues a run leaves it: queued, in a landing begun
    since, which a hand-over gives back to the queue, or not queued. *)
Inductive queue : Set := Unqueued | Queued (by_ : EventId) | Landing (by_ : EventId).

Definition moves e : bool :=
  RunEvent.is_in e [EventKind.ReviewStarted; EventKind.ResumeStarted; EventKind.LandingDecided]
  || RunEvent.is_kind e EventKind.AskOpened
     && text_is (RunEvent.payload e) "kind" "approve_landing".

Definition queue_step (enqueues : RunEvent P → bool) (q : queue) e : queue :=
  if enqueues e then Queued (RunEvent.id e)
  else if moves e then Unqueued
  else if RunEvent.is_kind e EventKind.IntegrationStarted then
    match q with Queued id => Landing id | _ => Unqueued end
  else if RunEvent.is_kind e EventKind.IntegrationHandedOver then
    match q with Landing id => Queued id | _ => q end
  else q.

Definition queue_after (enqueues : RunEvent P → bool) events : queue :=
  foldl (queue_step enqueues) Unqueued events.
Definition queued_by (q : queue) : option EventId :=
  match q with Queued id => Some id | _ => None end.

(** The events of a log have growing ids. *)
Definition ordered events : Prop :=
  StronglySorted
    (λ a b, (EventId.as_i64 (RunEvent.id a) < EventId.as_i64 (RunEvent.id b))%Z) events.

Lemma ordered_app events e :
  ordered (events ++ [e]) →
  ordered events ∧ ∀ x, x ∈ events → RunHistory.id_after e (RunEvent.id x) = true.
Proof.
  unfold ordered. intros Hs. split; [by eapply StronglySorted_app_1_l in Hs|].
  intros x Hx. apply Z.ltb_lt.
  exact (StronglySorted_app_1_elem_of _ _ _ _ _ Hs Hx (proj2 (list_elem_of_singleton e e) eq_refl)).
Qed.

(** The landing begun or handed over next after event [id]. *)
Abbreviation lands e :=
  (RunEvent.is_in e [EventKind.IntegrationHandedOver; EventKind.IntegrationStarted]).
Definition next_landing events (id : EventId) : option (RunEvent P) :=
  List.find (λ e, RunHistory.id_after e id && lands e) events.

(** A landing begun that another one followed, and one still going. *)
Definition superseded_start events e : bool :=
  RunEvent.is_kind e EventKind.IntegrationStarted
  && is_some_and (next_landing events (RunEvent.id e))
       (λ y, negb (RunEvent.is_kind y EventKind.IntegrationHandedOver)).
Definition open_start events e : bool :=
  RunEvent.is_kind e EventKind.IntegrationStarted && is_none (next_landing events (RunEvent.id e)).
Definition after_ (p : RunEvent P → bool) events (id : EventId) : bool :=
  existsb (λ e, RunHistory.id_after e id && p e) events.

Lemma existsb_or (p q : RunEvent P → bool) l :
  existsb (λ x, p x || q x) l = existsb p l || existsb q l.
Proof.
  induction l as [|x l IH]; [done|]. simpl. rewrite IH.
  by destruct (p x), (q x), (existsb p l), (existsb q l).
Qed.
Lemma existsb_and_l (p : RunEvent P → bool) b l :
  existsb (λ x, p x && b) l = existsb p l && b.
Proof. induction l as [|x l IH]; [done|]. simpl. rewrite IH. by destruct (p x), b, (existsb p l). Qed.
Lemma existsb_ext (p q : RunEvent P → bool) l :
  (∀ x, x ∈ l → p x = q x) → existsb p l = existsb q l.
Proof.
  induction l as [|x l IH]; intros Heq; [done|]. simpl.
  rewrite (Heq x) by set_solver. f_equal. apply IH. intros y Hy. apply Heq. by right.
Qed.

Lemma find_app (p : RunEvent P → bool) l x :
  List.find p (l ++ [x]) =
  match List.find p l with Some y => Some y | None => if p x then Some x else None end.
Proof. induction l as [|y l IH]; simpl; [done|]. by destruct (p y). Qed.

Lemma next_landing_app events e id :
  RunHistory.id_after e id = true →
  next_landing (events ++ [e]) id =
  match next_landing events id with
  | Some y => Some y
  | None => if lands e then Some e else None
  end.
Proof. intros Hid. unfold next_landing. by rewrite find_app, Hid. Qed.

Lemma nothing_after events e id :
  (∀ x, x ∈ events → RunHistory.id_after e (RunEvent.id x) = true) → id = RunEvent.id e →
  ∀ p, after_ p (events ++ [e]) id = false.
Proof.
  intros Hlast -> p. unfold after_. apply not_true_iff_false. intros Hex.
  apply existsb_exists in Hex as (x & Hx & Hp). apply andb_true_iff in Hp as [Hid _].
  rewrite <-list_elem_of_In, elem_of_app, list_elem_of_singleton in Hx.
  unfold RunHistory.id_after in *. apply Z.ltb_lt in Hid. destruct Hx as [Hx | ->]; [|lia].
  specialize (Hlast x Hx). apply Z.ltb_lt in Hlast. lia.
Qed.

Lemma moves_on_cases events e :
  RunHistory.moves_on events e = moves e || superseded_start events e || open_start events e.
Proof.
  unfold RunHistory.moves_on, RunHistory.handed_over, moves, superseded_start, open_start.
  fold (next_landing events (RunEvent.id e)).
  destruct (RunEvent.is_kind e EventKind.IntegrationStarted),
    (RunEvent.is_in e [EventKind.ReviewStarted; EventKind.ResumeStarted; EventKind.LandingDecided]),
    (RunEvent.is_kind e EventKind.AskOpened && text_is (RunEvent.payload e) "kind" "approve_landing"),
    (next_landing events (RunEvent.id e)) as [y|]; simpl;
    try destruct (RunEvent.is_kind y EventKind.IntegrationHandedOver); reflexivity.
Qed.

Lemma moved_on_cases events id :
  RunHistory.moved_on_after events id
  = after_ moves events id || after_ (superseded_start events) events id
    || after_ (open_start events) events id.
Proof.
  unfold RunHistory.moved_on_after, after_. rewrite <-!existsb_or.
  apply existsb_ext. intros x _. rewrite moves_on_cases.
  by destruct (RunHistory.id_after x id); simpl; rewrite ?andb_false_l.
Qed.

(** What one more event makes of the landings begun after [id]. *)
Lemma after_app events e id :
  ordered (events ++ [e]) → (∃ x, x ∈ events ∧ RunEvent.id x = id) →
  let landing := RunEvent.is_kind e EventKind.IntegrationStarted in
  after_ moves (events ++ [e]) id = after_ moves events id || moves e
  ∧ after_ (superseded_start (events ++ [e])) (events ++ [e]) id
    = after_ (superseded_start events) events id
      || after_ (open_start events) events id && landing
  ∧ after_ (open_start (events ++ [e])) (events ++ [e]) id
    = after_ (open_start events) events id && negb (lands e) || landing.
Proof.
  intros Hord (x & Hx & <-). cbv zeta. apply ordered_app in Hord as [_ Hlast].
  pose proof (Hlast x Hx) as Hid. unfold after_. rewrite !existsb_app_one, Hid. simpl.
  assert (next_landing (events ++ [e]) (RunEvent.id e) = None) as Hnone.
  { pose proof (nothing_after events e _ Hlast eq_refl (λ e, lands e)) as Hex. unfold after_ in Hex.
    unfold next_landing. destruct (List.find _ _) as [y|] eqn:Hf; [|done].
    apply List.find_some in Hf as [Hy Hp]. apply not_true_iff_false in Hex. destruct Hex.
    apply existsb_exists. eauto. }
  assert (RunEvent.is_kind e EventKind.IntegrationStarted = true → lands e = true
          ∧ RunEvent.is_kind e EventKind.IntegrationHandedOver = false) as Hkind.
  { intros Hk. split; [|by eapply ResumeProofs.is_kind_other].
    apply ResumeProofs.is_kind_known in Hk. unfold RunEvent.is_in, RecordedKind.is_in.
    unfold RunEvent.known in Hk. rewrite Hk. apply bool_decide_eq_true. right. left. }
  assert (RunEvent.is_kind e EventKind.IntegrationHandedOver = true
          ∨ RunEvent.is_kind e EventKind.IntegrationStarted = true ∨ lands e = false) as Hlands.
  { destruct (lands e) eqn:Hl; [|auto]. unfold RunEvent.is_in, RecordedKind.is_in in Hl.
    unfold RunEvent.is_kind, RecordedKind.is_kind.
    destruct (RecordedKind.known _) as [k|]; [|done]. apply bool_decide_eq_true in Hl.
    rewrite !bool_decide_eq_true. set_solver. }
  split; [done|].
  assert (superseded_start (events ++ [e]) e = false) as ->.
  { unfold superseded_start. rewrite Hnone. apply andb_false_r. }
  assert (open_start (events ++ [e]) e = RunEvent.is_kind e EventKind.IntegrationStarted) as ->.
  { unfold open_start. rewrite Hnone. apply andb_true_r. }
  rewrite orb_false_r, <-!existsb_and_l, <-existsb_or.
  split; [|f_equal]; apply existsb_ext; intros y Hy;
    unfold superseded_start, open_start; rewrite (next_landing_app _ _ _ (Hlast y Hy));
    destruct (RunHistory.id_after y (RunEvent.id x)), (RunEvent.is_kind y EventKind.IntegrationStarted),
      (next_landing events (RunEvent.id y)) as [z|]; simpl; rewrite ?andb_false_r, ?orb_false_r; try done.
  - destruct Hlands as [Hh|[Hl|Hnl]].
    + destruct (RunEvent.is_kind e EventKind.IntegrationStarted) eqn:Hl.
      * by destruct (Hkind eq_refl) as [_ Hf]; rewrite Hf in Hh.
      * destruct (lands e); simpl; [by rewrite Hh|done].
    + destruct (Hkind Hl) as [Hle Hf]. rewrite Hle. simpl. by rewrite Hf, Hl.
    + rewrite Hnl. destruct (RunEvent.is_kind e EventKind.IntegrationStarted) eqn:Hl; [|done].
      destruct (Hkind eq_refl). congruence.
  - by destruct (lands e).
Qed.

(** Where the machine stands is what the log says of its latest event that
    queues. *)
Definition queue_state (enqueues : RunEvent P → bool) events : queue :=
  match find_last enqueues events with
  | None => Unqueued
  | Some a =>
      let id := RunEvent.id a in
      if after_ moves events id || after_ (superseded_start events) events id then Unqueued
      else if after_ (open_start events) events id then Landing id else Queued id
  end.

Lemma queue_after_state enqueues events :
  ordered events → queue_after enqueues events = queue_state enqueues events.
Proof.
  induction events as [|e events IH] using rev_ind; intros Hord; [done|].
  pose proof (ordered_app _ _ Hord) as [Hord' Hlast].
  unfold queue_after, queue_state in *. rewrite foldl_app. simpl. rewrite (IH Hord').
  rewrite find_last_app. unfold queue_step. destruct (enqueues e) eqn:He.
  { by rewrite !(nothing_after events e _ Hlast eq_refl). }
  destruct (find_last enqueues events) as [a|] eqn:Ha.
  2:{ by destruct (moves e), (RunEvent.is_kind e EventKind.IntegrationStarted),
        (RunEvent.is_kind e EventKind.IntegrationHandedOver). }
  assert (∃ x, x ∈ events ∧ RunEvent.id x = RunEvent.id a) as Hin.
  { exists a. split; [|done]. apply find_last_Some in Ha as (_ & b & l & -> & _). set_solver. }
  destruct (after_app events e (RunEvent.id a) Hord Hin) as (-> & -> & ->).
  destruct (moves e) eqn:Hm; rewrite ?orb_true_r, ?orb_false_r; [done|].
  set (hard := after_ moves _ _). set (superseded := after_ (superseded_start events) _ _).
  set (open := after_ (open_start events) _ _).
  destruct (RunEvent.is_kind e EventKind.IntegrationStarted) eqn:Hs.
  { rewrite andb_true_r, orb_true_r. by destruct hard, superseded, open. }
  rewrite andb_false_r, !orb_false_r.
  destruct (RunEvent.is_kind e EventKind.IntegrationHandedOver) eqn:Hh.
  - assert (lands e = true) as ->.
    { apply ResumeProofs.is_kind_known in Hh. unfold RunEvent.known in Hh.
      unfold RunEvent.is_in, RecordedKind.is_in. rewrite Hh. apply bool_decide_eq_true. left. }
    rewrite andb_false_r. by destruct hard, superseded, open.
  - assert (lands e = false) as ->; [|by rewrite andb_true_r; destruct hard, superseded, open].
    apply not_true_iff_false. intros Hl. unfold RunEvent.is_in, RecordedKind.is_in in Hl.
    unfold RunEvent.is_kind, RecordedKind.is_kind in Hs, Hh.
    destruct (RecordedKind.known _) as [k|]; [|done]. apply bool_decide_eq_true in Hl.
    rewrite bool_decide_eq_false in Hs, Hh. set_solver.
Qed.

Lemma queued_by_machine enqueues events :
  ordered events →
  (a ← find_last enqueues events;
   then_some (negb (RunHistory.moved_on_after events (RunEvent.id a))) (RunEvent.id a))
  = queued_by (queue_after enqueues events).
Proof.
  intros Hord. rewrite (queue_after_state _ _ Hord). unfold queue_state.
  destruct (find_last enqueues events) as [a|]; simpl; [|done].
  rewrite moved_on_cases. unfold then_some.
  by destruct (after_ moves _ _), (after_ (superseded_start _) _ _), (after_ (open_start _) _ _).
Qed.

(** The search through a run's log for what queues it to land agrees with
    a machine that reads the log once: an answer that approves the landing
    queues the run, a landing that starts takes it from the queue, a hand-over
    gives it back as it was, and a review, a resume, a decision, another
    question or a second landing ends it; so do the queues of a recovered
    landing and of an approved run whose resume ended. *)
Theorem queue_is_machine events :
  ordered events →
  RunHistory.queued_approval events
    = queued_by (queue_after
        (λ e, RunEvent.is_kind e EventKind.IntegrationApproved && RunHistory.names_ask e) events)
  ∧ RunHistory.recovered_landing events
    = (λ id, if RunHistory.landable events then RecoveredLanding.Land id
             else RecoveredLanding.Review id) <$>
      queued_by (queue_after
        (λ e, RunEvent.is_kind e EventKind.RunRecovered
              && text_is (RunEvent.payload e) "previous_status" (as_str RunStatus.Integrating))
        events)
  ∧ (∀ id, RunHistory.queued_after_resume events = Some id →
     queued_by (queue_after
       (λ e, RunEvent.is_kind e EventKind.LandingQueued || RunHistory.resolved_to_land e) events)
     = Some id).
Proof.
  intros Hord. split; [by apply queued_by_machine|].
  rewrite <-(queued_by_machine _ events Hord). split.
  - unfold RunHistory.recovered_landing. destruct (find_last _ _) as [a|]; [|done]. simpl.
    by destruct (RunHistory.moved_on_after _ _).
  - intros id. rewrite <-queued_by_machine by done. unfold RunHistory.queued_after_resume.
    destruct (find_last _ _) as [a|]; [|done]. simpl. unfold then_some.
    by destruct (_ || _), (RunHistory.moved_on_after _ _).
Qed.

(** *** Rounds of revise *)
Abbreviation requests e := (RunEvent.is_kind e EventKind.ReviseRequested).

(** Every revise of the log was decided by the log before it. *)
Definition decided_revises events : Prop :=
  ∀ before e after, events = before ++ e :: after → requests e = true →
    decide_revise before ≠ ReviseDecision.Ask.

Lemma revise_count_app events e :
  RunHistory.count (events ++ [e]) EventKind.ReviseRequested
  = RunHistory.count events EventKind.ReviseRequested + (if requests e then 1 else 0).
Proof. apply (count_of_app (λ e, requests e)). Qed.

(** Each revise a run's history lets out has a number no earlier request
    had and a place within the limit the review recorded, so that the revises
    standing (requested and not withdrawn) never go past the largest limit
    recorded, or the default of two; a limit is at least one. *)
Theorem revises_bounded events (bound : nat) :
  decided_revises events →
  (∀ before after, events = before ++ after →
     ReviseLimit.get (RunHistory.revise_limit before) ≤ bound) →
  RunHistory.revise_attempts events ≤ bound
  ∧ 1 ≤ ReviseLimit.get (RunHistory.revise_limit events)
  ∧ ∀ attempt number limit, decide_revise events = ReviseDecision.Request attempt number limit →
      attempt = S (RunHistory.count events EventKind.ReviseRequested)
      ∧ 1 ≤ number ≤ ReviseLimit.get limit ∧ number ≤ bound.
Proof.
  intros Hdecided Hlimit. split; [|split].
  - induction events as [|e events IH] using rev_ind; [unfold RunHistory.revise_attempts; simpl; lia|].
    assert (RunHistory.revise_attempts events ≤ bound) as Hbefore.
    { apply IH.
      - intros b x a -> Hx. apply (Hdecided b x (a ++ [e])); [by rewrite <-app_assoc|done].
      - intros b a ->. apply (Hlimit b (a ++ [e])). by rewrite <-app_assoc. }
    unfold RunHistory.revise_attempts in *. rewrite revise_count_app.
    unfold RunHistory.count at 2. rewrite count_of_app.
    fold (RunHistory.count events EventKind.ReviseUnsent).
    destruct (requests e) eqn:He; [|case_match; lia].
    pose proof (Hdecided events e [] eq_refl He) as Hask.
    pose proof (Hlimit events [e] eq_refl) as Hle.
    unfold decide_revise, RunHistory.revise_attempts in Hask.
    destruct (_ <=? _)%nat eqn:Hcmp in Hask; [done|]. apply Nat.leb_gt in Hcmp. case_match; lia.
  - unfold RunHistory.revise_limit. destruct (_ ≫= _) as [l|] eqn:Hl; simpl.
    + apply bind_Some in Hl as (s & _ & Hl). by eapply ReviseLimit.recorded_positive.
    + unfold MAX_REVISE_ATTEMPTS. lia.
  - intros attempt number limit. unfold decide_revise.
    destruct (_ <=? _)%nat eqn:Hcmp; [done|]. intros [= <- <- <-]. apply Nat.leb_gt in Hcmp.
    specialize (Hlimit events [] (eq_sym (app_nil_r events))). lia.
Qed.

(** *** Conflicts *)
Abbreviation requested e :=
  (RunEvent.is_kind e EventKind.ConflictPrecheck && flag_is (RunEvent.payload e) "requested").

(** Every request to resolve a conflict was decided by the log before it. *)
Definition decided_conflicts config events : Prop :=
  ∀ before e after, events = before ++ e :: after → requested e = true →
    ∃ inheritable, decide_conflict before inheritable config = ConflictDecision.RequestRebase.

Lemma step_requests (s : ResumeCount.state) e :
  ResumeCount.conflict_requests (ResumeCount.count (ResumeCount.step s e))
  = ResumeCount.conflict_requests (ResumeCount.count s) + (if requested e then 1 else 0)
  ∧ ResumeCount.withdrawn s ≤ ResumeCount.withdrawn (ResumeCount.step s e).
Proof.
  unfold ResumeCount.step, ResumeCount.finish.
  destruct (RunEvent.is_kind e EventKind.ResumeStarted) eqn:Hs.
  { rewrite (ResumeProofs.is_kind_other _ _ EventKind.ConflictPrecheck Hs) by done. simpl.
    destruct (ResumeCount.started_as _); simpl; lia. }
  destruct (RunEvent.is_kind e EventKind.ResumeFinished) eqn:Hf.
  { rewrite (ResumeProofs.is_kind_other _ _ EventKind.ConflictPrecheck Hf) by done.
    destruct s as [h c w [[[st sb] f]|]]; simpl; [|lia].
    destruct (Resuming.provider_only _ _), st; simpl; lia. }
  destruct (RunEvent.is_kind e EventKind.ConflictPrecheck); simpl; [|lia].
  destruct (flag_is _ "requested"), (flag_is _ "unsent"); simpl; lia.
Qed.

Lemma conflict_attempts_fold events :
  ResumeCount.conflict_attempts (ResumeCount.of_ events)
  = ResumeCount.conflict_only (ResumeCount.count (ResumeCount.fold_events events))
    + (ResumeCount.conflict_requests (ResumeCount.count (ResumeCount.fold_events events))
       - ResumeCount.withdrawn (ResumeCount.fold_events events)).
Proof. reflexivity. Qed.

(** When each resume and each request to resolve a conflict was decided by
    the history before it, the attempts a run spends on conflicts alone, its
    conflict-only resumes and the requests to its live session together, never
    go past the limit the configuration sets. *)
Theorem conflict_attempts_bounded config events :
  ResumeProofs.allowed config events → decided_conflicts config events →
  ResumeCount.conflict_attempts (RunHistory.resumes events)
  ≤ ResumeConfig.conflict_only_limit config.
Proof.
  induction events as [|e events IH] using rev_ind; [intros _ _; apply Nat.le_0_l|]. intros Hall Hdec.
  apply ResumeProofs.allowed_app in Hall as [Hall Hnow].
  assert (decided_conflicts config events) as Hdec'.
  { intros b x a -> Hx. apply (Hdec b x (a ++ [e])); [by rewrite <-app_assoc|done]. }
  specialize (IH Hall Hdec'). specialize (Hdec events e [] eq_refl).
  pose proof (ResumeProofs.start_conflict config events) as Hstart.
  unfold RunHistory.resumes in *. rewrite conflict_attempts_fold in *.
  rewrite ResumeProofs.fold_events_app. set (s := ResumeCount.fold_events events) in *.
  assert (requested e = true → ResumeCount.conflict_only (ResumeCount.count s)
    + (ResumeCount.conflict_requests (ResumeCount.count s) - ResumeCount.withdrawn s)
    < ResumeConfig.conflict_only_limit config) as Hreq.
  { intros Hr. destruct (Hdec Hr) as [inh Hd]. unfold decide_conflict in Hd.
    destruct (_ <=? _)%nat; [done|]. unfold RunHistory.resumes in Hd.
    rewrite conflict_attempts_fold in Hd. fold s in Hd.
    destruct (_ <? _)%nat eqn:Hlt; [by apply Nat.ltb_lt in Hlt|by destruct inh]. }
  destruct (step_requests s e) as [-> Hw].
  destruct (ResumeProofs.step_counts s e) as [(Hs & _ & Hc)|[(Hs & _ & st & _ & _ & Hc)|(Hs & _ & Hc)]];
    apply ResumeProofs.counts_inv in Hc as (_ & -> & _).
  - rewrite (ResumeProofs.is_kind_other _ _ EventKind.ConflictPrecheck Hs) by done.
    cbn [andb]. destruct (ResumeCount.started_as _) eqn:Has; simpl; try lia.
    specialize (Hstart eq_refl (Hnow Hs)). lia.
  - destruct (requested e); [specialize (Hreq eq_refl)|]; destruct st; simpl; lia.
  - destruct (requested e); [specialize (Hreq eq_refl)|]; lia.
Qed.
End history.
End HistoryProofs.

(** ** A run that is sent back and queued *)
Module HistorySample.
Import HistoryProofs.
Import ResumeSample.

Definition parked : RunEvent EventPayload.t :=
  event 3 EventKind.HoldParked [("hold_id", EventPayload.Number 1)].


(** An answer queues the run, a landing starts and is handed over. *)
Definition queued_log : list (RunEvent EventPayload.t) :=
  [event 1 EventKind.IntegrationApproved [("ask_id", EventPayload.Number 7)];
   event 2 EventKind.IntegrationStarted [];
   event 3 EventKind.IntegrationHandedOver []].

Lemma queue_is_machine_witness :
  RunHistory.queued_approval queued_log = Some (EventId.new 1)
  ∧ RunHistory.queued_approval (take 2 queued_log) = None.
Proof.
  assert (ordered queued_log) as Hord by (repeat constructor).
  assert (ordered (take 2 queued_log)) as Hord2 by (repeat constructor).
  split.
  - rewrite (proj1 (queue_is_machine queued_log Hord)). vm_compute. reflexivity.
  - rewrite (proj1 (queue_is_machine _ Hord2)). vm_compute. reflexivity.
Defined.

Definition revised : list (RunEvent EventPayload.t) :=
  [event 1 EventKind.ReviewStarted [("revise_limit", EventPayload.Number 1)];
   event 2 EventKind.ReviewFinished [("verdict", EventPayload.Text "revise")];
   event 3 EventKind.ReviseRequested []].

Definition is_ask (decision : ReviseDecision) : bool :=
  match decision with ReviseDecision.Ask => true | _ => false end.

Lemma revises_bounded_witness :
  RunHistory.revise_attempts revised = 1 ∧ RunHistory.revise_attempts revised ≤ 2
  ∧ decide_revise revised = ReviseDecision.Ask.
Proof.
  assert (decided_revises revised) as Hdecided.
  { intros before e after Heq He Hask.
    assert (at_each (λ before e, implb (RunEvent.is_kind e EventKind.ReviseRequested)
      (negb (is_ask (decide_revise before)))) [] revised = true) as Hall by (vm_compute; reflexivity).
    rewrite at_each_spec in Hall. specialize (Hall before e after Heq).
    rewrite He in Hall. simpl in Hall. by rewrite Hask in Hall. }
  assert (∀ before after, revised = before ++ after →
    ReviseLimit.get (RunHistory.revise_limit before) ≤ 2) as Hlimit.
  { intros before after Heq.
    assert (before = take (length before) revised) as -> by by rewrite Heq, take_app_length.
    assert (length before ≤ 3) as Hlen.
    { apply (f_equal length) in Heq. rewrite length_app in Heq. simpl in Heq. lia. }
    destruct (length before) as [|[|[|[|?]]]]; [..|lia]; vm_compute; lia. }
  split; [vm_compute; reflexivity|].
  split; [apply (revises_bounded revised 2 Hdecided Hlimit)|vm_compute; reflexivity].
Defined.

Definition conflicting : list (RunEvent EventPayload.t) :=
  [event 1 EventKind.ReviewFinished [("verdict", EventPayload.Text "pass")];
   event 2 EventKind.ConflictPrecheck [("requested", EventPayload.Flag true)];
   event 3 EventKind.IntegrationDeferred [("code", EventPayload.Text "rebase_conflict")];
   event 4 EventKind.ResumeStarted []].

Lemma conflict_attempts_bounded_witness :
  ResumeCount.conflict_attempts (RunHistory.resumes conflicting) = 2
  ∧ ResumeCount.conflict_attempts (RunHistory.resumes conflicting) ≤ 5.
Proof.
  assert (ResumeProofs.allowed ResumeConfig.default conflicting) as Hall.
  { apply allowed_test_spec. vm_compute. reflexivity. }
  assert (decided_conflicts ResumeConfig.default conflicting) as Hdecided.
  { intros before e after Heq He. exists true.
    assert (at_each (λ before e, implb (RunEvent.is_kind e EventKind.ConflictPrecheck)
      (bool_decide (decide_conflict before true ResumeConfig.default
                    = ConflictDecision.RequestRebase))) [] conflicting = true) as Htest
      by (vm_compute; reflexivity).
    rewrite at_each_spec in Htest. specialize (Htest before e after Heq).
    apply andb_true_iff in He as [He _]. rewrite He in Htest. by apply bool_decide_eq_true in Htest. }
  split; [vm_compute; reflexivity|].
  apply (conflict_attempts_bounded ResumeConfig.default conflicting Hall Hdecided).
Defined.
End HistorySample.
