(* ===== verification/Satisfied.v ===== *)
(** * The claim that the base already met the acceptance

    [src/src/domain/satisfied.rs]: the steps of a worker's [already_satisfied]
    claim, whether the run rests between them, what its verifications found,
    and what a person's answer to close does. *)
From S2P Require Import Prelude Text Vocab Ids Errors EventKinds Events Resumes History Runs.

Definition CLOSE : string := "close".
Definition RETRY : string := "retry".
Definition CANCEL : string := "cancel".
Definition CLOSE_OPTIONS : list string := [CLOSE; RETRY; CANCEL].
Definition FAILED_OPTIONS : list string := [RETRY; CANCEL].

Module SatisfiedAnswer.
Inductive t : Set := Close | Retry | Cancel.
#[global] Instance eq_dec : EqDecision t.
Proof. solve_decision. Defined.
Definition as_str (self : t) : string :=
  match self with Close => CLOSE | Retry => RETRY | Cancel => CANCEL end.
Definition parse (answer : string) : option t :=
  let answer := to_ascii_lowercase (trim answer) in
  if bool_decide (answer = CLOSE) then Some Close
  else if bool_decide (answer = RETRY) then Some Retry
  else if bool_decide (answer = CANCEL) then Some Cancel
  else None.
End SatisfiedAnswer.
Abbreviation SatisfiedAnswer := SatisfiedAnswer.t.

Module Verified.
Record t : Set := mk {
  head : CommitSha;
  passed : bool;
  ask_id : option AskId;
  event : EventId;
}.
#[global] Instance eq_dec : EqDecision t.
Proof. solve_decision. Defined.
End Verified.
Abbreviation Verified := Verified.t.

Module CloseStep.
Inductive t : Set := Close (verified : Verified) | Verify.
#[global] Instance eq_dec : EqDecision t.
Proof. solve_decision. Defined.
End CloseStep.
Abbreviation CloseStep := CloseStep.t.

Module SnapshotFailure.
Record t : Set := mk { command : string; exit_code : Z; log_path : string; output_tail : string }.
End SnapshotFailure.
Abbreviation SnapshotFailure := SnapshotFailure.t.

Module SnapshotVerification.
Record t : Set := mk { head : CommitSha; commands : nat; failure : option SnapshotFailure }.
Definition passed (self : t) : bool := is_none (failure self).
Definition options (self : t) : list string :=
  if passed self then CLOSE_OPTIONS else FAILED_OPTIONS.
End SnapshotVerification.
Abbreviation SnapshotVerification := SnapshotVerification.t.

Definition close_step (latest : option Verified) (ask : AskId) (main : CommitSha) : CloseStep :=
  match latest with
  | Some verified =>
      if Verified.passed verified
         && (bool_decide (Verified.head verified = main)
             || bool_decide (Verified.ask_id verified = Some ask))
      then CloseStep.Close verified else CloseStep.Verify
  | None => CloseStep.Verify
  end.

Section satisfied.
  Context {P : Type} `{Payload P}.
  Implicit Types (events : list (RunEvent P)) (e : RunEvent P).

Definition verification_payload (self : SnapshotVerification) (ask : option AskId) : P :=
  object
    ([("head", of_text (CommitSha.as_str (SnapshotVerification.head self)));
      ("passed", of_flag (SnapshotVerification.passed self));
      ("commands", of_number (Z.of_nat (SnapshotVerification.commands self)))]
     ++ match ask with Some ask => [("ask_id", of_number (AskId.as_i64 ask))] | None => [] end
     ++ match SnapshotVerification.failure self with
        | Some failure =>
            [("command", of_text (SnapshotFailure.command failure));
             ("exit_code", of_number (SnapshotFailure.exit_code failure));
             ("log_path", of_text (SnapshotFailure.log_path failure));
             ("output_tail", of_text (SnapshotFailure.output_tail failure))]
        | None => []
        end).

Definition snapshot_payload (head : CommitSha) (ask : option AskId) : P :=
  object
    (("head", of_text (CommitSha.as_str head))
     :: match ask with Some ask => [("ask_id", of_number (AskId.as_i64 ask))] | None => [] end).

Definition closed_payload (verified : Verified) (ask : AskId) : P :=
  object
    [("head", of_text (CommitSha.as_str (Verified.head verified)));
     ("verified_event", of_number (EventId.as_i64 (Verified.event verified)));
     ("closed_by", of_text "answer");
     ("ask_id", of_number (AskId.as_i64 ask));
     ("answer", of_text CLOSE);
     ("rechecked", of_flag (bool_decide (Verified.ask_id verified = Some ask)))].

(** What a [run_satisfied_verified] says, when it reads. *)
Definition read_verified e : option Verified :=
  if RunEvent.is_kind e EventKind.RunSatisfiedVerified then
    let payload := RunEvent.payload e in
    text ← text_of payload "head";
    head ← match commit_sha_parse text "snapshot head" with Ok head => Some head | Err _ => None end;
    passed ← flag_of payload "passed";
    Some (Verified.mk head passed (AskId.new <$> number_of payload "ask_id") (RunEvent.id e))
  else None.
(** [iter().rev().filter(..).find_map(..)]. *)
Definition latest_verified events : option Verified := head (omap read_verified (rev events)).

(** ** The course of a claim *)
Definition handed_off e : bool :=
  RunEvent.is_kind e EventKind.TriageFinished
  && text_is (RunEvent.payload e) "action" HAND_OFF_KIND
  && text_is (RunEvent.payload e) "status" (as_str RunStatus.Validating).

Definition rests_after e : option bool :=
  if RunEvent.is_in e [EventKind.RunSatisfiedVerified; EventKind.RunSatisfiedJudged]
  then Some true
  else if RunEvent.is_in e [EventKind.RunSatisfiedSnapshot; EventKind.RunSatisfiedReviewStarted]
  then Some false
  else if RunEvent.is_kind e EventKind.ValidationFinished
          && flag_is (RunEvent.payload e) "already_satisfied"
  then Some true
  else if handed_off e then Some true
  else None.

Definition judgments events : nat :=
  count_of (λ e, RunEvent.is_kind e EventKind.RunSatisfiedReviewStarted) events.
Definition last_step events : option (RunEvent P) :=
  find_last (λ e, is_some (rests_after e)) events.
Definition rests events : bool := bool_decide (last_step events ≫= rests_after = Some true).

(** The [approve_close] asks open after [events]. *)
Definition open_close_asks events : list Z :=
  foldl (λ open e,
    if RunEvent.is_kind e EventKind.AskOpened then
      if text_is (RunEvent.payload e) "kind" "approve_close"
      then open ++ option_list (number_of (RunEvent.payload e) "ask_id") else open
    else if RunEvent.is_in e [EventKind.AskAnswered; EventKind.AskClosed] then
      List.filter
        (λ id, negb (bool_decide (Some id = number_of (RunEvent.payload e) "ask_id"))) open
    else open) [] events.
Definition answer_awaited events : bool :=
  match open_close_asks events with [] => false | _ => true end.

Definition handed_off_since_resume events : bool :=
  existsb handed_off (since_last (λ e, RunEvent.is_kind e EventKind.ResumeStarted) events).
Definition awaits_verification events : bool :=
  is_some_and (last_step events)
    (λ e, RunEvent.is_kind e EventKind.ValidationFinished || handed_off e).
Definition blocks_recovery (status : RunStatus) (leased : bool) events : bool :=
  bool_decide (status = RunStatus.Validating) && negb leased && rests events.
End satisfied.

Module SatisfiedProofs.
Section proofs.
  Context {P : Type} `{Payload P}.
  Implicit Types (events : list (RunEvent P)) (e : RunEvent P).

Lemma latest_verified_app events e :
  latest_verified (events ++ [e]) =
  match read_verified e with Some v => Some v | None => latest_verified events end.
Proof. unfold latest_verified. rewrite rev_app_distr. simpl. by destruct (read_verified e). Qed.

Lemma read_verification `{!PayloadLaws P} e v ask :
  RunEvent.is_kind e EventKind.RunSatisfiedVerified = true →
  RunEvent.payload e = verification_payload v ask →
  commit_sha_parse (CommitSha.as_str (SnapshotVerification.head v)) "snapshot head"
    = Ok (SnapshotVerification.head v) →
  read_verified e = Some (Verified.mk (SnapshotVerification.head v)
    (SnapshotVerification.passed v) ask (RunEvent.id e)).
Proof.
  intros Hk Hp Hhead. unfold read_verified. rewrite Hk, Hp. unfold verification_payload.
  destruct ask as [[ask]|], (SnapshotVerification.failure v) as [f|]; read_payload;
    rewrite Hhead; reflexivity.
Qed.

(** A verification recorded for a person's answer to close reads back as it
    was, and settles that answer wherever [main] stands by then: it closes the
    task when the commands passed and verifies again only when they did not,
    so an answer runs the commands again once at most; another answer closes
    on it only while [main] is still the head it passed on. *)
Theorem close_settled_by_its_verification `{!PayloadLaws P} events e v ask ask' main :
  RunEvent.is_kind e EventKind.RunSatisfiedVerified = true →
  RunEvent.payload e = verification_payload v (Some ask) →
  commit_sha_parse (CommitSha.as_str (SnapshotVerification.head v)) "snapshot head"
    = Ok (SnapshotVerification.head v) →
  let found := Verified.mk (SnapshotVerification.head v) (SnapshotVerification.passed v)
                 (Some ask) (RunEvent.id e) in
  let latest := latest_verified (events ++ [e]) in
  latest = Some found
  ∧ close_step latest ask main
    = (if SnapshotVerification.passed v then CloseStep.Close found else CloseStep.Verify)
  ∧ (ask' ≠ ask →
     close_step latest ask' main = CloseStep.Close found ↔
     SnapshotVerification.passed v = true ∧ SnapshotVerification.head v = main).
Proof.
  intros Hk Hp Hhead. cbv zeta. rewrite latest_verified_app, (read_verification e v _ Hk Hp Hhead).
  split; [done|]. unfold close_step. simpl. split.
  - rewrite (bool_decide_true (Some ask = Some ask)) by done. rewrite orb_true_r, andb_true_r. done.
  - intros Hne. rewrite (bool_decide_false (Some ask = Some ask')) by congruence.
    rewrite orb_false_r. case_bool_decide; destruct (SnapshotVerification.passed v); simpl;
      split; intuition congruence.
Qed.

Definition opens_close e (id : Z) : Prop :=
  RunEvent.is_kind e EventKind.AskOpened = true
  ∧ text_is (RunEvent.payload e) "kind" "approve_close" = true
  ∧ number_of (RunEvent.payload e) "ask_id" = Some id.
Definition settles_ask e (id : Z) : Prop :=
  RunEvent.is_in e [EventKind.AskAnswered; EventKind.AskClosed] = true
  ∧ number_of (RunEvent.payload e) "ask_id" = Some id.

Lemma opens_not_settles e id id' : opens_close e id → ¬ settles_ask e id'.
Proof.
  intros [Hk _] [Hin _]. apply ResumeProofs.is_kind_known in Hk. unfold RunEvent.known in Hk.
  unfold RunEvent.is_in, RecordedKind.is_in in Hin. rewrite Hk in Hin. by vm_compute in Hin.
Qed.

Lemma elem_of_open_close_app events e id :
  id ∈ open_close_asks (events ++ [e]) ↔
  opens_close e id ∨ (id ∈ open_close_asks events ∧ ¬ settles_ask e id).
Proof.
  unfold open_close_asks. rewrite foldl_app. simpl.
  fold (open_close_asks events). set (open := open_close_asks events).
  destruct (RunEvent.is_kind e EventKind.AskOpened) eqn:Hk.
  - assert (¬ settles_ask e id) as Hns.
    { intros Hs. destruct Hs as [Hin _]. apply ResumeProofs.is_kind_known in Hk.
      unfold RunEvent.known in Hk. unfold RunEvent.is_in, RecordedKind.is_in in Hin.
      rewrite Hk in Hin. by vm_compute in Hin. }
    unfold opens_close. rewrite Hk.
    destruct (text_is _ _ _) eqn:Ht; [|naive_solver].
    rewrite elem_of_app. destruct (number_of _ _) as [n|] eqn:Hn; simpl.
    + rewrite list_elem_of_singleton. naive_solver.
    + rewrite elem_of_nil. naive_solver.
  - destruct (RunEvent.is_in e _) eqn:Hin.
    + rewrite list_elem_of_In, filter_In, <-list_elem_of_In, negb_true_iff, bool_decide_eq_false.
      unfold opens_close, settles_ask. rewrite Hk, Hin. naive_solver.
    + unfold opens_close, settles_ask. rewrite Hk, Hin. naive_solver.
Qed.

(** A person's answer is awaited exactly while some question to close was
    opened with an id and no answer or close naming that id came after it. *)
Theorem answer_awaited_exact events :
  answer_awaited events = true ↔
  ∃ id before e after, events = before ++ e :: after ∧ opens_close e id
    ∧ ∀ later, later ∈ after → ¬ settles_ask later id.
Proof.
  assert (∀ id, id ∈ open_close_asks events ↔
    ∃ before e after, events = before ++ e :: after ∧ opens_close e id
      ∧ ∀ later, later ∈ after → ¬ settles_ask later id) as Hopen.
  { intros id. induction events as [|e events IH] using rev_ind.
    { split; [by intros ?%elem_of_nil|by intros ([|] & ? & ? & ? & _)]. }
    rewrite elem_of_open_close_app, IH. split.
    - intros [Ho|[(b & x & a & -> & Ho & Ha) Hs]].
      + exists events, e, []. split; [done|]. split; [done|]. by intros ? ?%elem_of_nil.
      + exists b, x, (a ++ [e]). split; [by rewrite <-app_assoc|]. split; [done|].
        intros later [Hl|Hl]%elem_of_app; [by apply Ha|].
        apply list_elem_of_singleton in Hl as ->. done.
    - intros (b & x & a & Heq & Ho & Ha). destruct a as [|y a _] using rev_ind.
      + apply app_inj_tail in Heq as [_ ->]. by left.
      + rewrite app_comm_cons, app_assoc in Heq. apply app_inj_tail in Heq as [-> ->].
        right. split; [|apply Ha; set_solver].
        exists b, x, a. split; [done|]. split; [done|]. intros l Hl. apply Ha. set_solver. }
  unfold answer_awaited. destruct (open_close_asks events) as [|id l].
  - split; [done|]. intros (id & Hid). by apply Hopen, elem_of_nil in Hid.
  - split; [|done]. intros _. exists id. apply Hopen. by left.
Qed.
End proofs.
End SatisfiedProofs.

Module SatisfiedSample.
Import ResumeSample SatisfiedProofs.
Definition sample_head : CommitSha :=
  CommitSha.wrap "0000000000000000000000000000000000000001".
Definition sample_found : SnapshotVerification := SnapshotVerification.mk sample_head 2 None.

Definition sample_event : RunEvent EventPayload.t :=
  event 7 EventKind.RunSatisfiedVerified
    [("head", EventPayload.Text "0000000000000000000000000000000000000001");
     ("passed", EventPayload.Flag true); ("commands", EventPayload.Number 2);
     ("ask_id", EventPayload.Number 3)].

Lemma close_settled_by_its_verification_witness :
  close_step (latest_verified ([] ++ [sample_event])) (AskId.new 3) (CommitSha.wrap "moved")
  = CloseStep.Close (Verified.mk sample_head true (Some (AskId.new 3)) (EventId.new 7)).
Proof.
  assert (RunEvent.payload sample_event = verification_payload sample_found (Some (AskId.new 3)))
    as Hpayload by reflexivity.
  destruct (close_settled_by_its_verification [] sample_event sample_found (AskId.new 3)
    (AskId.new 3) (CommitSha.wrap "moved") eq_refl Hpayload eq_refl) as (_ & Hclose & _).
  exact Hclose.
Defined.
End SatisfiedSample.
