(* ===== verification/Stranded.v ===== *)
(** * Runs left to land

    [src/src/domain/stranded_landing.rs]: whether a run that awaits
    integration with no lease and no open ask is taken up again by a
    supervisor, or kept for a person and why, and the one take-up by each other
    build of a landing an error stopped. *)
From S2P Require Import Prelude Text Vocab Ids EventKinds Events Reasons Reviews Resumes History.

Module Keep.
Inductive t : Set :=
  | ReviewNotLanding | Asked | LandingStopped | GivenUp | EvalStopsLanding | Fenced
  | RecheckParked | QueuedElsewhere | TaskEnded | AskOpen.
#[global] Instance eq_dec : EqDecision t.
Proof. solve_decision. Defined.
End Keep.
Abbreviation Keep := Keep.t.

(** What the queue says of a run, besides its events. *)
Module Seen.
Record t : Set := mk {
  status : RunStatus;
  leased : bool;
  ask_open : bool;
  fenced : bool;
  task : TaskStatus;
}.
End Seen.
Abbreviation Seen := Seen.t.

Module Stranded.
Inductive t : Set := No | TakeUp | Keep_ (keep : Keep).
#[global] Instance eq_dec : EqDecision t.
Proof. solve_decision. Defined.
End Stranded.
Abbreviation Stranded := Stranded.t.

Definition LANDING_STOPS : list EventKind :=
  [EventKind.IntegrationHeld; EventKind.IntegrationFailed; EventKind.IntegrationDeferred;
   EventKind.IntegrationError; EventKind.LandingDecided].

Definition BUILD_RETRY_KEY : string := "build_retry".

(** The part of an id before its first [:]. *)
Definition id_kind (id : string) : string := hd EmptyString (split_on (Ascii.ascii_of_nat 58) id).

Module BuildRetry.
Record t : Set := mk { error : EventId; error_build : string; build : string }.
#[global] Instance eq_dec : EqDecision t.
Proof. solve_decision. Defined.
Definition record {P} `{Payload P} (self : t) : P :=
  object
    [("error_id", of_number (EventId.as_i64 (error self)));
     ("error_build", of_text (error_build self));
     ("build", of_text (build self))].
End BuildRetry.
Abbreviation BuildRetry := BuildRetry.t.

Section stranded.
  Context {P : Type} `{Payload P}.
  Implicit Types (events : list (RunEvent P)) (e : RunEvent P).

Definition stops e : bool := RunEvent.is_in e LANDING_STOPS.

(** A take-up again that a lease records, and the build it was by. *)
Definition retakes e : bool :=
  RunEvent.is_kind e EventKind.LeaseAcquired
  && is_some (field (RunEvent.payload e) BUILD_RETRY_KEY).
Definition seen_build (build : string) e : bool :=
  if RunEvent.is_kind e EventKind.IntegrationError
  then text_is (RunEvent.payload e) "build" build
  else if RunEvent.is_kind e EventKind.LeaseAcquired
  then is_some_and (field (RunEvent.payload e) BUILD_RETRY_KEY)
         (λ retry, text_is retry "build" build)
  else false.

Definition by_supervisor e : bool :=
  is_some_and (RunEvent.actor e ≫= EventActor.requested_by)
    (λ id, bool_decide (id_kind id = "supervisor")).

Definition retry_after events (review : EventId) (build : option string) : option BuildRetry :=
  build ← build;
  let since := List.filter (λ e, RunHistory.id_after e review) events in
  let stopped := List.filter stops since in
  if existsb (λ e, negb (RunEvent.is_kind e EventKind.IntegrationError)) stopped then None
  else
    error ← last stopped;
    error_build ← text_of (RunEvent.payload error) "build";
    if negb (bool_decide (event_code error = Some ReasonCode.Other))
       || negb (by_supervisor error) || bool_decide (error_build = build)
    then None
    else if existsb (λ e, RunHistory.id_after e (RunEvent.id error) && retakes e) since then None
    else if existsb (seen_build build) since then None
    else Some (BuildRetry.mk (RunEvent.id error) error_build build).

(** The review the judgment goes from: the last one finished, or else where the
    review stands. *)
Definition last_review events : option EventId :=
  anchor ← review_anchor events;
  Some (match RunHistory.last events EventKind.ReviewFinished with
        | Some review => RunEvent.id review
        | None => RunEvent.id anchor
        end).

Definition build_retry events (build : option string) : option BuildRetry :=
  review ← last_review events; retry_after events review build.

(** [take_while(id > review).find(run_agent_eval_finished)] of the reversed
    events: those after the last one not past [review]. *)
Definition eval_stopped events (review : EventId) : bool :=
  is_some_and
    (find_last (λ e, RunEvent.is_kind e EventKind.RunAgentEvalFinished)
       (since_last (λ e, negb (RunHistory.id_after e review)) events))
    (λ e, negb (text_is (RunEvent.payload e) "outcome" "passed")).

Definition anchor_lands events (anchor : RunEvent P) : bool :=
  if RunEvent.is_kind anchor EventKind.ReviewFinished then RunHistory.review_lets_land events
  else if RunEvent.is_kind anchor EventKind.ConflictPrecheck then
    negb (flag_is (RunEvent.payload anchor) "requested")
    && is_none (text_of (RunEvent.payload anchor) "asked")
    && RunHistory.review_lets_land events
  else false.

Definition kept events (build : option string) : option Keep :=
  match review_anchor events, last_review events with
  | Some anchor, Some review =>
      let after kinds :=
        existsb (λ e, RunHistory.id_after e review && RunEvent.is_in e kinds) events in
      if after [EventKind.ReplanParked; EventKind.HoldParked] then Some Keep.Fenced
      else if negb (anchor_lands events anchor) then Some Keep.ReviewNotLanding
      else if after [EventKind.AskOpened] then Some Keep.Asked
      else if existsb (λ e, RunHistory.id_after e review
                 && RunEvent.is_kind e EventKind.RuntimeError
                 && flag_is (RunEvent.payload e) "lease_released") events
      then Some Keep.GivenUp
      else if after LANDING_STOPS && is_none (retry_after events review build)
      then Some Keep.LandingStopped
      else if eval_stopped events review then Some Keep.EvalStopsLanding
      else if parked_by_recheck events then Some Keep.RecheckParked
      else if is_some (RunHistory.queued_to_land events)
              || is_some (RunHistory.recovered_landing events)
              || is_some (RunHistory.queued_review_retry events)
      then Some Keep.QueuedElsewhere
      else None
  | _, _ => Some Keep.ReviewNotLanding
  end.

Definition judge_stranded (seen : Seen) events (build : option string) : Stranded :=
  if negb (bool_decide (Seen.status seen = RunStatus.AwaitingIntegration)) || Seen.leased seen
  then Stranded.No
  else
    let keep :=
      if Seen.ask_open seen then Some Keep.AskOpen
      else if negb (bool_decide (Seen.task seen = TaskStatus.InProgress)) then Some Keep.TaskEnded
      else if Seen.fenced seen then Some Keep.Fenced
      else kept events build in
    match keep with Some keep => Stranded.Keep_ keep | None => Stranded.TakeUp end.
End stranded.

Module StrandedProofs.
Section proofs.
  Context {P : Type} `{Payload P}.
  Implicit Types (events : list (RunEvent P)) (e : RunEvent P).

(** The events that move the judgment's review. *)
Definition reviews e : bool :=
  RunEvent.is_in e
    [EventKind.ValidationFinished; EventKind.ReviewStarted; EventKind.ReviewFinished;
     EventKind.ReviseRequested; EventKind.ReviseUnsent; EventKind.ReviseFinished;
     EventKind.ConflictPrecheck; EventKind.ConflictResolved].

Lemma last_review_app events later :
  (∀ e, e ∈ later → reviews e = false) → last_review (events ++ later) = last_review events.
Proof.
  induction later as [|e later IH] using rev_ind; [by rewrite app_nil_r|].
  intros Hno. rewrite app_assoc. rewrite <-IH by (intros x Hx; apply Hno; set_solver).
  specialize (Hno e ltac:(set_solver)). unfold last_review, review_anchor, RunHistory.last,
    RunHistory.last_of. rewrite !find_last_app. fold (reviews e). rewrite Hno.
  assert (RunEvent.is_in e [EventKind.ReviewFinished] = false) as ->; [|done].
  apply not_true_iff_false. intros Hin. apply not_true_iff_false in Hno. destruct Hno.
  unfold reviews, RunEvent.is_in, RecordedKind.is_in in *.
  destruct (RecordedKind.known _) as [k|]; [|done]. simpl in *.
  apply bool_decide_eq_true in Hin. apply bool_decide_eq_true.
  apply list_elem_of_singleton in Hin as ->. do 2 right. left.
Qed.

(** A supervisor of a build that takes a stopped landing up again, recording
    it in the lease it takes, never takes the run up on that ground again while
    its review stays the same, whatever else happens to the run; so builds that
    fail one after the other each try it once, and a build tried before is not
    tried again. *)
Theorem build_retried_once `{!PayloadLaws P} events build retry lease later review :
  last_review events = Some review →
  build_retry events (Some build) = Some retry →
  RunEvent.is_kind lease EventKind.LeaseAcquired = true →
  field (RunEvent.payload lease) BUILD_RETRY_KEY = Some (BuildRetry.record retry) →
  RunHistory.id_after lease review = true →
  (∀ e, e ∈ later → reviews e = false) →
  build_retry (events ++ lease :: later) (Some build) = None.
Proof.
  intros Hreview Hretry Hlease Hrecord Hafter Hlater.
  assert (BuildRetry.build retry = build) as Hbuild.
  { unfold build_retry in Hretry. rewrite Hreview in Hretry. simpl in Hretry.
    unfold retry_after in Hretry. simpl in Hretry. destruct (existsb _ _); [done|].
    apply bind_Some in Hretry as (error & _ & Hretry).
    apply bind_Some in Hretry as (eb & _ & Hretry).
    repeat (destruct (_ || _) || destruct (existsb _ _); [done|]).
    by injection Hretry as <-. }
  assert (seen_build build lease = true) as Hseen.
  { unfold seen_build.
    rewrite (ResumeProofs.is_kind_other _ _ EventKind.IntegrationError Hlease) by done.
    rewrite Hlease, Hrecord. simpl. unfold BuildRetry.record. read_payload.
    rewrite Hbuild. by apply bool_decide_eq_true. }
  unfold build_retry. rewrite last_review_app, Hreview.
  2:{ intros e [->|He]%elem_of_cons; [|by apply Hlater].
      apply ResumeProofs.is_kind_known in Hlease. unfold RunEvent.known in Hlease.
      unfold reviews, RunEvent.is_in, RecordedKind.is_in. rewrite Hlease. by vm_compute. }
  simpl. unfold retry_after. simpl. destruct (existsb _ _) at 1; [done|].
  destruct (last _) as [error|]; [|done]. simpl.
  destruct (text_of _ _) as [eb|]; [|done]. simpl.
  destruct (_ || _); [done|]. destruct (existsb _ _) at 1; [done|].
  assert (existsb (seen_build build)
    (List.filter (λ e, RunHistory.id_after e review) (events ++ lease :: later)) = true) as ->; [|done].
  apply existsb_exists. exists lease. split; [|done].
  apply filter_In. split; [|done]. apply in_or_app. right. by left.
Qed.

(** A run is taken up exactly when it waits for integration with no lease
    and no open ask, its task goes on unfenced, and its events keep it for
    nobody; and events that let it be taken up hold a review that lets it land
    since its latest park, no stop of its landing but one an error made that
    another build may try, and nothing that queues it elsewhere. *)
Theorem taken_up_exactly seen events build :
  (judge_stranded seen events build = Stranded.TakeUp ↔
   Seen.status seen = RunStatus.AwaitingIntegration ∧ Seen.leased seen = false
   ∧ Seen.ask_open seen = false ∧ Seen.task seen = TaskStatus.InProgress
   ∧ Seen.fenced seen = false ∧ kept events build = None)
  ∧ (kept events build = None →
     RunHistory.review_lets_land events = true
     ∧ RunHistory.queued_to_land events = None
     ∧ ∃ review, last_review events = Some review
       ∧ ((∃ e, e ∈ events ∧ stops e = true ∧ RunHistory.id_after e review = true) →
          is_some (build_retry events build) = true)).
Proof.
  split.
  - unfold judge_stranded. destruct seen as [status leased ask fenced task]. simpl.
    repeat case_bool_decide; destruct leased, ask, fenced; simpl; try (split; [done|naive_solver]);
      destruct (kept events build); split; naive_solver.
  - unfold kept. destruct (review_anchor events) as [anchor|] eqn:Hanchor; [|done].
    destruct (last_review events) as [review|] eqn:Hreview; [|done].
    destruct (existsb _ _) at 1; [done|].
    destruct (anchor_lands events anchor) eqn:Hlands; simpl; [|done].
    destruct (existsb _ _) at 1; [done|]. destruct (existsb _ _) at 1; [done|].
    destruct (existsb _ _ && _) eqn:Hstop; [done|].
    destruct (eval_stopped _ _); [done|]. destruct (parked_by_recheck _); [done|].
    destruct (_ || _) eqn:Hqueued; [done|]. intros _. bool_split. split; [|split].
    + unfold anchor_lands in Hlands. destruct (RunEvent.is_kind anchor EventKind.ReviewFinished); [done|].
      destruct (RunEvent.is_kind anchor EventKind.ConflictPrecheck); [|done]. by bool_split.
    + by destruct (RunHistory.queued_to_land events).
    + exists review. split; [done|]. intros (e & He & Hs & Hid).
      unfold build_retry. rewrite Hreview. simpl.
      apply andb_false_iff in Hstop as [Hnone|Hretry].
      * exfalso. apply not_true_iff_false in Hnone. apply Hnone, existsb_exists. exists e.
        split; [by apply list_elem_of_In|]. rewrite Hid. exact Hs.
      * unfold is_none in Hretry. by apply negb_false_iff in Hretry.
Qed.
End proofs.
End StrandedProofs.

Module StrandedSample.
Import ResumeSample StrandedProofs.
Definition stopped_landing : list (RunEvent EventPayload.t) :=
  [event 1 EventKind.ReviewFinished [("verdict", EventPayload.Text "pass")];
   RunEvent.mk (EventId.new 2) None None None (RecordedKind.Known EventKind.IntegrationError)
     (EventPayload.Object [("code", EventPayload.Text "other"); ("build", EventPayload.Text "A")])
     EmptyString (Some (EventActor.mk "queue" "q" (Some "supervisor:7")))].
Definition sample_retry : BuildRetry := BuildRetry.mk (EventId.new 2) "A" "B".
Definition sample_lease : RunEvent EventPayload.t :=
  event 3 EventKind.LeaseAcquired [(BUILD_RETRY_KEY, BuildRetry.record sample_retry)].

Lemma build_retried_once_witness :
  build_retry stopped_landing (Some "B") = Some sample_retry
  ∧ build_retry (stopped_landing ++ [sample_lease]) (Some "B") = None.
Proof.
  assert (build_retry stopped_landing (Some "B") = Some sample_retry) as Hretry
    by (vm_compute; reflexivity).
  split; [exact Hretry|].
  apply (build_retried_once stopped_landing "B" sample_retry sample_lease [] (EventId.new 1));
    [vm_compute; reflexivity|exact Hretry|vm_compute; reflexivity..|].
  intros e He. by apply elem_of_nil in He.
Defined.
End StrandedSample.
