(* ===== verification/RunPhase.v ===== *)
(** * The phases of a run

    [src/src/domain/run_phase.rs]: the phases a run's life is recorded in,
    their tags, the phase a run rests in by its status and its events, and the
    record of a change of phase, written and read back. *)
From S2P Require Import Prelude Text Vocab Ids EventKinds Events Reasons Resumes History Satisfied Stranded.

Definition RULES_VERSION : Z := 1.

(** An enum that [serde] writes in snake case. *)
Module Blocker.
Inductive t : Set := Queue | Ai | Compute | Human | Runtime | External | Infra.
#[global] Instance eq_dec : EqDecision t.
Proof. solve_decision. Defined.
#[global] Instance string_enum : StringEnum t :=
  Build_StringEnum t "Blocker"
    (λ v, match v with
          | Queue => "queue" | Ai => "ai" | Compute => "compute" | Human => "human"
          | Runtime => "runtime" | External => "external" | Infra => "infra"
          end)
    [Queue; Ai; Compute; Human; Runtime; External; Infra].
#[global] Instance laws : StringEnumLaws t.
Proof. string_enum_laws. Qed.
End Blocker.
Abbreviation Blocker := Blocker.t.

Module SlotHeld.
Inductive t : Set := WorkerSlot | LandingSlot | None.
#[global] Instance eq_dec : EqDecision t.
Proof. solve_decision. Defined.
#[global] Instance string_enum : StringEnum t :=
  Build_StringEnum t "Holds"
    (λ v, match v with
          | WorkerSlot => "worker_slot" | LandingSlot => "landing_slot" | None => "none"
          end)
    [WorkerSlot; LandingSlot; None].
#[global] Instance laws : StringEnumLaws t.
Proof. string_enum_laws. Qed.
End SlotHeld.
Abbreviation SlotHeld := SlotHeld.t.

Module Tags.
Record t : Set := mk { blocker : Blocker; holds : SlotHeld }.
End Tags.
Abbreviation Tags := Tags.t.

Module AttemptKind.
Inductive t : Set := First | Revise | Conflict | Resume.
#[global] Instance eq_dec : EqDecision t.
Proof. solve_decision. Defined.
#[global] Instance string_enum : StringEnum t :=
  Build_StringEnum t "AttemptKind"
    (λ v, match v with
          | First => "first" | Revise => "revise" | Conflict => "conflict" | Resume => "resume"
          end)
    [First; Revise; Conflict; Resume].
#[global] Instance laws : StringEnumLaws t.
Proof. string_enum_laws. Qed.
End AttemptKind.
Abbreviation AttemptKind := AttemptKind.t.

Module Attempt.
Record t : Set := mk { kind : AttemptKind; n : nat }.
#[global] Instance eq_dec : EqDecision t.
Proof. solve_decision. Defined.
Definition FIRST : t := mk AttemptKind.First 1.
End Attempt.
Abbreviation Attempt := Attempt.t.

(** [EnvironmentWait] of [src/src/domain/environment.rs]. *)
Module EnvironmentWait.
Inductive t : Set := Placement | ImagePull | Preparation | ResultReturn.
#[global] Instance eq_dec : EqDecision t.
Proof. solve_decision. Defined.
Definition phase_name (self : t) : string :=
  match self with
  | Placement => "environment_placement"
  | ImagePull => "environment_image_pull"
  | Preparation => "environment_preparation"
  | ResultReturn => "environment_result_return"
  end.
End EnvironmentWait.
Abbreviation EnvironmentWait := EnvironmentWait.t.

Module Phase.
Inductive t : Set :=
  | Provisioning
  | Environment (wait : EnvironmentWait)
  | Worker
  | Validating
  | Review
  | ReviewHeld
  | Revise
  | Exiting
  | Resume
  | Recovery
  | Waiting (in_slot : bool)
  | Verifying
  | ClaimAnswer
  | ClaimHeld
  | Returning
  | AwaitingSlot
  | AgentEval
  | AwaitingE2e
  | E2e
  | LandingQueue
  | Landing
  | LandingAnswer
  | NeedsSession
  | Held
  | Push (in_slot : bool)
  | PushPending
  | Ended.
#[global] Instance eq_dec : EqDecision t.
Proof. solve_decision. Defined.

Definition name (self : t) : string :=
  match self with
  | Provisioning => "provisioning"
  | Environment wait => EnvironmentWait.phase_name wait
  | Worker => "worker"
  | Validating => "validating"
  | Review => "review"
  | ReviewHeld => "review_held"
  | Revise => "revise"
  | Exiting => "exiting"
  | Resume => "resume"
  | Recovery => "recovery"
  | Waiting _ => "waiting"
  | Verifying => "verifying"
  | ClaimAnswer => "claim_answer"
  | ClaimHeld => "claim_held"
  | Returning => "returning"
  | AwaitingSlot => "awaiting_slot"
  | AgentEval => "agent_eval"
  | AwaitingE2e => "awaiting_e2e"
  | E2e => "e2e"
  | LandingQueue => "landing_queue"
  | Landing => "landing"
  | LandingAnswer => "landing_answer"
  | NeedsSession => "needs_session"
  | Held => "held"
  | Push _ => "push"
  | PushPending => "push_pending"
  | Ended => "ended"
  end.

Definition tags (self : t) : Tags :=
  let '(blocker, holds) :=
    match self with
    | Provisioning | Environment _ => (Blocker.Infra, SlotHeld.WorkerSlot)
    | Worker | Review | Revise | Resume | Recovery | AgentEval => (Blocker.Ai, SlotHeld.WorkerSlot)
    | Validating | Exiting => (Blocker.Runtime, SlotHeld.WorkerSlot)
    | ReviewHeld => (Blocker.External, SlotHeld.WorkerSlot)
    | Waiting false | LandingAnswer | ClaimAnswer | PushPending | Held =>
        (Blocker.Human, SlotHeld.None)
    | Waiting true => (Blocker.Human, SlotHeld.WorkerSlot)
    | Verifying => (Blocker.Compute, SlotHeld.WorkerSlot)
    | Returning | LandingQueue | NeedsSession | ClaimHeld => (Blocker.Queue, SlotHeld.None)
    | AwaitingSlot | AwaitingE2e => (Blocker.Queue, SlotHeld.WorkerSlot)
    | E2e => (Blocker.Compute, SlotHeld.WorkerSlot)
    | Landing => (Blocker.Compute, SlotHeld.LandingSlot)
    | Push true => (Blocker.External, SlotHeld.WorkerSlot)
    | Push false => (Blocker.External, SlotHeld.None)
    | Ended => (Blocker.Runtime, SlotHeld.None)
    end in
  Tags.mk blocker holds.

Definition at_rest (status : RunStatus) (queued : bool) : option t :=
  match status with
  | RunStatus.NeedsSession => Some NeedsSession
  | RunStatus.AwaitingIntegration => Some (if queued then LandingQueue else LandingAnswer)
  | RunStatus.Failed | RunStatus.Interrupted | RunStatus.Succeeded | RunStatus.Replaced =>
      Some Ended
  | RunStatus.Claimed | RunStatus.Starting | RunStatus.Running | RunStatus.Validating
  | RunStatus.Integrating | RunStatus.Integrated => None
  end.

Definition PUSHED : string := "pushed".
Definition after_push (kind : EventKind) : t * string :=
  if bool_decide (kind = EventKind.PushFailed)
  then (PushPending, EventKind.as_str EventKind.PushFailed)
  else if bool_decide (kind = EventKind.PushSkipped)
  then (Ended, EventKind.as_str EventKind.PushSkipped)
  else (Ended, PUSHED).
End Phase.
Abbreviation Phase := Phase.t.

(** [ends_hold] of [src/src/domain/task_hold.rs]. *)
Definition ends_hold {P} (event : RunEvent P) : bool :=
  RunEvent.is_kind event EventKind.TaskReleased || RunEvent.is_kind event EventKind.TaskHoldEnded.

(** What a recorded change says. *)
Module Recorded.
Record t : Set := mk {
  phase : string;
  attempt : Attempt;
  blocked_by : option string;
  holds : option SlotHeld;
}.
#[global] Instance eq_dec : EqDecision t.
Proof. solve_decision. Defined.

Section read.
  Context {P : Type} `{Payload P}.

(** [serde_json::from_value::<Attempt>]: an object with both fields. *)
Definition read_attempt (value : P) : option Attempt :=
  kind ← text_of value "kind" ≫= (@parse_enum AttemptKind _);
  n ← unsigned_of value "n";
  Some (Attempt.mk kind (N.to_nat n)).

Definition of_ (payload : P) : option t :=
  phase ← text_of payload "phase";
  Some (mk phase
    (unwrap_or (field payload "attempt" ≫= read_attempt) Attempt.FIRST)
    (text_of payload "blocked_by")
    (text_of payload "holds" ≫= (@parse_enum SlotHeld _))).
Definition of_event (event : RunEvent P) : option t :=
  if RunEvent.is_kind event EventKind.RunPhaseChanged then of_ (RunEvent.payload event) else None.
End read.
Definition is_ (self : t) (phase' : Phase) : bool :=
  bool_decide (phase self = Phase.name phase').
End Recorded.
Abbreviation Recorded := Recorded.t.

Definition last_recorded {P} `{Payload P} (events : list (RunEvent P)) : option Recorded :=
  e ← find_last (λ e, RunEvent.is_kind e EventKind.RunPhaseChanged) events;
  Recorded.of_ (RunEvent.payload e).

Module PhaseChange.
Record t : Set := mk {
  phase : Phase;
  attempt : Attempt;
  cause : string;
  blocked_by : option string;
}.
#[global] Instance eq_dec : EqDecision t.
Proof. solve_decision. Defined.
Definition new (phase : Phase) (attempt : Attempt) (cause : string) : t :=
  mk phase attempt cause None.
Definition with_blocked_by (self : t) (run : option string) : t :=
  mk (phase self) (attempt self) (cause self)
    (if bool_decide (phase self = Phase.LandingQueue) then run else None).
Definition payload {P} `{Payload P} (self : t) : P :=
  let tags := Phase.tags (phase self) in
  object
    ([("phase", of_text (Phase.name (phase self)));
      ("blocker", of_text (as_str (Tags.blocker tags)));
      ("holds", of_text (as_str (Tags.holds tags)));
      ("attempt", object
         [("kind", of_text (as_str (Attempt.kind (attempt self))));
          ("n", of_number (Z.of_nat (Attempt.n (attempt self))))]);
      ("cause", of_text (cause self));
      ("v", of_number RULES_VERSION)]
     ++ match blocked_by self with Some run => [("blocked_by", of_text run)] | None => [] end).
Definition repeats (self : t) (recorded : option Recorded) : bool :=
  is_some_and recorded (λ r,
    bool_decide (Recorded.phase r = Phase.name (phase self))
    && bool_decide (Recorded.attempt r = attempt self)
    && bool_decide (Recorded.blocked_by r = blocked_by self)
    && is_none_or (Recorded.holds r)
         (λ holds, bool_decide (holds = Tags.holds (Phase.tags (phase self))))).
Definition recorded (self : t) : Recorded :=
  Recorded.mk (Phase.name (phase self)) (attempt self) (blocked_by self)
    (Some (Tags.holds (Phase.tags (phase self)))).
End PhaseChange.
Abbreviation PhaseChange := PhaseChange.t.

Section phases.
  Context {P : Type} `{Payload P}.
  Implicit Types events : list (RunEvent P).

Definition held_unreleased events : bool :=
  is_some_and
    (find_last (λ e, RunEvent.is_kind e EventKind.RunPhaseChanged) (since_last ends_hold events))
    (λ e, text_is (RunEvent.payload e) "phase" (Phase.name Phase.Held)).

Definition awaiting_at_rest (status : RunStatus) events (build : option string) : option Phase :=
  then_some
    (bool_decide (status = RunStatus.AwaitingIntegration)
     && is_none (RunHistory.queued_approval events)
     && is_none (kept events build))
    Phase.Returning.

Definition or_at_rest (first : option Phase) (status : RunStatus) events : option Phase :=
  match first with
  | Some phase => Some phase
  | None => Phase.at_rest status (is_some (RunHistory.queued_approval events))
  end.

Definition resting (status : RunStatus) events (build : option string) : option Phase :=
  if RunStatus.is_unfinished status && held_unreleased events then Some Phase.Held
  else if bool_decide (status = RunStatus.Validating) && rests events then
    Some (if answer_awaited events then Phase.ClaimAnswer else Phase.ClaimHeld)
  else or_at_rest (awaiting_at_rest status events build) status events.

Definition after_landing (status : RunStatus) events (build : option string) : option Phase :=
  if RunStatus.is_unfinished status && held_unreleased events then Some Phase.Held
  else or_at_rest (awaiting_at_rest status events build) status events.

Definition after_recovery (status : RunStatus) events : option Phase :=
  if RunStatus.is_unfinished status && held_unreleased events then Some Phase.Held
  else
    let awaiting := bool_decide (status = RunStatus.AwaitingIntegration) in
    match RunHistory.recovered_landing events with
    | Some (RecoveredLanding.Land _) =>
        if awaiting then Some Phase.LandingQueue
        else or_at_rest (awaiting_at_rest status events None) status events
    | Some (RecoveredLanding.Review _) =>
        if awaiting then Some Phase.Returning
        else or_at_rest (awaiting_at_rest status events None) status events
    | None => or_at_rest (awaiting_at_rest status events None) status events
    end.

Definition next_change events (phase : Phase) (cause : string) : option PhaseChange :=
  let last := last_recorded events in
  let attempt := match last with Some recorded => Recorded.attempt recorded | None => Attempt.FIRST end in
  let change := PhaseChange.new phase attempt cause in
  then_some (negb (PhaseChange.repeats change last)) change.
End phases.

Module PhaseProofs.
Section proofs.
  Context {P : Type} `{Payload P}.
  Implicit Types (events : list (RunEvent P)) (e : RunEvent P).

Lemma parse_holds (holds : SlotHeld) : parse_enum (as_str holds) = Some holds.
Proof. apply parse_as_str. Qed.

Lemma read_attempt_object `{!PayloadLaws P} (attempt : Attempt) :
  Recorded.read_attempt
    (object [("kind", of_text (as_str (Attempt.kind attempt)));
             ("n", of_number (Z.of_nat (Attempt.n attempt)))]) = Some attempt.
Proof.
  unfold Recorded.read_attempt. read_payload. rewrite parse_as_str. cbn [mbind option_bind].
  destruct (Z.leb_spec 0 (Z.of_nat (Attempt.n attempt))) as [_|Hneg]; [|lia].
  cbn [mbind option_bind]. rewrite <-nat_N_Z, N2Z.id, Nat2N.id. by destruct attempt.
Qed.

Lemma recorded_payload `{!PayloadLaws P} (c : PhaseChange) :
  Recorded.of_ (PhaseChange.payload c) = Some (PhaseChange.recorded c).
Proof.
  unfold Recorded.of_, PhaseChange.payload, PhaseChange.recorded.
  destruct (PhaseChange.blocked_by c) as [run|]; read_payload; rewrite read_attempt_object, parse_holds;
    reflexivity.
Qed.

(** A change of phase a run records reads back as the phase, the attempt,
    the landing slot's holder and the slot it holds; from then on it is the
    run's last record, and the same phase in that attempt is not recorded
    again, whatever moves the run to it. *)
Theorem phase_recorded_once `{!PayloadLaws P} events phase cause change e :
  next_change events phase cause = Some change →
  RunEvent.is_kind e EventKind.RunPhaseChanged = true →
  RunEvent.payload e = PhaseChange.payload change →
  Recorded.of_event e = Some (PhaseChange.recorded change)
  ∧ last_recorded (events ++ [e]) = Some (PhaseChange.recorded change)
  ∧ Recorded.is_ (PhaseChange.recorded change) phase = true
  ∧ ∀ again, next_change (events ++ [e]) phase again = None.
Proof.
  intros Hnext Hk Hp. unfold Recorded.of_event. rewrite Hk, Hp, recorded_payload.
  assert (last_recorded (events ++ [e]) = Some (PhaseChange.recorded change)) as Hlast.
  { unfold last_recorded. rewrite find_last_app, Hk. simpl. by rewrite Hp, recorded_payload. }
  unfold next_change in Hnext. unfold then_some in Hnext.
  destruct (negb _) in Hnext; [|done]. injection Hnext as <-.
  split; [done|]. split; [done|]. split; [by apply bool_decide_eq_true|].
  intros again. unfold next_change. rewrite Hlast. simpl. unfold PhaseChange.repeats. simpl.
  by rewrite !bool_decide_true.
Qed.

Lemma held_unreleased_spec events :
  held_unreleased events = true ↔
  ∃ before e after, events = before ++ e :: after
    ∧ RunEvent.is_kind e EventKind.RunPhaseChanged = true
    ∧ text_is (RunEvent.payload e) "phase" (Phase.name Phase.Held) = true
    ∧ ∀ later, later ∈ after →
        RunEvent.is_kind later EventKind.RunPhaseChanged = false ∧ ends_hold later = false.
Proof.
  assert (∀ x : RunEvent P, RunEvent.is_kind x EventKind.RunPhaseChanged = true → ends_hold x = false)
    as Hkinds.
  { intros x Hx. unfold ends_hold.
    rewrite (ResumeProofs.is_kind_other _ _ EventKind.TaskReleased Hx) by done.
    by rewrite (ResumeProofs.is_kind_other _ _ EventKind.TaskHoldEnded Hx) by done. }
  unfold held_unreleased. induction events as [|x events IH] using rev_ind.
  { split; [done|]. by intros ([|] & ? & ? & ? & _). }
  rewrite since_last_app. destruct (ends_hold x) eqn:Hends.
  { split; [done|]. intros (b & e & a & Heq & Hk & _ & Ha).
    destruct a as [|y a _] using rev_ind.
    - apply app_inj_tail in Heq as [_ ->]. by rewrite (Hkinds _ Hk) in Hends.
    - rewrite app_comm_cons, app_assoc in Heq. apply app_inj_tail in Heq as [_ ->].
      destruct (Ha y ltac:(set_solver)) as [_ Hf]. congruence. }
  rewrite find_last_app. destruct (RunEvent.is_kind x EventKind.RunPhaseChanged) eqn:Hk.
  - simpl. split.
    + intros Ht. exists events, x, []. split; [done|]. split; [done|]. split; [done|].
      intros later Hl. by apply elem_of_nil in Hl.
    + intros (b & e & a & Heq & _ & Ht & Ha). destruct a as [|y a _] using rev_ind.
      * by apply app_inj_tail in Heq as [_ ->].
      * rewrite app_comm_cons, app_assoc in Heq. apply app_inj_tail in Heq as [_ ->].
        destruct (Ha y ltac:(set_solver)) as [Hf _]. congruence.
  - rewrite IH. split.
    + intros (b & e & a & -> & Hke & Ht & Ha). exists b, e, (a ++ [x]).
      split; [by rewrite <-app_assoc|]. split; [done|]. split; [done|].
      intros later [Hl|Hl]%elem_of_app; [by apply Ha|].
      by apply list_elem_of_singleton in Hl as ->.
    + intros (b & e & a & Heq & Hke & Ht & Ha). destruct a as [|y a _] using rev_ind.
      * apply app_inj_tail in Heq as [_ ->]. congruence.
      * rewrite app_comm_cons, app_assoc in Heq. apply app_inj_tail in Heq as [-> ->].
        exists b, e, a. split; [done|]. split; [done|]. split; [done|].
        intros later Hl. apply Ha. set_solver.
Qed.

(** A run rests in its hold's wait exactly while it is unfinished and its
    last record since the holds that closed is that wait: the release or the
    end of its task takes it out, whatever its status, and no status puts a run
    there by itself. *)
Theorem rests_held_exactly status events build :
  (resting status events build = Some Phase.Held ↔
   RunStatus.is_unfinished status = true
   ∧ ∃ before e after, events = before ++ e :: after
     ∧ RunEvent.is_kind e EventKind.RunPhaseChanged = true
     ∧ text_is (RunEvent.payload e) "phase" (Phase.name Phase.Held) = true
     ∧ ∀ later, later ∈ after →
         RunEvent.is_kind later EventKind.RunPhaseChanged = false ∧ ends_hold later = false)
  ∧ (after_landing status events build = Some Phase.Held ↔
     resting status events build = Some Phase.Held).
Proof.
  rewrite <-held_unreleased_spec. unfold resting, after_landing.
  assert (or_at_rest (awaiting_at_rest status events build) status events ≠ Some Phase.Held) as Hne.
  { unfold or_at_rest, awaiting_at_rest, then_some.
    destruct (bool_decide _ && is_none _ && is_none _); [done|].
    by destruct status, (is_some (RunHistory.queued_approval events)). }
  destruct (RunStatus.is_unfinished status && held_unreleased events) eqn:Hheld.
  - apply andb_true_iff in Hheld. naive_solver.
  - split; split.
    + rewrite ?Hheld; destruct (bool_decide (status = RunStatus.Validating) && rests events);
        [by destruct (answer_awaited events)|intros Hr; by destruct (Hne Hr)].
    + intros Hboth. apply andb_true_iff in Hboth. congruence.
    + intros Hr. by destruct (Hne Hr).
    + rewrite ?Hheld; destruct (bool_decide (status = RunStatus.Validating) && rests events);
        [by destruct (answer_awaited events)|intros Hr; by destruct (Hne Hr)].
Qed.
End proofs.
End PhaseProofs.

Module PhaseSample.
Import ResumeSample PhaseProofs.
Definition sample_change : PhaseChange := PhaseChange.new Phase.Held Attempt.FIRST "task_held".
Definition sample_entered : RunEvent EventPayload.t :=
  RunEvent.mk (EventId.new 1) None None None (RecordedKind.Known EventKind.RunPhaseChanged)
    (PhaseChange.payload sample_change) EmptyString None.

Lemma phase_recorded_once_witness :
  next_change [] Phase.Held "task_held" = Some sample_change
  ∧ next_change ([] ++ [sample_entered]) Phase.Held "hold_settled" = None.
Proof.
  assert (next_change (P:=EventPayload.t) [] Phase.Held "task_held" = Some sample_change) as Hnext
    by (vm_compute; reflexivity).
  split; [exact Hnext|].
  apply (phase_recorded_once [] Phase.Held "task_held" sample_change sample_entered Hnext);
    vm_compute; reflexivity.
Defined.
End PhaseSample.
