(* ===== verification/Holds.v ===== *)
(** * Holds of tasks

    [src/src/domain/task_hold.rs]: the mark a person or the inbox puts on a
    task so that the runtime does not move it on, how its run settles for it,
    how a release goes on, what becomes of a result kept meanwhile, and when a
    person is reminded; with what the next run inherits after a release
    ([inherited_from] of [src/src/domain/resume.rs]) and the turns a release
    reads ([src/src/domain/turn.rs]). *)
From S2P Require Import Prelude Text Vocab Ids Errors Workers Tasks Replans Runs EventKinds Events Reasons Resumes.

Module TaskHold.
Record t : Set := mk {
  id : HoldId;
  task_id : TaskId;
  run_id : option RunId;
  reason : string;
  until : option Z;
  by_role : string;
  by_id : string;
  created_at : Z;
  settled_at : option Z;
}.
#[global] Instance eq_dec : EqDecision t.
Proof. solve_decision. Defined.
#[global] Instance updatable : Updatable t :=
  λ h, mk (id h) (task_id h) (run_id h) (reason h) (until h) (by_role h) (by_id h)
    (created_at h) (settled_at h).
Definition state (self : t) : HoldState :=
  if is_some (settled_at self) then HoldState.Held else HoldState.Settling.
Definition guard (self : t) : Replan.HoldGuard := Replan.mk_hold (task_id self) (id self).

(** A day. *)
Definition HOLD_REMIND_SECS : Z := 24 * 60 * 60.
Definition first_due (self : t) : Z :=
  match until self with
  | Some until => until
  | None => saturate_i64 (created_at self + HOLD_REMIND_SECS)
  end.
Definition overdue (self : t) (now : Z) : option HoldReminder :=
  if (now <? first_due self)%Z then None
  else if is_some (until self) then Some HoldReminder.UntilPassed
  else Some HoldReminder.LongHeld.
Definition reminder_due (self : t) (last : option Z) (now : Z) : option HoldReminder :=
  match overdue self now, last with
  | Some cause, Some last =>
      if (now <? saturate_i64 (last + HOLD_REMIND_SECS))%Z then None else Some cause
  | cause, _ => cause
  end.
End TaskHold.
Abbreviation TaskHold := TaskHold.t.

Module HoldTarget.
Inductive t : Set := Task (task : TaskId) | Run (run : RunId).
Definition requested (self : t) : string :=
  match self with Task _ => "task" | Run _ => "run" end.
End HoldTarget.
Abbreviation HoldTarget := HoldTarget.t.

(** ** The release *)
Module ReleaseChoice.
Record t : Set := mk { provider : option Provider; model : option string }.
End ReleaseChoice.
Abbreviation ReleaseChoice := ReleaseChoice.t.

Definition decision_new_run (self : ReleaseDecision) : bool :=
  match self with ReleaseDecision.RetryInherit | ReleaseDecision.RetryFresh => true | _ => false end.
Definition decision_continuation (self : ReleaseDecision) : string :=
  match self with
  | ReleaseDecision.Claim => "claim"
  | ReleaseDecision.Resume => "continue"
  | ReleaseDecision.RetryInherit | ReleaseDecision.RetryFresh => "new_run"
  end.

Module ReleaseFacts.
Record t : Set := mk {
  task : TaskStatus;
  run : option RunStatus;
  run_provider : option Provider;
  session : bool;
  kept : bool;
}.
End ReleaseFacts.
Abbreviation ReleaseFacts := ReleaseFacts.t.

Definition ends_run (facts : ReleaseFacts) (choice : ReleaseChoice) : bool :=
  match ReleaseFacts.run facts with
  | None => false
  | Some run =>
      let other_provider := is_some_and (ReleaseChoice.provider choice)
        (λ provider, negb (bool_decide (Some provider = ReleaseFacts.run_provider facts))) in
      bool_decide (ReleaseFacts.task facts = TaskStatus.InProgress)
      && match run with
         | RunStatus.Failed | RunStatus.Interrupted =>
             is_some (ReleaseChoice.provider choice) || is_some (ReleaseChoice.model choice)
             || negb (ReleaseFacts.kept facts)
         | _ => RunStatus.is_unfinished run && (negb (ReleaseFacts.session facts) || other_provider)
         end
  end.

Definition release_decision (facts : ReleaseFacts) (choice : ReleaseChoice) (own_commits : bool) :
    ReleaseDecision :=
  if negb (bool_decide (ReleaseFacts.task facts = TaskStatus.InProgress)) then ReleaseDecision.Claim
  else if negb (ends_run facts choice) then ReleaseDecision.Resume
  else if own_commits then ReleaseDecision.RetryInherit
  else ReleaseDecision.RetryFresh.

Definition new_run_reason (facts : ReleaseFacts) (provider : option Provider) : string :=
  match ReleaseFacts.run facts, provider with
  | Some RunStatus.Failed, _ | Some RunStatus.Interrupted, _ =>
      format ["the hold was released and the run had stopped (";
        match ReleaseFacts.run facts with Some run => as_str run | None => EmptyString end; ")"]
  | _, Some provider =>
      if bool_decide (Some provider = ReleaseFacts.run_provider facts)
      then "the hold was released and the run had no session to go on in"
      else format ["the hold was released with the provider changed to "; as_str provider;
             ", which cannot go on in the run's session"]
  | _, None => "the hold was released and the run had no session to go on in"
  end.

(** ** The wait of a run *)
Definition run_wait (status : option RunStatus) (leased : bool) : RunHoldWait :=
  match status with
  | Some RunStatus.Claimed | Some RunStatus.Starting | Some RunStatus.Running
  | Some RunStatus.Integrating => RunHoldWait.Settling
  | Some RunStatus.Validating | Some RunStatus.AwaitingIntegration | Some RunStatus.NeedsSession
  | Some RunStatus.Failed | Some RunStatus.Interrupted =>
      if leased then RunHoldWait.Settling else RunHoldWait.Settled
  | Some RunStatus.Integrated | Some RunStatus.Succeeded | Some RunStatus.Replaced | None =>
      RunHoldWait.None
  end.

Definition check_hold (task : TaskId) (status : TaskStatus) (open : option TaskHold)
    (reason : string) : Result unit :=
  _ ← require (negb (is_blank reason)) DomainError.HoldReasonEmpty;
  _ ← require
    (match status with
     | TaskStatus.Ready | TaskStatus.Submitted | TaskStatus.InProgress => true
     | _ => false
     end)
    (DomainError.TaskNotHoldable task status);
  match open with
  | Some open => Err (DomainError.TaskAlreadyHeld task (TaskHold.id open))
  | None => Ok tt
  end.

Definition held_state (wait : RunHoldWait) : HoldState :=
  match wait with
  | RunHoldWait.Settling => HoldState.Settling
  | RunHoldWait.None | RunHoldWait.Settled => HoldState.Held
  end.

Module RestWriter.
Record t : Set := mk { park_blocked : bool; registered_process : bool; checked : bool }.
Definition default : t := mk false false false.
Definition may_run (self : t) : bool :=
  negb (checked self) && (park_blocked self || registered_process self).
End RestWriter.
Abbreviation RestWriter := RestWriter.t.

Definition rest_wait (status : option RunStatus) (leased : bool) (writer : RestWriter) :
    RunHoldWait :=
  run_wait status (leased || RestWriter.may_run writer).

Definition settles_at_rest (status : RunStatus) (leased latest : bool) (writer : RestWriter) : bool :=
  latest && bool_decide (rest_wait (Some status) leased writer = RunHoldWait.Settled).

Definition check_release (task : TaskId) (open : option TaskHold) (wait : RunHoldWait) :
    Result unit :=
  match open with
  | None => Err (DomainError.TaskNotHeld task)
  | Some open =>
      require (negb (bool_decide (wait = RunHoldWait.Settling)))
        (DomainError.HoldNotSettled task (TaskHold.id open))
  end.

(** ** What a release records *)
Module ReleasedWork.
Record t : Set := mk { branch : option string; head : CommitSha; saved : option CommitSha }.
Definition payload {P} `{Payload P} (self : t) : P :=
  object
    ([("branch", or_null of_text (branch self)); ("head", of_text (CommitSha.as_str (head self)))]
     ++ match saved self with
        | Some saved => [("saved", of_text (CommitSha.as_str saved))]
        | None => []
        end).
End ReleasedWork.
Abbreviation ReleasedWork := ReleasedWork.t.

Module Released.
Record t : Set := mk {
  hold_id : option HoldId;
  continuation : string;
  decision : option ReleaseDecision;
  held_secs : Z;
  settled_secs : option Z;
  provider : option Provider;
  model : option string;
  effort : option string;
  inherit : option ReleasedWork;
}.
(** The record as it is written; [inherit] is not read back. *)
Definition payload {P} `{Payload P} (self : t) : P :=
  let some key value := match value with Some text => [(key, of_text text)] | None => [] end in
  object
    ([("hold_id", or_null of_number (HoldId.as_i64 <$> hold_id self));
      ("continuation", of_text (continuation self));
      ("decision", or_null of_text (as_str <$> decision self));
      ("held_secs", of_number (held_secs self));
      ("settled_secs", or_null of_number (settled_secs self));
      ("provider", or_null of_text (as_str <$> provider self))]
     ++ some "model" (model self) ++ some "effort" (effort self)
     ++ [("inherit", or_null ReleasedWork.payload (inherit self))]).
Definition of_payload {P} `{Payload P} (payload : P) : option t :=
  if negb (is_object payload) then None else
  hold_id ← optional as_number payload "hold_id";
  continuation ← defaulted as_text EmptyString payload "continuation";
  decision ← optional (as_enum ReleaseDecision) payload "decision";
  held_secs ← defaulted as_number 0%Z payload "held_secs";
  settled_secs ← optional as_number payload "settled_secs";
  provider ← optional (as_enum Provider) payload "provider";
  model ← optional as_text payload "model";
  effort ← optional as_text payload "effort";
  Some (mk (HoldId.new <$> hold_id) continuation decision held_secs settled_secs provider
          model effort None).
Definition of_event {P} `{Payload P} (event : RunEvent P) : option t :=
  if RunEvent.is_kind event EventKind.TaskReleased then of_payload (RunEvent.payload event) else None.
Definition session (self : t) : option (string * string) :=
  model ← model self; effort ← effort self; Some (model, effort).
Definition ended_run (self : t) : bool := is_some_and (decision self) decision_new_run.
(** [released.decision == Some(RetryFresh)]. *)
Definition afresh (self : t) : bool :=
  bool_decide (decision self = Some ReleaseDecision.RetryFresh).
End Released.
Abbreviation Released := Released.t.

(** ** The turns of a run's worker *)
Module RecordedTurn.
Inductive t : Set :=
  | Started (turn : option N)
  | Finished (turn : option N) (answered : bool)
  | Session (id : option string).
#[global] Instance eq_dec : EqDecision t.
Proof. solve_decision. Defined.
Definition restore {P} `{Payload P} (event : RunEvent P) : option t :=
  let payload := RunEvent.payload event in
  if RunEvent.is_kind event EventKind.TurnStarted then Some (Started (unsigned_of payload "turn"))
  else if RunEvent.is_kind event EventKind.TurnFinished then
    Some (Finished (unsigned_of payload "turn") (flag_is payload "session_created"))
  else if RunEvent.is_kind event EventKind.TurnSessionIdentified then
    Some (Session (text_of payload "session_id"))
  else None.
End RecordedTurn.
Abbreviation RecordedTurn := RecordedTurn.t.

Definition turn_ended (since : list RecordedTurn) (started : option N) : bool :=
  existsb (λ turn, match turn with
                   | RecordedTurn.Finished turn _ => bool_decide (turn = started)
                   | _ => false
                   end) since.
Definition session_to_resume {P} `{Payload P} (events : list (RunEvent P)) : bool :=
  let since := since_last (λ turn, bool_decide (turn = RecordedTurn.Session None))
                 (omap RecordedTurn.restore events) in
  existsb (λ turn, match turn with
                   | RecordedTurn.Finished _ answered => answered
                   | RecordedTurn.Session id => is_some id
                   | RecordedTurn.Started turn => negb (turn_ended since turn)
                   end) since.

(** ** The work a replacement hands to a child *)
Module ChildCarry.
Record t : Set := mk {
  operation : ReplanId;
  from_task : TaskId;
  from_run : RunId;
  proposal : option ProposalId;
  snapshot_id : string;
  carry : CarrySource;
  order : option N;
}.
Definition handover_of {P} `{Payload P} (event : RunEvent P) : option ReplanId :=
  let payload := RunEvent.payload event in
  if RunEvent.is_kind event EventKind.RunInherited then
    ReplanId.new <$> number_of payload "replan_operation_id"
  else if RunEvent.is_kind event EventKind.ReplanCarryFailed then
    ReplanId.new <$> number_of payload "operation_id"
  else None.
End ChildCarry.
Abbreviation ChildCarry := ChildCarry.t.

(** [pinned_ref] of [replan_snapshot.rs]. *)
Definition pinned_ref (op : ReplanId) : string :=
  format ["refs/dagq/replans/"; ReplanId.display op].

Module ReplanCarryEnded.
Record t : Set := mk {
  operation_id : ReplanId;
  snapshot_id : string;
  pinned_ref : string;
  carry : CarrySource;
  ended_run : RunId;
  reason : string;
}.
Definition new (carry : ChildCarry) (task : TaskId) (ended_run : RunId) (facts : ReleaseFacts)
    (provider : option Provider) : t :=
  let pinned := Holds.pinned_ref (ChildCarry.operation carry) in
  mk (ChildCarry.operation carry) (ChildCarry.snapshot_id carry) pinned (ChildCarry.carry carry)
    ended_run
    (format
       [new_run_reason facts provider;
        ", so the next run starts from the current main and the work replan operation ";
        ReplanId.display (ChildCarry.operation carry); " saved in snapshot ";
        ChildCarry.snapshot_id carry; " is handed to task "; TaskId.display task;
        " no more; the snapshot and "; pinned; " are kept to hand it over by hand"]).
Definition payload {P} `{Payload P} (self : t) : P :=
  object
    [("operation_id", of_number (ReplanId.as_i64 (operation_id self)));
     ("snapshot_id", of_text (snapshot_id self)); ("pinned_ref", of_text (pinned_ref self));
     ("carry", of_text (as_str (carry self))); ("ended_run", of_text (RunId.as_str (ended_run self)));
     ("reason", of_text (reason self))].
Definition of_event {P} `{Payload P} (event : RunEvent P) : option t :=
  if negb (RunEvent.is_kind event EventKind.ReplanCarryEnded) then None else
  let payload := RunEvent.payload event in
  operation ← required as_number payload "operation_id";
  snapshot_id ← required as_text payload "snapshot_id";
  pinned_ref ← required as_text payload "pinned_ref";
  carry ← required (as_enum CarrySource) payload "carry";
  ended_run ← required as_text payload "ended_run";
  ended_run ← match run_id_new ended_run with Ok run => Some run | Err _ => None end;
  reason ← required as_text payload "reason";
  Some (mk (ReplanId.new operation) snapshot_id pinned_ref carry ended_run reason).
End ReplanCarryEnded.
Abbreviation ReplanCarryEnded := ReplanCarryEnded.t.

(** [replan_carry_live]: the events of a task's runs, newest first. *)
Fixpoint replan_carry_live {P} `{Payload P} (task_events : list (RunEvent P))
    (operation : ReplanId) : bool :=
  match task_events with
  | [] => false
  | event :: earlier =>
      if is_some_and (ReplanCarryEnded.of_event event)
           (λ ended, bool_decide (ReplanCarryEnded.operation_id ended = operation))
         || is_some_and (Released.of_event event) Released.afresh
         || is_inherit_retry event
      then false
      else if bool_decide (ChildCarry.handover_of event = Some operation) then true
      else replan_carry_live earlier operation
  end.

(** ** What the next run inherits ([resume.rs]) *)
Module InheritedFrom.
Inductive t : Set := Run (index : nat) | Fresh | Nothing.
#[global] Instance eq_dec : EqDecision t.
Proof. solve_decision. Defined.
End InheritedFrom.
Abbreviation InheritedFrom := InheritedFrom.t.

Fixpoint inherited_at {P} `{Payload P} (index : nat) (previous : list (list (RunEvent P))) :
    InheritedFrom :=
  match previous with
  | [] => InheritedFrom.Nothing
  | events :: earlier =>
      if retried_with_inheritance events then InheritedFrom.Run index
      else if existsb Released.afresh (omap Released.of_event events) then InheritedFrom.Fresh
      else inherited_at (S index) earlier
  end.
Definition inherited_from {P} `{Payload P} (previous : list (list (RunEvent P))) : InheritedFrom :=
  inherited_at 0 previous.

(** ** What moved meanwhile *)
Module ProgressVersion.
Record t : Set := mk {
  task_status : TaskStatus;
  task_updated_at : string;
  run_status : RunStatus;
  last_event : option EventId;
}.
#[global] Instance eq_dec : EqDecision t.
Proof. solve_decision. Defined.
Definition NOT_PROGRESS : list EventKind :=
  [EventKind.TaskHeld; EventKind.TaskHoldReminded; EventKind.TaskReleased;
   EventKind.TaskHoldEnded; EventKind.HoldDeferred; EventKind.HoldResultKept;
   EventKind.HoldResultApplied; EventKind.HoldResultDiscarded; EventKind.LeaseAcquired;
   EventKind.LeaseReleased; EventKind.WorkspaceClosed].
Definition of_ {P} (task_status : TaskStatus) (task_updated_at : string) (run_status : RunStatus)
    (events : list (RunEvent P)) : t :=
  mk task_status task_updated_at run_status
    (RunEvent.id <$> find_last (λ event, negb (RunEvent.is_in event NOT_PROGRESS)) events).
End ProgressVersion.
Abbreviation ProgressVersion := ProgressVersion.t.

Module ReleaseReadAt.
Record t : Set := mk { hold : HoldId; run : RunId; version : ProgressVersion }.
#[global] Instance eq_dec : EqDecision t.
Proof. solve_decision. Defined.
End ReleaseReadAt.
Abbreviation ReleaseReadAt := ReleaseReadAt.t.

Definition check_release_read (task : TaskId) (hold : HoldId) (ends : bool)
    (read now : option ReleaseReadAt) : Result unit :=
  if negb ends && is_none read then Ok tt
  else require (is_some read && bool_decide (read = now))
         (DomainError.ReleaseReadMoved task hold).

(** ** Results a hold kept *)
Module KeptResult.
Record t : Set := mk { source : option KeptSource; ask : option AskId }.
Definition of_event {P} `{Payload P} (event : RunEvent P) : option t :=
  if RunEvent.is_kind event EventKind.HoldResultKept then
    let payload := RunEvent.payload event in
    Some (mk (text_of payload "source" ≫= parse_enum) (AskId.new <$> number_of payload "ask_id"))
  else None.
Definition ask_to_close (self : t) : option AskId :=
  match source self with Some KeptSource.TriageAnswer => ask self | _ => None end.
End KeptResult.
Abbreviation KeptResult := KeptResult.t.

Module Disposition.
Inductive t : Set := Apply | Discard (reason : DiscardReason).
#[global] Instance eq_dec : EqDecision t.
Proof. solve_decision. Defined.
End Disposition.
Abbreviation Disposition := Disposition.t.

Definition hold_end_of (status : TaskStatus) : option HoldEnd :=
  match status with
  | TaskStatus.Completed => Some HoldEnd.Completed
  | TaskStatus.Canceled => Some HoldEnd.Canceled
  | TaskStatus.Replaced => Some HoldEnd.Replaced
  | _ => None
  end.
Definition hold_end_kept_result (self : HoldEnd) : Disposition :=
  Disposition.Discard DiscardReason.TaskEnded.
Definition disposition (source : KeptSource) (kept now : ProgressVersion) : Disposition :=
  match hold_end_of (ProgressVersion.task_status now) with
  | Some end_ => hold_end_kept_result end_
  | None =>
      if bool_decide (source = KeptSource.LiveVerdict)
      then Disposition.Discard DiscardReason.LiveSession
      else if bool_decide (kept = now) then Disposition.Apply
      else Disposition.Discard DiscardReason.Changed
  end.

(** ** What holds promise *)
Module HoldProofs.

(** [RunEvent.is_kind] of an event of one kind and of another. *)
Lemma known_is_kind {P} (e : RunEvent P) kind kind' :
  RunEvent.is_kind e kind = true → kind ≠ kind' → RunEvent.is_kind e kind' = false.
Proof. intros Hk Hne. by apply (ResumeProofs.is_kind_other e kind). Qed.

Section records.
  Context {P : Type} `{Payload P}.
  Implicit Types (event e : RunEvent P) (events : list (RunEvent P)).

(** What a release records reads back as it was written, but for the work
    the next run carries over, which is only written: the hold, how the task
    goes on, the decision, the times and the provider, model and effort
    chosen. *)
Theorem released_record_round_trip `{!PayloadLaws P} e (released : Released) :
  RunEvent.is_kind e EventKind.TaskReleased = true →
  RunEvent.payload e = Released.payload released →
  Released.of_event e
  = Some (Released.mk (Released.hold_id released) (Released.continuation released)
      (Released.decision released) (Released.held_secs released) (Released.settled_secs released)
      (Released.provider released) (Released.model released) (Released.effort released) None).
Proof.
  intros Hk Hp. unfold Released.of_event. rewrite Hk, Hp.
  unfold Released.of_payload, Released.payload, optional, defaulted, as_enum, or_null.
  destruct released as [[[hold]|] cont [dec|] held [settled|] [prov|] [model|] [effort|] inh];
    cbn [Released.hold_id Released.continuation Released.decision Released.held_secs
      Released.settled_secs Released.provider Released.model Released.effort Released.inherit
      fmap option_fmap option_map HoldId.as_i64];
    read_payload; cbn [negb fmap option_fmap option_map mbind option_bind];
    rewrite ?parse_as_str; reflexivity.
Qed.

(** An end of a handover reads back as it was recorded. *)
Lemma carry_ended_round_trip `{!PayloadLaws P} e (ended : ReplanCarryEnded) :
  RunEvent.is_kind e EventKind.ReplanCarryEnded = true →
  RunEvent.payload e = ReplanCarryEnded.payload ended →
  run_id_new (RunId.as_str (ReplanCarryEnded.ended_run ended))
    = Ok (ReplanCarryEnded.ended_run ended) →
  ReplanCarryEnded.of_event e = Some ended.
Proof.
  intros Hk Hp Hrun. unfold ReplanCarryEnded.of_event. rewrite Hk, Hp.
  unfold ReplanCarryEnded.payload, required, as_enum. destruct ended as [[op] snap pin carry run why].
  cbn [ReplanCarryEnded.operation_id ReplanCarryEnded.snapshot_id ReplanCarryEnded.pinned_ref
    ReplanCarryEnded.carry ReplanCarryEnded.ended_run ReplanCarryEnded.reason ReplanId.as_i64] in *.
  read_payload. cbn [negb mbind option_bind]. rewrite parse_as_str. cbn [mbind option_bind].
  rewrite Hrun. read_payload. reflexivity.
Qed.

(** What ends the handover of an operation's work: its recorded end, a release
    that started a run afresh, or a retry that carried a run's branch over. *)
Definition ends_handover e (operation : ReplanId) : Prop :=
  (∃ ended, ReplanCarryEnded.of_event e = Some ended
            ∧ ReplanCarryEnded.operation_id ended = operation)
  ∨ (∃ released, Released.of_event e = Some released
                 ∧ Released.decision released = Some ReleaseDecision.RetryFresh)
  ∨ is_inherit_retry e = true.

Lemma ends_handover_spec e operation :
  is_some_and (ReplanCarryEnded.of_event e)
    (λ ended, bool_decide (ReplanCarryEnded.operation_id ended = operation))
  || is_some_and (Released.of_event e) Released.afresh || is_inherit_retry e = true
  ↔ ends_handover e operation.
Proof.
  unfold ends_handover, Released.afresh. rewrite !orb_true_iff.
  destruct (ReplanCarryEnded.of_event e), (Released.of_event e); simpl;
    rewrite ?bool_decide_eq_true; naive_solver.
Qed.

(** The saved work of a replacement is handed to a task exactly while a
    record of the handover stands and nothing since ended it, so that a run
    that a release started afresh, handed nothing, ends nothing a second
    time: the handover ends once for each time it was made. *)
Theorem handover_live_exact (task_events : list (RunEvent P)) operation :
  (replan_carry_live task_events operation = true ↔
   ∃ later e earlier, task_events = later ++ e :: earlier
     ∧ ChildCarry.handover_of e = Some operation
     ∧ ∀ x, x ∈ later ++ [e] → ¬ ends_handover x operation)
  ∧ ∀ e, ends_handover e operation → replan_carry_live (e :: task_events) operation = false.
Proof.
  split.
  - induction task_events as [|x events IH]; simpl.
    { split; [done|]. by intros ([|] & ? & ? & ? & _). }
    destruct (_ || is_inherit_retry x) eqn:Hends.
    + apply ends_handover_spec in Hends. split; [done|].
      intros ([|y later] & e & earlier & [= -> ->] & _ & Hall).
      * by destruct (Hall e); [left|].
      * by destruct (Hall y); [left|].
    + assert (¬ ends_handover x operation) as Hx by (rewrite <-ends_handover_spec; congruence).
      case_bool_decide as Hover.
      * split; [|done]. intros _. exists [], x, events. split; [done|]. split; [done|].
        intros y [->|[]%elem_of_nil]%elem_of_cons. done.
      * rewrite IH. split.
        -- intros (later & e & earlier & -> & He & Hall). exists (x :: later), e, earlier.
           split; [done|]. split; [done|]. intros y [->|Hy]%elem_of_cons; [done|by apply Hall].
        -- intros ([|y later] & e & earlier & [= -> ->] & He & Hall); [done|].
           exists later, e, earlier. split; [done|]. split; [done|].
           intros z Hz. apply Hall. by right.
  - intros e Hends. simpl. apply ends_handover_spec in Hends. by rewrite Hends.
Qed.

(** A release ended one of the events' run to start afresh. *)
Definition released_afresh events : Prop :=
  ∃ e released, e ∈ events ∧ Released.of_event e = Some released
    ∧ Released.decision released = Some ReleaseDecision.RetryFresh.
(** None of the first [n] runs was retried with its branch or ended afresh. *)
Definition passed_over (previous : list (list (RunEvent P))) (n : nat) : Prop :=
  ∀ m events, m < n → previous !! m = Some events →
    retried_with_inheritance events = false ∧ ¬ released_afresh events.

Lemma released_afresh_spec events :
  existsb Released.afresh (omap Released.of_event events) = true ↔ released_afresh events.
Proof.
  rewrite existsb_exists. unfold released_afresh, Released.afresh. split.
  - intros (released & Hin & Hd). apply list_elem_of_In, list_elem_of_omap in Hin as (e & He & Ho).
    exists e, released. by rewrite bool_decide_eq_true in Hd.
  - intros (e & released & He & Ho & Hd). exists released. rewrite bool_decide_eq_true.
    split; [|done]. apply list_elem_of_In, list_elem_of_omap. by exists e.
Qed.

Lemma passed_over_cons events previous n :
  passed_over (events :: previous) (S n) ↔
  (retried_with_inheritance events = false ∧ ¬ released_afresh events) ∧ passed_over previous n.
Proof.
  unfold passed_over. split.
  - intros Hall. split; [apply (Hall 0); [lia|done]|]. intros m l Hm. apply (Hall (S m)). lia.
  - intros [Hhd Htl] [|m] l Hm Hl; [by injection Hl as <-|]. apply (Htl m l); [lia|done].
Qed.

Lemma inherited_at_spec previous k :
  match inherited_at k previous with
  | InheritedFrom.Run n => ∃ m events, n = k + m ∧ passed_over previous m
      ∧ previous !! m = Some events ∧ retried_with_inheritance events = true
  | InheritedFrom.Fresh => ∃ m events, passed_over previous m ∧ previous !! m = Some events
      ∧ retried_with_inheritance events = false ∧ released_afresh events
  | InheritedFrom.Nothing => passed_over previous (length previous)
  end.
Proof.
  revert k. induction previous as [|events previous IH]; intros k; simpl; [intros m l Hm; lia|].
  destruct (retried_with_inheritance events) eqn:Hretried.
  { exists 0, events. split_and!; [lia| |done|done]. intros m l Hm. lia. }
  destruct (existsb _ _) eqn:Hafresh.
  { apply released_afresh_spec in Hafresh. exists 0, events. split_and!; [|done|done|done].
    intros m l Hm. lia. }
  assert (¬ released_afresh events) as Hnot by (rewrite <-released_afresh_spec; congruence).
  specialize (IH (S k)). destruct (inherited_at (S k) previous).
  - destruct IH as (m & l & -> & Hpassed & Hl). exists (S m), l. rewrite passed_over_cons.
    split; [lia|]. by split.
  - destruct IH as (m & l & Hpassed & Hl). exists (S m), l. by rewrite passed_over_cons.
  - by rewrite passed_over_cons.
Qed.

(** The next run of a task inherits the latest of its earlier runs that was
    ended by a retry that carries its branch over, past runs that failed
    early but past none that a release ended to start afresh; it starts
    afresh exactly when such a release comes first, and inherits nothing
    exactly when no run of either kind is there. *)
Theorem inherited_exact (previous : list (list (RunEvent P))) :
  (∀ n, inherited_from previous = InheritedFrom.Run n ↔
     passed_over previous n
     ∧ ∃ events, previous !! n = Some events ∧ retried_with_inheritance events = true)
  ∧ (inherited_from previous = InheritedFrom.Fresh ↔
     ∃ n events, passed_over previous n ∧ previous !! n = Some events
       ∧ retried_with_inheritance events = false ∧ released_afresh events)
  ∧ (inherited_from previous = InheritedFrom.Nothing ↔ passed_over previous (length previous)).
Proof.
  unfold inherited_from. pose proof (inherited_at_spec previous 0) as Hspec.
  assert (∀ m n l l', passed_over previous m → previous !! m = Some l →
    (retried_with_inheritance l = true ∨ released_afresh l) →
    passed_over previous n → previous !! n = Some l' →
    (retried_with_inheritance l' = true ∨ released_afresh l') → m = n) as Hfirst.
  { intros m n l l' Hm Hl Hends Hn Hl' Hends'. destruct (lt_eq_lt_dec m n) as [[Hlt|]|Hlt]; [|done|].
    - destruct (Hn m l Hlt Hl) as [Hr Ha]. destruct Hends as [|]; congruence.
    - destruct (Hm n l' Hlt Hl') as [Hr Ha]. destruct Hends' as [|]; congruence. }
  assert (∀ m l, previous !! m = Some l → passed_over previous (length previous) →
    retried_with_inheritance l = false ∧ ¬ released_afresh l) as Hnone.
  { intros m l Hl Hall. apply (Hall m l); [by apply lookup_lt_Some in Hl|done]. }
  destruct (inherited_at 0 previous) as [k| |].
  - destruct Hspec as (m & l & -> & Hm & Hl & Hr). simpl. split_and!.
    + intros n. split; [intros [= <-]; by eauto|]. intros (Hn & l' & Hl' & Hr').
      f_equal. by apply (Hfirst m n l l'); auto.
    + split; [done|]. intros (n & l' & Hn & Hl' & Hr' & Ha).
      assert (m = n) as -> by (by apply (Hfirst m n l l'); auto). congruence.
    + split; [done|]. intros Hall. destruct (Hnone m l Hl Hall). congruence.
  - destruct Hspec as (m & l & Hm & Hl & Hr & Ha). split_and!.
    + intros n. split; [done|]. intros (Hn & l' & Hl' & Hr').
      assert (m = n) as -> by (by apply (Hfirst m n l l'); auto). congruence.
    + split; [|done]. intros _. by exists m, l.
    + split; [done|]. intros Hall. by destruct (Hnone m l Hl Hall).
  - split_and!.
    + intros n. split; [done|]. intros (_ & l & Hl & Hr). destruct (Hnone n l Hl Hspec). congruence.
    + split; [done|]. intros (n & l & _ & Hl & _ & Ha). by destruct (Hnone n l Hl Hspec).
    + done.
Qed.

(** ** Kept results *)

(** An event that moves a run on: none of the hold's own, a lease's or a closed
    session's. *)
Definition progress e : bool := negb (RunEvent.is_in e ProgressVersion.NOT_PROGRESS).

Lemma last_progress_app events later :
  (∀ e, e ∈ later → progress e = false) →
  find_last progress (events ++ later) = find_last progress events.
Proof.
  induction later as [|e later IH] using rev_ind; intros Hall; [by rewrite app_nil_r|].
  rewrite app_assoc, find_last_app, Hall by set_solver. apply IH. intros x Hx. apply Hall. set_solver.
Qed.

(** A result kept while its task was held is applied at the release exactly
    when nothing moved in between: the task did not end, it was no verdict on
    a live session, the task's status and last change and the run's status
    are those it was kept at, and no event but the hold's own, a lease's or a
    closed session's came since.  Otherwise it is discarded, never both and
    never neither. *)
Theorem kept_result_applied_exactly source status status' at_ at' run run' events later :
  NoDup (RunEvent.id <$> events ++ later) →
  let kept := ProgressVersion.of_ status at_ run events in
  let now := ProgressVersion.of_ status' at' run' (events ++ later) in
  (disposition source kept now = Disposition.Apply ↔
   hold_end_of status' = None ∧ source ≠ KeptSource.LiveVerdict
   ∧ status = status' ∧ at_ = at' ∧ run = run' ∧ ∀ e, e ∈ later → progress e = false)
  ∧ (disposition source kept now ≠ Disposition.Apply →
     ∃ reason, disposition source kept now = Disposition.Discard reason).
Proof.
  intros Hids. cbv zeta. split; [|by destruct (disposition _ _ _); [|eauto]].
  assert (ProgressVersion.last_event (ProgressVersion.of_ status at_ run events)
    = ProgressVersion.last_event (ProgressVersion.of_ status' at' run' (events ++ later))
    ↔ ∀ e, e ∈ later → progress e = false) as Hlast.
  { simpl. change (λ event, negb _) with progress. split; [|intros; by rewrite last_progress_app].
    intros Heq e He. destruct (progress e) eqn:Hp; [|done]. exfalso.
    assert (is_Some (find_last progress later)) as [x Hx].
    { destruct (find_last progress later) eqn:Hnone; [done|].
      rewrite find_last_None in Hnone. by rewrite (Hnone e He) in Hp. }
    assert (find_last progress (events ++ later) = Some x) as Hnow.
    { apply find_last_Some in Hx as (Hpx & b & a & -> & Ha). apply find_last_Some.
      split; [done|]. exists (events ++ b), a. by rewrite <-app_assoc. }
    rewrite Hnow in Heq. destruct (find_last progress events) as [y|] eqn:Hy; [|done].
    injection Heq as Hid. apply find_last_Some in Hy as (_ & b & a & -> & _).
    apply find_last_Some in Hx as (_ & b' & a' & -> & _).
    rewrite fmap_app in Hids. apply NoDup_app in Hids as (_ & Hdisjoint & _).
    apply (Hdisjoint (RunEvent.id y)); rewrite list_elem_of_fmap; [exists y; set_solver|].
    exists x. split; [done|]. set_solver. }
  unfold disposition. simpl. destruct (hold_end_of status'); simpl; [naive_solver|].
  case_bool_decide; [naive_solver|]. rewrite <-Hlast.
  case_bool_decide as Heq; [injection Heq|]; simpl; [naive_solver|].
  split; [done|]. intros (_ & _ & -> & -> & -> & Hl). destruct Heq. unfold ProgressVersion.of_ in *.
  simpl in Hl. by f_equal.
Qed.
End records.

(** Once its hold settled, a release that chooses a new run can end the run
    it leaves, whatever the run rests in: the domain takes the move, the run
    fails with the reason, and the next run carries work over exactly when
    the run has commits of its own.  A release never ends a run that can go
    on: one with a session it keeps, or one stopped with a result kept for it
    when the release chooses nothing. *)
Theorem settled_release_ends_run facts choice own leased writer (run : TaskRun) reason :
  ReleaseFacts.run facts = Some (TaskRun.status run) →
  rest_wait (Some (TaskRun.status run)) leased writer ≠ RunHoldWait.Settling →
  let decision := release_decision facts choice own in
  (decision_new_run decision = true →
   ∃ ended, TaskRun.end_for_release run reason = Ok ended
     ∧ TaskRun.status ended = RunStatus.Failed ∧ TaskRun.last_error ended = Some reason
     ∧ (decision = ReleaseDecision.RetryInherit ↔ own = true))
  ∧ (decision_new_run decision = false ↔
     ReleaseFacts.task facts ≠ TaskStatus.InProgress
     ∨ TaskRun.status run ∈ [RunStatus.Integrated; RunStatus.Succeeded; RunStatus.Replaced]
     ∨ (TaskRun.status run ∈ [RunStatus.Failed; RunStatus.Interrupted]
        ∧ ReleaseFacts.kept facts = true ∧ choice = ReleaseChoice.mk None None)
     ∨ (RunStatus.is_unfinished (TaskRun.status run) = true ∧ ReleaseFacts.session facts = true
        ∧ (ReleaseChoice.provider choice = None
           ∨ ReleaseChoice.provider choice = ReleaseFacts.run_provider facts))).
Proof.
  intros Hrun Hrest. cbv zeta. unfold release_decision, ends_run. rewrite Hrun.
  case_bool_decide as Htask; cbn [negb andb].
  2: { split; [done|]. split; [by left|done]. }
  assert (∀ ends : bool,
    decision_new_run (if negb ends then ReleaseDecision.Resume
      else if own then ReleaseDecision.RetryInherit else ReleaseDecision.RetryFresh) = ends) as Hnew.
  { by intros [|]; destruct own. }
  rewrite Hnew. split.
  - intros Hends. rewrite Hends. unfold TaskRun.end_for_release, TaskRun.require_status.
    destruct (TaskRun.status run) eqn:Hstatus; try done; simpl;
      (eexists; split; [reflexivity|]; split; [done|]; split; [done|]; by destruct own).
  - rewrite !elem_of_cons, !elem_of_nil.
    destruct choice as [[p|] [m|]], (ReleaseFacts.kept facts), (ReleaseFacts.session facts);
      destruct (TaskRun.status run); try done; clear Hnew Hrest Hrun;
      cbn; rewrite ?bool_decide_eq_true, ?negb_false_iff, ?bool_decide_eq_true;
      intuition congruence.
Qed.
End HoldProofs.

(** ** Holds on concrete inputs *)
Module HoldSample.
Import ResumeSample HoldProofs.
Definition sample_released : Released :=
  Released.mk (Some (HoldId.new 4)) "new_run" (Some ReleaseDecision.RetryInherit) 90 (Some 30%Z)
    (Some Provider.Codex) None None
    (Some (ReleasedWork.mk (Some "dagq/a") (CommitSha.wrap "head") None)).
Definition sample_release : RunEvent EventPayload.t :=
  RunEvent.mk (EventId.new 9) None None None (RecordedKind.Known EventKind.TaskReleased)
    (Released.payload sample_released) EmptyString None.

Lemma released_record_round_trip_witness :
  Released.hold_id <$> Released.of_event sample_release = Some (Some (HoldId.new 4))
  ∧ Released.ended_run <$> Released.of_event sample_release = Some true.
Proof.
  rewrite (released_record_round_trip sample_release sample_released eq_refl eq_refl).
  split; reflexivity.
Defined.
(** A run that validated, its task's hold, a lease given back, and a result
    kept; then the hold's reminder, or a resume. *)
Definition kept_log : list (RunEvent EventPayload.t) :=
  [event 1 EventKind.ValidationFinished []; event 2 EventKind.TaskHeld [];
   event 3 EventKind.LeaseReleased []; event 4 EventKind.HoldResultKept []].
Definition reminded : list (RunEvent EventPayload.t) := [event 5 EventKind.TaskHoldReminded []].
Definition resumed : list (RunEvent EventPayload.t) := [event 5 EventKind.ResumeStarted []].

Lemma kept_result_applied_exactly_witness :
  let version later := ProgressVersion.of_ TaskStatus.InProgress "t" RunStatus.Failed
                         (kept_log ++ later) in
  disposition KeptSource.RecoveryVerdict (version []) (version reminded) = Disposition.Apply
  ∧ disposition KeptSource.RecoveryVerdict (version []) (version resumed) ≠ Disposition.Apply.
Proof.
  cbv beta zeta. rewrite app_nil_r. split.
  - apply (kept_result_applied_exactly KeptSource.RecoveryVerdict TaskStatus.InProgress
      TaskStatus.InProgress "t" "t" RunStatus.Failed RunStatus.Failed kept_log reminded).
    + apply (bool_decide_unpack _). vm_compute. exact I.
    + split_and!; try done. intros e He. apply list_elem_of_singleton in He as ->. reflexivity.
  - rewrite (proj1 (kept_result_applied_exactly KeptSource.RecoveryVerdict TaskStatus.InProgress
      TaskStatus.InProgress "t" "t" RunStatus.Failed RunStatus.Failed kept_log resumed
      ltac:(apply (bool_decide_unpack _); vm_compute; exact I))).
    intros (_ & _ & _ & _ & _ & Hall). specialize (Hall (event 5 EventKind.ResumeStarted [])).
    by discriminate Hall; [apply list_elem_of_singleton].
Defined.


Definition sample_resting : TaskRun :=
  TaskRun.mk (RunId.wrap "r1") (TaskId.new 7) RunStatus.NeedsSession Provider.Claude
    Provider.Claude WorkerMode.Headless sample_commit None None None None None None None None
    None None "t0".
Lemma settled_release_ends_run_witness :
  let facts := ReleaseFacts.mk TaskStatus.InProgress (Some RunStatus.NeedsSession)
                 (Some Provider.Claude) true false in
  let choice := ReleaseChoice.mk (Some Provider.Codex) None in
  release_decision facts choice true = ReleaseDecision.RetryInherit
  ∧ ∃ ended, TaskRun.end_for_release sample_resting "released" = Ok ended
      ∧ TaskRun.status ended = RunStatus.Failed.
Proof.
  cbv zeta. split; [reflexivity|].
  destruct (settled_release_ends_run
    (ReleaseFacts.mk TaskStatus.InProgress (Some RunStatus.NeedsSession) (Some Provider.Claude)
       true false)
    (ReleaseChoice.mk (Some Provider.Codex) None) true false RestWriter.default
    sample_resting "released" eq_refl
    ltac:(discriminate)) as [Hends _].
  destruct (Hends eq_refl) as (ended & Hok & Hfailed & _). by exists ended.
Defined.
End HoldSample.
