(* ===== verification/WorkerModels.v ===== *)
(** * Models of worker sessions

    [src/src/domain/worker_model.rs]: the model and effort a worker session
    opens with, the ladder a failure the task caused raises them along, what
    stays with the task's later runs, and the choice of a release.

    Not here: the trial that assigns groups ([WorkerTrial], [choose], [draw]),
    which hashes with SHA-256 and ranks with floating-point percentiles. *)
From S2P Require Import Prelude Text Vocab Ids Errors EventKinds Events Reasons Reviews Resumes Holds.

Definition OPUS : string := "claude-opus-5-5".
Definition SONNET : string := "claude-sonnet-5".
Definition MEDIUM : string := "medium".
Definition HIGH : string := "high".
Definition XHIGH : string := "xhigh".
Definition LADDER : list (string * string) :=
  [(SONNET, MEDIUM); (OPUS, MEDIUM); (OPUS, HIGH); (OPUS, XHIGH)].
Definition MODELS : list string := [SONNET; OPUS].
Definition CODEX_MODEL_UNKNOWN : string :=
  "codex runs its own model, not the claim's Claude model: each turn_finished records the model codex used".
Definition SESSION_EVENTS : list EventKind :=
  [EventKind.RunClaimed; EventKind.ResumeStarted; EventKind.ReviseRequested].

Definition check_model (provider : Provider) (model : string) : Result unit :=
  match provider with
  | Provider.Claude =>
      require (bool_decide (model ∈ MODELS)) (DomainError.WorkerModelRefused provider model)
  | _ => Err (DomainError.WorkerModelRefused provider model)
  end.

Definition raises (code : ReasonCode) : bool :=
  match code with ReasonCode.VerificationFailed | ReasonCode.SentBack => true | _ => false end.

(** [string_enum!(TrialGroup ..)]. *)
Module TrialGroup.
Inductive t : Set := Control | Treatment.
#[global] Instance eq_dec : EqDecision t.
Proof. solve_decision. Defined.
#[global] Instance string_enum : StringEnum t := {|
  type_name := "TrialGroup";
  as_str group := match group with Control => "control" | Treatment => "treatment" end;
  variants := [Control; Treatment];
|}.
#[global] Instance laws : StringEnumLaws t.
Proof. string_enum_laws. Qed.
End TrialGroup.
Abbreviation TrialGroup := TrialGroup.t.

(** ** A session *)
Module WorkerSession.
Record t : Set := mk { model : string; effort : string; group : option TrialGroup }.
#[global] Instance eq_dec : EqDecision t.
Proof. solve_decision. Defined.
Definition default : t := mk OPUS MEDIUM None.

Definition named_on {P} `{Payload P} (self : t) (provider : Provider) : P :=
  match provider with
  | Provider.Codex =>
      object [("model", null); ("ladder_model", of_text (model self)); ("effort", of_text (effort self))]
  | Provider.Claude => object [("model", of_text (model self)); ("effort", of_text (effort self))]
  end.
(** [fields], and [fields_on]: the entries of the object. *)
Definition fields {P} `{Payload P} (self : t) : list (string * P) :=
  [("model", of_text (model self)); ("effort", of_text (effort self));
   ("group", or_null of_text (as_str <$> group self))].
Definition fields_on {P} `{Payload P} (self : t) (provider : Provider) : list (string * P) :=
  match provider with
  | Provider.Codex =>
      [("model", null); ("effort", of_text (effort self)); ("group", null);
       ("ladder_model", of_text (model self)); ("model_unknown", of_text CODEX_MODEL_UNKNOWN)]
  | Provider.Claude => fields self
  end.

Definition label (self : t) : string := format [model self; "/"; effort self].

(** [LADDER.iter().position(..)]. *)
Fixpoint position (ladder : list (string * string)) (self : t) : option nat :=
  match ladder with
  | [] => None
  | step :: ladder =>
      if bool_decide (step = (model self, effort self)) then Some 0 else S <$> position ladder self
  end.
Definition step (self : t) : option nat := position LADDER self.
Definition raised (self : t) : option t :=
  step ← step self; above ← LADDER !! S step; Some (mk above.1 above.2 (group self)).

Definition group_of {P} `{Payload P} (payload : P) : option TrialGroup :=
  text_of payload "group" ≫= parse_enum.
Definition recorded {P} `{Payload P} (payload : P) : option t :=
  model ← match text_of payload "model" with
          | Some model => Some model
          | None => text_of payload "ladder_model"
          end;
  effort ← text_of payload "effort";
  Some (mk model effort (group_of payload)).
Definition of_run {P} `{Payload P} (events : list (RunEvent P)) : t :=
  match List.find (λ e, RunEvent.is_kind e EventKind.RunClaimed) events with
  | None => default
  | Some claimed => unwrap_or (recorded (RunEvent.payload claimed)) default
  end.
End WorkerSession.
Abbreviation WorkerSession := WorkerSession.t.

Section sessions.
  Context {P : Type} `{Payload P}.
  Implicit Types (e : RunEvent P) (events : list (RunEvent P)).

Definition chose_session e : bool :=
  is_some_and (Released.of_event e) (λ released, is_some (Released.session released)).

(** What names a request for a revise: its run and attempt. *)
Definition revise_key e : option string * option N :=
  (RunId.as_str <$> RunEvent.run_id e, unsigned_of (RunEvent.payload e) "attempt").
Definition withdrawn events : list (option string * option N) :=
  revise_key <$> List.filter (λ e, RunEvent.is_kind e EventKind.ReviseUnsent) events.
Definition opens (withdrawn : list (option string * option N)) e : bool :=
  chose_session e
  || RunEvent.is_in e SESSION_EVENTS
     && negb (RunEvent.is_kind e EventKind.ReviseRequested && bool_decide (revise_key e ∈ withdrawn)).
(** The events that opened a session with their indexes, oldest first. *)
Definition openings events : list (nat * RunEvent P) :=
  List.filter (λ entry, opens (withdrawn events) entry.2) (imap pair events).

(** [WorkerSession::opened_by], [latest] and [current]. *)
Definition opened_by e : option WorkerSession :=
  if RunEvent.is_kind e EventKind.TaskReleased then
    released ← Released.of_event e;
    session ← Released.session released;
    Some (WorkerSession.mk session.1 session.2 None)
  else WorkerSession.recorded (RunEvent.payload e).
Definition latest events : option WorkerSession :=
  head (omap (λ entry, opened_by entry.2) (rev (openings events))).
Definition current events : WorkerSession := unwrap_or (latest events) WorkerSession.default.

(** [WorkerSession::inheriting], [released] and [claimed]. *)
Definition was_raised events : bool :=
  existsb (λ entry, is_some_and (field (RunEvent.payload entry.2) "escalated_from") is_object)
    (openings events).
Definition inheriting (self : WorkerSession) task_events : WorkerSession * bool :=
  match (if was_raised task_events then latest task_events else None) with
  | None => (self, false)
  | Some last =>
      match WorkerSession.step last, WorkerSession.step self with
      | Some last_step, Some step =>
          if (step <? last_step)%nat
          then (WorkerSession.mk (WorkerSession.model last) (WorkerSession.effort last)
                  (WorkerSession.group self), true)
          else (self, false)
      | _, _ => (self, false)
      end
  end.
Definition claimed (self : WorkerSession) task_events : WorkerSession * bool :=
  match find_last chose_session task_events ≫= opened_by with
  | Some released => inheriting released (since_last chose_session task_events)
  | None => inheriting self task_events
  end.
End sessions.

Definition released_session (model : string) (current : WorkerSession) : WorkerSession :=
  let effort :=
    if bool_decide ((model, WorkerSession.effort current) ∈ LADDER) then WorkerSession.effort current
    else match List.find (λ step, bool_decide (step.1 = model)) LADDER with
         | Some step => step.2
         | None => WorkerSession.effort current
         end in
  WorkerSession.mk model effort None.

(** ** A raise *)
Module Escalation.
Record t : Set := mk { from : WorkerSession; reason : string }.
#[global] Instance eq_dec : EqDecision t.
Proof. solve_decision. Defined.
End Escalation.
Abbreviation Escalation := Escalation.t.

Section resuming.
  Context {P : Type} `{Payload P}.
  Implicit Types (e : RunEvent P) (events : list (RunEvent P)).

Definition fields_raised (self : WorkerSession) (provider : Provider) (raise : option Escalation) :
    list (string * P) :=
  WorkerSession.fields_on self provider
  ++ match raise with
     | Some raise =>
         [("escalated_from", WorkerSession.named_on (Escalation.from raise) provider);
          ("escalation_reason", of_text (Escalation.reason raise))]
     | None => []
     end.

(** [rposition(resume::parks)]. *)
Definition last_park events : option (nat * RunEvent P) :=
  find_last (λ entry, Parked.parks entry.2) (imap pair events).
Definition parked_code events : option ReasonCode :=
  match last_park events, last (openings events) with
  | Some parked, Some opened =>
      if (opened.1 <? parked.1)%nat then event_code parked.2 else None
  | Some parked, None => event_code parked.2
  | None, _ => None
  end.
Definition for_resume events : WorkerSession * option Escalation :=
  let current := current events in
  match code ← parked_code events;
        if raises code then raised ← WorkerSession.raised current; Some (raised, code) else None with
  | Some (raised, code) => (raised, Some (Escalation.mk current (as_str code)))
  | None => (current, None)
  end.
End resuming.

(** ** What the ladder promises *)
Module WorkerProofs.
Section proofs.
  Context {P : Type} `{Payload P}.
  Implicit Types (e : RunEvent P) (events later : list (RunEvent P)).

Lemma imap_pair_split {A} (before : list A) x after :
  imap pair (before ++ x :: after)
  = imap pair before ++ (length before, x) :: imap (λ n, pair (length before + S n)) after.
Proof. rewrite imap_app. simpl. by rewrite Nat.add_0_r. Qed.

Lemma elem_of_imap_pair {A} (l : list A) n x : (n, x) ∈ imap pair l → n < length l ∧ x ∈ l.
Proof.
  intros Hin. apply elem_of_lookup_imap in Hin as (i & y & [= <- <-] & Hl).
  split; [by apply lookup_lt_Some in Hl|by apply list_elem_of_lookup_2 in Hl].
Qed.

(** Nothing of the list opens a session. *)
Definition opens_none later : Prop :=
  ∀ x, x ∈ later → chose_session x = false ∧ RunEvent.is_in x SESSION_EVENTS = false.

Lemma opens_none_filter keys (f : nat → nat) later :
  opens_none later → List.filter (λ entry, opens keys entry.2) (imap (λ n, pair (f n)) later) = [].
Proof.
  intros Hnone. revert f. induction later as [|x later IH]; intros f; [done|].
  change (imap (λ n, pair (f n)) (x :: later))
    with ((f 0, x) :: imap (λ n, pair (f (S n))) later).
  simpl. destruct (Hnone x) as [Hc Hs]; [by left|]. unfold opens at 1. simpl. rewrite Hc, Hs. simpl.
  apply IH. intros y Hy. apply Hnone. by right.
Qed.

(** A resume opens a session, whatever was withdrawn. *)
Lemma resume_opens keys e : RunEvent.is_kind e EventKind.ResumeStarted = true → opens keys e = true.
Proof.
  intros Hk. unfold opens. apply orb_true_iff. right.
  rewrite (ResumeProofs.is_kind_other e EventKind.ResumeStarted EventKind.ReviseRequested Hk) by done.
  simpl. rewrite andb_true_r. unfold RunEvent.is_in, RecordedKind.is_in.
  apply ResumeProofs.is_kind_known in Hk. unfold RunEvent.known in Hk. rewrite Hk. done.
Qed.

Lemma openings_after events e later :
  RunEvent.is_kind e EventKind.ResumeStarted = true → opens_none later →
  ∃ before, openings (events ++ e :: later) = before ++ [(length events, e)].
Proof.
  intros Hk Hnone. unfold openings.
  exists (List.filter (λ entry, opens (withdrawn (events ++ e :: later)) entry.2) (imap pair events)).
  rewrite imap_pair_split, List.filter_app. f_equal. cbn [List.filter snd].
  rewrite resume_opens by done. f_equal. by apply opens_none_filter.
Qed.

Lemma recorded_fields `{!PayloadLaws P} (self : WorkerSession) provider raise rest :
  WorkerSession.recorded (object (fields_raised self provider raise ++ rest))
  = Some (WorkerSession.mk (WorkerSession.model self) (WorkerSession.effort self)
      (if bool_decide (provider = Provider.Codex) then None else WorkerSession.group self)).
Proof.
  unfold WorkerSession.recorded, fields_raised, WorkerSession.group_of.
  destruct provider, self as [model effort [[|]|]]; simpl;
    unfold WorkerSession.fields; cbn [List.app fmap option_fmap option_map or_null
      WorkerSession.model WorkerSession.effort WorkerSession.group]; read_payload; reflexivity.
Qed.

Lemma current_after_resume events e later session :
  RunEvent.is_kind e EventKind.ResumeStarted = true → opens_none later →
  WorkerSession.recorded (RunEvent.payload e) = Some session →
  current (events ++ e :: later) = session.
Proof.
  intros Hk Hnone Hrec. unfold current, latest.
  destruct (openings_after events e later Hk Hnone) as [before ->].
  rewrite rev_app_distr. simpl. unfold opened_by.
  rewrite (ResumeProofs.is_kind_other e EventKind.ResumeStarted EventKind.TaskReleased Hk) by done.
  by rewrite Hrec.
Qed.

Lemma parked_code_after_resume events e later :
  RunEvent.is_kind e EventKind.ResumeStarted = true → opens_none later →
  (∀ x, x ∈ later → Parked.parks x = false) →
  parked_code (events ++ e :: later) = None.
Proof.
  intros Hk Hnone Hparks. unfold parked_code.
  destruct (openings_after events e later Hk Hnone) as [before ->]. rewrite last_snoc.
  destruct (last_park _) as [[n x]|] eqn:Hpark; [|done]. simpl.
  apply find_last_Some in Hpark as (Hx & b & a & Heq & _). simpl in Hx.
  assert ((n, x) ∈ imap pair (events ++ e :: later)) as Hin by (rewrite Heq; set_solver).
  rewrite imap_pair_split in Hin. apply elem_of_app in Hin as [Hin|Hin].
  - apply elem_of_imap_pair in Hin as [Hlt _]. case_match eqn:Hcmp; [|done].
    apply Nat.ltb_lt in Hcmp. lia.
  - apply elem_of_cons in Hin as [[= -> ->]|Hin].
    + assert (Parked.parks e = false) as Hne; [|congruence].
      unfold Parked.parks, recheck_parks, RunEvent.is_in, RecordedKind.is_in.
      rewrite (ResumeProofs.is_kind_other e EventKind.ResumeStarted
        EventKind.LandingRecheckFailed Hk) by done.
      apply ResumeProofs.is_kind_known in Hk. unfold RunEvent.known in Hk. by rewrite Hk.
    + apply elem_of_lookup_imap in Hin as (i & y & [= -> <-] & Hl).
      apply list_elem_of_lookup_2, Hparks in Hl. congruence.
Qed.

(** One failure raises the model of a run's sessions once: after the resume
    that it raised opened its session and recorded it, a resume without
    another park opens that session again, whatever else the run recorded,
    and raises nothing (on Codex, which is in no trial, without the group). *)
Theorem failure_raises_once `{!PayloadLaws P} events provider rest e later :
  RunEvent.is_kind e EventKind.ResumeStarted = true →
  RunEvent.payload e
  = object (fields_raised (for_resume events).1 provider (for_resume events).2 ++ rest) →
  (∀ x, x ∈ later → Parked.parks x = false) → opens_none later →
  let opened := (for_resume events).1 in
  for_resume (events ++ e :: later)
  = (WorkerSession.mk (WorkerSession.model opened) (WorkerSession.effort opened)
       (if bool_decide (provider = Provider.Codex) then None else WorkerSession.group opened), None).
Proof.
  intros Hk Hp Hparks Hnone. cbv zeta. unfold for_resume at 1.
  rewrite parked_code_after_resume by done. simpl.
  erewrite current_after_resume; [reflexivity|done..|]. rewrite Hp. apply recorded_fields.
Qed.

(** ** The ladder *)
Lemma position_lookup ladder (self : WorkerSession) k :
  WorkerSession.position ladder self = Some k →
  ladder !! k = Some (WorkerSession.model self, WorkerSession.effort self).
Proof.
  revert k. induction ladder as [|step ladder IH]; intros k; [done|]. simpl.
  case_bool_decide as Heq; [by intros [= <-]; rewrite Heq|].
  destruct (WorkerSession.position ladder self) as [j|]; [|done].
  intros [= <-]. by apply IH.
Qed.

Lemma step_of_entry k model effort group :
  LADDER !! k = Some (model, effort) →
  WorkerSession.step (WorkerSession.mk model effort group) = Some k.
Proof. intros Hk. by do 4 (destruct k as [|k]; [injection Hk as <- <-; vm_compute; reflexivity|]). Qed.

Lemma raised_step (self raised : WorkerSession) :
  WorkerSession.raised self = Some raised ↔
  ∃ k, WorkerSession.step self = Some k ∧ WorkerSession.step raised = Some (S k)
    ∧ WorkerSession.group raised = WorkerSession.group self.
Proof.
  unfold WorkerSession.raised.
  destruct (WorkerSession.step self) as [k|]; cbn [mbind option_bind]; [|naive_solver].
  split.
  - intros Hr. destruct (LADDER !! S k) as [[model effort]|] eqn:Habove; [|done].
    injection Hr as <-. exists k. split; [done|]. split; [|done]. by apply step_of_entry.
  - intros (k' & [= <-] & Hstep & Hgroup). apply position_lookup in Hstep. rewrite Hstep.
    destruct raised. simpl in *. by rewrite Hgroup.
Qed.

(** A raise stays with the task's later runs, retries included: a new run
    opens at the higher of the step its claim chose and the step of the
    task's last session, once a session of the task was raised, and never
    below what its claim chose; its group stays the claim's. *)
Theorem raise_stays (self : WorkerSession) events :
  let opened := (inheriting self events).1 in
  WorkerSession.group opened = WorkerSession.group self
  ∧ (∀ step, WorkerSession.step self = Some step →
     ∃ step', WorkerSession.step opened = Some step' ∧ step ≤ step'
       ∧ (was_raised events = true → ∀ last last_step, latest events = Some last →
          WorkerSession.step last = Some last_step → step' = step `max` last_step)
       ∧ (was_raised events = false → step' = step))
  ∧ ((inheriting self events).2 = false → opened = self).
Proof.
  cbv zeta. unfold inheriting. destruct (was_raised events) eqn:Hraised; [|naive_solver].
  destruct (latest events) as [last|] eqn:Hlast; [|naive_solver].
  destruct (WorkerSession.step last) as [last_step|] eqn:Hstep;
    [|destruct (WorkerSession.step self) as [step|] eqn:Hself; naive_solver].
  destruct (WorkerSession.step self) as [step|] eqn:Hself; [|naive_solver].
  destruct (Nat.ltb_spec step last_step) as [Hlt|Hge]; simpl.
  - split; [done|]. split; [|done]. intros _ [= <-]. exists last_step.
    split; [exact Hstep|]. split; [lia|]. split; [|done].
    intros _ last' step' [= <-]. rewrite Hstep. intros [= <-]. lia.
  - split; [done|]. split; [|done]. intros _ [= <-]. exists step.
    split; [done|]. split; [lia|]. split; [|done].
    intros _ last' step' [= <-]. rewrite Hstep. intros [= <-]. lia.
Qed.

(** The session a release's choice of a model opens is a step of the ladder
    of that model, at the effort of the session before when the model has it,
    so that a later failure the task caused still raises it unless it is the
    top; no Codex session takes a model. *)
Theorem released_model_on_ladder model (before : WorkerSession) :
  check_model Provider.Claude model = Ok tt →
  let session := released_session model before in
  WorkerSession.model session = model ∧ WorkerSession.group session = None
  ∧ (∃ step, WorkerSession.step session = Some step
       ∧ (WorkerSession.raised session = None ↔ step = 3))
  ∧ ((model, WorkerSession.effort before) ∈ LADDER →
     WorkerSession.effort session = WorkerSession.effort before)
  ∧ ∃ refusal, check_model Provider.Codex model = Err refusal.
Proof.
  intros Hmodel. cbv zeta. simpl in Hmodel. apply require_Ok, bool_decide_eq_true in Hmodel.
  split; [done|]. split; [done|]. split; [|split; [|by eexists]].
  - unfold released_session. case_bool_decide as Hin.
    + apply list_elem_of_lookup in Hin as [k Hk]. exists k. split; [by apply step_of_entry|].
      unfold WorkerSession.raised. rewrite (step_of_entry _ _ _ _ Hk).
      do 4 (destruct k as [|k]; [by vm_compute|]). done.
    + apply elem_of_cons in Hmodel as [->|Hmodel]; [exists 0|].
      * split; [vm_compute; reflexivity|]. by vm_compute.
      * apply list_elem_of_singleton in Hmodel as ->. exists 1. by vm_compute.
  - intros Hin. unfold released_session. by rewrite bool_decide_true.
Qed.
End proofs.
End WorkerProofs.

Module WorkerSample.
Import ResumeSample WorkerProofs.
(** A claim, a review's concern sent back, and the resume it raised. *)
Definition sent_back : list (RunEvent EventPayload.t) :=
  [event 1 EventKind.RunClaimed (WorkerSession.fields_on WorkerSession.default Provider.Claude);
   event 2 EventKind.LandingDecided [("code", EventPayload.Text "sent_back")]].
Definition raised_fields : list (string * EventPayload.t) :=
  fields_raised (for_resume sent_back).1 Provider.Claude (for_resume sent_back).2.
Definition resumed_higher : RunEvent EventPayload.t :=
  event 3 EventKind.ResumeStarted (raised_fields ++ []).

Lemma failure_raises_once_witness :
  for_resume sent_back
  = (WorkerSession.mk OPUS HIGH None, Some (Escalation.mk WorkerSession.default "sent_back"))
  ∧ for_resume (sent_back ++ [resumed_higher]) = (WorkerSession.mk OPUS HIGH None, None).
Proof.
  split; [vm_compute; reflexivity|].
  rewrite (failure_raises_once sent_back Provider.Claude [] resumed_higher []);
    [vm_compute; reflexivity|reflexivity|reflexivity|by intros ? ?%elem_of_nil..].
Defined.

Lemma released_model_on_ladder_witness :
  WorkerSession.step (released_session SONNET (WorkerSession.mk OPUS XHIGH None)) = Some 0
  ∧ ∃ step, WorkerSession.step (released_session SONNET (WorkerSession.mk OPUS XHIGH None))
            = Some step.
Proof.
  split; [vm_compute; reflexivity|].
  destruct (released_model_on_ladder SONNET (WorkerSession.mk OPUS XHIGH None)) as
    (_ & _ & (step & Hstep & _) & _); [vm_compute; reflexivity|]. by exists step.
Defined.
End WorkerSample.
