(* ===== verification/HoldStore.v ===== *)
(** * The table of holds

    The transactions of [src/src/infrastructure/task_holds.rs] on the holds of
    tasks, with the writes that end a task and take its hold with it
    ([complete_task], [replace_task], [apply_transition] of
    [src/src/infrastructure/task_store.rs]) and those that settle one as its
    run comes to rest ([save_run], [run_event], [end_released_run] of
    [src/src/infrastructure/runtime_store/mod.rs]; [park_for_hold],
    [settle_hold_at_rest] and [release_for_hold] of its [transitions.rs]).

    The queue here is what these transactions read and write: tasks, runs in
    the order of their insertion with their supervisor's token, leases, the
    processes of runs, the table of replanning operations (Replans), the holds
    in the order of their ids and the log of events.  What they read of other
    tables (asks, proposals, follow-ups, replacements, Git) is given to them
    ([Outside]).  A transaction that fails leaves the queue as it was: it
    returns none. *)
From S2P Require Import Prelude Text Vocab Ids Errors Workers Tasks Replans Runs EventKinds Events Reasons Resumes RunPhase Holds WorkerModels.

(** Why a transaction is refused: an error of the domain, or a row that is not
    there or not as the statement wants it. *)
Module StoreError.
Inductive t : Set :=
  | Refused (error : DomainError)
  | NoTask (task : TaskId)
  | NoRun (run : RunId)
  | StillRuns (run : RunId)
  | RunChanged (run : RunId)
  | NotInProgress (task : TaskId)
  | TaskChanged (task : TaskId)
  | LeaseLost (run : RunId)
  | NotParked (run : RunId)
  | NotKept (run : RunId)
  | ChildOfReplacement (task : TaskId)
  | NotJudged (task : TaskId).
Definition of_domain {A} (r : Result A) : result t A :=
  match r with Ok a => Ok a | Err e => Err (Refused e) end.
End StoreError.
Abbreviation StoreError := StoreError.t.

(** ** The rows *)
Module HoldRow.
Record t : Set := mk {
  hold : TaskHold;
  released_at : option Z;
  released_by_role : option string;
  released_by_id : option string;
  continuation : option string;
}.
#[global] Instance updatable : Updatable t :=
  λ r, mk (hold r) (released_at r) (released_by_role r) (released_by_id r) (continuation r).
Definition is_open (self : t) : bool := is_none (released_at self).
Definition id (self : t) : HoldId := TaskHold.id (hold self).
Definition task (self : t) : TaskId := TaskHold.task_id (hold self).
End HoldRow.
Abbreviation HoldRow := HoldRow.t.

Module StoredRun.
Record t : Set := mk { run : TaskRun; supervisor_token : option LeaseToken }.
End StoredRun.
Abbreviation StoredRun := StoredRun.t.

Module RunLease.
Record t : Set := mk { run : RunId; token : LeaseToken; heartbeat_at : Z }.
End RunLease.
Abbreviation RunLease := RunLease.t.

Module RunProcess.
Record t : Set := mk { run : RunId; heartbeat_at : Z; exited_at : option Z }.
End RunProcess.
Abbreviation RunProcess := RunProcess.t.

Module Queue.
Record t {P : Type} : Type := mk {
  tasks : list Task;
  runs : list StoredRun;
  leases : list RunLease;
  processes : list RunProcess;
  operations : list Replan.Operation;
  holds : list HoldRow;
  log : list (RunEvent P);
}.
Arguments t : clear implicits.
Arguments mk {P}.
#[global] Instance updatable {P} : Updatable (t P) :=
  λ q, mk (tasks q) (runs q) (leases q) (processes q) (operations q) (holds q) (log q).
End Queue.
Abbreviation Queue := Queue.t.

(** An event to record. *)
Module NewEvent.
Record t {P : Type} : Type := mk {
  task : option TaskId;
  run : option RunId;
  kind : EventKind;
  payload : P;
}.
Arguments t : clear implicits.
Arguments mk {P}.
End NewEvent.
Abbreviation NewEvent := NewEvent.t.

(** The connection of a write: the clock, the system's clock, its timestamps and the
    actor of its events, and what its transactions read of other tables:
    whether a task waits for a replacement's apply ([check_child_ready]),
    whether a follow-up is judged ([check_judged]), the saved work a
    replacement hands a task ([child_carry]), and the events that closing an
    ask, the recovery job's [decide] asks of a run and the landing's questions
    of one record ([asks.rs]; none for asks closed already). *)
Module Writer.
Record t {P : Type} : Type := mk {
  now : Z;
  system_now : Z;
  timestamp : string;
  event_time : string;
  actor : option EventActor;
  child_of_replacement : TaskId → bool;
  judged : TaskId → bool;
  child_carry : TaskId → option ChildCarry;
  ask_discarded : AskId → list (NewEvent P);
  decides_closed : RunId → list (NewEvent P);
  landing_closed : RunId → list (NewEvent P);
}.
Arguments t : clear implicits.
Arguments mk {P}.
End Writer.
Abbreviation Writer := Writer.t.

Definition HOLD_ENDER : string := "runtime".

(** ** Reading *)
Section store.
  Context {P : Type} `{Payload P}.
  Implicit Types (q : Queue P) (w : Writer P) (e : RunEvent P).

Definition find_task q (task : TaskId) : option Task :=
  List.find (λ t, bool_decide (Task.id t = task)) (Queue.tasks q).
Definition read_task q (task : TaskId) : result StoreError Task :=
  match find_task q task with Some t => Ok t | None => Err (StoreError.NoTask task) end.
Definition find_run q (run : RunId) : option StoredRun :=
  List.find (λ r, bool_decide (TaskRun.id (StoredRun.run r) = run)) (Queue.runs q).
Definition stored_run q (run : RunId) : option TaskRun := StoredRun.run <$> find_run q run.
Definition read_run q (run : RunId) : result StoreError TaskRun :=
  match stored_run q run with Some r => Ok r | None => Err (StoreError.NoRun run) end.
Definition latest_run q (task : TaskId) : option TaskRun :=
  StoredRun.run <$>
    find_last (λ r, bool_decide (TaskRun.task_id (StoredRun.run r) = task)) (Queue.runs q).
Definition run_events q (run : RunId) : list (RunEvent P) :=
  List.filter (λ e, bool_decide (RunEvent.run_id e = Some run)) (Queue.log q).
Definition leased q (run : RunId) : bool :=
  existsb (λ l, bool_decide (RunLease.run l = run)) (Queue.leases q).

Definition resolve q (target : HoldTarget) : result StoreError TaskId :=
  match target with
  | HoldTarget.Task task => Ok task
  | HoldTarget.Run run => r ← read_run q run; Ok (TaskRun.task_id r)
  end.

Definition open_hold_of q (task : TaskId) : option TaskHold :=
  HoldRow.hold <$>
    List.find (λ row, HoldRow.is_open row && bool_decide (HoldRow.task row = task)) (Queue.holds q).

(** [t.status NOT IN ('completed','canceled')] of the task joined. *)
Definition goes_on q (task : TaskId) : bool :=
  is_some_and (find_task q task) (λ t,
    match Task.status t with TaskStatus.Completed | TaskStatus.Canceled => false | _ => true end).
Definition guard_of q (task : TaskId) : option Replan.HoldGuard :=
  if goes_on q task then TaskHold.guard <$> open_hold_of q task else None.
Definition task_holds q : list TaskHold :=
  HoldRow.hold <$>
    List.filter (λ row, HoldRow.is_open row && goes_on q (HoldRow.task row)) (Queue.holds q).
Definition settling_holds q : list TaskHold :=
  List.filter (λ hold, is_none (TaskHold.settled_at hold)) (task_holds q).
Definition held_tasks q : list (TaskHold * option (RunId * RunStatus)) :=
  (λ hold, (hold, (λ run, (TaskRun.id run, TaskRun.status run)) <$> latest_run q (TaskHold.task_id hold)))
    <$> task_holds q.
Definition turn_fence q (task : TaskId) : option Replan.Fence :=
  Replan.fence (Replan.mk_guards (Replan.guard_of (Queue.operations q) task) (guard_of q task)).
Definition check_task_step q (task : TaskId) (step : GuardedStep) : result StoreError unit :=
  StoreError.of_domain (Replan.check_step
    (Replan.mk_guards (Replan.guard_of (Queue.operations q) task) (guard_of q task)) step).
Definition check_not_held q (task : TaskId) (step : GuardedStep) : result StoreError unit :=
  StoreError.of_domain (Replan.check_step (Replan.mk_guards None (guard_of q task)) step).

Definition park_blocked q (run : RunId) : bool :=
  existsb (λ op, bool_decide (Replan.run_id op = run)
    && bool_decide (Replan.status op = ReplanStatus.Blocked)
    && is_some_and (Replan.return_phase op) Replan.parks) (Queue.operations q).
Definition registered_writer q (run : RunId) : bool :=
  existsb (λ p, bool_decide (RunProcess.run p = run) && is_none (RunProcess.exited_at p))
    (Queue.processes q).
Definition rest_writer q (run : RunId) (checked : bool) : RestWriter :=
  RestWriter.mk (park_blocked q run) (registered_writer q run) checked.

(** A result kept for [e]'s run is applied or discarded. *)
Definition kept_settled q e : bool :=
  existsb (λ s, bool_decide (RunEvent.run_id s = RunEvent.run_id e)
    && RunEvent.is_in s [EventKind.HoldResultApplied; EventKind.HoldResultDiscarded]
    && bool_decide (number_of (RunEvent.payload s) "kept_id" = Some (EventId.as_i64 (RunEvent.id e))))
    (Queue.log q).
Definition kept_unsettled q (run : RunId) : bool :=
  existsb (λ e, bool_decide (RunEvent.run_id e = Some run)
    && RunEvent.is_kind e EventKind.HoldResultKept && negb (kept_settled q e)) (Queue.log q).

Definition progress_version q (task : TaskId) (run : RunId) : result StoreError ProgressVersion :=
  t ← read_task q task;
  r ← read_run q run;
  Ok (ProgressVersion.of_ (Task.status t) (Task.updated_at t) (TaskRun.status r) (run_events q run)).

(** [at] of the latest reminder of [hold]. *)
Definition last_told q (hold : TaskHold) : option Z :=
  e ← find_last (λ e, bool_decide (RunEvent.task_id e = Some (TaskHold.task_id hold))
        && RunEvent.is_kind e EventKind.TaskHoldReminded
        && bool_decide (number_of (RunEvent.payload e) "hold_id"
                        = Some (HoldId.as_i64 (TaskHold.id hold)))) (Queue.log q);
  number_of (RunEvent.payload e) "at".

(** ** Writing *)
Definition next_event q : EventId :=
  EventId.new (1 + foldr Z.max 0 ((λ e, EventId.as_i64 (RunEvent.id e)) <$> Queue.log q))%Z.
Definition record w q (new : NewEvent P) : Queue P :=
  q <| Queue.log := Queue.log q ++
       [RunEvent.mk (next_event q) (NewEvent.task new) None (NewEvent.run new)
          (RecordedKind.Known (NewEvent.kind new)) (NewEvent.payload new)
          (Writer.event_time w) (Writer.actor w)] |>.
Definition record_all w q (new : list (NewEvent P)) : Queue P := foldl (record w) q new.
(** [event] of [store_writes.rs]. *)
Definition event w q (task : TaskId) (run : option RunId) (kind : EventKind) (payload : P) : Queue P :=
  record w q (NewEvent.mk (Some task) run kind payload).

Definition record_phase w q (run : RunId) (change : option PhaseChange) :
    result StoreError (Queue P) :=
  match change with
  | None => Ok q
  | Some change =>
      r ← read_run q run;
      Ok (event w q (TaskRun.task_id r) (Some run) EventKind.RunPhaseChanged
            (PhaseChange.payload change))
  end.
Definition enter_held_phase w q (run : RunId) (cause : string) : result StoreError (Queue P) :=
  record_phase w q run (next_change (run_events q run) Phase.Held cause).
Definition leave_held_phase w q (run : RunId) : result StoreError (Queue P) :=
  let events := run_events q run in
  if is_some_and (last_recorded events) (λ last, Recorded.is_ last Phase.Held) then
    r ← read_run q run;
    record_phase w q run
      (phase ← resting (TaskRun.status r) events None;
       next_change events phase (EventKind.as_str EventKind.TaskReleased))
  else Ok q.

(** [UPDATE task_holds .. WHERE]. *)
Definition update_holds q (matches : HoldRow → bool) (change : HoldRow → HoldRow) : Queue P :=
  q <| Queue.holds := (λ row, if matches row then change row else row) <$> Queue.holds q |>.
Definition settles (hold : HoldId) (row : HoldRow) : bool :=
  bool_decide (HoldRow.id row = hold) && HoldRow.is_open row
  && is_none (TaskHold.settled_at (HoldRow.hold row)).
Definition settle_row (now : Z) (row : HoldRow) : HoldRow :=
  row <| HoldRow.hold := HoldRow.hold row <| TaskHold.settled_at := Some now |> |>.
Definition settle_open q (hold : HoldId) (now : Z) : Queue P * bool :=
  (update_holds q (settles hold) (settle_row now),
   bool_decide (length (List.filter (settles hold) (Queue.holds q)) = 1)).
Definition closes (hold : HoldId) (row : HoldRow) : bool :=
  bool_decide (HoldRow.id row = hold) && HoldRow.is_open row.
Definition close_row (now : Z) (by_role by_id : string) (continuation : option string)
    (row : HoldRow) : HoldRow :=
  HoldRow.mk (HoldRow.hold row) (Some now) (Some by_role) (Some by_id)
    (match continuation with Some text => Some text | None => HoldRow.continuation row end).

Definition settle_at_rest_in w q (run : RunId) (writers_checked : bool) :
    result StoreError (Queue P * bool) :=
  match stored_run q run with
  | None => Ok (q, false)
  | Some r =>
      match guard_of q (TaskRun.task_id r) with
      | None => Ok (q, false)
      | Some guard =>
          let status := TaskRun.status r in
          let latest := is_some_and (latest_run q (TaskRun.task_id r))
                          (λ latest, bool_decide (TaskRun.id latest = run)) in
          if negb (settles_at_rest status (leased q run) latest (rest_writer q run writers_checked))
          then Ok (q, false)
          else
            let '(q, settled) := settle_open q (Replan.hold_hold guard) (Writer.system_now w) in
            if negb settled then Ok (q, false)
            else if RunStatus.is_unfinished status
            then q ← enter_held_phase w q run "hold_settled"; Ok (q, true)
            else Ok (q, true)
      end
  end.

(** *** The end of a task *)

(** [discard_kept_of_ended]: each result kept for the task and not settled; the
    second component is the asks closed on the way. *)
Definition discard_kept w (task : TaskId) (reason : DiscardReason)
    (acc : Queue P * list AskId) (kept : RunEvent P) : Queue P * list AskId :=
  let '(q, closed) := acc in
  match KeptResult.of_event kept, RunEvent.run_id kept with
  | Some result, Some run =>
      let '(q, closed) :=
        match KeptResult.ask_to_close result with
        | Some ask =>
            if bool_decide (ask ∈ closed) then (q, closed)
            else (record_all w q (Writer.ask_discarded w ask), ask :: closed)
        | None => (q, closed)
        end in
      (event w q task (Some run) EventKind.HoldResultDiscarded
         (object [("kept_id", of_number (EventId.as_i64 (RunEvent.id kept)));
                  ("source", or_null of_text (as_str <$> KeptResult.source result));
                  ("reason", of_text (as_str reason)); ("error", null);
                  ("superseded", of_flag true)]), closed)
  | _, _ => (q, closed)
  end.
Definition discard_kept_of_ended w q (task : TaskId) (end_ : HoldEnd) : Queue P :=
  let unsettled := List.filter (λ e, bool_decide (RunEvent.task_id e = Some task)
    && RunEvent.is_kind e EventKind.HoldResultKept && is_some (RunEvent.run_id e)
    && negb (kept_settled q e)) (Queue.log q) in
  match hold_end_kept_result end_ with
  | Disposition.Discard reason => (foldl (discard_kept w task reason) (q, []) unsettled).1
  | Disposition.Apply => q
  end.

Definition end_with_task w q (task : TaskId) (status : TaskStatus) (now : Z) : Queue P * bool :=
  match hold_end_of status with
  | None => (q, false)
  | Some end_ =>
      let run := TaskRun.id <$> latest_run q task in
      let open := open_hold_of q task in
      let closed :=
        match open with
        | Some hold =>
            event w (update_holds q (closes (TaskHold.id hold)) (close_row now HOLD_ENDER HOLD_ENDER None))
              task run EventKind.TaskHoldEnded
              (object [("hold_id", of_number (HoldId.as_i64 (TaskHold.id hold)));
                       ("reason", of_text (as_str end_));
                       ("held_secs", of_number (now - TaskHold.created_at hold));
                       ("settled_secs",
                          or_null of_number ((λ at_, now - at_)%Z <$> TaskHold.settled_at hold))])
        | None => q
        end in
      (discard_kept_of_ended w closed task end_, is_some open)
  end.

(** The tasks that ended with a hold still open, by id. *)
Definition ended_with_open_hold q : list (TaskId * TaskStatus) :=
  sort_by_key (λ entry, [TaskId.as_i64 entry.1])
    (dedup_onto []
       (omap (λ row,
          t ← find_task q (HoldRow.task row);
          if HoldRow.is_open row
             && match Task.status t with
                | TaskStatus.Completed | TaskStatus.Canceled => true
                | _ => false
                end
          then Some (Task.id t, Task.status t) else None) (Queue.holds q))).
Definition end_holds_of_ended w q : Queue P * list TaskId :=
  foldl (λ acc entry,
    let '(q, closed) := end_with_task w acc.1 entry.1 entry.2 (Writer.now w) in
    (q, if closed then acc.2 ++ [entry.1] else acc.2)) (q, []) (ended_with_open_hold q).

(** *** Runs *)

(** [UPDATE task_runs]: the columns a command may change. *)
Definition save_columns (stored run : TaskRun) : TaskRun :=
  TaskRun.mk (TaskRun.id stored) (TaskRun.task_id stored) (TaskRun.status run)
    (TaskRun.requested_provider stored) (TaskRun.actual_provider stored)
    (TaskRun.worker_mode stored) (TaskRun.base_commit stored) (TaskRun.branch run)
    (TaskRun.worktree_path run) (TaskRun.workspace_id run) (TaskRun.receipt_path run)
    (TaskRun.log_path run) (TaskRun.result_commit run) (TaskRun.repo_path run)
    (TaskRun.run_dir run) (TaskRun.last_error run) (TaskRun.workspace_closed_at run)
    (TaskRun.created_at stored).
Definition saves (run : TaskRun) (from : RunStatus) (token : option LeaseToken)
    (stored : StoredRun) : bool :=
  bool_decide (TaskRun.id (StoredRun.run stored) = TaskRun.id run)
  && bool_decide (TaskRun.status (StoredRun.run stored) = from)
  && (is_none token || bool_decide (StoredRun.supervisor_token stored = token)).
Definition save_run_row q (run : TaskRun) (from : RunStatus) (token : option LeaseToken) :
    Queue P * bool :=
  (q <| Queue.runs :=
     (λ stored, if saves run from token stored
                then StoredRun.mk (save_columns (StoredRun.run stored) run)
                       (StoredRun.supervisor_token stored)
                else stored) <$> Queue.runs q |>,
   bool_decide (length (List.filter (saves run from token) (Queue.runs q)) = 1)).
Definition save_run w q (run : TaskRun) (from : RunStatus) (token : option LeaseToken) :
    result StoreError (Queue P * bool) :=
  let '(q, saved) := save_run_row q run from token in
  if negb saved then Ok (q, false) else
  let q :=
    match unfinished_change from (TaskRun.status run) with
    | Some change =>
        event w q (TaskRun.task_id run) (Some (TaskRun.id run)) EventKind.RunUnfinishedChanged
          (object [("unfinished", of_flag (UnfinishedChanged.unfinished change));
                   ("from", of_text (as_str (UnfinishedChanged.from change)));
                   ("to", of_text (as_str (UnfinishedChanged.to change)))])
    | None => q
    end in
  if bool_decide (from = TaskRun.status run) then Ok (q, true)
  else settled ← settle_at_rest_in w q (TaskRun.id run) false; Ok (settled.1, true).

Definition run_event w q (run : RunId) (kind : EventKind) (payload : P) :
    result StoreError (Queue P) :=
  r ← read_run q run;
  let q := event w q (TaskRun.task_id r) (Some run) kind payload in
  if bool_decide (kind ∈ [EventKind.LeaseReleased; EventKind.RunRecovered])
  then fst <$> settle_at_rest_in w q run false
  else Ok q.

Definition end_released_run w q (run : RunId) (reason : string) (carried : option P) :
    result StoreError (Queue P) :=
  r ← read_run q run;
  ended ← StoreError.of_domain (TaskRun.end_for_release r reason);
  saved ← save_run w q ended (TaskRun.status r) None;
  if negb saved.2 then Err (StoreError.RunChanged run) else
  match carried with
  | Some payload => run_event w saved.1 run EventKind.TriageFinished payload
  | None => Ok saved.1
  end.

(** *** Tasks *)
Definition update_tasks q (matches : Task → bool) (change : Task → Task) : Queue P :=
  q <| Queue.tasks := (λ t, if matches t then change t else t) <$> Queue.tasks q |>.
(** [UPDATE tasks SET status, updated_at WHERE id AND status=from]. *)
Definition in_status (task : TaskId) (from : TaskStatus) (t : Task) : bool :=
  bool_decide (Task.id t = task) && bool_decide (Task.status t = from).
Definition move_task w q (task : TaskId) (from to : TaskStatus) : Queue P * bool :=
  (update_tasks q (in_status task from)
     (λ t, t <| Task.status := to |> <| Task.updated_at := Writer.timestamp w |>),
   bool_decide (length (List.filter (in_status task from) (Queue.tasks q)) = 1)).
Definition status_changed (from to : TaskStatus) (more : list (string * P)) : P :=
  object ([("from", of_text (as_str from)); ("to", of_text (as_str to))] ++ more).

Definition end_in_progress w q (task : TaskId) (run : RunId) (to : TaskStatus)
    (more : list (string * P)) : result StoreError (Queue P * Task) :=
  let '(q, moved) := move_task w q task TaskStatus.InProgress to in
  if negb moved then Err (StoreError.NotInProgress task) else
  let q := event w q task (Some run) EventKind.TaskStatusChanged
             (status_changed TaskStatus.InProgress to more) in
  let '(q, _) := end_with_task w q task to (Writer.now w) in
  t ← read_task q task; Ok (q, t).
(** [record_spike_request], of the table of planning requests, is not here. *)
Definition complete_task w q (task : TaskId) (run : RunId) : result StoreError (Queue P * Task) :=
  end_in_progress w q task run TaskStatus.Completed [].
Definition replace_task w q (task : TaskId) (run : RunId) (operation : ReplanId) :
    result StoreError (Queue P * Task) :=
  end_in_progress w q task run TaskStatus.Replaced
    [("replan_operation_id", of_number (ReplanId.as_i64 operation))].

Definition has_unfinished_run q (task : TaskId) : bool :=
  existsb (λ r, bool_decide (TaskRun.task_id (StoredRun.run r) = task)
                && RunStatus.is_unfinished (TaskRun.status (StoredRun.run r))) (Queue.runs q).
Definition action_step (action : TaskAction) : GuardedStep :=
  match action with
  | TaskAction.Ready | TaskAction.BypassReview | TaskAction.Approve => GuardedStep.Ready
  | TaskAction.Cancel => GuardedStep.Cancel
  | TaskAction.Draft | TaskAction.Submit | TaskAction.Reopen => GuardedStep.Edit
  end.
(** [more] is what a cancel adds to its event. *)
Definition apply_transition w q (task : TaskId) (action : TaskAction) (more : list (string * P)) :
    result StoreError (Queue P * Task) :=
  _ ← check_task_step q task (action_step action);
  if bool_decide (action_step action = GuardedStep.Ready) && Writer.child_of_replacement w task
  then Err (StoreError.ChildOfReplacement task) else
  t ← read_task q task;
  let bypass := bool_decide (action = TaskAction.BypassReview) in
  if bypass && negb (Writer.judged w task) then Err (StoreError.NotJudged task) else
  moved ← StoreError.of_domain (Task.transition t action (has_unfinished_run q task));
  let '(q, changed) := move_task w q task (Task.status t) (Task.status moved) in
  if negb changed then Err (StoreError.TaskChanged task) else
  let q := event w q task None EventKind.TaskStatusChanged
             (status_changed (Task.status t) (Task.status moved) more) in
  let '(q, _) := end_with_task w q task (Task.status moved) (Writer.now w) in
  let q := if bypass
           then event w q task None EventKind.ReviewBypassed
                  (object [("from", of_text (as_str (Task.status t)))])
           else q in
  t ← read_task q task; Ok (q, t).

(** ** Holding *)
Definition new_hold_id q : HoldId :=
  HoldId.new (1 + foldr Z.max 0 ((λ row, HoldId.as_i64 (HoldRow.id row)) <$> Queue.holds q))%Z.
Definition hold_task w q (target : HoldTarget) (reason : string) (until : option Z)
    (by_role by_id : string) : result StoreError (Queue P * (TaskHold * HoldState)) :=
  task ← resolve q target;
  t ← read_task q task;
  _ ← StoreError.of_domain (check_hold task (Task.status t) (open_hold_of q task) reason);
  let latest := latest_run q task in
  let leased := is_some_and latest (λ run, leased q (TaskRun.id run)) in
  let writer := match latest with
                | Some run => rest_writer q (TaskRun.id run) false
                | None => RestWriter.default
                end in
  let state := held_state (rest_wait (TaskRun.status <$> latest) leased writer) in
  let named := match target with HoldTarget.Run run => Some run | HoldTarget.Task _ => None end in
  let hold := TaskHold.mk (new_hold_id q) task named (trim reason) until by_role by_id
                (Writer.now w)
                (if bool_decide (state = HoldState.Held) then Some (Writer.now w) else None) in
  let q := q <| Queue.holds := Queue.holds q ++ [HoldRow.mk hold None None None None] |> in
  let q := event w q task (TaskRun.id <$> latest) EventKind.TaskHeld
    (object [("hold_id", of_number (HoldId.as_i64 (TaskHold.id hold)));
             ("reason", of_text (trim reason)); ("until", or_null of_number until);
             ("requested", of_text (HoldTarget.requested target));
             ("run_id", or_null of_text (RunId.as_str ∘ TaskRun.id <$> latest));
             ("run_status", or_null of_text (as_str ∘ TaskRun.status <$> latest));
             ("state", of_text (as_str state))]) in
  match latest with
  | Some run =>
      if bool_decide (state = HoldState.Held) && RunStatus.is_unfinished (TaskRun.status run)
      then q ← enter_held_phase w q (TaskRun.id run) (EventKind.as_str EventKind.TaskHeld);
           Ok (q, (hold, state))
      else Ok (q, (hold, state))
  | None => Ok (q, (hold, state))
  end.

(** ** Reminding *)
Definition remind w (acc : Queue P * list (TaskHold * HoldReminder)) (hold : TaskHold) :
    Queue P * list (TaskHold * HoldReminder) :=
  let '(q, told) := acc in
  match TaskHold.reminder_due hold (last_told q hold) (Writer.now w) with
  | None => (q, told)
  | Some cause =>
      (event w q (TaskHold.task_id hold) None EventKind.TaskHoldReminded
         (object [("hold_id", of_number (HoldId.as_i64 (TaskHold.id hold)));
                  ("task_id", of_number (TaskId.as_i64 (TaskHold.task_id hold)));
                  ("reason", of_text (TaskHold.reason hold));
                  ("until", or_null of_number (TaskHold.until hold));
                  ("held_at", of_number (TaskHold.created_at hold));
                  ("settled_at", or_null of_number (TaskHold.settled_at hold));
                  ("cause", of_text (as_str cause)); ("at", of_number (Writer.now w))]),
       told ++ [(hold, cause)])
  end.
Definition remind_task_holds w q : Queue P * list (TaskHold * HoldReminder) :=
  foldl (remind w) (q, []) (task_holds q).

(** ** Settling *)

(** [renew_lease] and the delete of a lease: the one of [token]. *)
Definition held_lease (run : RunId) (token : LeaseToken) (l : RunLease) : bool :=
  bool_decide (RunLease.run l = run) && bool_decide (RunLease.token l = token).
Definition renew_lease w q (run : RunId) (token : LeaseToken) : result StoreError (Queue P) :=
  if bool_decide (length (List.filter (held_lease run token) (Queue.leases q)) = 1)
  then Ok (q <| Queue.leases :=
         (λ l, if held_lease run token l
               then RunLease.mk (RunLease.run l) (RunLease.token l) (Writer.now w)
               else l) <$> Queue.leases q |>)
  else Err (StoreError.LeaseLost run).
Definition drop_lease q (run : RunId) (token : LeaseToken) : result StoreError (Queue P) :=
  if bool_decide (length (List.filter (held_lease run token) (Queue.leases q)) = 1)
  then Ok (q <| Queue.leases := List.filter (λ l, negb (held_lease run token l)) (Queue.leases q) |>)
  else Err (StoreError.LeaseLost run).

(** The payload of [record_hold_park] on the caller's. *)
Definition hold_park_payload (payload : P) (run : TaskRun) (reason : string) : P :=
  let payload := if is_object payload then payload else object [] in
  set_field (set_field (set_field payload CODE_KEY (of_text (as_str ReasonCode.Held)))
    "status" (of_text (as_str (TaskRun.status run)))) "reason" (of_text reason).
Definition park_for_hold w q (hold : HoldId) (run : RunId) (token : LeaseToken) (reason : string)
    (payload : P) : result StoreError (Queue P * option TaskRun) :=
  let '(settled_queue, settled) := settle_open q hold (Writer.now w) in
  if negb settled then Ok (q, None) else
  q ← renew_lease w settled_queue run token;
  match stored_run q run with
  | None => Err (StoreError.NotParked run)
  | Some r =>
      match TaskRun.park_for_hold r reason with
      | Err _ => Err (StoreError.NotParked run)
      | Ok parked =>
          saved ← save_run w q parked (TaskRun.status r) (Some token);
          if negb saved.2 then Err (StoreError.NotParked run) else
          q ← run_event w saved.1 run EventKind.HoldParked (hold_park_payload payload parked reason);
          q ← drop_lease q run token;
          q ← run_event w q run EventKind.LeaseReleased
                (object [("reason", of_text (EventKind.as_str EventKind.HoldParked));
                         ("hold_id", of_number (HoldId.as_i64 hold))]);
          q ← enter_held_phase w (record_all w q (Writer.landing_closed w run)) run
                (EventKind.as_str EventKind.HoldParked);
          Ok (q, Some parked)
      end
  end.

Definition settle_hold_at_rest w q (hold : HoldId) (run : RunId) (status : RunStatus) :
    result StoreError (Queue P * bool) :=
  match stored_run q run with
  | None => Ok (q, false)
  | Some r =>
      if negb (bool_decide (TaskRun.status r = status))
         || is_none_or (open_hold_of q (TaskRun.task_id r))
              (λ open, negb (bool_decide (TaskHold.id open = hold)))
      then Ok (q, false)
      else settle_at_rest_in w q run true
  end.

Definition release_for_hold w q (hold : HoldId) (run : RunId) (token : LeaseToken) :
    result StoreError (Queue P * bool) :=
  q ← drop_lease q run token;
  q ← run_event w q run EventKind.LeaseReleased
        (object [("reason", of_text "hold_settled"); ("hold_id", of_number (HoldId.as_i64 hold))]);
  r ← read_run q run;
  if is_some_and (open_hold_of q (TaskRun.task_id r))
       (λ open, bool_decide (TaskHold.id open = hold) && is_some (TaskHold.settled_at open))
  then Ok (q, true)
  else settle_at_rest_in w q run true.
End store.

(** ** Releasing *)

(** What a release that ends a run read of its work ([application/inherit.rs]). *)
Module ReleasedRead.
Record t : Set := mk { own : option CommitSha; saved : option CommitSha }.
Definition head (self : t) : option CommitSha :=
  match saved self with Some head => Some head | None => own self end.
End ReleasedRead.
Abbreviation ReleasedRead := ReleasedRead.t.

Module ReleaseRequest.
Record t : Set := mk {
  target : HoldTarget;
  choice : ReleaseChoice;
  work : option (ReleaseReadAt * ReleasedRead);
}.
End ReleaseRequest.
Abbreviation ReleaseRequest := ReleaseRequest.t.

Module ReleaseRecorded.
Record t : Set := mk {
  hold : TaskHold;
  continuation : string;
  decision : ReleaseDecision;
  provider : option Provider;
  model : option string;
  inherit : option ReleasedWork;
  replan_carry_ended : option ReplanCarryEnded;
}.
End ReleaseRecorded.
Abbreviation ReleaseRecorded := ReleaseRecorded.t.

Section release.
  Context {P : Type} `{Payload P}.
  Implicit Types (q : Queue P) (w : Writer P).

(** [carry_ended] of the store. *)
Definition carry_ended w q (task : TaskId) (run : RunId) (facts : ReleaseFacts)
    (choice : ReleaseChoice) : option ReplanCarryEnded :=
  match Writer.child_carry w task with
  | None => None
  | Some carry =>
      let events := rev (List.filter (λ e, bool_decide (RunEvent.task_id e = Some task)) (Queue.log q)) in
      if replan_carry_live events (ChildCarry.operation carry)
      then Some (ReplanCarryEnded.new carry task run facts (ReleaseChoice.provider choice))
      else None
  end.

(** A supervisor or a process of the run still runs. *)
Definition alive w q (run : RunId) : bool :=
  let fresh at_ := (Writer.now w - HEARTBEAT_TIMEOUT_SECS <=? at_)%Z in
  existsb (λ l, bool_decide (RunLease.run l = run) && fresh (RunLease.heartbeat_at l)) (Queue.leases q)
  || existsb (λ p, bool_decide (RunProcess.run p = run) && is_none (RunProcess.exited_at p)
                   && fresh (RunProcess.heartbeat_at p)) (Queue.processes q).

Definition release_facts q (t : Task) (latest : option TaskRun) : ReleaseFacts :=
  ReleaseFacts.mk (Task.status t) (TaskRun.status <$> latest) (TaskRun.actual_provider <$> latest)
    (is_some_and latest (λ run, session_to_resume (run_events q (TaskRun.id run))))
    (is_some_and latest (λ run, kept_unsettled q (TaskRun.id run))).

(** What the release reads of the run now, when it ends it or read its work. *)
Definition release_found q (hold : TaskHold) (task : TaskId) (latest : option TaskRun) (reads : bool) :
    result StoreError (option ReleaseReadAt) :=
  match latest with
  | Some run =>
      if reads then
        version ← progress_version q task (TaskRun.id run);
        Ok (Some (ReleaseReadAt.mk (TaskHold.id hold) (TaskRun.id run) version))
      else Ok None
  | None => Ok None
  end.

(** The checks of a release and what it decides, nothing written yet. *)
Definition decide_release w q (request : ReleaseRequest) :
    result StoreError (Task * option TaskRun * ReleaseFacts * ReleaseRecorded * option WorkerSession) :=
  task ← resolve q (ReleaseRequest.target request);
  t ← read_task q task;
  let open := open_hold_of q task in
  let ended := match Task.status t with TaskStatus.Completed | TaskStatus.Canceled => true | _ => false end in
  let wait :=
    if ended then RunHoldWait.None else
    match TaskHold.state <$> open with
    | Some HoldState.Settling => RunHoldWait.Settling
    | Some HoldState.Held => RunHoldWait.Settled
    | None => RunHoldWait.None
    end in
  _ ← StoreError.of_domain (check_release task open wait);
  match open with
  | None => Err (StoreError.Refused (DomainError.TaskNotHeld task))
  | Some hold =>
      let latest := latest_run q task in
      let facts := release_facts q t latest in
      let choice := ReleaseRequest.choice request in
      let ends := ends_run facts choice in
      let goes_on :=
        match latest with
        | Some run =>
            if ends || negb (bool_decide (Task.status t = TaskStatus.InProgress))
            then Worker.provider (Task.worker t) else TaskRun.actual_provider run
        | None => Worker.provider (Task.worker t)
        end in
      _ ← match ReleaseChoice.model choice with
          | Some model =>
              StoreError.of_domain
                (check_model (unwrap_or (ReleaseChoice.provider choice) goes_on) model)
          | None => Ok tt
          end;
      let read := ReleaseRequest.work request in
      found ← release_found q hold task latest (ends || is_some read);
      _ ← StoreError.of_domain (check_release_read task (TaskHold.id hold) ends (fst <$> read) found);
      let work := if ends && is_some latest then snd <$> read else None in
      let decision := release_decision facts choice
                        (is_some_and work (λ work, is_some (ReleasedRead.own work))) in
      let inherit :=
        run ← latest; work ← work; head ← ReleasedRead.head work;
        Some (ReleasedWork.mk (TaskRun.branch run) head (ReleasedRead.saved work)) in
      let ended_carry :=
        match latest, decision, inherit with
        | Some run, ReleaseDecision.RetryFresh, None => carry_ended w q task (TaskRun.id run) facts choice
        | _, _, _ => None
        end in
      let session :=
        (λ model, released_session model
           (current (match latest with Some run => run_events q (TaskRun.id run) | None => [] end)))
        <$> ReleaseChoice.model choice in
      Ok (t, latest, facts,
          ReleaseRecorded.mk hold (decision_continuation decision) decision
            (ReleaseChoice.provider choice) (WorkerSession.model <$> session) inherit ended_carry,
          session)
  end.

(** The release's own rows and events: the hold closed, [task_released], the end
    of a handover and the provider of the task. *)
Definition write_release w q (t : Task) (latest : option TaskRun) (recorded : ReleaseRecorded)
    (session : option WorkerSession) (by_role by_id : string) : result StoreError (Queue P) :=
  let hold := ReleaseRecorded.hold recorded in
  let now := Writer.now w in
  let run := TaskRun.id <$> latest in
  let q := update_holds q (closes (TaskHold.id hold))
             (close_row now by_role by_id (Some (ReleaseRecorded.continuation recorded))) in
  let q := event w q (Task.id t) run EventKind.TaskReleased
    (Released.payload (Released.mk (Some (TaskHold.id hold)) (ReleaseRecorded.continuation recorded)
       (Some (ReleaseRecorded.decision recorded)) (now - TaskHold.created_at hold)
       ((λ at_, now - at_)%Z <$> TaskHold.settled_at hold) (ReleaseRecorded.provider recorded)
       (WorkerSession.model <$> session) (WorkerSession.effort <$> session)
       (ReleaseRecorded.inherit recorded))) in
  let q := match run, ReleaseRecorded.replan_carry_ended recorded with
           | Some run, Some ended =>
               event w q (Task.id t) (Some run) EventKind.ReplanCarryEnded (ReplanCarryEnded.payload ended)
           | _, _ => q
           end in
  match ReleaseRecorded.provider recorded with
  | Some provider =>
      if bool_decide (provider = Worker.provider (Task.worker t)) then Ok q else
      moved ← StoreError.of_domain (Task.release_on t provider);
      Ok (update_tasks q (λ row, bool_decide (Task.id row = Task.id t))
            (λ row, row <| Task.worker := Task.worker moved |>
                        <| Task.named_mode := Task.stored_worker_mode moved |>))
  | None => Ok q
  end.

(** The end of the run the release leaves, and its task ready again. *)
Definition end_for_new_run w q (t : Task) (run : TaskRun) (facts : ReleaseFacts)
    (recorded : ReleaseRecorded) (by_role : string) : result StoreError (Queue P) :=
  if alive w q (TaskRun.id run) then Err (StoreError.StillRuns (TaskRun.id run)) else
  let why := new_run_reason facts (ReleaseRecorded.provider recorded) in
  let carried :=
    (λ inherit,
       object [("action", of_text RETRY_INHERIT); ("by", of_text by_role); ("reason", of_text why);
               ("inherit", ReleasedWork.payload inherit);
               ("released", of_number (HoldId.as_i64 (TaskHold.id (ReleaseRecorded.hold recorded))));
               ("status", of_text (as_str (TaskRun.status run)))])
    <$> ReleaseRecorded.inherit recorded in
  q ← end_released_run w q (TaskRun.id run) (format [as_str ReasonCode.Released; ": "; why]) carried;
  q ← leave_held_phase w (record_all w q (Writer.decides_closed w (TaskRun.id run))) (TaskRun.id run);
  fst <$> apply_transition w q (Task.id t) TaskAction.Ready [].

Definition release_task w q (request : ReleaseRequest) (by_role by_id : string)
    (keep : TaskRun → CommitSha → bool) : result StoreError (Queue P * ReleaseRecorded) :=
  '(t, latest, facts, recorded, session) ← decide_release w q request;
  q ← write_release w q t latest recorded session by_role by_id;
  match latest with
  | None => Ok (q, recorded)
  | Some run =>
      q ← (if decision_new_run (ReleaseRecorded.decision recorded)
           then end_for_new_run w q t run facts recorded by_role
           else leave_held_phase w q (TaskRun.id run));
      if is_none_or (ReleaseRecorded.inherit recorded)
           (λ inherit, keep run (ReleasedWork.head inherit))
      then Ok (q, recorded)
      else Err (StoreError.NotKept (TaskRun.id run))
  end.
End release.
