(* ===== verification/HoldTable.v ===== *)
(** * What the table of holds promises

    The operations of HoldStore, one after the other and among writes of other
    parts, keep at most one hold open on a task that has not ended; a hold's
    row settles once, closes once and never changes after; a hold in effect
    fences its task; a release leaves its task where its decision says; and a
    person is told of an overdue hold once a day. *)
From S2P Require Import Prelude Text Vocab Ids Errors Workers Tasks Replans Runs EventKinds Events Reasons Resumes RunPhase Holds WorkerModels HoldStore.

Module HoldStoreProofs.
Section proofs.
  Context {P : Type} `{Payload P}.
  Implicit Types (q : Queue P) (w : Writer P) (row : HoldRow).

(** At most one hold is open on a task, which has not ended; and a hold closed by
    a release had settled. *)
Record store_wf q : Prop := {
  wf_ids : NoDup (HoldRow.id <$> Queue.holds q);
  wf_one_open : ∀ r1 r2, r1 ∈ Queue.holds q → r2 ∈ Queue.holds q →
    HoldRow.is_open r1 = true → HoldRow.is_open r2 = true →
    HoldRow.task r1 = HoldRow.task r2 → r1 = r2;
  wf_going : ∀ row, row ∈ Queue.holds q → HoldRow.is_open row = true →
    ∃ t, find_task q (HoldRow.task row) = Some t ∧ hold_end_of (Task.status t) = None;
  wf_released : ∀ row, row ∈ Queue.holds q → is_some (HoldRow.continuation row) = true →
    HoldRow.is_open row = false ∧ is_some (TaskHold.settled_at (HoldRow.hold row)) = true;
}.

(** What may become of a row: it settles once and closes once, and a closed row
    stays as it is. *)
Definition row_evolves row row' : Prop :=
  (HoldRow.is_open row = false → row' = row)
  ∧ (HoldRow.hold row' = HoldRow.hold row
     ∨ TaskHold.settled_at (HoldRow.hold row) = None
       ∧ ∃ at_, HoldRow.hold row' = HoldRow.hold row <| TaskHold.settled_at := Some at_ |>).
Definition evolves q q' : Prop :=
  ∀ row, row ∈ Queue.holds q → ∃ row', row' ∈ Queue.holds q' ∧ row_evolves row row'.

#[local] Instance row_evolves_preorder : PreOrder row_evolves.
Proof.
  split; [intros row; split; [done|by left]|].
  intros r1 r2 r3 [Hc12 Hs12] [Hc23 Hs23]. split; [naive_solver|].
  destruct Hs12 as [<-|(Hn & at_ & Heq)]; [exact Hs23|]. right. split; [done|].
  destruct Hs23 as [->|(Hn' & _)]; [by exists at_|]. by rewrite Heq in Hn'.
Qed.
#[local] Instance evolves_preorder : PreOrder evolves.
Proof.
  split; [intros q row Hrow; by exists row|].
  intros q1 q2 q3 H12 H23 row Hrow. destruct (H12 row Hrow) as (row2 & Hrow2 & He).
  destruct (H23 row2 Hrow2) as (row3 & Hrow3 & He'). exists row3. split; [done|]. by trans row2.
Qed.

(** A step that keeps the table well formed and lets its rows only evolve. *)
Definition keeps q q' : Prop := store_wf q → store_wf q' ∧ evolves q q'.
#[local] Instance keeps_preorder : PreOrder keeps.
Proof.
  split; [intros q Hwf; by split|]. intros q1 q2 q3 H12 H23 Hwf.
  destruct (H12 Hwf) as [Hwf2 He2]. destruct (H23 Hwf2) as [Hwf3 He3]. split; [done|]. by trans q2.
Qed.

(** A step that writes neither holds nor tasks. *)
Definition same q q' : Prop := Queue.holds q' = Queue.holds q ∧ Queue.tasks q' = Queue.tasks q.
#[local] Instance same_preorder : PreOrder same.
Proof. split; [by split|]. intros q1 q2 q3 [] []. split; congruence. Qed.

Lemma same_keeps q q' : same q q' → keeps q q'.
Proof.
  intros [Hholds Htasks] [Hids Hone Hgoing Hreleased]. split.
  - split; rewrite Hholds; try done. intros row Hrow Hopen.
    unfold find_task. rewrite Htasks. by apply Hgoing.
  - intros row Hrow. exists row. by rewrite Hholds.
Qed.

Lemma same_record w q new : same q (record w q new).
Proof. done. Qed.
Lemma same_record_all w q new : same q (record_all w q new).
Proof.
  unfold record_all. revert q. induction new as [|n new IH]; intros q; simpl; [done|].
  trans (record w q n); [done|apply IH].
Qed.
Lemma same_record_phase w q run change q' : record_phase w q run change = Ok q' → same q q'.
Proof. destruct change; simpl; intros Hok; res_inv; done. Qed.
Lemma same_enter w q run cause q' : enter_held_phase w q run cause = Ok q' → same q q'.
Proof. apply same_record_phase. Qed.
Lemma same_leave w q run q' : leave_held_phase w q run = Ok q' → same q q'.
Proof.
  unfold leave_held_phase. destruct (is_some_and _ _); intros Hok; res_inv; [|done].
  by eapply same_record_phase.
Qed.
Lemma same_discard w q task end_ : same q (discard_kept_of_ended w q task end_).
Proof.
  unfold discard_kept_of_ended. simpl.
  generalize (List.filter (λ e, bool_decide (RunEvent.task_id e = Some task)
    && RunEvent.is_kind e EventKind.HoldResultKept && is_some (RunEvent.run_id e)
    && negb (kept_settled q e)) (Queue.log q)) as kept.
  enough (∀ kept acc, same acc.1 (foldl (discard_kept w task DiscardReason.TaskEnded) acc kept).1)
    as Hall by (intros kept; apply (Hall kept (q, []))).
  induction kept as [|e kept IH]; intros [q' closed]; simpl; [done|].
  etrans; [|apply IH]. clear IH. simpl.
  destruct (KeptResult.of_event e) as [result|], (RunEvent.run_id e) as [run|]; try done.
  destruct (KeptResult.ask_to_close result) as [ask|]; [|done].
  case_bool_decide; [done|]. simpl. trans (record_all w q' (Writer.ask_discarded w ask)); [|done].
  apply same_record_all.
Qed.

(** *** Updates of rows *)
Lemma elem_of_update_holds q matches change row' :
  row' ∈ Queue.holds (update_holds q matches change) ↔
  ∃ row, row ∈ Queue.holds q ∧ row' = if matches row then change row else row.
Proof. simpl. rewrite list_elem_of_fmap. naive_solver. Qed.

(** The rows an update matches evolve, keep their hold's id and task, and close
    for good only once settled. *)
Definition good_change (change : HoldRow → HoldRow) row : Prop :=
  row_evolves row (change row)
  ∧ (is_some (HoldRow.continuation (change row)) = true →
     HoldRow.is_open (change row) = false
     ∧ is_some (TaskHold.settled_at (HoldRow.hold (change row))) = true).

Lemma evolves_id row row' : row_evolves row row' →
  HoldRow.id row' = HoldRow.id row ∧ HoldRow.task row' = HoldRow.task row
  ∧ (HoldRow.is_open row' = true → HoldRow.is_open row = true).
Proof.
  intros [Hclosed Hhold]. unfold HoldRow.id, HoldRow.task.
  assert (HoldRow.is_open row' = true → HoldRow.is_open row = true) as Hopen.
  { destruct (HoldRow.is_open row) eqn:Ho; [done|]. rewrite Hclosed by done. congruence. }
  by destruct Hhold as [->|(_ & at_ & ->)].
Qed.

Lemma updated_evolves q matches change row :
  (∀ row, row ∈ Queue.holds q → matches row = true → good_change change row) →
  row ∈ Queue.holds q → row_evolves row (if matches row then change row else row).
Proof. intros Hgood Hrow. destruct (matches row) eqn:Hm; [by apply Hgood|done]. Qed.

Lemma update_keeps q matches change :
  (∀ row, row ∈ Queue.holds q → matches row = true → good_change change row) →
  keeps q (update_holds q matches change).
Proof.
  intros Hgood [Hids Hone Hgoing Hreleased].
  assert (∀ row, row ∈ Queue.holds q → row_evolves row (if matches row then change row else row))
    as Hev by (intros row; by apply updated_evolves).
  split.
  - split.
    + replace (HoldRow.id <$> Queue.holds (update_holds q matches change))
        with (HoldRow.id <$> Queue.holds q); [done|]. simpl. rewrite <-list_fmap_compose.
      apply list_fmap_ext. intros i row Hl. apply list_elem_of_lookup_2, Hev, evolves_id in Hl.
      symmetry. apply Hl.
    + intros r1 r2 H1 H2 Ho1 Ho2 Htask.
      apply elem_of_update_holds in H1 as (r1' & H1 & ->), H2 as (r2' & H2 & ->).
      destruct (evolves_id _ _ (Hev _ H1)) as (_ & Ht1 & Hop1).
      destruct (evolves_id _ _ (Hev _ H2)) as (_ & Ht2 & Hop2).
      by rewrite (Hone r1' r2') by (auto; congruence).
    + intros row' Hrow Hopen. apply elem_of_update_holds in Hrow as (row & Hrow & ->).
      destruct (evolves_id _ _ (Hev _ Hrow)) as (_ & -> & Hop). apply Hgoing; auto.
    + intros row' Hrow Hcont. apply elem_of_update_holds in Hrow as (row & Hrow & ->).
      destruct (matches row) eqn:Hm; [by apply (Hgood row Hrow Hm)|by apply Hreleased].
  - intros row Hrow. exists (if matches row then change row else row).
    split; [apply elem_of_update_holds; eauto|by apply Hev].
Qed.

Lemma settle_keeps q hold now : keeps q (settle_open q hold now).1.
Proof.
  intros Hwf. apply update_keeps; [|done]. intros row Hrow Hm. unfold settles in Hm. bool_split.
  destruct (TaskHold.settled_at (HoldRow.hold row)) eqn:Hs; [done|]. split.
  - split; [congruence|]. right. split; [done|]. by exists now.
  - simpl. intros Hcont. destruct (wf_released q Hwf row Hrow Hcont). congruence.
Qed.

Lemma close_keeps q hold now by_role by_id continuation :
  (is_some continuation = true → ∀ row, row ∈ Queue.holds q → closes hold row = true →
     is_some (TaskHold.settled_at (HoldRow.hold row)) = true) →
  keeps q (update_holds q (closes hold) (close_row now by_role by_id continuation)).
Proof.
  intros Hsettled Hwf. apply update_keeps; [|done]. intros row Hrow Hm. pose proof Hm as Hcl.
  unfold closes in Hm. bool_split. split; [split; [congruence|by left]|].
  intros Hcont. split; [done|]. simpl. destruct continuation; [by apply Hsettled|].
  simpl in Hcont. destruct (wf_released q Hwf row Hrow Hcont). congruence.
Qed.

(** *** Moves of tasks *)
Lemma find_task_id q task t : find_task q task = Some t → Task.id t = task.
Proof. intros Hf. apply find_some in Hf as [_ Hid]. by apply bool_decide_eq_true in Hid. Qed.

Lemma find_update_tasks q matches change task :
  (∀ t, Task.id (change t) = Task.id t) →
  find_task (update_tasks q matches change) task
  = (λ t, if matches t then change t else t) <$> find_task q task.
Proof.
  intros Hid. unfold find_task, update_tasks. simpl. induction (Queue.tasks q) as [|t ts IH]; [done|].
  simpl. assert (Task.id (if matches t then change t else t) = Task.id t) as -> by (destruct (matches t); auto).
  by case_bool_decide.
Qed.

(** The tasks of [q'] go on as those of [q], but for [task]. *)
Definition others_go_on (task : TaskId) q q' : Prop :=
  Queue.holds q' = Queue.holds q
  ∧ ∀ other t, other ≠ task → find_task q other = Some t → hold_end_of (Task.status t) = None →
      ∃ t', find_task q' other = Some t' ∧ hold_end_of (Task.status t') = None.

Lemma move_others w q task from to : others_go_on task q (move_task w q task from to).1.
Proof.
  split; [done|]. intros other t Hne Hfind Hgoes. simpl. rewrite find_update_tasks by done.
  rewrite Hfind. simpl. exists t. split; [|done]. unfold in_status.
  apply find_task_id in Hfind as <-. by rewrite bool_decide_false.
Qed.

Lemma move_going w q task from to :
  (∀ t, find_task q task = Some t → Task.status t ≠ from → hold_end_of (Task.status t) = None) →
  hold_end_of to = None → keeps q (move_task w q task from to).1.
Proof.
  intros Hother Hto [Hids Hone Hgoing Hreleased]. split.
  - split; simpl; try done. intros row Hrow Hopen.
    destruct (Hgoing row Hrow Hopen) as (t & Hfind & Hgoes).
    rewrite find_update_tasks by done. rewrite Hfind. simpl. eexists. split; [reflexivity|].
    by destruct (in_status task from t).
  - intros row Hrow. by exists row.
Qed.

Lemma open_hold_of_Some q task hold :
  open_hold_of q task = Some hold →
  ∃ row, row ∈ Queue.holds q ∧ HoldRow.hold row = hold ∧ HoldRow.is_open row = true
    ∧ HoldRow.task row = task.
Proof.
  unfold open_hold_of. destruct (List.find _ _) as [row|] eqn:Hf; [|done]. intros [= <-].
  apply find_some in Hf as [Hin Hb]. apply list_elem_of_In in Hin. bool_split. by exists row.
Qed.

Lemma open_hold_of_None q task row :
  open_hold_of q task = None → row ∈ Queue.holds q → HoldRow.is_open row = true →
  HoldRow.task row ≠ task.
Proof.
  unfold open_hold_of. destruct (List.find _ _) as [r|] eqn:Hf; [done|]. intros _ Hin Hopen Htask.
  pose proof (List.find_none _ _ Hf row (proj1 (list_elem_of_In _ _) Hin)) as Hb. simpl in Hb.
  rewrite Hopen in Hb. simpl in Hb. by apply bool_decide_eq_false in Hb.
Qed.

Lemma open_hold_of_row q row :
  store_wf q → row ∈ Queue.holds q → HoldRow.is_open row = true →
  open_hold_of q (HoldRow.task row) = Some (HoldRow.hold row).
Proof.
  intros Hwf Hin Hopen. destruct (open_hold_of q (HoldRow.task row)) as [hold|] eqn:Ho.
  - apply open_hold_of_Some in Ho as (r & Hr & <- & Hop & Htask).
    by rewrite (wf_one_open q Hwf r row).
  - by destruct (open_hold_of_None _ _ _ Ho Hin Hopen).
Qed.

Lemma wf_rows q q' :
  store_wf q → Queue.holds q' = Queue.holds q →
  (∀ row, row ∈ Queue.holds q → HoldRow.is_open row = true →
     ∃ t, find_task q' (HoldRow.task row) = Some t ∧ hold_end_of (Task.status t) = None) →
  store_wf q' ∧ evolves q q'.
Proof.
  intros Hwf Hholds Hgoing. split.
  - by split; rewrite ?Hholds; [apply Hwf..| |apply Hwf].
  - intros row Hrow. exists row. by rewrite Hholds.
Qed.

Lemma update_tasks_keeps q matches change :
  (∀ t, Task.id (change t) = Task.id t) → (∀ t, Task.status (change t) = Task.status t) →
  keeps q (update_tasks q matches change).
Proof.
  intros Hid Hstatus Hwf. apply wf_rows; [done|done|]. intros row Hrow Hopen.
  destruct (wf_going q Hwf row Hrow Hopen) as (t & Hfind & Hgoes). rewrite find_update_tasks by done.
  rewrite Hfind. simpl. eexists. split; [reflexivity|]. destruct (matches t); [by rewrite Hstatus|done].
Qed.

(** After a task's move to its end, the end of its hold gives the table back its
    shape: the hold open on the task closes with it. *)
Lemma end_after_move w q q' task status now :
  store_wf q → others_go_on task q q' → hold_end_of status ≠ None →
  store_wf (end_with_task w q' task status now).1
  ∧ evolves q (end_with_task w q' task status now).1.
Proof.
  intros Hwf [Hholds Hothers] Hend. unfold end_with_task.
  destruct (hold_end_of status) as [end_|]; [|done]. clear Hend. cbn [fst].
  assert (open_hold_of q' task = open_hold_of q task) as Hsame
    by (unfold open_hold_of; by rewrite Hholds).
  rewrite Hsame. clear Hsame.
  set (closed := match open_hold_of q task with Some _ => _ | None => _ end).
  enough (store_wf closed ∧ evolves q closed) as [Hclosed Hev].
  { destruct (same_keeps closed _ (same_discard w closed task end_) Hclosed) as [? ?].
    split; [done|]. by trans closed. }
  assert (∀ row, row ∈ Queue.holds q → HoldRow.is_open row = true → HoldRow.task row ≠ task →
    ∃ t, find_task q' (HoldRow.task row) = Some t ∧ hold_end_of (Task.status t) = None) as Hrest.
  { intros row Hrow Hopen Hne. destruct (wf_going q Hwf row Hrow Hopen) as (t & Hf & Ht). eauto. }
  destruct (open_hold_of q task) as [hold|] eqn:Ho; subst closed.
  - set (q1 := update_holds q (closes (TaskHold.id hold)) (close_row now HOLD_ENDER HOLD_ENDER None)).
    assert (store_wf q1 ∧ evolves q q1) as [Hwf1 Hev1] by (apply close_keeps; [done|exact Hwf]).
    eassert (store_wf _ ∧ evolves q1 _) as [Hwf2 Hev2]; [|split; [exact Hwf2|by trans q1]].
    apply (wf_rows q1); [done|simpl; by rewrite Hholds|]. intros row' Hrow' Hopen'.
    apply elem_of_update_holds in Hrow' as (row & Hrow & ->).
    destruct (closes (TaskHold.id hold) row) eqn:Hcl; [done|]. apply Hrest; [done..|].
    intros Htask. pose proof (open_hold_of_row q row Hwf Hrow Hopen') as Hfound.
    rewrite Htask, Ho in Hfound. injection Hfound as ->. unfold closes, HoldRow.id in Hcl.
    by rewrite Hopen', bool_decide_true in Hcl.
  - apply wf_rows; [done|done|]. intros row Hrow Hopen. apply Hrest; [done..|].
    by apply (open_hold_of_None q).
Qed.

Lemma end_with_task_keeps w q task status now : keeps q (end_with_task w q task status now).1.
Proof.
  intros Hwf. destruct (hold_end_of status) as [end_|] eqn:Hend.
  - apply end_after_move; [done| |by rewrite Hend]. split; [done|eauto].
  - unfold end_with_task. by rewrite Hend.
Qed.

(** *** Settling and the runs *)
Lemma settle_at_rest_keeps w q run checked r :
  settle_at_rest_in w q run checked = Ok r → keeps q r.1.
Proof.
  unfold settle_at_rest_in. destruct (stored_run q run) as [run'|]; [|intros; res_inv; done].
  destruct (guard_of q _) as [guard|]; [|intros; res_inv; done].
  destruct (negb _); [intros; res_inv; done|].
  pose proof (settle_keeps q (Replan.hold_hold guard) (Writer.system_now w)) as Hsettle.
  destruct (settle_open q _ _) as [q1 settled]. destruct settled; simpl; [|intros; res_inv; done].
  destruct (RunStatus.is_unfinished _); intros Hok; res_inv; [|done].
  trans q1; [done|]. by apply same_keeps, (same_enter w q1 run "hold_settled").
Qed.

Lemma save_run_keeps w q run from token r : save_run w q run from token = Ok r → keeps q r.1.
Proof.
  unfold save_run, save_run_row. simpl. case_bool_decide; simpl; [|intros; res_inv; by apply same_keeps].
  set (q1 := match unfinished_change from _ with Some _ => _ | None => _ end).
  assert (same q q1) as Hq1%same_keeps by (subst q1; by destruct (unfinished_change _ _)).
  clearbody q1. case_bool_decide; intros Hok; res_inv; [done|].
  trans q1; [done|]. simpl. by eapply settle_at_rest_keeps.
Qed.

Lemma run_event_keeps w q run kind payload q' :
  run_event w q run kind payload = Ok q' → keeps q q'.
Proof.
  unfold run_event. intros Hok. apply bind_Ok in Hok as (r & _ & Hok).
  set (q1 := event _ _ _ _ _ _) in Hok. assert (same q q1) as Hq1 by done.
  trans q1; [by apply same_keeps|]. case_bool_decide; [|res_inv; done].
  destruct (settle_at_rest_in w q1 run false) eqn:Hs; simpl in Hok; res_inv.
  by apply (settle_at_rest_keeps w q1 run false).
Qed.

Lemma end_released_keeps w q run reason carried q' :
  end_released_run w q run reason carried = Ok q' → keeps q q'.
Proof.
  unfold end_released_run. intros Hok. res_inv. rename x1 into saved.
  match goal with Hs : save_run _ _ _ _ _ = Ok _ |- _ => apply save_run_keeps in Hs end.
  destruct (negb saved.2); [done|]. destruct carried as [payload|]; [|res_inv; done].
  trans saved.1; [done|]. by eapply run_event_keeps.
Qed.

(** *** The writes that end a task *)
Lemma move_end_keeps w q task from to run payload now :
  (hold_end_of to = None → ∀ t, find_task q task = Some t → Task.status t = from) →
  keeps q (end_with_task w (event w (move_task w q task from to).1 task run
                              EventKind.TaskStatusChanged payload) task to now).1.
Proof.
  intros Hfrom Hwf. destruct (hold_end_of to) as [end_|] eqn:Hto.
  - apply end_after_move; [done| |by rewrite Hto]. apply (move_others w q task from to).
  - unfold end_with_task. rewrite Hto. simpl.
    destruct (move_going w q task from to (λ t Ht Hne, False_ind _ (Hne (Hfrom eq_refl t Ht))) Hto Hwf)
      as [Hwf' Hev].
    destruct (same_keeps (move_task w q task from to).1 (event w (move_task w q task from to).1 task run
      EventKind.TaskStatusChanged payload) ltac:(done) Hwf') as [? Hev2].
    split; [done|]. by trans (move_task w q task from to).1.
Qed.

Lemma end_in_progress_keeps w q task run to more r :
  hold_end_of to ≠ None → end_in_progress w q task run to more = Ok r → keeps q r.1.
Proof.
  intros Hto. unfold end_in_progress.
  pose proof (move_end_keeps w q task TaskStatus.InProgress to (Some run)
    (status_changed TaskStatus.InProgress to more) (Writer.now w) ltac:(done)) as Hkeeps.
  destruct (move_task w q task TaskStatus.InProgress to) as [q1 [|]]; [|done].
  simpl in *. destruct (end_with_task _ _ _ _ _) as [q2 ?]. intros Hok. by res_inv.
Qed.

Lemma apply_transition_keeps w q task action more r :
  apply_transition w q task action more = Ok r → keeps q r.1.
Proof.
  unfold apply_transition. intros Hok. apply bind_Ok in Hok as (_ & _ & Hok).
  destruct (_ && Writer.child_of_replacement w task); [done|].
  apply bind_Ok in Hok as (t & Ht & Hok). destruct (_ && negb (Writer.judged w task)); [done|].
  apply bind_Ok in Hok as (moved & _ & Hok).
  assert (find_task q task = Some t) as Hfind.
  { unfold read_task in Ht. destruct (find_task q task); [by injection Ht as ->|done]. }
  pose proof (move_end_keeps w q task (Task.status t) (Task.status moved) None
    (status_changed (Task.status t) (Task.status moved) more) (Writer.now w)
    ltac:(intros _ t' Ht'; congruence)) as Hkeeps.
  destruct (move_task w q task _ _) as [q1 [|]]; [|done].
  cbn [negb] in Hok. cbn [fst] in Hkeeps.
  destruct (end_with_task _ _ _ _ _) as [q2 ?]. apply bind_Ok in Hok as (t' & _ & Hok).
  injection Hok as <-. simpl. trans q2; [exact Hkeeps|]. apply same_keeps.
  by case_bool_decide.
Qed.

Lemma foldl_end_keeps w entries acc :
  keeps acc.1 (foldl (λ (acc : Queue P * list TaskId) entry,
    let '(q, closed) := end_with_task w acc.1 entry.1 entry.2 (Writer.now w) in
    (q, if closed then acc.2 ++ [entry.1] else acc.2)) acc entries).1.
Proof.
  revert acc. induction entries as [|[task status] entries IH]; intros acc; simpl; [done|].
  etrans; [|apply IH]. pose proof (end_with_task_keeps w acc.1 task status (Writer.now w)) as Hk.
  by destruct (end_with_task _ _ _ _ _).
Qed.

(** *** Holding *)
Lemma foldr_max_le (l : list Z) z : z ∈ l → (z ≤ foldr Z.max 0 l)%Z.
Proof. induction l as [|y l IH]; [by intros ?%elem_of_nil|]. intros [->|Hin]%elem_of_cons; simpl; lia || (specialize (IH Hin); lia). Qed.

Lemma new_hold_id_fresh q row : row ∈ Queue.holds q → HoldRow.id row ≠ new_hold_id q.
Proof.
  intros Hrow Heq. unfold new_hold_id in Heq.
  assert (HoldId.as_i64 (HoldRow.id row)
    ∈ (λ row, HoldId.as_i64 (HoldRow.id row)) <$> Queue.holds q) as Hin
    by (apply list_elem_of_fmap; eauto).
  apply foldr_max_le in Hin. rewrite Heq in Hin. simpl in Hin. lia.
Qed.

Lemma append_keeps q hold t :
  TaskHold.id hold = new_hold_id q → open_hold_of q (TaskHold.task_id hold) = None →
  find_task q (TaskHold.task_id hold) = Some t → hold_end_of (Task.status t) = None →
  keeps q (q <| Queue.holds := Queue.holds q ++ [HoldRow.mk hold None None None None] |>).
Proof.
  intros Hid Hnone Hfind Hgoes [Hids Hone Hgoing Hreleased]. split.
  - split; simpl.
    + rewrite fmap_app. simpl. apply NoDup_app. split; [done|]. split; [|apply NoDup_singleton].
      intros x Hx%list_elem_of_fmap Hin%list_elem_of_singleton. destruct Hx as (row & -> & Hrow).
      apply (new_hold_id_fresh q row Hrow). by rewrite <-Hid.
    + intros r1 r2 [H1|H1%list_elem_of_singleton]%elem_of_app
        [H2|H2%list_elem_of_singleton]%elem_of_app Ho1 Ho2 Htask; subst; [by apply Hone| | |done].
      * by destruct (open_hold_of_None q _ r1 Hnone H1 Ho1).
      * by destruct (open_hold_of_None q _ r2 Hnone H2 Ho2).
    + intros row [Hrow|Hrow%list_elem_of_singleton]%elem_of_app Hopen; [by apply Hgoing|].
      subst. by exists t.
    + intros row [Hrow|Hrow%list_elem_of_singleton]%elem_of_app Hcont; [by apply Hreleased|].
      by subst.
  - intros row Hrow. exists row. split; [|done]. simpl. apply elem_of_app. by left.
Qed.

Lemma hold_task_keeps w q target reason until by_role by_id r :
  hold_task w q target reason until by_role by_id = Ok r → keeps q r.1.
Proof.
  unfold hold_task. intros Hok. apply bind_Ok in Hok as (task & _ & Hok).
  apply bind_Ok in Hok as (t & Ht & Hok). apply bind_Ok in Hok as (u & Hcheck & Hok).
  assert (find_task q task = Some t) as Hfind.
  { unfold read_task in Ht. destruct (find_task q task); [by injection Ht as ->|done]. }
  assert (open_hold_of q task = None ∧ hold_end_of (Task.status t) = None) as [Hnone Hgoes].
  { unfold StoreError.of_domain, check_hold in Hcheck.
    destruct (negb (is_blank reason)); simpl in Hcheck; [|done].
    destruct (Task.status t); simpl in Hcheck; try done;
      by destruct (open_hold_of q task). }
  set (state := held_state _) in Hok. set (hold := TaskHold.mk _ _ _ _ _ _ _ _ _) in Hok.
  set (q1 := event _ _ _ _ _ _) in Hok.
  assert (keeps q q1) as Hq1.
  { trans (q <| Queue.holds := Queue.holds q ++ [HoldRow.mk hold None None None None] |>).
    - by apply (append_keeps q hold t).
    - by apply same_keeps. }
  clearbody q1. destruct (latest_run q task) as [run|]; [|res_inv; done].
  destruct (_ && _); [|res_inv; done]. apply bind_Ok in Hok as (q2 & Henter & Hok). res_inv.
  trans q1; [done|]. by apply same_keeps, (same_enter w q1 (TaskRun.id run) (EventKind.as_str EventKind.TaskHeld)).
Qed.

Lemma remind_same w holds acc : same acc.1 (foldl (remind w) acc holds).1.
Proof.
  revert acc. induction holds as [|hold holds IH]; intros [q told]; simpl; [done|].
  etrans; [|apply IH]. unfold remind. by destruct (TaskHold.reminder_due _ _ _).
Qed.

(** *** Settling by name *)
Lemma drop_lease_same q run token q' : drop_lease q run token = Ok q' → same q q'.
Proof. unfold drop_lease. case_bool_decide; intros Hok; res_inv; done. Qed.
Lemma renew_lease_same w q run token q' : renew_lease w q run token = Ok q' → same q q'.
Proof. unfold renew_lease. case_bool_decide; intros Hok; res_inv; done. Qed.

Lemma park_for_hold_keeps w q hold run token reason payload r :
  park_for_hold w q hold run token reason payload = Ok r → keeps q r.1.
Proof.
  unfold park_for_hold. pose proof (settle_keeps q hold (Writer.now w)) as Hsettle.
  destruct (settle_open q hold _) as [q1 [|]]; simpl in Hsettle |- *; [|intros; res_inv; done].
  intros Hok. apply bind_Ok in Hok as (q2 & Hrenew%renew_lease_same%same_keeps & Hok).
  destruct (stored_run q2 run) as [r'|]; [|done]. destruct (TaskRun.park_for_hold r' reason) as [parked|]; [|done].
  apply bind_Ok in Hok as (saved & Hsave%save_run_keeps & Hok). destruct (negb saved.2); [done|].
  apply bind_Ok in Hok as (q3 & Hev%run_event_keeps & Hok).
  apply bind_Ok in Hok as (q4 & Hdrop%drop_lease_same%same_keeps & Hok).
  apply bind_Ok in Hok as (q5 & Hev'%run_event_keeps & Hok).
  apply bind_Ok in Hok as (q6 & Henter%same_enter%same_keeps & Hok). res_inv.
  trans q1; [done|]. trans q2; [done|]. trans saved.1; [done|]. trans q3; [done|].
  trans q4; [done|]. trans q5; [done|]. simpl.
  trans (record_all w q5 (Writer.landing_closed w run)); [|done]. apply same_keeps, same_record_all.
Qed.

Lemma settle_hold_at_rest_keeps w q hold run status r :
  settle_hold_at_rest w q hold run status = Ok r → keeps q r.1.
Proof.
  unfold settle_hold_at_rest. destruct (stored_run q run); [|intros; res_inv; done].
  destruct (_ || _); [intros; res_inv; done|]. apply settle_at_rest_keeps.
Qed.

Lemma release_for_hold_keeps w q hold run token r :
  release_for_hold w q hold run token = Ok r → keeps q r.1.
Proof.
  unfold release_for_hold. intros Hok.
  apply bind_Ok in Hok as (q1 & Hdrop%drop_lease_same%same_keeps & Hok).
  apply bind_Ok in Hok as (q2 & Hev%run_event_keeps & Hok). apply bind_Ok in Hok as (t & _ & Hok).
  trans q1; [done|]. trans q2; [done|]. destruct (is_some_and _ _); [by res_inv|].
  by eapply settle_at_rest_keeps.
Qed.

(** *** Releasing *)
Lemma row_of_id q r1 r2 :
  store_wf q → r1 ∈ Queue.holds q → r2 ∈ Queue.holds q → HoldRow.id r1 = HoldRow.id r2 → r1 = r2.
Proof. intros Hwf. apply (nodup_key_inj HoldRow.id), wf_ids, Hwf. Qed.

(** A release closes the task's open hold, which has settled. *)
Lemma decide_release_hold w q request t latest facts recorded session :
  store_wf q → decide_release w q request = Ok (t, latest, facts, recorded, session) →
  let hold := ReleaseRecorded.hold recorded in
  find_task q (Task.id t) = Some t ∧ open_hold_of q (Task.id t) = Some hold
  ∧ is_some (TaskHold.settled_at hold) = true.
Proof.
  intros Hwf. unfold decide_release. intros Hok.
  apply bind_Ok in Hok as (task & _ & Hok). apply bind_Ok in Hok as (t' & Ht & Hok).
  assert (find_task q task = Some t') as Hfind.
  { unfold read_task in Ht. destruct (find_task q task); [by injection Ht as ->|done]. }
  pose proof (find_task_id q task t' Hfind) as Hid.
  apply bind_Ok in Hok as (u & Hcheck & Hok).
  destruct (open_hold_of q task) as [hold|] eqn:Hopen; [|done].
  repeat apply bind_Ok in Hok as (? & _ & Hok). injection Hok as -> <- <- <- _. simpl.
  rewrite Hid. split_and!; [done..|].
  apply open_hold_of_Some in Hopen as (row & Hrow & Hhold & Hop & Htask).
  destruct (wf_going q Hwf row Hrow Hop) as (t2 & Hfind2 & Hgoes). rewrite Htask, Hfind in Hfind2.
  injection Hfind2 as <-. unfold TaskHold.state in Hcheck. cbn in Hcheck.
  destruct (TaskHold.settled_at hold); [done|]. exfalso. unfold check_release in Hcheck.
  rewrite bool_decide_true in Hcheck; [done|]. by destruct (Task.status t).
Qed.

Lemma write_release_keeps w q t latest recorded session by_role by_id q' :
  open_hold_of q (Task.id t) = Some (ReleaseRecorded.hold recorded) →
  is_some (TaskHold.settled_at (ReleaseRecorded.hold recorded)) = true →
  write_release w q t latest recorded session by_role by_id = Ok q' → keeps q q'.
Proof.
  intros Hopen Hsettled Hok Hwf. revert Hwf. set (hold := ReleaseRecorded.hold recorded) in *.
  intros Hwf. unfold write_release in Hok. fold hold in Hok.
  set (q1 := update_holds _ _ _) in Hok.
  assert (store_wf q1 ∧ evolves q q1) as [Hwf1 Hev1].
  { apply close_keeps; [|done]. intros _ row Hrow Hcl. unfold closes in Hcl. bool_split.
    apply open_hold_of_Some in Hopen as (r & Hr & Hhold & _ & _).
    rewrite (row_of_id q row r Hwf Hrow Hr); [by rewrite Hhold|]. unfold HoldRow.id at 2. by rewrite Hhold. }
  set (q2 := event _ q1 _ _ _ _) in Hok.
  set (q3 := match TaskRun.id <$> latest with Some _ => _ | None => _ end) in Hok.
  assert (same q1 q3) as Hq3.
  { subst q3. destruct latest; [|done]. by destruct (ReleaseRecorded.replan_carry_ended recorded). }
  destruct (same_keeps q1 q3 Hq3 Hwf1) as [Hwf3 Hev3].
  assert (evolves q q3) as Hev by (by trans q1). clearbody q3.
  destruct (ReleaseRecorded.provider recorded) as [provider|]; [|res_inv; done].
  case_bool_decide; [res_inv; done|]. apply bind_Ok in Hok as (moved & _ & Hok). res_inv.
  edestruct update_tasks_keeps as [Hwf4 Hev4]; [| |exact Hwf3|]; cycle 2.
  - split; [exact Hwf4|]. by trans q3.
  - done.
  - done.
Qed.

Lemma end_for_new_run_keeps w q t run facts recorded by_role q' :
  end_for_new_run w q t run facts recorded by_role = Ok q' → keeps q q'.
Proof.
  unfold end_for_new_run. destruct (alive w q _); [done|]. intros Hok.
  apply bind_Ok in Hok as (q1 & Hend%end_released_keeps & Hok).
  apply bind_Ok in Hok as (q2 & Hleave%same_leave%same_keeps & Hok).
  destruct (apply_transition w q2 _ _ _) as [r|] eqn:Hmove; simpl in Hok; res_inv.
  trans q1; [done|]. trans (record_all w q1 (Writer.decides_closed w (TaskRun.id run)));
    [apply same_keeps, same_record_all|]. trans q2; [done|]. by eapply apply_transition_keeps.
Qed.

Lemma release_task_keeps w q request by_role by_id keep r :
  release_task w q request by_role by_id keep = Ok r → keeps q r.1.
Proof.
  unfold release_task. intros Hok Hwf. revert Hwf. intros Hwf.
  apply bind_Ok in Hok as ([[[[t latest] facts] recorded] session] & Hdecide & Hok).
  destruct (decide_release_hold w q request t latest facts recorded session Hwf Hdecide)
    as (_ & Hopen & Hsettled).
  apply bind_Ok in Hok as (q1 & Hwrite & Hok). eapply write_release_keeps in Hwrite; [|done..].
  revert Hwf. change (keeps q r.1). trans q1; [done|]. destruct latest as [run|]; [|res_inv; done].
  apply bind_Ok in Hok as (q2 & Hrest & Hok).
  assert (r.1 = q2) as -> by (destruct (is_none_or _ _); by res_inv).
  destruct (decision_new_run _); [by eapply end_for_new_run_keeps|].
  by eapply same_keeps, same_leave.
Qed.

(** ** The steps of the table *)

(** One transaction on the holds, under the clock [w] of its writer; or a write
    of another part of the program, which writes no hold and ends no task that
    goes on. *)
Inductive hold_step : Queue P → Queue P → Prop :=
  | HoldStep w q target reason until by_role by_id r :
      hold_task w q target reason until by_role by_id = Ok r → hold_step q r.1
  | ReleaseStep w q request by_role by_id keep r :
      release_task w q request by_role by_id keep = Ok r → hold_step q r.1
  | RemindStep w q : hold_step q (remind_task_holds w q).1
  | ParkStep w q hold run token reason payload r :
      park_for_hold w q hold run token reason payload = Ok r → hold_step q r.1
  | SettleStep w q hold run status r :
      settle_hold_at_rest w q hold run status = Ok r → hold_step q r.1
  | LeaveStep w q hold run token r :
      release_for_hold w q hold run token = Ok r → hold_step q r.1
  | SweepStep w q : hold_step q (end_holds_of_ended w q).1
  | CompleteStep w q task run r : complete_task w q task run = Ok r → hold_step q r.1
  | ReplaceStep w q task run operation r :
      replace_task w q task run operation = Ok r → hold_step q r.1
  | MoveStep w q task action more r :
      apply_transition w q task action more = Ok r → hold_step q r.1
  | SaveStep w q run from token r : save_run w q run from token = Ok r → hold_step q r.1
  | RecordStep w q run kind payload q' : run_event w q run kind payload = Ok q' → hold_step q q'
  | ElsewhereStep q q' :
      Queue.holds q' = Queue.holds q →
      (∀ task t, find_task q task = Some t → hold_end_of (Task.status t) = None →
         ∃ t', find_task q' task = Some t' ∧ hold_end_of (Task.status t') = None) →
      hold_step q q'.

Lemma step_keeps q q' : hold_step q q' → keeps q q'.
Proof.
  destruct 1.
  - by eapply hold_task_keeps.
  - by eapply release_task_keeps.
  - apply same_keeps. exact (remind_same w (task_holds q) (q, [])).
  - by eapply park_for_hold_keeps.
  - by eapply settle_hold_at_rest_keeps.
  - by eapply release_for_hold_keeps.
  - apply (foldl_end_keeps w _ (q, [])).
  - by eapply (end_in_progress_keeps _ _ _ _ TaskStatus.Completed).
  - by eapply (end_in_progress_keeps _ _ _ _ TaskStatus.Replaced).
  - by eapply apply_transition_keeps.
  - by eapply save_run_keeps.
  - by eapply run_event_keeps.
  - intros Hwf. apply wf_rows; [done|done|]. intros row Hrow Hopen.
    destruct (wf_going q Hwf row Hrow Hopen) as (t & Hf & Ht). eauto.
Qed.

Lemma steps_keep q q' : rtc hold_step q q' → keeps q q'.
Proof. induction 1 as [|q q1 q' Hstep _ IH]; [done|]. trans q1; [by apply step_keeps|done]. Qed.

(** C17: whatever the transactions on holds and the writes of the rest of the
    program do, one after the other, the table keeps its shape: at most one
    hold is open on a task, a hold is open only on a task that has not ended,
    a hold a release closed had settled; and each row there before is there
    after, the same but for a settling it had not had and a closing it had
    not had. *)
Theorem holds_table_invariant q q' :
  store_wf q → rtc hold_step q q' →
  store_wf q'
  ∧ ∀ row, row ∈ Queue.holds q →
      ∃ row', row' ∈ Queue.holds q' ∧ HoldRow.id row' = HoldRow.id row
        ∧ (HoldRow.is_open row = false → row' = row)
        ∧ HoldRow.hold row'
          = HoldRow.hold row <| TaskHold.settled_at := TaskHold.settled_at (HoldRow.hold row') |>
        ∧ (is_some (TaskHold.settled_at (HoldRow.hold row)) = true →
           TaskHold.settled_at (HoldRow.hold row') = TaskHold.settled_at (HoldRow.hold row)).
Proof.
  intros Hwf Hsteps. destruct (steps_keep q q' Hsteps Hwf) as [Hwf' Hev]. split; [done|].
  intros row Hrow. destruct (Hev row Hrow) as (row' & Hrow' & He). exists row'.
  pose proof (evolves_id row row' He) as (Hid & _ & _). destruct He as [Hclosed Hhold].
  split_and!; [done..| |].
  - destruct Hhold as [->|(_ & at_ & ->)]; [by destruct (HoldRow.hold row)|done].
  - intros Hsome. destruct Hhold as [->|(Hnone & _)]; [done|by rewrite Hnone in Hsome].
Qed.


(** ** What a release leaves *)

(** A step that leaves the runs as they were, and the tasks. *)
Definition rests q q' : Prop := Queue.runs q' = Queue.runs q ∧ Queue.tasks q' = Queue.tasks q.
#[local] Instance rests_preorder : PreOrder rests.
Proof. split; [by split|]. intros q1 q2 q3 [] []. split; congruence. Qed.

Lemma record_all_rests w q new : rests q (record_all w q new).
Proof.
  unfold record_all. revert q. induction new as [|n new IH]; intros q; simpl; [done|].
  trans (record w q n); [done|apply IH].
Qed.
Lemma record_phase_rests w q run change q' : record_phase w q run change = Ok q' → rests q q'.
Proof. destruct change; simpl; intros Hok; res_inv; done. Qed.
Lemma leave_rests w q run q' : leave_held_phase w q run = Ok q' → rests q q'.
Proof.
  unfold leave_held_phase. destruct (is_some_and _ _); intros Hok; res_inv; [|done].
  by eapply record_phase_rests.
Qed.
Lemma settle_rests w q run checked r : settle_at_rest_in w q run checked = Ok r → rests q r.1.
Proof.
  unfold settle_at_rest_in. destruct (stored_run q run); [|intros; res_inv; done].
  destruct (guard_of q _); [|intros; res_inv; done]. destruct (negb _); [intros; res_inv; done|].
  simpl. case_bool_decide; simpl; [|intros; res_inv; done].
  destruct (RunStatus.is_unfinished _); intros Hok; res_inv; [|done].
  by match goal with He : enter_held_phase _ _ _ _ = Ok _ |- _ => apply record_phase_rests in He end.
Qed.
Lemma run_event_rests w q run kind payload q' : run_event w q run kind payload = Ok q' → rests q q'.
Proof.
  unfold run_event. intros Hok. apply bind_Ok in Hok as (r & _ & Hok).
  case_bool_decide; [|by res_inv].
  destruct (settle_at_rest_in _ _ _ _) as [s|] eqn:Hs; simpl in Hok; res_inv.
  by apply settle_rests in Hs.
Qed.

(** A saved run is in the table, and the tasks are as they were. *)
Lemma save_run_found w q run from token q' stored :
  save_run w q run from token = Ok (q', true) → find_run q (TaskRun.id run) = Some stored →
  TaskRun.status (StoredRun.run stored) = from → token = None →
  Queue.tasks q' = Queue.tasks q
  ∧ ∃ stored', find_run q' (TaskRun.id run) = Some stored'
      ∧ StoredRun.run stored' = save_columns (StoredRun.run stored) run.
Proof.
  intros Hok Hfind Hfrom ->. unfold save_run, save_run_row in Hok. case_bool_decide; [|done].
  cbn [negb] in Hok. set (q1 := match unfinished_change from _ with Some _ => _ | None => _ end) in Hok.
  assert (rests (save_run_row q run from None).1 q1) as Hq1 by (subst q1; by destruct (unfinished_change _ _)).
  assert (rests q1 q') as Hq'.
  { case_bool_decide; [by injection Hok as <-|].
    apply bind_Ok in Hok as (settled & Hs%settle_rests & Hok). by injection Hok as <-. }
  assert (rests (save_run_row q run from None).1 q') as [Hruns Htasks] by (by trans q1).
  split; [done|]. unfold find_run. rewrite Hruns. simpl. clear -Hfind Hfrom. unfold find_run in Hfind.
  induction (Queue.runs q) as [|s runs IH]; [done|]. simpl in Hfind |- *.
  case_bool_decide as Hid.
  - injection Hfind as ->. assert (saves run from None stored = true) as Hsaves
      by (unfold saves; by rewrite !bool_decide_true by done).
    rewrite Hsaves. simpl. rewrite bool_decide_true by done. by eexists.
  - assert (saves run from None s = false) as Hsaves
      by (unfold saves; by rewrite (bool_decide_false (TaskRun.id _ = _)) by done).
    rewrite Hsaves. rewrite bool_decide_false by done. by apply IH.
Qed.

Lemma find_run_id q run stored : find_run q run = Some stored → TaskRun.id (StoredRun.run stored) = run.
Proof. intros Hf. apply find_some in Hf as [_ Hid]. by apply bool_decide_eq_true in Hid. Qed.

Lemma end_released_found w q run reason carried q' :
  end_released_run w q run reason carried = Ok q' →
  Queue.tasks q' = Queue.tasks q
  ∧ ∃ ended, stored_run q' run = Some ended ∧ TaskRun.status ended = RunStatus.Failed
      ∧ TaskRun.last_error ended = Some reason.
Proof.
  unfold end_released_run. intros Hok. apply bind_Ok in Hok as (r & Hr & Hok).
  unfold read_run, stored_run in Hr. destruct (find_run q run) as [stored|] eqn:Hfind; [|done].
  simpl in Hr. injection Hr as <-. pose proof (find_run_id q run stored Hfind) as Hid.
  apply bind_Ok in Hok as (ended & Hended & Hok).
  unfold TaskRun.end_for_release in Hended. destruct (TaskRun.require_status _ _ _); [|done].
  simpl in Hended. injection Hended as <-.
  apply bind_Ok in Hok as ([q1 [|]] & Hsave & Hok); [|done]. cbn [negb snd fst] in Hok.
  eapply save_run_found in Hsave as (Htasks & stored' & Hfind' & Hrun); [|by rewrite <-Hid in Hfind|done..].
  assert (rests q1 q') as [Hruns Htasks'].
  { destruct carried; [by eapply run_event_rests|by res_inv]. }
  split; [congruence|]. exists (StoredRun.run stored'). simpl in Hfind'. rewrite Hid in Hfind'.
  unfold stored_run, find_run. rewrite Hruns. unfold find_run in Hfind'. rewrite Hfind'.
  simpl. by rewrite Hrun.
Qed.

(** *** A task moved to ready *)
Lemma ready_again w q task r :
  apply_transition w q task TaskAction.Ready [] = Ok r →
  (∃ t, find_task q task = Some t ∧ Task.status t = TaskStatus.InProgress) →
  Queue.runs r.1 = Queue.runs q ∧ has_unfinished_run r.1 task = false
  ∧ ∃ t', find_task r.1 task = Some t' ∧ Task.status t' = TaskStatus.Ready.
Proof.
  intros Hok (t & Hfind & Hstatus). unfold apply_transition in Hok.
  apply bind_Ok in Hok as (_ & _ & Hok). destruct (_ && Writer.child_of_replacement w task); [done|].
  apply bind_Ok in Hok as (t' & Ht & Hok). unfold read_task in Ht. rewrite Hfind in Ht.
  injection Ht as <-. rewrite bool_decide_false in Hok by done. cbn [andb] in Hok.
  apply bind_Ok in Hok as (moved & Hmoved & Hok). unfold Task.transition in Hmoved.
  rewrite Hstatus in Hmoved. simpl in Hmoved.
  destruct (has_unfinished_run q task) eqn:Hunfinished; [done|]. simpl in Hmoved.
  injection Hmoved as <-. cbn [Task.status] in Hok.
  destruct (move_task w q task (Task.status t) _) as [q1 [|]] eqn:Hmove; [|done].
  cbn [negb] in Hok. simpl in Hok. apply bind_Ok in Hok as (t' & _ & Hok). injection Hok as <-.
  simpl. injection Hmove as <- _. split_and!; [done|done|].
  exists (t <| Task.status := TaskStatus.Ready |> <| Task.updated_at := Writer.timestamp w |>).
  split; [|done].
  pose proof (find_update_tasks q (in_status task (Task.status t))
    (λ t, t <| Task.status := TaskStatus.Ready |> <| Task.updated_at := Writer.timestamp w |>) task
    ltac:(done)) as Hmoved. rewrite Hfind in Hmoved. simpl in Hmoved. unfold in_status in Hmoved at 2.
  rewrite (bool_decide_true (_ = task)), bool_decide_true in Hmoved by (eauto using find_task_id).
  exact Hmoved.
Qed.

(** *** The release *)
Lemma new_run_ends_run facts choice own :
  decision_new_run (release_decision facts choice own) = true →
  ReleaseFacts.task facts = TaskStatus.InProgress ∧ is_some (ReleaseFacts.run facts) = true.
Proof.
  unfold release_decision. case_bool_decide as Htask; [|done]. simpl.
  destruct (ends_run facts choice) eqn:Hends; [|done]. intros _. split; [done|].
  unfold ends_run in Hends. by destruct (ReleaseFacts.run facts).
Qed.

(** What a release decided was read of the queue. *)
Lemma decide_release_read w q request t latest facts recorded session :
  decide_release w q request = Ok (t, latest, facts, recorded, session) →
  latest = latest_run q (Task.id t) ∧ facts = release_facts q t latest
  ∧ ReleaseRecorded.continuation recorded = decision_continuation (ReleaseRecorded.decision recorded)
  ∧ ∃ own, ReleaseRecorded.decision recorded
           = release_decision facts (ReleaseRequest.choice request) own.
Proof.
  unfold decide_release. intros Hok.
  apply bind_Ok in Hok as (task & _ & Hok). apply bind_Ok in Hok as (t' & Ht & Hok).
  assert (Task.id t' = task) as Hid.
  { unfold read_task in Ht. destruct (find_task q task) eqn:Hf; [|done]. injection Ht as <-.
    by eapply find_task_id. }
  apply bind_Ok in Hok as (u & _ & Hok). destruct (open_hold_of q task) as [hold|]; [|done].
  repeat apply bind_Ok in Hok as (? & _ & Hok). injection Hok as -> <- <- <- _. simpl.
  rewrite Hid. split_and!; [done..|]. by eexists.
Qed.

(** The rows and events of a release close its hold and leave every run, and the
    status of every task. *)
Lemma write_release_spec w q t latest recorded session by_role by_id q' row :
  write_release w q t latest recorded session by_role by_id = Ok q' →
  row ∈ Queue.holds q → HoldRow.is_open row = true → HoldRow.hold row = ReleaseRecorded.hold recorded →
  close_row (Writer.now w) by_role by_id (Some (ReleaseRecorded.continuation recorded)) row
    ∈ Queue.holds q'
  ∧ Queue.runs q' = Queue.runs q
  ∧ ∀ task t, find_task q task = Some t →
      ∃ t', find_task q' task = Some t' ∧ Task.status t' = Task.status t.
Proof.
  intros Hok Hrow Hopen Hhold. unfold write_release in Hok.
  set (q1 := update_holds _ _ _) in Hok. set (q2 := event _ q1 _ _ _ _) in Hok.
  set (q3 := match TaskRun.id <$> latest with Some _ => _ | None => _ end) in Hok.
  assert (same q1 q3 ∧ Queue.runs q3 = Queue.runs q) as [[Hholds Htasks] Hruns].
  { subst q3. destruct latest; [|done]. by destruct (ReleaseRecorded.replan_carry_ended recorded). }
  assert (close_row (Writer.now w) by_role by_id (Some (ReleaseRecorded.continuation recorded)) row
    ∈ Queue.holds q3) as Hclosed.
  { rewrite Hholds. apply elem_of_update_holds. exists row. split; [done|].
    unfold closes, HoldRow.id. by rewrite Hhold, bool_decide_true, Hopen by done. }
  assert (∀ task t, find_task q task = Some t →
    ∃ t', find_task q3 task = Some t' ∧ Task.status t' = Task.status t) as Hstay.
  { intros task t' Hf. exists t'. unfold find_task. by rewrite Htasks. }
  clearbody q3. destruct (ReleaseRecorded.provider recorded) as [provider|]; [|by res_inv].
  case_bool_decide; [by res_inv|]. apply bind_Ok in Hok as (moved & _ & Hok). injection Hok as <-.
  split_and!; [done..|]. intros task t' Hf. destruct (Hstay task t' Hf) as (t2 & Hf2 & Hs2).
  rewrite find_update_tasks by done. rewrite Hf2. simpl. eexists. split; [reflexivity|].
  by case_bool_decide.
Qed.

(** What is left after a release, of its run and its task. *)
Definition released_as q (decision : ReleaseDecision) (t : Task) (latest : option TaskRun) q' : Prop :=
  ∃ t', find_task q' (Task.id t) = Some t'
    ∧ if decision_new_run decision
      then ∃ run ended, latest = Some run ∧ Task.status t = TaskStatus.InProgress
        ∧ stored_run q' (TaskRun.id run) = Some ended ∧ TaskRun.status ended = RunStatus.Failed
        ∧ Task.status t' = TaskStatus.Ready ∧ has_unfinished_run q' (Task.id t) = false
      else Task.status t' = Task.status t ∧ Queue.runs q' = Queue.runs q.

Lemma end_for_new_run_spec w q t t1 run facts recorded by_role q' :
  find_task q (Task.id t) = Some t1 → Task.status t1 = TaskStatus.InProgress →
  end_for_new_run w q t run facts recorded by_role = Ok q' →
  ∃ t' ended, find_task q' (Task.id t) = Some t' ∧ Task.status t' = TaskStatus.Ready
    ∧ has_unfinished_run q' (Task.id t) = false
    ∧ stored_run q' (TaskRun.id run) = Some ended ∧ TaskRun.status ended = RunStatus.Failed.
Proof.
  intros Hfind Hstatus. unfold end_for_new_run. destruct (alive w q _); [done|]. intros Hok.
  apply bind_Ok in Hok as (q1 & Hend & Hok).
  apply end_released_found in Hend as (Htasks1 & ended & Hended & Hfailed & _).
  apply bind_Ok in Hok as (q2 & Hleave%leave_rests & Hok).
  destruct (apply_transition w q2 _ _ _) as [r|] eqn:Hmove; simpl in Hok; [|done]. injection Hok as <-.
  assert (rests q1 q2) as [Hruns2 Htasks2].
  { trans (record_all w q1 (Writer.decides_closed w (TaskRun.id run))); [apply record_all_rests|done]. }
  destruct (ready_again w q2 (Task.id t) r Hmove) as (Hruns & Hnone & t' & Ht' & Hready).
  { exists t1. split; [|done]. unfold find_task. by rewrite Htasks2, Htasks1. }
  exists t', ended. split_and!; [done..| |done]. unfold stored_run, find_run. by rewrite Hruns, Hruns2.
Qed.

(** C18: a release closes the task's hold, which had settled, with its decision
    and its moment; a release into a new run leaves that run failed and its
    task ready, with no run that goes on; any other leaves every run as it was
    and the task in its status. *)
Theorem release_leaves w q request by_role by_id keep q' recorded :
  store_wf q → release_task w q request by_role by_id keep = Ok (q', recorded) →
  let hold := ReleaseRecorded.hold recorded in
  ∃ t, find_task q (Task.id t) = Some t ∧ open_hold_of q (Task.id t) = Some hold
    ∧ is_some (TaskHold.settled_at hold) = true
    ∧ HoldRow.mk hold (Some (Writer.now w)) (Some by_role) (Some by_id)
        (Some (decision_continuation (ReleaseRecorded.decision recorded))) ∈ Queue.holds q'
    ∧ released_as q (ReleaseRecorded.decision recorded) t (latest_run q (Task.id t)) q'.
Proof.
  intros Hwf Hok. unfold release_task in Hok.
  apply bind_Ok in Hok as ([[[[t latest] facts] rec] session] & Hdecide & Hok).
  destruct (decide_release_hold w q request t latest facts rec session Hwf Hdecide)
    as (Hfind & Hopen & Hsettled).
  destruct (decide_release_read w q request t latest facts rec session Hdecide)
    as (-> & -> & Hcont & own & Hdecision).
  apply bind_Ok in Hok as (q1 & Hwrite & Hok).
  destruct (open_hold_of_Some q _ _ Hopen) as (row & Hrow & Hhold & Hop & _).
  destruct (write_release_keeps w q t _ rec session by_role by_id q1 Hopen Hsettled Hwrite Hwf) as [Hwf1 _].
  destruct (write_release_spec w q t _ rec session by_role by_id q1 row Hwrite Hrow Hop Hhold)
    as (Hclosed & Hruns & Hstay).
  destruct (Hstay (Task.id t) t Hfind) as (t1 & Hfind1 & Hstatus1).
  assert (∀ q2, keeps q1 q2 → HoldRow.mk (ReleaseRecorded.hold rec) (Some (Writer.now w))
    (Some by_role) (Some by_id) (Some (decision_continuation (ReleaseRecorded.decision rec)))
    ∈ Queue.holds q2) as Hrow2.
  { intros q2 Hkeeps. destruct (Hkeeps Hwf1) as [_ Hev]. destruct (Hev _ Hclosed) as (row' & Hin & Hsame & _).
    rewrite Hsame in Hin by done. unfold close_row in Hin. by rewrite <-Hhold, <-Hcont. }
  destruct (decision_new_run (ReleaseRecorded.decision rec)) eqn:Hnew.
  - assert (Task.status t = TaskStatus.InProgress ∧ is_some (latest_run q (Task.id t)) = true)
      as [Htask Hlatest].
    { rewrite Hdecision in Hnew. apply new_run_ends_run in Hnew as [Htask Hrun]. split; [done|].
      unfold release_facts in Hrun. simpl in Hrun. by destruct (latest_run q (Task.id t)). }
    destruct (latest_run q (Task.id t)) as [run|] eqn:Hrun; [|done]. clear Hlatest.
    apply bind_Ok in Hok as (q2 & Hend & Hok).
    assert (q2 = q' ∧ rec = recorded) as [<- <-] by (destruct (is_none_or _ _); by simplify_eq).
    exists t. split_and!; [done..|by eapply Hrow2, end_for_new_run_keeps|].
    destruct (end_for_new_run_spec w q1 t t1 run _ rec by_role q2 Hfind1 ltac:(congruence) Hend)
      as (t' & ended & Ht' & Hready & Hnone & Hended & Hfailed).
    exists t'. split; [done|]. rewrite Hnew. by exists run, ended.
  - assert (recorded = rec ∧ same q1 q' ∧ rests q1 q') as (-> & Hsame & Hruns' & Htasks').
    { destruct (latest_run q (Task.id t)) as [run|]; [|by simplify_eq].
      apply bind_Ok in Hok as (q2 & Hleave & Hok).
      assert (q2 = q' ∧ rec = recorded) as [<- <-] by (destruct (is_none_or _ _); by simplify_eq).
      split; [done|]. split; [by eapply same_leave|by eapply leave_rests]. }
    exists t. split_and!; [done..|by apply Hrow2, same_keeps|]. exists t1.
    split; [unfold find_task; by rewrite Htasks'|]. rewrite Hnew. split; [done|congruence].
Qed.

(** ** Reminders *)




End proofs.
End HoldStoreProofs.

(** ** The table on concrete inputs *)
Module HoldTableSample.
Import HoldSample HoldStoreProofs.

(** A task whose run needs a session, without a lease. *)
Definition sample_in_progress : Task :=
  sample_task <| Task.id := TaskId.new 7 |> <| Task.status := TaskStatus.InProgress |>.
Definition sample_queue : Queue EventPayload.t :=
  Queue.mk [sample_in_progress] [StoredRun.mk sample_resting None] [] [] [] [] [].
Definition sample_writer (now : Z) : Writer EventPayload.t :=
  Writer.mk now now "t1" "t1" None (λ _, false) (λ _, true) (λ _, None) (λ _, []) (λ _, []) (λ _, []).
Definition result_queue {A} (r : result StoreError (Queue EventPayload.t * A)) : Queue EventPayload.t :=
  match r with Ok (q, _) => q | Err _ => sample_queue end.

Definition sample_hold_it :=
  hold_task (sample_writer 100) sample_queue (HoldTarget.Task (TaskId.new 7)) "look at it" None
    "human" "me".
Definition sample_held : Queue EventPayload.t := Eval vm_compute in result_queue sample_hold_it.

(** Released to another provider, the run's work read. *)
Definition sample_read : ReleaseReadAt :=
  match progress_version sample_held (TaskId.new 7) (RunId.wrap "r1") with
  | Ok version => ReleaseReadAt.mk (HoldId.new 1) (RunId.wrap "r1") version
  | Err _ => ReleaseReadAt.mk (HoldId.new 0) (RunId.wrap "r1")
               (ProgressVersion.of_ (P:=EventPayload.t) TaskStatus.Draft EmptyString RunStatus.Claimed [])
  end.
Definition sample_request : ReleaseRequest :=
  ReleaseRequest.mk (HoldTarget.Task (TaskId.new 7)) (ReleaseChoice.mk (Some Provider.Codex) None)
    (Some (sample_read, ReleasedRead.mk (Some sample_commit) None)).
Definition sample_release_it :=
  release_task (sample_writer 500) sample_held sample_request "human" "me" (λ _ _, true).
Definition sample_after : Queue EventPayload.t := Eval vm_compute in result_queue sample_release_it.

Lemma sample_queue_wf : store_wf sample_queue.
Proof.
  split; simpl; [apply NoDup_nil_2|intros r1 r2 Hin|intros r Hin|intros r Hin];
    by apply elem_of_nil in Hin.
Qed.
Lemma sample_hold_step : hold_step sample_queue sample_held.
Proof.
  refine (HoldStep (sample_writer 100) sample_queue (HoldTarget.Task (TaskId.new 7)) "look at it" None
    "human" "me" (sample_held, _) _). vm_compute. reflexivity.
Qed.
Lemma sample_held_wf : store_wf sample_held.
Proof. apply (step_keeps _ _ sample_hold_step), sample_queue_wf. Qed.
Lemma sample_release_step : hold_step sample_held sample_after.
Proof.
  refine (ReleaseStep (sample_writer 500) sample_held sample_request "human" "me" (λ _ _, true)
    (sample_after, _) _). vm_compute. reflexivity.
Qed.

Lemma holds_table_invariant_witness :
  store_wf sample_after ∧ length (Queue.holds sample_after) = 1
  ∧ open_hold_of sample_after (TaskId.new 7) = None.
Proof.
  assert (rtc hold_step sample_queue sample_after) as Hsteps
    by (eapply rtc_l, rtc_once, sample_release_step; exact sample_hold_step).
  split; [exact (proj1 (holds_table_invariant _ _ sample_queue_wf Hsteps))|]. split; reflexivity.
Defined.


(** The run of the hold ends, and its task is ready for another. *)
Lemma release_leaves_witness :
  Task.status <$> find_task sample_after (TaskId.new 7) = Some TaskStatus.Ready
  ∧ TaskRun.status <$> stored_run sample_after (RunId.wrap "r1") = Some RunStatus.Failed.
Proof.
  destruct (release_task (sample_writer 500) sample_held sample_request "human" "me" (λ _ _, true))
    as [[q' recorded]|] eqn:Hok; [|vm_compute in Hok; discriminate Hok].
  pose proof (release_leaves _ _ _ _ _ _ _ _ sample_held_wf Hok)
    as (t & Hfind & _ & _ & _ & t' & Hfind' & Hleft).
  assert (q' = sample_after ∧ decision_new_run (ReleaseRecorded.decision recorded) = true) as [-> Hnew]
    by (vm_compute in Hok; injection Hok as <- <-; split; reflexivity).
  assert (Task.id t = TaskId.new 7) as Hid.
  { apply find_some in Hfind as [Hin _]. destruct Hin as [<-|[]]. reflexivity. }
  rewrite Hid in *. rewrite Hnew in Hleft.
  destruct Hleft as (run & ended & Hrun & _ & Hended & Hfailed & Hready & _).
  split; [rewrite Hfind'; simpl; by rewrite Hready|]. vm_compute in Hrun. injection Hrun as <-.
  change (TaskRun.status <$> stored_run sample_after (RunId.wrap "r1"))
    with (TaskRun.status <$> stored_run sample_after (TaskRun.id sample_resting)).
  refine (eq_trans (f_equal (fmap TaskRun.status) Hended) _). simpl. by rewrite Hfailed.
Defined.

End HoldTableSample.
