(* ===== verification/Actors.v ===== *)
(** * Who acts on the queue

    [src/src/domain/actor.rs]: an actor is a role, whose trust the role alone
    decides, an actor id and, of a worker, a run and a task; the runtime puts
    it in the environment of a process it starts, and the command line reads
    it back.  With the targets of sessions ([StepTarget] of
    [src/src/domain/session_step.rs]) and the actor ids made of them
    ([wrapper_actor_id] of [queue_service.rs], [actor_id] of
    [telemetry.rs]). *)
From stdpp Require Import pretty.
From Stdlib Require Import Ascii.
From S2P Require Import Prelude Text Vocab Ids Errors.

(** ** Reading a decimal number

    [str::parse] of an [i64] and of a [u32]: a sign, [+] or for the [i64] [-],
    then digits and nothing else, in the range of the type. *)
Definition digit_of (c : ascii) : option Z :=
  if byte_in c 48 57 then Some (Z.of_N (byte_of c) - 48)%Z else None.
Fixpoint read_digits (s : string) (value : Z) : option Z :=
  match s with
  | EmptyString => Some value
  | String c s' => d ← digit_of c; read_digits s' (value * 10 + d)%Z
  end.
Definition read_number (s : string) : option Z :=
  match s with EmptyString => None | _ => read_digits s 0 end.
Definition in_range (low high : Z) (value : Z) : option Z :=
  if ((low <=? value) && (value <=? high))%Z then Some value else None.
Definition unsigned_text (s : string) : string := unwrap_or (strip_prefix "+" s) s.
Definition parse_u32 (s : string) : option Z :=
  n ← read_number (unsigned_text s); in_range 0 4294967295 n.
Definition parse_i64 (s : string) : option Z :=
  n ← match strip_prefix "-" s with
      | Some digits => Z.opp <$> read_number digits
      | None => read_number (unsigned_text s)
      end;
  in_range i64_min i64_max n.

(** ** Actors *)
Definition ROLE_ENV : string := "DAGQ_ROLE".
Definition ACTOR_ID_ENV : string := "DAGQ_ACTOR_ID".
Definition RUN_ID_ENV : string := "DAGQ_RUN_ID".
Definition TASK_ID_ENV : string := "DAGQ_TASK_ID".
Definition LEGACY_REVIEWER_ROLE : string := "reviewer".
Definition WRITTEN_BY_USER : string := "human".

(** [ActorRole::is_headless_job] and [ActorRole::env_value]. *)
Definition is_headless_job (self : ActorRole) : bool :=
  match self with
  | ActorRole.ReviewJob | ActorRole.RecoveryJob | ActorRole.PlanReviewJob
  | ActorRole.GoalReviewJob | ActorRole.ThroughputReviewJob | ActorRole.SetupReviewJob => true
  | _ => false
  end.
Definition env_value (self : ActorRole) : option string :=
  match self with
  | ActorRole.User | ActorRole.ExecutorTelemetry => None
  | other => Some (as_str other)
  end.

Module ActorContext.
Record t : Set := mk {
  actor_id : string;
  role : ActorRole;
  trust : TrustLevel;
  run_id : option RunId;
  task_id : option TaskId;
}.
#[global] Instance eq_dec : EqDecision t.
Proof. solve_decision. Defined.
#[global] Instance updatable : Updatable t :=
  λ a, mk (actor_id a) (role a) (trust a) (run_id a) (task_id a).

Definition new (role : ActorRole) (actor_id : string) : t :=
  mk actor_id role (Vocab.trust role) None None.
Definition user : t := new ActorRole.User (as_str ActorRole.User).
Definition instance (role : ActorRole) (instance : string) : t :=
  new role (format [as_str role; ":"; instance]).
Definition with_run (self : t) (run : RunId) (task : TaskId) : t :=
  self <| run_id := Some run |> <| task_id := Some task |>.
Definition worker (run : RunId) (task : TaskId) : t :=
  with_run (instance ActorRole.Worker (RunId.as_str run)) run task.
Definition review_job (run : RunId) (attempt : string) : t :=
  instance ActorRole.ReviewJob (format [RunId.as_str run; ":"; attempt]).
Definition agent_eval_job (eval : string) (index : N) (run : string) : t :=
  instance ActorRole.ReviewJob
    (format ["agent-eval:"; eval; ":"; decimal (Z.of_N index); ":"; run]).
Definition recovery_job (run : RunId) (alert attempt : string) : t :=
  instance ActorRole.RecoveryJob (format [RunId.as_str run; ":"; alert; ":"; attempt]).
Definition plan_review_job (proposal attempt : string) : t :=
  instance ActorRole.PlanReviewJob (format [proposal; ":"; attempt]).
Definition goal_review_job (goal attempt : string) : t :=
  instance ActorRole.GoalReviewJob (format [goal; ":"; attempt]).
Definition throughput_review_job (mode period : string) : t :=
  instance ActorRole.ThroughputReviewJob (format [mode; ":"; period]).
Definition setup_review_job (id : string) : t := instance ActorRole.SetupReviewJob id.

Definition supervisor_pid (self : t) : option Z :=
  if negb (bool_decide (role self = ActorRole.Supervisor)) then None
  else strip_prefix "supervisor:" (actor_id self) ≫= parse_u32.

(** [env] reads one variable. *)
Definition from_env (env : string → option string) : Result t :=
  let filled name := value ← env name; if is_empty value then None else Some value in
  match filled ROLE_ENV with
  | None => Ok user
  | Some value =>
      role ← (if bool_decide (value = LEGACY_REVIEWER_ROLE) then Ok ActorRole.ReviewJob
              else match parse_enum value with
                   | Some ActorRole.User | Some ActorRole.ExecutorTelemetry | None =>
                       Err (DomainError.UnknownValue ROLE_ENV value)
                   | Some role => Ok role
                   end);
      let id := id ← env ACTOR_ID_ENV; if is_blank id then None else Some id in
      let actor := new role (unwrap_or id value) in
      actor ← match filled RUN_ID_ENV with
              | Some run => run ← run_id_new run; Ok (actor <| run_id := Some run |>)
              | None => Ok actor
              end;
      match filled TASK_ID_ENV with
      | Some task =>
          match parse_i64 (trim task) with
          | Some id => Ok (actor <| task_id := Some (TaskId.new id) |>)
          | None => Err (DomainError.UnknownValue TASK_ID_ENV task)
          end
      | None => Ok actor
      end
  end.

Definition env (self : t) : list (string * string) :=
  match env_value (role self) with Some role => [(ROLE_ENV, role)] | None => [] end
  ++ [(ACTOR_ID_ENV, actor_id self)]
  ++ match run_id self with Some run => [(RUN_ID_ENV, RunId.as_str run)] | None => [] end
  ++ match task_id self with
     | Some task => [(TASK_ID_ENV, decimal (TaskId.as_i64 task))]
     | None => []
     end.

Definition written_by (self : t) : string := unwrap_or (env_value (role self)) WRITTEN_BY_USER.
End ActorContext.
Abbreviation ActorContext := ActorContext.t.

(** [set_env] and [with_actor]: the first variable of the name is replaced, or
    one is added at the end. *)
Fixpoint set_env (env : list (string * string)) (name value : string) : list (string * string) :=
  match env with
  | [] => [(name, value)]
  | (key, old) :: env =>
      if bool_decide (key = name) then (key, value) :: env else (key, old) :: set_env env name value
  end.
Definition with_actor (env : list (string * string)) (actor : ActorContext) : list (string * string) :=
  foldl (λ env entry, set_env env entry.1 entry.2) env (ActorContext.env actor).
(** What a process started with [env] reads. *)
Definition variable (env : list (string * string)) (name : string) : option string :=
  snd <$> List.find (λ entry, bool_decide (entry.1 = name)) env.

(** ** Targets of sessions *)
Module TargetKind.
Inductive t : Set :=
  | Run
  | Planner
  | PlanReview
  | GoalReview
  | ThroughputReview
  | Observer
  | EvalJob.
#[global] Instance eq_dec : EqDecision t.
Proof. solve_decision. Defined.
Definition as_str (v : t) : string :=
  match v with
  | Run => "run"
  | Planner => "planner"
  | PlanReview => "plan_review"
  | GoalReview => "goal_review"
  | ThroughputReview => "throughput_review"
  | Observer => "observer"
  | EvalJob => "eval_job"
  end.
Definition ALL : list t := [Run; Planner; PlanReview; GoalReview; ThroughputReview; Observer; EvalJob].
#[global] Instance string_enum : StringEnum t := Build_StringEnum t "TargetKind" as_str ALL.
#[global] Instance laws : StringEnumLaws t.
Proof. string_enum_laws. Qed.
End TargetKind.
Abbreviation TargetKind := TargetKind.t.

Module StepTarget.
Record t : Set := mk { kind : TargetKind; id : string }.
#[global] Instance eq_dec : EqDecision t.
Proof. solve_decision. Defined.
Definition run (run : RunId) : t := mk TargetKind.Run (RunId.as_str run).
Definition of_ (kind : TargetKind) (id : Z) : t := mk kind (decimal id).
Definition run_id (self : t) : option RunId :=
  if bool_decide (kind self = TargetKind.Run)
  then match run_id_new (id self) with Ok run => Some run | Err _ => None end
  else None.
End StepTarget.
Abbreviation StepTarget := StepTarget.t.

Definition wrapper_actor_id (target : StepTarget) : string :=
  ActorContext.actor_id
    match StepTarget.kind target with
    | TargetKind.Run => ActorContext.instance ActorRole.Wrapper (StepTarget.id target)
    | kind =>
        ActorContext.instance ActorRole.Wrapper (format [as_str kind; ":"; StepTarget.id target])
    end.
Definition ACTOR_PREFIX : string := "executor-telemetry".
Definition telemetry_actor_id (target : StepTarget) : string :=
  format [ACTOR_PREFIX; ":"; as_str (StepTarget.kind target); ":"; StepTarget.id target].

(** ** What actors promise *)
Module ActorProofs.

(** *** Decimal numbers read back *)
Lemma digit_of_char (d : N) : (d < 10)%N → digit_of (pretty_N_char d) = Some (Z.of_N d).
Proof.
  intros Hd. assert (d = 0 ∨ d = 1 ∨ d = 2 ∨ d = 3 ∨ d = 4 ∨ d = 5 ∨ d = 6 ∨ d = 7 ∨ d = 8 ∨ d = 9)%N
    by lia. destruct_or!; by subst.
Qed.

Lemma read_pretty_go x s : read_digits (pretty_N_go x s) 0 = read_digits s (Z.of_N x).
Proof.
  revert s. induction (N.lt_wf_0 x) as [x _ IH]; intros s.
  destruct (decide (x = 0%N)) as [->|Hx]; [by rewrite pretty_N_go_0|].
  rewrite pretty_N_go_step by lia. rewrite IH by (apply N.div_lt; lia). simpl.
  rewrite digit_of_char by (apply N.mod_lt; lia). simpl. f_equal.
  pose proof (N.div_mod x 10 ltac:(lia)). lia.
Qed.

Lemma read_pretty (x : N) : read_number (pretty x) = Some (Z.of_N x) ∧ pretty x ≠ EmptyString.
Proof.
  assert (pretty x ≠ EmptyString) as Hne.
  { intros Heq. pose proof (read_pretty_go x EmptyString) as Hr.
    unfold pretty, pretty_N in Heq. destruct (decide (x = 0%N)) as [->|Hx]; [done|].
    rewrite Heq in Hr. simpl in Hr. injection Hr as Hr. lia. }
  split; [|done]. unfold read_number. destruct (pretty x) eqn:Hp; [done|]. rewrite <-Hp. clear Hp Hne.
  unfold pretty, pretty_N. case_decide; [by subst|]. apply read_pretty_go.
Qed.

Lemma pretty_positive_no_sign (x : N) sign : sign = "-" ∨ sign = "+" → strip_prefix sign (pretty x) = None.
Proof.
  intros Hsign. destruct (read_pretty x) as [Hread Hne].
  destruct (pretty x) as [|c s] eqn:Hp; [done|]. unfold read_number in Hread. simpl in Hread.
  destruct (digit_of c) as [d|] eqn:Hc; [|done].
  destruct Hsign as [-> | ->]; cbn [strip_prefix];
    [destruct (Ascii.eqb "-"%char c) eqn:He|destruct (Ascii.eqb "+"%char c) eqn:He]; [|done| |done];
    apply Ascii.eqb_eq in He; by subst.
Qed.

Lemma parse_decimal z : fits_i64 z → parse_i64 (decimal z) = Some z.
Proof.
  intros [Hlo Hhi]. unfold decimal, parse_i64. 
  assert (in_range i64_min i64_max z = Some z) as Hrange.
  { unfold in_range. rewrite (proj2 (Z.leb_le _ _) Hlo), (proj2 (Z.leb_le _ _) Hhi). done. }
  unfold pretty, pretty_Z. destruct z as [|p|p]; [done| |].
  - destruct (read_pretty (Npos p)) as [Hread Hne].
    change (pretty p) with (pretty (Npos p)). rewrite pretty_positive_no_sign by auto.
    unfold unsigned_text. rewrite pretty_positive_no_sign by auto. cbn [unwrap_or]. by rewrite Hread.
  - destruct (read_pretty (Npos p)) as [Hread Hne]. change (pretty p) with (pretty (Npos p)).
    change (strip_prefix "-" ("-" +:+ pretty (Npos p))) with (Some (pretty (Npos p))).
    cbn beta iota. by rewrite Hread.
Qed.

(** *** A text without white space *)
Definition plain (s : string) : bool := forallb (λ c, byte_in c 33 126) (bytes s).

Lemma plain_byte c : byte_in c 33 126 = true →
  ws1 c = false ∧ (∀ b, ws2 c b = false) ∧ (∀ b, ws3 c b b = false)
  ∧ byte_is c 194 = false ∧ byte_is c 225 = false ∧ byte_is c 226 = false ∧ byte_is c 227 = false.
Proof.
  unfold ws1, ws2, ws3, byte_in, byte_is. intros Hc.
  apply andb_true_iff in Hc as [Hlo%N.leb_le Hhi%N.leb_le].
  assert (∀ n, (n < 33 ∨ 126 < n)%N → (byte_of c =? n)%N = false) as Hne
    by (intros n Hn; apply N.eqb_neq; lia).
  rewrite !Hne by lia. split_and!; try done.
  rewrite orb_false_r. apply andb_false_iff. right. apply N.leb_gt. lia.
Qed.

Lemma drop_ws_plain w2 w3 s :
  (∀ a b, byte_in a 33 126 = true → byte_in b 33 126 = true → w2 a b = false) →
  (∀ a b c, byte_in a 33 126 = true → byte_in b 33 126 = true → byte_in c 33 126 = true →
     w3 a b c = false) →
  plain s = true → drop_ws w2 w3 s = s.
Proof.
  intros H2 H3 Hs. destruct s as [|a s]; [done|]. unfold plain in Hs. simpl in Hs.
  apply andb_true_iff in Hs as [Ha Hs]. cbn [drop_ws]. rewrite (proj1 (plain_byte a Ha)).
  destruct s as [|b s]; [done|]. simpl in Hs. apply andb_true_iff in Hs as [Hb Hs]. rewrite H2 by done.
  destruct s as [|c s]; [done|]. simpl in Hs. apply andb_true_iff in Hs as [Hc Hs]. by rewrite H3.
Qed.

Lemma plain_app s t : plain (s +:+ t) = plain s && plain t.
Proof.
  induction s as [|a s IH]; [done|]. rewrite append_cons. unfold plain in *. simpl. rewrite IH.
  by rewrite andb_assoc.
Qed.

Lemma plain_rev s : plain (rev_text s) = plain s.
Proof.
  induction s as [|a s IH]; [done|]. rewrite rev_text_cons, plain_app, IH. unfold plain. simpl.
  by rewrite andb_true_r, andb_comm.
Qed.

Lemma trim_plain s : plain s = true → trim s = s.
Proof.
  intros Hs. unfold trim, trim_start. rewrite drop_ws_plain; [|intros a b Ha Hb| |done].
  - unfold trim_end. rewrite drop_ws_plain; [apply rev_text_involutive| | |by rewrite plain_rev].
    + intros b a _ Ha. unfold ws2. by destruct (plain_byte a Ha) as (_ & _ & _ & -> & _).
    + intros c b a _ _ Ha. unfold ws3.
      destruct (plain_byte a Ha) as (_ & _ & _ & _ & -> & -> & ->). done.
  - unfold ws2. by destruct (plain_byte a Ha) as (_ & _ & _ & -> & _).
  - intros a b c Ha _ _. unfold ws3. destruct (plain_byte a Ha) as (_ & _ & _ & _ & -> & -> & ->). done.
Qed.

Lemma plain_decimal z : plain (decimal z) = true.
Proof.
  assert (∀ x s, plain s = true → plain (pretty_N_go x s) = true) as Hgo.
  { intros x. induction (N.lt_wf_0 x) as [x _ IH]. intros s Hs.
    destruct (decide (x = 0%N)) as [->|Hx]; [by rewrite pretty_N_go_0|].
    rewrite pretty_N_go_step by lia. apply IH; [apply N.div_lt; lia|]. unfold plain in *. simpl.
    rewrite Hs, andb_true_r. unfold pretty_N_char. by repeat case_match. }
  assert (∀ n : N, plain (pretty n) = true) as HN.
  { intros n. unfold pretty, pretty_N. case_decide; [done|]. by apply Hgo. }
  unfold decimal, pretty, pretty_Z. destruct z as [|p|p]; [done|apply HN|].
  rewrite plain_app. apply HN.
Qed.

(** *** The environment of an actor *)
Lemma variable_set_env env name value other :
  variable (set_env env name value) other
  = if bool_decide (other = name) then Some value else variable env other.
Proof.
  unfold variable. induction env as [|[key old] env IH]; simpl.
  - destruct (decide (other = name)) as [->|Hne].
    + by rewrite !bool_decide_true by done.
    + by rewrite !bool_decide_false by congruence.
  - destruct (decide (key = name)) as [->|Hk].
    + rewrite (bool_decide_true (name = name)) by done. simpl.
      destruct (decide (other = name)) as [->|Hne].
      * by rewrite !bool_decide_true by done.
      * by rewrite !bool_decide_false by congruence.
    + rewrite (bool_decide_false (key = name)) by done. simpl.
      destruct (decide (key = other)) as [->|Hne].
      * rewrite (bool_decide_true (other = other)) by done. by rewrite bool_decide_false by congruence.
      * rewrite !(bool_decide_false (key = other)) by done. apply IH.
Qed.

Lemma not_blank_not_empty s : is_blank s = false → is_empty s = false.
Proof. by destruct s. Qed.
Lemma decimal_not_empty z : is_empty (decimal z) = false.
Proof.
  unfold decimal, pretty, pretty_Z. destruct z as [|p|p]; [done| |done].
  change (is_empty (pretty (Npos p)) = false). destruct (read_pretty (Npos p)) as [_ Hne].
  by destruct (pretty (Npos p)).
Qed.

(** A process started with an actor's environment, whatever else it
    inherits that names no actor, reads that actor back: its role and trust, its
    id, and its run and task. *)
Theorem actor_env_round_trip (actor : ActorContext) others :
  actor = ActorContext.new (ActorContext.role actor) (ActorContext.actor_id actor)
    <| ActorContext.run_id := ActorContext.run_id actor |>
    <| ActorContext.task_id := ActorContext.task_id actor |> →
  is_some (env_value (ActorContext.role actor)) = true →
  is_blank (ActorContext.actor_id actor) = false →
  (∀ run, ActorContext.run_id actor = Some run → is_blank (RunId.as_str run) = false) →
  (∀ task, ActorContext.task_id actor = Some task → fits_i64 (TaskId.as_i64 task)) →
  (∀ name, name ∈ [ROLE_ENV; ACTOR_ID_ENV; RUN_ID_ENV; TASK_ID_ENV] → variable others name = None) →
  ActorContext.from_env (variable (with_actor others actor)) = Ok actor.
Proof.
  intros Hactor Hrole Hid Hrun Htask Hothers.
  destruct actor as [id role trust run task]. cbn in Hactor, Hrole, Hid, Hrun, Htask.
  injection Hactor as Htrust. subst trust.
  destruct (env_value role) as [text|] eqn:Htext; [|done].
  assert (text = as_str role ∧ role ≠ ActorRole.User ∧ role ≠ ActorRole.ExecutorTelemetry)
    as (-> & Huser & Htelemetry)
    by (destruct role; try discriminate Htext; injection Htext as <-; done).
  assert (∀ name, variable (with_actor others (ActorContext.mk id role (Vocab.trust role) run task)) name
    = if bool_decide (name = TASK_ID_ENV) && is_some task then decimal ∘ TaskId.as_i64 <$> task
      else if bool_decide (name = RUN_ID_ENV) && is_some run then RunId.as_str <$> run
      else if bool_decide (name = ACTOR_ID_ENV) then Some id
      else if bool_decide (name = ROLE_ENV) then Some (as_str role)
      else variable others name) as Hread.
  { intros name. unfold with_actor, ActorContext.env. cbn [ActorContext.role ActorContext.actor_id
      ActorContext.run_id ActorContext.task_id]. rewrite Htext. rewrite !foldl_app.
    cbn [foldl fst snd].
    destruct run as [run|], task as [task|]; cbn [foldl fst snd];
      rewrite !variable_set_env; cbn [is_some]; rewrite ?andb_true_r, ?andb_false_r; done. }
  unfold ActorContext.from_env. rewrite !Hread. rewrite !Hothers by set_solver. clear Hread Hothers.
  simpl. change (ActorRole.as_str role) with (as_str role).
  replace (is_empty (as_str role)) with false by (by destruct role). cbn beta iota.
  match goal with |- context [if bool_decide (as_str role = LEGACY_REVIEWER_ROLE) then ?a else ?b] =>
    replace (if bool_decide (as_str role = LEGACY_REVIEWER_ROLE) then a else b)
      with (Ok (E:=DomainError) role) by (by destruct role) end.
  cbn [mbind result_bind]. rewrite Hid. cbn [unwrap_or].
  destruct run as [run|]; cbn [is_some fmap option_fmap option_map mbind option_bind].
  - rewrite (not_blank_not_empty (RunId.as_str run)) by auto. unfold run_id_new. rewrite Hrun by done.
    simpl. destruct task as [task|]; simpl; [|by destruct run].
    rewrite decimal_not_empty, trim_plain, parse_decimal by (auto using plain_decimal).
    by destruct run, task.
  - destruct task as [task|]; simpl; [|done].
    rewrite decimal_not_empty, trim_plain, parse_decimal by (auto using plain_decimal).
    by destruct task.
Qed.
End ActorProofs.

(** ** The theorem at a concrete actor *)
Module ActorSample.
Import ActorProofs.
Definition worker7 : ActorContext := ActorContext.worker (RunId.wrap "r1") (TaskId.new 7).
Lemma actor_env_round_trip_witness :
  ActorContext.from_env (variable (with_actor [("PATH", "/bin")] worker7)) = Ok worker7.
Proof.
  apply actor_env_round_trip; [reflexivity..| | |].
  - intros run [= <-]. reflexivity.
  - intros task [= <-]. split; simpl; unfold i64_min, i64_max; lia.
  - intros name Hname. repeat (apply elem_of_cons in Hname as [->|Hname]; [reflexivity|]).
    by apply elem_of_nil in Hname.
Defined.
End ActorSample.
