(* ===== verification/Authorization.v ===== *)
(** * Who may do what

    [src/src/domain/authorization.rs]: a capability on a resource, allowed or
    refused by a static list per role and the rules of a few roles on the
    resources they own; what is not listed is refused.  With the tokens a
    principal may ask for another ([starts]) and the check that a task is
    still what a change of it was authorized with. *)
From S2P Require Import Prelude Text Vocab Ids Errors Actors.
From Stdlib Require Import Ascii.

Module Capability.
Inductive t : Set :=
  | QueueRead
  | QueueWatch
  | ExportFile
  | CiRead
  | GoalWrite
  | GoalReady
  | GoalClose
  | GoalReviewRequest
  | TaskWrite
  | FollowUpJudge
  | TaskVerifyEdit
  | TaskCancel
  | TaskReady
  | TaskReadyBypassReview
  | ProposalSubmit
  | ProposalWithdraw
  | NoteWrite
  | MarkWrite
  | AskOpen
  | SessionRun
  | SessionRecord
  | ReviewSubmit
  | TriageSubmit
  | PrepareReview
  | FindingRecord
  | FindingResolve
  | FindingDismiss
  | FindingAsk
  | ObserveRun
  | AskAnswer
  | AskClose
  | PlannerOpen
  | RequestRecord
  | RequestDecline
  | ReplanRequest
  | ReplanPropose
  | ReplanResolve
  | ReplanPark
  | ReplanApply
  | TaskHold
  | ScreenRead
  | ScreenSend
  | PlannerRequest
  | EvalRequest
  | EvalRequestHeldOut
  | EvalRerun
  | EvalRead
  | EvalCases
  | ReviewSetup
  | ReviewSetupApprove
  | Supervise
  | RunRecover
  | WorkspaceCleanup
  | ServiceLifecycle
  | BinaryInstall
  | QueueAdmin
  | IntegrationRequest
  | Land
  | Push
  | TelemetryReport
  | TokenIssue
  | QueueBrokerRecord
  | FilesystemRead
  | FilesystemWrite
  | NetworkAccess
  | SecretRead.
#[global] Instance eq_dec : EqDecision t.
Proof. solve_decision. Defined.
Definition as_str (v : t) : string :=
  match v with
  | QueueRead => "queue.read"
  | QueueWatch => "queue.watch"
  | ExportFile => "queue.export"
  | CiRead => "ci.read"
  | GoalWrite => "goal.write"
  | GoalReady => "goal.ready"
  | GoalClose => "goal.close"
  | GoalReviewRequest => "goal.review_request"
  | TaskWrite => "task.write"
  | FollowUpJudge => "follow_up.judge"
  | TaskVerifyEdit => "task.verify_edit"
  | TaskCancel => "task.cancel"
  | TaskReady => "task.ready"
  | TaskReadyBypassReview => "task.ready_bypass_review"
  | ProposalSubmit => "proposal.submit"
  | ProposalWithdraw => "proposal.withdraw"
  | NoteWrite => "note.write"
  | MarkWrite => "mark.write"
  | AskOpen => "ask.open"
  | SessionRun => "session.run"
  | SessionRecord => "session.record"
  | ReviewSubmit => "review.submit"
  | TriageSubmit => "triage.submit"
  | PrepareReview => "review.prepare"
  | FindingRecord => "finding.record"
  | FindingResolve => "finding.resolve"
  | FindingDismiss => "finding.dismiss"
  | FindingAsk => "finding.ask"
  | ObserveRun => "observe.run"
  | AskAnswer => "ask.answer"
  | AskClose => "ask.close"
  | PlannerOpen => "planner.open"
  | RequestRecord => "request.record"
  | RequestDecline => "request.decline"
  | ReplanRequest => "replan.request"
  | ReplanPropose => "replan.propose"
  | ReplanResolve => "replan.resolve"
  | ReplanPark => "replan.park"
  | ReplanApply => "replan.apply"
  | TaskHold => "task.hold"
  | ScreenRead => "screen.read"
  | ScreenSend => "screen.send"
  | PlannerRequest => "planner.request"
  | EvalRequest => "eval.request"
  | EvalRequestHeldOut => "eval.request_held_out"
  | EvalRerun => "eval.rerun"
  | EvalRead => "eval.read"
  | EvalCases => "eval.cases"
  | ReviewSetup => "review.setup"
  | ReviewSetupApprove => "review.setup_approve"
  | Supervise => "scheduler.supervise"
  | RunRecover => "run.recover"
  | WorkspaceCleanup => "workspace.cleanup"
  | ServiceLifecycle => "service.lifecycle"
  | BinaryInstall => "service.install"
  | QueueAdmin => "queue.admin"
  | IntegrationRequest => "landing.request"
  | Land => "landing.land"
  | Push => "landing.push"
  | TelemetryReport => "telemetry.report"
  | TokenIssue => "token.issue"
  | QueueBrokerRecord => "queue_broker.record"
  | FilesystemRead => "reserved.filesystem_read"
  | FilesystemWrite => "reserved.filesystem_write"
  | NetworkAccess => "reserved.network"
  | SecretRead => "reserved.secret_read"
  end.
Definition ALL : list t :=
  [QueueRead; QueueWatch; ExportFile; CiRead; GoalWrite; GoalReady; GoalClose;
   GoalReviewRequest; TaskWrite; FollowUpJudge; TaskVerifyEdit; TaskCancel; TaskReady;
   TaskReadyBypassReview; ProposalSubmit; ProposalWithdraw; NoteWrite; MarkWrite; AskOpen;
   SessionRun; SessionRecord; ReviewSubmit; TriageSubmit; PrepareReview; FindingRecord;
   FindingResolve; FindingDismiss; FindingAsk; ObserveRun; AskAnswer; AskClose; PlannerOpen;
   RequestRecord; RequestDecline; ReplanRequest; ReplanPropose; ReplanResolve; ReplanPark;
   ReplanApply; TaskHold; ScreenRead; ScreenSend; PlannerRequest; EvalRequest;
   EvalRequestHeldOut; EvalRerun; EvalRead; EvalCases; ReviewSetup; ReviewSetupApprove;
   Supervise; RunRecover; WorkspaceCleanup; ServiceLifecycle; BinaryInstall; QueueAdmin;
   IntegrationRequest; Land; Push; TelemetryReport; TokenIssue; QueueBrokerRecord;
   FilesystemRead; FilesystemWrite; NetworkAccess; SecretRead].
#[global] Instance string_enum : StringEnum t := Build_StringEnum t "Capability" as_str ALL.
#[global] Instance laws : StringEnumLaws t.
Proof. string_enum_laws. Qed.
Definition is_reserved (self : t) : bool :=
  match self with
  | FilesystemRead | FilesystemWrite | NetworkAccess | SecretRead => true
  | _ => false
  end.
End Capability.
Abbreviation Capability := Capability.t.

(** ** Resources *)
Module TaskProposal.
Record t : Set := mk { id : ProposalId; status : ProposalStatus; owner : option string }.
#[global] Instance eq_dec : EqDecision t.
Proof. solve_decision. Defined.
(** A planner changes the tasks of any proposal but a revising one, which only
    its owner does; an owner that names a role but no one actor is none. *)
Definition open_to (self : t) (actor : ActorContext) : bool :=
  negb (bool_decide (status self = ProposalStatus.Revising))
  || is_some_and (owner self) (λ owner,
       negb (free_of ":"%char owner) && bool_decide (owner = ActorContext.actor_id actor)).
End TaskProposal.
Abbreviation TaskProposal := TaskProposal.t.

Module Resource.
Inductive t : Set :=
  | Queue
  | Goal (id : GoalId)
  | Task (id : TaskId) (status : option TaskStatus) (proposal : option TaskProposal)
  | Run (id : RunId) (task : option TaskId)
  | Ask (id : AskId) (run : option RunId)
  | NewAsk (kind : AskKind) (run : option RunId) (task : option TaskId)
      (request : option RequestId) (planner : option PlannerId)
  | Proposal (id : ProposalId) (owner : option string)
  | Finding (id : FindingId)
  | Planner (id : PlannerId)
  | Request (id : RequestId) (planner : option PlannerId)
  | AgentEval (run : option RunId)
  | Telemetry (target : StepTarget) (owner : option StepTarget)
  | Principal (role : ActorRole)
  | Unresolved.
Definition task (id : TaskId) : t := Task id None None.
Definition run (id : RunId) : t := Run id None.
End Resource.
Abbreviation Resource := Resource.t.

(** What a change of a task was authorized with. *)
Module TaskAuthorization.
Record t : Set := mk { status : TaskStatus; proposal : option TaskProposal }.
Definition outside_proposals (status : TaskStatus) : t := mk status None.
Definition resource (self : t) (id : TaskId) : Resource :=
  Resource.Task id (Some (status self)) (proposal self).
Definition check_unchanged (self : t) (task_id : TaskId) (now : t) : Result unit :=
  _ ← require (bool_decide (status self = status now))
        (DomainError.TaskStatusChangedSinceAuthorized task_id (status self) (status now));
  require (bool_decide (proposal self = proposal now))
    (DomainError.TaskProposalChangedSinceAuthorized task_id).
End TaskAuthorization.
Abbreviation TaskAuthorization := TaskAuthorization.t.

(** ** Refusals *)
Module DenyReason.
Inductive t : Set :=
  | NotGranted
  | Reserved
  | Resource
  | AskKind
  | PersonsPriority
  | GoalGapDraft
  | NotHeld.
#[global] Instance eq_dec : EqDecision t.
Proof. solve_decision. Defined.
Definition as_str (v : t) : string :=
  match v with
  | NotGranted => "not granted"
  | Reserved => "reserved"
  | Resource => "not on this resource"
  | AskKind => "not of this kind"
  | PersonsPriority => "a person's priority"
  | GoalGapDraft => "a goal review's goal_gap draft"
  | NotHeld => "what it is issued under is not held"
  end.
End DenyReason.
Abbreviation DenyReason := DenyReason.t.

Module AuthorizationError.
Record t : Set := mk { role : ActorRole; capability : Capability; reason : DenyReason }.
End AuthorizationError.
Abbreviation AuthorizationError := AuthorizationError.t.

(** ** The policy *)
Module C := Capability.

Definition INBOX : list Capability :=
  [C.QueueRead; C.QueueWatch; C.ExportFile; C.CiRead; C.GoalWrite; C.GoalReady; C.GoalClose;
   C.GoalReviewRequest; C.TaskWrite; C.FollowUpJudge; C.TaskVerifyEdit; C.TaskCancel;
   C.TaskReady; C.TaskReadyBypassReview; C.ProposalSubmit; C.ProposalWithdraw; C.NoteWrite;
   C.MarkWrite; C.AskOpen; C.SessionRun; C.SessionRecord; C.PrepareReview; C.FindingRecord;
   C.FindingResolve; C.FindingDismiss; C.FindingAsk; C.ObserveRun; C.AskAnswer; C.AskClose;
   C.PlannerOpen; C.RequestRecord; C.ReplanRequest; C.ReplanResolve; C.TaskHold; C.ScreenRead;
   C.ScreenSend; C.PlannerRequest; C.EvalRequest; C.EvalRequestHeldOut; C.EvalRerun;
   C.EvalRead; C.EvalCases; C.ReviewSetup; C.Supervise; C.RunRecover; C.WorkspaceCleanup;
   C.ServiceLifecycle; C.BinaryInstall; C.QueueAdmin; C.IntegrationRequest; C.TokenIssue].
(** The inbox's and the two a person alone has. *)
Definition USER : list Capability := INBOX ++ [C.ReviewSetupApprove; C.QueueBrokerRecord].
Definition PLANNER : list Capability :=
  [C.QueueRead; C.QueueWatch; C.ExportFile; C.CiRead; C.GoalWrite; C.GoalClose; C.TaskWrite;
   C.FollowUpJudge; C.TaskCancel; C.ProposalSubmit; C.ProposalWithdraw; C.NoteWrite;
   C.MarkWrite; C.AskOpen; C.FindingResolve; C.FindingDismiss; C.PlannerOpen; C.RequestDecline;
   C.EvalRequest; C.EvalRequestHeldOut; C.EvalRead; C.EvalCases; C.ServiceLifecycle;
   C.BinaryInstall; C.QueueAdmin].
Definition WORKER : list Capability :=
  [C.QueueRead; C.AskOpen; C.NoteWrite; C.ReplanPropose; C.EvalRequest; C.EvalRead].
Definition REVIEW_JOB : list Capability :=
  [C.QueueRead; C.ReviewSubmit].
Definition RECOVERY_JOB : list Capability :=
  [C.QueueRead; C.TriageSubmit].
Definition READ_ONLY : list Capability :=
  [C.QueueRead].
Definition OBSERVER : list Capability :=
  [C.QueueRead; C.QueueWatch; C.CiRead; C.FindingRecord; C.FindingResolve; C.FindingAsk;
   C.EvalRead].
Definition SUPERVISOR : list Capability :=
  [C.QueueRead; C.QueueWatch; C.ExportFile; C.CiRead; C.GoalClose; C.TaskCancel; C.TaskReady;
   C.NoteWrite; C.AskOpen; C.AskClose; C.SessionRun; C.PrepareReview; C.FindingRecord;
   C.FindingResolve; C.FindingDismiss; C.ObserveRun; C.PlannerOpen; C.EvalRead; C.Supervise;
   C.RunRecover; C.ServiceLifecycle; C.BinaryInstall; C.QueueAdmin; C.IntegrationRequest;
   C.ReplanPark; C.ReplanApply; C.TokenIssue; C.QueueBrokerRecord].
Definition WRAPPER : list Capability :=
  [C.QueueRead; C.SessionRun; C.SessionRecord].
Definition INTEGRATOR : list Capability :=
  [C.QueueRead; C.Land; C.Push].
Definition EXECUTOR_TELEMETRY : list Capability :=
  [C.TelemetryReport].

Definition grants (role : ActorRole) : list Capability :=
  match role with
  | ActorRole.User => USER
  | ActorRole.Inbox => INBOX
  | ActorRole.Planner => PLANNER
  | ActorRole.Worker => WORKER
  | ActorRole.ReviewJob => REVIEW_JOB
  | ActorRole.RecoveryJob => RECOVERY_JOB
  | ActorRole.PlanReviewJob | ActorRole.GoalReviewJob | ActorRole.ThroughputReviewJob
  | ActorRole.SetupReviewJob => READ_ONLY
  | ActorRole.Observer => OBSERVER
  | ActorRole.Supervisor => SUPERVISOR
  | ActorRole.Wrapper => WRAPPER
  | ActorRole.Integrator => INTEGRATOR
  | ActorRole.ExecutorTelemetry => EXECUTOR_TELEMETRY
  end.

Definition opens_ask (role : ActorRole) (kind : AskKind) : bool :=
  match role with
  | ActorRole.User | ActorRole.Inbox | ActorRole.Supervisor => true
  | ActorRole.Worker => bool_decide (kind = AskKind.WorkerQuestion)
  | ActorRole.Planner => bool_decide (kind = AskKind.PlannerQuestion)
  | _ => false
  end.

(** Whether a principal of role [parent] may ask for the token of one of role
    [child]. *)
Definition starts (parent child : ActorRole) : bool :=
  let within := forallb (λ capability, bool_decide (capability ∈ grants parent)) (grants child) in
  match child with
  | ActorRole.Supervisor | ActorRole.Inbox => bool_decide (parent = ActorRole.User)
  | ActorRole.Worker | ActorRole.Wrapper | ActorRole.Planner | ActorRole.ReviewJob
  | ActorRole.RecoveryJob => bool_decide (parent = ActorRole.Supervisor)
  | ActorRole.ExecutorTelemetry =>
      match parent with
      | ActorRole.Supervisor | ActorRole.User | ActorRole.Inbox => true
      | _ => false
      end
  | ActorRole.Observer | ActorRole.PlanReviewJob | ActorRole.GoalReviewJob
  | ActorRole.ThroughputReviewJob | ActorRole.SetupReviewJob =>
      match parent with
      | ActorRole.Supervisor => true
      | ActorRole.User | ActorRole.Inbox => within
      | _ => false
      end
  | ActorRole.Integrator | ActorRole.User => false
  end.

Definition wrapper_owns (actor : ActorContext) (resource : Resource) : bool :=
  match resource with
  | Resource.Run id _ =>
      bool_decide (ActorContext.actor_id actor = wrapper_actor_id (StepTarget.run id))
  | Resource.Planner id =>
      bool_decide (ActorContext.actor_id actor
        = wrapper_actor_id (StepTarget.of_ TargetKind.Planner (PlannerId.as_i64 id)))
  | _ => false
  end.

Definition telemetry_owns (actor : ActorContext) (resource : Resource) : bool :=
  match resource with
  | Resource.Telemetry target owner =>
      bool_decide (ActorContext.actor_id actor = telemetry_actor_id target)
      && bool_decide (owner = Some target)
  | _ => false
  end.

Definition worker_owns (actor : ActorContext) (resource : Resource) : bool :=
  match ActorContext.run_id actor with
  | None => false
  | Some own =>
      match resource with
      | Resource.Run id _ | Resource.Ask _ (Some id) | Resource.NewAsk _ (Some id) _ _ _
      | Resource.AgentEval (Some id) => bool_decide (id = own)
      | Resource.Task id _ _ | Resource.NewAsk _ None (Some id) _ _ =>
          bool_decide (ActorContext.task_id actor = Some id)
      | _ => false
      end
  end.

(** The actor id of planner [id]. *)
Definition planner_actor (id : PlannerId) : string := format ["planner:"; PlannerId.display id].
Definition before_start (status : option TaskStatus) : bool :=
  match status with
  | Some TaskStatus.Draft | Some TaskStatus.Submitted | Some TaskStatus.Ready => true
  | _ => false
  end.

Definition planner_permits (actor : ActorContext) (capability : Capability) (resource : Resource) :
    bool :=
  match resource with
  | Resource.Run _ _ => bool_decide (capability = C.NoteWrite)
  | Resource.Ask _ (Some _) | Resource.NewAsk _ (Some _) _ _ _ | Resource.Unresolved => false
  | Resource.Task _ status proposal =>
      if bool_decide (capability = C.TaskWrite) || bool_decide (capability = C.TaskCancel)
      then before_start status && is_none_or proposal (λ p, TaskProposal.open_to p actor)
      else true
  | Resource.Proposal _ owner =>
      if bool_decide (capability = C.ProposalWithdraw)
      then bool_decide (owner = Some (ActorContext.actor_id actor))
      else true
  | Resource.Planner id => bool_decide (ActorContext.actor_id actor = planner_actor id)
  | Resource.Request _ planner | Resource.NewAsk _ None _ (Some _) planner =>
      is_some_and planner (λ id, bool_decide (ActorContext.actor_id actor = planner_actor id))
  | _ => true
  end.

(** The rules on resources, on top of the list. *)
Definition resource_permits (actor : ActorContext) (capability : Capability) (resource : Resource) :
    bool :=
  if bool_decide (capability = C.TokenIssue)
  then match resource with
       | Resource.Principal child => starts (ActorContext.role actor) child
       | _ => false
       end
  else
    match ActorContext.role actor with
    | ActorRole.Worker => bool_decide (capability = C.QueueRead) || worker_owns actor resource
    | ActorRole.Planner => planner_permits actor capability resource
    | ActorRole.ReviewJob | ActorRole.RecoveryJob =>
        bool_decide (capability = C.QueueRead)
        || match resource with
           | Resource.Run id _ => bool_decide (ActorContext.run_id actor = Some id)
           | _ => false
           end
    | ActorRole.Observer =>
        match capability with
        | C.FindingAsk | C.FindingResolve =>
            match resource with Resource.Finding _ => true | _ => false end
        | _ => true
        end
    | ActorRole.ExecutorTelemetry => telemetry_owns actor resource
    | ActorRole.Wrapper => bool_decide (capability = C.QueueRead) || wrapper_owns actor resource
    | _ => true
    end.

(** [StaticPolicy]. *)
Definition authorize (actor : ActorContext) (capability : Capability) (resource : Resource) :
    result AuthorizationError unit :=
  let deny reason := AuthorizationError.mk (ActorContext.role actor) capability reason in
  if C.is_reserved capability then Err (deny DenyReason.Reserved)
  else if negb (bool_decide (capability ∈ grants (ActorContext.role actor)))
  then Err (deny DenyReason.NotGranted)
  else if match resource with
          | Resource.NewAsk kind _ _ _ _ => negb (opens_ask (ActorContext.role actor) kind)
          | _ => false
          end
  then Err (deny DenyReason.AskKind)
  else if resource_permits actor capability resource then Ok tt
  else Err (deny DenyReason.Resource).

Definition eval_request_needs (held_out rerun : bool) : list Capability :=
  (if held_out then C.EvalRequestHeldOut else C.EvalRequest) :: if rerun then [C.EvalRerun] else [].

(** ** What the policy promises *)
Module PolicyProofs.

(** *** Who the actor ids name *)
Lemma format_two a b : format [a; b] = a +:+ b.
Proof. unfold format. simpl. by rewrite append_nil_r. Qed.

Lemma append_inj_l (p s t : string) : p +:+ s = p +:+ t → s = t.
Proof. induction p as [|a p IH]; [done|]. rewrite !append_cons. intros [= Heq]. auto. Qed.

(** A run's id as the runtime makes it, a UUID, holds no colon. *)
Definition plain_target (target : StepTarget) : Prop :=
  StepTarget.kind target = TargetKind.Run → free_of ":"%char (StepTarget.id target) = true.

Lemma colon_not_free s t : free_of ":"%char (s +:+ String ":" t) = false.
Proof. induction s as [|a s IH]; [done|]. rewrite append_cons, free_of_cons, IH. apply andb_false_r. Qed.

Lemma kind_free kind : free_of ":"%char (TargetKind.as_str kind) = true.
Proof. by destruct kind. Qed.

Lemma kind_id_inj k1 k2 s t :
  TargetKind.as_str k1 +:+ String ":" s = TargetKind.as_str k2 +:+ String ":" t → k1 = k2 ∧ s = t.
Proof.
  intros Heq. apply cut_unique in Heq as [Hk ->]; [|apply kind_free..].
  split; [|done]. by apply (as_str_inj (A:=TargetKind)).
Qed.

Definition wrapper_rest (target : StepTarget) : string :=
  match StepTarget.kind target with
  | TargetKind.Run => StepTarget.id target
  | kind => TargetKind.as_str kind +:+ String ":" (StepTarget.id target)
  end.
Lemma wrapper_actor_id_rest target : wrapper_actor_id target = "wrapper:" +:+ wrapper_rest target.
Proof.
  unfold wrapper_actor_id, wrapper_rest. destruct target as [kind id]. simpl.
  destruct kind; unfold ActorContext.instance; cbn [ActorContext.actor_id ActorContext.new];
    unfold format; cbn [foldr]; rewrite ?append_nil_r; reflexivity.
Qed.

Lemma wrapper_actor_id_inj t1 t2 :
  plain_target t1 → plain_target t2 → wrapper_actor_id t1 = wrapper_actor_id t2 → t1 = t2.
Proof.
  unfold plain_target. rewrite !wrapper_actor_id_rest. intros H1 H2 Heq%append_inj_l.
  destruct t1 as [k1 i1], t2 as [k2 i2]. unfold wrapper_rest in Heq. simpl in *.
  destruct (decide (k1 = TargetKind.Run)) as [->|Hk1], (decide (k2 = TargetKind.Run)) as [->|Hk2].
  - by subst.
  - exfalso. pose proof (H1 eq_refl) as Hfree. rewrite Heq in Hfree.
    destruct k2; try done; by rewrite colon_not_free in Hfree.
  - exfalso. pose proof (H2 eq_refl) as Hfree. rewrite <-Heq in Hfree.
    destruct k1; try done; by rewrite colon_not_free in Hfree.
  - assert (TargetKind.as_str k1 +:+ String ":" i1 = TargetKind.as_str k2 +:+ String ":" i2) as Hcut
      by (destruct k1, k2; done).
    by apply kind_id_inj in Hcut as [-> ->].
Qed.

Lemma telemetry_actor_id_inj t1 t2 : telemetry_actor_id t1 = telemetry_actor_id t2 → t1 = t2.
Proof.
  unfold telemetry_actor_id, format. simpl. rewrite !append_nil_r. intros Heq%append_inj_l.
  apply (append_inj_l ":") in Heq. destruct t1, t2. simpl in Heq.
  by apply kind_id_inj in Heq as [-> ->].
Qed.

Lemma planner_actor_inj p q : planner_actor p = planner_actor q → p = q.
Proof.
  unfold planner_actor. rewrite !format_two. intros Heq%append_inj_l%decimal_inj.
  destruct p, q. simpl in Heq. by subst.
Qed.

(** *** What a role is granted *)
Lemma authorize_Ok actor capability resource :
  authorize actor capability resource = Ok tt ↔
  C.is_reserved capability = false ∧ capability ∈ grants (ActorContext.role actor)
  ∧ (∀ kind run task request planner, resource = Resource.NewAsk kind run task request planner →
       opens_ask (ActorContext.role actor) kind = true)
  ∧ resource_permits actor capability resource = true.
Proof.
  unfold authorize. set (refused := match resource with Resource.NewAsk _ _ _ _ _ => _ | _ => _ end).
  assert (refused = false ↔ ∀ kind run task request planner,
    resource = Resource.NewAsk kind run task request planner →
    opens_ask (ActorContext.role actor) kind = true) as Hasks.
  { subst refused. destruct resource; split; try done.
    - intros Hneg ? ? ? ? ? [= -> -> -> -> ->]. by apply negb_false_iff.
    - intros Hall. apply negb_false_iff. by eapply Hall. }
  rewrite <-Hasks. clearbody refused. clear Hasks.
  destruct (C.is_reserved capability); [by split; [|intros [? _]]|].
  case_bool_decide; simpl; [|by split; [|intros (_ & ? & _)]].
  destruct refused; [by split; [|intros (_ & _ & ? & _)]|].
  destruct (resource_permits _ _ _); [split; [intros _; by split_and!|done]|].
  by split; [|intros (_ & _ & _ & ?)].
Qed.

Lemma granted actor capability resource :
  authorize actor capability resource = Ok tt → capability ∈ grants (ActorContext.role actor).
Proof. rewrite authorize_Ok. naive_solver. Qed.









(** *** What an actor owns *)

(** What a worker acts on: its own run or task, and asks and rounds of it. *)
Definition of_own_work (run : RunId) (task : TaskId) (resource : Resource) : Prop :=
  match resource with
  | Resource.Run id _ => id = run
  | Resource.Task id _ _ => id = task
  | Resource.Ask _ of_run | Resource.AgentEval of_run => of_run = Some run
  | Resource.NewAsk _ of_run of_task _ _ => of_run = Some run ∨ of_run = None ∧ of_task = Some task
  | _ => False
  end.

Lemma worker_owns_spec run task resource :
  worker_owns (ActorContext.worker run task) resource = true ↔ of_own_work run task resource.
Proof.
  unfold worker_owns. change (ActorContext.run_id (ActorContext.worker run task)) with (Some run).
  change (ActorContext.task_id (ActorContext.worker run task)) with (Some task).
  destruct resource as [ | |id ? ?|id ?|? [id|]|? [id|] [id'|] ? ?| | | | |[id|]| | |]; simpl;
    rewrite ?bool_decide_eq_true; try done; intuition congruence.
Qed.

Lemma worker_may run task capability resource :
  capability ≠ C.QueueRead →
  authorize (ActorContext.worker run task) capability resource = Ok tt ↔
  capability ∈ WORKER ∧ of_own_work run task resource
  ∧ ∀ kind r t q p, resource = Resource.NewAsk kind r t q p → kind = AskKind.WorkerQuestion.
Proof.
  intros Hread. rewrite authorize_Ok. unfold resource_permits. simpl.
  rewrite (bool_decide_false _ Hread). cbn [orb].
  assert (capability ∈ WORKER → C.is_reserved capability = false ∧ capability ≠ C.TokenIssue) as Hown.
  { intros Hin. assert (Forall (λ c, C.is_reserved c = false ∧ c ≠ C.TokenIssue) WORKER) as Hall
      by (repeat constructor; done). by apply (proj1 (Forall_forall _ _) Hall). }
  setoid_rewrite bool_decide_eq_true. rewrite <-worker_owns_spec. split.
  - intros (_ & Hgrant & Hask & Hpermits). destruct (Hown Hgrant) as [_ Hissue].
    by rewrite (bool_decide_false _ Hissue) in Hpermits.
  - intros (Hgrant & Hwork & Hask). destruct (Hown Hgrant) as [Hreserved Hissue].
    by rewrite (bool_decide_false _ Hissue).
Qed.

(** What a session's wrapper and an executor's telemetry send of: their own
    target. *)
Definition is_target (target : StepTarget) (resource : Resource) : Prop :=
  match resource with
  | Resource.Run id _ => StepTarget.run id = target
  | Resource.Planner id => StepTarget.of_ TargetKind.Planner (PlannerId.as_i64 id) = target
  | _ => False
  end.
Definition plain_resource (resource : Resource) : Prop :=
  ∀ id task, resource = Resource.Run id task → free_of ":"%char (RunId.as_str id) = true.

Lemma wrapper_may target capability resource :
  capability ∈ [C.SessionRun; C.SessionRecord] → plain_target target → plain_resource resource →
  authorize (ActorContext.new ActorRole.Wrapper (wrapper_actor_id target)) capability resource = Ok tt
  ↔ is_target target resource.
Proof.
  intros Hcap Htarget Hplain. rewrite authorize_Ok. unfold resource_permits.
  change (ActorContext.role _) with ActorRole.Wrapper. cbv beta iota. change (grants _) with WRAPPER.
  assert (wrapper_owns (ActorContext.new ActorRole.Wrapper (wrapper_actor_id target)) resource = true
    ↔ is_target target resource) as Howns.
  { unfold wrapper_owns. cbn [ActorContext.actor_id ActorContext.new].
    destruct resource; simpl; try done; rewrite bool_decide_eq_true;
      (split; [|by intros ->]); intros Heq; symmetry; (apply wrapper_actor_id_inj; [done| |done]).
    - intros _. by eapply Hplain.
    - by unfold plain_target. }
  assert (resource_permits (ActorContext.new ActorRole.Wrapper (wrapper_actor_id target)) capability
    resource = wrapper_owns (ActorContext.new ActorRole.Wrapper (wrapper_actor_id target)) resource
    ∧ C.is_reserved capability = false ∧ capability ∈ WRAPPER) as (Hpermits & Hreserved & Hgrant).
  { apply elem_of_cons in Hcap as [->|Hcap%list_elem_of_singleton]; [|subst];
      (split; [done|split; [done|]]; apply (bool_decide_unpack _); exact I). }
  unfold resource_permits in Hpermits. change (ActorContext.role _) with ActorRole.Wrapper in Hpermits.
  cbv beta iota in Hpermits. rewrite Hpermits, <-Howns. split; [by intros (_ & _ & _ & ?)|].
  intros Hown. split_and!; [done..| |done]. intros ? ? ? ? ? ->. done.
Qed.

Lemma telemetry_may target resource :
  authorize (ActorContext.new ActorRole.ExecutorTelemetry (telemetry_actor_id target))
    C.TelemetryReport resource = Ok tt
  ↔ resource = Resource.Telemetry target (Some target).
Proof.
  assert (telemetry_owns (ActorContext.new ActorRole.ExecutorTelemetry (telemetry_actor_id target)) resource
    = true ↔ resource = Resource.Telemetry target (Some target)) as Howns.
  { unfold telemetry_owns. cbn [ActorContext.actor_id ActorContext.new].
    destruct resource as [| | | | | | | | | | |t owner| |]; try (split; intros; discriminate).
    rewrite andb_true_iff, !bool_decide_eq_true. split.
    - by intros [->%telemetry_actor_id_inj ->].
    - by intros [= -> ->]. }
  rewrite authorize_Ok, <-Howns. split.
  - intros (_ & _ & _ & Hpermits). exact Hpermits.
  - intros Hown. split_and!; [reflexivity|by apply (bool_decide_unpack _)| |exact Hown].
    apply Howns in Hown as ->. intros ? ? ? ? ?. discriminate.
Qed.

Lemma planner_declines planner request of_planner :
  authorize (ActorContext.instance ActorRole.Planner (PlannerId.display planner)) C.RequestDecline
    (Resource.Request request of_planner) = Ok tt
  ↔ of_planner = Some planner.
Proof.
  rewrite authorize_Ok. unfold resource_permits. simpl.
  assert (∀ other, ActorContext.actor_id (ActorContext.instance ActorRole.Planner
    (PlannerId.display planner)) = planner_actor other ↔ other = planner) as Hid.
  { intros other. change (ActorContext.actor_id _) with (planner_actor planner).
    split; [intros ?%planner_actor_inj; congruence|by intros ->]. }
  destruct of_planner as [other|]; simpl; [rewrite bool_decide_eq_true, Hid|].
  - split; [naive_solver|]. intros [= ->]. split_and!; [done|apply (bool_decide_unpack _); exact I|done|done].
  - split; [naive_solver|done].
Qed.

(** What an actor's id lets it act on is its own alone: a worker, besides
    reading, acts on its run, its task and the asks and rounds of them, with the
    five capabilities of a worker; a session's wrapper runs and records the
    session of its own target; an executor's telemetry reports its own target,
    of a session registered to it; and a planner declines its own request.  A
    run's id is one without a colon, as the runtime's are. *)
Theorem actors_confined run task target planner capability resource request of_planner :
  capability ≠ C.QueueRead → plain_target target → plain_resource resource →
  (authorize (ActorContext.worker run task) capability resource = Ok tt ↔
     capability ∈ WORKER ∧ of_own_work run task resource
     ∧ ∀ kind r t q p, resource = Resource.NewAsk kind r t q p → kind = AskKind.WorkerQuestion)
  ∧ (authorize (ActorContext.new ActorRole.Wrapper (wrapper_actor_id target)) capability resource = Ok tt
     ↔ capability ∈ [C.SessionRun; C.SessionRecord] ∧ is_target target resource)
  ∧ (authorize (ActorContext.new ActorRole.ExecutorTelemetry (telemetry_actor_id target))
       capability resource = Ok tt
     ↔ capability = C.TelemetryReport ∧ resource = Resource.Telemetry target (Some target))
  ∧ (authorize (ActorContext.instance ActorRole.Planner (PlannerId.display planner)) C.RequestDecline
       (Resource.Request request of_planner) = Ok tt ↔ of_planner = Some planner).
Proof.
  intros Hread Htarget Hplain. split_and!; [by apply worker_may| | |apply planner_declines].
  - split.
    + intros Hok. pose proof (granted _ _ _ Hok) as Hgrant. simpl in Hgrant. unfold WRAPPER in Hgrant.
      apply elem_of_cons in Hgrant as [?|Hgrant]; [done|]. split; [done|].
      by apply (wrapper_may target capability).
    + intros [Hcap Hown]. by apply wrapper_may.
  - split.
    + intros Hok. pose proof (granted _ _ _ Hok) as Hgrant. simpl in Hgrant.
      apply list_elem_of_singleton in Hgrant as ->. by apply telemetry_may in Hok.
    + intros [-> ->]. by apply telemetry_may.
Qed.

(** *** A change of a task stays authorized *)

(** A planner's change of a task, authorized on what was read before and
    unchanged in the transaction that writes it, is one of a task that has not
    started, in no revising proposal but the planner's own. *)
Theorem planner_changes_unstarted actor auth task now capability :
  ActorContext.role actor = ActorRole.Planner → capability ∈ [C.TaskWrite; C.TaskCancel] →
  authorize actor capability (TaskAuthorization.resource auth task) = Ok tt →
  TaskAuthorization.check_unchanged auth task now = Ok tt →
  TaskAuthorization.status now ∈ [TaskStatus.Draft; TaskStatus.Submitted; TaskStatus.Ready]
  ∧ ∀ proposal, TaskAuthorization.proposal now = Some proposal →
      TaskProposal.status proposal = ProposalStatus.Revising →
      TaskProposal.owner proposal = Some (ActorContext.actor_id actor)
      ∧ free_of ":"%char (ActorContext.actor_id actor) = false.
Proof.
  intros Hrole Hcap Hok Hunchanged. unfold TaskAuthorization.check_unchanged in Hunchanged.
  apply bind_Ok in Hunchanged as ([] & Hstatus & Hproposal).
  apply require_Ok, bool_decide_eq_true in Hstatus as <-, Hproposal as <-.
  apply authorize_Ok in Hok as (_ & _ & _ & Hpermits). unfold resource_permits in Hpermits.
  rewrite Hrole in Hpermits.
  rewrite bool_decide_false in Hpermits
    by (intros ->; apply (bool_decide_pack _) in Hcap; done).
  unfold TaskAuthorization.resource, planner_permits in Hpermits.
  replace (bool_decide (capability = C.TaskWrite) || bool_decide (capability = C.TaskCancel)) with true
    in Hpermits by (symmetry; rewrite orb_true_iff, !bool_decide_eq_true;
      apply elem_of_cons in Hcap as [?|?%list_elem_of_singleton]; auto).
  apply andb_true_iff in Hpermits as [Hunstarted Hopen]. split.
  - destruct (TaskAuthorization.status auth); try discriminate Hunstarted;
      apply (bool_decide_unpack _); exact I.
  - intros proposal Hp Hrevising. rewrite Hp in Hopen. simpl in Hopen. unfold TaskProposal.open_to in Hopen.
    rewrite bool_decide_true in Hopen by done. simpl in Hopen.
    destruct (TaskProposal.owner proposal) as [owner|]; [|done]. cbn [is_some_and] in Hopen.
    apply andb_true_iff in Hopen as [Hcolon%negb_true_iff Howner%bool_decide_eq_true]. by rewrite <-Howner.
Qed.
End PolicyProofs.

(** ** The theorems at concrete actors *)
Module PolicySample.
Import PolicyProofs.


Definition run1 : RunId := RunId.wrap "1".
Definition task1 : TaskId := TaskId.new 1.
Lemma actors_confined_witness :
  authorize (ActorContext.worker run1 task1) C.NoteWrite (Resource.run run1) = Ok tt.
Proof.
  refine (proj2 (proj1 (actors_confined run1 task1 (StepTarget.run run1) (PlannerId.new 1) C.NoteWrite
    (Resource.run run1) (RequestId.new 1) None _ _ _)) _).
  - discriminate.
  - intros _. reflexivity.
  - intros id task [= <- _]. reflexivity.
  - split; [apply (bool_decide_unpack _); exact I|]. split; [reflexivity|discriminate].
Defined.

Definition planner1 : ActorContext := ActorContext.instance ActorRole.Planner "1".
Definition ready : TaskAuthorization := TaskAuthorization.outside_proposals TaskStatus.Ready.
Lemma planner_changes_unstarted_witness :
  TaskAuthorization.status ready ∈ [TaskStatus.Draft; TaskStatus.Submitted; TaskStatus.Ready].
Proof.
  refine (proj1 (planner_changes_unstarted planner1 ready task1 ready C.TaskWrite eq_refl _ eq_refl
    eq_refl)).
  apply (bool_decide_unpack _). exact I.
Defined.
End PolicySample.
