(* ===== verification/Tokens.v ===== *)
(** * The tokens of the queue service: who asks for one, and what it is under

    [src/src/domain/queue_service.rs]: the principal a token is issued for,
    what the issue is checked under, and what becomes of the token its key
    already holds: replaced, handed over again, or kept from a parent that did
    not ask for it.  The files the tokens are in, and the use cases that issue
    and revoke them, are in [TokenStore.v]. *)
From Stdlib Require Import Ascii.
From S2P Require Import Prelude Text Vocab Ids Errors Actors Authorization.

(** [SupervisorRegistration] of [views.rs], the fields a token is judged by. *)
Module SupervisorRegistration.
Record t : Set := mk { token : LeaseToken; pid : Z; started_at : Z; heartbeat_at : Z }.
End SupervisorRegistration.
Abbreviation SupervisorRegistration := SupervisorRegistration.t.
Definition heartbeat_expired (registration : SupervisorRegistration) (now : Z) : bool :=
  (HEARTBEAT_TIMEOUT_SECS <? now - SupervisorRegistration.heartbeat_at registration)%Z.
Definition heartbeat_stale (alive : bool) (heartbeat_age_secs : Z) : bool :=
  negb alive || (HEARTBEAT_TIMEOUT_SECS <? heartbeat_age_secs)%Z.

(** ** Principals *)
Module SessionProcess.
Record t : Set := mk { pid : Z; start : string }.
#[global] Instance eq_dec : EqDecision t.
Proof. solve_decision. Defined.
Definition runs (self : t) (alive : bool) (printed : option string) : bool :=
  alive && bool_decide (printed = Some (start self)).
Definition ended (self : t) (alive : bool) (printed : option string) : bool :=
  negb alive || is_some_and printed (λ printed, negb (bool_decide (printed = start self))).
End SessionProcess.
Abbreviation SessionProcess := SessionProcess.t.

Module Principal.
Record t : Set := mk {
  role : ActorRole;
  actor_id : string;
  run_id : option RunId;
  task_id : option TaskId;
  target : option StepTarget;
  registration : option LeaseToken;
  session : option SessionProcess;
  landing : option EventId;
}.
#[global] Instance eq_dec : EqDecision t.
Proof. solve_decision. Defined.
#[global] Instance updatable : Updatable t :=
  λ p, mk (role p) (actor_id p) (run_id p) (task_id p) (target p) (registration p) (session p)
    (landing p).

Definition of_ (actor : ActorContext) : t :=
  mk (ActorContext.role actor) (ActorContext.actor_id actor) (ActorContext.run_id actor)
    (ActorContext.task_id actor) None None None None.
Definition worker (run : RunId) (task : TaskId) : t := of_ (ActorContext.worker run task).
Definition user : t := of_ ActorContext.user.
Definition inbox (session_of : SessionProcess) : t :=
  of_ (ActorContext.new ActorRole.Inbox (as_str ActorRole.Inbox)) <| session := Some session_of |>.
Definition planner (id : Z) : t :=
  of_ (ActorContext.instance ActorRole.Planner (decimal id))
    <| target := Some (StepTarget.of_ TargetKind.Planner id) |>.
Definition host_client (actor : ActorContext) : option t :=
  match ActorContext.role actor with
  | ActorRole.Planner =>
      id ← strip_prefix "planner:" (ActorContext.actor_id actor);
      id ← parse_i64 id;
      Some (planner id)
  | _ => None
  end.
Definition supervisor (registration_of : LeaseToken) (pid : Z) : t :=
  of_ (ActorContext.instance ActorRole.Supervisor (decimal pid))
    <| registration := Some registration_of |>.
Definition integrator (run : RunId) (lease : LeaseToken) (pid : Z) : t :=
  of_ (ActorContext.instance ActorRole.Integrator (decimal pid))
    <| target := Some (StepTarget.run run) |> <| registration := Some lease |>.
Definition of_landing (self : t) (event : EventId) : t := self <| landing := Some event |>.
Definition landing_run (self : t) : option RunId :=
  match role self with
  | ActorRole.Integrator => target self ≫= StepTarget.run_id
  | _ => None
  end.
Definition telemetry (of_target : StepTarget) (task : option TaskId) : t :=
  let run := StepTarget.run_id of_target in
  mk ActorRole.ExecutorTelemetry (telemetry_actor_id of_target) run
    (if is_some run then task else None) (Some of_target) None None None.
Definition wrapper (of_target : StepTarget) (task : option TaskId) : t :=
  let run := StepTarget.run_id of_target in
  mk ActorRole.Wrapper (wrapper_actor_id of_target) run
    (if is_some run then task else None) (Some of_target) None None None.

Definition refuse (value : string) : Result unit :=
  Err (DomainError.UnknownValue "Principal role" value).

(** What a planner's, an executor's telemetry and a session wrapper's target
    has to be. *)
Definition target_fits (self : t) (target : StepTarget) : bool :=
  match role self with
  | ActorRole.Planner =>
      bool_decide (StepTarget.kind target = TargetKind.Planner)
      && bool_decide (actor_id self = format ["planner:"; StepTarget.id target])
      && is_none (run_id self) && is_none (task_id self)
  | ActorRole.ExecutorTelemetry =>
      bool_decide (actor_id self = telemetry_actor_id target)
      && bool_decide (run_id self = StepTarget.run_id target)
      && (negb (bool_decide (StepTarget.kind target = TargetKind.Run)) || is_some (run_id self))
      && (is_some (run_id self) || is_none (task_id self))
  | ActorRole.Wrapper =>
      bool_decide (actor_id self = wrapper_actor_id target)
      && bool_decide (run_id self = StepTarget.run_id target)
      && match StepTarget.kind target with
         | TargetKind.Run => is_some (run_id self) && is_some (task_id self)
         | TargetKind.Planner =>
             is_some (parse_i64 (StepTarget.id target)) && is_none (task_id self)
         | _ => false
         end
  | _ => false
  end.

Definition check (self : t) : Result unit :=
  match registration self with
  | Some registration =>
      let fits :=
        match role self, target self with
        | ActorRole.Supervisor, None => true
        | ActorRole.Integrator, Some target =>
            bool_decide (StepTarget.kind target = TargetKind.Run)
            && is_some (StepTarget.run_id target)
        | _, _ => false
        end in
      if fits && is_none (run_id self) && is_none (task_id self)
         && negb (is_empty (LeaseToken.as_str registration))
      then Ok tt
      else refuse (format [as_str (role self); " of a registration"])
  | None =>
      _ ← match session self, role self with
          | Some _, ActorRole.Inbox => Ok tt
          | Some session, role =>
              refuse (format [as_str role; " of session "; decimal (SessionProcess.pid session)])
          | None, ActorRole.Inbox => refuse "inbox of no session"
          | None, _ => Ok tt
          end;
      match target self with
      | None =>
          if bool_decide (role self = ActorRole.Planner) then refuse "planner of no planner"
          else if bool_decide (Vocab.trust (role self) = TrustLevel.UntrustedAgent)
                  || bool_decide (role self = ActorRole.Inbox)
                     && is_none (run_id self) && is_none (task_id self)
          then Ok tt
          else refuse (as_str (role self))
      | Some target =>
          if target_fits self target then Ok tt
          else refuse (format [as_str (role self); " of "; as_str (StepTarget.kind target); " ";
                               StepTarget.id target])
      end
  end.

Definition names_itself (self : t) : bool :=
  if is_some (target self) then true
  else
    let role_text := as_str (role self) in
    match strip_prefix role_text (actor_id self) ≫= strip_prefix ":" with
    | None => bool_decide (role self = ActorRole.Inbox) && bool_decide (actor_id self = role_text)
    | Some instance =>
        match role self, run_id self with
        | ActorRole.Inbox, _ => false
        | ActorRole.Worker, Some run => bool_decide (instance = RunId.as_str run)
        | ActorRole.Worker, None => false
        | _, Some run => is_some_and (strip_prefix (RunId.as_str run) instance) (λ rest, starts_with rest ":")
        | _, None => negb (is_empty instance)
        end
    end.

Definition credential_key (self : t) : string :=
  match landing_run self with
  | Some run => format [actor_id self; "@"; RunId.as_str run]
  | None =>
      match registration self, session self with
      | Some registration, _ => format [actor_id self; "@"; LeaseToken.as_str registration]
      | None, Some session =>
          format [actor_id self; "@"; decimal (SessionProcess.pid session); ":";
                  SessionProcess.start session]
      | None, None => actor_id self
      end
  end.

Definition actor (self : t) : ActorContext :=
  let actor := ActorContext.new (role self) (actor_id self) in
  match run_id self, task_id self with
  | Some run, Some task => ActorContext.with_run actor run task
  | _, _ => actor
  end.
End Principal.
Abbreviation Principal := Principal.t.

(** ** What a token is issued under *)
Module IssueHeld.
Inductive t : Set :=
  | Nothing
  | Registration (lease : LeaseToken)
  | Lease (run : RunId) (lease : LeaseToken)
  | OpenPlanner (planner : Z) (lease : LeaseToken)
  | Registered (lease : LeaseToken)
  | OpenTarget (target : StepTarget) (registration : option LeaseToken).
End IssueHeld.
Abbreviation IssueHeld := IssueHeld.t.

(** The planner a principal's target names. *)
Definition planner_named (child : Principal) : option Z :=
  target ← Principal.target child;
  if bool_decide (StepTarget.kind target = TargetKind.Planner) then parse_i64 (StepTarget.id target)
  else None.

Definition issue_held (parent child : Principal) : IssueHeld :=
  match Principal.role child, Principal.target child with
  | ActorRole.ExecutorTelemetry, Some target =>
      IssueHeld.OpenTarget target (Principal.registration parent)
  | role, _ =>
      match Principal.registration parent, Principal.registration child with
      | _, Some registration => IssueHeld.Registration registration
      | Some lease, None =>
          match Principal.run_id child, planner_named child with
          | Some run, _ =>
              if bool_decide (role = ActorRole.Worker) || bool_decide (role = ActorRole.Wrapper)
              then IssueHeld.Lease run lease
              else IssueHeld.Registered lease
          | None, Some planner => IssueHeld.OpenPlanner planner lease
          | None, None => IssueHeld.Registered lease
          end
      | None, None => IssueHeld.Nothing
      end
  end.

Module HeldFacts.
Record t : Set := mk {
  registration_expired : option bool;
  leased : bool;
  planner_open : bool;
  target_open : bool;
}.
Definition default : t := mk None false false false.
#[global] Instance updatable : Updatable t :=
  λ f, mk (registration_expired f) (leased f) (planner_open f) (target_open f).
End HeldFacts.
Abbreviation HeldFacts := HeldFacts.t.

Definition or_else {A} (first : option A) (second : option A) : option A :=
  match first with Some _ => first | None => second end.
Definition not_held (held : IssueHeld) (facts : HeldFacts) : option string :=
  let live :=
    match HeldFacts.registration_expired facts with
    | None => Some "the supervisor that asked is not registered"
    | Some true => Some "the registration of the supervisor that asked has expired"
    | Some false => None
    end in
  match held with
  | IssueHeld.Nothing | IssueHeld.Registration _ => None
  | IssueHeld.Lease run _ =>
      or_else live (if HeldFacts.leased facts then None
        else Some (format ["run "; RunId.as_str run; " is not leased to the supervisor that asked"]))
  | IssueHeld.OpenPlanner planner _ =>
      or_else live (if HeldFacts.planner_open facts then None
        else Some (format ["planner "; decimal planner; " is not open"]))
  | IssueHeld.Registered _ => live
  | IssueHeld.OpenTarget target registration =>
      or_else (if is_some registration then live else None)
        (if HeldFacts.target_open facts then None
         else Some (format ["the "; as_str (StepTarget.kind target); " "; StepTarget.id target;
                            " has ended or is not in the queue"]))
  end.

(** ** The token a key holds already *)
Module TokenIssuer.
Record t : Set := mk {
  parent : string;
  process : option SessionProcess;
  registration : option LeaseToken;
}.
#[global] Instance eq_dec : EqDecision t.
Proof. solve_decision. Defined.
Definition of_ (parent : Principal) (process : option SessionProcess) : t :=
  mk (Principal.credential_key parent) process
    (if bool_decide (Principal.role parent = ActorRole.Supervisor)
     then Principal.registration parent else None).
Definition there (self : t) (alive : SessionProcess → bool) (registered : LeaseToken → bool) : bool :=
  is_none_or (process self) alive && is_none_or (registration self) registered.
Definition judged (self : t) : bool := is_some (process self) || is_some (registration self).
End TokenIssuer.
Abbreviation TokenIssuer := TokenIssuer.t.

Module HeldToken.
Record t : Set := mk {
  principal : Principal;
  issued_by : option TokenIssuer;
  issued_at : Z;
}.
End HeldToken.
Abbreviation HeldToken := HeldToken.t.

Module MayHaveAsked.
Record t : Set := mk { supervisors : list string; command : bool }.
End MayHaveAsked.
Abbreviation MayHaveAsked := MayHaveAsked.t.

Definition UNJUDGED_JOB : string :=
  "the job's token was kept with no parent that can be judged, and the queue does not tell that its job ended".

Module JobState.
Inductive t : Set :=
  | Ended
  | MayRun
  | Unrecorded (asked : MayHaveAsked).
Definition ended (self : t) : bool :=
  match self with
  | Ended => true
  | MayRun => false
  | Unrecorded asked =>
      match MayHaveAsked.supervisors asked with
      | [] => negb (MayHaveAsked.command asked)
      | _ => false
      end
  end.
Definition only_of (self : t) (parent : string) : bool :=
  match self with
  | Unrecorded asked =>
      negb (MayHaveAsked.command asked)
      && match MayHaveAsked.supervisors asked with
         | [supervisor] => bool_decide (supervisor = parent)
         | _ => false
         end
  | _ => false
  end.
Definition refusal (self : t) : string :=
  match self with
  | Unrecorded _ =>
      "the job's token was kept with no parent that can be judged, the queue keeps no record of its job, and a process that may have asked for it still runs"
  | _ => UNJUDGED_JOB
  end.
End JobState.
Abbreviation JobState := JobState.t.

Module HostProcess.
Record t : Set := mk { pid : Z; command : string; started_at : option Z }.
End HostProcess.
Abbreviation HostProcess := HostProcess.t.

Definition job_starters (role : ActorRole) : bool * list string :=
  match role with
  | ActorRole.Observer => (true, ["observe"])
  | ActorRole.ThroughputReviewJob => (true, ["throughput-review"])
  | ActorRole.SetupReviewJob => (false, ["setup-review"])
  | _ => (true, [])
  end.

(** What comes after the last slash of a word. *)
Definition file_name (word : string) : string :=
  match rsplit_once "/" word with Some (_, name) => name | None => word end.
Definition runs_dagq_with (command : string) (subcommands : list string) : bool :=
  let is_dagq word :=
    bool_decide (file_name word = "dagq") || starts_with (file_name word) "dagq." in
  let fix after words :=
    match words with
    | [] => false
    | word :: words =>
        if is_dagq word then existsb (λ word, bool_decide (word ∈ subcommands)) words
        else after words
    end in
  after (split_whitespace command).

Definition supervisor_key (registration : SupervisorRegistration) : string :=
  Principal.credential_key
    (Principal.supervisor (SupervisorRegistration.token registration)
       (SupervisorRegistration.pid registration)).

Definition may_have_asked (role : ActorRole) (kept : option string) (issued_at : Z)
    (registrations : list SupervisorRegistration) (alive : Z → bool)
    (processes : option (list HostProcess)) (own : Z) : MayHaveAsked :=
  let by_then started := (started <=? issued_at + 1)%Z in
  let '(by_supervisor, subcommands) := job_starters role in
  let supervisor_kept := is_some_and kept (λ kept, starts_with kept "supervisor:") in
  let supervisors :=
    List.filter (λ registration,
      alive (SupervisorRegistration.pid registration)
      && match kept with
         | None => by_supervisor && by_then (SupervisorRegistration.started_at registration)
         | Some kept => bool_decide (kept = supervisor_key registration)
         end) registrations in
  let command :=
    negb supervisor_kept
    && match subcommands with [] => false | _ => true end
    && is_none_or processes (λ processes,
         existsb (λ process,
           negb (bool_decide (HostProcess.pid process = own))
           && negb (existsb (λ registration,
                bool_decide (SupervisorRegistration.pid registration = HostProcess.pid process))
                supervisors)
           && runs_dagq_with (HostProcess.command process) subcommands
           && is_none_or (HostProcess.started_at process) by_then) processes) in
  MayHaveAsked.mk (supervisor_key <$> supervisors) command.

Definition is_job (role : ActorRole) : bool :=
  match role with
  | ActorRole.Observer | ActorRole.ReviewJob | ActorRole.RecoveryJob | ActorRole.PlanReviewJob
  | ActorRole.GoalReviewJob | ActorRole.ThroughputReviewJob | ActorRole.SetupReviewJob => true
  | _ => false
  end.

Definition taken_over (principal : Principal) : bool :=
  let target := Principal.target principal in
  match Principal.role principal with
  | ActorRole.Planner => true
  | ActorRole.Wrapper =>
      is_some_and target (λ target, bool_decide (StepTarget.kind target = TargetKind.Planner))
  | ActorRole.ExecutorTelemetry => is_some_and target (λ target, is_none (StepTarget.run_id target))
  | _ => false
  end.

Module Reissue.
Inductive t : Set :=
  | Issue
  | Held
  | Refused (why : string).
End Reissue.
Abbreviation Reissue := Reissue.t.

Definition unjudged (job : JobState) (issuer : TokenIssuer) : Reissue :=
  if JobState.ended job then Reissue.Issue
  else if JobState.only_of job (TokenIssuer.parent issuer) then Reissue.Held
  else Reissue.Refused (JobState.refusal job).

(** [held] is [None] for no token, else the issuer kept with it. *)
Definition reissue (child : Principal) (issuer : TokenIssuer) (held : option (option TokenIssuer))
    (there : TokenIssuer → bool) (job : JobState) : Reissue :=
  match held with
  | None => Reissue.Issue
  | Some held =>
      if is_job (Principal.role child)
      then
        match held with
        | None => unjudged job issuer
        | Some held =>
            if negb (TokenIssuer.judged held) then unjudged job issuer
            else if negb (bool_decide (TokenIssuer.parent held = TokenIssuer.parent issuer))
            then Reissue.Refused "the job's token is another parent's, which alone replaces it"
            else if there held then Reissue.Held else Reissue.Issue
        end
      else
        match held with
        | Some held =>
            if taken_over child
               && negb (bool_decide (TokenIssuer.parent held = TokenIssuer.parent issuer))
               && there held
            then Reissue.Refused "its token is another parent's, which is still there"
            else Reissue.Issue
        | None => Reissue.Issue
        end
  end.

Definition revoke_refusal (held : HeldToken) (parent : string) (there : TokenIssuer → bool)
    (job : JobState) : option string :=
  let of_job := is_job (Principal.role (HeldToken.principal held)) in
  let judged := is_some_and (HeldToken.issued_by held) TokenIssuer.judged in
  if is_some_and (HeldToken.issued_by held) (λ issuer, bool_decide (TokenIssuer.parent issuer = parent))
  then None
  else if of_job && negb judged
  then if negb (JobState.ended job) && negb (JobState.only_of job parent)
       then Some (JobState.refusal job) else None
  else
    match HeldToken.issued_by held with
    | Some issuer =>
        if (of_job || taken_over (HeldToken.principal held)) && there issuer
        then Some "the token is another parent's, which is still there" else None
    | None => None
    end.

Definition job_token_ended (issued_by : option TokenIssuer) (there : TokenIssuer → bool)
    (job : JobState) : bool :=
  match issued_by with
  | Some issuer => if TokenIssuer.judged issuer then negb (there issuer) else JobState.ended job
  | None => JobState.ended job
  end.

(** ** The records of a job *)
Module RowLabel.
Inductive t : Set := Is (label : string) | Not (label : string).
End RowLabel.
Abbreviation RowLabel := RowLabel.t.

Module JobRecords.
Inductive t : Set :=
  | PlanReview (proposal attempt : Z)
  | GoalReview (goal attempt : Z)
  | RunJob (kinds : list string) (run : string) (label : RowLabel) (attempt : Z)
  | ThroughputReview (mode period : string)
  | Observation (session_id : string).
End JobRecords.
Abbreviation JobRecords := JobRecords.t.

Definition REVIEW : string := "review".
Definition RECOVERY : string := "recovery".
Definition REVIEW_PROGRAM : string := "review_program".
Definition SATISFIED_REVIEW_LABEL : string := "already_satisfied".

Definition parsed_run (text : string) : option string :=
  match run_id_new text with Ok run => Some (RunId.as_str run) | Err _ => None end.
Definition job_records_of (principal : Principal) : option JobRecords :=
  instance ← strip_prefix (as_str (Principal.role principal)) (Principal.actor_id principal);
  instance ← strip_prefix ":" instance;
  let pair text :=
    cut ← split_once ":" text; first ← parse_i64 cut.1; second ← parse_i64 cut.2;
    Some (first, second) in
  match Principal.role principal with
  | ActorRole.PlanReviewJob => of_pair ← pair instance; Some (JobRecords.PlanReview of_pair.1 of_pair.2)
  | ActorRole.GoalReviewJob => of_pair ← pair instance; Some (JobRecords.GoalReview of_pair.1 of_pair.2)
  | ActorRole.ReviewJob =>
      cut ← split_once ":" instance;
      run ← parsed_run cut.1;
      match strip_prefix "satisfied-" cut.2 with
      | Some attempt =>
          attempt ← parse_i64 attempt;
          Some (JobRecords.RunJob [REVIEW] run (RowLabel.Is SATISFIED_REVIEW_LABEL) attempt)
      | None =>
          attempt ← parse_i64 cut.2;
          Some (JobRecords.RunJob [REVIEW; REVIEW_PROGRAM] run (RowLabel.Not SATISFIED_REVIEW_LABEL)
                  attempt)
      end
  | ActorRole.RecoveryJob =>
      cut ← split_once ":" instance;
      last ← rsplit_once ":" cut.2;
      run ← parsed_run cut.1;
      attempt ← parse_i64 last.2;
      Some (JobRecords.RunJob [RECOVERY] run (RowLabel.Is last.1) attempt)
  | ActorRole.ThroughputReviewJob =>
      cut ← split_once ":" instance; Some (JobRecords.ThroughputReview cut.1 cut.2)
  | ActorRole.Observer => Some (JobRecords.Observation instance)
  | _ => None
  end.

Module Beat.
Record t : Set := mk { pid : Z; age_secs : Z }.
End Beat.
Abbreviation Beat := Beat.t.
Module TargetFacts.
Inductive t : Set :=
  | Ended
  | OpenPlanner
  | SupervisedJob (supervisor : option Beat)
  | StartedCommand (ends_by_ms : Z) (pid : option Z).
End TargetFacts.
Abbreviation TargetFacts := TargetFacts.t.
Module TokenRevocation.
Inductive t : Set := Reissued | RunEnded | LeaseLost | JobEnded | PlannerClosed.
End TokenRevocation.
Abbreviation TokenRevocation := TokenRevocation.t.

Definition target_token_due (kind : TargetKind) (facts : TargetFacts) (now_ms : Z) (alive : Z → bool) :
    option TokenRevocation :=
  let ended :=
    match facts with
    | TargetFacts.Ended => true
    | TargetFacts.OpenPlanner => false
    | TargetFacts.SupervisedJob supervisor =>
        is_none_or supervisor (λ beat, heartbeat_stale (alive (Beat.pid beat)) (Beat.age_secs beat))
    | TargetFacts.StartedCommand ends_by_ms pid =>
        (ends_by_ms <? now_ms)%Z || is_some_and pid (λ pid, negb (alive pid))
    end in
  if ended
  then Some (if bool_decide (kind = TargetKind.Planner) then TokenRevocation.PlannerClosed
             else TokenRevocation.JobEnded)
  else None.

Module JobRecord.
Record t : Set := mk { facts : TargetFacts; supervisor : option LeaseToken; pid : option Z }.
End JobRecord.
Abbreviation JobRecord := JobRecord.t.

Definition job_records_ended (records : list JobRecord) (starting : option TokenIssuer) (now_ms : Z)
    (alive : Z → bool) : option bool :=
  let ended record :=
    is_some (target_token_due TargetKind.PlanReview (JobRecord.facts record) now_ms alive) in
  let asking record :=
    is_some_and starting (λ asking,
      is_some (JobRecord.supervisor record)
        && bool_decide (JobRecord.supervisor record = TokenIssuer.registration asking)
      || is_some (JobRecord.pid record)
        && bool_decide (JobRecord.pid record = SessionProcess.pid <$> TokenIssuer.process asking)) in
  match List.filter (λ record, negb (asking record && negb (ended record))) records with
  | [] => None
  | remaining => Some (forallb ended remaining)
  end.

(** ** The telemetry of a target of no run *)
Module TargetStart.
Inductive t : Set :=
  | Command (actor : option (ActorRole * string)) (pid : option Z)
  | Supervised (supervisor : option LeaseToken).
End TargetStart.
Abbreviation TargetStart := TargetStart.t.

Definition telemetry_issue_refusal (parent : ActorRole) (child : Principal) : option string :=
  target ← Principal.target child;
  if is_some (StepTarget.run_id target)
  then Some "a run's executor's telemetry token is issued under the run's lease"
  else if bool_decide (parent = ActorRole.Supervisor) then None
  else if bool_decide (StepTarget.kind target ∈ [TargetKind.Observer; TargetKind.ThroughputReview])
  then None
  else Some "the target is not of a job a command starts".

Definition telemetry_starter_refusal (parent : Principal) (process : option Z)
    (start : option TargetStart) : option string :=
  match start with
  | None => Some "the queue has no record of the target's start"
  | Some (TargetStart.Command None _) | Some (TargetStart.Command _ None) =>
      Some "the target's start names no caller that started it"
  | Some start =>
      let own :=
        match start with
        | TargetStart.Command actor pid =>
            bool_decide (actor = Some (Principal.role parent, Principal.actor_id parent))
            && bool_decide (pid = process)
        | TargetStart.Supervised supervisor =>
            bool_decide (Principal.role parent = ActorRole.Supervisor)
            && is_some supervisor && bool_decide (supervisor = Principal.registration parent)
        end in
      if own then None else Some "the target was started by another caller"
  end.

Definition telemetry_target_refusal (parent : Principal) (process : option Z)
    (start : option TargetStart) (held : bool) : option string :=
  or_else (telemetry_starter_refusal parent process start)
    (if held then Some "the target's executor holds its token already" else None).

(** ** The end of a token *)
Definition client_role (role : ActorRole) : bool :=
  bool_decide (role ∈ [ActorRole.Worker; ActorRole.Observer]) || is_headless_job role.
Definition host_client_role (role : ActorRole) : bool :=
  bool_decide (role ∈ [ActorRole.User; ActorRole.Inbox; ActorRole.Planner]).
Definition run_holds_token (status : RunStatus) : bool :=
  negb (bool_decide (status ∈ [RunStatus.Integrated; RunStatus.Succeeded; RunStatus.Failed;
                               RunStatus.Interrupted; RunStatus.Replaced])).
Definition supervisor_revokes (key : string) : bool :=
  if starts_with key "supervisor:" then false
  else
    match split_once "@" key with
    | None => true
    | Some (actor_id, _) =>
        starts_with actor_id "integrator:" || bool_decide (actor_id = as_str ActorRole.Inbox)
    end.
Definition session_token_ended (principal : Principal) (alive : SessionProcess → bool) : bool :=
  is_some_and (Principal.session principal) (λ session, negb (alive session)).
Definition swept_token_key (principal : Principal) : option string :=
  let key := Principal.credential_key principal in
  let of_supervisor := bool_decide (Principal.role principal = ActorRole.Supervisor) in
  let signed_in := of_supervisor && is_some (Principal.registration principal) in
  if signed_in || negb of_supervisor && supervisor_revokes key then Some key else None.
Definition revoked_with_prune (pruning pruned : LeaseToken) : bool := negb (bool_decide (pruning = pruned)).

(** The registration of a supervisor's sign-in. *)
Definition signed_in (held : HeldToken) : option LeaseToken :=
  if bool_decide (Principal.role (HeldToken.principal held) = ActorRole.Supervisor)
  then Principal.registration (HeldToken.principal held) else None.
Definition registration_end_refusal (held : HeldToken) (registered : LeaseToken → bool) : option string :=
  match signed_in held with
  | None => Some "only a supervisor's token is revoked at its registration's end"
  | Some registration =>
      if registered registration then Some "the supervisor's registration is still kept" else None
  end.
Definition supervisor_token_ended (held : HeldToken) (registered : LeaseToken → bool)
    (ended : SessionProcess → bool) (started_by_ended : Z → Z → bool) : option bool :=
  registration ← signed_in held;
  let process_ended :=
    match HeldToken.issued_by held ≫= TokenIssuer.process with
    | Some process => ended process
    | None =>
        is_some_and
          (strip_prefix "supervisor:" (Principal.actor_id (HeldToken.principal held)) ≫= parse_u32)
          (λ pid, started_by_ended pid (HeldToken.issued_at held))
    end in
  Some (negb (registered registration) && process_ended).
Definition started_by_ended (alive : bool) (started_at : option Z) (by_ : Z) : bool :=
  negb alive || is_some_and started_at (λ started, (by_ + 1 <? started)%Z).

(** Of [PlannerSession], [exited_at] and [closed_at]. *)
Definition planner_token_ended (principal : Principal)
    (planner : PlannerId → option (option Z * option Z)) : option bool :=
  target ← Principal.target principal;
  if negb (bool_decide (StepTarget.kind target = TargetKind.Planner)) then None
  else
    wrapper ← match Principal.role principal with
              | ActorRole.Wrapper => Some true
              | ActorRole.Planner => Some false
              | _ => None
              end;
    let session := id ← parse_i64 (StepTarget.id target); planner (PlannerId.new id) in
    Some (is_some_and session (λ '(exited_at, closed_at),
            is_some closed_at || wrapper && is_some exited_at)).
Definition run_token_ended (principal : Principal) (status : option RunStatus) : bool :=
  bool_decide (Principal.role principal ∈ [ActorRole.Worker; ActorRole.Wrapper])
  && is_some (Principal.run_id principal)
  && negb (is_some_and status run_holds_token).

(** ** What the keys tell *)
Module TokenProofs.

(** A principal whose token a request may ask for. *)
Definition issuable (p : Principal) : Prop :=
  Principal.check p = Ok tt ∧ Principal.names_itself p = true ∧ Principal.role p ≠ ActorRole.Integrator.

(** What comes before the first colon or at sign. *)
Fixpoint head_of (s : string) : string :=
  match s with
  | EmptyString => EmptyString
  | String a s =>
      if Ascii.eqb a ":" || Ascii.eqb a "@" then EmptyString else String a (head_of s)
  end.
Definition headless (s : string) : bool := free_of ":" s && free_of "@" s.

Lemma head_of_app p s : headless p = true → head_of (p +:+ s) = p +:+ head_of s.
Proof.
  unfold headless. induction p as [|a p IH]; [done|]. rewrite !append_cons, !free_of_cons.
  intros Hp. bool_split. simpl.
  destruct (Ascii.eqb a ":") eqn:Hc; [done|]. destruct (Ascii.eqb a "@") eqn:Ha; [done|]. simpl.
  rewrite IH; [done|]. by rewrite andb_true_iff.
Qed.

Lemma headless_role (role : ActorRole) : headless (as_str role) = true.
Proof. by destruct role. Qed.

Lemma head_of_role (role : ActorRole) s :
  head_of s = EmptyString → head_of (as_str role +:+ s) = as_str role.
Proof. intros Hs. by rewrite head_of_app, Hs, append_nil_r by apply headless_role. Qed.

(** An actor id of a role: the role's name, and of all but an inbox an
    instance after a colon. *)
Definition of_role (role : ActorRole) (actor_id : string) : Prop :=
  (∃ rest, actor_id = as_str role +:+ String ":" rest)
  ∨ role = ActorRole.Inbox ∧ actor_id = as_str role.

Lemma of_role_instance role instance : of_role role (ActorContext.actor_id (ActorContext.instance role instance)).
Proof.
  left. exists instance. unfold ActorContext.instance, format. simpl. by rewrite append_nil_r.
Qed.

Lemma of_role_wrapper target : of_role ActorRole.Wrapper (wrapper_actor_id target).
Proof. unfold wrapper_actor_id. destruct (StepTarget.kind target); apply of_role_instance. Qed.
Lemma of_role_telemetry target : of_role ActorRole.ExecutorTelemetry (telemetry_actor_id target).
Proof. left. unfold telemetry_actor_id, format. simpl. eauto. Qed.

Lemma head_of_id role actor_id : of_role role actor_id → head_of actor_id = as_str role.
Proof.
  intros [[rest ->]|[_ ->]]; [by apply head_of_role|].
  rewrite <-(append_nil_r (as_str role)) at 1. by apply head_of_role.
Qed.
Lemma of_role_inj r1 r2 actor_id : of_role r1 actor_id → of_role r2 actor_id → r1 = r2.
Proof.
  intros H1%head_of_id H2%head_of_id. apply (as_str_inj (A:=ActorRole)). by rewrite <-H1, <-H2.
Qed.

Lemma issuable_of_role p : issuable p → of_role (Principal.role p) (Principal.actor_id p).
Proof.
  intros (Hcheck & Hnames & Hrole). unfold Principal.names_itself in Hnames.
  destruct (Principal.target p) as [target|] eqn:Htarget; cbn [is_some] in Hnames.
  - unfold Principal.check in Hcheck. rewrite Htarget in Hcheck.
    destruct (Principal.registration p) as [registration|].
    { destruct (Principal.role p); try discriminate Hcheck. done. }
    apply bind_Ok in Hcheck as ([] & _ & Hcheck).
    destruct (Principal.target_fits p target) eqn:Hfits; [|discriminate].
    unfold Principal.target_fits in Hfits. destruct (Principal.role p); try discriminate Hfits; bool_split.
    + match goal with H : Principal.actor_id p = _ |- _ => rewrite H end.
      left. unfold format. simpl. eauto.
    + match goal with H : Principal.actor_id p = _ |- _ => rewrite H end. apply of_role_wrapper.
    + match goal with H : Principal.actor_id p = _ |- _ => rewrite H end. apply of_role_telemetry.
  - destruct (strip_prefix (as_str (Principal.role p)) (Principal.actor_id p)) as [rest|] eqn:Hprefix;
      cbn [mbind option_bind] in Hnames.
    + apply strip_prefix_Some in Hprefix. destruct (strip_prefix ":" rest) as [instance|] eqn:Hcolon.
      * apply strip_prefix_Some in Hcolon as ->. left. by exists instance.
      * apply andb_true_iff in Hnames as [?%bool_decide_eq_true ?%bool_decide_eq_true]. by right.
    + apply andb_true_iff in Hnames as [?%bool_decide_eq_true ?%bool_decide_eq_true]. by right.
Qed.

(** A key is the actor id, with what tells a registration, a session or a
    landing's run apart after an at sign. *)
Lemma credential_key_actor p :
  ∃ rest, Principal.credential_key p = Principal.actor_id p +:+ rest ∧ head_of rest = EmptyString
  ∧ (Principal.registration p = None → Principal.session p = None → Principal.landing_run p = None →
     rest = EmptyString).
Proof.
  unfold Principal.credential_key.
  destruct (Principal.landing_run p); [eexists; split; [reflexivity|done]|].
  destruct (Principal.registration p); [eexists; split; [reflexivity|done]|].
  destruct (Principal.session p); [eexists; split; [reflexivity|done]|].
  exists EmptyString. by rewrite append_nil_r.
Qed.

Lemma head_of_key p : of_role (Principal.role p) (Principal.actor_id p) →
  head_of (Principal.credential_key p) = as_str (Principal.role p).
Proof.
  intros Hid. destruct (credential_key_actor p) as (rest & -> & Hrest & _).
  destruct Hid as [[instance ->]|[_ ->]]; [|by apply head_of_role].
  rewrite <-append_assoc. by apply head_of_role.
Qed.

Lemma key_role p q :
  of_role (Principal.role p) (Principal.actor_id p) → of_role (Principal.role q) (Principal.actor_id q) →
  Principal.credential_key p = Principal.credential_key q → Principal.role p = Principal.role q.
Proof.
  intros Hp Hq Heq. apply (f_equal head_of) in Heq. rewrite !head_of_key in Heq by done.
  by apply (as_str_inj (A:=ActorRole)) in Heq.
Qed.

Lemma checked_target p target :
  Principal.check p = Ok tt → Principal.role p ≠ ActorRole.Integrator → Principal.target p = Some target →
  Principal.target_fits p target = true ∧ Principal.registration p = None ∧ Principal.session p = None.
Proof.
  intros Hcheck Hrole Htarget. unfold Principal.check in Hcheck. rewrite Htarget in Hcheck.
  destruct (Principal.registration p) as [registration|].
  { destruct (Principal.role p); try discriminate Hcheck. done. }
  apply bind_Ok in Hcheck as ([] & Hsession & Hcheck).
  destruct (Principal.target_fits p target) eqn:Hfits; [|discriminate].
  split_and!; [done..|]. destruct (Principal.session p) as [session|]; [|done].
  unfold Principal.target_fits in Hfits. destruct (Principal.role p); discriminate.
Qed.

Lemma targeted_key p target :
  Principal.check p = Ok tt → Principal.role p ≠ ActorRole.Integrator → Principal.target p = Some target →
  Principal.credential_key p = Principal.actor_id p.
Proof.
  intros Hcheck Hrole Htarget. destruct (checked_target p target) as (_ & Hr & Hs); [done..|].
  destruct (credential_key_actor p) as (rest & -> & _ & Hrest). rewrite Hrest; [apply append_nil_r|done..|].
  unfold Principal.landing_run. by destruct (Principal.role p).
Qed.

(** The tokens of two principals that a request may name are kept apart by
    their keys: under one key is one role, and of a planner, a session's wrapper
    and an executor's telemetry one target.  So a request never takes the file
    of another role's token, or of another planner's, session's or executor's.
    A run's id is one without a colon, as the runtime's are. *)
Theorem key_tells_principal p q :
  issuable p → issuable q → Principal.credential_key p = Principal.credential_key q →
  Principal.role p = Principal.role q
  ∧ ∀ s t, Principal.target p = Some s → Principal.target q = Some t →
      PolicyProofs.plain_target s → PolicyProofs.plain_target t → s = t.
Proof.
  intros Hp Hq Hkey. pose proof (key_role p q (issuable_of_role p Hp) (issuable_of_role q Hq) Hkey) as Hrole.
  split; [done|]. intros s t Hs Ht Hplains Hplaint.
  destruct Hp as (Hp & _ & Hpi), Hq as (Hq & _ & Hqi).
  rewrite (targeted_key p s), (targeted_key q t) in Hkey by done.
  apply checked_target with (target := s) in Hp as (Hp & _); [|done..].
  apply checked_target with (target := t) in Hq as (Hq & _); [|done..].
  unfold Principal.target_fits in Hp, Hq. rewrite <-Hrole in Hq.
  destruct (Principal.role p); try discriminate Hp; bool_split; revert Hkey;
    repeat match goal with H : Principal.actor_id _ = _ |- _ => rewrite H; clear H end; intros Hkey.
  - unfold format in Hkey. simpl in Hkey. rewrite !append_nil_r in Hkey. injection Hkey as Hkey.
    destruct s, t. simpl in *. change (id = id0) in Hkey. by subst.
  - by apply PolicyProofs.wrapper_actor_id_inj in Hkey.
  - by apply PolicyProofs.telemetry_actor_id_inj in Hkey.
Qed.
End TokenProofs.

(** ** The theorem at concrete principals *)
Module TokenSample.
Import TokenProofs.
Definition planner5 : Principal := Principal.planner 5.
Lemma key_tells_principal_witness : Principal.role planner5 = ActorRole.Planner.
Proof.
  assert (issuable planner5) as H.
  { unfold issuable. split_and!; [reflexivity|reflexivity|discriminate]. }
  exact (proj1 (key_tells_principal planner5 (Principal.planner 5) H H eq_refl)).
Defined.
End TokenSample.
