(* ===== verification/TokenStore.v ===== *)
(** * The tokens' files, and the use cases that issue and revoke them

    The files of [src/src/infrastructure/queue_service.rs] (a record for each
    token that authenticates, under the digest of its value, and a file for
    each key, with the value of the token it holds), and on them [issue_token]
    and [revoke_token] of [src/src/application/queue_service.rs] and the token
    operations of [src/src/application/supervisor_service.rs].  The digest is
    the [sha2] crate's, an argument; what the queue and the host say in a
    request's transaction is its [Reading].  A file operation that fails is not
    modelled, a transaction that does not commit is. *)
From Stdlib Require Import Ascii.
From S2P Require Import Prelude Text Vocab Ids Errors Actors Authorization Tokens.

Class Digest := sha256_hex : string → string.

Module TokenRecord.
Record t : Set := mk {
  principal : Principal;
  issued_at : Z;
  issued_under : option LeaseToken;
  issued_by : option TokenIssuer;
}.
Definition held (self : t) : HeldToken := HeldToken.mk (principal self) (issued_by self) (issued_at self).
End TokenRecord.
Abbreviation TokenRecord := TokenRecord.t.

(** [service/tokens/], by the name of the record, and [service/credentials/]. *)
Module Files.
Record t : Set := mk {
  tokens : gmap string TokenRecord;
  credentials : gmap string string;
}.
#[global] Instance updatable : Updatable t := λ f, mk (tokens f) (credentials f).
Definition empty : t := mk ∅ ∅.
Definition remove_token (self : t) (name : string) : t := self <| tokens := delete name (tokens self) |>.
Definition remove_credential (self : t) (path : string) : t :=
  self <| credentials := delete path (credentials self) |>.
End Files.
Abbreviation Files := Files.t.

(** ** The files *)
Section Files.
Context `{Digest}.

Definition credential_path (key : string) : string := sha256_hex key.
Definition record_path (token : string) : string := sha256_hex token.
Definition credential_path_of (principal : Principal) : string :=
  credential_path (Principal.credential_key principal).

(** The records as [read_dir] lists them. *)
Definition records (files : Files) : list (string * TokenRecord) := map_to_list (Files.tokens files).
Definition principals (files : Files) : list Principal := TokenRecord.principal ∘ snd <$> records files.

Definition held (files : Files) (key : string) : option HeldToken :=
  token ← Files.credentials files !! credential_path key;
  TokenRecord.held <$> Files.tokens files !! record_path (trim token).

Definition revoke (files : Files) (actor_id : string) : Files * bool :=
  let path := credential_path actor_id in
  match Files.credentials files !! path with
  | None => (files, false)
  | Some token =>
      let name := record_path (trim token) in
      (Files.remove_credential (Files.remove_token files name) path,
       is_some (Files.tokens files !! name))
  end.

Definition revoke_sessions (files : Files) (actor_id : string) : Files :=
  foldl (λ files entry,
    if negb (bool_decide (Principal.actor_id (TokenRecord.principal entry.2) = actor_id))
       || is_none (Principal.session (TokenRecord.principal entry.2))
    then files
    else Files.remove_credential (Files.remove_token files entry.1)
           (credential_path_of (TokenRecord.principal entry.2)))
    files (records files).

Definition revoke_under (files : Files) (actor_id : string) (under : option LeaseToken) : Files * bool :=
  let path := credential_path actor_id in
  let value := trim <$> Files.credentials files !! path in
  let due entry :=
    bool_decide (Principal.actor_id (TokenRecord.principal entry.2) = actor_id)
    && is_none_or under (λ under, bool_decide (TokenRecord.issued_under entry.2 = Some under)) in
  let revoked := List.filter due (records files) in
  let files := foldl (λ files entry, Files.remove_token files entry.1) files revoked in
  (match value with
   | Some value =>
       if is_none (Files.tokens files !! record_path value)
       then Files.remove_credential files path else files
   | None => files
   end, match revoked with [] => false | _ => true end).

(** [drawn] is the value of the random bytes. *)
Definition write_token (files : Files) (principal : Principal) (issued_under : option LeaseToken)
    (issued_by : option TokenIssuer) (now : Z) (drawn : string) : Result Files :=
  _ ← Principal.check principal;
  let key := Principal.credential_key principal in
  let files :=
    match Principal.session principal with
    | Some _ => revoke_sessions files (Principal.actor_id principal)
    | None => files
    end in
  let files := (revoke files key).1 in
  let record := TokenRecord.mk principal now issued_under issued_by in
  Ok (Files.mk (<[record_path drawn := record]> (Files.tokens files))
        (<[credential_path key := drawn]> (Files.credentials files))).

Definition issue_by (files : Files) (principal : Principal) (issuer : TokenIssuer) (now : Z)
    (drawn : string) : Result Files :=
  write_token files principal None (Some issuer) now drawn.
Definition issue_under_by (files : Files) (principal : Principal) (issued_under : option LeaseToken)
    (issuer : option TokenIssuer) (now : Z) (drawn : string) : Files * Result Files :=
  let files := (revoke_under files (Principal.actor_id principal) None).1 in
  (files, write_token files principal issued_under issuer now drawn).

Definition held_records (files : Files) (principal : Principal) : list (string * HeldToken) :=
  (λ entry, (entry.1, TokenRecord.held entry.2)) <$>
    List.filter (λ entry, bool_decide (TokenRecord.principal entry.2 = principal)) (records files).

Definition sweep_one (files : Files) (name : string) (principal : Principal) : Files :=
  let path := credential_path_of principal in
  let files :=
    match Files.credentials files !! path with
    | Some token =>
        if bool_decide (record_path (trim token) = name) then Files.remove_credential files path
        else files
    | None => files
    end in
  Files.remove_token files name.

Definition hex_name (name : string) : bool :=
  (String.length name =? 64) && forallb hex_digit (bytes name).
Definition revoke_record (files : Files) (principal : Principal) (name : string) : Files * bool :=
  if negb (hex_name name) then (files, false)
  else if is_some_and (Files.tokens files !! name)
            (λ record, bool_decide (TokenRecord.principal record = principal))
  then (sweep_one files name principal, true)
  else (files, false).

Definition written_record (files : Files) (key : string) : option string :=
  (λ token, record_path (trim token)) <$> Files.credentials files !! credential_path key.

Definition lookup (files : Files) (token : string) : option Principal :=
  if negb (hex_name token) then None
  else TokenRecord.principal <$> Files.tokens files !! record_path token.

Definition telemetry_credential (files : Files) (target : StepTarget) : option string :=
  let path := credential_path (telemetry_actor_id target) in
  token ← Files.credentials files !! path;
  if is_some (lookup files (trim token)) then Some path else None.
Definition credential (files : Files) (actor_id : string) : option string :=
  let path := credential_path actor_id in
  if is_some (Files.credentials files !! path) then Some path else None.

(** The sweep of the control side, [ended] telling the principals that ended. *)
Definition sweep (files : Files) (ended : Principal → bool) (process_ended : SessionProcess → bool) :
    Files :=
  foldl (λ files entry,
    let principal := TokenRecord.principal entry.2 in
    if bool_decide (Principal.role principal = ActorRole.Supervisor)
       || negb (ended principal)
       || is_job (Principal.role principal)
          && negb (job_token_ended (TokenRecord.issued_by entry.2)
                     (λ issuer, TokenIssuer.there issuer (λ process, negb (process_ended process))
                                  (λ _, true))
                     JobState.MayRun)
    then files else sweep_one files entry.1 principal) files (records files).
End Files.

(** ** What the queue and the host say

    [holds_lease], [telemetry_target], [target_start] and [job_facts] are what
    the queue's tables hold, read in the request's transaction; [job_facts] is
    [None] when they cannot be read. *)
Module Reading.
Record t : Type := mk {
  now_ms : Z;
  unix_now : Z;
  registrations : list SupervisorRegistration;
  holds_lease : RunId → LeaseToken → bool;
  telemetry_target : StepTarget → TargetFacts;
  target_start : StepTarget → option TargetStart;
  job_facts : JobRecords → option (list JobRecord);
  alive : Z → bool;
  session_start : Z → option string;
  started_at : Z → option Z;
  processes : option (list HostProcess);
  own : Z;
  drawn : string;
  commits : bool;
}.
Definition read_process (self : t) (pid : Z) : bool * option string :=
  (alive self pid, if alive self pid then session_start self pid else None).
Definition session_ended (self : t) (session : SessionProcess) : bool :=
  let '(alive, start) := read_process self (SessionProcess.pid session) in
  SessionProcess.ended session alive start.
Definition process_of (self : t) (pid : Z) : option SessionProcess :=
  SessionProcess.mk pid <$> session_start self pid.
Definition process_started_by_ended (self : t) (pid by_ : Z) : bool :=
  started_by_ended (alive self pid) (if alive self pid then started_at self pid else None) by_.

Definition registered (self : t) (token : LeaseToken) : bool :=
  existsb (λ registration, bool_decide (SupervisorRegistration.token registration = token))
    (registrations self).
Definition job (self : t) (held : HeldToken) (starting : option TokenIssuer) : JobState :=
  let principal := HeldToken.principal held in
  match match job_records_of principal with
        | None => Some []
        | Some records => job_facts self records
        end with
  | None => JobState.MayRun
  | Some records =>
      match job_records_ended records starting (now_ms self) (alive self) with
      | Some true => JobState.Ended
      | Some false => JobState.MayRun
      | None =>
          JobState.Unrecorded
            (may_have_asked (Principal.role principal)
               (TokenIssuer.parent <$> HeldToken.issued_by held) (HeldToken.issued_at held)
               (registrations self) (alive self) (processes self) (own self))
      end
  end.
Definition parent_there (self : t) (kept : TokenIssuer) : bool :=
  TokenIssuer.there kept (λ process, negb (session_ended self process)) (registered self).

Definition is_open_planner (facts : TargetFacts) : bool :=
  match facts with TargetFacts.OpenPlanner => true | _ => false end.
Definition is_ended (facts : TargetFacts) : bool :=
  match facts with TargetFacts.Ended => true | _ => false end.
Definition facts (self : t) (held : IssueHeld) : HeldFacts :=
  let '(facts, lease) :=
    match held with
    | IssueHeld.Lease run lease =>
        (HeldFacts.default <| HeldFacts.leased := holds_lease self run lease |>, Some lease)
    | IssueHeld.OpenPlanner planner lease =>
        let target := StepTarget.of_ TargetKind.Planner planner in
        (HeldFacts.default
           <| HeldFacts.planner_open := is_open_planner (telemetry_target self target) |>, Some lease)
    | IssueHeld.Registered lease => (HeldFacts.default, Some lease)
    | IssueHeld.OpenTarget target registration =>
        (HeldFacts.default
           <| HeldFacts.target_open := negb (is_ended (telemetry_target self target)) |>,
         registration)
    | IssueHeld.Nothing | IssueHeld.Registration _ => (HeldFacts.default, None)
    end in
  match lease with
  | None => facts
  | Some lease =>
      facts <| HeldFacts.registration_expired :=
        (λ registration, heartbeat_expired registration (now_ms self / 1000))
        <$> List.find (λ registration,
              bool_decide (SupervisorRegistration.token registration = lease)) (registrations self) |>
  end.
Definition unheld (self : t) (held : IssueHeld) : option string := not_held held (facts self held).
End Reading.
Abbreviation Reading := Reading.t.

(** ** The service *)
Module Denial.
Record t : Set := mk {
  refused : AuthorizationError;
  resource : Resource;
  why : option (string * string);
}.
End Denial.
Abbreviation Denial := Denial.t.

Module Service.
Record t : Set := mk { files : Files; denials : list Denial }.
#[global] Instance updatable : Updatable t := λ s, mk (files s) (denials s).
Definition record_denial (self : t) (denial : Denial) : t :=
  self <| denials := denials self ++ [denial] |>.
End Service.
Abbreviation Service := Service.t.

Module ServiceError.
Inductive t : Set :=
  | BadParams (why : string)
  | BadPrincipal (error : DomainError)
  | BadOperation (why : string)
  | Denied (refused : AuthorizationError) (because : option string)
  | NotHeld (why : string)
  | TelemetryRefused (why : string)
  | Replacing (why : string)
  | Files (error : DomainError)
  | NoFile (key : string)
  | Uncommitted.
End ServiceError.
Abbreviation ServiceError := ServiceError.t.

Module Issued.
Record t : Set := mk { file : string; held : bool }.
Definition new (file : string) : t := mk file false.
End Issued.
Abbreviation Issued := Issued.t.

Definition gate (service : Service) (actor : ActorContext) (capability : Capability)
    (resource : Resource) : Service * result ServiceError unit :=
  match authorize actor capability resource with
  | Ok _ => (service, Ok tt)
  | Err error =>
      (Service.record_denial service (Denial.mk error resource None),
       Err (ServiceError.Denied error None))
  end.
Definition refuse_recorded {A} (service : Service) (actor : ActorContext) (capability : Capability)
    (resource : Resource) (reason : DenyReason) (why : string) : Service * result ServiceError A :=
  let refused := AuthorizationError.mk (ActorContext.role actor) capability reason in
  let key := if bool_decide (reason = DenyReason.NotHeld) then "not_held" else "why" in
  (Service.record_denial service (Denial.mk refused resource (Some (key, why))),
   Err (ServiceError.Denied refused (Some why))).

Section Service.
Context `{Digest}.

Definition files_result {A} (r : Result A) : result ServiceError A :=
  match r with Ok a => Ok a | Err error => Err (ServiceError.Files error) end.

(** [issuing] with its undo ([issuing_undone]): the files are written before
    the transaction commits, and the token written is revoked by its record when
    it does not. *)
Definition issuing_undone {A} (reading : Reading) (files : Files) (held : IssueHeld)
    (issue : Files → Files * result ServiceError (A * option string)) (undo : Files → string → Files) :
    Files * result ServiceError A :=
  match Reading.unheld reading held with
  | Some why => (files, Err (ServiceError.NotHeld why))
  | None =>
      match issue files with
      | (files, Err error) => (files, Err error)
      | (files, Ok (value, wrote)) =>
          if Reading.commits reading then (files, Ok value)
          else
            (match wrote with Some record => undo files record | None => files end,
             Err ServiceError.Uncommitted)
      end
  end.

(** [issue_telemetry_as]. *)
Definition issue_telemetry_as (reading : Reading) (files : Files) (target : StepTarget)
    (task : option TaskId) (issued_under : option LeaseToken) (issuer : TokenIssuer) :
    Files * result ServiceError string :=
  let principal := Principal.telemetry target task in
  match issue_under_by files principal issued_under (Some issuer) (Reading.unix_now reading)
          (Reading.drawn reading) with
  | (files, Err error) => (files, Err (ServiceError.Files error))
  | (_, Ok files) => (files, Ok (credential_path_of principal))
  end.

(** What an issue of [child] does in its transaction. *)
Definition issue_in (reading : Reading) (parent child : Principal) (process : option Z)
    (issuer : TokenIssuer) (files : Files) : Files * result ServiceError (Issued * option string) :=
  let key := Principal.credential_key child in
  let written files issued :=
    (files, Ok (issued, if Issued.held issued then None else written_record files key)) in
  match Principal.target child, bool_decide (Principal.role child = ActorRole.ExecutorTelemetry) with
  | Some target, true =>
      match telemetry_target_refusal parent process (Reading.target_start reading target)
              (is_some (telemetry_credential files target)) with
      | Some why => (files, Err (ServiceError.TelemetryRefused why))
      | None =>
          match issue_telemetry_as reading files target (Principal.task_id child) None issuer with
          | (files, Err error) => (files, Err error)
          | (files, Ok file) => written files (Issued.new file)
          end
      end
  | _, _ =>
      let kept := held files key in
      match reissue child issuer (HeldToken.issued_by <$> kept) (Reading.parent_there reading)
              match kept with
              | Some held => Reading.job reading held (Some issuer)
              | None => JobState.MayRun
              end with
      | Reissue.Issue =>
          match issue_by files child issuer (Reading.unix_now reading) (Reading.drawn reading) with
          | Err error => (files, Err (ServiceError.Files error))
          | Ok files => written files (Issued.new (credential_path_of child))
          end
      | Reissue.Held =>
          match credential files key with
          | Some file => written files (Issued.mk file true)
          | None => (files, Err (ServiceError.NoFile key))
          end
      | Reissue.Refused why => (files, Err (ServiceError.Replacing why))
      end
  end.

(** A refusal of a token's transaction, recorded. *)
Definition recorded {A} (service : Service) (actor : ActorContext) (capability : Capability)
    (resource : Resource) (answer : Files * result ServiceError A) : Service * result ServiceError A :=
  let service := service <| Service.files := answer.1 |> in
  match answer.2 with
  | Err (ServiceError.TelemetryRefused why) | Err (ServiceError.Replacing why) =>
      refuse_recorded service actor capability resource DenyReason.Resource why
  | Err (ServiceError.NotHeld why) =>
      refuse_recorded service actor capability resource DenyReason.NotHeld why
  | answered => (service, answered)
  end.

Definition issuer_of (reading : Reading) (parent : Principal) (process : option Z) : TokenIssuer :=
  TokenIssuer.of_ parent (process ≫= Reading.process_of reading).

Definition issue_token (reading : Reading) (service : Service) (parent child : Principal)
    (process : option Z) : Service * result ServiceError Issued :=
  match Principal.check child with
  | Err error => (service, Err (ServiceError.BadPrincipal error))
  | Ok _ =>
      if negb (Principal.names_itself child)
      then
        (service, Err (ServiceError.BadParams
           (format ["issue_token's principal: the actor id "; Principal.actor_id child;
                    " is not one of a "; as_str (Principal.role child)])))
      else
        let actor := Principal.actor parent in
        let resource := Resource.Principal (Principal.role child) in
        match gate service actor C.TokenIssue resource with
        | (service, Err error) => (service, Err error)
        | (service, Ok _) =>
            match (if bool_decide (Principal.role child = ActorRole.ExecutorTelemetry)
                   then telemetry_issue_refusal (Principal.role parent) child else None) with
            | Some why => refuse_recorded service actor C.TokenIssue resource DenyReason.Resource why
            | None =>
                recorded service actor C.TokenIssue resource
                  (issuing_undone reading (Service.files service) (issue_held parent child)
                     (issue_in reading parent child process (issuer_of reading parent process))
                     (λ files record, (revoke_record files child record).1))
            end
        end
  end.

(** ** The supervisor's token operations ([tokens]) *)
Definition NOT_OWN_LEASE : string := "the lease token named is not the supervisor principal's registration".

(** Under which the telemetry of [target] is issued: the run's lease, or the
    supervisor's registration. *)
Definition telemetry_held (principal : Principal) (registration : LeaseToken) (target : StepTarget)
    (issued_under : option LeaseToken) : (string * DenyReason) + IssueHeld :=
  match issued_under, StepTarget.run_id target with
  | Some lease, run =>
      if bool_decide (lease = registration)
      then inr (match run with
                | Some run => IssueHeld.Lease run lease
                | None => IssueHeld.Registered lease
                end)
      else inl (NOT_OWN_LEASE, DenyReason.NotHeld)
  | None, Some _ =>
      inl ("a run's executor's telemetry token is issued under the run's lease", DenyReason.NotHeld)
  | None, None => inr (IssueHeld.Registered registration)
  end.
Definition leaseless_starter_refusal (reading : Reading) (principal : Principal) (process : option Z)
    (issued_under : option LeaseToken) (target : StepTarget) : option string :=
  if is_some issued_under then None
  else telemetry_starter_refusal principal process (Reading.target_start reading target).

Definition issue_telemetry_in (reading : Reading) (principal : Principal) (target : StepTarget)
    (task : option TaskId) (issued_under : option LeaseToken) (process : option Z)
    (issuer : TokenIssuer) (files : Files) : Files * result ServiceError (string * option string) :=
  let child := Principal.telemetry target task in
  match leaseless_starter_refusal reading principal process issued_under target with
  | Some why => (files, Err (ServiceError.TelemetryRefused why))
  | None =>
      let held := HeldToken.issued_by <$> held files (Principal.credential_key child) in
      match reissue child issuer held (Reading.parent_there reading) JobState.MayRun with
      | Reissue.Refused why => (files, Err (ServiceError.Replacing why))
      | _ =>
          match issue_telemetry_as reading files target task issued_under issuer with
          | (files, Err error) => (files, Err error)
          | (files, Ok file) => (files, Ok (file, written_record files (Principal.credential_key child)))
          end
      end
  end.

Definition issue_telemetry (reading : Reading) (service : Service) (principal : Principal)
    (registration : LeaseToken) (target : StepTarget) (task : option TaskId)
    (issued_under : option LeaseToken) (process : option Z) : Service * result ServiceError string :=
  let actor := Principal.actor principal in
  let resource := Resource.Principal ActorRole.ExecutorTelemetry in
  let child := Principal.telemetry target task in
  match telemetry_held principal registration target issued_under with
  | inl (why, reason) => refuse_recorded service actor C.TokenIssue resource reason why
  | inr held =>
      recorded service actor C.TokenIssue resource
        (issuing_undone reading (Service.files service) held
           (issue_telemetry_in reading principal target task issued_under process
              (issuer_of reading principal process))
           (λ files record, (revoke_record files child record).1))
  end.

(** A transaction that revokes: what it removed stays removed though it does
    not commit. *)
Definition revoking (reading : Reading) (answer : Files * result ServiceError bool) :
    Files * result ServiceError bool :=
  match answer with
  | (files, Ok revoked) => (files, if Reading.commits reading then Ok revoked else Err ServiceError.Uncommitted)
  | refused => refused
  end.

Definition revoke_token_in (reading : Reading) (issuer : TokenIssuer) (actor_id : string)
    (files : Files) : Files * result ServiceError bool :=
  match held files actor_id ≫= λ held,
          revoke_refusal held (TokenIssuer.parent issuer) (Reading.parent_there reading)
            (Reading.job reading held None) with
  | Some why => (files, Err (ServiceError.Replacing why))
  | None => let '(files, revoked) := revoke files actor_id in (files, Ok revoked)
  end.
Definition revoke_token (reading : Reading) (service : Service) (principal : Principal)
    (actor_id : string) (process : option Z) : Service * result ServiceError bool :=
  if negb (free_of "@"%char actor_id) || negb (supervisor_revokes actor_id)
  then (service, Err (ServiceError.BadOperation
                        (format ["a supervisor revokes no token of "; actor_id])))
  else
    let resource :=
      match held (Service.files service) actor_id with
      | Some held => Resource.Principal (Principal.role (HeldToken.principal held))
      | None => Resource.Queue
      end in
    recorded service (Principal.actor principal) C.TokenIssue resource
      (revoking reading
         (revoke_token_in reading (issuer_of reading principal process) actor_id (Service.files service))).

(** Whether a record of [principal] may go at the request of [parent]. *)
Definition record_ended (reading : Reading) (principal : Principal) (parent : string)
    (held : HeldToken) : bool :=
  let there := Reading.parent_there reading in
  let job := Reading.job reading held None in
  match supervisor_token_ended held (Reading.registered reading) (Reading.session_ended reading)
          (Reading.process_started_by_ended reading) with
  | Some signed_in => signed_in
  | None =>
      is_none_or (Principal.session principal) (Reading.session_ended reading)
      && (negb (is_job (Principal.role principal))
          || job_token_ended (HeldToken.issued_by held) there job)
      && is_none (revoke_refusal held parent there job)
  end.
Definition revoke_principal_in (reading : Reading) (issuer : TokenIssuer) (principal : Principal)
    (files : Files) : Files * bool :=
  foldl (λ state entry,
    if record_ended reading principal (TokenIssuer.parent issuer) entry.2
    then let '(files, removed) := revoke_record state.1 principal entry.1 in (files, removed || state.2)
    else state) (files, false) (held_records files principal).
Definition revoke_principal (reading : Reading) (service : Service) (caller principal : Principal)
    (process : option Z) : Service * result ServiceError bool :=
  match swept_token_key principal with
  | None =>
      (service, Err (ServiceError.BadOperation
         (format ["a supervisor revokes no token of "; Principal.actor_id principal])))
  | Some _ =>
      let '(files, revoked) :=
        revoke_principal_in reading (issuer_of reading caller process) principal (Service.files service) in
      recorded service (Principal.actor caller) C.TokenIssue Resource.Queue (revoking reading (files, Ok revoked))
  end.

Definition revoke_telemetry_in (reading : Reading) (issuer : TokenIssuer) (target : StepTarget)
    (issued_under : option LeaseToken) (files : Files) : Files * result ServiceError bool :=
  let key := Principal.credential_key (Principal.telemetry target None) in
  match held files key ≫= λ held,
          revoke_refusal held (TokenIssuer.parent issuer) (Reading.parent_there reading) JobState.MayRun with
  | Some why => (files, Err (ServiceError.Replacing why))
  | None =>
      let '(files, revoked) := revoke_under files (telemetry_actor_id target) issued_under in
      (files, Ok revoked)
  end.
Definition revoke_telemetry (reading : Reading) (service : Service) (principal : Principal)
    (target : StepTarget) (issued_under : option LeaseToken) (process : option Z) :
    Service * result ServiceError bool :=
  recorded service (Principal.actor principal) C.TokenIssue (Resource.Principal ActorRole.ExecutorTelemetry)
    (revoking reading
       (revoke_telemetry_in reading (issuer_of reading principal process) target issued_under
          (Service.files service))).

(** [sign_out], and [end_landing] of the supervisor: the token of a key of its
    own. *)
Definition sign_out (service : Service) (principal : Principal) : Service * bool :=
  let '(files, revoked) := revoke (Service.files service) (Principal.credential_key principal) in
  (service <| Service.files := files |>, revoked).
Definition supervisor_pid (principal : Principal) : option Z :=
  strip_prefix "supervisor:" (Principal.actor_id principal) ≫= parse_u32.
Definition end_landing (service : Service) (principal : Principal) (registration : LeaseToken)
    (run : RunId) : Service * bool :=
  let landing := Principal.integrator run registration (unwrap_or (supervisor_pid principal) 0%Z) in
  let '(files, revoked) := revoke (Service.files service) (Principal.credential_key landing) in
  (service <| Service.files := files |>, revoked).

(** The token of a landing: [begun] is what the transaction that takes the
    slot says, the landing's [integration_started] or why it did not begin. *)
Definition begin_landing (reading : Reading) (service : Service) (principal : Principal)
    (registration : LeaseToken) (run : RunId) (begun : result ServiceError EventId)
    (process : option Z) : Service * result ServiceError string :=
  let landing := Principal.integrator run registration (unwrap_or (supervisor_pid principal) 0%Z) in
  match Principal.landing_run landing with
  | None =>
      (service, Err (ServiceError.BadOperation (format [Principal.actor_id landing; " lands no run"])))
  | Some _ =>
      match begun with
      | Err (ServiceError.NotHeld why) =>
          refuse_recorded service (Principal.actor principal) C.TokenIssue
            (Resource.Principal ActorRole.Integrator) DenyReason.NotHeld why
      | Err error => (service, Err error)
      | Ok started =>
          match issue_by (Service.files service) (Principal.of_landing landing started)
                  (issuer_of reading principal process) (Reading.unix_now reading)
                  (Reading.drawn reading) with
          | Err error => (service, Err (ServiceError.Files error))
          | Ok files =>
              if Reading.commits reading
              then (service <| Service.files := files |>, Ok (credential_path_of landing))
              else
                (service <| Service.files := (revoke files (Principal.credential_key landing)).1 |>,
                 Err ServiceError.Uncommitted)
          end
      end
  end.

(** The revocation at the request of [up] and [down] ([revoke_token_of]). *)
Definition revoke_token_of_in (reading : Reading) (child : Principal) (files : Files) :
    Files * result ServiceError bool :=
  let key := Principal.credential_key child in
  match held files key with
  | Some held =>
      if bool_decide (HeldToken.principal held = child)
      then match registration_end_refusal held (Reading.registered reading) with
           | Some why => (files, Err (ServiceError.Replacing why))
           | None => let '(files, revoked) := revoke files key in (files, Ok revoked)
           end
      else (files, Ok false)
  | None => (files, Ok false)
  end.
Definition revoke_token_of (reading : Reading) (service : Service) (caller child : Principal) :
    Service * result ServiceError bool :=
  let actor := Principal.actor caller in
  match gate service actor C.ServiceLifecycle Resource.Queue with
  | (service, Err error) => (service, Err error)
  | (service, Ok _) =>
      recorded service actor C.ServiceLifecycle (Resource.Principal (Principal.role child))
        (revoking reading (revoke_token_of_in reading child (Service.files service)))
  end.
End Service.
