(* ===== verification/TokenFiles.v ===== *)
(** * The tokens' files hold together

    The records and the files of [TokenStore.v]: what each operation on them
    removes and adds, and that a token that authenticates stays the one its
    key's file holds.  The requests of the service are in [TokenTable.v]. *)
From S2P Require Import Prelude Text Vocab Ids Errors Actors Authorization Tokens TokenStore.
Import TokenProofs.

Section Files.
Context `{Digest}.

(** The random bytes drawn are no token's. *)
Definition fresh (reading : Reading) (files : Files) : Prop :=
  Files.tokens files !! record_path (Reading.drawn reading) = None
  ∧ trim (Reading.drawn reading) = Reading.drawn reading.

(** ** The records and the files agree *)
Record files_ok (files : Files) : Prop := {
  file_recorded : ∀ path token, Files.credentials files !! path = Some token →
    ∃ record, Files.tokens files !! record_path (trim token) = Some record
    ∧ credential_path_of (TokenRecord.principal record) = path;
  record_filed : ∀ name record, Files.tokens files !! name = Some record →
    ∃ token, Files.credentials files !! credential_path_of (TokenRecord.principal record) = Some token
    ∧ record_path (trim token) = name;
  record_own : ∀ name record, Files.tokens files !! name = Some record →
    Principal.check (TokenRecord.principal record) = Ok tt
    ∧ of_role (Principal.role (TokenRecord.principal record))
        (Principal.actor_id (TokenRecord.principal record));
  inbox_actor : ∀ name record, Files.tokens files !! name = Some record →
    Principal.role (TokenRecord.principal record) = ActorRole.Inbox →
    Principal.actor_id (TokenRecord.principal record) = as_str ActorRole.Inbox;
  one_inbox : ∀ n1 r1 n2 r2, Files.tokens files !! n1 = Some r1 → Files.tokens files !! n2 = Some r2 →
    Principal.role (TokenRecord.principal r1) = ActorRole.Inbox →
    Principal.role (TokenRecord.principal r2) = ActorRole.Inbox → n1 = n2;
}.

Lemma empty_ok : files_ok Files.empty.
Proof. split; unfold Files.empty; simpl; intros *; rewrite lookup_empty; discriminate. Qed.

Lemma same_path files n1 r1 n2 r2 :
  files_ok files → Files.tokens files !! n1 = Some r1 → Files.tokens files !! n2 = Some r2 →
  credential_path_of (TokenRecord.principal r1) = credential_path_of (TokenRecord.principal r2) → n1 = n2.
Proof.
  intros Hok H1 H2 Hpath. apply record_filed in H1 as (t1 & Hc1 & <-); [|done].
  apply record_filed in H2 as (t2 & Hc2 & <-); [|done]. rewrite Hpath in Hc1. congruence.
Qed.

Lemma held_record files name record :
  files_ok files → Files.tokens files !! name = Some record →
  held files (Principal.credential_key (TokenRecord.principal record)) = Some (TokenRecord.held record).
Proof.
  intros Hok Hr. destruct (record_filed _ Hok _ _ Hr) as (token & Hc & Hname).
  unfold held. unfold credential_path_of in Hc. rewrite Hc. simpl. rewrite Hname, Hr. done.
Qed.

(** *** A record and its file removed *)
Definition drop (files : Files) (name : string) (record : TokenRecord) : Files :=
  Files.remove_credential (Files.remove_token files name)
    (credential_path_of (TokenRecord.principal record)).

Definition removes (gone : string → TokenRecord → Prop) (files files' : Files) : Prop :=
  files_ok files' ∧ Files.tokens files' ⊆ Files.tokens files
  ∧ ∀ name record, Files.tokens files !! name = Some record →
      Files.tokens files' !! name = Some record ∨ gone name record.

Lemma removes_refl gone files : files_ok files → removes gone files files.
Proof. intros Hok. split_and!; [done..|]. auto. Qed.

Lemma removes_trans gone files1 files2 files3 :
  removes gone files1 files2 → removes gone files2 files3 → removes gone files1 files3.
Proof.
  intros (_ & Hs1 & Hg1) (Hok & Hs2 & Hg2). split_and!; [done|by etrans|].
  intros name record Hr. destruct (Hg1 _ _ Hr) as [Hr2|]; [|by right]. by apply Hg2.
Qed.

Lemma drop_ok files name record :
  files_ok files → Files.tokens files !! name = Some record → files_ok (drop files name record).
Proof.
  intros Hok Hr. destruct (record_filed _ Hok _ _ Hr) as (token & Hc & Hname).
  split; unfold drop; simpl.
  - intros path other [Hne Ho]%lookup_delete_Some.
    destruct (file_recorded _ Hok _ _ Ho) as (rec & Hrec & Hpath). exists rec. split; [|done].
    apply lookup_delete_Some. split; [|done]. intros ->. congruence.
  - intros other rec [Hne Ho]%lookup_delete_Some.
    destruct (record_filed _ Hok _ _ Ho) as (t & Ht & Htn). exists t. split; [|done].
    apply lookup_delete_Some. split; [|done]. intros Hpath. apply Hne.
    by eapply same_path.
  - intros other rec [_ Ho]%lookup_delete_Some. by apply (record_own _ Hok other).
  - intros other rec [_ Ho]%lookup_delete_Some. by apply (inbox_actor _ Hok other).
  - intros n1 r1 n2 r2 [_ H1]%lookup_delete_Some [_ H2]%lookup_delete_Some. by apply (one_inbox _ Hok _ r1 _ r2).
Qed.

Lemma drop_removes gone files name record :
  files_ok files → Files.tokens files !! name = Some record → gone name record →
  removes gone files (drop files name record).
Proof.
  intros Hok Hr Hgone. split_and!; [by apply drop_ok|apply delete_subseteq|].
  intros other rec Ho. simpl. destruct (decide (other = name)) as [->|Hne]; [right; congruence|].
  left. by rewrite lookup_delete_ne.
Qed.

(** A pass over records of the files, each left or dropped. *)
Lemma pass_removes {A} (files_of : A → Files) (f : A → string * TokenRecord → A) gone l a :
  files_ok (files_of a) → NoDup l.*1 →
  (∀ e, e ∈ l → Files.tokens (files_of a) !! e.1 = Some e.2) →
  (∀ a e, e ∈ l → files_ok (files_of a) → Files.tokens (files_of a) !! e.1 = Some e.2 →
     files_of (f a e) = files_of a
     ∨ gone e.1 e.2 ∧ files_of (f a e) = drop (files_of a) e.1 e.2) →
  removes gone (files_of a) (files_of (foldl f a l)).
Proof.
  revert a. induction l as [|e l IH]; intros a Hok Hdup Hin Hf; [by apply removes_refl|].
  simpl in Hdup. apply NoDup_cons in Hdup as [Hnew Hdup].
  pose proof (Hin e ltac:(by left)) as He. simpl.
  assert (∀ e', e' ∈ l → e'.1 ≠ e.1) as Hne
    by (intros e' He' Heq; apply Hnew; rewrite <-Heq; by apply (list_elem_of_fmap_2 fst)).
  destruct (Hf a e ltac:(by left) Hok He) as [Heq|[Hgone Heq]].
  - rewrite <-Heq. apply IH; rewrite ?Heq; [done..|intros; apply Hin; by right|].
    intros; apply Hf; [by right|done..].
  - apply removes_trans with (files_of (f a e)); [rewrite Heq; by apply drop_removes|].
    apply IH; rewrite ?Heq; [by apply drop_ok|done| |intros; apply Hf; [by right|done..]].
    intros e' He'. simpl. rewrite lookup_delete_ne by (intros Hn; by apply (Hne e')).
    apply Hin. by right.
Qed.

(** What a pass removes stays removed. *)
Lemma pass_drops (f : Files → string * TokenRecord → Files) (due : string * TokenRecord → Prop) l files :
  (∀ files e, Files.tokens (f files e) ⊆ Files.tokens files) →
  (∀ files e, due e → Files.tokens (f files e) !! e.1 = None) →
  ∀ e, e ∈ l → due e → Files.tokens (foldl f files l) !! e.1 = None.
Proof.
  intros Hsub Hdue. assert (∀ l files, Files.tokens (foldl f files l) ⊆ Files.tokens files) as Hall.
  { clear l files. induction l as [|e l IH]; intros files; [done|]. simpl. etrans; [apply IH|apply Hsub]. }
  revert files. induction l as [|e' l IH]; intros files e; [by intros []%not_elem_of_nil|].
  intros [->|He]%elem_of_cons Hd; simpl; [|by apply IH].
  destruct (Files.tokens (foldl f (f files e') l) !! e'.1) eqn:Hr; [|done].
  pose proof (lookup_weaken _ _ _ _ Hr (Hall l (f files e'))) as Hs. by rewrite Hdue in Hs.
Qed.

Lemma records_entry files e : e ∈ records files → Files.tokens files !! e.1 = Some e.2.
Proof. destruct e. apply elem_of_map_to_list. Qed.
Lemma records_nodup files : NoDup (records files).*1.
Proof. apply NoDup_fst_map_to_list. Qed.
Lemma filter_nodup {A B} (f : A * B → bool) l : NoDup l.*1 → NoDup (List.filter f l).*1.
Proof.
  induction l as [|e l IH]; simpl; [done|]. intros [Hnew Hdup]%NoDup_cons.
  destruct (f e); simpl; [|auto]. apply NoDup_cons. split; [|auto].
  intros (e' & Heq & [He' _]%list_elem_of_In%filter_In)%list_elem_of_fmap.
  apply Hnew. rewrite Heq. apply (list_elem_of_fmap_2 fst). by apply list_elem_of_In.
Qed.

(** *** What each operation removes *)
Lemma revoke_removes gone files key :
  files_ok files →
  (∀ name record, Files.tokens files !! name = Some record →
     credential_path_of (TokenRecord.principal record) = credential_path key → gone name record) →
  removes gone files (revoke files key).1
  ∧ Files.credentials (revoke files key).1 !! credential_path key = None.
Proof.
  intros Hok Hgone. unfold revoke. destruct (Files.credentials files !! _) as [token|] eqn:Hc; simpl.
  - destruct (file_recorded _ Hok _ _ Hc) as (record & Hr & Hpath). split; [|by apply lookup_delete_eq].
    rewrite <-Hpath. apply (drop_removes gone); [done..|]. by apply Hgone.
  - split; [by apply removes_refl|done].
Qed.

Lemma revoke_sessions_removes gone files actor_id :
  files_ok files →
  (∀ name record, Files.tokens files !! name = Some record →
     Principal.actor_id (TokenRecord.principal record) = actor_id →
     is_some (Principal.session (TokenRecord.principal record)) = true → gone name record) →
  removes gone files (revoke_sessions files actor_id)
  ∧ ∀ name record, Files.tokens (revoke_sessions files actor_id) !! name = Some record →
      Principal.actor_id (TokenRecord.principal record) = actor_id →
      is_some (Principal.session (TokenRecord.principal record)) = false.
Proof.
  intros Hok Hgone.
  set (due := λ name record, Principal.actor_id (TokenRecord.principal record) = actor_id
    ∧ is_some (Principal.session (TokenRecord.principal record)) = true
    ∧ Files.tokens files !! name = Some record).
  assert (removes due files (revoke_sessions files actor_id)) as Hr.
  { unfold revoke_sessions. apply (pass_removes id); [done|apply records_nodup|apply records_entry|].
    intros a e He%records_entry Ha Hr. case_bool_decide as Hid; simpl; [|by left].
    destruct (Principal.session _) as [session|] eqn:Hs; simpl; [|by left].
    right. split; [|done]. unfold due. by rewrite Hs. }
  pose proof Hr as (Hok' & Hsub & Hg). split.
  - split_and!; [done..|].
    intros name record Hrec. destruct (Hg _ _ Hrec) as [?|(? & ? & ?)]; [by left|right; by apply Hgone].
  - intros name record Hrec Hid. destruct (is_some _) eqn:Hs; [|done].
    pose proof (lookup_weaken _ _ _ _ Hrec Hsub) as He.
    assert (Files.tokens (revoke_sessions files actor_id) !! name = None) as Hnone; [|by rewrite Hrec in Hnone].
    unfold revoke_sessions.
    apply (pass_drops _ (λ e, Principal.actor_id (TokenRecord.principal e.2) = actor_id
      ∧ is_some (Principal.session (TokenRecord.principal e.2)) = true)) with (e := (name, record));
      [| |by apply elem_of_map_to_list|done].
    + intros fs e. destruct (_ || _); [done|]. apply delete_subseteq.
    + intros fs e [Hide Hse]. rewrite bool_decide_true by done.
      destruct (Principal.session (TokenRecord.principal e.2)); [|done]. apply lookup_delete_eq.
Qed.

Lemma sweep_one_drop files name record :
  files_ok files → Files.tokens files !! name = Some record →
  sweep_one files name (TokenRecord.principal record) = drop files name record.
Proof.
  intros Hok Hr. destruct (record_filed _ Hok _ _ Hr) as (token & Hc & Hname).
  unfold sweep_one. rewrite Hc, bool_decide_true by done. done.
Qed.

Lemma revoke_record_removes gone files principal name :
  files_ok files →
  (∀ record, Files.tokens files !! name = Some record → TokenRecord.principal record = principal →
     gone name record) →
  removes gone files (revoke_record files principal name).1.
Proof.
  intros Hok Hgone. unfold revoke_record. destruct (hex_name name); simpl; [|by apply removes_refl].
  destruct (Files.tokens files !! name) as [record|] eqn:Hr; simpl; [|by apply removes_refl].
  case_bool_decide as Hp; simpl; [|by apply removes_refl]. subst principal.
  rewrite sweep_one_drop by done. apply drop_removes; auto.
Qed.

Lemma telemetry_key p target :
  Principal.check p = Ok tt → of_role (Principal.role p) (Principal.actor_id p) →
  Principal.actor_id p = telemetry_actor_id target →
  Principal.role p = ActorRole.ExecutorTelemetry ∧ Principal.credential_key p = Principal.actor_id p.
Proof.
  intros Hcheck Hid Hactor.
  assert (Principal.role p = ActorRole.ExecutorTelemetry) as Hrole.
  { eapply of_role_inj; [done|]. rewrite Hactor. apply of_role_telemetry. }
  split; [done|]. destruct (credential_key_actor p) as (rest & -> & _ & Hrest).
  unfold Principal.check in Hcheck. rewrite Hrole in Hcheck.
  rewrite Hrest; [apply append_nil_r| | |unfold Principal.landing_run; by rewrite Hrole].
  - by destruct (Principal.registration p).
  - destruct (Principal.registration p); [done|]. by destruct (Principal.session p).
Qed.

Lemma remove_each n l files :
  (∀ e : string * TokenRecord, e ∈ l → e.1 = n) →
  foldl (λ files entry, Files.remove_token files entry.1) files l
  = match l with [] => files | _ => Files.remove_token files n end.
Proof.
  revert files. induction l as [|e l IH]; intros files Hn; [done|]. simpl.
  rewrite (Hn e) by (by left). rewrite IH by (intros; apply Hn; by right).
  destruct l; [done|]. unfold Files.remove_token. destruct files as [tokens credentials].
  cbn. by rewrite delete_delete_eq.
Qed.

Lemma revoke_under_removes gone files target under :
  files_ok files →
  (∀ name record, Files.tokens files !! name = Some record →
     Principal.actor_id (TokenRecord.principal record) = telemetry_actor_id target → gone name record) →
  removes gone files (revoke_under files (telemetry_actor_id target) under).1.
Proof.
  intros Hok Hgone. unfold revoke_under. cbv zeta. cbn [fst].
  set (due := λ entry : string * TokenRecord, _ && _).
  assert (∀ e, e ∈ List.filter due (records files) →
    Files.tokens files !! e.1 = Some e.2
    ∧ Principal.actor_id (TokenRecord.principal e.2) = telemetry_actor_id target) as Hdue.
  { intros e He. apply list_elem_of_In, filter_In in He as [He%list_elem_of_In%records_entry Hd].
    subst due. simpl in Hd. by bool_split. }
  clearbody due. destruct (List.filter due (records files)) as [|e l]; simpl.
  - destruct (Files.credentials files !! _) as [token|] eqn:Hc; simpl; [|by apply removes_refl].
    destruct (file_recorded _ Hok _ _ Hc) as (record & -> & _). by apply removes_refl.
  - destruct (Hdue e ltac:(by left)) as [He Hid].
    assert (∀ e', e' ∈ e :: l → credential_path_of (TokenRecord.principal e'.2)
      = credential_path (telemetry_actor_id target)) as Hpath.
    { intros e' He'. apply Hdue in He' as [He' Hid']. destruct (record_own _ Hok _ _ He') as [Hcheck Hown].
      unfold credential_path_of. destruct (telemetry_key _ target Hcheck Hown Hid') as [_ ->].
      by rewrite Hid'. }
    assert (∀ e', e' ∈ l → e'.1 = e.1) as Hname.
    { intros e' He'. destruct (Hdue e' ltac:(by right)) as [He1 _]. eapply same_path; [done..|].
      rewrite !Hpath; [done|by left|by right]. }
    rewrite (remove_each e.1) by done.
    destruct (record_filed _ Hok _ _ He) as (token & Hc & Hn).
    rewrite Hpath in Hc by (by left). rewrite Hc. simpl.
    replace (match l with [] => Files.remove_token files e.1
             | _ :: _ => Files.remove_token (Files.remove_token files e.1) e.1 end)
      with (Files.remove_token files e.1)
      by (destruct l; [done|]; unfold Files.remove_token; cbn; by rewrite delete_delete_eq).
    replace (Files.tokens (Files.remove_token files e.1) !! record_path (trim token)) with (@None TokenRecord)
      by (rewrite Hn; symmetry; apply lookup_delete_eq).
    simpl. replace (Files.remove_credential _ _) with (drop files e.1 e.2)
      by (unfold drop; rewrite Hpath by (by left); done).
    apply drop_removes; auto.
Qed.

Lemma sweep_removes gone files ended process_ended :
  files_ok files →
  (∀ name record, Files.tokens files !! name = Some record →
     is_job (Principal.role (TokenRecord.principal record)) = true →
     job_token_ended (TokenRecord.issued_by record)
       (λ issuer, TokenIssuer.there issuer (λ process, negb (process_ended process)) (λ _, true))
       JobState.MayRun = false ∨ gone name record) →
  (∀ name record, Files.tokens files !! name = Some record →
     is_job (Principal.role (TokenRecord.principal record)) = false → gone name record) →
  removes gone files (sweep files ended process_ended).
Proof.
  intros Hok Hjob Hgone. unfold sweep.
  apply (pass_removes id); [done|apply records_nodup|apply records_entry|].
  intros a e He%records_entry Ha Hr. simpl.
  destruct (bool_decide _); [by left|]. destruct (ended _); simpl; [|by left].
  destruct (is_job _) eqn:Hj; simpl.
  - destruct (Hjob _ _ He Hj) as [->|?]; [by left|].
    destruct (job_token_ended _ _ _); simpl; [|by left]. right. split; [done|]. by apply sweep_one_drop.
  - right. split; [auto|]. by apply sweep_one_drop.
Qed.

Lemma held_entry files principal e :
  e ∈ held_records files principal →
  ∃ record, Files.tokens files !! e.1 = Some record ∧ e.2 = TokenRecord.held record
  ∧ TokenRecord.principal record = principal.
Proof.
  unfold held_records. intros (e' & -> & He)%list_elem_of_fmap.
  apply list_elem_of_In, filter_In in He as [He%list_elem_of_In%records_entry Hp%bool_decide_eq_true].
  by exists e'.2.
Qed.

Lemma revoke_principal_in_removes gone reading issuer principal files :
  files_ok files →
  (∀ name record, Files.tokens files !! name = Some record → TokenRecord.principal record = principal →
     record_ended reading principal (TokenIssuer.parent issuer) (TokenRecord.held record) = true →
     gone name record) →
  removes gone files (revoke_principal_in reading issuer principal files).1.
Proof.
  intros Hok Hgone. unfold revoke_principal_in, held_records. rewrite foldl_fmap.
  apply (pass_removes (fst (A:=Files) (B:=bool))
    (λ state entry, if record_ended reading principal (TokenIssuer.parent issuer) (TokenRecord.held entry.2)
       then let '(files, removed) := revoke_record state.1 principal entry.1 in (files, removed || state.2)
       else state) gone _ (files, false));
    [done|apply filter_nodup, records_nodup| |].
  - intros e He%list_elem_of_In. apply filter_In in He as [He%list_elem_of_In _]. by apply records_entry.
  - intros [a b] e He%list_elem_of_In Ha Hr. simpl in *.
    apply filter_In in He as [He%list_elem_of_In%records_entry Hp%bool_decide_eq_true].
    destruct (record_ended _ _ _ _) eqn:Hend; [|by left].
    unfold revoke_record. destruct (hex_name e.1); simpl; [|by left]. rewrite Hr. simpl.
    rewrite bool_decide_true by done. right. split; [by apply Hgone|].
    simpl. rewrite <-Hp. by apply sweep_one_drop.
Qed.

(** *** What an issue adds *)
Definition added (files : Files) (record : TokenRecord) (drawn : string) : Files :=
  Files.mk (<[record_path drawn := record]> (Files.tokens files))
    (<[credential_path_of (TokenRecord.principal record) := drawn]> (Files.credentials files)).
Definition new_record (reading : Reading) (principal : Principal) (under : option LeaseToken)
    (issuer : TokenIssuer) : TokenRecord :=
  TokenRecord.mk principal (Reading.unix_now reading) under (Some issuer).

Definition changes (gone : string → TokenRecord → Prop) (files files' : Files) : Prop :=
  files_ok files' ∧ ∀ name record, Files.tokens files !! name = Some record →
    Files.tokens files' !! name = Some record ∨ gone name record.
Lemma removes_changes gone files files' : removes gone files files' → changes gone files files'.
Proof. intros (? & _ & ?). by split. Qed.

Lemma fresh_removes gone reading files files' :
  fresh reading files → removes gone files files' → fresh reading files'.
Proof.
  intros [Hnew Htrim] (_ & Hsub & _). split; [|done].
  destruct (Files.tokens files' !! _) eqn:Hr; [|done].
  by rewrite (lookup_weaken _ _ _ _ Hr Hsub) in Hnew.
Qed.

(** The inbox has one token, and it is bound to a session. *)
Definition inbox_free (files : Files) (principal : Principal) : Prop :=
  Principal.role principal = ActorRole.Inbox →
  Principal.actor_id principal = as_str ActorRole.Inbox
  ∧ ∀ name record, Files.tokens files !! name = Some record →
      Principal.role (TokenRecord.principal record) ≠ ActorRole.Inbox.
Lemma inbox_session p :
  Principal.check p = Ok tt → Principal.role p = ActorRole.Inbox → is_some (Principal.session p) = true.
Proof.
  intros Hcheck Hrole. unfold Principal.check in Hcheck. rewrite Hrole in Hcheck.
  destruct (Principal.registration p); [done|]. by destruct (Principal.session p).
Qed.

Lemma added_ok reading files record :
  files_ok files → fresh reading files → inbox_free files (TokenRecord.principal record) →
  Files.credentials files !! credential_path_of (TokenRecord.principal record) = None →
  Principal.check (TokenRecord.principal record) = Ok tt →
  of_role (Principal.role (TokenRecord.principal record))
    (Principal.actor_id (TokenRecord.principal record)) →
  files_ok (added files record (Reading.drawn reading)).
Proof.
  intros Hok [Hnew Htrim] Hsession Hfree Hcheck Hown. split; unfold added; simpl.
  - intros path token [[<- <-]|[Hne Hc]]%lookup_insert_Some.
    + rewrite Htrim. exists record. by rewrite lookup_insert_eq.
    + destruct (file_recorded _ Hok _ _ Hc) as (rec & Hr & Hpath). exists rec. split; [|done].
      rewrite lookup_insert_ne; [done|]. intros Heq. by rewrite Heq, Hr in Hnew.
  - intros name rec [[<- <-]|[Hne Hr]]%lookup_insert_Some.
    + exists (Reading.drawn reading). by rewrite lookup_insert_eq, Htrim.
    + destruct (record_filed _ Hok _ _ Hr) as (token & Hc & Hname). exists token. split; [|done].
      rewrite lookup_insert_ne; [done|]. intros Heq. by rewrite Heq, Hc in Hfree.
  - intros name rec [[<- <-]|[Hne Hr]]%lookup_insert_Some; [done|]. by apply (record_own _ Hok name).
  - intros name rec [[<- <-]|[Hne Hr]]%lookup_insert_Some Hs; [by apply Hsession|].
    by apply (inbox_actor _ Hok name).
  - intros n1 r1 n2 r2 [[<- <-]|[_ H1]]%lookup_insert_Some [[<- <-]|[_ H2]]%lookup_insert_Some Hs1 Hs2;
      [done|..|by eapply one_inbox].
    + destruct (Hsession Hs1) as [_ Hno]. by destruct (Hno _ _ H2).
    + destruct (Hsession Hs2) as [_ Hno]. by destruct (Hno _ _ H1).
Qed.

Lemma changes_added gone reading files1 files2 record :
  removes gone files1 files2 → fresh reading files2 →
  inbox_free files2 (TokenRecord.principal record) →
  Files.credentials files2 !! credential_path_of (TokenRecord.principal record) = None →
  Principal.check (TokenRecord.principal record) = Ok tt →
  of_role (Principal.role (TokenRecord.principal record))
    (Principal.actor_id (TokenRecord.principal record)) →
  changes gone files1 (added files2 record (Reading.drawn reading)).
Proof.
  intros (Hok & _ & Hg) Hfresh Hsession Hfree Hcheck Hown. split; [by apply added_ok|].
  intros name rec Hr. destruct (Hg _ _ Hr) as [Hr2|]; [|by right]. left. simpl.
  rewrite lookup_insert_ne; [done|]. intros <-. destruct Hfresh as [Hnew _]. by rewrite Hr2 in Hnew.
Qed.

(** What a token written for [principal] supersedes: the one of its key, and
    with a session those of its actor's other sessions. *)
Definition superseded (principal : Principal) (record : TokenRecord) : Prop :=
  credential_path_of (TokenRecord.principal record) = credential_path_of principal
  ∨ is_some (Principal.session principal) = true
    ∧ Principal.actor_id (TokenRecord.principal record) = Principal.actor_id principal
    ∧ is_some (Principal.session (TokenRecord.principal record)) = true.

Lemma write_token_spec gone reading files principal under issuer files' :
  files_ok files → fresh reading files →
  (∀ name record, Files.tokens files !! name = Some record → superseded principal record →
     gone name record) →
  (Principal.role principal = ActorRole.Inbox → Principal.actor_id principal = as_str ActorRole.Inbox) →
  write_token files principal under (Some issuer) (Reading.unix_now reading) (Reading.drawn reading)
    = Ok files' →
  Principal.check principal = Ok tt
  ∧ ∃ files1, removes gone files files1 ∧ fresh reading files1 ∧ inbox_free files1 principal
    ∧ Files.credentials files1 !! credential_path_of principal = None
    ∧ files' = added files1 (new_record reading principal under issuer) (Reading.drawn reading).
Proof.
  intros Hok Hfresh Hgone Hinbox Hwrite. unfold write_token in Hwrite.
  apply bind_Ok in Hwrite as ([] & Hcheck & Hwrite). split; [done|]. injection Hwrite as <-.
  set (files0 := match Principal.session principal with Some _ => _ | None => _ end).
  assert (removes gone files files0 ∧ inbox_free files0 principal) as [H0 Hsession].
  { subst files0. destruct (Principal.session principal) as [session|] eqn:Hs.
    - destruct (revoke_sessions_removes gone files (Principal.actor_id principal)) as [Hr Hno]; [done| |].
      { intros name record Hr Hid Hses. eapply Hgone; [done|]. right. by rewrite Hs. }
      split; [done|]. intros Hrole. split; [by apply Hinbox|]. intros name record Hrec Hother.
      pose proof Hr as (Hok0 & _). destruct (record_own _ Hok0 _ _ Hrec) as [Hc _].
      apply inbox_session in Hc; [|done]. rewrite (Hno name record) in Hc; [done..|].
      rewrite (inbox_actor _ Hok0 name record) by done. by rewrite Hinbox.
    - split; [by apply removes_refl|]. intros Hrole. apply inbox_session in Hcheck; [|done].
      by rewrite Hs in Hcheck. }
  clearbody files0. pose proof H0 as (Hok0 & Hsub & _).
  destruct (revoke_removes gone files0 (Principal.credential_key principal)) as [H1 Hfree]; [done| |].
  { intros name record Hr Hpath. eapply Hgone; [by eapply lookup_weaken|]. by left. }
  exists (revoke files0 (Principal.credential_key principal)).1.
  split_and!; [by eapply removes_trans| | |done|done].
  - eapply fresh_removes; [|done]. by eapply fresh_removes.
  - intros Hs. destruct (Hsession Hs) as [Hid Hno]. split; [done|]. intros name record Hr.
    apply (Hno name). destruct H1 as (_ & Hsub1 & _). by eapply lookup_weaken.
Qed.

Lemma telemetry_own target task :
  of_role (Principal.role (Principal.telemetry target task))
    (Principal.actor_id (Principal.telemetry target task)).
Proof. apply of_role_telemetry. Qed.

Lemma issue_telemetry_as_spec gone reading files target task under issuer :
  files_ok files → fresh reading files →
  (∀ name record, Files.tokens files !! name = Some record →
     Principal.actor_id (TokenRecord.principal record) = telemetry_actor_id target
     ∨ superseded (Principal.telemetry target task) record → gone name record) →
  match issue_telemetry_as reading files target task under issuer with
  | (files', Err _) => removes gone files files'
  | (files', Ok _) =>
      Principal.check (Principal.telemetry target task) = Ok tt
      ∧ ∃ files1, removes gone files files1 ∧ fresh reading files1
        ∧ inbox_free files1 (Principal.telemetry target task)
        ∧ Files.credentials files1 !! credential_path_of (Principal.telemetry target task) = None
        ∧ files' = added files1 (new_record reading (Principal.telemetry target task) under issuer)
            (Reading.drawn reading)
  end.
Proof.
  intros Hok Hfresh Hgone. unfold issue_telemetry_as, issue_under_by.
  change (Principal.actor_id (Principal.telemetry target task)) with (telemetry_actor_id target).
  assert (removes gone files (revoke_under files (telemetry_actor_id target) None).1) as Hr
    by (apply revoke_under_removes; [done|]; intros; eapply Hgone; eauto).
  set (files0 := (revoke_under files (telemetry_actor_id target) None).1) in *. clearbody files0.
  pose proof Hr as (Hok0 & Hsub & _).
  destruct (write_token _ _ _ _ _ _) as [files'|error] eqn:Hwrite; [|done].
  apply (write_token_spec gone) in Hwrite as (Hcheck & files1 & H1 & Hf & Hsession & Hc & ->);
    [|done|by eapply fresh_removes| |done].
  - split; [done|]. exists files1. split_and!; [by eapply removes_trans|done..].
  - intros name record Hn Hs. eapply Hgone; [by eapply lookup_weaken|]. by right.
Qed.

End Files.
