(* ===== verification/TokenTable.v ===== *)
(** * What the tokens' files promise

    The files of [TokenStore.v] under the requests of the queue service: each
    token that authenticates is the one its key's file holds, whatever requests
    came before; a job's token asked for by a parent that is there goes at no
    other caller's request; a token is issued only under what its parent
    holds; and an issue that fails leaves none. *)
From S2P Require Import Prelude Text Vocab Ids Errors Actors Authorization Tokens TokenStore TokenFiles.
Import TokenProofs.

(** ** Requests *)
Module Request.
Inductive t : Type :=
  | IssueToken (parent child : Principal) (process : option Z)
  | IssueTelemetry (principal : Principal) (registration : LeaseToken) (target : StepTarget)
      (task : option TaskId) (issued_under : option LeaseToken) (process : option Z)
  | RevokeToken (principal : Principal) (actor_id : string) (process : option Z)
  | RevokePrincipal (caller principal : Principal) (process : option Z)
  | RevokeTelemetry (principal : Principal) (target : StepTarget) (issued_under : option LeaseToken)
      (process : option Z)
  | SignOut (principal : Principal)
  | BeginLanding (principal : Principal) (registration : LeaseToken) (run : RunId)
      (begun : result ServiceError EventId) (process : option Z)
  | EndLanding (principal : Principal) (registration : LeaseToken) (run : RunId)
  | RevokeTokenOf (caller child : Principal)
  | Sweep (ended : Principal → bool).

(** Whose request it is; the sweep is the control side's own. *)
Definition caller (self : t) : option Principal :=
  match self with
  | IssueToken p _ _ | IssueTelemetry p _ _ _ _ _ | RevokeToken p _ _ | RevokePrincipal p _ _
  | RevokeTelemetry p _ _ _ | SignOut p | BeginLanding p _ _ _ _ | EndLanding p _ _
  | RevokeTokenOf p _ => Some p
  | Sweep _ => None
  end.
(** A supervisor's operations are answered to a supervisor alone. *)
Definition signed_in (self : t) : Prop :=
  match self with
  | SignOut p => of_role (Principal.role p) (Principal.actor_id p) ∧ Principal.role p = ActorRole.Supervisor
  | _ => True
  end.
End Request.
Abbreviation Request := Request.t.

(** The policy on a token asked for. *)
Lemma authorize_issue actor child :
  authorize actor C.TokenIssue (Resource.Principal child) = Ok tt → starts (ActorContext.role actor) child = true.
Proof.
  rewrite PolicyProofs.authorize_Ok. intros (_ & _ & _ & Hpermits). exact Hpermits.
Qed.

Section Table.
Context `{Digest}.

Definition step (reading : Reading) (service : Service) (request : Request) : Service :=
  match request with
  | Request.IssueToken parent child process => (issue_token reading service parent child process).1
  | Request.IssueTelemetry principal registration target task issued_under process =>
      (issue_telemetry reading service principal registration target task issued_under process).1
  | Request.RevokeToken principal actor_id process =>
      (revoke_token reading service principal actor_id process).1
  | Request.RevokePrincipal caller principal process =>
      (revoke_principal reading service caller principal process).1
  | Request.RevokeTelemetry principal target issued_under process =>
      (revoke_telemetry reading service principal target issued_under process).1
  | Request.SignOut principal => (sign_out service principal).1
  | Request.BeginLanding principal registration run begun process =>
      (begin_landing reading service principal registration run begun process).1
  | Request.EndLanding principal registration run =>
      (end_landing service principal registration run).1
  | Request.RevokeTokenOf caller child => (revoke_token_of reading service caller child).1
  | Request.Sweep ended =>
      service <| Service.files :=
        sweep (Service.files service) ended (Reading.session_ended reading) |>
  end.

(** The services that requests lead to from one with no token. *)
Inductive served : Service → Prop :=
  | served_empty denials : served (Service.mk Files.empty denials)
  | served_step reading service request :
      served service → fresh reading (Service.files service) → Request.signed_in request →
      served (step reading service request).

(** *** The use cases *)
Lemma changes_removes gone files1 files2 files3 :
  changes gone files1 files2 → removes gone files2 files3 → changes gone files1 files3.
Proof.
  intros [_ H1] (Hok & _ & H2). split; [done|]. intros name record Hr.
  destruct (H1 _ _ Hr) as [Hr2|]; [|by right]. auto.
Qed.
Lemma changes_refl gone files : files_ok files → changes gone files files.
Proof. intros. by apply removes_changes, removes_refl. Qed.

(** The principal whose token an issue of [child] writes. *)
Definition written_principal (child : Principal) : Principal :=
  match Principal.target child, bool_decide (Principal.role child = ActorRole.ExecutorTelemetry) with
  | Some target, true => Principal.telemetry target (Principal.task_id child)
  | _, _ => child
  end.

Lemma written_key child :
  issuable child → credential_path_of (written_principal child) = credential_path_of child.
Proof.
  intros (Hcheck & _ & Hrole). unfold written_principal.
  destruct (Principal.target child) as [target|] eqn:Htarget; [|done].
  case_bool_decide as Htelemetry; [|done]. unfold credential_path_of. f_equal.
  rewrite (targeted_key child target) by done.
  destruct (checked_target child target) as (Hfits & _); [done..|]. unfold Principal.target_fits in Hfits.
  rewrite Htelemetry in Hfits. bool_split.
  match goal with H : Principal.actor_id child = _ |- _ => rewrite H end. unfold Principal.credential_key.
  done.
Qed.

Lemma written_own child :
  issuable child →
  of_role (Principal.role (written_principal child)) (Principal.actor_id (written_principal child)).
Proof.
  intros Hchild. unfold written_principal.
  destruct (Principal.target child), (bool_decide (Principal.role child = ActorRole.ExecutorTelemetry));
    (apply telemetry_own || by apply issuable_of_role).
Qed.

(** What an issue of [child] at the request of [issuer] supersedes. *)
Definition supersedes (reading : Reading) (issuer : TokenIssuer) (child : Principal)
    (record : TokenRecord) : Prop :=
  Principal.role child = ActorRole.ExecutorTelemetry
    ∧ Principal.actor_id (TokenRecord.principal record) = Principal.actor_id child
  ∨ superseded (written_principal child) record
    ∧ (credential_path_of (TokenRecord.principal record) = credential_path_of child →
       Principal.role child ≠ ActorRole.ExecutorTelemetry →
       reissue child issuer (Some (TokenRecord.issued_by record)) (Reading.parent_there reading)
         (Reading.job reading (TokenRecord.held record) (Some issuer)) = Reissue.Issue).

(** An issue in its transaction: the files it leaves. *)
Definition issue_leaves (gone : string → TokenRecord → Prop) (reading : Reading) (issuer : TokenIssuer)
    (child : Principal) (files : Files) (answer : Files * result ServiceError (Issued * option string)) :
    Prop :=
  match answer with
  | (files', Err _) => removes gone files files'
  | (files', Ok (issued, wrote)) =>
      if Issued.held issued then files' = files ∧ wrote = None
      else wrote = Some (record_path (Reading.drawn reading))
        ∧ Principal.check (written_principal child) = Ok tt
        ∧ ∃ files1, removes gone files files1 ∧ fresh reading files1
          ∧ inbox_free files1 (written_principal child)
          ∧ Files.credentials files1 !! credential_path_of child = None
          ∧ files' = added files1 (new_record reading (written_principal child) None issuer)
              (Reading.drawn reading)
  end.

Lemma written_added reading files child record :
  trim (Reading.drawn reading) = Reading.drawn reading →
  credential_path_of (TokenRecord.principal record) = credential_path (Principal.credential_key child) →
  written_record (added files record (Reading.drawn reading)) (Principal.credential_key child)
  = Some (record_path (Reading.drawn reading)).
Proof.
  intros Htrim Hpath. unfold written_record, added. simpl. rewrite Hpath, lookup_insert_eq. simpl.
  by rewrite Htrim.
Qed.

Lemma issuable_inbox child :
  issuable child → Principal.role child = ActorRole.Inbox →
  Principal.actor_id child = as_str ActorRole.Inbox.
Proof.
  intros (Hcheck & Hnames & Hi) Hrole. destruct (Principal.target child) as [target|] eqn:Htarget.
  { destruct (checked_target child target) as (Hfits & _); [done..|].
    unfold Principal.target_fits in Hfits. by rewrite Hrole in Hfits. }
  unfold Principal.names_itself in Hnames. rewrite Htarget, Hrole in Hnames. cbn [is_some] in Hnames.
  destruct (_ ≫= strip_prefix ":"); [done|].
  by apply andb_true_iff in Hnames as [_ ?%bool_decide_eq_true].
Qed.

(** The issue of a token that is no executor's telemetry, over what its key
    holds. *)
Lemma plain_issue_leaves gone reading child issuer files files' :
  files_ok files → fresh reading files → issuable child → written_principal child = child →
  (∀ name record, Files.tokens files !! name = Some record → superseded child record →
     gone name record) →
  issue_by files child issuer (Reading.unix_now reading) (Reading.drawn reading) = Ok files' →
  issue_leaves gone reading issuer child files
    (files', Ok (Issued.new (credential_path_of child),
                 written_record files' (Principal.credential_key child))).
Proof.
  intros Hok Hfresh Hchild Hwritten Hgone Hissue.
  apply (write_token_spec gone) in Hissue as (Hcheck & files1 & H1 & Hf & Hsession & Hfree & ->);
    [|done..|by apply issuable_inbox].
  simpl. rewrite Hwritten. split_and!; [|done|exists files1; by split_and!].
  destruct Hfresh as [_ Htrim]. by apply written_added.
Qed.

Lemma telemetry_target child :
  issuable child → Principal.role child = ActorRole.ExecutorTelemetry →
  ∃ target, Principal.target child = Some target ∧ Principal.actor_id child = telemetry_actor_id target
    ∧ Principal.task_id child = Principal.task_id (Principal.telemetry target (Principal.task_id child)).
Proof.
  intros (Hcheck & _ & Hi) Hrole. destruct (Principal.target child) as [target|] eqn:Htarget.
  - exists target. destruct (checked_target child target) as (Hfits & _); [done..|].
    unfold Principal.target_fits in Hfits. rewrite Hrole in Hfits. bool_split. split_and!; [done..|].
    simpl. destruct (is_some (StepTarget.run_id target)) eqn:Hrun; [done|].
    match goal with H : Principal.run_id child = _ |- _ => rewrite H in * end.
    rewrite Hrun in *. simpl in *. by destruct (Principal.task_id child).
  - exfalso. unfold Principal.check in Hcheck. rewrite Hrole, Htarget in Hcheck.
    destruct (Principal.registration child), (Principal.session child); discriminate.
Qed.

Lemma held_here files name record child :
  files_ok files → Files.tokens files !! name = Some record →
  credential_path_of (TokenRecord.principal record) = credential_path_of child →
  held files (Principal.credential_key child) = Some (TokenRecord.held record).
Proof.
  intros Hok Hr Hpath. rewrite <-(held_record files name record) by done. unfold held.
  unfold credential_path_of in Hpath. by rewrite Hpath.
Qed.

Lemma plain_in reading parent child process issuer files :
  Principal.role child ≠ ActorRole.ExecutorTelemetry →
  let kept := held files (Principal.credential_key child) in
  let job :=
    match kept with Some held => Reading.job reading held (Some issuer) | None => JobState.MayRun end in
  issue_in reading parent child process issuer files
  = match reissue child issuer (HeldToken.issued_by <$> kept) (Reading.parent_there reading) job with
    | Reissue.Issue =>
        match issue_by files child issuer (Reading.unix_now reading) (Reading.drawn reading) with
        | Err error => (files, Err (ServiceError.Files error))
        | Ok files =>
            (files, Ok (Issued.new (credential_path_of child),
                        written_record files (Principal.credential_key child)))
        end
    | Reissue.Held =>
        match credential files (Principal.credential_key child) with
        | Some file => (files, Ok (Issued.mk file true, None))
        | None => (files, Err (ServiceError.NoFile (Principal.credential_key child)))
        end
    | Reissue.Refused why => (files, Err (ServiceError.Replacing why))
    end.
Proof.
  intros Hrole. unfold issue_in. rewrite bool_decide_false by done.
  by destruct (Principal.target child).
Qed.

Lemma plain_in_leaves gone reading parent child process issuer files :
  files_ok files → fresh reading files → issuable child →
  Principal.role child ≠ ActorRole.ExecutorTelemetry → written_principal child = child →
  (∀ name record, Files.tokens files !! name = Some record → supersedes reading issuer child record →
     gone name record) →
  issue_leaves gone reading issuer child files (issue_in reading parent child process issuer files).
Proof.
  intros Hok Hfresh Hchild Hplain Hwritten Hgone. rewrite plain_in by done.
  destruct (reissue _ _ _ _ _) as [| |why] eqn:Hreissue; [| |by apply removes_refl].
  - destruct (issue_by _ _ _ _ _) as [files'|error] eqn:Hissue; [|by apply removes_refl].
    apply plain_issue_leaves; [done..| |done].
    intros name record Hr Hs. apply (Hgone name record Hr). right. rewrite Hwritten. split; [done|].
    intros Hpath _. rewrite (held_here files name record) in Hreissue by done. exact Hreissue.
  - destruct (credential files (Principal.credential_key child)); [done|by apply removes_refl].
Qed.

Lemma issue_in_leaves gone reading parent child process issuer files :
  files_ok files → fresh reading files → issuable child →
  (∀ name record, Files.tokens files !! name = Some record → supersedes reading issuer child record →
     gone name record) →
  issue_leaves gone reading issuer child files (issue_in reading parent child process issuer files).
Proof.
  intros Hok Hfresh Hchild Hgone. pose proof (written_key child Hchild) as Hkey.
  destruct (decide (Principal.role child = ActorRole.ExecutorTelemetry)) as [Htel|Hplain].
  - destruct (telemetry_target child Hchild Htel) as (target & Htarget & Hid & _).
    assert (written_principal child = Principal.telemetry target (Principal.task_id child)) as Hwritten
      by (unfold written_principal; by rewrite Htarget, bool_decide_true by done).
    unfold issue_in. rewrite Htarget, bool_decide_true by done.
    destruct (telemetry_target_refusal _ _ _ _); [by apply removes_refl|].
    pose proof (issue_telemetry_as_spec gone reading files target (Principal.task_id child) None issuer
      Hok Hfresh) as Hspec. rewrite <-Hwritten in Hspec.
    assert (∀ name record, Files.tokens files !! name = Some record →
      Principal.actor_id (TokenRecord.principal record) = telemetry_actor_id target
      ∨ superseded (written_principal child) record → gone name record) as Hgone'.
    { intros name record Hr Hreason. apply (Hgone name record Hr). destruct Hreason as [Hi|Hs].
      - left. split; [exact Htel|]. by rewrite Hid.
      - right. split; [exact Hs|]. intros _ Hne. by destruct Hne. }
    specialize (Hspec Hgone').
    destruct (issue_telemetry_as _ _ _ _ _ _) as [files' [file|error]]; [|done].
    destruct Hspec as (Hcheck & files1 & H1 & Hf & Hsession & Hfree & ->).
    destruct Hfresh as [_ Htrim]. simpl.
    split_and!; [by apply written_added|done|]. exists files1. rewrite <-Hkey. by split_and!.
  - assert (written_principal child = child) as Hwritten
      by (unfold written_principal; rewrite bool_decide_false by done; by destruct (Principal.target child)).
    apply (plain_in_leaves gone); done.
Qed.

Lemma issuing_undone_changes {A} gone reading files held
    (issue : Files → Files * result ServiceError (A * option string)) undo :
  files_ok files →
  match issue files with
  | (files', Err _) => removes gone files files'
  | (files', Ok (_, wrote)) => changes gone files files' ∧
      ∀ record, wrote = Some record → changes gone files (undo files' record)
  end →
  changes gone files (issuing_undone reading files held issue undo).1.
Proof.
  intros Hok Hissue. unfold issuing_undone. destruct (Reading.unheld _ _); [by apply changes_refl|].
  destruct (issue files) as [files' [[value wrote]|error]]; [|by apply removes_changes].
  destruct Hissue as [Hc Hundo]. destruct (Reading.commits reading); [done|].
  destruct wrote as [record|]; [by apply Hundo|done].
Qed.

Lemma undo_changes gone files1 files2 principal name :
  changes gone files1 files2 → (∀ record, gone name record) →
  changes gone files1 (revoke_record files2 principal name).1.
Proof.
  intros Hc Hgone. eapply changes_removes; [done|]. apply revoke_record_removes; [by destruct Hc|auto].
Qed.

Lemma recorded_files {A} service actor capability resource (answer : Files * result ServiceError A) :
  Service.files (recorded service actor capability resource answer).1 = answer.1.
Proof. destruct answer as [files [a|[]]]; done. Qed.
Lemma gate_files service actor capability resource :
  Service.files (gate service actor capability resource).1 = Service.files service.
Proof. unfold gate. by destruct (authorize _ _ _). Qed.

Lemma issue_token_changes gone reading service parent child process :
  files_ok (Service.files service) → fresh reading (Service.files service) →
  (∀ record, gone (record_path (Reading.drawn reading)) record) →
  (issuable child → authorize (Principal.actor parent) C.TokenIssue (Resource.Principal (Principal.role child)) = Ok tt →
   ∀ name record, Files.tokens (Service.files service) !! name = Some record →
     supersedes reading (issuer_of reading parent process) child record → gone name record) →
  changes gone (Service.files service)
    (Service.files (issue_token reading service parent child process).1).
Proof.
  intros Hok Hfresh Hnew Hgone. unfold issue_token.
  destruct (Principal.check child) as [[]|error] eqn:Hcheck; [|by apply changes_refl].
  destruct (Principal.names_itself child) eqn:Hnames; simpl; [|by apply changes_refl].
  pose proof (gate_files service (Principal.actor parent) C.TokenIssue
    (Resource.Principal (Principal.role child))) as Hgate.
  unfold gate in *. destruct (authorize _ _ _) as [[]|error] eqn:Hauth; [|by apply changes_refl].
  destruct (if bool_decide _ then _ else None) as [why|]; [by apply changes_refl|].
  rewrite recorded_files. apply issuing_undone_changes; [done|].
  assert (issuable child) as Hchild.
  { split_and!; [done..|]. intros Hrole. rewrite Hrole in Hauth. apply authorize_issue in Hauth.
    by destruct (ActorContext.role (Principal.actor parent)). }
  pose proof (issue_in_leaves gone reading parent child process (issuer_of reading parent process)
    (Service.files service) Hok Hfresh Hchild (Hgone Hchild eq_refl)) as Hleaves.
  unfold issue_leaves in Hleaves.
  destruct (issue_in _ _ _ _ _ _) as [files' [[issued wrote]|error]]; [|done].
  destruct (Issued.held issued).
  - destruct Hleaves as [-> ->]. split; [by apply changes_refl|done].
  - destruct Hleaves as (-> & Hw & files1 & H1 & Hf & Hsession & Hfree & ->).
    assert (changes gone (Service.files service)
      (added files1 (new_record reading (written_principal child) None (issuer_of reading parent process))
         (Reading.drawn reading))) as Hc.
    { apply changes_added; [done..| |done|by apply written_own].
      cbn [new_record TokenRecord.principal]. by rewrite written_key. }
    split; [done|]. intros record [= <-]. by apply undo_changes.
Qed.

Lemma issue_telemetry_in_changes gone reading principal target task under process issuer files :
  files_ok files → fresh reading files →
  (∀ record, gone (record_path (Reading.drawn reading)) record) →
  (∀ name record, Files.tokens files !! name = Some record →
     Principal.actor_id (TokenRecord.principal record) = telemetry_actor_id target
     ∨ superseded (Principal.telemetry target task) record → gone name record) →
  match issue_telemetry_in reading principal target task under process issuer files with
  | (files', Err _) => removes gone files files'
  | (files', Ok (_, wrote)) => changes gone files files' ∧
      ∀ record, wrote = Some record →
        changes gone files (revoke_record files' (Principal.telemetry target task) record).1
  end.
Proof.
  intros Hok Hfresh Hnew Hgone. unfold issue_telemetry_in.
  destruct (leaseless_starter_refusal _ _ _ _ _); [by apply removes_refl|].
  pose proof (issue_telemetry_as_spec gone reading files target task under issuer Hok Hfresh Hgone) as Hspec.
  pose proof (removes_refl gone files Hok) as Hrefl.
  destruct (reissue _ _ _ _ _); [| |exact Hrefl];
    (destruct (issue_telemetry_as _ _ _ _ _ _) as [files' [file|error]]; [|exact Hspec];
     destruct Hspec as (Hcheck & files1 & H1 & Hf & Hsession & Hfree & ->);
     assert (changes gone files (added files1
       (new_record reading (Principal.telemetry target task) under issuer) (Reading.drawn reading))) as Hc
       by (apply changes_added; [done..|apply telemetry_own]);
     split; [exact Hc|]; destruct Hfresh as [_ Htrim];
     rewrite written_added by done; intros record [= <-]; by apply undo_changes).
Qed.

Lemma issue_telemetry_changes gone reading service principal registration target task under process :
  files_ok (Service.files service) → fresh reading (Service.files service) →
  (∀ record, gone (record_path (Reading.drawn reading)) record) →
  (∀ name record, Files.tokens (Service.files service) !! name = Some record →
     Principal.actor_id (TokenRecord.principal record) = telemetry_actor_id target
     ∨ superseded (Principal.telemetry target task) record → gone name record) →
  changes gone (Service.files service)
    (Service.files (issue_telemetry reading service principal registration target task under process).1).
Proof.
  intros Hok Hfresh Hnew Hgone. unfold issue_telemetry.
  destruct (telemetry_held _ _ _ _) as [[why reason]|held]; [by apply changes_refl|].
  rewrite recorded_files. apply issuing_undone_changes; [done|]. by apply issue_telemetry_in_changes.
Qed.

Lemma revoking_files reading answer : (revoking reading answer).1 = answer.1.
Proof. by destruct answer as [files []]. Qed.

Lemma revoke_token_changes gone reading service principal actor_id process :
  files_ok (Service.files service) →
  (∀ name record, Files.tokens (Service.files service) !! name = Some record →
     credential_path_of (TokenRecord.principal record) = credential_path actor_id →
     revoke_refusal (TokenRecord.held record) (TokenIssuer.parent (issuer_of reading principal process))
       (Reading.parent_there reading) (Reading.job reading (TokenRecord.held record) None) = None →
     gone name record) →
  changes gone (Service.files service)
    (Service.files (revoke_token reading service principal actor_id process).1).
Proof.
  intros Hok Hgone. unfold revoke_token. destruct (_ || _); [by apply changes_refl|].
  rewrite recorded_files, revoking_files. unfold revoke_token_in. set (files := Service.files service) in *.
  destruct (held files actor_id ≫= _) as [why|] eqn:Hrefusal; [by apply changes_refl|].
  apply removes_changes.
  destruct (revoke_removes gone files actor_id Hok) as [Hr _]; [|by destruct (revoke files actor_id)].
  intros name record Hrec Hpath. apply (Hgone name record Hrec Hpath).
  assert (held files actor_id = Some (TokenRecord.held record)) as Hheld.
  { rewrite <-(held_record files name record) by done. unfold held, credential_path_of in *.
    by rewrite Hpath. }
  by rewrite Hheld in Hrefusal.
Qed.

Lemma revoke_principal_changes gone reading service caller principal process :
  files_ok (Service.files service) →
  (∀ name record, Files.tokens (Service.files service) !! name = Some record →
     TokenRecord.principal record = principal →
     record_ended reading principal (TokenIssuer.parent (issuer_of reading caller process))
       (TokenRecord.held record) = true → gone name record) →
  changes gone (Service.files service)
    (Service.files (revoke_principal reading service caller principal process).1).
Proof.
  intros Hok Hgone. unfold revoke_principal. destruct (swept_token_key principal); [|by apply changes_refl].
  pose proof (revoke_principal_in_removes gone reading (issuer_of reading caller process) principal
    (Service.files service) Hok Hgone) as Hr.
  destruct (revoke_principal_in _ _ _ _) as [files revoked]. rewrite recorded_files, revoking_files.
  by apply removes_changes.
Qed.

Lemma revoke_telemetry_changes gone reading service principal target under process :
  files_ok (Service.files service) →
  (∀ name record, Files.tokens (Service.files service) !! name = Some record →
     Principal.actor_id (TokenRecord.principal record) = telemetry_actor_id target → gone name record) →
  changes gone (Service.files service)
    (Service.files (revoke_telemetry reading service principal target under process).1).
Proof.
  intros Hok Hgone. unfold revoke_telemetry. rewrite recorded_files, revoking_files.
  unfold revoke_telemetry_in. destruct (_ ≫= _); [by apply changes_refl|].
  pose proof (revoke_under_removes gone (Service.files service) target under Hok Hgone) as Hr.
  destruct (revoke_under _ _ _). by apply removes_changes.
Qed.

Lemma revoke_changes gone files key :
  files_ok files →
  (∀ name record, Files.tokens files !! name = Some record →
     credential_path_of (TokenRecord.principal record) = credential_path key → gone name record) →
  changes gone files (revoke files key).1.
Proof. intros Hok Hgone. by apply removes_changes, revoke_removes. Qed.

Lemma integrator_own run lease pid event :
  let landing := Principal.of_landing (Principal.integrator run lease pid) event in
  of_role (Principal.role landing) (Principal.actor_id landing).
Proof. apply of_role_instance. Qed.

Lemma begin_landing_changes gone reading service principal registration run begun process :
  files_ok (Service.files service) → fresh reading (Service.files service) →
  let landing := Principal.integrator run registration (unwrap_or (supervisor_pid principal) 0%Z) in
  (∀ record, gone (record_path (Reading.drawn reading)) record) →
  (∀ name record, Files.tokens (Service.files service) !! name = Some record →
     credential_path_of (TokenRecord.principal record) = credential_path_of landing → gone name record) →
  changes gone (Service.files service)
    (Service.files (begin_landing reading service principal registration run begun process).1).
Proof.
  intros Hok Hfresh landing Hnew Hgone. unfold begin_landing. fold landing.
  destruct (Principal.landing_run landing); [|by apply changes_refl].
  destruct begun as [started|[]]; try by apply changes_refl.
  destruct (issue_by _ _ _ _ _) as [files'|error] eqn:Hissue; [|by apply changes_refl].
  apply (write_token_spec gone) in Hissue as (Hcheck & files1 & H1 & Hf & Hsession & Hfree & ->);
    [|done|done| |done].
  - assert (changes gone (Service.files service) (added files1
      (new_record reading (Principal.of_landing landing started) None (issuer_of reading principal process))
      (Reading.drawn reading))) as Hc
      by (apply changes_added; [done..|apply integrator_own]).
    destruct (Reading.commits reading); [exact Hc|]. simpl. eapply changes_removes; [exact Hc|].
    apply revoke_removes; [by destruct Hc|]. intros name record Hr Hpath.
    simpl in Hr. apply lookup_insert_Some in Hr as [[<- _]|[_ Hr]]; [apply Hnew|].
    eapply Hgone; [|done]. destruct H1 as (_ & Hsub & _). by eapply lookup_weaken.
  - intros name record Hr [Hpath|[Hs _]]; [|done]. by eapply Hgone.
Qed.

Lemma revoke_token_of_changes gone reading service caller child :
  files_ok (Service.files service) →
  (∀ name record, Files.tokens (Service.files service) !! name = Some record →
     credential_path_of (TokenRecord.principal record) = credential_path_of child →
     signed_in (TokenRecord.held record) ≠ None → gone name record) →
  changes gone (Service.files service)
    (Service.files (revoke_token_of reading service caller child).1).
Proof.
  intros Hok Hgone. unfold revoke_token_of.
  pose proof (gate_files service (Principal.actor caller) C.ServiceLifecycle Resource.Queue) as Hgate.
  destruct (gate _ _ _ _) as [service' [[]|error]]; simpl in Hgate; [|simpl; rewrite Hgate; by apply changes_refl].
  rewrite recorded_files, revoking_files, Hgate. unfold revoke_token_of_in.
  set (files := Service.files service) in *.
  destruct (held files (Principal.credential_key child)) as [of_key|] eqn:Hheld;
    [|by apply changes_refl].
  destruct (bool_decide _); [|by apply changes_refl].
  destruct (registration_end_refusal _ _) as [why|] eqn:Hend; [by apply changes_refl|].
  destruct (revoke files (Principal.credential_key child)) as [files' revoked] eqn:Hrevoke.
  replace (files', _).1 with (revoke files (Principal.credential_key child)).1 by (by rewrite Hrevoke).
  apply revoke_changes; [done|]. intros name record Hr Hpath. apply (Hgone name record Hr Hpath).
  rewrite (held_here files name record) in Hheld by done. injection Hheld as <-.
  unfold registration_end_refusal in Hend. by destruct (signed_in _).
Qed.

(** ** The theorems *)
Lemma sign_out_files service principal :
  Service.files (sign_out service principal).1
  = (revoke (Service.files service) (Principal.credential_key principal)).1.
Proof. unfold sign_out. by destruct (revoke _ _). Qed.
Lemma end_landing_files service principal registration run :
  Service.files (end_landing service principal registration run).1
  = (revoke (Service.files service) (Principal.credential_key
       (Principal.integrator run registration (unwrap_or (supervisor_pid principal) 0%Z)))).1.
Proof. unfold end_landing. by destruct (revoke _ _). Qed.

Lemma step_ok reading service request :
  files_ok (Service.files service) → fresh reading (Service.files service) →
  files_ok (Service.files (step reading service request)).
Proof.
  intros Hok Hfresh.
  cut (changes (λ _ _, True) (Service.files service) (Service.files (step reading service request)));
    [by intros []|].
  destruct request; cbn [step].
  - by apply issue_token_changes.
  - by apply issue_telemetry_changes.
  - by apply revoke_token_changes.
  - by apply revoke_principal_changes.
  - by apply revoke_telemetry_changes.
  - rewrite sign_out_files. by apply revoke_changes.
  - by apply begin_landing_changes.
  - rewrite end_landing_files. by apply revoke_changes.
  - by apply revoke_token_of_changes.
  - apply removes_changes, sweep_removes; auto.
Qed.

Lemma served_ok service : served service → files_ok (Service.files service).
Proof. induction 1; [apply empty_ok|by apply step_ok]. Qed.

(** C22: Whatever tokens were issued and revoked, one after the other, the
    records and the files agree: a file holds a token that authenticates, of its
    key; a token that authenticates is the one its key's file holds, so there is
    one for a key at most; its principal passes the check an issue makes, under
    an actor id of its role; and of the inbox there is one token at most, the
    session's opened last. *)
Theorem one_token_per_key service :
  served service →
  let files := Service.files service in
  (∀ path token, Files.credentials files !! path = Some token →
     ∃ record, Files.tokens files !! record_path (trim token) = Some record
     ∧ credential_path_of (TokenRecord.principal record) = path)
  ∧ (∀ name record, Files.tokens files !! name = Some record →
       held files (Principal.credential_key (TokenRecord.principal record)) = Some (TokenRecord.held record)
       ∧ Principal.check (TokenRecord.principal record) = Ok tt
       ∧ of_role (Principal.role (TokenRecord.principal record))
           (Principal.actor_id (TokenRecord.principal record)))
  ∧ ∀ n1 r1 n2 r2, Files.tokens files !! n1 = Some r1 → Files.tokens files !! n2 = Some r2 →
      Principal.credential_key (TokenRecord.principal r1) = Principal.credential_key (TokenRecord.principal r2)
      ∨ Principal.role (TokenRecord.principal r1) = ActorRole.Inbox
        ∧ Principal.role (TokenRecord.principal r2) = ActorRole.Inbox → n1 = n2.
Proof.
  intros Hserved files. apply served_ok in Hserved as Hok. split_and!.
  - apply (file_recorded _ Hok).
  - intros name record Hr. split; [by apply held_record with name|]. by apply (record_own _ Hok name).
  - intros n1 r1 n2 r2 H1 H2 [Hkey|[Hi1 Hi2]]; [|by eapply one_inbox].
    eapply same_path; [done..|]. unfold credential_path_of. by rewrite Hkey.
Qed.

(** *** A job's token whose parent is there *)
Lemma job_no_session p :
  Principal.check p = Ok tt → is_job (Principal.role p) = true → is_some (Principal.session p) = false.
Proof.
  intros Hcheck Hjob. unfold Principal.check in Hcheck.
  destruct (Principal.registration p); [destruct (Principal.role p); done|].
  destruct (Principal.session p); [|done]. destruct (Principal.role p); done.
Qed.

Section Kept.
Context (Hdigest : ∀ s t, sha256_hex s = sha256_hex t → s = t).
Context (reading : Reading) (files : Files) (name : string) (record : TokenRecord) (issuer : TokenIssuer).
Context (Hok : files_ok files) (Hrecord : Files.tokens files !! name = Some record).
Context (Hjob : is_job (Principal.role (TokenRecord.principal record)) = true).
Context (Hby : TokenRecord.issued_by record = Some issuer) (Hjudged : TokenIssuer.judged issuer = true).
Context (Hthere : Reading.parent_there reading issuer = true).

(** What removes another record leaves this one. *)
Lemma changes_keep files' : changes (λ other _, other ≠ name) files files' → Files.tokens files' !! name = Some record.
Proof. intros [_ Hkept]. by destruct (Hkept _ _ Hrecord). Qed.
Lemma other_record (P : TokenRecord → Prop) :
  ¬ P record → ∀ other rec, Files.tokens files !! other = Some rec → P rec → other ≠ name.
Proof. intros Hno other rec Hr HP ->. rewrite Hrecord in Hr. by injection Hr as <-. Qed.

Lemma not_of_key p :
  of_role (Principal.role p) (Principal.actor_id p) → is_job (Principal.role p) = false →
  credential_path_of (TokenRecord.principal record) ≠ credential_path_of p.
Proof.
  intros Hp Hno Hpath%Hdigest. destruct (record_own _ Hok _ _ Hrecord) as [_ Hown].
  apply key_role in Hpath; [|done..]. by rewrite Hpath, Hno in Hjob.
Qed.
Lemma not_telemetry target : Principal.actor_id (TokenRecord.principal record) ≠ telemetry_actor_id target.
Proof.
  intros Hid. destruct (record_own _ Hok _ _ Hrecord) as [Hcheck Hown].
  destruct (telemetry_key _ target Hcheck Hown Hid) as [Hrole _]. by rewrite Hrole in Hjob.
Qed.
Lemma not_superseded p :
  of_role (Principal.role p) (Principal.actor_id p) → is_job (Principal.role p) = false →
  ¬ superseded p record.
Proof.
  intros Hp Hno [Hpath|(_ & _ & Hs)]; [by apply not_of_key in Hpath|].
  destruct (record_own _ Hok _ _ Hrecord) as [Hcheck _]. by rewrite job_no_session in Hs.
Qed.

Lemma not_superseded_by child by_ :
  issuable child → TokenIssuer.parent issuer ≠ TokenIssuer.parent by_ → ¬ supersedes reading by_ child record.
Proof.
  intros Hchild Hparent. destruct (record_own _ Hok _ _ Hrecord) as [Hcheck Hown].
  pose proof (issuable_of_role child Hchild) as Hchild_own.
  assert (credential_path_of (TokenRecord.principal record) = credential_path_of child →
    Principal.role (TokenRecord.principal record) = Principal.role child) as Hrole
    by (intros Hpath%Hdigest; by apply key_role).
  intros [[Htel Hid]|[[Hpath|(_ & _ & Hs)] Hissue]].
  - rewrite Hid in Hown. rewrite (of_role_inj _ _ _ Hown Hchild_own), Htel in Hjob. done.
  - rewrite written_key in Hpath by done. specialize (Hrole Hpath). rewrite Hrole in Hjob.
    specialize (Hissue Hpath). rewrite Hby in Hissue. unfold reissue in Hissue.
    rewrite Hjob, Hjudged in Hissue. simpl in Hissue. rewrite bool_decide_false in Hissue by done.
    discriminate Hissue. intros Htel. by rewrite Htel in Hjob.
  - by rewrite job_no_session in Hs.
Qed.

Lemma not_revoked parent job :
  TokenIssuer.parent issuer ≠ parent →
  revoke_refusal (TokenRecord.held record) parent (Reading.parent_there reading) job ≠ None.
Proof.
  intros Hparent. unfold revoke_refusal. simpl. rewrite Hby. simpl. rewrite Hjudged.
  rewrite bool_decide_false by done. by rewrite Hjob, Hthere.
Qed.
Lemma not_ended principal parent :
  TokenRecord.principal record = principal →
  record_ended reading principal parent (TokenRecord.held record) = false.
Proof.
  intros <-. unfold record_ended, supervisor_token_ended, signed_in. simpl.
  rewrite bool_decide_false by (intros Hrole; by rewrite Hrole in Hjob). simpl.
  rewrite Hjob, Hby. simpl. rewrite Hjudged, Hthere. simpl. by rewrite andb_false_r.
Qed.
End Kept.

(** C21: A job's token that a parent asked for, which is there (the process
    that asked may still run, and a supervisor's registration is kept), goes at
    no other caller's request: no issue replaces it, no revocation, landing or
    sweep removes it, whatever principal and actor id the request names.  The
    digests of the values and keys tell them apart. *)
Theorem job_token_kept reading service request name record issuer :
  (∀ s t, sha256_hex s = sha256_hex t → s = t) →
  served service → fresh reading (Service.files service) → Request.signed_in request →
  Files.tokens (Service.files service) !! name = Some record →
  is_job (Principal.role (TokenRecord.principal record)) = true →
  TokenRecord.issued_by record = Some issuer → TokenIssuer.judged issuer = true →
  Reading.parent_there reading issuer = true →
  (∀ caller, Request.caller request = Some caller →
     TokenIssuer.parent issuer ≠ Principal.credential_key caller) →
  Files.tokens (Service.files (step reading service request)) !! name = Some record.
Proof.
  intros Hdigest Hserved Hfresh Hsigned Hrecord Hjob Hby Hjudged Hthere Hcaller.
  apply served_ok in Hserved as Hok.
  assert (record_path (Reading.drawn reading) ≠ name) as Hnew
    by (intros <-; destruct Hfresh as [Hnone _]; by rewrite Hrecord in Hnone).
  apply changes_keep with (Service.files service); [done|].
  destruct request; cbn [step]; cbn in Hcaller, Hsigned.
  - apply issue_token_changes; [done..|]. intros Hchild _. apply other_record with record; [done|].
    eapply not_superseded_by; [done..|]. by apply Hcaller.
  - apply issue_telemetry_changes; [done..|]. apply other_record with record; [done|].
    intros [Hid|Hs]; [by eapply not_telemetry|].
    eapply not_superseded; [done..|apply telemetry_own|done|done].
  - apply revoke_token_changes; [done|]. intros other rec Hr _ Hrefusal ->.
    rewrite Hrecord in Hr. injection Hr as <-. revert Hrefusal.
    eapply not_revoked; [done..|]. by apply Hcaller.
  - apply revoke_principal_changes; [done|]. intros other rec Hr Hp Hend ->.
    rewrite Hrecord in Hr. injection Hr as <-.
    by rewrite (not_ended reading record issuer) in Hend.
  - apply revoke_telemetry_changes; [done|]. apply other_record with record; [done|].
    by eapply not_telemetry.
  - rewrite sign_out_files. destruct Hsigned as [Hown Hrole]. apply revoke_changes; [done|].
    apply other_record with record; [done|]. eapply not_of_key; [done..|]. by rewrite Hrole.
  - apply begin_landing_changes; [done..|]. apply other_record with record; [done|].
    eapply not_of_key; [done..|apply of_role_instance|done].
  - rewrite end_landing_files. apply revoke_changes; [done|].
    apply other_record with record; [done|]. eapply not_of_key; [done..|apply of_role_instance|done].
  - apply revoke_token_of_changes; [done|]. intros other rec Hr _ Hin ->.
    rewrite Hrecord in Hr. injection Hr as <-. apply Hin. unfold signed_in. simpl.
    rewrite bool_decide_false; [done|]. intros Hrole. by rewrite Hrole in Hjob.
  - apply removes_changes, sweep_removes; [done| |].
    + intros other rec Hr _. destruct (decide (other = name)) as [->|Hne]; [left|by right].
      rewrite Hrecord in Hr. injection Hr as <-. rewrite Hby. simpl. rewrite Hjudged.
      apply negb_false_iff. unfold Reading.parent_there, TokenIssuer.there in *.
      apply andb_true_iff in Hthere as [-> _]. by destruct (TokenIssuer.registration issuer).
    + apply other_record with record; [done|]. by rewrite Hjob.
Qed.

(** *** An issue that fails *)
Lemma undo_removes gone reading files files1 child record :
  (∀ s, hex_name (sha256_hex s) = true) →
  removes gone files files1 → fresh reading files1 → TokenRecord.principal record = child →
  Files.credentials files1 !! credential_path_of child = None →
  Files.tokens (revoke_record (added files1 record (Reading.drawn reading)) child
    (record_path (Reading.drawn reading))).1 = Files.tokens files1.
Proof.
  intros Hhex Hr [Hnew Htrim] Hp Hfree. unfold revoke_record, record_path in *. rewrite Hhex. simpl.
  unfold record_path. rewrite lookup_insert_eq. simpl. rewrite bool_decide_true by done. simpl.
  unfold sweep_one. subst child. simpl. rewrite lookup_insert_eq.
  destruct (bool_decide _); simpl; rewrite delete_insert_eq; apply delete_id; exact Hnew.
Qed.

Lemma written_child child :
  issuable child → Principal.landing child = None → written_principal child = child.
Proof.
  intros Hchild Hlanding. unfold written_principal.
  destruct (decide (Principal.role child = ActorRole.ExecutorTelemetry)) as [Htel|Hplain];
    [|rewrite bool_decide_false by done; by destruct (Principal.target child)].
  destruct (telemetry_target child Hchild Htel) as (target & Htarget & Hid & Htask).
  rewrite Htarget, bool_decide_true by done. destruct Hchild as (Hcheck & _ & Hi).
  destruct (checked_target child target) as (Hfits & Hregistration & Hsession); [done..|].
  unfold Principal.target_fits in Hfits. rewrite Htel in Hfits. bool_split.
  destruct child as [role id run task tgt registration session landing]. simpl in *. subst.
  unfold Principal.telemetry. simpl in Htask. by rewrite <-Htask.
Qed.

Lemma recorded_Err {A} service actor capability resource (answer : Files * result ServiceError A) service' error :
  recorded service actor capability resource answer = (service', Err error) →
  Service.files service' = answer.1 ∧ ∃ e, answer.2 = Err e.
Proof.
  intros Heq. split; [by rewrite <-(recorded_files service actor capability resource answer), Heq|].
  destruct answer as [files [value|e]]; [discriminate|]. by exists e.
Qed.

(** An issue refused, or whose transaction does not commit, leaves no token
    that was not there: the one it wrote is taken back.  (A request that names
    the landing of an executor's telemetry is left out; what it leaves is
    [TableSample.landing_left_behind].)  A digest is a record's name. *)
Theorem failed_issue_leaves_none reading service parent child process service' error :
  (∀ s, hex_name (sha256_hex s) = true) →
  served service → fresh reading (Service.files service) → Principal.landing child = None →
  issue_token reading service parent child process = (service', Err error) →
  Files.tokens (Service.files service') ⊆ Files.tokens (Service.files service).
Proof.
  intros Hhex Hserved Hfresh Hlanding Hissue. apply served_ok in Hserved as Hok.
  unfold issue_token in Hissue.
  destruct (Principal.check child) as [[]|e] eqn:Hcheck; [|by injection Hissue as <- _].
  destruct (Principal.names_itself child) eqn:Hnames; simpl in Hissue; [|by injection Hissue as <- _].
  unfold gate in Hissue. destruct (authorize _ _ _) as [[]|e] eqn:Hauth; [|by injection Hissue as <- _].
  destruct (if bool_decide _ then _ else None) as [why|]; [by injection Hissue as <- _|].
  apply recorded_Err in Hissue as (-> & e & Hanswer).
  assert (issuable child) as Hchild.
  { split_and!; [done..|]. intros Hrole. rewrite Hrole in Hauth. apply authorize_issue in Hauth.
    by destruct (ActorContext.role (Principal.actor parent)). }
  pose proof (issue_in_leaves (λ _ _, True) reading parent child process (issuer_of reading parent process)
    (Service.files service) Hok Hfresh Hchild ltac:(done)) as Hleaves.
  unfold issuing_undone, issue_leaves in *. destruct (Reading.unheld _ _); [done|].
  destruct (issue_in _ _ _ _ _ _) as [files' [[issued wrote]|e']]; [|by destruct Hleaves as (_ & ? & _)].
  destruct (Reading.commits reading); [discriminate Hanswer|]. simpl.
  destruct (Issued.held issued); [by destruct Hleaves as [-> ->]|].
  destruct Hleaves as (-> & Hcheck' & files1 & Hr & Hf & _ & Hfree & ->).
  erewrite undo_removes; [by destruct Hr as (_ & ? & _)|done..| |done]. by apply written_child.
Qed.







End Table.
(** ** The theorems at concrete requests *)
Module TableSample.
(** A digest that tells every text apart, and one whose values are names of
    records. *)
Definition plain : Digest := λ s, s.
Definition zeros : Digest :=
  λ _, "0000000000000000000000000000000000000000000000000000000000000000".

Definition lease : LeaseToken := LeaseToken.wrap "lease".
Definition reading (drawn : string) (commits : bool) : Reading :=
  Reading.mk 0 0 [SupervisorRegistration.mk lease 10 0 0] (λ _ _, true)
    (λ _, TargetFacts.StartedCommand 9 None)
    (λ _, Some (TargetStart.Command (Some (ActorRole.User, "user")) (Some 5%Z)))
    (λ _, Some []) (λ _, true) (λ _, Some "start") (λ _, None) None 1 drawn commits.

Definition supervisor : Principal := Principal.supervisor lease 10.
Definition observer : Principal :=
  Principal.of_ (ActorContext.instance ActorRole.Observer "s").
Definition worker : Principal := Principal.worker (RunId.wrap "r") (TaskId.new 1).

Section Plain.
#[local] Existing Instance plain.
Definition service0 : Service := Service.mk Files.empty [].
Definition ask : Request := Request.IssueToken supervisor observer (Some 10%Z).
Definition service1 : Service := step (reading "t1" true) service0 ask.
Definition token1 : TokenRecord :=
  TokenRecord.mk observer 0 None (Some (issuer_of (reading "t1" true) supervisor (Some 10%Z))).

Lemma fresh1 : fresh (reading "t1" true) (Service.files service0).
Proof. split; reflexivity. Qed.
Lemma served1 : served service1.
Proof. apply served_step; [apply served_empty|apply fresh1|exact I]. Qed.
Lemma recorded1 : Files.tokens (Service.files service1) !! "t1" = Some token1.
Proof. vm_compute. reflexivity. Qed.

Lemma one_token_per_key_witness :
  held (Service.files service1) (Principal.credential_key observer) = Some (TokenRecord.held token1).
Proof.
  exact (proj1 (proj1 (proj2 (one_token_per_key service1 served1)) "t1" token1 recorded1)).
Defined.

(** A person's command asks for the same observer's token, and is refused. *)
Definition ask_again : Request := Request.IssueToken Principal.user observer (Some 20%Z).
Lemma job_token_kept_witness :
  Files.tokens (Service.files (step (reading "t2" true) service1 ask_again)) !! "t1" = Some token1.
Proof.
  apply (job_token_kept (reading "t2" true) service1 ask_again "t1" token1
    (issuer_of (reading "t1" true) supervisor (Some 10%Z))).
  - intros s t Heq. exact Heq.
  - exact served1.
  - split; vm_compute; reflexivity.
  - exact I.
  - exact recorded1.
  - reflexivity.
  - reflexivity.
  - reflexivity.
  - vm_compute. reflexivity.
  - intros caller [= <-]. vm_compute. discriminate.
Defined.

End Plain.

Section Zeros.
#[local] Existing Instance zeros.
Definition uncommitted : Service * result ServiceError Issued :=
  issue_token (reading "t1" false) (Service.mk Files.empty []) supervisor worker (Some 10%Z).
Lemma failed_issue_leaves_none_witness : Files.tokens (Service.files uncommitted.1) ⊆ ∅.
Proof.
  refine (failed_issue_leaves_none (reading "t1" false) (Service.mk Files.empty []) supervisor worker
    (Some 10%Z) uncommitted.1 ServiceError.Uncommitted _ _ _ eq_refl _).
  - intros s. reflexivity.
  - apply served_empty.
  - split; reflexivity.
  - vm_compute. reflexivity.
Defined.

(** The telemetry principal of a command's target, as a request may name it:
    with a landing. *)
Definition named : Principal :=
  Principal.telemetry (StepTarget.of_ TargetKind.Observer 1) None
    <| Principal.landing := Some (EventId.new 1) |>.
(** Its token is written, the transaction does not commit, and the undo, which
    looks for a token of the principal named, takes none back. *)
Lemma landing_left_behind :
  let answer :=
    issue_token (reading "t1" false) (Service.mk Files.empty []) Principal.user named (Some 5%Z) in
  answer.2 = Err ServiceError.Uncommitted
  ∧ Files.tokens (Service.files answer.1) !! sha256_hex "t1"
    = Some (new_record (reading "t1" false)
        (Principal.telemetry (StepTarget.of_ TargetKind.Observer 1) None) None
        (issuer_of (reading "t1" false) Principal.user (Some 5%Z))).
Proof. vm_compute. split; reflexivity. Qed.
End Zeros.
End TableSample.
