(* ===== verification/Findings.v ===== *)
(** * Findings

    What the observer found wrong, one record per problem
    ([src/src/domain/finding.rs]): the check of a finding to record, what
    recording it again changes ([merge]), by whom and to what its status may
    go, the order and the query of the list, the turns of its planners, a
    person's answer about one and the end of the proposal that remedies it.

    The module [FindingProofs] shows what a merge is, that recording a finding
    twice is recording it once, that the list's order is a total one, and that
    a settlement is decided by the proposal's tasks alone. *)
From S2P Require Import Prelude Text Vocab Ids Errors.

Module Impact.
Inductive t : Set := High | Normal | Low.
#[global] Instance eq_dec : EqDecision t.
Proof. solve_decision. Defined.
Definition as_str (v : t) : string :=
  match v with High => "high" | Normal => "normal" | Low => "low" end.
#[global] Instance string_enum : StringEnum t :=
  Build_StringEnum t "Impact" as_str [High; Normal; Low].
#[global] Instance laws : StringEnumLaws t.
Proof. string_enum_laws. Qed.
Definition rank (self : t) : Z := match self with High => 2 | Normal => 1 | Low => 0 end.
End Impact.
Abbreviation Impact := Impact.t.

Module FindingTarget.
Inductive t : Set :=
  | Queue
  | Goal (goal : GoalId)
  | Task (task : TaskId)
  | Run (run : RunId).
#[global] Instance eq_dec : EqDecision t.
Proof. solve_decision. Defined.
Definition name (self : t) : string :=
  match self with Queue => "queue" | Goal _ => "goal" | Task _ => "task" | Run _ => "run" end.
End FindingTarget.
Abbreviation FindingTarget := FindingTarget.t.

Module FindingAttributes.
Record t : Set := mk {
  id : FindingId;
  target : string;
  task_id : option TaskId;
  run_id : option RunId;
  goal_id : option GoalId;
  kind : string;
  subject : string;
  summary : string;
  impact : Impact;
  status : FindingStatus;
  occurrences : Z;
  last_seen_at : Z;
}.
#[global] Instance eq_dec : EqDecision t.
Proof. solve_decision. Defined.
End FindingAttributes.
Abbreviation FindingAttributes := FindingAttributes.t.

Module Finding.
Record t : Set := mk {
  id : FindingId;
  kind : string;
  target : string;
  task_id : option TaskId;
  run_id : option RunId;
  goal_id : option GoalId;
  subject : string;
  summary : string;
  detail : string;
  impact : Impact;
  first_seen_at : Z;
  last_seen_at : Z;
  occurrences : Z;
  evidence : list EventId;
  status : FindingStatus;
  status_reason : option string;
  proposal_id : option ProposalId;
  covered_by_task : option TaskId;
  propose_reason : option string;
  propose_requested_at : option Z;
  recorded_by : string;
  updated_at : Z;
}.
#[global] Instance updatable : Updatable t :=
  λ r, mk (id r) (kind r) (target r) (task_id r) (run_id r) (goal_id r) (subject r) (summary r)
    (detail r) (impact r) (first_seen_at r) (last_seen_at r) (occurrences r) (evidence r) (status r)
    (status_reason r) (proposal_id r) (covered_by_task r) (propose_reason r)
    (propose_requested_at r) (recorded_by r) (updated_at r).
#[global] Instance eq_dec : EqDecision t.
Proof. solve_decision. Defined.

Definition attributes (self : t) : FindingAttributes :=
  FindingAttributes.mk (id self) (target self) (task_id self) (run_id self) (goal_id self)
    (kind self) (subject self) (summary self) (impact self) (status self) (occurrences self)
    (last_seen_at self).
End Finding.
Abbreviation Finding := Finding.t.

Module NewFinding.
Record t : Set := mk {
  kind : string;
  target : FindingTarget;
  subject : string;
  summary : string;
  detail : option string;
  impact : option Impact;
  evidence : list EventId;
  propose : option string;
  by_ : string;
}.
#[global] Instance updatable : Updatable t :=
  λ r, mk (kind r) (target r) (subject r) (summary r) (detail r) (impact r) (evidence r)
    (propose r) (by_ r).

Definition validate (self : t) : Result unit :=
  _ ← require (negb (is_empty (kind self)) && (String.length (kind self) <=? 64)%nat
               && slug_text (kind self))
        (DomainError.InvalidFindingKind (kind self));
  _ ← require (negb (is_blank (summary self))) (DomainError.Blank "finding summary");
  _ ← require (is_none_or (propose self) (λ r, negb (is_blank r))) (DomainError.Blank "propose reason");
  _ ← require (negb (is_blank (by_ self))) (DomainError.Blank "recorded_by");
  require (forallb (λ id, (0 <? EventId.as_i64 id)%Z) (evidence self))
    (DomainError.NonPositiveId "evidence event ID").

Definition distinct_evidence (self : t) : list EventId := dedup_onto [] (evidence self).
End NewFinding.
Abbreviation NewFinding := NewFinding.t.

Module FindingUpdate.
Record t : Set := mk {
  finding : Finding;
  added_evidence : list EventId;
  occurred : bool;
  reopened : bool;
  changed : list string;
}.
End FindingUpdate.
Abbreviation FindingUpdate := FindingUpdate.t.

Module FindingOutcome.
Record t : Set := mk { finding : Finding; created : bool; changed : list string }.
End FindingOutcome.
Abbreviation FindingOutcome := FindingOutcome.t.

(** ** Recording a finding again

    [merge] changes a copy of the finding one field after the other, with the
    names of those it changed: [(finding, changed)] is that copy. *)
Section merge.
  Context (existing : Finding) (new : NewFinding) (now : Z).

Definition added_evidence : list EventId :=
  List.filter (λ id, negb (bool_decide (id ∈ Finding.evidence existing)))
    (NewFinding.distinct_evidence new).
Definition occurs : bool := negb (bool_decide (added_evidence = [])).
Definition reopens : bool :=
  occurs && bool_decide (Finding.status existing = FindingStatus.Resolved).

Definition merge_evidence (at_ : Finding * list string) : Finding * list string :=
  if occurs then
    (at_.1 <| Finding.evidence := Finding.evidence at_.1 ++ added_evidence |>
           <| Finding.occurrences := (Finding.occurrences at_.1 + 1)%Z |>
           <| Finding.last_seen_at := now |>,
     at_.2 ++ ["evidence"; "occurrences"; "last_seen_at"])
  else at_.
Definition merge_status (at_ : Finding * list string) : Finding * list string :=
  if reopens then
    (at_.1 <| Finding.status := FindingStatus.Open |> <| Finding.status_reason := None |>,
     at_.2 ++ ["status"])
  else at_.
Definition merge_summary (at_ : Finding * list string) : Finding * list string :=
  if bool_decide (NewFinding.summary new = Finding.summary at_.1) then at_
  else (at_.1 <| Finding.summary := NewFinding.summary new |>, at_.2 ++ ["summary"]).
Definition merge_detail (at_ : Finding * list string) : Finding * list string :=
  match NewFinding.detail new with
  | Some detail =>
      if bool_decide (detail = Finding.detail at_.1) then at_
      else (at_.1 <| Finding.detail := detail |>, at_.2 ++ ["detail"])
  | None => at_
  end.
Definition merge_impact (at_ : Finding * list string) : Finding * list string :=
  match NewFinding.impact new with
  | Some impact =>
      if bool_decide (impact = Finding.impact at_.1) then at_
      else (at_.1 <| Finding.impact := impact |>, at_.2 ++ ["impact"])
  | None => at_
  end.
Definition merge_propose (at_ : Finding * list string) : Finding * list string :=
  match NewFinding.propose new with
  | Some reason =>
      if is_none (Finding.propose_reason at_.1)
         && bool_decide (Finding.status at_.1 = FindingStatus.Open)
      then (at_.1 <| Finding.propose_reason := Some reason |>
                  <| Finding.propose_requested_at := Some now |>,
            at_.2 ++ ["propose_reason"])
      else at_
  | None => at_
  end.

Definition merge : option FindingUpdate :=
  let at_ := merge_status (merge_evidence (existing, [])) in
  let '(finding, changed) :=
    if bool_decide (Finding.status at_.1 = FindingStatus.Dismissed) then at_
    else merge_propose (merge_impact (merge_detail (merge_summary at_))) in
  if bool_decide (changed = []) then None
  else Some (FindingUpdate.mk (finding <| Finding.updated_at := now |>) added_evidence occurs
               reopens changed).
End merge.

(** ** Its status *)
Definition check_transition (finding : Finding) (to : FindingStatus) : Result unit :=
  let allowed :=
    match to with
    | FindingStatus.Resolved => FindingStatus.is_unsettled (Finding.status finding)
    | FindingStatus.Dismissed => negb (bool_decide (Finding.status finding = FindingStatus.Dismissed))
    | FindingStatus.Open | FindingStatus.Proposed => false
    end in
  require allowed
    (DomainError.FindingNotInStatus (Finding.id finding) (Finding.status finding) to).

(** [FINDING_KIND] of [ci_watch.rs], [SCHEDULED_FINDING_KIND] of its
    [scheduled.rs], and the kinds of [agent_eval/watch.rs]. *)
Definition CI_FINDING_KIND : string := "ci_failure".
Definition SCHEDULED_FINDING_KIND : string := "ci_scheduled_failure".
Definition WATCH_FINDING_KIND : string := "agent_eval_watch_due".
Definition SCORE_FINDING_KIND : string := "agent_eval_below_threshold".

Definition check_covered_by (finding : Finding) (task_closed : bool) : Result unit :=
  let refused why := DomainError.FindingCoverRefused (Finding.id finding) why in
  _ ← require (bool_decide (Finding.kind finding = CI_FINDING_KIND))
        (refused (format ["only a "; CI_FINDING_KIND; " finding takes it, not "; Finding.kind finding]));
  require (negb task_closed) (refused "the task is completed or canceled").

(** ** The list *)

(** [impact_order]: comparisons of (impact, occurrences, last seen, id),
    [Ordering::then] one after the other. *)
Definition then_with (first second : comparison) : comparison :=
  match first with Eq => second | _ => first end.
Definition impact_order (a b : Impact * Z * Z * FindingId) : comparison :=
  let '(impact_a, occurrences_a, seen_a, id_a) := a in
  let '(impact_b, occurrences_b, seen_b, id_b) := b in
  then_with (then_with (then_with
    (Impact.rank impact_b ?= Impact.rank impact_a)%Z
    (occurrences_b ?= occurrences_a)%Z)
    (seen_b ?= seen_a)%Z)
    (FindingId.as_i64 id_b ?= FindingId.as_i64 id_a)%Z.
Definition by_impact (a b : Finding) : comparison :=
  impact_order
    (Finding.impact a, Finding.occurrences a, Finding.last_seen_at a, Finding.id a)
    (Finding.impact b, Finding.occurrences b, Finding.last_seen_at b, Finding.id b).
Definition attributes_by_impact (a b : FindingAttributes) : comparison :=
  impact_order
    (FindingAttributes.impact a, FindingAttributes.occurrences a,
     FindingAttributes.last_seen_at a, FindingAttributes.id a)
    (FindingAttributes.impact b, FindingAttributes.occurrences b,
     FindingAttributes.last_seen_at b, FindingAttributes.id b).
(** [sort_by] with a comparison. *)
Definition ahead {A} (order : A → A → comparison) (a b : A) : bool :=
  match order a b with Gt => false | _ => true end.

Module FindingQuery.
Record t : Set := mk {
  id : option FindingId;
  all : bool;
  statuses : list FindingStatus;
  kinds : list string;
  target : option FindingTarget;
  full : bool;
}.
Definition admits (self : t) (finding : Finding) : bool :=
  let status :=
    match id self with
    | Some id => bool_decide (Finding.id finding = id)
    | None =>
        if negb (bool_decide (statuses self = []))
        then bool_decide (Finding.status finding ∈ statuses self)
        else all self || FindingStatus.is_unsettled (Finding.status finding)
    end in
  status && (bool_decide (kinds self = []) || bool_decide (Finding.kind finding ∈ kinds self)).
End FindingQuery.
Abbreviation FindingQuery := FindingQuery.t.

(** ** Its planners *)
Definition PROPOSE_OPTION : string := "propose".
Definition DISMISS_OPTION : string := "dismiss".
(** [MAX_DRAFT_PLANNERS] of [follow_up.rs]. *)
Definition MAX_DRAFT_PLANNERS : nat := 3.
Definition MAX_FINDING_PLANNERS : nat := MAX_DRAFT_PLANNERS.

Module ImprovementLimit.
Record t : Set := mk { running : nat; limit : nat }.
Definition reached (self : t) : bool := (limit self <=? running self)%nat.
End ImprovementLimit.
Abbreviation ImprovementLimit := ImprovementLimit.t.

Definition counts_as_improvement (kind recorded_by : string) : bool :=
  negb (bool_decide (recorded_by = ActorRole.as_str ActorRole.Supervisor)
        && (bool_decide (kind = CI_FINDING_KIND) || bool_decide (kind = WATCH_FINDING_KIND))).

Module PlannerTurns.
Record t : Set := mk { before_drafts : list Finding; improvements : list Finding }.
End PlannerTurns.
Abbreviation PlannerTurns := PlannerTurns.t.

Definition planner_turns (findings : list Finding) : PlannerTurns :=
  let '(improvements, before_drafts) :=
    List.partition (λ f, counts_as_improvement (Finding.kind f) (Finding.recorded_by f)) findings in
  PlannerTurns.mk before_drafts improvements.

Definition check_recordable_kind (kind : string) : Result unit :=
  if bool_decide (kind = CI_FINDING_KIND) || bool_decide (kind = SCHEDULED_FINDING_KIND)
  then Err (DomainError.ReservedFindingKind kind "CI watch")
  else if bool_decide (kind = WATCH_FINDING_KIND) || bool_decide (kind = SCORE_FINDING_KIND)
  then Err (DomainError.ReservedFindingKind kind "watch of the adopted agent definitions")
  else Ok tt.

Definition ended (status : TaskStatus) : bool :=
  match status with TaskStatus.Completed | TaskStatus.Canceled => true | _ => false end.
Definition improvement_running (proposal : ProposalStatus) (tasks : list TaskStatus) : bool :=
  negb (bool_decide (proposal = ProposalStatus.Canceled)) && existsb (λ s, negb (ended s)) tasks.

(** ** A person's answer *)
Module FindingAnswer.
Inductive t : Set :=
  | Propose (why : option string)
  | Dismiss (why : option string).
(** What follows the option: nothing, or a colon and the reason. *)
Definition reason (rest : string) : option (option string) :=
  if is_empty rest then Some None
  else why ← strip_prefix ":" rest;
       Some (then_some (negb (is_empty (trim why))) (trim why)).
Definition parse (text : string) : option t :=
  let text := trim text in
  match strip_prefix PROPOSE_OPTION text with
  | Some rest => Propose <$> reason rest
  | None =>
      match strip_prefix DISMISS_OPTION text with
      | Some rest => Dismiss <$> reason rest
      | None => None
      end
  end.
End FindingAnswer.
Abbreviation FindingAnswer := FindingAnswer.t.

Definition with_propose_option (options : list string) : list string :=
  if existsb (λ o, bool_decide (trim o = PROPOSE_OPTION)) options then options
  else options ++ [PROPOSE_OPTION].
Definition with_finding_options (options : list string) : list string :=
  let all := with_propose_option options in
  if existsb (λ o, bool_decide (trim o = DISMISS_OPTION)) all then all else all ++ [DISMISS_OPTION].

Definition mark_for_proposal (finding : Finding) (reason : string) (now : Z) : option Finding :=
  if bool_decide (Finding.status finding = FindingStatus.Proposed)
     || bool_decide (Finding.status finding = FindingStatus.Open)
        && is_some (Finding.propose_reason finding)
  then None
  else Some (finding <| Finding.status := FindingStatus.Open |>
                     <| Finding.status_reason := None |>
                     <| Finding.proposal_id := None |>
                     <| Finding.propose_reason := Some reason |>
                     <| Finding.propose_requested_at := Some now |>
                     <| Finding.updated_at := now |>).

(** ** Its proposal *)
Definition check_link (finding : Finding) (proposal : ProposalId) : Result bool :=
  match Finding.status finding with
  | FindingStatus.Open => Ok true
  | status =>
      if bool_decide (status = FindingStatus.Proposed)
         && bool_decide (Finding.proposal_id finding = Some proposal)
      then Ok false
      else Err (DomainError.FindingNotInStatus (Finding.id finding) status FindingStatus.Proposed)
  end.

Definition settle (proposal : ProposalStatus) (tasks : list TaskStatus) :
    option (FindingStatus * string) :=
  if bool_decide (proposal = ProposalStatus.Canceled)
  then Some (FindingStatus.Open, "its proposal was canceled")
  else if bool_decide (tasks = [])
  then then_some (bool_decide (proposal = ProposalStatus.Accepted))
         (FindingStatus.Open, "its proposal was accepted with no task")
  else if negb (forallb ended tasks) then None
  else
    let completed := length (List.filter (λ s, bool_decide (s = TaskStatus.Completed)) tasks) in
    if (completed =? 0)%nat
    then Some (FindingStatus.Open, "every task of its proposal was canceled")
    else Some (FindingStatus.Resolved,
           format ["its proposal ended: "; decimal (Z.of_nat completed); " of ";
                   decimal (Z.of_nat (length tasks)); " tasks completed"]).

(** ** What a merge is *)
Module FindingProofs.

(** What a record may say of a finding that is not so yet: evidence it does
    not hold and, unless it was dismissed, another text or impact, or a mark an
    open finding does not have. *)
Definition new_evidence (f : Finding) (new : NewFinding) : Prop :=
  ∃ id, id ∈ NewFinding.evidence new ∧ id ∉ Finding.evidence f.
Definition marks (f : Finding) (new : NewFinding) : Prop :=
  is_some (NewFinding.propose new) = true ∧ Finding.propose_reason f = None
  ∧ Finding.status f = FindingStatus.Open.
Definition says_more (f : Finding) (new : NewFinding) : Prop :=
  Finding.status f ≠ FindingStatus.Dismissed ∧
  (NewFinding.summary new ≠ Finding.summary f
   ∨ (∃ detail, NewFinding.detail new = Some detail ∧ detail ≠ Finding.detail f)
   ∨ (∃ impact, NewFinding.impact new = Some impact ∧ impact ≠ Finding.impact f)
   ∨ marks f new).
Definition brings (f : Finding) (new : NewFinding) : Prop := new_evidence f new ∨ says_more f new.

Lemma elem_of_added f new id :
  id ∈ added_evidence f new ↔ id ∈ NewFinding.evidence new ∧ id ∉ Finding.evidence f.
Proof.
  unfold added_evidence, NewFinding.distinct_evidence.
  rewrite list_elem_of_In, List.filter_In, <-list_elem_of_In, dedup_onto_elem, negb_true_iff,
    bool_decide_eq_false. set_solver.
Qed.
Lemma added_nodup f new : NoDup (added_evidence f new).
Proof.
  unfold added_evidence, NewFinding.distinct_evidence. apply NoDup_ListNoDup, List.NoDup_filter.
  apply NoDup_ListNoDup, dedup_onto_nodup, NoDup_nil_2.
Qed.
Lemma occurs_spec f new : occurs f new = true ↔ new_evidence f new.
Proof.
  unfold occurs, new_evidence. rewrite negb_true_iff, bool_decide_eq_false.
  setoid_rewrite <-elem_of_added. split; [|intros (id & Hid) Hnil; rewrite Hnil in Hid; inv Hid].
  destruct (added_evidence f new) as [|id l]; [done|]. exists id. left.
Qed.
Lemma occurs_false f new : occurs f new = false ↔ ∀ id, id ∈ NewFinding.evidence new → id ∈ Finding.evidence f.
Proof.
  rewrite <-not_true_iff_false, occurs_spec. unfold new_evidence. split; [|naive_solver].
  intros Hno id Hid. destruct (decide (id ∈ Finding.evidence f)); [done|]. exfalso. eauto.
Qed.

(** The finding a merge leaves, field by field, its [updated_at] aside. *)
Definition merged_status f new : FindingStatus :=
  if reopens f new then FindingStatus.Open else Finding.status f.
Definition takes_text f : bool := negb (bool_decide (Finding.status f = FindingStatus.Dismissed)).
Definition takes_mark f new : bool :=
  is_some (NewFinding.propose new) && is_none (Finding.propose_reason f)
  && bool_decide (merged_status f new = FindingStatus.Open).
Definition merged f new now : Finding :=
  f <| Finding.evidence := Finding.evidence f ++ added_evidence f new |>
    <| Finding.occurrences := (Finding.occurrences f + (if occurs f new then 1 else 0))%Z |>
    <| Finding.last_seen_at := (if occurs f new then now else Finding.last_seen_at f) |>
    <| Finding.status := merged_status f new |>
    <| Finding.status_reason := (if reopens f new then None else Finding.status_reason f) |>
    <| Finding.summary := (if takes_text f then NewFinding.summary new else Finding.summary f) |>
    <| Finding.detail :=
         (if takes_text f then unwrap_or (NewFinding.detail new) (Finding.detail f) else Finding.detail f) |>
    <| Finding.impact :=
         (if takes_text f then unwrap_or (NewFinding.impact new) (Finding.impact f) else Finding.impact f) |>
    <| Finding.propose_reason :=
         (if takes_mark f new then NewFinding.propose new else Finding.propose_reason f) |>
    <| Finding.propose_requested_at :=
         (if takes_mark f new then Some now else Finding.propose_requested_at f) |>.


(** Each step of a merge: what it leaves, and the names it adds. *)
Lemma merge_evidence_is f new now :
  merge_evidence f new now (f, [])
  = (f <| Finding.evidence := Finding.evidence f ++ added_evidence f new |>
       <| Finding.occurrences := (Finding.occurrences f + (if occurs f new then 1 else 0))%Z |>
       <| Finding.last_seen_at := (if occurs f new then now else Finding.last_seen_at f) |>,
     if occurs f new then ["evidence"; "occurrences"; "last_seen_at"] else []).
Proof.
  unfold merge_evidence. destruct (occurs f new) eqn:Hoccurs; [done|].
  assert (added_evidence f new = []) as ->.
  { unfold occurs in Hoccurs. by apply negb_false_iff, bool_decide_eq_true in Hoccurs. }
  destruct f. simpl. by rewrite app_nil_r, Z.add_0_r.
Qed.
Lemma merge_status_is f new at_ :
  Finding.status at_.1 = Finding.status f → Finding.status_reason at_.1 = Finding.status_reason f →
  merge_status f new at_
  = (at_.1 <| Finding.status := merged_status f new |>
           <| Finding.status_reason := (if reopens f new then None else Finding.status_reason f) |>,
     at_.2 ++ (if reopens f new then ["status"] else [])).
Proof.
  unfold merge_status, merged_status. intros Hstatus Hreason. destruct (reopens f new); [done|].
  destruct at_ as [[] names]. simpl in *. by rewrite app_nil_r, Hstatus, Hreason.
Qed.
Lemma merge_summary_is new at_ :
  merge_summary new at_
  = (at_.1 <| Finding.summary := NewFinding.summary new |>,
     at_.2 ++ (if bool_decide (NewFinding.summary new = Finding.summary at_.1) then [] else ["summary"])).
Proof.
  unfold merge_summary. case_bool_decide as Heq; [|done].
  destruct at_ as [[] names]. simpl in *. by rewrite app_nil_r, Heq.
Qed.
Definition other {A} `{EqDecision A} (new : option A) (old : A) : bool :=
  is_some_and new (λ new, negb (bool_decide (new = old))).
Lemma other_spec {A} `{EqDecision A} (new : option A) old :
  other new old = true ↔ ∃ a, new = Some a ∧ a ≠ old.
Proof.
  destruct new as [a|]; simpl; [|naive_solver]. rewrite negb_true_iff, bool_decide_eq_false. naive_solver.
Qed.
Lemma merge_detail_is new at_ :
  merge_detail new at_
  = (at_.1 <| Finding.detail := unwrap_or (NewFinding.detail new) (Finding.detail at_.1) |>,
     at_.2 ++ (if other (NewFinding.detail new) (Finding.detail at_.1) then ["detail"] else [])).
Proof.
  unfold merge_detail, other. destruct (NewFinding.detail new) as [detail|]; simpl.
  - case_bool_decide as Heq; [|done]. destruct at_ as [[] names]. simpl in *. by rewrite app_nil_r, Heq.
  - destruct at_ as [[] names]. simpl. by rewrite app_nil_r.
Qed.
Lemma merge_impact_is new at_ :
  merge_impact new at_
  = (at_.1 <| Finding.impact := unwrap_or (NewFinding.impact new) (Finding.impact at_.1) |>,
     at_.2 ++ (if other (NewFinding.impact new) (Finding.impact at_.1) then ["impact"] else [])).
Proof.
  unfold merge_impact, other. destruct (NewFinding.impact new) as [impact|]; simpl.
  - case_bool_decide as Heq; [|done]. destruct at_ as [[] names]. simpl in *. by rewrite app_nil_r, Heq.
  - destruct at_ as [[] names]. simpl. by rewrite app_nil_r.
Qed.
Lemma merge_propose_is f new now at_ :
  Finding.status at_.1 = merged_status f new →
  Finding.propose_reason at_.1 = Finding.propose_reason f →
  Finding.propose_requested_at at_.1 = Finding.propose_requested_at f →
  merge_propose new now at_
  = (at_.1 <| Finding.propose_reason :=
                (if takes_mark f new then NewFinding.propose new else Finding.propose_reason f) |>
           <| Finding.propose_requested_at :=
                (if takes_mark f new then Some now else Finding.propose_requested_at f) |>,
     at_.2 ++ (if takes_mark f new then ["propose_reason"] else [])).
Proof.
  unfold merge_propose, takes_mark. intros Hstatus Hreason Hat.
  rewrite Hstatus, Hreason. destruct (NewFinding.propose new) as [reason|]; simpl.
  - destruct (is_none _ && _); [done|].
    destruct at_ as [[] names]. simpl in *. by rewrite app_nil_r, Hreason, Hat.
  - destruct at_ as [[] names]. simpl in *. by rewrite app_nil_r, Hreason, Hat.
Qed.

(** The names of what a merge changes. *)
Definition changes f new : list string :=
  (if occurs f new then ["evidence"; "occurrences"; "last_seen_at"] else [])
  ++ (if reopens f new then ["status"] else [])
  ++ (if takes_text f then
        (if bool_decide (NewFinding.summary new = Finding.summary f) then [] else ["summary"])
        ++ (if other (NewFinding.detail new) (Finding.detail f) then ["detail"] else [])
        ++ (if other (NewFinding.impact new) (Finding.impact f) then ["impact"] else [])
        ++ (if takes_mark f new then ["propose_reason"] else [])
      else []).

Lemma merged_status_dismissed f new :
  merged_status f new = FindingStatus.Dismissed ↔ Finding.status f = FindingStatus.Dismissed.
Proof.
  unfold merged_status, reopens. destruct (occurs f new); simpl; [|done].
  case_bool_decide as Hs; [|done]. by rewrite Hs.
Qed.
Lemma takes_mark_text f new : takes_mark f new = true → takes_text f = true.
Proof.
  unfold takes_mark, takes_text. intros Htakes. bool_split.
  rewrite negb_true_iff, bool_decide_eq_false, <-(merged_status_dismissed f new). congruence.
Qed.

Lemma merge_is f new now :
  merge f new now =
  if bool_decide (changes f new = []) then None
  else Some (FindingUpdate.mk (merged f new now <| Finding.updated_at := now |>)
               (added_evidence f new) (occurs f new) (reopens f new) (changes f new)).
Proof.
  unfold merge. rewrite merge_evidence_is, merge_status_is by done. simpl.
  assert (bool_decide (merged_status f new = FindingStatus.Dismissed) = negb (takes_text f)) as ->.
  { unfold takes_text. rewrite negb_involutive. apply bool_decide_ext, merged_status_dismissed. }
  unfold changes, merged. destruct (takes_text f) eqn:Htext; simpl.
  - rewrite merge_summary_is, merge_detail_is, merge_impact_is, (merge_propose_is f) by done.
    simpl. by rewrite <-!app_assoc.
  - assert (takes_mark f new = false) as ->.
    { apply not_true_iff_false. intros Htakes%takes_mark_text. congruence. }
    rewrite app_nil_r. by destruct f.
Qed.

Lemma takes_mark_spec f new :
  occurs f new = false → takes_mark f new = true ↔ marks f new.
Proof.
  unfold takes_mark, merged_status, reopens, marks. intros ->. simpl.
  rewrite !andb_true_iff, bool_decide_eq_true. unfold is_none. rewrite negb_true_iff.
  destruct (Finding.propose_reason f); simpl; naive_solver.
Qed.

Lemma changes_nil f new : changes f new = [] ↔ ¬ brings f new.
Proof.
  unfold changes, brings, says_more. pose proof (occurs_spec f new) as Hoccurs.
  pose proof (takes_mark_spec f new) as Hmark.
  destruct (occurs f new) eqn:Ho; simpl; [split; [done|naive_solver]|].
  unfold reopens. rewrite Ho. simpl. unfold takes_text.
  specialize (Hmark eq_refl).
  pose proof (other_spec (NewFinding.detail new) (Finding.detail f)) as Hdetail.
  pose proof (other_spec (NewFinding.impact new) (Finding.impact f)) as Himpact.
  case_bool_decide as Hs; simpl; [split; [intros _|done]; naive_solver|].
  case_bool_decide as Hsum; simpl; [|split; [done|naive_solver]].
  destruct (other (NewFinding.detail new) _); simpl; [split; [done|naive_solver]|].
  destruct (other (NewFinding.impact new) _); simpl; [split; [done|naive_solver]|].
  destruct (takes_mark f new); simpl; [split; [done|naive_solver]|].
  split; [intros _|done]. naive_solver.
Qed.

(** What was merged brings nothing more. *)
Lemma merged_brings_nothing f new now at_ : ¬ brings (merged f new now <| Finding.updated_at := at_ |>) new.
Proof.
  unfold brings, new_evidence, says_more, marks, merged. simpl. intros [(id & Hid & Hno)|(Hs & Hmore)].
  - apply Hno. rewrite elem_of_app, elem_of_added. destruct (decide (id ∈ Finding.evidence f)); auto.
  - assert (takes_text f = true) as Htext.
    { unfold takes_text. rewrite negb_true_iff, bool_decide_eq_false. by rewrite <-(merged_status_dismissed f new). }
    rewrite Htext in Hmore. destruct Hmore as [?|[(d & Hd & Hne)|[(i & Hi & Hne)|(Hpropose & Hnone & Hopen)]]].
    + done.
    + by rewrite Hd in Hne.
    + by rewrite Hi in Hne.
    + unfold takes_mark in Hnone. rewrite Hpropose, Hopen in Hnone. simpl in Hnone.
      destruct (Finding.propose_reason f) eqn:Hreason; simpl in Hnone; [done|].
      by rewrite Hnone in Hpropose.
Qed.

(** Recording a finding again writes nothing exactly when the record
    brings nothing: no evidence the finding does not hold and, unless it was
    dismissed, no other text or impact and no mark it lacks.  What it writes
    holds each event once, counts one occurrence for however much evidence,
    opens the finding only if it was resolved and evidence came, leaves the
    text and mark of a dismissed one, and never changes what problem it is.  And
    recording the same a second time, whenever, writes nothing. *)
Theorem recording_twice_is_once f new now later :
  (merge f new now = None ↔ ¬ brings f new)
  ∧ ∀ update, merge f new now = Some update →
    let g := FindingUpdate.finding update in
    (∀ id, id ∈ Finding.evidence g ↔ id ∈ Finding.evidence f ∨ id ∈ NewFinding.evidence new)
    ∧ (NoDup (Finding.evidence f) → NoDup (Finding.evidence g))
    ∧ (new_evidence f new ∧ Finding.occurrences g = (Finding.occurrences f + 1)%Z
         ∧ Finding.last_seen_at g = now
       ∨ ¬ new_evidence f new ∧ Finding.occurrences g = Finding.occurrences f
         ∧ Finding.last_seen_at g = Finding.last_seen_at f)
    ∧ (Finding.status g = Finding.status f
       ∨ Finding.status f = FindingStatus.Resolved ∧ new_evidence f new
         ∧ Finding.status g = FindingStatus.Open)
    ∧ (Finding.status f = FindingStatus.Dismissed →
       Finding.summary g = Finding.summary f ∧ Finding.detail g = Finding.detail f
       ∧ Finding.impact g = Finding.impact f ∧ Finding.propose_reason g = Finding.propose_reason f)
    ∧ (∀ reason, Finding.propose_reason f = Some reason → Finding.propose_reason g = Some reason)
    ∧ merge g new later = None.
Proof.
  split.
  { rewrite <-changes_nil, merge_is. case_bool_decide; naive_solver. }
  intros update. rewrite merge_is. case_bool_decide as Hc; [done|]. intros [= <-]. simpl.
  rewrite (merge_is _ new later), bool_decide_true by apply changes_nil, merged_brings_nothing.
  pose proof (occurs_spec f new) as Hoccurs. split_and!; [..|done].
  - intros id. rewrite elem_of_app, elem_of_added.
    destruct (decide (id ∈ Finding.evidence f)); tauto.
  - intros Hnd. apply NoDup_app. split_and!; [done| |apply added_nodup].
    intros id Hid. rewrite elem_of_added. tauto.
  - destruct (occurs f new); [left|right; rewrite Z.add_0_r]; naive_solver.
  - unfold merged_status, reopens. destruct (occurs f new); simpl; [|by left].
    case_bool_decide; [right; naive_solver|by left].
  - intros Hd. assert (takes_text f = false) as Htext by (unfold takes_text; by rewrite bool_decide_true).
    rewrite Htext. assert (takes_mark f new = false) as ->; [|done].
    apply not_true_iff_false. intros Htakes%takes_mark_text. congruence.
  - intros reason Hreason. unfold takes_mark. by rewrite Hreason, andb_false_r.
Qed.

(** *** The list's order *)

(** Largest impact first, then more occurrences, then the latest seen, then the
    newest: keys compared one after the other. *)
Definition impact_key (a : Impact * Z * Z * FindingId) : list Z :=
  let '(impact, occurrences, seen, id) := a in
  [(- Impact.rank impact)%Z; (- occurrences)%Z; (- seen)%Z; (- FindingId.as_i64 id)%Z].
Lemma impact_order_key a b :
  match impact_order a b with Gt => false | _ => true end = lex_leb (impact_key a) (impact_key b).
Proof.
  destruct a as [[[i1 o1] s1] d1], b as [[[i2 o2] s2] d2]. simpl.
  destruct (Z.compare_spec (Impact.rank i2) (Impact.rank i1)),
    (Z.compare_spec o2 o1), (Z.compare_spec s2 s1),
    (Z.compare_spec (FindingId.as_i64 d2) (FindingId.as_i64 d1)); simpl;
    repeat match goal with |- context [(?x <? ?y)%Z] => destruct (Z.ltb_spec x y); try lia end;
    repeat match goal with |- context [(?x =? ?y)%Z] => destruct (Z.eqb_spec x y); try lia end;
    simpl; try reflexivity; try lia.
Qed.
Definition finding_key (f : Finding) : list Z :=
  impact_key (Finding.impact f, Finding.occurrences f, Finding.last_seen_at f, Finding.id f).
Definition attributes_key (a : FindingAttributes) : list Z :=
  impact_key (FindingAttributes.impact a, FindingAttributes.occurrences a,
              FindingAttributes.last_seen_at a, FindingAttributes.id a).
Lemma by_impact_key l : sort_by (ahead by_impact) l = sort_by_key finding_key l.
Proof. unfold sort_by_key. apply sort_by_ext. intros a b. apply impact_order_key. Qed.
Lemma attributes_by_impact_key l :
  sort_by (ahead attributes_by_impact) l = sort_by_key attributes_key l.
Proof. unfold sort_by_key. apply sort_by_ext. intros a b. apply impact_order_key. Qed.

(** *** The end of a proposal *)

(** A finding's proposal ends once none of its tasks is to be done: the finding
    is resolved exactly when one was completed. *)
Lemma settle_spec proposal tasks :
  match settle proposal tasks with
  | None =>
      improvement_running proposal tasks = true
      ∨ tasks = [] ∧ proposal ≠ ProposalStatus.Canceled ∧ proposal ≠ ProposalStatus.Accepted
  | Some (to, _) =>
      improvement_running proposal tasks = false
      ∧ (to = FindingStatus.Resolved
           ∧ proposal ≠ ProposalStatus.Canceled ∧ TaskStatus.Completed ∈ tasks
         ∨ to = FindingStatus.Open
           ∧ (proposal = ProposalStatus.Canceled ∨ TaskStatus.Completed ∉ tasks))
  end.
Proof.
  unfold settle, improvement_running.
  case_bool_decide as Hcanceled; simpl; [by split; [|right; auto]|].
  case_bool_decide as Hnil; simpl.
  { subst. case_bool_decide; simpl; [|by right]. split; [done|]. right. split; [done|]. right. set_solver. }
  assert (existsb (λ s, negb (ended s)) tasks = negb (forallb ended tasks)) as ->.
  { clear. induction tasks as [|s tasks IH]; simpl; [done|]. rewrite IH. by rewrite negb_andb. }
  destruct (forallb ended tasks) eqn:Hended; simpl; [|by left].
  destruct (Nat.eqb_spec (length (List.filter (λ s, bool_decide (s = TaskStatus.Completed)) tasks)) 0)
    as [Hzero|Hpos]; (split; [done|]); [right|left]; (split; [done|]).
  - right. intros Hin. apply length_zero_iff_nil in Hzero.
    assert (TaskStatus.Completed ∈ List.filter (λ s, bool_decide (s = TaskStatus.Completed)) tasks) as Hf.
    { apply list_elem_of_In, List.filter_In. split; [by apply list_elem_of_In|done]. }
    rewrite Hzero in Hf. inv Hf.
  - split; [done|].
    destruct (List.filter _ tasks) as [|s rest] eqn:Hfilter; [done|].
    assert (s ∈ s :: rest) as Hs by left. rewrite <-Hfilter in Hs.
    apply list_elem_of_In, List.filter_In in Hs as [Hs Heq]. bool_split. subst.
    by apply list_elem_of_In.
Qed.

(** *** Samples *)
Definition sample : Finding :=
  Finding.mk (FindingId.new 1) "stall" "queue" None None None "idle_slots" "slots idle" "no candidates"
    Impact.Normal 10 10 1 [EventId.new 5] FindingStatus.Open None None None None None "observer" 10.
Definition record_of (evidence : list Z) : NewFinding :=
  NewFinding.mk "stall" FindingTarget.Queue "idle_slots" "slots idle" None None
    (EventId.new <$> evidence) None "observer".

Example merge_sample :
  merge sample (record_of [5]%Z) 20 = None
  ∧ (λ u, (Finding.occurrences (FindingUpdate.finding u), FindingUpdate.changed u))
      <$> merge sample (record_of [5; 7; 8; 7]%Z) 20
    = Some (2%Z, ["evidence"; "occurrences"; "last_seen_at"]).
Proof. vm_compute. split; reflexivity. Qed.
Example answer_sample :
  FindingAnswer.parse " propose: it recurs " = Some (FindingAnswer.Propose (Some "it recurs"))
  ∧ FindingAnswer.parse "dismiss" = Some (FindingAnswer.Dismiss None)
  ∧ FindingAnswer.parse "proposed" = None.
Proof. vm_compute. split_and!; reflexivity. Qed.
Lemma recording_twice_is_once_witness :
  ∃ update, merge sample (record_of [7]%Z) 20 = Some update
  ∧ merge (FindingUpdate.finding update) (record_of [7]%Z) 30 = None.
Proof.
  eexists. split; [vm_compute; reflexivity|].
  exact (proj2 (proj2 (proj2 (proj2 (proj2 (proj2
    (proj2 (recording_twice_is_once sample (record_of [7]%Z) 20 30) _ eq_refl))))))).
Defined.
End FindingProofs.
