(* ===== verification/FindingLedger.v ===== *)
(** * The findings of the event log

    Every change of a finding records its attributes after the change, and the
    measurement folds them from the events alone: [fold] and [Recorded] of
    [src/src/domain/ledger/findings.rs], with the window of records whose
    baselines come in groups ([src/src/domain/ledger/baseline.rs]) and the
    reading of an event's time ([timestamp_millis] of
    [src/src/domain/stats.rs]).

    [LedgerProofs] shows that attributes written to a payload read back, and
    that a later record is what the fold knows of its finding.  What the store
    promises of its own events is in FindingTable. *)
From Stdlib Require Import Ascii.
From S2P Require Import Prelude Text Vocab Ids Errors EventKinds Events Actors Findings.

(** ** The time of an event *)
(** The first three bytes of a fraction, padded with zeros. *)
Definition padded (fraction : string) : string :=
  String.substring 0 3 (format [fraction; "000"]).

Definition timestamp_millis (text : string) : option Z :=
  let text := unwrap_or (strip_last "Z" text) text in
  cut ← split_once_any ["T"%char; " "%char] text;
  let '(date, time) := cut in
  match splitn 3 "-" date with
  | [year; month; day] =>
      year ← parse_i64 year; month ← parse_i64 month; day ← parse_i64 day;
      match splitn 3 ":" time with
      | [hour; minute; seconds] =>
          hour ← parse_i64 hour; minute ← parse_i64 minute;
          let '(second, fraction) := unwrap_or (split_once "." seconds) (seconds, EmptyString) in
          second ← parse_i64 second; millis ← parse_i64 (padded fraction);
          if negb ((1 <=? month) && (month <=? 12))%Z || negb ((1 <=? day) && (day <=? 31))%Z
          then None
          else
            let y := if (month <=? 2)%Z then wrap_i64 (year - 1) else year in
            let era := (y / 400)%Z in
            let yoe := (y - era * 400)%Z in
            let mp := ((month + 9) mod 12)%Z in
            let doy := ((153 * mp + 2) / 5 + day - 1)%Z in
            let doe := (yoe * 365 + yoe / 4 - yoe / 100 + doy)%Z in
            let days := (era * 146097 + doe - 719468)%Z in
            Some (wrap_i64 (((days * 24 + hour) * 60 + minute) * 60000 + second * 1000 + millis))
      | _ => None
      end
  | _ => None
  end.

Example millis_sample :
  timestamp_millis "1970-01-01T00:00:00.000Z" = Some 0%Z
  ∧ timestamp_millis "2026-09-26T08:52:00.1Z" = Some 1790412720100%Z
  ∧ timestamp_millis "2024-02-29 00:00:00Z" = Some 1709164800000%Z
  ∧ timestamp_millis "2024-13-01T00:00:00Z" = None.
Proof. vm_compute. split_and!; reflexivity. Qed.

(** ** The window of records *)
Module WindowEnd.
Record t : Set := mk { upto : option EventId; ms : option Z }.
Definition secs (secs : option Z) : t := mk None ((λ secs, wrap_i64 (secs * 1000)) <$> secs).
Definition holds {P} (self : t) (event : RunEvent P) : bool :=
  is_none_or (upto self) (λ upto, (EventId.as_i64 (RunEvent.id event) <=? EventId.as_i64 upto)%Z)
  && is_none_or (ms self) (λ end_,
       is_some_and (timestamp_millis (RunEvent.created_at event)) (λ at_, (at_ <=? end_)%Z)).
End WindowEnd.
Abbreviation WindowEnd := WindowEnd.t.

Section taken.
  Context {P : Type} (end_ : WindowEnd) (is_mark is_record : RunEvent P → bool).

(** The loop over the events from the last one: what each is taken as, and
    what the mark after it closes. *)
Fixpoint taken_from (events : list (RunEvent P)) : list bool * option bool :=
  match events with
  | [] => ([], None)
  | event :: events =>
      let '(taken, closing) := taken_from events in
      let within := WindowEnd.holds end_ event in
      if is_mark event then (within :: taken, Some within)
      else if is_record event then (unwrap_or closing within :: taken, closing)
      else (within :: taken, closing)
  end.
Definition taken (events : list (RunEvent P)) : option (list bool) :=
  if is_some_and (List.find is_mark events) (λ mark, negb (WindowEnd.holds end_ mark)) then None
  else Some (taken_from events).1.

Lemma taken_from_length events : length (taken_from events).1 = length events.
Proof.
  induction events as [|event events IH]; simpl; [done|].
  destruct (taken_from events) as [l closing]. simpl in IH.
  destruct (is_mark event), (is_record event); simpl; by rewrite IH.
Qed.

(** A window of every event takes every event. *)
Lemma taken_all events :
  (∀ event, event ∈ events → WindowEnd.holds end_ event = true) →
  taken events = Some (replicate (length events) true).
Proof.
  intros Hall. unfold taken.
  assert (is_some_and (List.find is_mark events) (λ mark, negb (WindowEnd.holds end_ mark)) = false) as ->.
  { destruct (List.find is_mark events) as [mark|] eqn:Hfind; [|done].
    apply List.find_some in Hfind as [Hin _]. simpl. by rewrite Hall by (by apply list_elem_of_In). }
  f_equal.
  assert ((taken_from events).1 = replicate (length events) true
          ∧ ((taken_from events).2 = None ∨ (taken_from events).2 = Some true)) as [? _]; [|done].
  induction events as [|event events IH]; simpl; [by split; [|left]|].
  destruct IH as [Htaken Hclosing]; [set_solver|].
  destruct (taken_from events) as [l closing]. simpl in *. subst l.
  rewrite (Hall event) by left.
  destruct (is_mark event), (is_record event); simpl; (split; [|by auto]); try done.
  by destruct Hclosing as [-> | ->].
Qed.
End taken.

(** ** The findings known from the records *)
Definition LEDGER_KINDS : list EventKind :=
  [EventKind.FindingBaseline; EventKind.FindingRecorded; EventKind.FindingUpdated;
   EventKind.FindingStatusChanged].
Definition VALUES : string := "finding".

(** [Findings]: a [BTreeMap], whose values come in the order of their keys. *)
Module KnownFindings.
Record t : Set := mk { findings : gmap FindingId FindingAttributes }.
Definition values (self : t) : list FindingAttributes :=
  snd <$> sort_by_key (λ entry, [FindingId.as_i64 entry.1]) (map_to_list (findings self)).
Definition unsettled (self : t) : list FindingAttributes :=
  sort_by (ahead attributes_by_impact)
    (List.filter (λ a, FindingStatus.is_unsettled (FindingAttributes.status a)) (values self)).
End KnownFindings.
Abbreviation KnownFindings := KnownFindings.t.

Module Folded.
Inductive t : Set := BeforeBaseline | Findings (findings : KnownFindings).
End Folded.
Abbreviation Folded := Folded.t.

Section ledger.
  Context {P : Type} `{Payload P}.

(** [serde_json::to_value] of the attributes. *)
Definition attributes_value (a : FindingAttributes) : P :=
  object
    [("id", of_number (FindingId.as_i64 (FindingAttributes.id a)));
     ("target", of_text (FindingAttributes.target a));
     ("task_id", or_null (λ t, of_number (TaskId.as_i64 t)) (FindingAttributes.task_id a));
     ("run_id", or_null (λ r, of_text (RunId.as_str r)) (FindingAttributes.run_id a));
     ("goal_id", or_null (λ g, of_number (GoalId.as_i64 g)) (FindingAttributes.goal_id a));
     ("kind", of_text (FindingAttributes.kind a));
     ("subject", of_text (FindingAttributes.subject a));
     ("summary", of_text (FindingAttributes.summary a));
     ("impact", of_text (as_str (FindingAttributes.impact a)));
     ("status", of_text (as_str (FindingAttributes.status a)));
     ("occurrences", of_number (FindingAttributes.occurrences a));
     ("last_seen_at", of_number (FindingAttributes.last_seen_at a))].

Definition restore (value : P) : option FindingAttributes :=
  id ← required as_number value "id";
  target ← required as_text value "target";
  task_id ← optional as_number value "task_id";
  run_id ← optional as_text value "run_id";
  goal_id ← optional as_number value "goal_id";
  kind ← required as_text value "kind";
  subject ← required as_text value "subject";
  summary ← required as_text value "summary";
  impact ← required (as_enum Impact) value "impact";
  status ← required (as_enum FindingStatus) value "status";
  occurrences ← required as_number value "occurrences";
  last_seen_at ← required as_number value "last_seen_at";
  run_id ← match run_id with
           | Some run => match run_id_new run with Ok run => Some (Some run) | Err _ => None end
           | None => Some None
           end;
  Some (FindingAttributes.mk (FindingId.new id) target (TaskId.new <$> task_id) run_id
          (GoalId.new <$> goal_id) kind subject summary impact status occurrences last_seen_at).

Definition values (event : RunEvent P) : option P := field (RunEvent.payload event) VALUES.
Definition values_of (event : RunEvent P) : option FindingAttributes := values event ≫= restore.

(** What an event taken by the window makes of the findings known before. *)
Definition fold_event (known : gmap FindingId FindingAttributes) (event : RunEvent P) :
    gmap FindingId FindingAttributes :=
  if RunEvent.is_in event LEDGER_KINDS then
    match values_of event with
    | Some finding => <[FindingAttributes.id finding := finding]> known
    | None => known
    end
  else known.
Definition is_baseline_mark (event : RunEvent P) : bool :=
  RunEvent.is_kind event EventKind.FindingBaseline && is_none (values event).
Definition is_baseline_record (event : RunEvent P) : bool :=
  RunEvent.is_kind event EventKind.FindingBaseline && is_some (values event).
Definition fold_within (events : list (RunEvent P)) (end_ : WindowEnd) : Folded :=
  match taken end_ is_baseline_mark is_baseline_record events with
  | None => Folded.BeforeBaseline
  | Some taken =>
      Folded.Findings (KnownFindings.mk
        (foldl fold_event ∅ (fst <$> List.filter snd (zip events taken))))
  end.
Definition fold (events : list (RunEvent P)) (window_end : option Z) : Folded :=
  fold_within events (WindowEnd.secs window_end).
End ledger.

(** ** What is written reads back *)
Module LedgerProofs.
Section proofs.
  Context {P : Type} `{Payload P} `{!PayloadLaws P}.
  Implicit Types (events : list (RunEvent P)) (e : RunEvent P).

(** The runs of rows are ones [RunId::new] made. *)
Definition run_known (run : option RunId) : Prop :=
  ∀ r, run = Some r → run_id_new (RunId.as_str r) = Ok r.

Lemma as_enum_of_text {A} `{StringEnumLaws A} (v : A) : as_enum A (of_text (as_str v)) = Some v.
Proof. unfold as_enum. rewrite as_text_of_text. apply parse_as_str. Qed.

Lemma read_or_null {A B} (read : P → option A) (write : B → P) (into : B → A) (value : option B) :
  (∀ b, read (write b) = Some (into b)) → (∀ b, is_null (write b) = false) →
  (if is_null (or_null write value) then Some None else Some <$> read (or_null write value))
  = Some (into <$> value).
Proof.
  intros Hread Hnull. destruct value as [b|]; simpl; [by rewrite Hnull, Hread|by rewrite is_null_null].
Qed.
Lemma restore_attributes (a : FindingAttributes) :
  run_known (FindingAttributes.run_id a) → restore (attributes_value a) = Some a.
Proof.
  intros Hrun. destruct a as [id target task run goal kind subject summary impact status occurrences seen].
  simpl in Hrun. unfold restore, attributes_value, required, optional. rewrite !field_object.
  cbn [List.find fst snd fmap option_fmap option_map String.eqb Ascii.eqb Bool.eqb mbind option_bind
       FindingAttributes.id FindingAttributes.target FindingAttributes.task_id FindingAttributes.run_id
       FindingAttributes.goal_id FindingAttributes.kind FindingAttributes.subject
       FindingAttributes.summary FindingAttributes.impact FindingAttributes.status
       FindingAttributes.occurrences FindingAttributes.last_seen_at].
  rewrite !as_number_of_number, !as_text_of_text, !as_enum_of_text. cbn [mbind option_bind].
  rewrite (read_or_null as_number (λ t, of_number (TaskId.as_i64 t)) TaskId.as_i64) by
    (intros; apply as_number_of_number || apply is_null_of_number).
  rewrite (read_or_null as_text (λ r, of_text (RunId.as_str r)) RunId.as_str) by
    (intros; apply as_text_of_text || apply is_null_of_text).
  rewrite (read_or_null as_number (λ g, of_number (GoalId.as_i64 g)) GoalId.as_i64) by
    (intros; apply as_number_of_number || apply is_null_of_number).
  cbn [mbind option_bind].
  assert (match RunId.as_str <$> run with
          | Some run => match run_id_new run with Ok run => Some (Some run) | Err _ => None end
          | None => Some None
          end = Some run) as ->.
  { destruct run as [r|]; simpl; [by rewrite (Hrun r)|done]. }
  destruct id, task as [[]|], goal as [[]|]; done.
Qed.

(** A window of every event folds every event. *)
Lemma fold_every events :
  fold events None = Folded.Findings (KnownFindings.mk (foldl fold_event ∅ events)).
Proof.
  unfold fold, fold_within. rewrite taken_all by done. do 3 f_equal.
  induction events as [|e events IH]; simpl; [done|]. exact (f_equal (cons e) IH).
Qed.

(** A record is what is known of its finding from then on. *)
Lemma fold_event_other known e : RunEvent.is_in e LEDGER_KINDS = false → fold_event known e = known.
Proof. unfold fold_event. by intros ->. Qed.
Lemma fold_event_record known e fields a :
  RunEvent.is_in e LEDGER_KINDS = true → is_object fields = true →
  RunEvent.payload e = set_field fields VALUES (attributes_value a) →
  run_known (FindingAttributes.run_id a) →
  fold_event known e = <[FindingAttributes.id a := a]> known.
Proof.
  intros Hin Hobject Hpayload Hrun. unfold fold_event, values_of, values.
  rewrite Hin, Hpayload, field_set_field, String.eqb_refl by done. simpl. by rewrite restore_attributes.
Qed.
End proofs.

Lemma map_to_list_rows (known : gmap FindingId FindingAttributes) (rows : list Finding) :
  NoDup (Finding.id <$> rows) →
  (∀ id, known !! id = Finding.attributes <$> List.find (λ f, bool_decide (Finding.id f = id)) rows) →
  map_to_list known ≡ₚ (λ f, (Finding.id f, Finding.attributes f)) <$> rows.
Proof.
  intros Hnd Hknown.
  assert (known = list_to_map ((λ f, (Finding.id f, Finding.attributes f)) <$> rows)) as ->.
  { apply map_eq. intros id. rewrite Hknown. clear. induction rows as [|f rows IH]; simpl; [done|].
    case_bool_decide as Hid; [subst; by rewrite lookup_insert_eq|by rewrite lookup_insert_ne]. }
  apply map_to_list_to_map. by rewrite <-list_fmap_compose.
Qed.

(** The measurement's list is the list of the rows, when what it knows are
    their attributes. *)
Lemma unsettled_of_rows known (rows : list Finding) :
  NoDup (Finding.id <$> rows) →
  (∀ id, known !! id = Finding.attributes <$> List.find (λ f, bool_decide (Finding.id f = id)) rows) →
  KnownFindings.unsettled (KnownFindings.mk known)
  = Finding.attributes <$> sort_by (ahead by_impact)
      (List.filter (λ f, FindingStatus.is_unsettled (Finding.status f)) rows).
Proof.
  intros Hnd Hknown. unfold KnownFindings.unsettled.
  rewrite FindingProofs.attributes_by_impact_key, FindingProofs.by_impact_key.
  change FindingProofs.finding_key with (FindingProofs.attributes_key ∘ Finding.attributes).
  rewrite <-sort_by_key_fmap.
  assert (KnownFindings.values (KnownFindings.mk known) ≡ₚ Finding.attributes <$> rows) as Hvalues.
  { unfold KnownFindings.values. rewrite sort_by_key_perm. simpl.
    rewrite (map_to_list_rows known rows) by done. by rewrite <-list_fmap_compose. }
  apply sort_by_key_unique.
  - intros a b Ha Hb [= _ _ _ Hid].
    assert (NoDup (FindingAttributes.id <$> KnownFindings.values (KnownFindings.mk known))) as Hids.
    { rewrite Hvalues, <-list_fmap_compose. exact Hnd. }
    apply (nodup_key_inj FindingAttributes.id (KnownFindings.values (KnownFindings.mk known))); [done| | |].
    + apply list_elem_of_In in Ha. apply List.filter_In in Ha as [Ha _]. by apply list_elem_of_In.
    + apply list_elem_of_In in Hb. apply List.filter_In in Hb as [Hb _]. by apply list_elem_of_In.
    + destruct (FindingAttributes.id a), (FindingAttributes.id b). simpl in Hid. f_equal. lia.
  - rewrite (List_filter_perm _ _ _ Hvalues). clear. induction rows as [|f rows IH]; simpl; [done|].
    destruct (FindingStatus.is_unsettled (Finding.status f)); [|done]. by constructor.
Qed.
End LedgerProofs.
