(* ===== verification/Asks.v ===== *)
(** * Asks

    The questions the queue has for a person ([Ask] of
    [src/src/domain/mod.rs]): what one may be opened with, who answers it and
    what an answer chose ([option_index], [reasoned_option],
    [answer_approves]), the answers that decide a landing ([LandingAnswer]) or
    a recovery ([chosen_option], [bare_action_answer] of
    [src/src/domain/recovery.rs]), the asks that hold the queue
    ([src/src/domain/queue_hold.rs]), the topics of a worker's question
    ([src/src/domain/worker_question.rs]) and the paragraph a recheck leaves in
    a question ([noted_question] of [src/src/domain/recheck.rs]).

    [AskProofs] shows what each reading of an answer takes, that a hold's
    question can be read back from it, and that a paragraph noted twice stands
    once. *)
From Stdlib Require Import Ascii.
From S2P Require Import Prelude Text Vocab Ids Errors EventKinds Events Reviews History Findings.

(** ** Texts *)

(** [str::split], at a text, and [str::rsplit_once]. *)
Fixpoint split_from (sep : string) (skip : nat) (s : string) : list string :=
  match s with
  | EmptyString => [EmptyString]
  | String a s' =>
      match skip with
      | S skip => split_from sep skip s'
      | O =>
          if starts_with s sep then EmptyString :: split_from sep (String.length sep - 1) s'
          else match split_from sep 0 s' with
               | [] => [String a EmptyString]
               | w :: ws => String a w :: ws
               end
      end
  end.
Definition split_text (sep s : string) : list string := split_from sep 0 s.
Fixpoint rsplit_once_text (sep s : string) : option (string * string) :=
  match s with
  | EmptyString => None
  | String a s' =>
      match rsplit_once_text sep s' with
      | Some cut => Some (String a cut.1, cut.2)
      | None => (λ rest, (EmptyString, rest)) <$> strip_prefix sep s
      end
  end.
(** [str::strip_suffix]. *)
Definition strip_suffix (p s : string) : option string :=
  rev_text <$> strip_prefix (rev_text p) (rev_text s).

(** The white space and quotes [bare_action_answer] cuts at both ends: the
    ASCII ones, and the quotation marks U+2018, U+2019, U+201C and U+201D. *)
Definition quote1 (a : ascii) : bool := ws1 a || byte_is a 34 || byte_is a 39 || byte_is a 96.
Definition quote3 (a b c : ascii) : bool :=
  ws3 a b c
  || byte_is a 226 && byte_is b 128
     && (byte_is c 152 || byte_is c 153 || byte_is c 156 || byte_is c 157).
Fixpoint drop_quotes (w2 : ascii → ascii → bool) (w3 : ascii → ascii → ascii → bool) (s : string) :
    string :=
  match s with
  | EmptyString => EmptyString
  | String a s1 =>
      if quote1 a then drop_quotes w2 w3 s1
      else match s1 with
      | EmptyString => s
      | String b s2 =>
          if w2 a b then drop_quotes w2 w3 s2
          else match s2 with
          | EmptyString => s
          | String c s3 => if w3 a b c then drop_quotes w2 w3 s3 else s
          end
      end
  end.
Definition trim_quotes (s : string) : string :=
  rev_text (drop_quotes (λ b a, ws2 a b) (λ c b a, quote3 a b c)
              (rev_text (drop_quotes ws2 quote3 s))).

(** [str::to_lowercase] as far as an ASCII text may come of it: the capitals
    and the Kelvin sign (U+212A), the one other character whose lower case is
    an ASCII letter alone.  Any other character stays, and is no ASCII text
    lowered or not. *)
Fixpoint to_ascii_text (s : string) : string :=
  match s with
  | EmptyString => EmptyString
  | String a s1 =>
      match s1 with
      | String b (String c s3) =>
          if byte_is a 226 && byte_is b 132 && byte_is c 170 then String "k" (to_ascii_text s3)
          else String (if byte_in a 65 90 then ascii_of_N (byte_of a + 32) else a) (to_ascii_text s1)
      | _ => String (if byte_in a 65 90 then ascii_of_N (byte_of a + 32) else a) (to_ascii_text s1)
      end
  end.

Example texts_sample :
  split_text "\n" "a\nb\n" = ["a"; "b"; ""]
  ∧ rsplit_once_text "--" "a--b---c" = Some ("a--b-", "c")
  ∧ strip_suffix "bc" "abc" = Some "a"
  ∧ trim_quotes " “`retry`”" = "retry"
  ∧ to_ascii_text "Retry_INHERIT" = "retry_inherit".
Proof. vm_compute. split_and!; reflexivity. Qed.

(** ** Asks *)
Module AnswerAuthority.
Inductive t : Set := User | Delegated | Runtime.
#[global] Instance eq_dec : EqDecision t.
Proof. solve_decision. Defined.
Definition as_str (v : t) : string :=
  match v with User => "user" | Delegated => "delegated" | Runtime => "runtime" end.
#[global] Instance string_enum : StringEnum t :=
  Build_StringEnum t "AnswerAuthority" as_str [User; Delegated; Runtime].
#[global] Instance laws : StringEnumLaws t.
Proof. string_enum_laws. Qed.
End AnswerAuthority.
Abbreviation AnswerAuthority := AnswerAuthority.t.

Module Ask.
Record t : Set := mk {
  id : AskId;
  kind : AskKind;
  task_id : option TaskId;
  run_id : option RunId;
  question : string;
  options : list string;
  answer : option string;
  asked_by : string;
  reason_category : AskReason;
  topics : list string;
  recommendation : option string;
  confidence : option AskConfidence;
  subject : option string;
  affected : list string;
  created_at : Z;
  answered_at : option Z;
  closed_at : option Z;
  finding_id : option FindingId;
  request_id : option RequestId;
  answered_by : option string;
  option_index : option Z;
  answer_authority : option AnswerAuthority;
  answer_approval : option bool;
}.
#[global] Instance updatable : Updatable t :=
  λ r, mk (id r) (kind r) (task_id r) (run_id r) (question r) (options r) (answer r) (asked_by r)
    (reason_category r) (topics r) (recommendation r) (confidence r) (subject r) (affected r)
    (created_at r) (answered_at r) (closed_at r) (finding_id r) (request_id r) (answered_by r)
    (option_index r) (answer_authority r) (answer_approval r).
#[global] Instance eq_dec : EqDecision t.
Proof. solve_decision. Defined.
Definition is_open (self : t) : bool := is_none (answered_at self) && is_none (closed_at self).
Definition waits_for (self : t) : option SessionRole :=
  then_some (is_none (closed_at self)) SessionRole.Inbox.
Definition is_about (self : t) (finding : FindingId) : bool := bool_decide (finding_id self = Some finding).
End Ask.
Abbreviation Ask := Ask.t.

Definition ANSWERED_BY_PERSON : string := "person".
Definition ANSWERED_BY_RUNTIME : string := "runtime".

Module Answerer.
Record t : Set := mk { by_ : string; authority : AnswerAuthority }.
Definition PERSON : t := mk ANSWERED_BY_PERSON AnswerAuthority.User.
Definition RUNTIME : t := mk ANSWERED_BY_RUNTIME AnswerAuthority.Runtime.
Definition INBOX : t := mk "inbox" AnswerAuthority.Delegated.
End Answerer.
Abbreviation Answerer := Answerer.t.

Definition answer_approves (ask : Ask) (answer : string) : bool :=
  if AskKind.is_approval (Ask.kind ask) then true
  else if negb (AskKind.offers_finding_answers (Ask.kind ask)) then false
  else
    let offered option_ := existsb (λ o, bool_decide (trim o = option_)) (Ask.options ask) in
    match FindingAnswer.parse answer with
    | Some (FindingAnswer.Propose _) => offered PROPOSE_OPTION
    | Some (FindingAnswer.Dismiss _) => offered DISMISS_OPTION
    | None => false
    end.

Definition option_index (options : list string) (answer : string) : option Z :=
  let answer := trim answer in
  '(index, _) ← list_find (λ option_, trim option_ = answer) options;
  if bool_decide (Z.of_nat index ≤ i64_max)%Z then Some (Z.of_nat index) else None.

Definition reasoned_option (kind : AskKind) (options : list string) (answer : string) : option string :=
  if negb (AskKind.takes_reasoned_answers kind) then None
  else
    cut ← split_once ":" answer;
    let head := trim cut.1 in
    List.find (λ option_, bool_decide (option_ = head)) (trim <$> options).

(** ** The answers of a landing *)
Definition RETRY_REVIEW : string := "retry_review".
Definition LANDING_OPTIONS : list string := ["land"; "send_back"; "cancel"].
Definition FAILED_REVIEW_LANDING_OPTIONS : list string := ["land"; "send_back"; "cancel"; RETRY_REVIEW].

Definition option_reason (answer option_ : string) : option (option string) :=
  if bool_decide (answer = option_) then Some None
  else
    reason ← strip_prefix option_ answer;
    reason ← strip_prefix ":" (trim_start reason);
    let reason := trim reason in
    Some (if is_empty reason then None else Some reason).
Definition send_back_reason (answer : string) : option (option string) :=
  option_reason answer "send_back".

Module LandingAnswer.
Inductive t : Set := Land | SendBack (reason : option string) | Cancel | RetryReview.
#[global] Instance eq_dec : EqDecision t.
Proof. solve_decision. Defined.
Definition parse (answer : string) : option t :=
  let answer := trim answer in
  match send_back_reason answer with
  | Some reason => Some (SendBack reason)
  | None =>
      snd <$> List.find (λ entry, is_some (option_reason answer entry.1))
        [("land", Land); ("cancel", Cancel); (RETRY_REVIEW, RetryReview)]
  end.
Definition accepted (answer : string) (options : list string) : option t :=
  action ← parse answer;
  if negb (bool_decide (action = RetryReview)) || bool_decide (RETRY_REVIEW ∈ options)
  then Some action else None.
End LandingAnswer.
Abbreviation LandingAnswer := LandingAnswer.t.

Definition ended_landing_ask_answer (run : RunStatus) (task : TaskStatus) : option string :=
  match bool_decide (run = RunStatus.Failed), ended task with
  | true, true => Some (format
      ["the run ended (failed) and its task is "; TaskStatus.as_str task; "; closed by the runtime"])
  | true, false => Some "the run ended (failed); closed by the runtime"
  | false, true => Some (format
      ["the run's task ended ("; TaskStatus.as_str task; "); closed by the runtime"])
  | false, false => None
  end.

(** ** The answers of a recovery *)
Definition RECOVER_LABEL : string :=
  " [goes back to the recovery job, which runs again with this answer; the runtime moves nothing]".
Definition HAND_OFF_LABEL : string :=
  " [goes back to the recovery job, which runs again and may hand the run to the check that the base already meets the acceptance; the task closes only if that check and its review pass; the runtime moves nothing now]".
Definition without_label (answer : string) : string :=
  match strip_suffix RECOVER_LABEL answer with
  | Some text => text
  | None => unwrap_or (strip_suffix HAND_OFF_LABEL answer) answer
  end.
Definition passes_back (option_ : string) : bool := negb (bool_decide (without_label option_ = option_)).
Definition chosen_option (options : list string) (answer : string) : option string :=
  let answer := trim answer in
  match List.find (λ option_, bool_decide (option_ = answer)) options with
  | Some option_ => Some option_
  | None => List.find (λ option_, passes_back option_ && bool_decide (without_label option_ = answer)) options
  end.

Definition TRIAGE_OPTIONS : list string := ["retry"; "resume"; "cancel"].
(** [RecoveryAction::NAMES]. *)
Definition RECOVERY_NAMES : list string :=
  ["retry"; "retry_inherit"; "resume"; "send_instruction"; "stop_processes"; "answer_known_dialog";
   "close_and_proceed"; "hand_off"; "wait"].
(** The operation a bare answer names; the options that name it too are told
    only in the text of the refusal. *)
Definition bare_action_answer (kind : AskKind) (asked_by_supervisor : bool) (run : option RunStatus)
    (options : list string) (answer : string) : option string :=
  if negb (bool_decide (kind = AskKind.Decide)) || negb asked_by_supervisor
     || negb (bool_decide (run = Some RunStatus.Failed) || bool_decide (run = Some RunStatus.Interrupted))
     || bool_decide (trim answer ∈ options)
  then None
  else
    let bare := to_ascii_text (trim_quotes answer) in
    List.find (λ name, bool_decide (name = bare)) (RECOVERY_NAMES ++ TRIAGE_OPTIONS).

(** ** The topics of a worker's question *)
Definition normalize_topics (topics : list string) : list string :=
  foldl (λ kept topic, if negb (is_empty topic) && negb (bool_decide (topic ∈ kept))
                       then kept ++ [topic] else kept) [] (trim <$> topics).

(** ** Opening an ask *)
Module NewAsk.
Record t : Set := mk {
  kind : AskKind;
  task_id : option TaskId;
  run_id : option RunId;
  question : string;
  options : list string;
  asked_by : string;
  reason_category : AskReason;
  topics : list string;
  recommendation : option string;
  confidence : option AskConfidence;
  finding_id : option FindingId;
  request_id : option RequestId;
}.
Definition offered_options (self : t) : list string :=
  match kind self, finding_id self with
  | AskKind.Blocked, Some _ => with_finding_options (options self)
  | AskKind.Stalled, _ => with_propose_option (options self)
  | _, _ => options self
  end.
Definition recommended_option (self : t) : option string :=
  option_ ← recommendation self;
  let option_ := trim option_ in
  if is_empty option_ then None else Some option_.
Definition check_asker (self : t) : Result unit :=
  require (negb (bool_decide (kind self = AskKind.Blocked)) || is_some (recommended_option self))
    DomainError.BlockedAskWithoutRecommendation.
Definition validate (self : t) : Result unit :=
  _ ← require (negb (is_blank (question self))) (DomainError.Blank "question");
  _ ← require (forallb (λ o, negb (is_blank o)) (options self)) (DomainError.Blank "options");
  _ ← require (negb (is_blank (asked_by self))) (DomainError.Blank "asked_by");
  _ ← require (is_none_or (task_id self) (λ id, (0 <? TaskId.as_i64 id)%Z))
        (DomainError.NonPositiveId "task ID");
  _ ← require (negb (bool_decide (kind self = AskKind.QueueHold))
               && negb (AskReason.holds_the_queue (reason_category self)))
        (DomainError.AskHoldsTheQueue (reason_category self));
  let topics := normalize_topics (topics self) in
  _ ← (if bool_decide (kind self = AskKind.WorkerQuestion)
       then require (negb (bool_decide (topics = []))) DomainError.AskWithoutTopic
       else require (bool_decide (topics = [])) (DomainError.AskTopicNotWorkerQuestion (kind self)));
  _ ← match recommended_option self with
      | Some recommendation =>
          let options := offered_options self in
          require (existsb (λ o, bool_decide (trim o = recommendation)) options)
            (DomainError.AskRecommendationNotAnOption recommendation options)
      | None => Ok tt
      end;
  _ ← require (is_none (finding_id self) || bool_decide (kind self = AskKind.Blocked)
               || bool_decide (kind self = AskKind.PlannerQuestion))
        (DomainError.AskFindingNotBlocked (kind self));
  _ ← require (is_none (request_id self)
               || bool_decide (kind self = AskKind.PlannerQuestion) && is_none (task_id self)
                  && is_none (run_id self) && is_none (finding_id self))
        (DomainError.AskRequestNotPlannerQuestion (kind self));
  require (is_some (task_id self) || is_some (run_id self) || bool_decide (kind self = AskKind.Blocked)
           || bool_decide (kind self = AskKind.PlannerQuestion)
              && (is_some (finding_id self) || is_some (request_id self)))
    (DomainError.AskWithoutTarget (kind self)).
End NewAsk.
Abbreviation NewAsk := NewAsk.t.

Definition check_ask_kind (kind : AskKind) (task_id : option TaskId) (run_id : option RunId)
    (reason : AskReason) : Result unit :=
  _ ← match kind with
      | AskKind.Other value => Err (DomainError.UnknownValue "AskKind" value)
      | _ => Ok tt
      end;
  _ ← require (is_some task_id
               || (bool_decide (kind ∈ [AskKind.Blocked; AskKind.QueueHold; AskKind.PlannerQuestion])
                   || AskKind.is_update kind) && is_none run_id)
        (DomainError.AskWithoutTarget kind);
  _ ← require (negb (AskKind.is_update kind) || is_none task_id) (DomainError.UpdateAskWithTarget kind);
  require (Bool.eqb (bool_decide (kind = AskKind.QueueHold)) (AskReason.holds_the_queue reason))
    (DomainError.AskKindReason kind reason).

(** ** The asks that hold the queue *)
Definition USAGE_LIMIT_SUBJECT : string := "usage_limit".
Definition DISK_SUBJECT : string := "disk".
Definition HOLD_OPTIONS : list string := ["done"; "cancel_affected"].
Definition HOLD_AFFECTED_HEADING : string := "Affected: ".
Definition HOLD_AFFECTED_RUNS_HEADING : string := "Affected runs: ".

Module HoldJob.
Inductive t : Set :=
  | Review (run : RunId)
  | Recovery (run : RunId)
  | PlanReview (proposal : ProposalId)
  | GoalReview (goal : GoalId)
  | Observer
  | ThroughputReview.
Definition kind (self : t) : string :=
  match self with
  | Review _ => "review"
  | Recovery _ => "recovery"
  | PlanReview _ => "plan_review"
  | GoalReview _ => "goal_review"
  | Observer => "observer"
  | ThroughputReview => "throughput_review"
  end.
Definition run_id (self : t) : option RunId :=
  match self with Review run | Recovery run => Some run | _ => None end.
Definition entry (self : t) : string :=
  match self with
  | Review run => format ["review job of run "; RunId.as_str run]
  | Recovery run => format ["recovery job of run "; RunId.as_str run]
  | PlanReview proposal => format ["plan_review job of proposal "; ProposalId.display proposal]
  | GoalReview goal => format ["goal_review job of goal "; GoalId.display goal]
  | Observer => "observer job"
  | ThroughputReview => "throughput_review job"
  end.
End HoldJob.
Abbreviation HoldJob := HoldJob.t.

(** [entry.contains(' ')]. *)
Definition is_run_entry (entry : string) : bool := free_of " " entry.

(** [HoldReason] and [QueueHold] of [src/src/domain/claim_hold.rs]. *)
Module HoldReason.
Inductive t : Set := Authentication | UsageLimit | DiskSpace | LoadAverage.
#[global] Instance eq_dec : EqDecision t.
Proof. solve_decision. Defined.
End HoldReason.
Module QueueHold.
Record t : Set := mk { reason : HoldReason.t; ask_id : Z; affected : nat }.
End QueueHold.

Definition affected_runs (ask : Ask) : list string := List.filter is_run_entry (Ask.affected ask).
Definition reason_of (ask : Ask) : option HoldReason.t :=
  if negb (bool_decide (Ask.kind ask = AskKind.QueueHold)) then None
  else
    match Ask.reason_category ask, Ask.subject ask with
    | AskReason.Authentication, _ => Some HoldReason.Authentication
    | AskReason.Cost, Some subject =>
        if bool_decide (subject = USAGE_LIMIT_SUBJECT) then Some HoldReason.UsageLimit
        else if bool_decide (subject = DISK_SUBJECT) then None
        else Some HoldReason.UsageLimit
    | AskReason.Cost, None => Some HoldReason.UsageLimit
    | _, _ => None
    end.
Definition hold_of (ask : Ask) : option QueueHold.t :=
  reason ← reason_of ask;
  then_some (Ask.is_open ask)
    (QueueHold.mk reason (AskId.as_i64 (Ask.id ask)) (length (affected_runs ask))).
Definition job_held (asks : list Ask) (job : HoldJob) : bool :=
  existsb (λ ask, is_none (Ask.closed_at ask) && is_some (reason_of ask)
                  && bool_decide (HoldJob.entry job ∈ Ask.affected ask)) asks.
(** [applies] of [queue_hold.rs]. *)
Definition hold_answer_applies (options : list string) (answer : string) : bool :=
  existsb (λ option_, bool_decide (option_ = trim answer)) options.

Module NewHold.
Record t : Set := mk {
  reason_category : AskReason;
  subject : option string;
  run_id : option RunId;
  job : option HoldJob;
  question : string;
  options : list string;
  asked_by : string;
}.
Definition validate (self : t) : Result unit :=
  _ ← require (negb (is_blank (question self))) (DomainError.Blank "question");
  _ ← require (forallb (λ o, negb (is_blank o)) (options self)) (DomainError.Blank "options");
  _ ← require (negb (is_blank (asked_by self))) (DomainError.Blank "asked_by");
  require (AskReason.holds_the_queue (reason_category self))
    (DomainError.HoldWithoutQueueReason (reason_category self)).
Definition entry (self : t) : option string :=
  match job self, run_id self with
  | Some job, _ => Some (HoldJob.entry job)
  | None, Some run => Some (RunId.as_str run)
  | None, None => None
  end.
Definition listed_entry (entry : string) : string :=
  if is_run_entry entry then format ["run "; entry] else entry.
Definition question_for (question : string) (affected : list string) : string :=
  if bool_decide (affected = []) then question
  else format [question; String newline (String newline EmptyString); HOLD_AFFECTED_HEADING;
               join ", " (listed_entry <$> affected)].
Definition base_question (question : string) : string :=
  let under heading :=
    rsplit_once_text (format [String newline (String newline EmptyString); heading]) question in
  match under HOLD_AFFECTED_HEADING with
  | Some cut => cut.1
  | None =>
      match under HOLD_AFFECTED_RUNS_HEADING with Some cut => cut.1 | None => question end
  end.
End NewHold.
Abbreviation NewHold := NewHold.t.

Module HoldOutcome.
Record t : Set := mk { ask : Ask; created : bool; joined : bool }.
End HoldOutcome.
Module AskOutcome.
Record t : Set := mk { ask : Ask; created : bool }.
End AskOutcome.

(** ** Other answers and notes *)
Definition UPDATE_FAILED_OPTIONS : list string := ["retry"; "skip"].
Definition APPROVE_RELEASE_OPTIONS : list string := ["install"; "skip"].
Definition ASK_NOTE_PREFIX : string := "Landing recheck: ".

Definition noted_question (question note : string) : string :=
  let blank_line := String newline (String newline EmptyString) in
  let kept := List.filter (λ paragraph, negb (starts_with (trim_start paragraph) ASK_NOTE_PREFIX))
                (split_text blank_line question) in
  format [trim_end (join blank_line kept); blank_line; note].

(** ** Answers a live session takes *)
Section session.
  Context {P : Type} `{Payload P} (request_sent_at_millis : P → option Z).

Definition fix_requested_at (events : list (RunEvent P)) : option Z :=
  anchor ← review_anchor events;
  if (RunEvent.is_kind anchor EventKind.ReviseRequested
      || RunEvent.is_kind anchor EventKind.ConflictPrecheck
         && flag_is (RunEvent.payload anchor) "requested")
     && negb (existsb (λ e, (EventId.as_i64 (RunEvent.id anchor) <? EventId.as_i64 (RunEvent.id e))%Z
                            && RunEvent.is_kind e EventKind.ExitRequested) events)
  then Some (match request_sent_at_millis (RunEvent.payload anchor) with
             | Some ms => (ms / 1000)%Z
             | None => 0%Z
             end)
  else None.
Definition fix_requested (events : list (RunEvent P)) : bool := is_some (fix_requested_at events).
Definition session_takes_answers (status : RunStatus) (events : list (RunEvent P)) (ask_created_at : Z) :
    bool :=
  bool_decide (status = RunStatus.Running)
  || bool_decide (status = RunStatus.AwaitingIntegration)
     && is_some_and (fix_requested_at events) (λ sent_at, (sent_at <=? ask_created_at)%Z)
  || bool_decide (status = RunStatus.NeedsSession) && resume_in_progress events.
End session.

(** ** What the readings take *)
Module AskProofs.

(** The option an answer chooses is the first whose text it is, but for the
    white space around them; the reading is none exactly when there is no such
    option. *)
Lemma option_index_spec (options : list string) (answer : string) :
  (Z.of_nat (length options) ≤ i64_max)%Z →
  match option_index options answer with
  | Some index =>
      (0 ≤ index)%Z
      ∧ (∃ option_, options !! Z.to_nat index = Some option_ ∧ trim option_ = trim answer)
      ∧ ∀ j option_, j < Z.to_nat index → options !! j = Some option_ → trim option_ ≠ trim answer
  | None => ∀ option_, option_ ∈ options → trim option_ ≠ trim answer
  end.
Proof.
  intros Hlen. unfold option_index.
  destruct (list_find (λ option_, trim option_ = trim answer) options) as [[index option_]|] eqn:Hfind; simpl.
  - apply list_find_Some in Hfind as (Hi & Hoption & Hfirst).
    rewrite bool_decide_eq_true_2 by (apply lookup_lt_Some in Hi; lia). rewrite Nat2Z.id.
    split_and!; [lia|by exists option_|]. intros j o Hj Ho. by eapply Hfirst.
  - rewrite list_find_None in Hfind. by rewrite Forall_forall in Hfind.
Qed.

(** *** The question of a hold *)
Lemma rsplit_once_text_app sep (a s : string) cut :
  rsplit_once_text sep s = Some cut → rsplit_once_text sep (a +:+ s) = Some (a +:+ cut.1, cut.2).
Proof.
  intros Hs. induction a as [|c a IH]; [simpl; by destruct cut|].
  rewrite append_cons. simpl. by rewrite IH.
Qed.
Lemma rsplit_once_text_None sep first (s : string) :
  free_of first s = true → rsplit_once_text (String first sep) s = None.
Proof.
  induction s as [|a s IH]; [done|]. rewrite free_of_cons. intros [Ha Hs]%andb_true_iff.
  simpl. rewrite IH by done. destruct (Ascii.eqb_spec first a) as [->|]; [|done].
  by rewrite Ascii.eqb_refl in Ha.
Qed.
Lemma free_of_app c (s t : string) : free_of c (s +:+ t) = free_of c s && free_of c t.
Proof.
  induction s as [|a s IH]; [done|]. rewrite append_cons, !free_of_cons, IH. apply andb_assoc.
Qed.
Lemma free_of_join c sep (l : list string) :
  free_of c sep = true → Forall (λ s, free_of c s = true) l → free_of c (join sep l) = true.
Proof.
  intros Hsep. induction 1 as [|s l Hs Hl IH]; [done|].
  destruct l as [|t l]; [done|]. change (join sep (s :: t :: l)) with (s +:+ sep +:+ join sep (t :: l)).
  by rewrite !free_of_app, Hs, Hsep.
Qed.
Lemma listed_entry_free c entry :
  free_of c "run " = true → free_of c entry = true → free_of c (NewHold.listed_entry entry) = true.
Proof.
  intros Hrun Hentry. unfold NewHold.listed_entry. destruct (is_run_entry entry); [|done].
  unfold format. cbn [foldr]. rewrite append_nil_r, free_of_app. by rewrite Hrun, Hentry.
Qed.

(** The question asked is read back from what a hold ask asks, whatever it
    says and whatever it holds. *)
Lemma base_question_for (question : string) (affected : list string) :
  affected ≠ [] → Forall (λ entry, free_of newline entry = true) affected →
  NewHold.base_question (NewHold.question_for question affected) = question.
Proof.
  intros Hne Hfree. unfold NewHold.base_question, NewHold.question_for.
  rewrite bool_decide_eq_false_2 by done.
  set (listed := join ", " (NewHold.listed_entry <$> affected)).
  set (sep := format [String newline (String newline EmptyString); HOLD_AFFECTED_HEADING]).
  assert (rsplit_once_text sep (sep +:+ listed) = Some (EmptyString, listed)) as Hsplit.
  { assert (free_of newline listed = true) as Hlisted.
    { apply free_of_join; [reflexivity|]. apply Forall_fmap.
      eapply Forall_impl; [exact Hfree|]. intros entry Hentry. by apply listed_entry_free. }
    change sep with (String newline (String newline "Affected: ")).
    assert (rsplit_once_text (String newline (String newline "Affected: "))
              ("Affected: " +:+ listed) = None) as Hnone.
    { apply rsplit_once_text_None. rewrite free_of_app, Hlisted. reflexivity. }
    rewrite append_cons, append_cons. set (rest := "Affected: " +:+ listed) in *.
    cbn [rsplit_once_text]. rewrite Hnone.
    assert (strip_prefix (String newline (String newline "Affected: ")) (String newline rest) = None) as ->.
    { reflexivity. }
    assert (strip_prefix (String newline (String newline "Affected: "))
              (String newline (String newline rest)) = Some listed) as ->.
    { apply strip_prefix_Some. reflexivity. }
    done. }
  apply (rsplit_once_text_app _ question) in Hsplit.
  replace (format [question; String newline (String newline EmptyString); HOLD_AFFECTED_HEADING; listed])
    with (question +:+ (sep +:+ listed)).
  2:{ unfold sep, format. cbn [foldr]. by rewrite !append_nil_r, <-!append_assoc. }
  rewrite Hsplit. simpl. apply append_nil_r.
Qed.
End AskProofs.
