(* ===== verification/FindingStore.v ===== *)
(** * The store of findings

    The transactions of [src/src/infrastructure/findings.rs],
    [finding_planners.rs] and [ci_watch_store.rs] beside it that write
    findings, the planners opened for them and their events, with the reads
    they decide by; of [planners.rs] the writes of a planner's row a finding's
    planner goes through.

    The tables here are what these transactions read and write: findings,
    planners and asks, what they read of goals, tasks, runs and proposals, and
    the log of events.  A transaction that fails leaves them as they were: it
    returns none.  The spans of sessions that follow an event
    ([sessions::follow]) and the end of a bundle or a request with its planner
    are left out. *)
From Stdlib Require Import Ascii.
From S2P Require Import Prelude Text Vocab Ids Errors EventKinds Events Tasks Proposals Findings FindingLedger Asks.

(** Why a transaction is refused: an error of the domain, a row that is not
    there, or the unique index of unsettled findings. *)
Module FindingError.
Inductive t : Set :=
  | Refused (error : DomainError)
  | NoFinding (finding : FindingId)
  | NoGoal (goal : GoalId)
  | NoTask (task : TaskId)
  | NoRun (run : RunId)
  | NoEvent (event : EventId)
  | NoProposal (proposal : ProposalId)
  | NoAsk (ask : AskId)
  | NoPlanner (planner : PlannerId)
  | HasWorkspace (planner : PlannerId)
  | CoverWithoutDismissal
  | BlankReason
  | NotUnique.
Definition of_domain {A} (r : Result A) : result t A :=
  match r with Ok a => Ok a | Err e => Err (Refused e) end.
End FindingError.
Abbreviation FindingError := FindingError.t.

(** ** The rows *)
Module PlannerSession.
Record t : Set := mk {
  id : PlannerId;
  origin : PlannerOrigin;
  proposal_id : option ProposalId;
  draft_task_id : option TaskId;
  finding_id : option FindingId;
  request_id : option RequestId;
  workspace_id : option string;
  wrapper_pid : option Z;
  agent_pid : option Z;
  heartbeat_at : option Z;
  exit_code : option Z;
  exited_at : option Z;
  closed_at : option Z;
  error : option string;
  created_at : Z;
  route : PlannerRoute;
  answer_wait_at : option Z;
}.
#[global] Instance updatable : Updatable t :=
  λ r, mk (id r) (origin r) (proposal_id r) (draft_task_id r) (finding_id r) (request_id r)
    (workspace_id r) (wrapper_pid r) (agent_pid r) (heartbeat_at r) (exit_code r) (exited_at r)
    (closed_at r) (error r) (created_at r) (route r) (answer_wait_at r).
(** A row of [INSERT INTO planners(origin, created_at)]: every other column is
    null, and a null route is the interactive one. *)
Definition inserted (id : PlannerId) (origin : PlannerOrigin) (created_at : Z) : t :=
  mk id origin None None None None None None None None None None None None created_at
    PlannerRoute.Interactive None.
Definition is_open (self : t) : bool := is_none (closed_at self).
Definition is_for (self : t) (finding : FindingId) : bool := bool_decide (finding_id self = Some finding).
End PlannerSession.
Abbreviation PlannerSession := PlannerSession.t.

(** What is read of a task. *)
Module TaskRow.
Record t : Set := mk {
  id : TaskId;
  status : TaskStatus;
  goal_id : option GoalId;
  proposal_id : option ProposalId;
}.
End TaskRow.
Abbreviation TaskRow := TaskRow.t.

(** The tables: findings and planners in the order of their ids, a goal with its
    proposal, a run with its task. *)
Module Tables.
Record t {P : Type} : Type := mk {
  findings : list Finding;
  planners : list PlannerSession;
  asks : list Ask;
  goals : list (GoalId * option ProposalId);
  tasks : list TaskRow;
  runs : list (RunId * TaskId);
  proposals : list ProposalRecord;
  log : list (RunEvent P);
}.
Arguments t : clear implicits.
Arguments mk {P}.
#[global] Instance updatable {P} : Updatable (t P) :=
  λ q, mk (findings q) (planners q) (asks q) (goals q) (tasks q) (runs q) (proposals q) (log q).
End Tables.
Abbreviation Tables := Tables.t.

(** The connection of a write: its clock, and the time and actor of its
    events. *)
Module Connection.
Record t : Set := mk { now : Z; event_time : string; actor : option EventActor }.
End Connection.
Abbreviation Connection := Connection.t.

(** Where the answer of a question about a finding goes. *)
Module PlannerAnswerRoute.
Inductive t : Set :=
  | Planner (planner : PlannerSession)
  | NewPlanner
  | Close
  | Revise (proposal : ProposalId)
  | Person.
End PlannerAnswerRoute.

(** How the opening of a finding's planner ended. *)
Module FindingPlannerStart.
Inductive t : Set :=
  | Opened (planner : PlannerSession) (finding : Finding) (attempt : nat)
  | Exhausted (attempts : nat)
  | AtLimit (limit : ImprovementLimit)
  | Skipped.
End FindingPlannerStart.

(** What a person's answer did to a finding. *)
Module AppliedAnswer.
Record t : Set := mk { finding : FindingId; action : string }.
End AppliedAnswer.

(** A settled run of CI to record: [CiCheckRecord] of [ci_watch.rs]. *)
Module CiCheckRecord.
Record t {P : Type} : Type := mk {
  previous : option Z;
  checked : P;
  turned_red : option P;
  turned_green : option P;
  finding : option NewFinding;
  resolve : list (Z * string);
}.
Arguments t : clear implicits.
Arguments mk {P}.
End CiCheckRecord.

(** A run of a scheduled workflow to record: [ScheduledCheckRecord]. *)
Module ScheduledCheckRecord.
Record t {P : Type} : Type := mk {
  previous : option Z;
  checked : P;
  finding : option NewFinding;
  resolve : list (Z * string);
}.
Arguments t : clear implicits.
Arguments mk {P}.
End ScheduledCheckRecord.

Module CiCheckRecorded.
Record t : Set := mk { event : EventId; finding : option FindingId; resolved : list FindingId }.
End CiCheckRecorded.

(** ** Reading *)
Section store.
  Context {P : Type} `{Payload P}.
  Implicit Types (q : Tables P) (w : Connection) (e : RunEvent P).

Definition find_finding q (id : FindingId) : option Finding :=
  List.find (λ f, bool_decide (Finding.id f = id)) (Tables.findings q).
Definition read_finding q (id : FindingId) : result FindingError Finding :=
  match find_finding q id with Some f => Ok f | None => Err (FindingError.NoFinding id) end.
Definition find_task q (id : TaskId) : option TaskRow :=
  List.find (λ t, bool_decide (TaskRow.id t = id)) (Tables.tasks q).
Definition read_ask q (id : AskId) : result FindingError Ask :=
  match List.find (λ a, bool_decide (Ask.id a = id)) (Tables.asks q) with
  | Some ask => Ok ask
  | None => Err (FindingError.NoAsk id)
  end.
Definition planner q (id : PlannerId) : result FindingError PlannerSession :=
  match List.find (λ p, bool_decide (PlannerSession.id p = id)) (Tables.planners q) with
  | Some planner => Ok planner
  | None => Err (FindingError.NoPlanner id)
  end.

Definition resolve_target q (target : FindingTarget) :
    result FindingError (option TaskId * option RunId * option GoalId) :=
  match target with
  | FindingTarget.Queue => Ok (None, None, None)
  | FindingTarget.Goal goal =>
      if existsb (λ row, bool_decide (row.1 = goal)) (Tables.goals q) then Ok (None, None, Some goal)
      else Err (FindingError.NoGoal goal)
  | FindingTarget.Task task =>
      match find_task q task with
      | Some _ => Ok (Some task, None, None)
      | None => Err (FindingError.NoTask task)
      end
  | FindingTarget.Run run =>
      match List.find (λ row, bool_decide (row.1 = run)) (Tables.runs q) with
      | Some (_, task) => Ok (Some task, Some run, None)
      | None => Err (FindingError.NoRun run)
      end
  end.

(** What a problem is told apart by: kind, target, [ifnull(task_id,0)],
    [ifnull(run_id,'')], [ifnull(goal_id,0)] and subject. *)
Definition ProblemKey : Set := string * string * Z * string * Z * string.
#[global] Instance problem_key_eq_dec : EqDecision ProblemKey.
Proof. unfold ProblemKey. apply _. Defined.
Definition key_of (kind target : string) (ids : option TaskId * option RunId * option GoalId)
    (subject : string) : ProblemKey :=
  let '(task, run, goal) := ids in
  (kind, target, unwrap_or (TaskId.as_i64 <$> task) 0%Z, unwrap_or (RunId.as_str <$> run) "",
   unwrap_or (GoalId.as_i64 <$> goal) 0%Z, subject).
Definition problem (f : Finding) : ProblemKey :=
  key_of (Finding.kind f) (Finding.target f)
    (Finding.task_id f, Finding.run_id f, Finding.goal_id f) (Finding.subject f).
Definition problem_of (new : NewFinding) (ids : option TaskId * option RunId * option GoalId) : ProblemKey :=
  key_of (NewFinding.kind new) (FindingTarget.name (NewFinding.target new)) ids (NewFinding.subject new).
Definition unsettled (f : Finding) : bool := FindingStatus.is_unsettled (Finding.status f).

(** [ORDER BY status IN ('open','proposed') DESC, id DESC LIMIT 1]. *)
Definition existing_finding q (key : ProblemKey) : option Finding :=
  head (sort_by_key (λ f, [(if unsettled f then 0 else 1)%Z; (- FindingId.as_i64 (Finding.id f))%Z])
    (List.filter (λ f, bool_decide (problem f = key)) (Tables.findings q))).

Definition event_exists q (id : EventId) : bool :=
  existsb (λ e, bool_decide (RunEvent.id e = id)) (Tables.log q).

(** ** Writing *)

(** The unique index [findings_unsettled]. *)
Definition index_holds (findings : list Finding) : bool :=
  bool_decide (NoDup (problem <$> List.filter unsettled findings)).
Definition write_findings q (findings : list Finding) : result FindingError (Tables P) :=
  if index_holds findings then Ok (q <| Tables.findings := findings |>) else Err FindingError.NotUnique.
Definition update_finding q (id : FindingId) (change : Finding → Finding) :
    result FindingError (Tables P) :=
  write_findings q
    ((λ f, if bool_decide (Finding.id f = id) then change f else f) <$> Tables.findings q).
Definition next_finding q : FindingId :=
  FindingId.new (1 + foldr Z.max 0 ((λ f, FindingId.as_i64 (Finding.id f)) <$> Tables.findings q))%Z.
Definition next_planner q : PlannerId :=
  PlannerId.new (1 + foldr Z.max 0 ((λ p, PlannerId.as_i64 (PlannerSession.id p)) <$> Tables.planners q))%Z.
Definition next_event q : EventId :=
  EventId.new (1 + foldr Z.max 0 ((λ e, EventId.as_i64 (RunEvent.id e)) <$> Tables.log q))%Z.

Definition insert_event w q (task : option TaskId) (run : option RunId) (goal : option GoalId)
    (kind : EventKind) (payload : P) : Tables P :=
  q <| Tables.log := Tables.log q ++
       [RunEvent.mk (next_event q) task goal run (RecordedKind.Known kind) payload
          (Connection.event_time w) (Connection.actor w)] |>.

(** [check_run_has_task] of [src/src/domain/write_rules.rs]. *)
Definition check_run_has_task (task_id : option TaskId) (run_id : option RunId) : Result unit :=
  match run_id with
  | Some run => require (is_some task_id) (DomainError.RunWithoutTask run)
  | None => Ok tt
  end.

Definition RECORDS_VALUES : list EventKind :=
  [EventKind.FindingRecorded; EventKind.FindingUpdated; EventKind.FindingStatusChanged].
Definition finding_event w q (finding : Finding) (kind : EventKind) (payload : P) :
    result FindingError (Tables P) :=
  let payload :=
    if bool_decide (kind ∈ RECORDS_VALUES)
    then set_field payload VALUES (attributes_value (Finding.attributes finding)) else payload in
  _ ← FindingError.of_domain
        (check_event_target kind (Finding.task_id finding) (Finding.goal_id finding));
  _ ← FindingError.of_domain
        (check_run_has_task (Finding.task_id finding) (Finding.run_id finding));
  Ok (insert_event w q (Finding.task_id finding) (Finding.run_id finding) (Finding.goal_id finding)
        kind payload).

(** ** Recording *)
Definition finding_number (id : FindingId) : P := of_number (FindingId.as_i64 id).
Definition texts (l : list string) : P := of_items (of_text <$> l).
Definition event_numbers (l : list EventId) : P := of_items ((λ id, of_number (EventId.as_i64 id)) <$> l).
Definition status_text (status : FindingStatus) : P := of_text (FindingStatus.as_str status).

Definition new_row q (new : NewFinding) (ids : option TaskId * option RunId * option GoalId) (now : Z) :
    Finding :=
  let '(task, run, goal) := ids in
  {| Finding.id := next_finding q;
     Finding.kind := NewFinding.kind new;
     Finding.target := FindingTarget.name (NewFinding.target new);
     Finding.task_id := task;
     Finding.run_id := run;
     Finding.goal_id := goal;
     Finding.subject := NewFinding.subject new;
     Finding.summary := NewFinding.summary new;
     Finding.detail := unwrap_or (NewFinding.detail new) "";
     Finding.impact := unwrap_or (NewFinding.impact new) Impact.Normal;
     Finding.first_seen_at := now;
     Finding.last_seen_at := now;
     Finding.occurrences := 1;
     Finding.evidence := NewFinding.distinct_evidence new;
     Finding.status := FindingStatus.Open;
     Finding.status_reason := None;
     Finding.proposal_id := None;
     Finding.covered_by_task := None;
     Finding.propose_reason := NewFinding.propose new;
     Finding.propose_requested_at := (λ _, now) <$> NewFinding.propose new;
     Finding.recorded_by := NewFinding.by_ new;
     Finding.updated_at := now |}.

(** The columns the update of a merge writes. *)
Definition written_merge (f row : Finding) : Finding :=
  row <| Finding.summary := Finding.summary f |> <| Finding.detail := Finding.detail f |>
      <| Finding.impact := Finding.impact f |> <| Finding.last_seen_at := Finding.last_seen_at f |>
      <| Finding.occurrences := Finding.occurrences f |> <| Finding.evidence := Finding.evidence f |>
      <| Finding.status := Finding.status f |> <| Finding.status_reason := Finding.status_reason f |>
      <| Finding.propose_reason := Finding.propose_reason f |>
      <| Finding.propose_requested_at := Finding.propose_requested_at f |>
      <| Finding.updated_at := Finding.updated_at f |>.

Definition record_created w q (new : NewFinding) ids : result FindingError (Tables P * FindingOutcome) :=
  let row := new_row q new ids (Connection.now w) in
  q ← write_findings q (Tables.findings q ++ [row]);
  created ← read_finding q (Finding.id row);
  q ← finding_event w q created EventKind.FindingRecorded
        (object
          [("finding_id", finding_number (Finding.id created));
           ("kind", of_text (Finding.kind created));
           ("target", of_text (Finding.target created));
           ("subject", of_text (Finding.subject created));
           ("impact", of_text (Impact.as_str (Finding.impact created)));
           ("evidence", event_numbers (Finding.evidence created));
           ("propose", of_flag (is_some (Finding.propose_reason created)));
           ("by", of_text (NewFinding.by_ new))]);
  Ok (q, FindingOutcome.mk created true []).

Definition record_merged w q (new : NewFinding) (existing : Finding) :
    result FindingError (Tables P * FindingOutcome) :=
  match merge existing new (Connection.now w) with
  | None => Ok (q, FindingOutcome.mk existing false [])
  | Some update =>
      let f := FindingUpdate.finding update in
      q ← update_finding q (Finding.id f) (written_merge f);
      q ← (if FindingUpdate.reopened update then
             finding_event w q f EventKind.FindingStatusChanged
               (object
                 [("finding_id", finding_number (Finding.id f));
                  ("from", status_text (Finding.status existing));
                  ("to", status_text (Finding.status f));
                  ("reason", of_text "occurred again");
                  ("by", of_text (NewFinding.by_ new))])
           else Ok q);
      q ← finding_event w q f EventKind.FindingUpdated
            (object
              [("finding_id", finding_number (Finding.id f));
               ("changed", texts (FindingUpdate.changed update));
               ("added_evidence", event_numbers (FindingUpdate.added_evidence update));
               ("occurrences", of_number (Finding.occurrences f));
               ("by", of_text (NewFinding.by_ new))]);
      written ← read_finding q (Finding.id f);
      Ok (q, FindingOutcome.mk written false (FindingUpdate.changed update))
  end.

Definition check_events q (evidence : list EventId) : result FindingError (list unit) :=
  traverse (λ id, require (event_exists q id) (FindingError.NoEvent id)) evidence.

Definition record_in w q (new : NewFinding) : result FindingError (Tables P * FindingOutcome) :=
  _ ← FindingError.of_domain (NewFinding.validate new);
  ids ← resolve_target q (NewFinding.target new);
  _ ← check_events q (NewFinding.distinct_evidence new);
  match existing_finding q (problem_of new ids) with
  | None => record_created w q new ids
  | Some existing => record_merged w q new existing
  end.

(** [record_finding] is [record_in] in a transaction of its own. *)
Definition record_finding_once w q (new : NewFinding) :
    result FindingError (Tables P * option FindingId) :=
  ids ← resolve_target q (NewFinding.target new);
  if existsb (λ f, bool_decide (problem f = problem_of new ids)) (Tables.findings q) then Ok (q, None)
  else
    outcome ← record_in w q new;
    Ok (outcome.1, Some (Finding.id (FindingOutcome.finding outcome.2))).

(** ** Resolving and dismissing *)
Definition set_status_covered_in w q (id : FindingId) (to : FindingStatus) (reason by_ : string)
    (covered_by : option TaskId) : result FindingError (Tables P * Finding) :=
  _ ← require (negb (is_blank reason)) FindingError.BlankReason;
  current ← read_finding q id;
  _ ← FindingError.of_domain (check_transition current to);
  q ← update_finding q id (λ row,
        row <| Finding.status := to |> <| Finding.status_reason := Some reason |>
            <| Finding.updated_at := Connection.now w |>
            <| Finding.covered_by_task :=
                 match covered_by with Some _ => covered_by | None => Finding.covered_by_task row end |>);
  changed ← read_finding q id;
  let payload := object
    [("finding_id", finding_number id); ("from", status_text (Finding.status current));
     ("to", status_text to); ("reason", of_text reason); ("by", of_text by_)] in
  let payload :=
    match covered_by with
    | Some task => set_field payload "covered_by_task" (of_number (TaskId.as_i64 task))
    | None => payload
    end in
  q ← finding_event w q changed EventKind.FindingStatusChanged payload;
  Ok (q, changed).
Definition set_status_in w q (id : FindingId) (to : FindingStatus) (reason by_ : string) :
    result FindingError (Tables P * Finding) :=
  set_status_covered_in w q id to reason by_ None.

(** The read of the task that covers a finding. *)
Definition read_task_status q (task : TaskId) : result FindingError TaskStatus :=
  match find_task q task with
  | Some row => Ok (TaskRow.status row)
  | None => Err (FindingError.NoTask task)
  end.
Definition set_finding_status_covered w q (id : FindingId) (to : FindingStatus) (reason by_ : string)
    (covered_by : option TaskId) : result FindingError (Tables P * Finding) :=
  _ ← match covered_by with
      | Some task =>
          _ ← require (bool_decide (to = FindingStatus.Dismissed)) FindingError.CoverWithoutDismissal;
          current ← read_finding q id;
          status ← read_task_status q task;
          FindingError.of_domain (check_covered_by current (status_is_terminal status))
      | None => Ok tt
      end;
  set_status_covered_in w q id to reason by_ covered_by.
Definition set_finding_status w q (id : FindingId) (to : FindingStatus) (reason by_ : string) :
    result FindingError (Tables P * Finding) :=
  set_finding_status_covered w q id to reason by_ None.

(** ** The list *)
Definition evidence_events q (evidence : list EventId) : list (RunEvent P) :=
  omap (λ id, List.find (λ e, bool_decide (RunEvent.id e = id)) (Tables.log q)) evidence.
Definition find_proposal q (id : ProposalId) : option ProposalRecord :=
  List.find (λ p, bool_decide (ProposalRecord.id p = id)) (Tables.proposals q).
Definition read_proposal_status q (id : ProposalId) : result FindingError ProposalStatus :=
  match find_proposal q id with
  | Some p => Ok (ProposalRecord.status p)
  | None => Err (FindingError.NoProposal id)
  end.

(** A row of the list: the finding, its proposal's status, its open asks and,
    in full, its evidence. *)
Definition FindingView : Type :=
  Finding * option ProposalStatus * list AskId * option (list (RunEvent P)).
Definition finding_view q (full : bool) (f : Finding) : result FindingError FindingView :=
  status ← match Finding.proposal_id f with
           | Some id => Some <$> read_proposal_status q id
           | None => Ok None
           end;
  Ok (f, status,
      Ask.id <$> List.filter (λ a, Ask.is_about a (Finding.id f) && Ask.is_open a) (Tables.asks q),
      then_some full (evidence_events q (Finding.evidence f))).

Definition on_target (target : option (string * (option TaskId * option RunId * option GoalId)))
    (f : Finding) : bool :=
  is_none_or target (λ '(name, ids),
    bool_decide (Finding.target f = name)
    && bool_decide ((Finding.task_id f, Finding.run_id f, Finding.goal_id f) = ids)).
Definition listed q (query : FindingQuery) target : list Finding :=
  sort_by (ahead by_impact)
    (List.filter (on_target target) (List.filter (FindingQuery.admits query) (Tables.findings q))).
Definition findings q (query : FindingQuery) : result FindingError (list FindingView) :=
  target ← match FindingQuery.target query with
           | Some target => ids ← resolve_target q target; Ok (Some (FindingTarget.name target, ids))
           | None => Ok None
           end;
  _ ← match FindingQuery.id query with
      | Some id => _ ← read_finding q id; Ok tt
      | None => Ok tt
      end;
  traverse (finding_view q (FindingQuery.full query)) (listed q query target).

(** ** The state of a proposal *)
Definition of_proposal q (proposal : ProposalId) (t : TaskRow) : bool :=
  bool_decide (TaskRow.proposal_id t = Some proposal)
  || is_some_and (TaskRow.goal_id t) (λ goal,
       bool_decide ((goal, Some proposal) ∈ Tables.goals q)).
Definition proposal_tasks q (proposal : ProposalId) : list TaskRow :=
  sort_by_key (λ t, [TaskId.as_i64 (TaskRow.id t)])
    (List.filter (of_proposal q proposal) (Tables.tasks q)).
(** [proposals::read]: the row with the tasks and goals that name it,
    restored. *)
Definition read_proposal q (id : ProposalId) : result FindingError Proposal :=
  match find_proposal q id with
  | None => Err (FindingError.NoProposal id)
  | Some row =>
      let tasks := sort_by_key (λ t, [TaskId.as_i64 t])
        (TaskRow.id <$> List.filter (λ t, bool_decide (TaskRow.proposal_id t = Some id)) (Tables.tasks q)) in
      let goals := sort_by_key (λ g, [GoalId.as_i64 g])
        (fst <$> List.filter (λ g, bool_decide (g.2 = Some id)) (Tables.goals q)) in
      FindingError.of_domain (Proposal.restore
        (ProposalRecord.mk (ProposalRecord.id row) (ProposalRecord.status row)
           (ProposalRecord.owner row) (ProposalRecord.submitted_at row)
           (ProposalRecord.revise_count row) tasks goals (ProposalRecord.created_at row)
           (ProposalRecord.updated_at row)))
  end.
Definition proposal_state q (proposal : ProposalId) :
    result FindingError (ProposalStatus * list TaskStatus) :=
  record ← read_proposal q proposal;
  Ok (Proposal.status record, TaskRow.status <$> proposal_tasks q proposal).

(** ** Planners *)
Definition open_for q (finding : FindingId) : bool :=
  existsb (λ p, PlannerSession.is_for p finding && PlannerSession.is_open p) (Tables.planners q).
(** A [finding_planner_exhausted] since the mark. *)
Definition exhausted q (id : FindingId) (marked_at : option Z) : bool :=
  existsb (λ e, RunEvent.is_kind e EventKind.FindingPlannerExhausted
    && bool_decide (number_of (RunEvent.payload e) "finding_id" = Some (FindingId.as_i64 id))
    && bool_decide (number_of (RunEvent.payload e) "marked_at" = marked_at)) (Tables.log q).
Definition marked_open (f : Finding) : bool :=
  bool_decide (Finding.status f = FindingStatus.Open) && is_some (Finding.propose_reason f).

(** [targets]: what waits for a planner. *)
Definition waits_for_planner q (f : Finding) : bool :=
  marked_open f && negb (open_for q (Finding.id f))
  && negb (existsb (λ a, Ask.is_about a (Finding.id f)
             && bool_decide (Ask.kind a = AskKind.PlannerQuestion) && is_none (Ask.closed_at a))
           (Tables.asks q))
  && negb (exhausted q (Finding.id f) (Finding.propose_requested_at f)).
Definition is_target q (id : FindingId) : bool :=
  is_some_and (find_finding q id) (waits_for_planner q).
Definition planner_findings q : list Finding :=
  sort_by_key (λ f, [unwrap_or (Finding.propose_requested_at f) i64_min; FindingId.as_i64 (Finding.id f)])
    (List.filter (waits_for_planner q) (Tables.findings q)).
Definition exhausted_findings q : list Finding :=
  List.filter (λ f, marked_open f && exhausted q (Finding.id f) (Finding.propose_requested_at f))
    (Tables.findings q).
Definition finding_asks q (finding : FindingId) : list Ask :=
  List.filter (λ a, Ask.is_about a finding) (Tables.asks q).

Definition planners_since_mark q (f : Finding) : nat :=
  length (List.filter (λ p, PlannerSession.is_for p (Finding.id f)
    && (unwrap_or (Finding.propose_requested_at f) 0 <=? PlannerSession.created_at p)%Z
    && is_none (PlannerSession.answer_wait_at p)) (Tables.planners q)).

(** The proposals of planners of the runtime's linked to improvements, each
    once, and the planners open for an improvement still open. *)
Definition linked_proposals q : list ProposalId :=
  dedup_neighbours (sort_by_key (λ p, [ProposalId.as_i64 p])
    (omap (λ f,
       proposal ← Finding.proposal_id f;
       row ← find_proposal q proposal;
       then_some (bool_decide (PlannerOwner.origin (ProposalRecord.owner row) = PlannerOrigin.Runtime)
                  && counts_as_improvement (Finding.kind f) (Finding.recorded_by f)) proposal)
      (Tables.findings q))).
Definition planning_improvement q (p : PlannerSession) : bool :=
  bool_decide (PlannerSession.origin p = PlannerOrigin.Runtime) && PlannerSession.is_open p
  && is_some_and (PlannerSession.finding_id p ≫= find_finding q) (λ f,
       bool_decide (Finding.status f = FindingStatus.Open)
       && counts_as_improvement (Finding.kind f) (Finding.recorded_by f)).
Definition improvement_limit q (limit : nat) : result FindingError ImprovementLimit :=
  states ← traverse (proposal_state q) (linked_proposals q);
  let running := length (List.filter (λ '(status, tasks), improvement_running status tasks) states) in
  let planners := length (List.filter (planning_improvement q) (Tables.planners q)) in
  Ok (ImprovementLimit.mk (running + planners) limit).

(** Where the answer of a question about a finding goes. *)
Definition route_of q (finding : FindingId) : result FindingError PlannerAnswerRoute.t :=
  let own p := bool_decide (PlannerSession.origin p = PlannerOrigin.Runtime)
               && PlannerSession.is_for p finding in
  match find_last (λ p, own p && PlannerSession.is_open p && is_none (PlannerSession.answer_wait_at p))
          (Tables.planners q) with
  | Some planner => Ok (PlannerAnswerRoute.Planner planner)
  | None =>
      if negb (existsb own (Tables.planners q)) then Ok PlannerAnswerRoute.Person
      else
        current ← read_finding q finding;
        Ok (if marked_open current && negb (exhausted q finding (Finding.propose_requested_at current))
            then PlannerAnswerRoute.NewPlanner else PlannerAnswerRoute.Close)
  end.
Definition takes_new_planner (route : PlannerAnswerRoute.t) : bool :=
  match route with PlannerAnswerRoute.NewPlanner => true | _ => false end.

(** A planner for a finding that may have one: past the most planners since its
    mark the finding is exhausted, unless a person's answer is carried. *)
Definition open_planner_for w q (current : Finding) (answer : option AskId) :
    result FindingError (Tables P * FindingPlannerStart.t) :=
  let finding := Finding.id current in
  let opened := planners_since_mark q current in
  if (MAX_FINDING_PLANNERS <=? opened)%nat && is_none answer then
    q ← finding_event w q current EventKind.FindingPlannerExhausted
          (object
            [("finding_id", finding_number finding);
             ("planners", of_number (Z.of_nat opened));
             ("marked_at", or_null of_number (Finding.propose_requested_at current));
             ("reason", of_text (format
               [decimal (Z.of_nat opened);
                " planners of the runtime's ended without deciding the finding (at most ";
                decimal (Z.of_nat MAX_FINDING_PLANNERS); ")"]))]);
    Ok (q, FindingPlannerStart.Exhausted opened)
  else
    let row := PlannerSession.inserted (next_planner q) PlannerOrigin.Runtime (Connection.now w)
                 <| PlannerSession.finding_id := Some finding |> in
    let attempt := opened + 1 in
    q ← finding_event w (q <| Tables.planners := Tables.planners q ++ [row] |>) current
          EventKind.FindingPlannerOpened
          (object
            [("finding_id", finding_number finding);
             ("planner_id", of_number (PlannerId.as_i64 (PlannerSession.id row)));
             ("attempt", of_number (Z.of_nat attempt));
             ("ask_id", or_null (λ a, of_number (AskId.as_i64 a)) answer);
             ("propose_reason", or_null of_text (Finding.propose_reason current))]);
    planner ← planner q (PlannerSession.id row);
    Ok (q, FindingPlannerStart.Opened planner current attempt).

Definition open_finding_planner w q (finding : FindingId) (answer : option AskId) (limit : nat) :
    result FindingError (Tables P * FindingPlannerStart.t) :=
  eligible ← match answer with
             | None => Ok (is_target q finding)
             | Some ask =>
                 ask ← read_ask q ask;
                 if negb (Ask.is_about ask finding) then Ok false
                 else
                   route ← route_of q finding;
                   Ok (takes_new_planner route && negb (open_for q finding))
             end;
  if negb eligible then Ok (q, FindingPlannerStart.Skipped)
  else
    current ← read_finding q finding;
    improvements ←
      (if is_none answer && counts_as_improvement (Finding.kind current) (Finding.recorded_by current)
       then Some <$> improvement_limit q limit else Ok None);
    match improvements with
    | Some improvements =>
        if ImprovementLimit.reached improvements then Ok (q, FindingPlannerStart.AtLimit improvements)
        else open_planner_for w q current answer
    | None => open_planner_for w q current answer
    end.

(** [UPDATE planners] of one row, where it is as the statement wants it. *)
Definition update_planner q (id : PlannerId) (wanted : PlannerSession → bool)
    (change : PlannerSession → PlannerSession) : Tables P * bool :=
  let matches p := bool_decide (PlannerSession.id p = id) && wanted p in
  (q <| Tables.planners := (λ p, if matches p then change p else p) <$> Tables.planners q |>,
   existsb matches (Tables.planners q)).
Definition planner_workspace_created q (id : PlannerId) (workspace : string) :
    result FindingError (Tables P) :=
  let '(q, updated) := update_planner q id (λ p, is_none (PlannerSession.workspace_id p))
    (λ p, p <| PlannerSession.workspace_id := Some workspace |>) in
  _ ← require updated (FindingError.HasWorkspace id);
  (* [workspace_id TEXT UNIQUE]. *)
  _ ← require (bool_decide (NoDup (omap PlannerSession.workspace_id (Tables.planners q))))
        FindingError.NotUnique;
  Ok q.
(** The row [close_planner] and [end_planner] close: a closed one keeps its
    first close. *)
Definition close_planner_row w q (id : PlannerId) (error : option string) : Tables P * bool :=
  update_planner q id PlannerSession.is_open
    (λ p, p <| PlannerSession.closed_at := Some (Connection.now w) |>
            <| PlannerSession.error :=
                 match PlannerSession.error p with Some old => Some old | None => error end |>).
(** [record_queue_event_in] of [store_writes.rs]. *)
Definition record_queue_event_in w q (kind : EventKind) (payload : P) : result FindingError (Tables P) :=
  _ ← FindingError.of_domain (check_event_target kind None None);
  Ok (insert_event w q None None None kind payload).
Definition mark_answer_wait w q (id : PlannerId) (asks : list AskId) (answered : bool) (payload : P) :
    result FindingError (Tables P * bool) :=
  let waiting ask :=
    is_some_and (List.find (λ a, bool_decide (Ask.id a = ask)) (Tables.asks q)) (λ a,
      Bool.eqb (is_some (Ask.answered_at a)) answered && is_none (Ask.closed_at a)) in
  if negb (forallb waiting asks) then Ok (q, false)
  else
    let '(marked, updated) := update_planner q id
      (λ p, PlannerSession.is_open p && is_none (PlannerSession.answer_wait_at p))
      (λ p, p <| PlannerSession.answer_wait_at := Some (Connection.now w) |>) in
    if negb updated then Ok (q, false)
    else
      q ← record_queue_event_in w marked EventKind.PlannerAnswerWait payload;
      Ok (q, true).

(** ** Proposals of findings *)

(** The findings named and, unless named too, those of the planners of the
    runtime's open in [workspace], each with whether it was named. *)
Definition link_targets q (workspace : option string) (named : list FindingId) :
    list (FindingId * bool) :=
  let own :=
    match workspace with
    | None => []
    | Some workspace =>
        omap PlannerSession.finding_id
          (List.filter (λ p, bool_decide (PlannerSession.workspace_id p = Some workspace)
             && bool_decide (PlannerSession.origin p = PlannerOrigin.Runtime)
             && PlannerSession.is_open p) (Tables.planners q))
    end in
  foldl (λ targets id, if existsb (λ t, bool_decide (t.1 = id)) targets then targets
                       else targets ++ [(id, false)])
    ((λ id, (id, true)) <$> named) own.

Definition link_one w (proposal : ProposalId) (by_ : string) (linked : Tables P * list FindingId)
    (target : FindingId * bool) : result FindingError (Tables P * list FindingId) :=
  let '(q, done) := linked in
  let '(id, named) := target in
  current ← read_finding q id;
  match check_link current proposal with
  | Err error => if named : bool then Err (FindingError.Refused error) else Ok linked
  | Ok false => Ok linked
  | Ok true =>
      q ← update_finding q id (λ row,
            row <| Finding.status := FindingStatus.Proposed |> <| Finding.status_reason := None |>
                <| Finding.proposal_id := Some proposal |>
                <| Finding.updated_at := Connection.now w |>);
      row ← read_finding q id;
      q ← finding_event w q row EventKind.FindingStatusChanged
            (object
              [("finding_id", finding_number id);
               ("from", status_text (Finding.status current));
               ("to", status_text FindingStatus.Proposed);
               ("reason", of_text (format
                 ["proposal "; ProposalId.display proposal; " was submitted to remedy it"]));
               ("proposal_id", of_number (ProposalId.as_i64 proposal));
               ("by", of_text by_)]);
      Ok (q, done ++ [id])
  end.
Definition link_findings w q (proposal : ProposalId) (workspace : option string)
    (named : list FindingId) (by_ : string) : result FindingError (Tables P * list FindingId) :=
  fold_result (link_one w proposal by_) (q, []) (link_targets q workspace named).

(** The columns the end of a proposal writes. *)
Definition settled_row w (to : FindingStatus) (reason : string) (row : Finding) : Finding :=
  let row := row <| Finding.status := to |> <| Finding.status_reason := Some reason |>
                 <| Finding.updated_at := Connection.now w |> in
  if bool_decide (to = FindingStatus.Open)
  then row <| Finding.proposal_id := None |> <| Finding.propose_reason := None |>
           <| Finding.propose_requested_at := None |>
  else row.
Definition settle_one w (settled : Tables P * list (FindingId * FindingStatus)) (current : Finding) :
    result FindingError (Tables P * list (FindingId * FindingStatus)) :=
  let '(q, done) := settled in
  match Finding.proposal_id current with
  | None => Ok settled
  | Some proposal =>
      state ← proposal_state q proposal;
      match settle state.1 state.2 with
      | None => Ok settled
      | Some (to, reason) =>
          let id := Finding.id current in
          q ← update_finding q id (settled_row w to reason);
          after ← read_finding q id;
          q ← finding_event w q after EventKind.FindingStatusChanged
                (object
                  [("finding_id", finding_number id);
                   ("from", status_text (Finding.status current));
                   ("to", status_text to);
                   ("reason", of_text reason);
                   ("proposal_id", of_number (ProposalId.as_i64 proposal));
                   ("by", of_text "runtime")]);
          Ok (q, done ++ [(id, to)])
      end
  end.
Definition proposed (f : Finding) : bool :=
  bool_decide (Finding.status f = FindingStatus.Proposed) && is_some (Finding.proposal_id f).
Definition settle_findings w q : result FindingError (Tables P * list (FindingId * FindingStatus)) :=
  fold_result (settle_one w) (q, []) (List.filter proposed (Tables.findings q)).

(** ** A person's answer *)
Fixpoint replace_byte (from to : Ascii.ascii) (s : string) : string :=
  match s with
  | EmptyString => EmptyString
  | String a s => String (if Ascii.eqb a from then to else a) (replace_byte from to s)
  end.
Definition ask_target (ask : Ask) : FindingTarget :=
  match Ask.run_id ask, Ask.task_id ask with
  | Some run, _ => FindingTarget.Run run
  | None, Some task => FindingTarget.Task task
  | None, None => FindingTarget.Queue
  end.
Definition ask_opened q (ask : AskId) : option EventId :=
  RunEvent.id <$>
    List.find (λ e, RunEvent.is_kind e EventKind.AskOpened
      && bool_decide (number_of (RunEvent.payload e) "ask_id" = Some (AskId.as_i64 ask))) (Tables.log q).
Definition ask_summary (question : string) : string :=
  take_chars 200 (unwrap_or (List.find (λ line, negb (is_blank line)) (lines question)) question).
Definition finding_of_ask q (ask : Ask) (reason by_ : string) : NewFinding :=
  {| NewFinding.kind := replace_byte "-" "_" (AskKind.as_str (Ask.kind ask));
     NewFinding.target := ask_target ask;
     NewFinding.subject := "";
     NewFinding.summary := ask_summary (Ask.question ask);
     NewFinding.detail := Some (Ask.question ask);
     NewFinding.impact := None;
     NewFinding.evidence := match ask_opened q (Ask.id ask) with Some id => [id] | None => [] end;
     NewFinding.propose := Some reason;
     NewFinding.by_ := by_ |}.
Definition record_from_ask w q (ask : Ask) (reason by_ : string) :
    result FindingError (Tables P * FindingId) :=
  recorded ← record_in w q (finding_of_ask q ask reason by_);
  Ok (recorded.1, Finding.id (FindingOutcome.finding recorded.2)).

(** The finding an ask's answer marks: its own, or one recorded of it and named
    on it. *)
Definition finding_to_mark w q (ask : Ask) (reason by_ : string) :
    result FindingError (Tables P * FindingId) :=
  match Ask.finding_id ask with
  | Some id => Ok (q, id)
  | None =>
      recorded ← record_from_ask w q ask reason by_;
      let '(q, id) := recorded in
      Ok (q <| Tables.asks := (λ a, if bool_decide (Ask.id a = Ask.id ask)
                                    then a <| Ask.finding_id := Some id |> else a) <$> Tables.asks q |>,
          id)
  end.
(** The columns a mark writes. *)
Definition written_mark (now : Z) (marked row : Finding) : Finding :=
  row <| Finding.status := Finding.status marked |> <| Finding.status_reason := None |>
      <| Finding.proposal_id := None |> <| Finding.propose_reason := Finding.propose_reason marked |>
      <| Finding.propose_requested_at := Some now |> <| Finding.updated_at := now |>.
Definition mark_answered w q (ask : Ask) (id : FindingId) (reason by_ : string) :
    result FindingError (Tables P) :=
  current ← read_finding q id;
  match mark_for_proposal current reason (Connection.now w) with
  | None => Ok q
  | Some marked =>
      q ← update_finding q id (written_mark (Connection.now w) marked);
      q ← (if negb (bool_decide (Finding.status current = Finding.status marked)) then
             finding_event w q marked EventKind.FindingStatusChanged
               (object
                 [("finding_id", finding_number id);
                  ("from", status_text (Finding.status current));
                  ("to", status_text (Finding.status marked));
                  ("reason", of_text reason);
                  ("ask_id", of_number (AskId.as_i64 (Ask.id ask)));
                  ("by", of_text by_)])
           else Ok q);
      finding_event w q marked EventKind.FindingUpdated
        (object
          [("finding_id", finding_number id);
           ("changed", texts ["propose_reason"]);
           ("ask_id", of_number (AskId.as_i64 (Ask.id ask)));
           ("by", of_text by_)])
  end.
Definition offered (ask : Ask) (option_ : string) : bool :=
  existsb (λ o, bool_decide (trim o = option_)) (Ask.options ask).
(** The reason a person gave, or that they answered so. *)
Definition answer_reason (ask : Ask) (option_ : string) (why : option string) : string :=
  unwrap_or why (format ["a person answered "; option_; " to ask "; AskId.display (Ask.id ask)]).
Definition apply_answer w q (ask : Ask) (text by_ : string) :
    result FindingError (Tables P * option AppliedAnswer.t) :=
  if negb (AskKind.offers_finding_answers (Ask.kind ask)) then Ok (q, None)
  else
    match FindingAnswer.parse text with
    | Some (FindingAnswer.Propose why) =>
        if negb (offered ask PROPOSE_OPTION) then Ok (q, None)
        else
          let reason := answer_reason ask "propose" why in
          found ← finding_to_mark w q ask reason by_;
          let '(q, id) := found in
          q ← mark_answered w q ask id reason by_;
          Ok (q, Some (AppliedAnswer.mk id "propose"))
    | Some (FindingAnswer.Dismiss why) =>
        if negb (offered ask DISMISS_OPTION) then Ok (q, None)
        else
          match Ask.finding_id ask with
          | None => Ok (q, None)
          | Some id =>
              let reason := answer_reason ask "dismiss" why in
              current ← read_finding q id;
              q ← (if bool_decide (Finding.status current = FindingStatus.Dismissed) then Ok q
                   else dismissed ← set_status_in w q id FindingStatus.Dismissed reason by_;
                        Ok dismissed.1);
              Ok (q, Some (AppliedAnswer.mk id "dismiss"))
          end
    | None => Ok (q, None)
    end.

(** ** The watch of CI *)

(** The latest event of a kind that names no task, run or goal. *)
Definition of_queue e : bool :=
  is_none (RunEvent.task_id e) && is_none (RunEvent.run_id e) && is_none (RunEvent.goal_id e).
Definition latest_of_kind q (kind : EventKind) : option Z :=
  (λ e, EventId.as_i64 (RunEvent.id e)) <$>
    find_last (λ e, RunEvent.is_kind e kind && of_queue e) (Tables.log q).
(** [insert] and [set_event_body_field]. *)
Definition insert w q (kind : EventKind) (payload : P) : Tables P * EventId :=
  (insert_event w q None None None kind payload, next_event q).
Definition set_event_body_field q (event : EventId) (field_ : string) (value : P) : Tables P :=
  q <| Tables.log :=
    (λ e, if bool_decide (RunEvent.id e = event)
          then RunEvent.mk (RunEvent.id e) (RunEvent.task_id e) (RunEvent.goal_id e) (RunEvent.run_id e)
                 (RunEvent.kind e) (set_field (RunEvent.payload e) field_ value)
                 (RunEvent.created_at e) (RunEvent.actor e)
          else e) <$> Tables.log q |>.

Definition record_marked w q (new : NewFinding) : result FindingError (Tables P * FindingId) :=
  recorded ← record_in w q new;
  let '(q, outcome) := recorded in
  let id := Finding.id (FindingOutcome.finding outcome) in
  if bool_decide ("status" ∈ FindingOutcome.changed outcome)
     && bool_decide (Finding.status (FindingOutcome.finding outcome) = FindingStatus.Open)
  then
    q ← update_finding q id (λ row,
          row <| Finding.propose_requested_at := Some (Connection.now w) |>);
    Ok (q, id)
  else Ok (q, id).
Definition resolvable q (id : FindingId) : bool :=
  is_some_and (find_finding q id) (λ f,
    bool_decide (Finding.status f = FindingStatus.Open) && negb (open_for q id)).
Definition resolve_one w (resolved : Tables P * list FindingId) (item : Z * string) :
    result FindingError (Tables P * list FindingId) :=
  let '(q, done) := resolved in
  let id := FindingId.new item.1 in
  if resolvable q id then
    changed ← set_status_in w q id FindingStatus.Resolved item.2 "runtime";
    Ok (changed.1, done ++ [id])
  else Ok resolved.
Definition resolve_all w q (resolve : list (Z * string)) : result FindingError (Tables P * list FindingId) :=
  fold_result (resolve_one w) (q, []) resolve.

Definition record_ci_check w q (record : CiCheckRecord.t P) :
    result FindingError (Tables P * option CiCheckRecorded.t) :=
  if negb (bool_decide (latest_of_kind q EventKind.CiChecked = CiCheckRecord.previous record))
  then Ok (q, None)
  else
    let '(q, checked) := insert w q EventKind.CiChecked (CiCheckRecord.checked record) in
    let '(q, red) :=
      match CiCheckRecord.turned_red record with
      | Some payload =>
          let '(q, red) := insert w q EventKind.CiTurnedRed (set_field payload "finding_ids" (of_items [])) in
          (q, Some red)
      | None => (q, None)
      end in
    let q :=
      match CiCheckRecord.turned_green record with
      | Some payload => (insert w q EventKind.CiTurnedGreen payload).1
      | None => q
      end in
    found ← match CiCheckRecord.finding record with
            | Some finding =>
                let evidence := checked :: match red with Some red => [red] | None => [] end in
                marked ← record_marked w q (finding <| NewFinding.evidence := evidence |>);
                let '(q, id) := marked in
                let q := set_event_body_field q checked "finding_id" (finding_number id) in
                let q :=
                  match red with
                  | Some red => set_event_body_field q red "finding_ids" (of_items [finding_number id])
                  | None => q
                  end in
                Ok (q, Some id)
            | None => Ok (q, None)
            end;
    let '(q, finding) := found in
    resolved ← resolve_all w q (CiCheckRecord.resolve record);
    Ok (resolved.1, Some (CiCheckRecorded.mk checked finding resolved.2)).

Definition record_ci_scheduled_check w q (record : ScheduledCheckRecord.t P) :
    result FindingError (Tables P * option CiCheckRecorded.t) :=
  if negb (bool_decide (latest_of_kind q EventKind.CiScheduledChecked = ScheduledCheckRecord.previous record))
  then Ok (q, None)
  else
    let '(q, checked) := insert w q EventKind.CiScheduledChecked (ScheduledCheckRecord.checked record) in
    found ← match ScheduledCheckRecord.finding record with
            | Some finding =>
                marked ← record_marked w q (finding <| NewFinding.evidence := [checked] |>);
                let '(q, id) := marked in
                Ok (set_event_body_field q checked "finding_id" (finding_number id), Some id)
            | None => Ok (q, None)
            end;
    let '(q, finding) := found in
    resolved ← resolve_all w q (ScheduledCheckRecord.resolve record);
    Ok (resolved.1, Some (CiCheckRecorded.mk checked finding resolved.2)).

(** The [ci_failure] findings a task fixes, and the tasks that fix each. *)
Definition fixed_by (f : Finding) (task : TaskId) (proposal : option ProposalId) : bool :=
  bool_decide (Finding.covered_by_task f = Some task)
  || is_some (Finding.proposal_id f) && bool_decide (Finding.proposal_id f = proposal).
Definition ci_failure_findings_of q (task : TaskId) : list FindingId :=
  Finding.id <$> List.filter (λ f, bool_decide (Finding.kind f = CI_FINDING_KIND)
    && fixed_by f task (find_task q task ≫= TaskRow.proposal_id)) (Tables.findings q).
Definition ci_failure_fix_tasks q : list (FindingId * list TaskId) :=
  omap (λ f,
    let tasks := sort_by_key (λ t, [TaskId.as_i64 t]) (TaskRow.id <$>
      List.filter (λ t, fixed_by f (TaskRow.id t) (TaskRow.proposal_id t)
        && negb (bool_decide (TaskRow.status t = TaskStatus.Canceled))) (Tables.tasks q)) in
    if bool_decide (Finding.kind f = CI_FINDING_KIND) && negb (bool_decide (tasks = []))
    then Some (Finding.id f, tasks) else None) (Tables.findings q).

(** ** Events about a finding and its asks *)
Definition record_finding_event w q (finding : FindingId) (kind : EventKind) (payload : P) :
    result FindingError (Tables P) :=
  current ← read_finding q finding;
  finding_event w q current kind payload.
Definition about_ask (ask : AskId) (kind : EventKind) e : bool :=
  RunEvent.is_kind e kind
  && bool_decide (number_of (RunEvent.payload e) "ask_id" = Some (AskId.as_i64 ask)).
Definition ask_delivered_to q (ask : AskId) (workspace : string) : bool :=
  existsb (λ e, about_ask ask EventKind.AskDelivered e
    && text_is (RunEvent.payload e) "workspace_id" workspace) (Tables.log q).
Definition ask_delivery_failed q (ask : AskId) (planner : PlannerId) : bool :=
  existsb (λ e, about_ask ask EventKind.AskDeliveryFailed e
    && bool_decide (number_of (RunEvent.payload e) "planner_id" = Some (PlannerId.as_i64 planner)))
    (Tables.log q).
Definition answer_claimed_at q (ask : AskId) (workspace : string) : option Z :=
  foldl (λ latest at_, Some (match latest with Some l => Z.max l at_ | None => at_ end)) None
    (omap (λ e,
       if about_ask ask EventKind.PlannerAnswerClaimed e
          && text_is (RunEvent.payload e) "workspace_id" workspace
       then number_of (RunEvent.payload e) "claimed_at" else None) (Tables.log q)).
End store.
