(* ===== verification/FindingTable.v ===== *)
(** * What the store of findings promises

    Over any sequence of its transactions and of writes of other parts, a
    problem has one finding, whatever its status; the findings folded from the
    events are the rows; a finding has one planner open at most; a settled
    proposal leaves no finding proposed; and a person's answer is carried
    out. *)
From S2P Require Import Prelude Text Vocab Ids Errors EventKinds Events Tasks Proposals Findings FindingLedger Asks FindingStore.

Module FindingStoreProofs.
Section proofs.
  Context {P : Type} `{Payload P} `{!PayloadLaws P}.
  Implicit Types (q : Tables P) (w : Connection) (e : RunEvent P) (f g : Finding).

(** ** Well-formed tables *)

(** A row: its run is one that was made, with its task; a proposed finding has
    its proposal, and a marked one the time of its mark. *)
Record row_ok f : Prop := {
  row_run : LedgerProofs.run_known (Finding.run_id f);
  row_task : is_some (Finding.run_id f) = true → is_some (Finding.task_id f) = true;
  row_evidence : NoDup (Finding.evidence f);
  row_occurrences : (1 ≤ Finding.occurrences f)%Z;
  row_proposed : Finding.status f = FindingStatus.Proposed → is_some (Finding.proposal_id f) = true;
  row_marked : is_some (Finding.propose_reason f) = true → is_some (Finding.propose_requested_at f) = true;
}.
Record tables_wf q : Prop := {
  wf_ids : NoDup (Finding.id <$> Tables.findings q);
  wf_problems : NoDup (problem <$> Tables.findings q);
  wf_rows : ∀ f, f ∈ Tables.findings q → row_ok f;
  wf_runs : ∀ row, row ∈ Tables.runs q → LedgerProofs.run_known (Some row.1);
  wf_log : NoDup (RunEvent.id <$> Tables.log q);
  wf_planner_ids : NoDup (PlannerSession.id <$> Tables.planners q);
  wf_one_open : ∀ p1 p2 finding, p1 ∈ Tables.planners q → p2 ∈ Tables.planners q →
    PlannerSession.is_for p1 finding = true → PlannerSession.is_for p2 finding = true →
    PlannerSession.is_open p1 = true → PlannerSession.is_open p2 = true → p1 = p2;
}.

(** What the events say of the findings: of every one, or of every one but
    [id], whose row was written and whose event was not yet. *)
Definition known q : gmap FindingId FindingAttributes := foldl fold_event ∅ (Tables.log q).
Definition ledger_ok q : Prop :=
  ∀ id, known q !! id = Finding.attributes <$> find_finding q id.
Definition ledger_but q (id : FindingId) : Prop :=
  ∀ other, other ≠ id → known q !! other = Finding.attributes <$> find_finding q other.

Definition inv q : Prop := tables_wf q ∧ ledger_ok q.
(** A step that keeps the tables, whatever it writes besides findings. *)
Definition keeps q q' : Prop := inv q → inv q'.
#[local] Instance keeps_preorder : PreOrder keeps.
Proof. split; [intros q Hinv; exact Hinv|]. intros q1 q2 q3 H12 H23 Hinv. auto. Qed.

(** What a transaction on findings leaves as it was. *)
Record beside q q' : Prop := {
  beside_planners : Tables.planners q' = Tables.planners q;
  beside_asks : Tables.asks q' = Tables.asks q;
  beside_goals : Tables.goals q' = Tables.goals q;
  beside_tasks : Tables.tasks q' = Tables.tasks q;
  beside_runs : Tables.runs q' = Tables.runs q;
  beside_proposals : Tables.proposals q' = Tables.proposals q;
  beside_log : Tables.log q `prefix_of` Tables.log q';
}.
#[local] Instance beside_preorder : PreOrder beside.
Proof. split; [by split|]. intros q1 q2 q3 [] []. split; first [congruence|by etrans]. Qed.

(** *** Rows *)
Lemma find_finding_Some q id f :
  find_finding q id = Some f → f ∈ Tables.findings q ∧ Finding.id f = id.
Proof.
  intros Hfind. apply List.find_some in Hfind as [Hin Hid]. bool_split. by rewrite list_elem_of_In.
Qed.
Lemma find_finding_elem q f :
  NoDup (Finding.id <$> Tables.findings q) → f ∈ Tables.findings q →
  find_finding q (Finding.id f) = Some f.
Proof.
  intros Hnd Hin. unfold find_finding. destruct (List.find _ _) as [g|] eqn:Hfind.
  - apply List.find_some in Hfind as [Hg Hid]. bool_split. f_equal.
    by eapply (nodup_key_inj Finding.id); [|apply list_elem_of_In| |].
  - exfalso. apply list_elem_of_In in Hin. pose proof (List.find_none _ _ Hfind _ Hin) as Hno.
    simpl in Hno. by bool_split.
Qed.
Lemma read_finding_Ok q id f : read_finding q id = Ok f → find_finding q id = Some f.
Proof. unfold read_finding. destruct (find_finding q id); naive_solver. Qed.

(** What never changes of a row. *)
Record row_fixed f g : Prop := {
  fixed_id : Finding.id g = Finding.id f;
  fixed_kind : Finding.kind g = Finding.kind f;
  fixed_target : Finding.target g = Finding.target f;
  fixed_task : Finding.task_id g = Finding.task_id f;
  fixed_run : Finding.run_id g = Finding.run_id f;
  fixed_goal : Finding.goal_id g = Finding.goal_id f;
  fixed_subject : Finding.subject g = Finding.subject f;
}.
Lemma row_fixed_problem f g : row_fixed f g → problem g = problem f.
Proof. intros []. unfold problem. congruence. Qed.
Definition good_change f g : Prop := row_fixed f g ∧ (row_ok f → row_ok g).

Definition change_row (id : FindingId) (change : Finding → Finding) f : Finding :=
  if bool_decide (Finding.id f = id) then change f else f.

Lemma change_rows_same q id change f {A} (of_ : Finding → A) :
  tables_wf q → find_finding q id = Some f → of_ (change f) = of_ f →
  of_ <$> (change_row id change <$> Tables.findings q) = of_ <$> Tables.findings q.
Proof.
  intros Hwf Hfind Hof. apply find_finding_Some in Hfind as [Hin Hid].
  rewrite <-list_fmap_compose. apply list_fmap_ext. intros i g Hg. simpl.
  unfold change_row. case_bool_decide as Hg'; [|done].
  assert (g = f) as ->; [|done].
  eapply (nodup_key_inj Finding.id); [apply (wf_ids _ Hwf)| |done|congruence].
  by eapply list_elem_of_lookup_2.
Qed.

(** A row's update that changes no key is never refused by the index. *)
Lemma index_of_problems findings : NoDup (problem <$> findings) → index_holds findings = true.
Proof.
  intros Hnd. unfold index_holds. apply bool_decide_eq_true.
  assert (∀ l, NoDup (problem <$> l) → NoDup (problem <$> List.filter unsettled l)) as Hall; [|auto].
  clear. intros l. induction l as [|f l IH]; simpl; [by intros|].
  intros [Hf Hl]%NoDup_cons. destruct (unsettled f); simpl; [|auto].
  apply NoDup_cons. split; [|auto]. intros Hin. apply Hf.
  apply list_elem_of_fmap in Hin as (g & Heq & Hg). rewrite Heq. apply list_elem_of_fmap_2.
  apply list_elem_of_In, List.filter_In in Hg as [Hg _]. by apply list_elem_of_In.
Qed.

Lemma update_finding_is q id change f :
  tables_wf q → find_finding q id = Some f → row_fixed f (change f) →
  update_finding q id change
  = Ok (q <| Tables.findings := change_row id change <$> Tables.findings q |>).
Proof.
  intros Hwf Hfind Hfixed. unfold update_finding, write_findings.
  rewrite index_of_problems; [done|].
  change (NoDup (problem <$> (change_row id change <$> Tables.findings q))).
  rewrite (change_rows_same q id change f) by (done || by apply row_fixed_problem).
  apply (wf_problems _ Hwf).
Qed.

Lemma find_change q id change f other :
  tables_wf q → find_finding q id = Some f → row_fixed f (change f) →
  find_finding (q <| Tables.findings := change_row id change <$> Tables.findings q |>) other
  = if bool_decide (other = id) then Some (change f) else find_finding q other.
Proof.
  intros Hwf Hfind Hfixed. pose proof (find_finding_Some _ _ _ Hfind) as [Hin Hid].
  set (q' := q <| Tables.findings := _ |>).
  assert (NoDup (Finding.id <$> Tables.findings q')) as Hnd.
  { unfold q'. simpl. rewrite (change_rows_same q id change f) by (done || apply Hfixed). apply (wf_ids _ Hwf). }
  case_bool_decide as Hother.
  - subst other. rewrite <-Hid, <-(fixed_id _ _ Hfixed). apply find_finding_elem; [done|].
    unfold q'. simpl. apply list_elem_of_fmap. exists f. split; [|done].
    unfold change_row. by rewrite bool_decide_true.
  - destruct (find_finding q other) as [g|] eqn:Hg.
    + apply find_finding_Some in Hg as [Hg Hgid]. rewrite <-Hgid. apply find_finding_elem; [done|].
      unfold q'. simpl. apply list_elem_of_fmap. exists g. split; [|done].
      unfold change_row. by rewrite bool_decide_false by congruence.
    + destruct (find_finding q' other) as [g|] eqn:Hg'; [|done]. exfalso.
      apply find_finding_Some in Hg' as [Hg' Hgid]. unfold q' in Hg'. simpl in Hg'.
      apply list_elem_of_fmap in Hg' as (h & -> & Hh).
      assert (Finding.id h = other) as Hho.
      { unfold change_row in Hgid. case_bool_decide as Hhid; [|done].
        assert (h = f) as ->; [|rewrite (fixed_id _ _ Hfixed) in Hgid; congruence].
        eapply (nodup_key_inj Finding.id); [apply (wf_ids _ Hwf)|done..|congruence]. }
      rewrite <-Hho, (find_finding_elem q h) in Hg; [done|apply (wf_ids _ Hwf)|done].
Qed.

(** An update of a row: what comes of the tables. *)
Lemma update_finding_spec q id change f q' :
  tables_wf q → find_finding q id = Some f → good_change f (change f) →
  update_finding q id change = Ok q' →
  tables_wf q' ∧ find_finding q' id = Some (change f)
  ∧ Tables.log q' = Tables.log q ∧ beside q q'
  ∧ ∀ other, other ≠ id → find_finding q' other = find_finding q other.
Proof.
  intros Hwf Hfind [Hfixed Hok] Hupdate. rewrite (update_finding_is q id change f) in Hupdate by done.
  injection Hupdate as <-. pose proof (find_change q id change f) as Hfinds.
  split_and!; [|by rewrite Hfinds, bool_decide_true by done|done|done|].
  2:{ intros other Hother. by rewrite Hfinds, bool_decide_false by done. }
  destruct Hwf as [Hids Hproblems Hrows Hruns Hlog Hplanners Hone] eqn:Heq. clear Heq.
  split; simpl; try done.
  - rewrite (change_rows_same q id change f) by (done || apply Hfixed). done.
  - rewrite (change_rows_same q id change f) by (done || by apply row_fixed_problem). done.
  - intros g (h & -> & Hh)%list_elem_of_fmap. unfold change_row. case_bool_decide as Hid; [|auto].
    apply find_finding_Some in Hfind as [Hin Hfid].
    assert (h = f) as ->; [|auto].
    eapply (nodup_key_inj Finding.id); [apply Hids|done..|congruence].
Qed.

(** *** Events *)
Lemma le_maximum {A} (number : A → Z) (l : list A) a :
  a ∈ l → (number a ≤ foldr Z.max 0 (number <$> l))%Z.
Proof.
  intros Hin. induction Hin as [a l|a b l Hin IH]; cbn [fmap list_fmap foldr]; lia.
Qed.
Lemma next_event_fresh q : next_event q ∉ RunEvent.id <$> Tables.log q.
Proof.
  intros (e & Heq & He)%list_elem_of_fmap.
  pose proof (le_maximum (λ e : RunEvent P, EventId.as_i64 (RunEvent.id e)) (Tables.log q) e He) as Hmax.
  apply (f_equal EventId.as_i64) in Heq. unfold next_event in Heq. cbn [EventId.as_i64] in Heq. cbn beta in Hmax. lia.
Qed.

(** What an event leaves as it was. *)
Definition same_rows q q' : Prop := Tables.findings q' = Tables.findings q ∧ beside q q'.
Lemma same_rows_wf q q' :
  same_rows q q' → NoDup (RunEvent.id <$> Tables.log q') → tables_wf q → tables_wf q'.
Proof.
  intros (Hfindings & [Hplanners _ _ _ Hruns _ _]) Hlog [].
  split; rewrite ?Hfindings, ?Hplanners, ?Hruns; try done.
Qed.
Lemma same_rows_find q q' id : same_rows q q' → find_finding q' id = find_finding q id.
Proof. intros (Hfindings & _). unfold find_finding. by rewrite Hfindings. Qed.

Lemma insert_event_same w q task run goal kind payload :
  same_rows q (insert_event w q task run goal kind payload).
Proof. split; [done|]. split; try done. simpl. by apply prefix_app_r. Qed.
Lemma insert_event_wf w q task run goal kind payload :
  tables_wf q → tables_wf (insert_event w q task run goal kind payload).
Proof.
  intros Hwf. apply (same_rows_wf q); [apply insert_event_same| |done]. simpl. rewrite fmap_app. simpl.
  apply NoDup_app. split_and!; [apply (wf_log _ Hwf)| |apply NoDup_singleton].
  intros id Hid ->%list_elem_of_singleton. by apply (next_event_fresh q).
Qed.
Lemma insert_event_known w q task run goal kind payload :
  bool_decide (kind ∈ LEDGER_KINDS) = false →
  known (insert_event w q task run goal kind payload) = known q.
Proof.
  intros Hkind. unfold known. simpl. rewrite foldl_app. simpl. apply LedgerProofs.fold_event_other.
  unfold RunEvent.is_in, RecordedKind.is_in. simpl. exact Hkind.
Qed.

Lemma finding_event_spec w q f kind payload q' :
  tables_wf q → is_object payload = true → LedgerProofs.run_known (Finding.run_id f) →
  finding_event w q f kind payload = Ok q' →
  tables_wf q' ∧ same_rows q q'
  ∧ (kind ∈ RECORDS_VALUES → known q' = <[Finding.id f := Finding.attributes f]> (known q))
  ∧ (kind ∉ LEDGER_KINDS → known q' = known q).
Proof.
  intros Hwf Hobject Hrun Hevent. unfold finding_event in Hevent. res_inv. split_and!.
  - by apply insert_event_wf.
  - apply insert_event_same.
  - intros Hkind. rewrite bool_decide_true by done. unfold known. simpl. rewrite foldl_app. simpl.
    change (Finding.id f) with (FindingAttributes.id (Finding.attributes f)).
    apply (LedgerProofs.fold_event_record _ _ payload); [|done..].
    unfold RunEvent.is_in, RecordedKind.is_in. simpl.
    unfold RECORDS_VALUES in Hkind. unfold LEDGER_KINDS. 
    apply bool_decide_eq_true. set_solver.
  - intros Hkind. apply insert_event_known. by apply bool_decide_eq_false.
Qed.

(** A finding's event of a kind that carries its attributes brings the ledger up
    to its row. *)
Lemma event_of_row w q f g kind payload q' :
  finding_event w q f kind payload = Ok q' →
  tables_wf q → ledger_but q (Finding.id f) → find_finding q (Finding.id f) = Some g →
  Finding.attributes f = Finding.attributes g → kind ∈ RECORDS_VALUES → is_object payload = true →
  inv q' ∧ same_rows q q'.
Proof.
  intros Hevent Hwf Hbut Hfind Hattributes Hkind Hobject.
  apply find_finding_Some in Hfind as Hg. destruct Hg as [Hg Hgid].
  assert (Finding.run_id f = Finding.run_id g) as Hrunid by (by injection Hattributes).
  apply finding_event_spec in Hevent as (Hwf' & Hsame & Hknown & _); [|done..|].
  2:{ rewrite Hrunid. apply (row_run _ (wf_rows _ Hwf _ Hg)). }
  split; [|done]. split; [done|]. intros id. rewrite Hknown by done. rewrite (same_rows_find q q') by done.
  destruct (decide (id = Finding.id f)) as [->|Hid].
  - by rewrite lookup_insert_eq, Hfind, Hattributes.
  - rewrite lookup_insert_ne by done. by apply Hbut.
Qed.

Lemma ledger_ok_but q id : ledger_ok q → ledger_but q id.
Proof. by intros Hok other _. Qed.
(** The ledger of a row just written knows every other. *)
Lemma written_but q q' id :
  ledger_ok q → Tables.log q' = Tables.log q →
  (∀ other, other ≠ id → find_finding q' other = find_finding q other) → ledger_but q' id.
Proof.
  intros Hok Hlog Hfind other Hother. unfold known. rewrite Hlog, Hfind by done. apply Hok.
Qed.

(** A row written and its event recorded: the shape of every change of a
    finding. *)
Lemma change_recorded w q id change f g kind payload q1 q2 :
  finding_event w q1 g kind payload = Ok q2 → update_finding q id change = Ok q1 →
  inv q → find_finding q id = Some f → good_change f (change f) →
  Finding.id g = id → Finding.attributes g = Finding.attributes (change f) →
  kind ∈ RECORDS_VALUES → is_object payload = true →
  inv q2 ∧ beside q q2 ∧ find_finding q2 id = Some (change f)
  ∧ ∀ other, other ≠ id → find_finding q2 other = find_finding q other.
Proof.
  intros Hevent Hupdate [Hwf Hok] Hfind Hgood Hid Hattributes Hkind Hobject.
  apply (update_finding_spec q id change f) in Hupdate as (Hwf1 & Hf1 & Hlog & Hbeside & Hothers); [|done..].
  subst id. destruct (event_of_row _ _ _ (change f) _ _ _ Hevent Hwf1) as [Hinv Hsame]; try done.
  { by apply (written_but q). }
  split_and!; [done| |by rewrite (same_rows_find q1 q2)|].
  - trans q1; [done|apply Hsame].
  - intros other Hother. rewrite (same_rows_find q1 q2) by done. by apply Hothers.
Qed.
(** The same with an event before it, or none. *)
Lemma change_recorded_after w q id change f g (first : bool) kind1 payload1 kind2 payload2 q1 q2 q3 :
  finding_event w q2 g kind2 payload2 = Ok q3 →
  (if first then finding_event w q1 g kind1 payload1 else Ok q1) = Ok q2 →
  update_finding q id change = Ok q1 →
  inv q → find_finding q id = Some f → good_change f (change f) → change f = g →
  kind1 ∈ RECORDS_VALUES → kind2 ∈ RECORDS_VALUES →
  is_object payload1 = true → is_object payload2 = true →
  inv q3 ∧ beside q q3 ∧ find_finding q3 id = Some g
  ∧ ∀ other, other ≠ id → find_finding q3 other = find_finding q other.
Proof.
  intros Hevent Hfirst Hupdate Hinv Hfind Hgood Hg Hkind1 Hkind2 Hobject1 Hobject2. subst g.
  destruct (find_finding_Some _ _ _ Hfind) as [_ Hid].
  assert (Finding.id (change f) = id) as Hgid by by rewrite (fixed_id _ _ (proj1 Hgood)).
  destruct first; [|injection Hfirst as <-; by eapply change_recorded].
  destruct (change_recorded w q id change f (change f) kind1 payload1 q1 q2)
    as ([Hwf2 Hledger2] & Hbeside & Hrow & Hothers); try done.
  destruct (event_of_row _ _ _ (change f) _ _ _ Hevent Hwf2) as [Hinv3 Hsame];
    [by apply ledger_ok_but|by rewrite Hgid|done..|].
  split_and!; [done|trans q2; [done|apply Hsame]|by rewrite (same_rows_find q2 q3)|].
  intros other Hother. rewrite (same_rows_find q2 q3) by done. by apply Hothers.
Qed.
(** The same of a row read back. *)
Lemma row_recorded w q id change f g kind payload q1 q2 :
  finding_event w q1 g kind payload = Ok q2 → read_finding q1 id = Ok g →
  update_finding q id change = Ok q1 →
  inv q → find_finding q id = Some f → good_change f (change f) →
  kind ∈ RECORDS_VALUES → is_object payload = true →
  g = change f ∧ inv q2 ∧ beside q q2 ∧ find_finding q2 id = Some g
  ∧ ∀ other, other ≠ id → find_finding q2 other = find_finding q other.
Proof.
  intros Hevent Hread%read_finding_Ok Hupdate Hinv Hfind Hgood Hkind Hobject.
  pose proof (update_finding_spec q id change f q1 (proj1 Hinv) Hfind Hgood Hupdate) as (_ & Hrow & _).
  assert (g = change f) as -> by congruence. split; [done|].
  destruct (find_finding_Some _ _ _ Hfind) as [_ Hid].
  apply (change_recorded w q id change f (change f) kind payload q1 q2); try done.
  by rewrite (fixed_id _ _ (proj1 Hgood)).
Qed.

(** ** Recording *)
Lemma resolve_target_Ok q target task run goal :
  tables_wf q → resolve_target q target = Ok (task, run, goal) →
  LedgerProofs.run_known run ∧ (is_some run = true → is_some task = true).
Proof.
  intros Hwf. unfold resolve_target. destruct target as [|g|t|r]; intros Hok.
  - injection Hok as <- <- <-. by split; [intros ?|].
  - destruct (existsb _ _); [|done]. injection Hok as <- <- <-. by split; [intros ?|].
  - destruct (find_task q t); [|done]. injection Hok as <- <- <-. by split; [intros ?|].
  - destruct (List.find _ _) as [[r' t]|] eqn:Hfind; [|done]. injection Hok as <- <- <-.
    apply List.find_some in Hfind as [Hin Hr]. bool_split. simpl in Hr. subst r'.
    split; [|done]. apply (wf_runs _ Hwf (r, t)). by apply list_elem_of_In.
Qed.

Lemma existing_finding_Some q key f :
  existing_finding q key = Some f → f ∈ Tables.findings q ∧ problem f = key.
Proof.
  unfold existing_finding. intros Hhead%head_Some_elem_of.
  rewrite elem_of_sort_by_key in Hhead.
  apply list_elem_of_In, List.filter_In in Hhead as [Hin Hkey]. bool_split.
  by rewrite list_elem_of_In.
Qed.
Lemma existing_finding_None q key :
  existing_finding q key = None → key ∉ problem <$> Tables.findings q.
Proof.
  unfold existing_finding. intros Hhead%head_None (f & -> & Hf)%list_elem_of_fmap.
  assert (f ∈ List.filter (λ g, bool_decide (problem g = problem f)) (Tables.findings q)) as Hin.
  { apply list_elem_of_In, List.filter_In. split; [by apply list_elem_of_In|by apply bool_decide_eq_true]. }
  rewrite <-elem_of_sort_by_key, Hhead in Hin. inv Hin.
Qed.

Lemma next_finding_fresh q : next_finding q ∉ Finding.id <$> Tables.findings q.
Proof.
  intros (f & Heq & Hf)%list_elem_of_fmap.
  pose proof (le_maximum (λ f, FindingId.as_i64 (Finding.id f)) (Tables.findings q) f Hf) as Hmax.
  apply (f_equal FindingId.as_i64) in Heq. unfold next_finding in Heq. cbn [FindingId.as_i64] in Heq.
  cbn beta in Hmax. lia.
Qed.

Lemma new_row_ok q new task run goal now :
  LedgerProofs.run_known run → (is_some run = true → is_some task = true) →
  row_ok (new_row q new (task, run, goal) now).
Proof.
  intros Hrun Htask. split; simpl; try done.
  - apply dedup_onto_nodup, NoDup_nil_2.
  - by destruct (NewFinding.propose new).
Qed.

(** The row of a new finding is never refused by the index. *)
Lemma write_row q row :
  tables_wf q → row_ok row → Finding.id row ∉ Finding.id <$> Tables.findings q →
  problem row ∉ problem <$> Tables.findings q →
  let q' := q <| Tables.findings := Tables.findings q ++ [row] |> in
  write_findings q (Tables.findings q ++ [row]) = Ok q' ∧ tables_wf q'
  ∧ find_finding q' (Finding.id row) = Some row
  ∧ ∀ other, other ≠ Finding.id row → find_finding q' other = find_finding q other.
Proof.
  intros Hwf Hok Hid Hproblem q'.
  assert (∀ A (of_ : Finding → A), NoDup (of_ <$> Tables.findings q) →
    of_ row ∉ of_ <$> Tables.findings q → NoDup (of_ <$> Tables.findings q ++ [row])) as Hnd.
  { intros A of_ Hnd Hrow. rewrite fmap_app. apply NoDup_app.
    split_and!; [done| |apply NoDup_singleton]. intros a Ha ->%list_elem_of_singleton. done. }
  pose proof (Hnd _ Finding.id (wf_ids _ Hwf) Hid) as Hids.
  pose proof (Hnd _ problem (wf_problems _ Hwf) Hproblem) as Hproblems.
  split_and!.
  - unfold write_findings. by rewrite index_of_problems.
  - destruct Hwf. split; simpl; try done. intros f [Hf| ->%list_elem_of_singleton]%elem_of_app; auto.
  - apply find_finding_elem; [done|]. simpl. set_solver.
  - intros other Hother. unfold find_finding. simpl. clear -Hother.
    induction (Tables.findings q) as [|f l IH]; simpl; [by rewrite bool_decide_false by congruence|].
    by destruct (bool_decide (Finding.id f = other)).
Qed.

(** *** A record's outcome *)

(** What a record leaves: its outcome is the row of its problem, and no other
    row changed. *)
Record recorded q q' (outcome : FindingOutcome) : Prop := {
  recorded_inv : inv q';
  recorded_beside : beside q q';
  recorded_row : find_finding q' (Finding.id (FindingOutcome.finding outcome))
                 = Some (FindingOutcome.finding outcome);
  recorded_others : ∀ other, other ≠ Finding.id (FindingOutcome.finding outcome) →
    find_finding q' other = find_finding q other;
}.

Lemma record_created_spec w q new ids q' outcome :
  inv q → resolve_target q (NewFinding.target new) = Ok ids →
  existing_finding q (problem_of new ids) = None →
  record_created w q new ids = Ok (q', outcome) → recorded q q' outcome.
Proof.
  intros [Hwf Hledger] Hids Hnone Hrecord. destruct ids as [[task run] goal].
  apply resolve_target_Ok in Hids as [Hrun Htask]; [|done].
  apply existing_finding_None in Hnone.
  destruct (write_row q (new_row q new (task, run, goal) (Connection.now w))) as (Hwrite & Hwf1 & Hrow & Hothers);
    [done|by apply new_row_ok|apply next_finding_fresh|exact Hnone|].
  unfold record_created in Hrecord. apply bind_Ok in Hrecord as (q1 & Hq1 & Hrecord).
  rewrite Hwrite in Hq1. injection Hq1 as <-.
  apply bind_Ok in Hrecord as (created & Hcreated & Hrecord). apply read_finding_Ok in Hcreated.
  assert (created = new_row q new (task, run, goal) (Connection.now w)) as ->.
  { pose proof (eq_trans (eq_sym Hcreated) Hrow) as Heq. congruence. }
  apply bind_Ok in Hrecord as (q2 & Hevent & [= <- <-]).
  set (row := new_row q new (task, run, goal) (Connection.now w)) in *.
  destruct (event_of_row _ _ _ row _ _ _ Hevent Hwf1) as [Hinv Hsame];
    [by apply (written_but q)|exact Hrow|done|unfold RECORDS_VALUES; set_solver|apply is_object_object|].
  split; simpl; [done| |by rewrite (same_rows_find _ _ _ Hsame)|].
  - transitivity (q <| Tables.findings := Tables.findings q ++ [row] |>); [done|apply Hsame].
  - intros other Hother. rewrite (same_rows_find _ _ _ Hsame). by apply Hothers.
Qed.

(** A merge is a good change, and its update writes the whole of it. *)
Lemma merge_good f new now update :
  merge f new now = Some update →
  let g := FindingUpdate.finding update in good_change f g ∧ written_merge g f = g.
Proof.
  rewrite FindingProofs.merge_is. case_bool_decide; [done|]. intros [= <-]. simpl.
  split; [|by destruct f].
  split; [done|]. intros [Hrun Htask Hevidence Hocc Hproposed Hmarked]. split; simpl; try done.
  - apply NoDup_app. split_and!; [done| |apply FindingProofs.added_nodup].
    intros id Hid. rewrite FindingProofs.elem_of_added. tauto.
  - destruct (occurs f new); lia.
  - unfold FindingProofs.merged_status. destruct (reopens f new); [done|auto].
  - by destruct (FindingProofs.takes_mark f new).
Qed.

Ltac records_values := unfold RECORDS_VALUES; set_solver.

Lemma record_merged_spec w q new existing q' outcome :
  inv q → existing ∈ Tables.findings q →
  record_merged w q new existing = Ok (q', outcome) → recorded q q' outcome.
Proof.
  intros [Hwf Hledger] Hin Hrecord. unfold record_merged in Hrecord.
  pose proof (find_finding_elem q existing (wf_ids _ Hwf) Hin) as Hfind.
  destruct (merge existing new (Connection.now w)) as [update|] eqn:Hmerge.
  2:{ injection Hrecord as <- <-. by split. }
  apply merge_good in Hmerge as [Hgood Hwritten].
  set (f := FindingUpdate.finding update) in *.
  assert (Finding.id f = Finding.id existing) as Hid by apply (proj1 Hgood).
  apply bind_Ok in Hrecord as (q1 & Hupdate & Hrecord). rewrite Hid in Hupdate.
  apply bind_Ok in Hrecord as (q2 & Hreopened & Hrecord).
  apply bind_Ok in Hrecord as (q3 & Hevent & Hrecord).
  apply bind_Ok in Hrecord as (written & Hread & [= <- <-]). apply read_finding_Ok in Hread.
  rewrite Hid in Hread.
  destruct (change_recorded_after _ _ _ _ existing f _ _ _ _ _ _ _ _ Hevent Hreopened Hupdate)
    as (Hinv3 & Hbeside & Hrow & Hothers);
    [by split|done|by rewrite Hwritten|done|records_values|records_values|apply is_object_object..|].
  assert (written = f) as -> by congruence.
  split; simpl; rewrite ?Hid; done.
Qed.

Lemma record_in_spec w q new q' outcome :
  inv q → record_in w q new = Ok (q', outcome) → recorded q q' outcome.
Proof.
  intros Hinv Hrecord. unfold record_in in Hrecord.
  apply bind_Ok in Hrecord as (_ & _ & Hrecord).
  apply bind_Ok in Hrecord as (ids & Hids & Hrecord).
  apply bind_Ok in Hrecord as (_ & _ & Hrecord).
  destruct (existing_finding q (problem_of new ids)) as [existing|] eqn:Hexisting.
  - apply existing_finding_Some in Hexisting as [Hin _]. by eapply record_merged_spec.
  - by eapply record_created_spec.
Qed.

(** ** Changes of one row *)
Lemma set_status_covered_spec w q id to reason by_ covered q' changed :
  inv q → set_status_covered_in w q id to reason by_ covered = Ok (q', changed) →
  ∃ f, find_finding q id = Some f ∧ check_transition f to = Ok tt
  ∧ inv q' ∧ beside q q' ∧ find_finding q' id = Some changed ∧ Finding.status changed = to
  ∧ ∀ other, other ≠ id → find_finding q' other = find_finding q other.
Proof.
  intros Hinv Hset. unfold set_status_covered_in in Hset.
  apply bind_Ok in Hset as (_ & _ & Hset).
  apply bind_Ok in Hset as (f & Hread & Hset). apply read_finding_Ok in Hread.
  apply bind_Ok in Hset as ([] & Hcheck & Hset).
  apply bind_Ok in Hset as (q1 & Hupdate & Hset).
  apply bind_Ok in Hset as (g & Hread' & Hset).
  apply bind_Ok in Hset as (q2 & Hevent & [= <- <-]).
  assert (check_transition f to = Ok tt) as Hallowed.
  { destruct (check_transition f to) as [[]|]; [done|discriminate Hcheck]. }
  assert (to = FindingStatus.Resolved ∨ to = FindingStatus.Dismissed) as Hto.
  { unfold check_transition in Hallowed. destruct to; [discriminate Hallowed|discriminate Hallowed|by left|by right]. }
  destruct (row_recorded _ _ _ _ f _ _ _ _ _ Hevent Hread' Hupdate Hinv Hread) as (-> & Hrest).
  - split; [done|]. intros []. split; simpl; try done. destruct Hto as [-> | ->]; discriminate.
  - records_values.
  - destruct covered; [apply is_object_set_field|]; apply is_object_object.
  - exists f. destruct Hrest as (Hinv2 & Hbeside & Hrow & Hothers). by split_and!.
Qed.

(** What a write of findings leaves: the tables well formed and the ledger
    true, and nothing changed beside. *)
Definition writes q q' : Prop := inv q → inv q' ∧ beside q q'.
#[local] Instance writes_preorder : PreOrder writes.
Proof.
  split; [intros q Hinv; by split|]. intros q1 q2 q3 H12 H23 Hinv.
  destruct (H12 Hinv) as [Hinv2 Hb12]. destruct (H23 Hinv2) as [Hinv3 Hb23]. split; [done|]. by trans q2.
Qed.
Lemma fold_writes {A B} (f : Tables P * B → A → result FindingError (Tables P * B)) l s s' :
  (∀ s a s', f s a = Ok s' → writes s.1 s'.1) → fold_result f s l = Ok s' → writes s.1 s'.1.
Proof.
  intros Hf. revert s. induction l as [|a l IH]; intros s Hfold; simpl in Hfold.
  { by injection Hfold as ->. }
  apply bind_Ok in Hfold as (s1 & Hs1 & Hfold). trans s1.1; [by eapply Hf|by apply IH].
Qed.

Lemma link_one_writes w proposal by_ s target s' :
  link_one w proposal by_ s target = Ok s' → writes s.1 s'.1.
Proof.
  destruct s as [q done_], target as [id named]. intros Hlink Hinv. simpl. unfold link_one in Hlink.
  apply bind_Ok in Hlink as (f & Hread & Hlink). apply read_finding_Ok in Hread.
  destruct (check_link f proposal) as [[]|error] eqn:Hcheck.
  2:{ by injection Hlink as <-. }
  2:{ destruct named; [discriminate|]. by injection Hlink as <-. }
  apply bind_Ok in Hlink as (q1 & Hupdate & Hlink).
  apply bind_Ok in Hlink as (g & Hread' & Hlink).
  apply bind_Ok in Hlink as (q2 & Hevent & [= <-]).
  destruct (row_recorded _ _ _ _ f _ _ _ _ _ Hevent Hread' Hupdate Hinv Hread) as (_ & Hinv2 & Hbeside & _);
    [|records_values|apply is_object_object|by split].
  split; [done|]. intros []. by split.
Qed.

Lemma link_findings_writes w q proposal workspace named by_ q' linked :
  link_findings w q proposal workspace named by_ = Ok (q', linked) → writes q q'.
Proof. intros Hlink. apply (fold_writes _ _ _ _ (λ s t s', link_one_writes w proposal by_ s t s') Hlink). Qed.

Lemma settled_row_good w to reason f :
  to = FindingStatus.Open ∨ to = FindingStatus.Resolved → good_change f (settled_row w to reason f).
Proof.
  intros Hto. unfold settled_row. split; [by case_bool_decide|]. intros [].
  destruct Hto as [-> | ->]; simpl; by split.
Qed.

(** *** The end of proposals *)

(** What a pass makes of a row: one proposed whose proposal ended is settled. *)
Definition settled_of w q f : Finding :=
  if proposed f then
    match Finding.proposal_id f with
    | Some proposal =>
        match proposal_state q proposal with
        | Ok (status, tasks) =>
            match settle status tasks with
            | Some (to, reason) => settled_row w to reason f
            | None => f
            end
        | Err _ => f
        end
    | None => f
    end
  else f.
Lemma proposal_state_beside q q' proposal :
  beside q q' → proposal_state q' proposal = proposal_state q proposal.
Proof.
  intros [_ _ Hgoals Htasks _ Hproposals _].
  unfold proposal_state, read_proposal, find_proposal, proposal_tasks, of_proposal.
  by rewrite Hgoals, Htasks, Hproposals.
Qed.
Lemma settled_of_beside w q q' f : beside q q' → settled_of w q' f = settled_of w q f.
Proof.
  intros Hbeside. unfold settled_of. destruct (Finding.proposal_id f); [|done].
  by rewrite (proposal_state_beside q q').
Qed.
Lemma settle_to proposal tasks to reason :
  settle proposal tasks = Some (to, reason) → to = FindingStatus.Open ∨ to = FindingStatus.Resolved.
Proof.
  intros Hsettle. pose proof (FindingProofs.settle_spec proposal tasks) as Hspec.
  rewrite Hsettle in Hspec. tauto.
Qed.
Lemma settle_one_spec w s f s' :
  settle_one w s f = Ok s' → inv s.1 → find_finding s.1 (Finding.id f) = Some f → proposed f = true →
  inv s'.1 ∧ beside s.1 s'.1 ∧ find_finding s'.1 (Finding.id f) = Some (settled_of w s.1 f)
  ∧ ∀ other, other ≠ Finding.id f → find_finding s'.1 other = find_finding s.1 other.
Proof.
  destruct s as [q settled]. simpl. intros Hsettle Hinv Hfind Hproposed.
  unfold settle_one in Hsettle. unfold settled_of. rewrite Hproposed.
  destruct (Finding.proposal_id f) as [proposal|]; [|by injection Hsettle as <-].
  apply bind_Ok in Hsettle as ([status tasks] & Hstate & Hsettle). rewrite Hstate. simpl in Hsettle.
  destruct (settle status tasks) as [[to reason]|] eqn:Hto; [|by injection Hsettle as <-].
  apply bind_Ok in Hsettle as (q1 & Hupdate & Hsettle).
  apply bind_Ok in Hsettle as (g & Hread & Hsettle).
  apply bind_Ok in Hsettle as (q2 & Hevent & [= <-]). simpl.
  destruct (row_recorded _ _ _ _ f _ _ _ _ _ Hevent Hread Hupdate Hinv Hfind) as (-> & Hrest);
    [|records_values|apply is_object_object|done].
  apply settled_row_good. by eapply settle_to.
Qed.
Lemma settle_loop w l s s' :
  fold_result (settle_one w) s l = Ok s' → inv s.1 → NoDup (Finding.id <$> l) →
  (∀ f, f ∈ l → find_finding s.1 (Finding.id f) = Some f ∧ proposed f = true) →
  inv s'.1 ∧ beside s.1 s'.1
  ∧ ∀ id, find_finding s'.1 id
          = if bool_decide (id ∈ Finding.id <$> l) then settled_of w s.1 <$> find_finding s.1 id
            else find_finding s.1 id.
Proof.
  revert s. induction l as [|f l IH]; intros s Hfold Hinv Hnd Hl; simpl in Hfold.
  { injection Hfold as ->. done. }
  apply bind_Ok in Hfold as (s1 & Hs1 & Hfold). apply NoDup_cons in Hnd as [Hf Hnd].
  destruct (Hl f) as [Hfind Hproposed]; [by left|].
  destruct (settle_one_spec w s f s1 Hs1 Hinv Hfind Hproposed) as (Hinv1 & Hbeside1 & Hrow & Hothers).
  destruct (IH s1 Hfold Hinv1 Hnd) as (Hinv' & Hbeside' & Hall).
  { intros g Hg. destruct (Hl g) as [Hgfind ?]; [by right|]. split; [|done].
    rewrite Hothers; [done|]. intros Heq. apply Hf. rewrite <-Heq. by apply list_elem_of_fmap_2. }
  split_and!; [done|by trans s1.1|]. intros id. rewrite Hall.
  destruct (decide (id = Finding.id f)) as [->|Hid].
  - rewrite bool_decide_false by done. rewrite bool_decide_true by left. by rewrite Hrow, Hfind.
  - rewrite (Hothers id) by done.
    rewrite (bool_decide_ext (id ∈ Finding.id <$> f :: l) (id ∈ Finding.id <$> l))
      by (rewrite fmap_cons, elem_of_cons; naive_solver).
    case_bool_decide; [|done]. destruct (find_finding s.1 id); simpl; [|done].
    f_equal. by apply settled_of_beside.
Qed.

Lemma proposed_rows q :
  tables_wf q → NoDup (Finding.id <$> List.filter proposed (Tables.findings q))
  ∧ ∀ f, f ∈ List.filter proposed (Tables.findings q) →
    find_finding q (Finding.id f) = Some f ∧ proposed f = true.
Proof.
  intros Hwf. split.
  - generalize (wf_ids _ Hwf). clear. induction (Tables.findings q) as [|f l IH]; simpl; [done|].
    intros [Hf Hl]%NoDup_cons. destruct (proposed f); [|auto]. simpl. apply NoDup_cons. split; [|auto].
    intros (g & Heq & Hg)%list_elem_of_fmap. apply Hf. rewrite Heq. apply list_elem_of_fmap_2.
    apply list_elem_of_In, List.filter_In in Hg as [Hg _]. by apply list_elem_of_In.
  - intros f Hf. apply list_elem_of_In, List.filter_In in Hf as [Hf Hproposed].
    split; [|done]. apply find_finding_elem; [apply (wf_ids _ Hwf)|by apply list_elem_of_In].
Qed.
Lemma settle_findings_spec w q q' settled :
  settle_findings w q = Ok (q', settled) → inv q →
  inv q' ∧ beside q q' ∧ ∀ id, find_finding q' id = settled_of w q <$> find_finding q id.
Proof.
  intros Hsettle Hinv. pose proof (proj1 Hinv) as Hwf. unfold settle_findings in Hsettle.
  apply settle_loop in Hsettle as (Hinv' & Hbeside & Hall); [|done| |].
  - split_and!; [done..|]. intros id. simpl in Hall. rewrite Hall.
    destruct (find_finding q id) as [f|] eqn:Hfind; simpl; [|by case_bool_decide].
    case_bool_decide as Hin; [done|]. f_equal. unfold settled_of.
    destruct (proposed f) eqn:Hproposed; [|done]. exfalso. apply Hin.
    apply find_finding_Some in Hfind as [Hf <-]. apply list_elem_of_fmap_2.
    apply list_elem_of_In, List.filter_In. split; [by apply list_elem_of_In|done].
  - apply (proposed_rows _ Hwf).
  - apply (proposed_rows _ Hwf).
Qed.

(** *** A person's answer *)
Lemma mark_answered_spec w q ask id reason by_ q' :
  mark_answered w q ask id reason by_ = Ok q' → inv q →
  inv q' ∧ beside q q' ∧ ∃ f, find_finding q' id = Some f
    ∧ (Finding.status f = FindingStatus.Proposed ∨ marked_open f = true).
Proof.
  intros Hmark Hinv. unfold mark_answered in Hmark.
  apply bind_Ok in Hmark as (f & Hread & Hmark). apply read_finding_Ok in Hread.
  destruct (mark_for_proposal f reason (Connection.now w)) as [marked|] eqn:Hmarked.
  2:{ injection Hmark as <-. split_and!; [done..|]. exists f. split; [done|].
      unfold mark_for_proposal in Hmarked. unfold marked_open.
      destruct (bool_decide (Finding.status f = FindingStatus.Proposed)) eqn:Hp; [bool_split; by left|].
      simpl in Hmarked. destruct (bool_decide _ && _) eqn:Ho; [by right|done]. }
  assert (marked_open marked = true ∧ good_change f marked
          ∧ written_mark (Connection.now w) marked f = marked) as (Hopen & Hgood & Hwritten).
  { unfold mark_for_proposal in Hmarked. destruct (_ || _); [done|]. injection Hmarked as <-.
    split_and!; [done| |by destruct f]. split; [done|]. intros []. by split. }
  apply bind_Ok in Hmark as (q1 & Hupdate & Hmark).
  apply bind_Ok in Hmark as (q2 & Hfirst & Hevent).
  destruct (change_recorded_after _ _ _ _ f marked _ _ _ _ _ _ _ _ Hevent Hfirst Hupdate)
    as (Hinv' & Hbeside & Hrow & _);
    [done|done|by rewrite Hwritten|done|records_values|records_values|apply is_object_object..|].
  split_and!; [done..|]. exists marked. auto.
Qed.

(** What only changes asks keeps the rest. *)
Lemma inv_of_asks q q' :
  Tables.findings q' = Tables.findings q → Tables.planners q' = Tables.planners q →
  Tables.runs q' = Tables.runs q → Tables.log q' = Tables.log q → inv q → inv q'.
Proof.
  intros Hfindings Hplanners Hruns Hlog [[] Hledger]. split.
  - split; rewrite ?Hfindings, ?Hplanners, ?Hruns, ?Hlog; done.
  - intros id. unfold known, find_finding. rewrite Hlog, Hfindings. apply Hledger.
Qed.
Lemma finding_to_mark_spec w q ask reason by_ q' id :
  finding_to_mark w q ask reason by_ = Ok (q', id) → inv q →
  inv q' ∧ match Ask.finding_id ask with
           | Some own => id = own ∧ q' = q
           | None => ∀ a, a ∈ Tables.asks q' → Ask.id a = Ask.id ask → Ask.finding_id a = Some id
           end.
Proof.
  intros Hfound Hinv. unfold finding_to_mark in Hfound.
  destruct (Ask.finding_id ask) as [own|].
  { by injection Hfound as <- <-. }
  apply bind_Ok in Hfound as ([q1 id1] & Hrecord & Hfound). injection Hfound as <- <-.
  split.
  - unfold record_from_ask in Hrecord. apply bind_Ok in Hrecord as ([q2 outcome] & Hin & [= <- <-]).
    apply record_in_spec in Hin as [Hinv2 _ _ _]; [|done]. by apply (inv_of_asks q2).
  - simpl. intros a (b & -> & _)%list_elem_of_fmap. by case_bool_decide.
Qed.

(** What an answer leaves: nothing, or its finding as it asked. *)
Definition carried_out q' (ask : Ask) (applied : AppliedAnswer.t) : Prop :=
  let '(AppliedAnswer.mk id action) := applied in
  (∀ own, Ask.finding_id ask = Some own → id = own)
  ∧ (Ask.finding_id ask = None →
     ∀ a, a ∈ Tables.asks q' → Ask.id a = Ask.id ask → Ask.finding_id a = Some id)
  ∧ ∃ f, find_finding q' id = Some f
    ∧ (action = "propose" ∧ (Finding.status f = FindingStatus.Proposed ∨ marked_open f = true)
       ∨ action = "dismiss" ∧ Finding.status f = FindingStatus.Dismissed).
Lemma apply_answer_spec w q ask text by_ q' applied :
  apply_answer w q ask text by_ = Ok (q', applied) → inv q →
  inv q' ∧ match applied with None => q' = q | Some applied => carried_out q' ask applied end.
Proof.
  intros Happly Hinv. unfold apply_answer in Happly.
  destruct (negb _); [by injection Happly as <- <-|].
  destruct (FindingAnswer.parse text) as [[why|why]|]; [| |by injection Happly as <- <-].
  - destruct (negb _); [by injection Happly as <- <-|].
    apply bind_Ok in Happly as ([q1 id] & Hfound & Happly).
    apply bind_Ok in Happly as (q2 & Hmark & [= <- <-]).
    apply finding_to_mark_spec in Hfound as [Hinv1 Hid]; [|done].
    apply mark_answered_spec in Hmark as (Hinv2 & Hbeside & f & Hfind & Hf); [|done].
    split; [done|]. split_and!; [|rewrite (beside_asks _ _ Hbeside)|exists f; auto];
      destruct (Ask.finding_id ask); naive_solver.
  - destruct (negb _); [by injection Happly as <- <-|].
    destruct (Ask.finding_id ask) as [id|] eqn:Hask; [|by injection Happly as <- <-].
    apply bind_Ok in Happly as (f & Hread & Happly). apply read_finding_Ok in Hread.
    apply bind_Ok in Happly as (q1 & Hset & [= <- <-]). unfold carried_out. rewrite Hask.
    destruct (bool_decide (Finding.status f = FindingStatus.Dismissed)) eqn:Hd.
    + injection Hset as <-. bool_split. split; [done|]. split_and!; [naive_solver|done|]. exists f. auto.
    + apply bind_Ok in Hset as ([q2 g] & Hset & [= <-]).
      apply set_status_covered_spec in Hset as (_ & _ & _ & Hinv2 & _ & Hrow & Hstatus & _); [|done].
      split; [done|]. split_and!; [naive_solver|done|]. exists g. auto.
Qed.

(** ** The watch of CI *)

(** A time of a mark written without an event changes no attribute. *)
Lemma mark_time_inv q id at_ q' :
  update_finding q id (λ row, row <| Finding.propose_requested_at := Some at_ |>) = Ok q' →
  inv q → is_some (find_finding q id) = true → inv q' ∧ beside q q'.
Proof.
  intros Hupdate [Hwf Hledger] Hsome. destruct (find_finding q id) as [f|] eqn:Hfind; [|done].
  apply (update_finding_spec q id _ f) in Hupdate as (Hwf' & Hrow & Hlog & Hbeside & Hothers);
    [|done..|split; [done|]; intros []; by split].
  split; [|done]. split; [done|]. intros other.
  assert (known q' = known q) as -> by (unfold known; by rewrite Hlog).
  destruct (decide (other = id)) as [->|Hother].
  - by rewrite Hrow, (Hledger id), Hfind.
  - rewrite Hothers by done. apply Hledger.
Qed.
Lemma record_marked_spec w q new q' id :
  record_marked w q new = Ok (q', id) → inv q → inv q' ∧ beside q q'.
Proof.
  intros Hrecord Hinv. unfold record_marked in Hrecord.
  apply bind_Ok in Hrecord as ([q1 outcome] & Hin & Hrecord).
  apply record_in_spec in Hin as [Hinv1 Hbeside Hrow _]; [|done].
  destruct (_ && _); [|by injection Hrecord as <- <-].
  apply bind_Ok in Hrecord as (q2 & Hupdate & [= <- <-]).
  apply mark_time_inv in Hupdate as [Hinv2 Hbeside2]; [|done|by rewrite Hrow].
  split; [done|by trans q1].
Qed.
Lemma resolve_one_writes w s item s' : resolve_one w s item = Ok s' → writes s.1 s'.1.
Proof.
  destruct s as [q done_], item as [id reason]. intros Hresolve Hinv. unfold resolve_one in Hresolve.
  simpl in Hresolve. destruct (resolvable q (FindingId.new id)); [|by injection Hresolve as <-].
  apply bind_Ok in Hresolve as ([q1 changed] & Hset & [= <-]).
  apply set_status_covered_spec in Hset as (_ & _ & _ & Hinv' & Hbeside & _); [|done]. by split.
Qed.

(** An event whose body is no record of a finding: what is set on it later
    changes nothing known. *)
Definition plain q (id : EventId) : Prop :=
  id ∈ RunEvent.id <$> Tables.log q
  ∧ ∀ e, e ∈ Tables.log q → RunEvent.id e = id → RunEvent.is_in e LEDGER_KINDS = false.
Lemma plain_beside q q' id : tables_wf q' → beside q q' → plain q id → plain q' id.
Proof.
  intros Hwf [_ _ _ _ _ _ [new Hlog]] [Hin Hplain]. split; [rewrite Hlog, fmap_app; set_solver|].
  intros e. rewrite Hlog. intros [He|He]%elem_of_app Hid; [by apply Hplain|].
  pose proof (wf_log _ Hwf) as Hnd. rewrite Hlog, fmap_app in Hnd.
  apply NoDup_app in Hnd as (_ & Hdisjoint & _). exfalso. apply (Hdisjoint id Hin).
  rewrite <-Hid. by apply list_elem_of_fmap_2.
Qed.
Lemma set_event_body_field_plain q event name value :
  inv q → plain q event →
  let q' := set_event_body_field q event name value in
  inv q' ∧ ∀ other, plain q other → plain q' other.
Proof.
  intros [Hwf Hledger] [_ Hplain] q'.
  set (body := λ e, if bool_decide (RunEvent.id e = event)
    then RunEvent.mk (RunEvent.id e) (RunEvent.task_id e) (RunEvent.goal_id e) (RunEvent.run_id e)
           (RunEvent.kind e) (set_field (RunEvent.payload e) name value)
           (RunEvent.created_at e) (RunEvent.actor e) else e).
  assert (∀ e, RunEvent.id (body e) = RunEvent.id e ∧ RunEvent.kind (body e) = RunEvent.kind e) as Hbody.
  { intros e. unfold body. by case_bool_decide. }
  assert (RunEvent.id <$> Tables.log q' = RunEvent.id <$> Tables.log q) as Hids.
  { change (Tables.log q') with (body <$> Tables.log q). rewrite <-list_fmap_compose.
    apply list_fmap_ext. intros i e _. apply Hbody. }
  split; [split|].
  - destruct Hwf. split; try done. by rewrite Hids.
  - intros id. change (find_finding q' id) with (find_finding q id). rewrite <-Hledger. f_equal.
    unfold known. change (Tables.log q') with (body <$> Tables.log q).
    generalize (∅ : gmap FindingId FindingAttributes). generalize Hplain. clear -Hbody.
    induction (Tables.log q) as [|e l IH]; intros Hplain known0; simpl; [done|].
    rewrite IH by (intros; apply Hplain; [by right|done]). f_equal.
    destruct (decide (RunEvent.id e = event)) as [Hid|Hid].
    + rewrite !LedgerProofs.fold_event_other; [done|by apply Hplain; [left|]|].
      unfold RunEvent.is_in. rewrite (proj2 (Hbody e)). by apply Hplain; [left|].
    + unfold body. by rewrite bool_decide_false.
  - intros other [Hin Hother]. split; [by rewrite Hids|].
    change (Tables.log q') with (body <$> Tables.log q).
    intros e (e0 & -> & He0)%list_elem_of_fmap Hid. unfold RunEvent.is_in. rewrite (proj2 (Hbody e0)).
    apply Hother; [done|]. by rewrite <-(proj1 (Hbody e0)).
Qed.
Lemma insert_plain w q kind payload :
  inv q → bool_decide (kind ∈ LEDGER_KINDS) = false →
  let '(q', id) := insert w q kind payload in
  inv q' ∧ plain q' id ∧ ∀ other, plain q other → plain q' other.
Proof.
  intros [Hwf Hledger] Hkind. unfold insert.
  pose proof (insert_event_wf w q None None None kind payload Hwf) as Hwf'.
  split_and!; [split; [done|]| |].
  - intros id. rewrite insert_event_known by done. apply Hledger.
  - split; simpl; [rewrite fmap_app; simpl; set_solver|].
    intros e [He| ->%list_elem_of_singleton]%elem_of_app Hid; [|exact Hkind].
    exfalso. apply (next_event_fresh q). rewrite <-Hid. by apply list_elem_of_fmap_2.
  - intros other Hplain. eapply plain_beside; [done|apply insert_event_same|done].
Qed.
Lemma set_optional_plain q (event : option EventId) name value :
  inv q → (∀ id, event = Some id → plain q id) →
  inv (match event with Some id => set_event_body_field q id name value | None => q end).
Proof. intros Hinv Hplain. destruct event as [id|]; [|done]. by apply set_event_body_field_plain; auto. Qed.
Lemma insert_optional w q kind (payload : option P) :
  inv q → bool_decide (kind ∈ LEDGER_KINDS) = false →
  let q' := match payload with Some payload => (insert w q kind payload).1 | None => q end in
  inv q' ∧ ∀ other, plain q other → plain q' other.
Proof.
  intros Hinv Hkind. destruct payload as [payload|]; [|done].
  pose proof (insert_plain w q kind payload Hinv Hkind) as Hinsert.
  destruct (insert w q kind payload). simpl. tauto.
Qed.
Lemma resolve_all_writes w q items q' resolved : resolve_all w q items = Ok (q', resolved) → writes q q'.
Proof. intros Hresolve. apply (fold_writes _ _ _ _ (λ s i s', resolve_one_writes w s i s') Hresolve). Qed.

Lemma record_ci_check_inv w q record q' r : record_ci_check w q record = Ok (q', r) → inv q → inv q'.
Proof.
  intros Hrecord Hinv. unfold record_ci_check in Hrecord.
  destruct (negb _); [by injection Hrecord as <- <-|].
  pose proof (insert_plain w q EventKind.CiChecked (CiCheckRecord.checked record) Hinv eq_refl) as Hchecked.
  destruct (insert w q _ _) as [q1 checked]. destruct Hchecked as (Hinv1 & Hchecked & _).
  match type of Hrecord with (let '(q, red) := ?m in _) = _ =>
    assert (inv m.1 ∧ plain m.1 checked ∧ (∀ id, m.2 = Some id → plain m.1 id)) as (Hinv2 & Hchecked2 & Hred2);
    [|destruct m as [q2 red]; simpl in Hinv2, Hchecked2, Hred2] end.
  { destruct (CiCheckRecord.turned_red record) as [payload|]; [|done].
    pose proof (insert_plain w q1 EventKind.CiTurnedRed (set_field payload "finding_ids" (of_items []))
      Hinv1 eq_refl) as Hred.
    destruct (insert w q1 _ _) as [q2 red]. destruct Hred as (Hinv2 & Hred & Hplains). simpl.
    split_and!; [done|by apply Hplains|]. by intros id [= <-]. }
  destruct (insert_optional w q2 EventKind.CiTurnedGreen (CiCheckRecord.turned_green record) Hinv2 eq_refl)
    as [Hinv3 Hplains3].
  set (q3 := match CiCheckRecord.turned_green record with Some _ => _ | None => _ end) in *.
  apply bind_Ok in Hrecord as ([q4 finding] & Hfound & Hrecord).
  apply bind_Ok in Hrecord as ([q5 resolved] & Hresolve & [= <- <-]).
  apply (resolve_all_writes _ _ _ _ _ Hresolve).
  destruct (CiCheckRecord.finding record) as [new|]; [|by injection Hfound as <- <-].
  apply bind_Ok in Hfound as ([q6 id] & Hmarked & Hfound). injection Hfound as <- <-.
  apply record_marked_spec in Hmarked as [Hinv6 Hbeside6]; [|done].
  assert (∀ event, plain q2 event → plain q6 event) as Hplains6.
  { intros event Hevent. eapply plain_beside; [apply Hinv6|exact Hbeside6|by apply Hplains3]. }
  destruct (set_event_body_field_plain q6 checked "finding_id" (finding_number id) Hinv6) as [Hinv7 Hplains7];
    [by apply Hplains6|].
  apply set_optional_plain; [done|]. intros event Hevent. by apply Hplains7, Hplains6, Hred2.
Qed.
Lemma record_ci_scheduled_check_inv w q record q' r :
  record_ci_scheduled_check w q record = Ok (q', r) → inv q → inv q'.
Proof.
  intros Hrecord Hinv. unfold record_ci_scheduled_check in Hrecord.
  destruct (negb _); [by injection Hrecord as <- <-|].
  pose proof (insert_plain w q EventKind.CiScheduledChecked (ScheduledCheckRecord.checked record) Hinv eq_refl)
    as Hchecked.
  destruct (insert w q _ _) as [q1 checked]. destruct Hchecked as (Hinv1 & Hchecked & _).
  apply bind_Ok in Hrecord as ([q2 finding] & Hfound & Hrecord).
  apply bind_Ok in Hrecord as ([q3 resolved] & Hresolve & [= <- <-]).
  apply (resolve_all_writes _ _ _ _ _ Hresolve).
  destruct (ScheduledCheckRecord.finding record) as [new|]; [|by injection Hfound as <- <-].
  apply bind_Ok in Hfound as ([q4 id] & Hmarked & Hfound). injection Hfound as <- <-.
  apply record_marked_spec in Hmarked as [Hinv4 Hbeside4]; [|done].
  apply (set_event_body_field_plain q4); [done|]. eapply plain_beside; [apply Hinv4|exact Hbeside4|done].
Qed.

(** ** Planners *)
Lemma is_target_closed q id : is_target q id = true → open_for q id = false.
Proof.
  unfold is_target. destruct (find_finding q id) as [f|] eqn:Hfind; [|done]. simpl.
  apply find_finding_Some in Hfind as [_ <-]. unfold waits_for_planner. intros Hwaits. by bool_split.
Qed.

(** A planner added for a finding with none open. *)
Lemma add_planner_inv q row finding :
  inv q → open_for q finding = false → PlannerSession.id row = next_planner q →
  PlannerSession.finding_id row = Some finding →
  inv (q <| Tables.planners := Tables.planners q ++ [row] |>).
Proof.
  intros [[] Hledger] Hclosed Hid Hfinding. split; [split|exact Hledger]; simpl; try done.
  - rewrite fmap_app. apply NoDup_app. split_and!; [done| |apply NoDup_singleton].
    intros id (p & -> & Hp)%list_elem_of_fmap Hrow%list_elem_of_singleton.
    pose proof (le_maximum (λ p, PlannerId.as_i64 (PlannerSession.id p)) (Tables.planners q) p Hp) as Hmax.
    cbn beta in Hmax. rewrite Hid in Hrow. apply (f_equal PlannerId.as_i64) in Hrow.
    unfold next_planner in Hrow. cbn [PlannerId.as_i64] in Hrow. lia.
  - assert (∀ p, p ∈ Tables.planners q → PlannerSession.is_for p finding = true →
      PlannerSession.is_open p = true → False) as Hnone.
    { intros p Hp Hfor Hopen. unfold open_for in Hclosed. apply not_true_iff_false in Hclosed. apply Hclosed.
      apply existsb_exists. exists p. split; [by apply list_elem_of_In|]. by rewrite Hfor, Hopen. }
    intros p1 p2 other [Hp1| ->%list_elem_of_singleton]%elem_of_app
      [Hp2| ->%list_elem_of_singleton]%elem_of_app Hf1 Hf2 Ho1 Ho2; [by eapply wf_one_open0| | |done].
    + assert (other = finding) as ->.
      { unfold PlannerSession.is_for in Hf2. rewrite Hfinding in Hf2. bool_split. congruence. }
      by destruct (Hnone p1).
    + assert (other = finding) as ->.
      { unfold PlannerSession.is_for in Hf1. rewrite Hfinding in Hf1. bool_split. congruence. }
      by destruct (Hnone p2).
Qed.
Lemma planner_event_inv w q f g kind payload q' :
  finding_event w q f kind payload = Ok q' → inv q → find_finding q (Finding.id f) = Some g →
  Finding.attributes f = Finding.attributes g → kind ∉ LEDGER_KINDS → is_object payload = true →
  inv q' ∧ same_rows q q'.
Proof.
  intros Hevent [Hwf Hledger] Hfind Hattributes Hkind Hobject.
  assert (Finding.run_id f = Finding.run_id g) as Hrunid by (by injection Hattributes).
  apply find_finding_Some in Hfind as [Hg _].
  apply finding_event_spec in Hevent as (Hwf' & Hsame & _ & Hknown); [|done..|].
  2:{ rewrite Hrunid. apply (row_run _ (wf_rows _ Hwf _ Hg)). }
  split; [|done]. split; [done|]. intros id. rewrite Hknown, (same_rows_find q q') by done. apply Hledger.
Qed.

Lemma exhausted_event w q f payload q' :
  finding_event w q f EventKind.FindingPlannerExhausted payload = Ok q' →
  number_of payload "finding_id" = Some (FindingId.as_i64 (Finding.id f)) →
  number_of payload "marked_at" = Finding.propose_requested_at f →
  exhausted q' (Finding.id f) (Finding.propose_requested_at f) = true.
Proof.
  intros Hevent Hid Hmarked. unfold finding_event in Hevent. rewrite bool_decide_false in Hevent.
  2:{ unfold RECORDS_VALUES. set_solver. }
  res_inv. unfold exhausted. simpl. rewrite existsb_app. apply orb_true_iff. right. simpl.
  by rewrite Hid, Hmarked, !bool_decide_true.
Qed.

(** The opening of a planner: one is added where none was open; a finding given
    up waits for no other; else nothing is written. *)
Lemma open_finding_planner_spec w q finding answer limit q' start :
  open_finding_planner w q finding answer limit = Ok (q', start) → inv q →
  inv q' ∧ match start with
           | FindingPlannerStart.Opened p f attempt =>
               open_for q finding = false ∧ find_finding q finding = Some f
               ∧ p ∈ Tables.planners q' ∧ PlannerSession.is_for p finding = true
               ∧ PlannerSession.is_open p = true
               ∧ (answer = None → attempt ≤ MAX_FINDING_PLANNERS ∧ waits_for_planner q f = true)
           | FindingPlannerStart.Exhausted attempts =>
               answer = None ∧ MAX_FINDING_PLANNERS ≤ attempts
               ∧ Tables.planners q' = Tables.planners q ∧ is_target q' finding = false
           | FindingPlannerStart.AtLimit _ | FindingPlannerStart.Skipped => q' = q
           end.
Proof.
  intros Hopen Hinv. unfold open_finding_planner in Hopen.
  apply bind_Ok in Hopen as (eligible & Heligible & Hopen).
  destruct eligible; simpl in Hopen; [|by injection Hopen as <- <-].
  assert (open_for q finding = false ∧ (answer = None → is_target q finding = true)) as [Hclosed Htarget].
  { destruct answer as [ask|].
    - apply bind_Ok in Heligible as (a & _ & Heligible). destruct (negb _); [done|].
      apply bind_Ok in Heligible as (route & _ & Heligible). injection Heligible as Heligible.
      by bool_split.
    - injection Heligible as Heligible. split; [by apply is_target_closed|done]. }
  apply bind_Ok in Hopen as (f & Hread & Hopen). apply read_finding_Ok in Hread.
  destruct (find_finding_Some _ _ _ Hread) as [_ Hid].
  apply bind_Ok in Hopen as (improvements & _ & Hopen).
  assert (open_planner_for w q f answer = Ok (q', start) ∨ (q' = q ∧ ∃ l, start = FindingPlannerStart.AtLimit l))
    as [Hfor|(-> & l & ->)]; [|clear Hopen|by split].
  { destruct improvements as [i|]; [|by left]. destruct (ImprovementLimit.reached i); [|by left].
    injection Hopen as <- <-. eauto. }
  unfold open_planner_for in Hfor. destruct (_ && _) eqn:Hmost.
  - apply andb_true_iff in Hmost as [Hmost Hanswer]. apply Nat.leb_le in Hmost.
    apply bind_Ok in Hfor as (q1 & Hevent & Hfor). injection Hfor as <- <-.
    destruct (planner_event_inv _ _ _ f _ _ _ Hevent Hinv) as [Hinv1 Hsame1];
      [by rewrite Hid|done|unfold LEDGER_KINDS; set_solver|apply is_object_object|].
    split; [done|]. split_and!; [by destruct answer|done|apply Hsame1|].
    unfold is_target. rewrite (same_rows_find q q1), Hread by done. simpl.
    unfold waits_for_planner. rewrite Hid.
    assert (exhausted q1 finding (Finding.propose_requested_at f) = true) as ->; [|by rewrite andb_false_r].
    rewrite <-Hid. eapply exhausted_event; [exact Hevent| |].
    + unfold finding_number. by read_payload.
    + unfold number_of. rewrite field_object. simpl.
      destruct (Finding.propose_requested_at f); simpl; [apply as_number_of_number|apply as_number_null].
  - set (row := PlannerSession.inserted (next_planner q) PlannerOrigin.Runtime (Connection.now w)
                  <| PlannerSession.finding_id := Some (Finding.id f) |>) in *.
    apply bind_Ok in Hfor as (q1 & Hevent & Hfor).
    apply bind_Ok in Hfor as (p & Hplanner & Hfor). injection Hfor as <- <-.
    pose proof (add_planner_inv q row finding Hinv Hclosed eq_refl (f_equal Some Hid)) as Hinv0.
    destruct (planner_event_inv _ _ _ f _ _ _ Hevent Hinv0) as [Hinv1 Hsame1];
      [by rewrite Hid|done|unfold LEDGER_KINDS; set_solver|apply is_object_object|].
    assert (Tables.planners q1 = Tables.planners q ++ [row]) as Hplanners by apply Hsame1.
    assert (p = row) as ->.
    { unfold planner in Hplanner. destruct (List.find _ _) as [p'|] eqn:Hfind; [|done].
      injection Hplanner as ->. apply List.find_some in Hfind as [Hp Hpid]. bool_split.
      apply (nodup_key_inj PlannerSession.id (Tables.planners q1)); [apply Hinv1|by apply list_elem_of_In| |done].
      rewrite Hplanners. set_solver. }
    split; [done|]. split_and!; [done|done|rewrite Hplanners; set_solver| |done|].
    + unfold PlannerSession.is_for. simpl. by rewrite Hid, bool_decide_true.
    + intros ->. split.
      * apply andb_false_iff in Hmost as [Hmost|Hmost]; [|done]. apply Nat.leb_gt in Hmost.
        unfold MAX_FINDING_PLANNERS, MAX_DRAFT_PLANNERS in *. lia.
      * specialize (Htarget eq_refl). unfold is_target in Htarget. by rewrite Hread in Htarget.
Qed.

(** Updates of a planner's row that keep what it is for and never open it
    again. *)
Lemma update_planner_inv q id wanted change q' updated :
  update_planner q id wanted change = (q', updated) →
  (∀ p, PlannerSession.id (change p) = PlannerSession.id p
        ∧ PlannerSession.finding_id (change p) = PlannerSession.finding_id p
        ∧ (PlannerSession.is_open (change p) = true → PlannerSession.is_open p = true)) →
  inv q → inv q'.
Proof.
  intros [= <- _] Hchange [[] Hledger].
  set (image := λ p, if bool_decide (PlannerSession.id p = id) && wanted p then change p else p).
  assert (∀ p, PlannerSession.id (image p) = PlannerSession.id p
        ∧ PlannerSession.finding_id (image p) = PlannerSession.finding_id p
        ∧ (PlannerSession.is_open (image p) = true → PlannerSession.is_open p = true)) as Himage.
  { intros p. unfold image. destruct (_ && _); [apply Hchange|done]. }
  split; [split|exact Hledger]; simpl; try done.
  - change (NoDup (PlannerSession.id <$> (image <$> Tables.planners q))).
    rewrite <-list_fmap_compose, (list_fmap_ext _ PlannerSession.id); [done|]. intros ? p _. apply Himage.
  - intros p1' p2' finding (p1 & -> & Hp1)%list_elem_of_fmap (p2 & -> & Hp2)%list_elem_of_fmap.
    change (if bool_decide (PlannerSession.id p1 = id) && wanted p1 then change p1 else p1) with (image p1).
    change (if bool_decide (PlannerSession.id p2 = id) && wanted p2 then change p2 else p2) with (image p2).
    unfold PlannerSession.is_for. destruct (Himage p1) as (_ & -> & Ho1), (Himage p2) as (_ & -> & Ho2).
    intros Hf1 Hf2 Hi1 Hi2. f_equal. by apply (wf_one_open0 p1 p2 finding); auto.
Qed.

(** ** The index of unsettled findings refuses nothing *)
Definition accepted {A} (r : result FindingError A) : Prop := r ≠ Err FindingError.NotUnique.
Lemma accepted_Ok {A} (a : A) : accepted (Ok a).
Proof. discriminate. Qed.
Lemma accepted_bind {A B} (m : result FindingError A) (f : A → result FindingError B) :
  accepted m → (∀ a, m = Ok a → accepted (f a)) → accepted (m ≫= f).
Proof. intros Hm Hf. destruct m as [a|error]; [by apply Hf|]. intros [= ->]. by apply Hm. Qed.
Lemma accepted_domain {A} (r : Result A) : accepted (FindingError.of_domain r).
Proof. destruct r; discriminate. Qed.
Lemma accepted_require b error : error ≠ FindingError.NotUnique → accepted (require b error).
Proof. intros He. destruct b; [discriminate|]. intros [= ->]. done. Qed.
Lemma accepted_read q id : accepted (read_finding q id).
Proof. unfold read_finding. destruct (find_finding q id); discriminate. Qed.
Lemma accepted_event w q f kind payload : accepted (finding_event w q f kind payload).
Proof.
  unfold finding_event. apply accepted_bind; [apply accepted_domain|]. intros _ _.
  apply accepted_bind; [apply accepted_domain|]. intros _ _. apply accepted_Ok.
Qed.
Lemma accepted_update q id change :
  tables_wf q → (∀ f, find_finding q id = Some f → row_fixed f (change f)) →
  accepted (update_finding q id change).
Proof.
  intros Hwf Hfixed. destruct (find_finding q id) as [f|] eqn:Hfind.
  - rewrite (update_finding_is q id change f) by auto. apply accepted_Ok.
  - unfold update_finding, write_findings. rewrite index_of_problems; [apply accepted_Ok|].
    rewrite <-list_fmap_compose, (list_fmap_ext _ problem); [apply (wf_problems _ Hwf)|].
    intros i f Hf%list_elem_of_lookup_2. simpl. case_bool_decide as Hid; [|done].
    pose proof (find_finding_elem q f (wf_ids _ Hwf) Hf) as Hsome. congruence.
Qed.
Lemma accepted_fold {A B} (f : Tables P * B → A → result FindingError (Tables P * B)) l s :
  (∀ s a s', f s a = Ok s' → writes s.1 s'.1) → (∀ s a, inv s.1 → accepted (f s a)) →
  inv s.1 → accepted (fold_result f s l).
Proof.
  intros Hwrites Hf. revert s. induction l as [|a l IH]; intros s Hinv; simpl; [apply accepted_Ok|].
  apply accepted_bind; [by apply Hf|]. intros s' Hs'. apply IH. by eapply Hwrites.
Qed.
Lemma accepted_state q proposal : accepted (proposal_state q proposal).
Proof.
  unfold proposal_state, read_proposal. destruct (find_proposal q proposal); [|discriminate].
  apply accepted_bind; [apply accepted_domain|]. intros. apply accepted_Ok.
Qed.

(** [accept] steps through a transaction of writes of one row. *)
Ltac accept :=
  repeat first
    [ apply accepted_Ok | apply accepted_domain | apply accepted_read | apply accepted_event
    | apply accepted_state | (apply accepted_require; discriminate)
    | (apply accepted_bind; [|intros ? ?]) ].

Lemma accepted_record w q new : inv q → accepted (record_in w q new).
Proof.
  intros Hinv. unfold record_in. apply accepted_bind; [apply accepted_domain|]. intros _ _.
  apply accepted_bind.
  { unfold resolve_target. destruct (NewFinding.target new); try discriminate.
    - destruct (existsb _ _); discriminate.
    - destruct (find_task _ _); discriminate.
    - destruct (List.find _ _) as [[]|]; discriminate. }
  intros [[task run] goal] Hids. apply accepted_bind.
  { unfold check_events. induction (NewFinding.distinct_evidence new); simpl; accept. done. }
  intros _ _. destruct (existing_finding _ _) as [existing|] eqn:Hexisting.
  - apply existing_finding_Some in Hexisting as [Hin _].
    unfold record_merged. destruct (merge _ _ _) as [update|] eqn:Hmerge; [|apply accepted_Ok].
    apply merge_good in Hmerge as [Hgood Hwritten].
    apply accepted_bind.
    { apply accepted_update; [apply Hinv|]. intros g Hg.
      assert (g = existing) as ->; [|rewrite Hwritten; apply Hgood].
      rewrite (fixed_id _ _ (proj1 Hgood)), (find_finding_elem q existing) in Hg;
        [congruence|apply (wf_ids _ (proj1 Hinv))|done]. }
    intros ? ?. destruct (FindingUpdate.reopened update); accept.
  - apply existing_finding_None in Hexisting. apply resolve_target_Ok in Hids as [Hrun Htask]; [|apply Hinv].
    unfold record_created.
    destruct (write_row q (new_row q new (task, run, goal) (Connection.now w))) as (Hwrite & _);
      [apply Hinv|by apply new_row_ok|apply next_finding_fresh|exact Hexisting|].
    rewrite Hwrite. apply accepted_bind; [apply accepted_Ok|]. intros ? ?. accept.
Qed.
Lemma accepted_set_status w q id to reason by_ covered :
  inv q → accepted (set_status_covered_in w q id to reason by_ covered).
Proof.
  intros Hinv. unfold set_status_covered_in. accept. by apply accepted_update; [apply Hinv|].
Qed.
Lemma accepted_link w q proposal workspace named by_ :
  inv q → accepted (link_findings w q proposal workspace named by_).
Proof.
  intros Hinv. unfold link_findings. apply accepted_fold; [apply link_one_writes| |done].
  intros [q1 done_] [id name] Hinv1. unfold link_one. accept.
  destruct (check_link _ _) as [[]|]; [|accept|destruct name; [discriminate|apply accepted_Ok]].
  accept. by apply accepted_update; [apply Hinv1|].
Qed.
Lemma accepted_settle_loop w l s :
  inv s.1 → NoDup (Finding.id <$> l) →
  (∀ f, f ∈ l → find_finding s.1 (Finding.id f) = Some f ∧ proposed f = true) →
  accepted (fold_result (settle_one w) s l).
Proof.
  revert s. induction l as [|f l IH]; intros s Hinv Hnd Hl; simpl; [apply accepted_Ok|].
  apply NoDup_cons in Hnd as [Hf Hnd]. destruct (Hl f) as [Hfind Hproposed]; [by left|].
  apply accepted_bind.
  - destruct s as [q settled]. unfold settle_one. destruct (Finding.proposal_id f); [|apply accepted_Ok].
    accept. destruct (settle _ _) as [[to reason]|]; [|apply accepted_Ok]. accept.
    apply accepted_update; [apply Hinv|]. intros g _. unfold settled_row. by destruct to.
  - intros s1 Hs1. destruct (settle_one_spec w s f s1 Hs1 Hinv Hfind Hproposed) as (Hinv1 & _ & _ & Hothers).
    apply IH; [done..|]. intros g Hg. destruct (Hl g) as [Hgfind ?]; [by right|]. split; [|done].
    rewrite Hothers; [done|]. intros Heq. apply Hf. rewrite <-Heq. by apply list_elem_of_fmap_2.
Qed.
Lemma accepted_settle w q : inv q → accepted (settle_findings w q).
Proof.
  intros Hinv. destruct (proposed_rows q (proj1 Hinv)). unfold settle_findings.
  by apply accepted_settle_loop.
Qed.
Lemma accepted_answer w q ask text by_ : inv q → accepted (apply_answer w q ask text by_).
Proof.
  intros Hinv. unfold apply_answer. destruct (negb _); [apply accepted_Ok|].
  destruct (FindingAnswer.parse text) as [[why|why]|]; [| |apply accepted_Ok].
  - destruct (negb _); [apply accepted_Ok|]. apply accepted_bind.
    { unfold finding_to_mark, record_from_ask. destruct (Ask.finding_id ask); [apply accepted_Ok|].
      apply accepted_bind; [apply accepted_bind; [by apply accepted_record|]|].
      - intros ? ?. apply accepted_Ok.
      - intros [] ?. apply accepted_Ok. }
    intros [q1 id] Hfound. apply finding_to_mark_spec in Hfound as [Hinv1 _]; [|done].
    apply accepted_bind; [|intros; apply accepted_Ok]. unfold mark_answered.
    apply accepted_bind; [apply accepted_read|]. intros f Hread.
    destruct (mark_for_proposal f _ _) as [marked|]; [|apply accepted_Ok].
    apply accepted_bind; [by apply accepted_update; [apply Hinv1|]|]. intros ? ?. destruct (negb _); accept.
  - destruct (negb _); [apply accepted_Ok|]. destruct (Ask.finding_id ask) as [id|]; [|apply accepted_Ok].
    accept. destruct (bool_decide _); [apply accepted_Ok|].
    apply accepted_bind; [by apply accepted_set_status|]. intros ? ?. apply accepted_Ok.
Qed.

(** ** Sequences of transactions *)

(** What other parts may write: rows they own, planners of no finding, columns of
    a planner that say neither what it is for nor that it opens again, and
    events that record no finding. *)
Record outside q q' : Prop := {
  outside_findings : Tables.findings q' = Tables.findings q;
  outside_planners : ∃ image new, Tables.planners q' = (image <$> Tables.planners q) ++ new
    ∧ (∀ p, PlannerSession.id (image p) = PlannerSession.id p
        ∧ PlannerSession.finding_id (image p) = PlannerSession.finding_id p
        ∧ (PlannerSession.is_open (image p) = true → PlannerSession.is_open p = true))
    ∧ (∀ p, p ∈ new → PlannerSession.finding_id p = None)
    ∧ NoDup (PlannerSession.id <$> Tables.planners q');
  outside_runs : ∀ row, row ∈ Tables.runs q' → LedgerProofs.run_known (Some row.1);
  outside_log : ∃ new, Tables.log q' = Tables.log q ++ new
    ∧ (∀ e, e ∈ new → RunEvent.is_in e LEDGER_KINDS = false)
    ∧ NoDup (RunEvent.id <$> Tables.log q');
}.

Inductive step : Tables P → Tables P → Prop :=
  | step_record w q new q' outcome : record_in w q new = Ok (q', outcome) → step q q'
  | step_record_once w q new q' id : record_finding_once w q new = Ok (q', id) → step q q'
  | step_status w q id to reason by_ covered q' f :
      set_finding_status_covered w q id to reason by_ covered = Ok (q', f) → step q q'
  | step_link w q proposal workspace named by_ q' linked :
      link_findings w q proposal workspace named by_ = Ok (q', linked) → step q q'
  | step_settle w q q' settled : settle_findings w q = Ok (q', settled) → step q q'
  | step_answer w q ask text by_ q' applied :
      apply_answer w q ask text by_ = Ok (q', applied) → step q q'
  | step_ci w q record q' r : record_ci_check w q record = Ok (q', r) → step q q'
  | step_scheduled w q record q' r : record_ci_scheduled_check w q record = Ok (q', r) → step q q'
  | step_open_planner w q finding answer limit q' start :
      open_finding_planner w q finding answer limit = Ok (q', start) → step q q'
  | step_workspace q id workspace q' : planner_workspace_created q id workspace = Ok q' → step q q'
  | step_close w q id error : step q (close_planner_row w q id error).1
  | step_wait w q id asks answered payload q' marked :
      mark_answer_wait w q id asks answered payload = Ok (q', marked) → step q q'
  | step_event w q finding kind payload q' :
      kind ∉ LEDGER_KINDS → is_object payload = true →
      record_finding_event w q finding kind payload = Ok q' → step q q'
  | step_outside q q' : outside q q' → step q q'.

(** No finding and no planner yet, and no record of a finding. *)
Definition initial q : Prop :=
  Tables.findings q = [] ∧ Tables.planners q = []
  ∧ (∀ row, row ∈ Tables.runs q → LedgerProofs.run_known (Some row.1))
  ∧ NoDup (RunEvent.id <$> Tables.log q)
  ∧ ∀ e, e ∈ Tables.log q → RunEvent.is_in e LEDGER_KINDS = false.
Definition reachable q : Prop := ∃ q0, initial q0 ∧ rtc step q0 q.

Lemma fold_no_record (events : list (RunEvent P)) known0 :
  (∀ e, e ∈ events → RunEvent.is_in e LEDGER_KINDS = false) → foldl fold_event known0 events = known0.
Proof.
  induction events as [|e events IH] in known0 |- *; intros Hno; simpl; [done|].
  rewrite LedgerProofs.fold_event_other by (apply Hno; left). apply IH. intros. apply Hno. by right.
Qed.
Lemma initial_inv q : initial q → inv q.
Proof.
  intros (Hfindings & Hplanners & Hruns & Hlog & Hno). split.
  - split; rewrite ?Hfindings, ?Hplanners; try done; try apply NoDup_nil_2.
    + intros f Hf. inv Hf.
    + intros p1 p2 finding Hp. inv Hp.
  - intros id. unfold known. rewrite fold_no_record by done. unfold find_finding. by rewrite Hfindings.
Qed.
Lemma outside_inv q q' : outside q q' → inv q → inv q'.
Proof.
  intros [Hfindings (image & new & Hplanners & Himage & Hnew & Hids) Hruns (events & Hlog & Hno & Hnd)]
    [[] Hledger]. split.
  - split; rewrite ?Hfindings; try done.
    intros p1' p2' finding. rewrite Hplanners.
    assert (∀ p, p ∈ new → PlannerSession.is_for p finding = false) as Hfor.
    { intros p Hp. unfold PlannerSession.is_for. rewrite (Hnew p Hp). by apply bool_decide_eq_false. }
    intros [(p1 & -> & Hp1)%list_elem_of_fmap|Hp1]%elem_of_app
      [(p2 & -> & Hp2)%list_elem_of_fmap|Hp2]%elem_of_app Hf1 Hf2 Ho1 Ho2;
      [|rewrite Hfor in Hf2; done|rewrite Hfor in Hf1; done|rewrite Hfor in Hf1; done].
    destruct (Himage p1) as (_ & Hi1 & Hopen1), (Himage p2) as (_ & Hi2 & Hopen2).
    unfold PlannerSession.is_for in Hf1, Hf2. rewrite Hi1 in Hf1. rewrite Hi2 in Hf2.
    f_equal. apply (wf_one_open0 p1 p2 finding); auto.
  - intros id. unfold known. rewrite Hlog, foldl_app, fold_no_record by done.
    unfold find_finding. rewrite Hfindings. apply Hledger.
Qed.
Lemma step_inv q q' : step q q' → inv q → inv q'.
Proof.
  intros Hstep Hinv. destruct Hstep as
    [w q new q' outcome Hok|w q new q' id Hok|w q id to reason by_ covered q' f Hok
    |w q proposal workspace named by_ q' linked Hok|w q q' settled Hok|w q ask text by_ q' applied Hok
    |w q record q' r Hok|w q record q' r Hok|w q finding answer limit q' start Hok
    |q id workspace q' Hok|w q id error|w q id asks answered payload q' marked Hok
    |w q finding kind payload q' Hkind Hobject Hok|q q' Houtside].
  - by eapply recorded_inv, record_in_spec.
  - unfold record_finding_once in Hok. apply bind_Ok in Hok as (ids & _ & Hok).
    destruct (existsb _ _); [by injection Hok as <- <-|].
    apply bind_Ok in Hok as ([q1 outcome] & Hok & [= <- <-]). by eapply recorded_inv, record_in_spec.
  - unfold set_finding_status_covered in Hok. apply bind_Ok in Hok as (_ & _ & Hok).
    apply set_status_covered_spec in Hok as (_ & _ & _ & Hinv' & _); done.
  - by apply (link_findings_writes w q proposal workspace named by_ q' linked Hok).
  - by eapply settle_findings_spec.
  - by eapply apply_answer_spec.
  - by eapply record_ci_check_inv.
  - by eapply record_ci_scheduled_check_inv.
  - by eapply open_finding_planner_spec.
  - unfold planner_workspace_created in Hok. destruct (update_planner _ _ _ _) as [q1 updated] eqn:Hupdate.
    apply bind_Ok in Hok as (_ & _ & Hok). apply bind_Ok in Hok as (_ & _ & [= <-]).
    by eapply update_planner_inv.
  - unfold close_planner_row. destruct (update_planner _ _ _ _) as [q1 updated] eqn:Hupdate.
    by eapply update_planner_inv.
  - unfold mark_answer_wait in Hok. destruct (negb _); [by injection Hok as <- <-|].
    destruct (update_planner _ _ _ _) as [q1 updated] eqn:Hupdate.
    destruct (negb updated); [by injection Hok as <- <-|].
    apply update_planner_inv in Hupdate; [|done|done].
    unfold record_queue_event_in in Hok. apply bind_Ok in Hok as (q2 & Hevent & [= <- <-]). res_inv.
    destruct Hupdate as [Hwf1 Hledger1]. split; [by apply insert_event_wf|].
    intros other. rewrite insert_event_known by done. apply Hledger1.
  - unfold record_finding_event in Hok. apply bind_Ok in Hok as (f & Hread & Hevent).
    apply read_finding_Ok in Hread. destruct (find_finding_Some _ _ _ Hread) as [_ Hid].
    destruct (planner_event_inv _ _ _ f _ _ _ Hevent Hinv) as [Hinv1 _]; [by rewrite Hid|done..].
  - by eapply outside_inv.
Qed.
Lemma reachable_inv q : reachable q → inv q.
Proof.
  intros (q0 & Hinitial & Hsteps). apply initial_inv in Hinitial.
  induction Hsteps as [|q1 q2 q3 Hstep _ IH]; [done|]. by eapply IH, step_inv.
Qed.

(** ** What is promised *)

(** C24: However its transactions and those of other parts follow one another,
    the store holds one finding of a problem (a kind on a target with a
    subject), settled or not; and so the unique index of unsettled findings
    refuses no record, status, link, settlement or answer. *)
Theorem one_finding_per_problem q :
  reachable q →
  NoDup (problem <$> Tables.findings q)
  ∧ (∀ w new, record_in w q new ≠ Err FindingError.NotUnique)
  ∧ (∀ w id to reason by_ covered,
       set_status_covered_in w q id to reason by_ covered ≠ Err FindingError.NotUnique)
  ∧ (∀ w proposal workspace named by_,
       link_findings w q proposal workspace named by_ ≠ Err FindingError.NotUnique)
  ∧ (∀ w, settle_findings w q ≠ Err FindingError.NotUnique)
  ∧ (∀ w ask text by_, apply_answer w q ask text by_ ≠ Err FindingError.NotUnique).
Proof.
  intros Hinv%reachable_inv. split_and!; intros.
  - apply (wf_problems _ (proj1 Hinv)).
  - by apply accepted_record.
  - by apply accepted_set_status.
  - by apply accepted_link.
  - by apply accepted_settle.
  - by apply accepted_answer.
Qed.

(** C25: The measurement needs no table: the findings folded from the events of a
    store are the attributes of its rows, and the ones it lists as unsettled are
    those the list gives by default, in its order. *)
Theorem findings_folded_from_events q :
  reachable q →
  ∃ findings, fold (Tables.log q) None = Folded.Findings findings
  ∧ (∀ id, KnownFindings.findings findings !! id = Finding.attributes <$> find_finding q id)
  ∧ KnownFindings.unsettled findings
    = Finding.attributes <$> listed q (FindingQuery.mk None false [] [] None false) None.
Proof.
  intros [Hwf Hledger]%reachable_inv. exists (KnownFindings.mk (known q)).
  rewrite LedgerProofs.fold_every. split_and!; [done|exact Hledger|].
  rewrite (LedgerProofs.unsettled_of_rows _ (Tables.findings q)) by (apply (wf_ids _ Hwf) || exact Hledger).
  unfold listed. do 2 f_equal. clear. induction (Tables.findings q) as [|f l IH]; simpl; [done|].
  unfold FindingQuery.admits at 1. simpl. rewrite andb_true_r.
  destruct (FindingStatus.is_unsettled (Finding.status f)); simpl; by rewrite IH.
Qed.

(** C26: A finding never has two planners open.  One is opened only where none
    was; one that carries no person's answer only for a finding open and marked,
    as the third since its mark at most; and a finding that had its planners is
    given up: it waits for no other. *)
Theorem one_planner_per_finding q w finding answer limit q' start :
  reachable q →
  (∀ p1 p2, p1 ∈ Tables.planners q → p2 ∈ Tables.planners q →
     PlannerSession.is_for p1 finding = true → PlannerSession.is_for p2 finding = true →
     PlannerSession.is_open p1 = true → PlannerSession.is_open p2 = true → p1 = p2)
  ∧ (open_finding_planner w q finding answer limit = Ok (q', start) →
     match start with
     | FindingPlannerStart.Opened p f attempt =>
         open_for q finding = false ∧ p ∈ Tables.planners q'
         ∧ (answer = None → attempt ≤ 3 ∧ marked_open f = true)
     | FindingPlannerStart.Exhausted attempts =>
         answer = None ∧ 3 ≤ attempts ∧ is_target q' finding = false
     | FindingPlannerStart.AtLimit _ | FindingPlannerStart.Skipped => q' = q
     end).
Proof.
  intros Hinv%reachable_inv. split.
  - intros p1 p2. apply (wf_one_open _ (proj1 Hinv)).
  - intros Hopen. apply open_finding_planner_spec in Hopen as [_ Hstart]; [|done].
    destruct start as [p f attempt|attempts|l|]; [|tauto|done|done].
    destruct Hstart as (Hclosed & _ & Hp & _ & _ & Hanswer). split_and!; [done..|].
    intros Hnone. destruct (Hanswer Hnone) as [Hattempt Hwaits]. split; [done|].
    unfold waits_for_planner in Hwaits. by bool_split.
Qed.

(** A pass over the proposed findings settles each whose proposal ended and
    changes no other row: resolved when a task was completed, else open again
    with neither proposal nor mark.  After it no finding is proposed on a
    proposal that ended. *)
Theorem settled_proposals_let_go q w q' settled :
  reachable q → settle_findings w q = Ok (q', settled) →
  (∀ id, find_finding q' id = settled_of w q <$> find_finding q id)
  ∧ ∀ f, f ∈ Tables.findings q' → Finding.status f = FindingStatus.Proposed →
    ∃ proposal, Finding.proposal_id f = Some proposal
    ∧ ∀ status tasks, proposal_state q' proposal = Ok (status, tasks) → settle status tasks = None.
Proof.
  intros Hinv%reachable_inv Hsettle.
  apply settle_findings_spec in Hsettle as ([Hwf' _] & Hbeside & Hall); [|done]. split; [done|].
  intros f Hf Hstatus. pose proof (row_proposed _ (wf_rows _ Hwf' _ Hf) Hstatus) as Hproposal.
  destruct (Finding.proposal_id f) as [proposal|] eqn:Hid; [|done]. exists proposal. split; [done|].
  intros status tasks. rewrite (proposal_state_beside q q') by done. intros Hstate.
  pose proof (find_finding_elem q' f (wf_ids _ Hwf') Hf) as Hfind. rewrite Hall in Hfind.
  destruct (find_finding q (Finding.id f)) as [g|]; [|done]. injection Hfind as Hg.
  unfold settled_of in Hg. destruct (proposed g) eqn:Hproposed.
  2:{ subst g. unfold proposed in Hproposed. by rewrite Hstatus, Hid in Hproposed. }
  destruct (Finding.proposal_id g) as [proposal'|] eqn:Hid'; [|subst g; congruence].
  destruct (proposal_state q proposal') as [[status' tasks']|] eqn:Hstate'; [|subst g; congruence].
  destruct (settle status' tasks') as [[to reason]|] eqn:Hto; [|subst g; congruence].
  exfalso. apply settle_to in Hto. subst f. unfold settled_row in Hstatus.
  destruct Hto as [-> | ->]; discriminate Hstatus.
Qed.

(** A person's answer that is applied is carried out on the ask's finding,
    or on one recorded for it and named on the ask: after [propose] it is
    proposed, or open and marked, whatever it was; after [dismiss] it is
    dismissed.  Any other answer changes nothing. *)
Theorem answer_carried_out q w ask text by_ q' applied :
  reachable q → apply_answer w q ask text by_ = Ok (q', applied) →
  match applied with None => q' = q | Some applied => carried_out q' ask applied end.
Proof. intros Hinv%reachable_inv Happly. by eapply apply_answer_spec. Qed.
End proofs.
End FindingStoreProofs.

(** ** Samples *)
Module FindingSample.
Import FindingStoreProofs.

Definition conn (now : Z) : Connection := Connection.mk now "2026-01-01T00:00:00.000Z" None.
Definition new : NewFinding :=
  NewFinding.mk "stall" FindingTarget.Queue "idle_slots" "slots idle" None None []
    (Some "recurs daily") "observer".
Definition ask : Ask :=
  Ask.mk (AskId.new 1) AskKind.Stalled None None "The run is silent." ["wait"; "propose"] None "supervisor"
    AskReason.Scope [] None None None [] 5 None None None None None None None None.
Definition owner : PlannerOwner := PlannerOwner.mk PlannerOrigin.Runtime None.
Definition proposal : ProposalRecord :=
  ProposalRecord.mk (ProposalId.new 1) ProposalStatus.Accepted owner "t" 0 [] [] "t" "t".
Definition q0 : Tables EventPayload.t :=
  Tables.mk [] [] [ask] [] [TaskRow.mk (TaskId.new 1) TaskStatus.Completed None (Some (ProposalId.new 1))]
    [] [proposal] [].

Definition tables_of {A} (r : result FindingError (Tables EventPayload.t * A)) : Tables EventPayload.t :=
  match r with Ok (q, _) => q | Err _ => q0 end.
(** The finding is recorded, a proposal is linked to it, and it ends. *)
Definition q1 := tables_of (record_in (conn 10) q0 new).
Definition q2 := tables_of (link_findings (conn 20) q1 (ProposalId.new 1) None [FindingId.new 1] "planner").
Definition q3 := tables_of (settle_findings (conn 30) q2).

Lemma tables_of_Ok {A} (r : result FindingError (Tables EventPayload.t * A)) :
  is_ok r = true → ∃ a, r = Ok (tables_of r, a).
Proof. destruct r as [[q a]|]; [|done]. by exists a. Qed.
Lemma reachable_q0 : reachable q0.
Proof.
  exists q0. split; [|done]. split_and!; [done|done| |apply NoDup_nil_2|].
  - intros row Hrow. inv Hrow.
  - intros e He. inv He.
Qed.
Lemma reachable_step q q' : reachable q → step q q' → reachable q'.
Proof. intros (start & Hinitial & Hsteps) Hstep. exists start. split; [done|]. by eapply rtc_r. Qed.
Lemma reachable_q1 : reachable q1.
Proof.
  destruct (tables_of_Ok (record_in (conn 10) q0 new)) as [outcome Hok]; [vm_compute; reflexivity|].
  eapply reachable_step; [apply reachable_q0|]. by eapply step_record.
Qed.
Lemma reachable_q2 : reachable q2.
Proof.
  destruct (tables_of_Ok (link_findings (conn 20) q1 (ProposalId.new 1) None [FindingId.new 1] "planner"))
    as [linked Hok]; [vm_compute; reflexivity|].
  eapply reachable_step; [apply reachable_q1|]. by eapply step_link.
Qed.

Example statuses_sample :
  (Finding.status <$> Tables.findings q1, Finding.status <$> Tables.findings q2,
   Finding.status <$> Tables.findings q3)
  = ([FindingStatus.Open], [FindingStatus.Proposed], [FindingStatus.Resolved]).
Proof. vm_compute. reflexivity. Qed.

Lemma one_finding_per_problem_witness : record_in (conn 40) q2 new ≠ Err FindingError.NotUnique.
Proof. exact (proj1 (proj2 (one_finding_per_problem q2 reachable_q2)) (conn 40) new). Defined.
Lemma findings_folded_from_events_witness :
  ∃ findings, fold (Tables.log q2) None = Folded.Findings findings
  ∧ FindingAttributes.status <$> KnownFindings.unsettled findings = [FindingStatus.Proposed].
Proof.
  destruct (findings_folded_from_events q2 reachable_q2) as (findings & Hfold & _ & Hunsettled).
  exists findings. split; [exact Hfold|]. rewrite Hunsettled. vm_compute. reflexivity.
Defined.
Definition opening := open_finding_planner (conn 15) q1 (FindingId.new 1) None 1.
Definition started : FindingPlannerStart.t :=
  match opening with Ok (_, start) => start | Err _ => FindingPlannerStart.Skipped end.
Lemma opening_Ok : opening = Ok (tables_of opening, started).
Proof. vm_compute. reflexivity. Qed.
Lemma one_planner_per_finding_witness :
  opening = Ok (tables_of opening, started)
  ∧ match started with
    | FindingPlannerStart.Opened p f attempt =>
        open_for q1 (FindingId.new 1) = false ∧ p ∈ Tables.planners (tables_of opening)
        ∧ (@None AskId = None → attempt ≤ 3 ∧ marked_open f = true)
    | FindingPlannerStart.Exhausted attempts =>
        @None AskId = None ∧ 3 ≤ attempts ∧ is_target (tables_of opening) (FindingId.new 1) = false
    | FindingPlannerStart.AtLimit _ | FindingPlannerStart.Skipped => tables_of opening = q1
    end.
Proof.
  split; [exact opening_Ok|].
  exact (proj2 (one_planner_per_finding q1 (conn 15) (FindingId.new 1) None 1 _ _ reachable_q1) opening_Ok).
Defined.
Example started_sample :
  match started with FindingPlannerStart.Opened p f attempt => attempt = 1 | _ => False end.
Proof. vm_compute. reflexivity. Qed.
Lemma settled_proposals_let_go_witness :
  ∃ settled, settle_findings (conn 30) q2 = Ok (q3, settled)
  ∧ find_finding q3 (FindingId.new 1) = settled_of (conn 30) q2 <$> find_finding q2 (FindingId.new 1).
Proof.
  destruct (tables_of_Ok (settle_findings (conn 30) q2)) as [settled Hok]; [vm_compute; reflexivity|].
  exists settled. split; [exact Hok|].
  exact (proj1 (settled_proposals_let_go q2 (conn 30) q3 settled reachable_q2 Hok) (FindingId.new 1)).
Defined.
Definition answering := apply_answer (conn 40) q2 ask "propose: it recurs" "person".
Definition answered : option AppliedAnswer.t :=
  match answering with Ok (_, applied) => applied | Err _ => None end.
Lemma answering_Ok :
  apply_answer (conn 40) q2 ask "propose: it recurs" "person" = Ok (tables_of answering, answered).
Proof. vm_compute. reflexivity. Qed.
Example answered_sample : answered = Some (AppliedAnswer.mk (FindingId.new 2) "propose").
Proof. vm_compute. reflexivity. Qed.
Lemma answer_carried_out_witness :
  match answered with
  | None => tables_of answering = q2
  | Some applied => carried_out (tables_of answering) ask applied
  end.
Proof.
  exact (answer_carried_out q2 (conn 40) ask "propose: it recurs" "person" (tables_of answering) answered
    reachable_q2 answering_Ok).
Defined.
End FindingSample.
