(* ===== verification/AskStore.v ===== *)
(** * The table of asks

    The transactions on the asks of the queue
    ([src/src/infrastructure/asks.rs]): an ask is opened, or the open one of
    the same matter returned ([insert_ask], [hold], [open_update_ask]); it is
    answered once, by a person or by the runtime that withdraws it
    ([answer_as], [close_by_runtime], [discard_by_runtime]); and it is closed
    when its answer was applied or delivered ([close_ask], [deliver_ask_in] and
    the closes of a run's asks).  Each records the event that [stats] pairs.

    The rows are those of [Tables] (FindingStore): an answer may mark or dismiss
    a finding, in the same transaction.  What the transactions read of other
    components is the record [Routes]: the status and lease of a run, where a
    planner's question goes, whether a plan's, goal's or correction's answer can
    be applied now, which supervisors update the binary.  The events of a run
    are read off the log.  An insert meets the unique index [asks_open]; no
    update here can, as none changes an open ask's key.  [created_at] is the
    default of the column, an argument. *)
From S2P Require Import Prelude Text Vocab Ids Errors EventKinds Events Inputs Findings FindingLedger Asks FindingStore.

Module AskError.
Inductive t : Set :=
  | Refused (error : DomainError)
  | Finding (error : FindingError)
  | BlankAnswer
  | BlankQuestion
  | NotOpen (ask : AskId)
  | AlreadyClosed (ask : AskId)
  | NotAnswered (ask : AskId)
  | BareAction (action : string) (ask : AskId) (task : TaskId)
  | NotOfUpdate (kind : AskKind)
  | NoRequest (request : RequestId)
  | NoRecordedAsk
  | NotUnique.
Definition of_domain {A} (r : Result A) : result t A :=
  match r with Ok a => Ok a | Err e => Err (Refused e) end.
Definition of_finding {A} (r : result FindingError A) : result t A :=
  match r with Ok a => Ok a | Err e => Err (Finding e) end.
End AskError.
Abbreviation AskError := AskError.t.

(** What the transactions read of other components. *)
Module Routes.
Record t {P : Type} : Type := mk {
  (** [task_runs.status]. *)
  run_status : RunId → option RunStatus;
  (** A lease of the run that is not stale. *)
  run_leased : RunId → Z → bool;
  (** [tasks.status]. *)
  task_status : TaskId → option TaskStatus;
  (** [plan_requests]. *)
  request_exists : RequestId → bool;
  (** [request_sent_at_millis], of a JSON number of seconds. *)
  request_sent_at_millis : P → option Z;
  (** [draft_planners::route_of_port] is not [Person]; [answer_draft]. *)
  planner_delivers : Tables P → Ask → result FindingError bool;
  answer_draft : Tables P → Ask → result FindingError (option TaskId);
  (** [plan_answer_applies], [goal_answer_applies] and
      [correction_answer_applies]. *)
  plan_answer_applies : Tables P → Ask → string → result FindingError bool;
  goal_answer_applies : Tables P → Ask → string → result FindingError bool;
  correction_answer_applies : Tables P → Ask → string → result FindingError bool;
  (** A live supervisor that updates the binary, or to releases. *)
  applies_updates : Z → bool;
  applies_releases : Z → bool;
}.
Arguments t : clear implicits.
Arguments mk {P}.
End Routes.
Abbreviation Routes := Routes.t.

(** [AskQuery] of [src/src/application/ports/shared.rs]. *)
Module AskQuery.
Record t : Set := mk { all : bool; open : bool; role : option SessionRole }.
End AskQuery.

Definition TRIAGE_ASKER : string := "supervisor".
Definition DIAGNOSIS_ASKER : string := "replan-diagnosis".
Definition ANSWER_DRAFT_TASK_ID : string := "draft_task_id".
Definition UPDATE_ASK_RECORD : string := "record".
Definition INSTALL_SOURCE : string := "install".
Definition RELEASE_SOURCE : string := "release".

Definition request_ask_subject (id : RequestId) : string := format ["request:"; RequestId.display id].

Section store.
  Context {P : Type} `{Payload P} (routes : Routes P).
  Implicit Types (q : Tables P) (w : Connection) (ask : Ask) (e : RunEvent P).

(** ** Rows and events *)
Definition update_ask q (id : AskId) (change : Ask → Ask) : Tables P :=
  q <| Tables.asks := (λ a, if bool_decide (Ask.id a = id) then change a else a) <$> Tables.asks q |>.
Definition next_ask q : AskId :=
  AskId.new (1 + foldr Z.max 0 ((λ a, AskId.as_i64 (Ask.id a)) <$> Tables.asks q))%Z.
Definition read q (id : AskId) : result AskError Ask := AskError.of_finding (read_ask q id).
Definition unclosed q (wanted : Ask → bool) : list Ask :=
  List.filter (λ a, wanted a && is_none (Ask.closed_at a)) (Tables.asks q).
Definition of_run (run : RunId) ask : bool := bool_decide (Ask.run_id ask = Some run).
Definition of_kind (kind : AskKind) ask : bool := bool_decide (Ask.kind ask = kind).
Definition events_of_run q (run : RunId) : list (RunEvent P) :=
  List.filter (λ e, bool_decide (RunEvent.run_id e = Some run)) (Tables.log q).
Definition run_status (run : RunId) : result AskError RunStatus :=
  match Routes.run_status routes run with
  | Some status => Ok status
  | None => Err (AskError.Finding (FindingError.NoRun run))
  end.
Definition run_task q (run : RunId) : result AskError TaskId :=
  match List.find (λ row, bool_decide (row.1 = run)) (Tables.runs q) with
  | Some (_, task) => Ok task
  | None => Err (AskError.Finding (FindingError.NoRun run))
  end.

(** The key of the unique index [asks_open], of the open asks. *)
Definition OpenKey : Set := Z * string * string * AskReason * string * Z.
#[global] Instance open_key_eq_dec : EqDecision OpenKey.
Proof. unfold OpenKey. apply _. Defined.
Definition open_key ask : OpenKey :=
  (unwrap_or (TaskId.as_i64 <$> Ask.task_id ask) 0%Z, unwrap_or (RunId.as_str <$> Ask.run_id ask) "",
   AskKind.as_str (Ask.kind ask), Ask.reason_category ask, unwrap_or (Ask.subject ask) "",
   unwrap_or (FindingId.as_i64 <$> Ask.finding_id ask) 0%Z).
Definition asks_open_holds (asks : list Ask) : bool :=
  bool_decide (NoDup (open_key <$> List.filter Ask.is_open asks)).
Definition insert_row q ask : result AskError (Tables P) :=
  if asks_open_holds (Tables.asks q ++ [ask])
  then Ok (q <| Tables.asks := Tables.asks q ++ [ask] |>) else Err AskError.NotUnique.

Definition ask_event w q (task : option TaskId) (run : option RunId) (kind : EventKind) (payload : P) :
    result AskError (Tables P) :=
  _ ← AskError.of_domain (check_event_target kind task None);
  _ ← AskError.of_domain (check_run_has_task task run);
  Ok (insert_event w q task run None kind payload).
Definition ask_number (id : AskId) : P := of_number (AskId.as_i64 id).
Definition kind_text (kind : AskKind) : P := of_text (AskKind.as_str kind).
Definition names_ask (kind : EventKind) (id : AskId) e : bool :=
  RunEvent.is_kind e kind
  && bool_decide (number_of (RunEvent.payload e) "ask_id" = Some (AskId.as_i64 id)).

(** ** Opening *)

(** The task of a new ask: its run's, or the one it names. *)
Definition task_of_new q (new : NewAsk) : result AskError (option TaskId) :=
  match NewAsk.run_id new, NewAsk.task_id new with
  | Some run, _ => Some <$> run_task q run
  | None, Some task =>
      _ ← require (is_some (find_task q task)) (AskError.Finding (FindingError.NoTask task));
      Ok (Some task)
  | None, None => Ok None
  end.
Definition same_matter (new : NewAsk) (task : option TaskId) ask : bool :=
  bool_decide (unwrap_or (TaskId.as_i64 <$> Ask.task_id ask) 0%Z
               = unwrap_or (TaskId.as_i64 <$> task) 0%Z)
  && bool_decide (unwrap_or (RunId.as_str <$> Ask.run_id ask) ""
                  = unwrap_or (RunId.as_str <$> NewAsk.run_id new) "")
  && bool_decide (AskKind.as_str (Ask.kind ask) = AskKind.as_str (NewAsk.kind new))
  && bool_decide (unwrap_or (FindingId.as_i64 <$> Ask.finding_id ask) 0%Z
                  = unwrap_or (FindingId.as_i64 <$> NewAsk.finding_id new) 0%Z)
  && bool_decide (unwrap_or (RequestId.as_i64 <$> Ask.request_id ask) 0%Z
                  = unwrap_or (RequestId.as_i64 <$> NewAsk.request_id new) 0%Z)
  && Ask.is_open ask.
Definition new_ask_row q (new : NewAsk) (task : option TaskId) (created_at : Z) : Ask :=
  {| Ask.id := next_ask q;
     Ask.kind := NewAsk.kind new;
     Ask.task_id := task;
     Ask.run_id := NewAsk.run_id new;
     Ask.question := NewAsk.question new;
     Ask.options := NewAsk.offered_options new;
     Ask.answer := None;
     Ask.asked_by := NewAsk.asked_by new;
     Ask.reason_category := NewAsk.reason_category new;
     Ask.topics := normalize_topics (NewAsk.topics new);
     Ask.recommendation := NewAsk.recommended_option new;
     Ask.confidence := NewAsk.confidence new;
     Ask.subject := request_ask_subject <$> NewAsk.request_id new;
     Ask.affected := [];
     Ask.created_at := created_at;
     Ask.answered_at := None;
     Ask.closed_at := None;
     Ask.finding_id := NewAsk.finding_id new;
     Ask.request_id := NewAsk.request_id new;
     Ask.answered_by := None;
     Ask.option_index := None;
     Ask.answer_authority := None;
     Ask.answer_approval := None |}.
Definition opened_payload (row : Ask) : P :=
  let payload := object
    [("ask_id", ask_number (Ask.id row)); ("kind", kind_text (Ask.kind row));
     ("asked_by", of_text (Ask.asked_by row));
     ("reason_category", of_text (as_str (Ask.reason_category row)));
     ("recommendation", or_null of_text (Ask.recommendation row));
     ("confidence", or_null (λ c, of_text (as_str c)) (Ask.confidence row))] in
  let payload :=
    if bool_decide (Ask.topics row = []) then payload
    else set_field payload "topics" (texts (Ask.topics row)) in
  match Ask.request_id row with
  | Some request => set_field payload "request_id" (of_number (RequestId.as_i64 request))
  | None => payload
  end.
Definition insert_ask w q (new : NewAsk) (created_at : Z) : result AskError (Tables P * AskOutcome.t) :=
  task ← task_of_new q new;
  _ ← AskError.of_domain
        (check_ask_kind (NewAsk.kind new) task (NewAsk.run_id new) (NewAsk.reason_category new));
  _ ← AskError.of_domain (check_run_has_task task (NewAsk.run_id new));
  _ ← match NewAsk.finding_id new with
      | Some finding => _ ← AskError.of_finding (read_finding q finding); Ok tt
      | None => Ok tt
      end;
  _ ← match NewAsk.request_id new with
      | Some request =>
          require (Routes.request_exists routes request) (AskError.NoRequest request)
      | None => Ok tt
      end;
  match List.find (same_matter new task) (Tables.asks q) with
  | Some existing => Ok (q, AskOutcome.mk existing false)
  | None =>
      let row := new_ask_row q new task created_at in
      q ← insert_row q row;
      q ← ask_event w q task (NewAsk.run_id new) EventKind.AskOpened (opened_payload row);
      created ← read q (Ask.id row);
      Ok (q, AskOutcome.mk created true)
  end.
(** [SqliteQueue::ask]. *)
Definition open_ask w q (new : NewAsk) (created_at : Z) : result AskError (Tables P * AskOutcome.t) :=
  _ ← AskError.of_domain (NewAsk.validate new);
  insert_ask w q new created_at.

(** ** Holding the queue *)
Definition hold_matter (hold : NewHold) ask : bool :=
  of_kind AskKind.QueueHold ask
  && bool_decide (Ask.reason_category ask = NewHold.reason_category hold)
  && bool_decide (unwrap_or (Ask.subject ask) "" = unwrap_or (NewHold.subject hold) "").
Definition hold_row q (hold : NewHold) (affected : list string) (created_at : Z) : Ask :=
  {| Ask.id := next_ask q;
     Ask.kind := AskKind.QueueHold;
     Ask.task_id := None;
     Ask.run_id := None;
     Ask.question := NewHold.question_for (NewHold.question hold) affected;
     Ask.options := NewHold.options hold;
     Ask.answer := None;
     Ask.asked_by := NewHold.asked_by hold;
     Ask.reason_category := NewHold.reason_category hold;
     Ask.topics := [];
     Ask.recommendation := None;
     Ask.confidence := None;
     Ask.subject := NewHold.subject hold;
     Ask.affected := affected;
     Ask.created_at := created_at;
     Ask.answered_at := None;
     Ask.closed_at := None;
     Ask.finding_id := None;
     Ask.request_id := None;
     Ask.answered_by := None;
     Ask.option_index := None;
     Ask.answer_authority := None;
     Ask.answer_approval := None |}.
(** A run or job joins the open ask of its hold. *)
Definition join_hold w q (hold : NewHold) (task : option TaskId) ask (entry : string) :
    result AskError (Tables P * HoldOutcome.t) :=
  let affected := Ask.affected ask ++ [entry] in
  let question := NewHold.question_for (NewHold.base_question (Ask.question ask)) affected in
  let q := update_ask q (Ask.id ask)
             (λ a, a <| Ask.affected := affected |> <| Ask.question := question |>) in
  q ← ask_event w q task (NewHold.run_id hold) EventKind.AskUpdated
        (object
          [("ask_id", ask_number (Ask.id ask)); ("kind", kind_text (Ask.kind ask));
           ("reason_category", of_text (as_str (Ask.reason_category ask)));
           ("affected", texts affected); ("joined", of_text entry)]);
  joined ← read q (Ask.id ask);
  Ok (q, HoldOutcome.mk joined false true).
Definition open_hold w q (hold : NewHold) (created_at : Z) : result AskError (Tables P * HoldOutcome.t) :=
  let affected := match NewHold.entry hold with Some entry => [entry] | None => [] end in
  _ ← AskError.of_domain
        (check_ask_kind AskKind.QueueHold None None (NewHold.reason_category hold));
  let row := hold_row q hold affected created_at in
  q ← insert_row q row;
  q ← ask_event w q None None EventKind.AskOpened
        (object
          [("ask_id", ask_number (Ask.id row)); ("kind", kind_text AskKind.QueueHold);
           ("asked_by", of_text (NewHold.asked_by hold));
           ("reason_category", of_text (as_str (NewHold.reason_category hold)));
           ("affected", texts affected); ("recommendation", null); ("confidence", null)]);
  opened ← read q (Ask.id row);
  Ok (q, HoldOutcome.mk opened true (is_some (NewHold.entry hold))).
(** [SqliteQueue::hold]. *)
Definition hold w q (hold : NewHold) (created_at : Z) : result AskError (Tables P * HoldOutcome.t) :=
  _ ← AskError.of_domain (NewHold.validate hold);
  task ← match NewHold.run_id hold with Some run => Some <$> run_task q run | None => Ok None end;
  match List.find (λ a, hold_matter hold a && Ask.is_open a) (Tables.asks q), NewHold.entry hold with
  | Some ask, None => Ok (q, HoldOutcome.mk ask false false)
  | Some ask, Some entry =>
      if bool_decide (entry ∈ Ask.affected ask) then Ok (q, HoldOutcome.mk ask false false)
      else join_hold w q hold task ask entry
  | None, _ => open_hold w q hold created_at
  end.
(** The asks that hold a run's session: not the disk's. *)
Definition holds_run (run : RunId) ask : bool :=
  of_kind AskKind.QueueHold ask && negb (bool_decide (unwrap_or (Ask.subject ask) "" = DISK_SUBJECT))
  && bool_decide (RunId.as_str run ∈ Ask.affected ask).
Definition hold_of_run q (run : RunId) : option Ask :=
  List.find (λ a, holds_run run a && Ask.is_open a) (Tables.asks q).
Definition hold_unclosed q (run : RunId) : bool :=
  existsb (λ a, holds_run run a && is_none (Ask.closed_at a)) (Tables.asks q).

(** ** Answering *)

(** The option an answer chose, in the event: exactly, or with a reason. *)
Definition with_option ask (text : string) (payload : P) : P :=
  match option_index (Ask.options ask) text ≫= λ i, Ask.options ask !! Z.to_nat i with
  | Some option_ => set_field payload "option" (of_text option_)
  | None =>
      match reasoned_option (Ask.kind ask) (Ask.options ask) text with
      | Some option_ => set_field payload "reasoned_option" (of_text option_)
      | None => payload
      end
  end.
Definition approves ask (text : string) (answerer : Answerer) : bool :=
  negb (bool_decide (Answerer.authority answerer = AnswerAuthority.Runtime)) && answer_approves ask text.
(** The columns an answer writes. *)
Definition answered_row (now : Z) ask (text : string) (answerer : Answerer) (row : Ask) : Ask :=
  row <| Ask.answer := Some text |> <| Ask.answered_at := Some now |>
      <| Ask.answered_by := Some (Answerer.by_ answerer) |>
      <| Ask.option_index := option_index (Ask.options ask) text |>
      <| Ask.answer_authority := Some (Answerer.authority answerer) |>
      <| Ask.answer_approval := Some (approves ask text answerer) |>.
Definition write_answer w q ask (text : string) (answerer : Answerer) (payload : P) : Tables P * P :=
  (update_ask q (Ask.id ask) (answered_row (Connection.now w) ask text answerer),
   with_option ask text
     (set_field (set_field (set_field (set_field payload
        "answered_by" (of_text (Answerer.by_ answerer)))
        "authority" (of_text (as_str (Answerer.authority answerer))))
        "approval" (of_flag (approves ask text answerer)))
        "option_index" (or_null of_number (option_index (Ask.options ask) text)))).
Definition close_ask_row w q (id : AskId) : Tables P :=
  update_ask q id (λ a, a <| Ask.closed_at := Some (Connection.now w) |>).
Definition ask_closed_payload ask : P :=
  object [("ask_id", ask_number (Ask.id ask)); ("kind", kind_text (Ask.kind ask))].
Definition record_ask_closed w q ask : result AskError (Tables P) :=
  ask_event w q (Ask.task_id ask) (Ask.run_id ask) EventKind.AskClosed (ask_closed_payload ask).

Definition refuse_bare_action q ask (text : string) : result AskError unit :=
  match Ask.run_id ask with
  | None => Ok tt
  | Some run =>
      status ← run_status run;
      task ← run_task q run;
      match bare_action_answer (Ask.kind ask) (bool_decide (Ask.asked_by ask = TRIAGE_ASKER))
              (Some status) (Ask.options ask) text with
      | Some action => Err (AskError.BareAction action (Ask.id ask) task)
      | None => Ok tt
      end
  end.

(** Whether an automatic update's failure can be answered to a supervisor
    now: a person's install's is not, a release's is a release supervisor's. *)
Definition update_answer_applies w q ask (text : string) : bool :=
  let source := find_last (names_ask EventKind.UpdateFailed (Ask.id ask)) (Tables.log q)
                  ≫= λ e, text_of (RunEvent.payload e) "source" in
  negb (bool_decide (source = Some INSTALL_SOURCE))
  && bool_decide (trim text ∈ UPDATE_FAILED_OPTIONS)
  && (if bool_decide (source = Some RELEASE_SOURCE)
      then Routes.applies_releases routes (Connection.now w)
      else Routes.applies_updates routes (Connection.now w)).

(** What the event says of who delivers the answer: [runtime_delivers]. *)
Definition with_delivery w q ask (text : string) (payload : P) : result AskError P :=
  let told (delivers : bool) := set_field payload "runtime_delivers" (of_flag delivers) in
  match Ask.kind ask, Ask.run_id ask with
  | AskKind.WorkerQuestion, Some run =>
      status ← run_status run;
      Ok (told (bool_decide (status = RunStatus.Running)
                || Routes.run_leased routes run (Connection.now w)
                   && session_takes_answers (Routes.request_sent_at_millis routes) status
                        (events_of_run q run) (Ask.created_at ask)))
  | AskKind.ApproveLanding, Some run =>
      status ← run_status run;
      Ok (told (bool_decide (status = RunStatus.AwaitingIntegration)
                && is_some (LandingAnswer.accepted text (Ask.options ask))))
  | AskKind.Decide, run =>
      if bool_decide (Ask.asked_by ask = TRIAGE_ASKER) then
        match run with
        | Some run =>
            status ← run_status run;
            Ok (told ((bool_decide (status = RunStatus.Failed) || bool_decide (status = RunStatus.Interrupted))
                      && is_some (chosen_option (Ask.options ask) text)))
        | None => Ok payload
        end
      else if bool_decide (Ask.asked_by ask = DIAGNOSIS_ASKER) then
        Ok (told (is_some (chosen_option (Ask.options ask) text)))
      else Ok payload
  | AskKind.PlannerQuestion, _ =>
      let answered := ask <| Ask.answer := Some text |> in
      delivers ← AskError.of_finding (Routes.planner_delivers routes q answered);
      draft ← (if delivers : bool then Ok None
               else AskError.of_finding (Routes.answer_draft routes q answered));
      Ok (match draft with
          | Some draft => set_field (told delivers) ANSWER_DRAFT_TASK_ID (of_number (TaskId.as_i64 draft))
          | None => told delivers
          end)
  | AskKind.ApprovePlan, _ =>
      told <$> AskError.of_finding (Routes.plan_answer_applies routes q ask text)
  | AskKind.ApproveGoal, _ =>
      told <$> AskError.of_finding (Routes.goal_answer_applies routes q ask text)
  | AskKind.CorrectGoal, _ =>
      told <$> AskError.of_finding (Routes.correction_answer_applies routes q ask text)
  | AskKind.QueueHold, _ => Ok (told (hold_answer_applies (Ask.options ask) text))
  | AskKind.UpdateFailed, _ => Ok (told (update_answer_applies w q ask text))
  | AskKind.ApproveRelease, _ =>
      Ok (told (bool_decide (trim text ∈ APPROVE_RELEASE_OPTIONS)
                && Routes.applies_releases routes (Connection.now w)))
  | _, _ => Ok payload
  end.

(** The decisions whose whole text a later run or session may be told. *)
Definition answer_told ask : bool :=
  bool_decide (Ask.kind ask ∈ [AskKind.WorkerQuestion; AskKind.Decide; AskKind.Stalled])
  && is_some (Ask.run_id ask).
(** An answer applied to a finding: the observer's ask is done with it. *)
Definition answer_applied w q ask (applied : AppliedAnswer.t) (payload : P) :
    result AskError (Tables P) :=
  let payload := set_field (set_field (set_field payload
                   "finding_id" (of_number (FindingId.as_i64 (AppliedAnswer.finding applied))))
                   "finding_applied" (of_text (AppliedAnswer.action applied)))
                   "runtime_delivers" (of_flag true) in
  q ← ask_event w q (Ask.task_id ask) (Ask.run_id ask) EventKind.AskAnswered payload;
  if of_kind AskKind.Blocked ask then record_ask_closed w (close_ask_row w q (Ask.id ask)) ask else Ok q.
Definition answer_as w q (id : AskId) (text : string) (answerer : Answerer) :
    result AskError (Tables P * Ask) :=
  _ ← require (negb (is_blank text)) AskError.BlankAnswer;
  ask ← read q id;
  _ ← require (Ask.is_open ask) (AskError.NotOpen id);
  _ ← refuse_bare_action q ask text;
  let payload := object
    [("ask_id", ask_number id); ("kind", kind_text (Ask.kind ask));
     ("reason_category", of_text (as_str (Ask.reason_category ask)))] in
  let '(q, payload) := write_answer w q ask text answerer payload in
  let payload := if answer_told ask then set_field payload "answer" (of_text text) else payload in
  applied ← AskError.of_finding (apply_answer w q ask text (Answerer.by_ answerer));
  let '(q, applied) := applied in
  q ← match applied with
      | Some applied => answer_applied w q ask applied payload
      | None =>
          payload ← with_delivery w q ask text payload;
          ask_event w q (Ask.task_id ask) (Ask.run_id ask) EventKind.AskAnswered payload
      end;
  answered ← read q id;
  Ok (q, answered).
(** [SqliteQueue::answer]. *)
Definition answer w q (id : AskId) (text : string) : result AskError (Tables P * Ask) :=
  answer_as w q id text Answerer.PERSON.

(** ** Closing *)
Definition close_ask w q (id : AskId) : result AskError (Tables P * Ask) :=
  ask ← read q id;
  _ ← require (is_none (Ask.closed_at ask)) (AskError.AlreadyClosed id);
  _ ← require (is_some (Ask.answered_at ask)) (AskError.NotAnswered id);
  q ← record_ask_closed w (close_ask_row w q id) ask;
  closed ← read q id;
  Ok (q, closed).
Definition deliver_ask_in w q (id : AskId) (workspace : string) : result AskError (Tables P * Ask) :=
  ask ← read q id;
  if is_some (Ask.closed_at ask) then Ok (q, ask)
  else
    _ ← require (is_some (Ask.answered_at ask)) (AskError.NotAnswered id);
    q ← ask_event w (close_ask_row w q id) (Ask.task_id ask) (Ask.run_id ask) EventKind.AskDelivered
          (object [("ask_id", ask_number id); ("workspace_id", of_text workspace)]);
    closed ← read q id;
    Ok (q, closed).

(** The runtime withdraws an open ask with an answer of its own; the answer of
    an answered one is applied by the close. *)
Definition withdrawn_payload ask : P :=
  object [("ask_id", ask_number (Ask.id ask)); ("kind", kind_text (Ask.kind ask));
          ("runtime_closed", of_flag true)].
Definition close_by_runtime w q ask (text : string) : result AskError (Tables P) :=
  q ← (if Ask.is_open ask then
         let '(q, payload) := write_answer w q ask text Answerer.RUNTIME (withdrawn_payload ask) in
         ask_event w q (Ask.task_id ask) (Ask.run_id ask) EventKind.AskAnswered payload
       else record_ask_closed w q ask);
  Ok (close_ask_row w q (Ask.id ask)).
Definition discard_by_runtime w q ask (reason note : string) : result AskError (Tables P) :=
  let payload := object
    [("ask_id", ask_number (Ask.id ask)); ("kind", kind_text (Ask.kind ask));
     ("reason", of_text reason); ("note", of_text note); ("discarded", of_flag true)] in
  q ← (if Ask.is_open ask then
         let '(q, payload) := write_answer w q ask note Answerer.RUNTIME
                                (set_field payload "runtime_closed" (of_flag true)) in
         ask_event w q (Ask.task_id ask) (Ask.run_id ask) EventKind.AskAnswered payload
       else ask_event w q (Ask.task_id ask) (Ask.run_id ask) EventKind.AskClosed payload);
  Ok (close_ask_row w q (Ask.id ask)).

(** The closes of several asks, read before the first is closed. *)
Definition close_each (close : Tables P → Ask → result AskError (Tables P)) q (asks : list Ask) :
    result AskError (Tables P * list Ask) :=
  fold_result (λ '(q, closed) ask,
    q ← close q ask; row ← read q (Ask.id ask); Ok (q, closed ++ [row])) (q, []) asks.
Definition close_asks_in w q (run : RunId) (task : option TaskId) (kind : AskKind) (text : string) :
    result AskError (Tables P * list Ask) :=
  let about a := of_run run a
                 || is_none (Ask.run_id a) && is_some task && bool_decide (Ask.task_id a = task) in
  close_each (λ q ask, close_by_runtime w q ask text) q (unclosed q (λ a, about a && of_kind kind a)).
Definition close_stuck_exit_asks w q (run : RunId) (text : string) :=
  close_asks_in w q run None AskKind.StuckExit text.
Definition close_answer_prompt_asks w q (run : RunId) (text : string) :=
  close_asks_in w q run None AskKind.AnswerPrompt text.
Definition close_stalled_asks w q (run : RunId) (text : string) :=
  close_asks_in w q run None AskKind.Stalled text.
Definition close_approve_landing_asks w q (run : RunId) (text : string) :=
  close_asks_in w q run None AskKind.ApproveLanding text.
Definition close_blocked_asks w q (run : RunId) (task : TaskId) (text : string) :=
  close_asks_in w q run (Some task) AskKind.Blocked text.
Definition close_run_asks w q (run : RunId) (text : string) : result AskError (Tables P * list Ask) :=
  close_each (λ q ask, close_by_runtime w q ask text) q (unclosed q (of_run run)).
Definition close_request_asks_in w q (request : RequestId) (text : string) :
    result AskError (Tables P * list AskId) :=
  let asks := unclosed q (λ a, bool_decide (Ask.request_id a = Some request)) in
  q ← fold_result (λ q ask, close_by_runtime w q ask text) q asks;
  Ok (q, Ask.id <$> asks).
(** What a landing's ask is closed with: its run's and task's status say. *)
Definition ended_landing_answer q (task : option TaskId) ask : option string :=
  if negb (of_kind AskKind.ApproveLanding ask) then None
  else
    run ← Ask.run_id ask;
    status ← Routes.run_status routes run;
    row ← List.find (λ row, bool_decide (row.1 = run)) (Tables.runs q);
    task_status ← Routes.task_status routes row.2;
    if is_none_or task (λ task, bool_decide (row.2 = task))
    then ended_landing_ask_answer status task_status else None.
Definition close_ended_landing_asks w q (task : option TaskId) : result AskError (Tables P * list Ask) :=
  close_each
    (λ now_q ask, match ended_landing_answer q task ask with
                  | Some text => close_by_runtime w now_q ask text
                  | None => Ok now_q
                  end)
    q (unclosed q (λ a, is_some (ended_landing_answer q task a))).
(** A hold ask's close names no task and no run, as the ask names none. *)
Definition close_hold w q ask (text : string) : result AskError (Tables P) :=
  q ← (if Ask.is_open ask then
         let '(q, payload) := write_answer w q ask text Answerer.RUNTIME (withdrawn_payload ask) in
         ask_event w q None None EventKind.AskAnswered payload
       else ask_event w q None None EventKind.AskClosed (ask_closed_payload ask));
  Ok (close_ask_row w q (Ask.id ask)).
Definition close_hold_asks w q (reason : AskReason) (subject : option string) (text : string) :
    result AskError (Tables P * list Ask) :=
  close_each (λ q ask, close_hold w q ask text) q
    (unclosed q (λ a, of_kind AskKind.QueueHold a && bool_decide (Ask.reason_category a = reason)
                      && bool_decide (unwrap_or (Ask.subject a) "" = unwrap_or subject ""))).

(** ** The latest finding of a recheck, in the questions of a run *)
Definition note_one w (run : RunId) (note why : string) (noted : Tables P * list Ask) ask :
    result AskError (Tables P * list Ask) :=
  let '(q, done) := noted in
  let question := noted_question (Ask.question ask) note in
  if bool_decide (question = Ask.question ask) then Ok noted
  else
    q ← ask_event w (update_ask q (Ask.id ask) (λ a, a <| Ask.question := question |>))
          (Ask.task_id ask) (Some run) EventKind.AskUpdated
          (object [("ask_id", ask_number (Ask.id ask)); ("kind", kind_text (Ask.kind ask));
                   ("why", of_text why)]);
    row ← read q (Ask.id ask);
    Ok (q, done ++ [row]).
Definition note_on_asks w q (run : RunId) (note why : string) : result AskError (Tables P * list Ask) :=
  fold_result (note_one w run note why) (q, []) (unclosed q (of_run run)).

(** ** The asks of the automatic update *)
Definition by_install (source : option string) : bool := bool_decide (source = Some INSTALL_SOURCE).
Definition opened_source q (id : AskId) : option string :=
  find_last (names_ask EventKind.AskOpened id) (Tables.log q) ≫= λ e,
    text_of (RunEvent.payload e) "source".
Definition detail_text (details : list (string * P)) (key : string) : option string :=
  entry ← List.find (λ entry, String.eqb entry.1 key) details; as_text entry.2.
(** The ask a record of the same identity opened. *)
Definition recorded_ask q (details : list (string * P)) : result AskError (option Ask) :=
  match detail_text details UPDATE_ASK_RECORD with
  | None => Ok None
  | Some record =>
      match List.find (λ e, RunEvent.is_kind e EventKind.AskOpened
                            && text_is (RunEvent.payload e) UPDATE_ASK_RECORD record) (Tables.log q) with
      | None => Ok None
      | Some e =>
          match number_of (RunEvent.payload e) "ask_id" with
          | Some id => Some <$> read q (AskId.new id)
          | None => Err AskError.NoRecordedAsk
          end
      end
  end.
Definition supersede w q ask : result AskError (Tables P) :=
  let '(q, payload) := write_answer w q ask "superseded" Answerer.RUNTIME (withdrawn_payload ask) in
  ask_event w (close_ask_row w q (Ask.id ask)) None None EventKind.AskAnswered payload.
Definition update_row q (kind : AskKind) (question : string) (options : list string) (asked_by : string)
    (subject : option string) (created_at : Z) : Ask :=
  {| Ask.id := next_ask q;
     Ask.kind := kind;
     Ask.task_id := None;
     Ask.run_id := None;
     Ask.question := question;
     Ask.options := options;
     Ask.answer := None;
     Ask.asked_by := asked_by;
     Ask.reason_category := AskReason.Scope;
     Ask.topics := [];
     Ask.recommendation := None;
     Ask.confidence := None;
     Ask.subject := subject;
     Ask.affected := [];
     Ask.created_at := created_at;
     Ask.answered_at := None;
     Ask.closed_at := None;
     Ask.finding_id := None;
     Ask.request_id := None;
     Ask.answered_by := None;
     Ask.option_index := None;
     Ask.answer_authority := None;
     Ask.answer_approval := None |}.
Definition with_details (payload : P) (details : list (string * P)) : P :=
  foldl (λ payload entry, if is_some (field payload entry.1) then payload
                          else set_field payload entry.1 entry.2) payload details.
Definition open_new_update_ask w q (kind : AskKind) (question : string) (options : list string)
    (asked_by : string) (subject : option string) (details : list (string * P)) (created_at : Z) :
    result AskError (Tables P * Ask) :=
  q ← fold_result (supersede w) q
        (List.filter (λ a, of_kind kind a && is_none (Ask.task_id a) && Ask.is_open a
           && Bool.eqb (by_install (opened_source q (Ask.id a)))
                (by_install (detail_text details "source"))) (Tables.asks q));
  let row := update_row q kind question options asked_by subject created_at in
  q ← insert_row q row;
  q ← ask_event w q None None EventKind.AskOpened
        (with_details
          (object
            [("ask_id", ask_number (Ask.id row)); ("kind", kind_text kind);
             ("asked_by", of_text asked_by); ("reason_category", of_text (as_str AskReason.Scope));
             ("recommendation", null); ("confidence", null)]) details);
  opened ← read q (Ask.id row);
  Ok (q, opened).
Definition open_update_ask w q (kind : AskKind) (question : string) (options : list string)
    (asked_by : string) (subject : option string) (details : list (string * P)) (created_at : Z) :
    result AskError (Tables P * Ask) :=
  _ ← require (negb (is_blank question)) AskError.BlankQuestion;
  _ ← require (AskKind.is_update kind) (AskError.NotOfUpdate kind);
  _ ← AskError.of_domain (check_ask_kind kind None None AskReason.Scope);
  recorded ← recorded_ask q details;
  match recorded with
  | Some ask => Ok (q, ask)
  | None => open_new_update_ask w q kind question options asked_by subject details created_at
  end.
Definition close_installed_update_ask w q (id : AskId) (text installed : string) :
    result AskError (Tables P * option Ask) :=
  ask ← read q id;
  if negb (of_kind AskKind.UpdateFailed ask) || negb (Ask.is_open ask) then Ok (q, None)
  else
    let '(q, payload) := write_answer w q ask text Answerer.RUNTIME
      (object [("ask_id", ask_number id); ("kind", kind_text (Ask.kind ask));
               ("runtime_closed", of_flag true); ("installed_commit", of_text installed)]) in
    q ← ask_event w (close_ask_row w q id) None None EventKind.AskAnswered payload;
    closed ← read q id;
    Ok (q, Some closed).

(** ** Reads *)
Definition asks q (query : AskQuery.t) : list Ask :=
  List.filter (λ a,
    (AskQuery.all query || is_none (Ask.closed_at a))
    && (negb (AskQuery.open query) || is_none (Ask.answered_at a))
    && is_none_or (AskQuery.role query) (λ role, bool_decide (Ask.waits_for a = Some role)))
    (Tables.asks q).
Definition ask_opened_payload q (id : AskId) : P :=
  unwrap_or (RunEvent.payload <$> find_last (names_ask EventKind.AskOpened id) (Tables.log q)) null.
Definition answered_unclosed ask : bool := is_some (Ask.answered_at ask).
Definition update_answers q (kind : AskKind) : list Ask :=
  unclosed q (λ a, of_kind kind a && is_none (Ask.task_id a) && answered_unclosed a).
Definition undelivered_answers q (run : RunId) : list Ask :=
  unclosed q (λ a, of_run run a && of_kind AskKind.WorkerQuestion a && answered_unclosed a).
Definition has_unclosed_ask q (run : RunId) (kind : AskKind) : bool :=
  negb (bool_decide (unclosed q (λ a, of_run run a && of_kind kind a) = [])).
Definition has_unclosed_worker_question q (run : RunId) : bool :=
  has_unclosed_ask q run AskKind.WorkerQuestion.
Definition has_unclosed_worker_question_since q (run : RunId) (created_from : Z) : bool :=
  negb (bool_decide (unclosed q (λ a, of_run run a && of_kind AskKind.WorkerQuestion a
                                      && (created_from <=? Ask.created_at a)%Z) = [])).
Definition last_worker_question_closed q (run : RunId) : option Z :=
  foldl (λ latest at_, Some (match latest with Some l => Z.max l at_ | None => at_ end)) None
    (omap Ask.closed_at (List.filter (λ a, of_run run a && of_kind AskKind.WorkerQuestion a) (Tables.asks q))).
Definition unclosed_stalled_ask q (run : RunId) : option Ask :=
  head (unclosed q (λ a, of_run run a && of_kind AskKind.Stalled a)).
Definition landing_answers q : list Ask :=
  unclosed q (λ a, of_kind AskKind.ApproveLanding a && is_some (Ask.run_id a) && answered_unclosed a).
End store.
