(* ===== verification/AskRows.v ===== *)
(** * What a transaction on asks leaves

    The rows of asks (AskStore) and the events that name them, and the three
    ways a transaction changes them: an ask is opened, an open one answered, or
    a row changed beside its answer ([change]).  Each keeps the invariant
    [asks_wf]: one open ask of a matter, rows answered once and closed once, and
    an event of each opening and answer.  The transactions of other components
    leave asks as they are ([quiet]), but for the finding an answer names on
    its ask ([apply_answer_asks]). *)
From S2P Require Import Prelude Text Vocab Ids Errors EventKinds Events Inputs Findings FindingLedger Asks FindingStore FindingTable AskStore.

Module AskRowProofs.
Section proofs.
  Context {P : Type} `{Payload P} `{!PayloadLaws P}.
  Implicit Types (q : Tables P) (w : Connection) (a ask : Ask) (e : RunEvent P).

(** ** The asks the events name *)
Definition naming (kind : EventKind) e : option Z :=
  if RunEvent.is_kind e kind then number_of (RunEvent.payload e) "ask_id" else None.
Definition named (kind : EventKind) q : list Z := omap (naming kind) (Tables.log q).
Definition opened q : list Z := named EventKind.AskOpened q.
Definition answered q : list Z := named EventKind.AskAnswered q.
Definition number ask : Z := AskId.as_i64 (Ask.id ask).

Lemma number_inj a1 a2 : number a1 = number a2 → Ask.id a1 = Ask.id a2.
Proof. unfold number. destruct (Ask.id a1), (Ask.id a2). simpl. by intros ->. Qed.

(** *** A payload that names an ask *)
Definition tells (n : Z) (payload : P) : Prop :=
  is_object payload = true ∧ number_of payload "ask_id" = Some n.
Lemma tells_object n fields : tells n (object (("ask_id", of_number n) :: fields)).
Proof.
  split; [apply is_object_object|]. unfold number_of. rewrite field_object. simpl.
  apply as_number_of_number.
Qed.
Lemma tells_set_field n payload key value :
  key ≠ "ask_id" → tells n payload → tells n (set_field payload key value).
Proof.
  intros Hkey [Hobject Hn]. split; [by apply is_object_set_field|].
  unfold number_of. rewrite field_set_field by done.
  destruct (String.eqb_spec key "ask_id"); [done|exact Hn].
Qed.
Lemma tells_details n payload details : tells n payload → tells n (with_details payload details).
Proof.
  unfold with_details. revert payload. induction details as [|[key value] details IH]; intros payload Htells; [done|].
  simpl. apply IH. destruct (is_some (field payload key)) eqn:Hfield; [done|].
  apply tells_set_field; [|done]. intros ->. destruct Htells as [_ Hn]. unfold number_of in Hn.
  by destruct (field payload "ask_id").
Qed.
Ltac tells :=
  repeat first [apply tells_object | assumption | (apply tells_set_field; [discriminate|])].

(** ** What other transactions leave *)

(** Nothing of an ask, and no opening or answer of one. *)
Record quiet q q' : Prop := {
  quiet_asks : Tables.asks q' = Tables.asks q;
  quiet_opened : opened q' = opened q;
  quiet_answered : answered q' = answered q;
}.
#[export] Instance quiet_preorder : PreOrder quiet.
Proof. split; [by split|]. intros q1 q2 q3 [] []. split; congruence. Qed.

Definition ask_kinds : list EventKind := [EventKind.AskOpened; EventKind.AskAnswered].
Lemma new_event_is_kind id task goal run kind (payload : P) at_ actor kind' :
  RunEvent.is_kind (RunEvent.mk id task goal run (RecordedKind.Known kind) payload at_ actor) kind'
  = bool_decide (kind = kind').
Proof.
  unfold RunEvent.is_kind, RecordedKind.is_kind. apply bool_decide_ext. simpl. naive_solver.
Qed.
Lemma insert_event_named w q task run goal kind payload kind' :
  named kind' (insert_event w q task run goal kind payload)
  = named kind' q ++ (if bool_decide (kind = kind') then option_list (number_of payload "ask_id") else []).
Proof.
  unfold named, insert_event. simpl. rewrite omap_app. f_equal. simpl.
  unfold naming. rewrite new_event_is_kind. simpl.
  destruct (bool_decide (kind = kind')); [|done]. by destruct (number_of payload "ask_id").
Qed.
Lemma insert_event_quiet w q task run goal kind payload :
  kind ∉ ask_kinds → quiet q (insert_event w q task run goal kind payload).
Proof.
  intros Hkind. unfold opened, answered. split; [done|unfold opened|unfold answered];
    rewrite insert_event_named, bool_decide_eq_false_2, app_nil_r; try done; intros ->; apply Hkind; set_solver.
Qed.
Lemma finding_event_quiet w q f kind payload q' :
  kind ∉ ask_kinds → finding_event w q f kind payload = Ok q' → quiet q q'.
Proof. intros Hkind Hevent. unfold finding_event in Hevent. res_inv. by apply insert_event_quiet. Qed.
Lemma write_findings_quiet q rows q' : write_findings q rows = Ok q' → quiet q q'.
Proof. unfold write_findings. destruct (index_holds rows); [|done]. by intros [= <-]. Qed.
Lemma update_finding_quiet q id change q' : update_finding q id change = Ok q' → quiet q q'.
Proof. apply write_findings_quiet. Qed.

Ltac quiet_step :=
  match goal with
  | H : Ok _ = Ok _ |- _ => injection H as <-
  | H : Ok _ = Ok _ |- _ => injection H as <- <-
  | H : context [if ?b then _ else _] |- _ =>
      lazymatch type of H with _ = Ok _ => destruct b end
  | H : _ ≫= _ = Ok _ |- _ => apply bind_Ok in H as (? & ? & ?)
  | H : update_finding _ _ _ = Ok _ |- _ => apply update_finding_quiet in H
  | H : write_findings _ _ = Ok _ |- _ => apply write_findings_quiet in H
  | H : finding_event _ _ _ _ _ = Ok _ |- _ =>
      apply finding_event_quiet in H; [|unfold ask_kinds; set_solver]
  end.
Ltac quiet := repeat quiet_step; first [done | etrans; [eassumption|]; first [done|eassumption|etrans; eassumption]].

Lemma record_in_quiet w q new q' outcome : record_in w q new = Ok (q', outcome) → quiet q q'.
Proof.
  unfold record_in. intros Hrecord. apply bind_Ok in Hrecord as (_ & _ & Hrecord).
  apply bind_Ok in Hrecord as (ids & _ & Hrecord). apply bind_Ok in Hrecord as (_ & _ & Hrecord).
  destruct (existing_finding q (problem_of new ids)) as [existing|].
  - unfold record_merged in Hrecord. destruct (merge _ _ _) as [update|]; quiet.
  - unfold record_created in Hrecord. quiet.
Qed.
Lemma set_status_covered_quiet w q id to reason by_ covered q' f :
  set_status_covered_in w q id to reason by_ covered = Ok (q', f) → quiet q q'.
Proof. unfold set_status_covered_in. intros Hstatus. quiet. Qed.
Lemma mark_answered_quiet w q ask id reason by_ q' :
  mark_answered w q ask id reason by_ = Ok q' → quiet q q'.
Proof.
  unfold mark_answered. intros Hmark. apply bind_Ok in Hmark as (current & _ & Hmark).
  destruct (mark_for_proposal _ _ _) as [marked|]; quiet.
Qed.

(** An answer applied to its finding names, at most, that finding on the ask. *)
Definition found (id : AskId) (finding : option FindingId) q : Tables P :=
  match finding with
  | Some finding => update_ask q id (λ a, a <| Ask.finding_id := Some finding |>)
  | None => q
  end.
Lemma apply_answer_asks w q ask text by_ q' applied :
  apply_answer w q ask text by_ = Ok (q', applied) →
  opened q' = opened q ∧ answered q' = answered q
  ∧ ∃ finding, Tables.asks q' = Tables.asks (found (Ask.id ask) finding q)
    ∧ (finding ≠ None → AskKind.offers_finding_answers (Ask.kind ask) = true).
Proof.
  unfold apply_answer. destruct (AskKind.offers_finding_answers (Ask.kind ask)) eqn:Hoffers; simpl.
  2:{ intros [= <- <-]. split_and!; [done..|]. by exists None. }
  assert (∀ q1 q2, quiet q1 q2 → opened q2 = opened q1 ∧ answered q2 = answered q1
            ∧ ∃ finding, Tables.asks q2 = Tables.asks (found (Ask.id ask) finding q1) ∧ (finding ≠ None → true = true))
    as Hquiet.
  { intros q1 q2 []. split_and!; [done..|]. by exists None. }
  destruct (FindingAnswer.parse text) as [[why|why]|]; [| |intros [= <- <-]; by apply Hquiet].
  - destruct (negb _); [intros [= <- <-]; by apply Hquiet|]. intros Happly.
    apply bind_Ok in Happly as ([q1 id] & Hfound & Happly).
    apply bind_Ok in Happly as (q2 & Hmark & [= <- <-]). apply mark_answered_quiet in Hmark as [Hasks Ho Ha].
    unfold finding_to_mark in Hfound. destruct (Ask.finding_id ask) as [own|].
    + injection Hfound as <- <-. apply Hquiet. by split.
    + apply bind_Ok in Hfound as ([q0 new] & Hrecord & [= <- <-]). unfold record_from_ask in Hrecord.
      apply bind_Ok in Hrecord as ([q0' outcome] & Hrecord & [= <- <-]).
      apply record_in_quiet in Hrecord as [Hasks0 Ho0 Ha0].
      split_and!; [by rewrite Ho|by rewrite Ha|].
      exists (Some (Finding.id (FindingOutcome.finding outcome))). split; [|done].
      rewrite Hasks. simpl. by rewrite Hasks0.
  - destruct (negb _); [intros [= <- <-]; by apply Hquiet|].
    destruct (Ask.finding_id ask) as [own|]; [|intros [= <- <-]; by apply Hquiet].
    intros Happly. apply bind_Ok in Happly as (current & _ & Happly).
    apply bind_Ok in Happly as (q2 & Hdone & [= <- <-]).
    destruct (bool_decide _); [injection Hdone as <-; by apply Hquiet|].
    apply bind_Ok in Hdone as ([q3 f] & Hstatus & [= <-]). apply Hquiet.
    by eapply set_status_covered_quiet.
Qed.

Lemma ask_event_spec w q task run kind payload q' n :
  ask_event w q task run kind payload = Ok q' → tells n payload →
  Tables.asks q' = Tables.asks q
  ∧ (opened q' = opened q ++ if bool_decide (kind = EventKind.AskOpened) then [n] else [])
  ∧ answered q' = answered q ++ if bool_decide (kind = EventKind.AskAnswered) then [n] else [].
Proof.
  intros Hevent [_ Hn]. unfold ask_event in Hevent. res_inv. split_and!; [done|..];
    unfold opened, answered; rewrite insert_event_named, Hn; done.
Qed.

(** ** Rows *)

(** What an answer leaves in a row. *)
Definition answered_as ask (text : string) (answerer : Answerer) : Prop :=
  Ask.answer ask = Some text ∧ Ask.answered_by ask = Some (Answerer.by_ answerer)
  ∧ Ask.answer_authority ask = Some (Answerer.authority answerer)
  ∧ Ask.option_index ask = option_index (Ask.options ask) text
  ∧ Ask.answer_approval ask = Some (approves ask text answerer).
(** What an open ask is about, by its kind. *)
Definition open_shape ask : Prop :=
  (Ask.kind ask = AskKind.QueueHold →
     Ask.task_id ask = None ∧ Ask.run_id ask = None ∧ Ask.finding_id ask = None
     ∧ NoDup (Ask.affected ask)
     ∧ ∃ base, Ask.question ask = NewHold.question_for base (Ask.affected ask))
  ∧ (Ask.kind ask ≠ AskKind.QueueHold → AskKind.is_update (Ask.kind ask) = false →
     Ask.subject ask = request_ask_subject <$> Ask.request_id ask).
Record row_ok ask : Prop := {
  row_known : AskKind.is_known (Ask.kind ask) = true;
  row_answer : match Ask.answered_at ask with
               | Some _ => ∃ text answerer, answered_as ask text answerer
               | None => Ask.closed_at ask = None ∧ Ask.answer ask = None
                         ∧ Ask.answer_approval ask = None
               end;
  row_shape : Ask.is_open ask = true → open_shape ask;
}.
Lemma closed_answered ask : row_ok ask → is_some (Ask.closed_at ask) = true → is_some (Ask.answered_at ask) = true.
Proof.
  intros [_ Hanswer _] Hclosed. destruct (Ask.answered_at ask); [done|].
  destruct Hanswer as [Hnone _]. by rewrite Hnone in Hclosed.
Qed.
Lemma is_open_iff ask : row_ok ask → Ask.is_open ask = true ↔ Ask.answered_at ask = None.
Proof.
  intros Hok. unfold Ask.is_open. pose proof (closed_answered ask Hok) as Hclosed.
  destruct (Ask.answered_at ask), (Ask.closed_at ask); simpl in *; naive_solver.
Qed.

(** What never changes of a row, and what stands once written. *)
Record stands ask ask' : Prop := {
  stands_matter : (Ask.id ask', Ask.kind ask', Ask.task_id ask', Ask.run_id ask', Ask.options ask',
                   Ask.asked_by ask', Ask.reason_category ask', Ask.request_id ask', Ask.created_at ask')
                  = (Ask.id ask, Ask.kind ask, Ask.task_id ask, Ask.run_id ask, Ask.options ask,
                     Ask.asked_by ask, Ask.reason_category ask, Ask.request_id ask, Ask.created_at ask);
  stands_answer : is_some (Ask.answered_at ask) = true →
    (Ask.answered_at ask', Ask.answer ask', Ask.answered_by ask', Ask.answer_authority ask',
     Ask.option_index ask', Ask.answer_approval ask')
    = (Ask.answered_at ask, Ask.answer ask, Ask.answered_by ask, Ask.answer_authority ask,
       Ask.option_index ask, Ask.answer_approval ask);
  stands_closed : is_some (Ask.closed_at ask) = true → Ask.closed_at ask' = Ask.closed_at ask;
}.
#[export] Instance stands_preorder : PreOrder stands.
Proof.
  split; [by split|]. intros a1 a2 a3 [Hm1 Ha1 Hc1] [Hm2 Ha2 Hc2]. split; [congruence|..].
  - intros Hs. specialize (Ha1 Hs). rewrite <-Ha1. apply Ha2. by injection Ha1 as -> _.
  - intros Hs. specialize (Hc1 Hs). rewrite <-Hc1. apply Hc2. by rewrite Hc1.
Qed.
Lemma stands_id ask ask' : stands ask ask' → Ask.id ask' = Ask.id ask.
Proof. intros [Hm _ _]. congruence. Qed.

(** The columns written after an answer: the close, and the finding named. *)
Definition afterwards (closed : option Z) (finding : option FindingId) ask : Ask :=
  let ask := match finding with Some f => ask <| Ask.finding_id := Some f |> | None => ask end in
  match closed with Some at_ => ask <| Ask.closed_at := Some at_ |> | None => ask end.

Lemma answered_row_spec now ask text answerer closed finding :
  row_ok ask → Ask.is_open ask = true →
  let ask' := afterwards closed finding (answered_row now ask text answerer ask) in
  row_ok ask' ∧ stands ask ask' ∧ Ask.answered_at ask' = Some now ∧ Ask.is_open ask' = false
  ∧ answered_as ask' text answerer ∧ Ask.closed_at ask' = closed.
Proof.
  intros [Hknown Hanswer Hshape] Hopen ask'. unfold Ask.is_open in Hopen. bool_split.
  assert (Ask.closed_at ask = None) as Hclosed by (unfold is_none in *; bool_split; by destruct (Ask.closed_at ask)).
  assert (Ask.answered_at ask = None) as Hnot by (unfold is_none in *; bool_split; by destruct (Ask.answered_at ask)).
  assert (answered_as ask' text answerer ∧ Ask.answered_at ask' = Some now) as [Has Hat].
  { unfold ask', afterwards, answered_row, answered_as.
    destruct ask, closed, finding; simpl; split_and!; reflexivity. }
  assert (Ask.closed_at ask' = closed) as Hclosed'.
  { unfold ask', afterwards, answered_row. destruct ask; simpl in Hclosed; subst. by destruct closed, finding. }
  assert (Ask.is_open ask' = false) as Hopen' by (unfold Ask.is_open; by rewrite Hat).
  split_and!; [split| |done..].
  - unfold ask', afterwards, answered_row. destruct ask, closed, finding; exact Hknown.
  - rewrite Hat. by exists text, answerer.
  - by rewrite Hopen'.
  - unfold ask', afterwards, answered_row. split; [destruct ask, closed, finding; reflexivity|..].
    + by rewrite Hnot.
    + by rewrite Hclosed.
Qed.

(** ** Changes of one row *)
Definition upd (id : AskId) (change : Ask → Ask) (l : list Ask) : list Ask :=
  (λ a, if bool_decide (Ask.id a = id) then change a else a) <$> l.
Definition replaced ask ask' (l : list Ask) : list Ask := upd (Ask.id ask) (λ _, ask') l.

Lemma upd_upd id f g l : (∀ a, Ask.id (f a) = Ask.id a) → upd id g (upd id f l) = upd id (g ∘ f) l.
Proof.
  intros Hf. unfold upd. rewrite <-list_fmap_compose. apply list_fmap_ext. intros i a _. simpl.
  destruct (bool_decide (Ask.id a = id)) eqn:Ha; [|by rewrite Ha]. by rewrite Hf, Ha.
Qed.
Lemma unique_row (l : list Ask) a1 a2 :
  NoDup (number <$> l) → a1 ∈ l → a2 ∈ l → Ask.id a1 = Ask.id a2 → a1 = a2.
Proof.
  intros Hnd H1 H2 Hid. induction l as [|a l IH]; [by apply elem_of_nil in H1|].
  simpl in Hnd. apply NoDup_cons in Hnd as [Hnot Hnd].
  apply elem_of_cons in H1 as [->|H1], H2 as [->|H2]; [done| | |by apply IH];
    exfalso; apply Hnot, list_elem_of_fmap; [exists a2|exists a1]; (split; [|done]);
    unfold number; by rewrite Hid.
Qed.
Lemma upd_replaced ask f l : NoDup (number <$> l) → ask ∈ l → upd (Ask.id ask) f l = replaced ask (f ask) l.
Proof.
  intros Hnd Hin. unfold replaced, upd. apply list_fmap_ext. intros i a Ha.
  case_bool_decide as Hid; [|done]. f_equal. apply list_elem_of_lookup_2 in Ha. by eapply unique_row.
Qed.
Lemma replaced_numbers ask ask' l :
  Ask.id ask' = Ask.id ask → number <$> replaced ask ask' l = number <$> l.
Proof.
  intros Hid. unfold replaced, upd. rewrite <-list_fmap_compose. apply list_fmap_ext. intros i a _. simpl.
  case_bool_decide as Ha; [|done]. unfold number. congruence.
Qed.
Lemma elem_of_replaced ask ask' l a :
  a ∈ replaced ask ask' l → a = ask' ∨ a ∈ l ∧ Ask.id a ≠ Ask.id ask.
Proof.
  unfold replaced, upd. intros (b & -> & Hb)%list_elem_of_fmap. case_bool_decide; [by left|by right].
Qed.
Lemma replaced_elem ask ask' l : ask ∈ l → ask' ∈ replaced ask ask' l.
Proof.
  intros Hin. unfold replaced, upd. apply list_elem_of_fmap. exists ask. by rewrite bool_decide_eq_true_2.
Qed.
Lemma replaced_other ask ask' l a : a ∈ l → Ask.id a ≠ Ask.id ask → a ∈ replaced ask ask' l.
Proof.
  intros Hin Hid. unfold replaced, upd. apply list_elem_of_fmap. exists a. by rewrite bool_decide_eq_false_2.
Qed.
Lemma replaced_keys ask ask' l :
  (∀ a, a ∈ l → Ask.id a = Ask.id ask → Ask.is_open ask' = true →
    Ask.is_open a = true ∧ open_key ask' = open_key a) →
  (open_key <$> List.filter Ask.is_open (replaced ask ask' l))
    `sublist_of` (open_key <$> List.filter Ask.is_open l).
Proof.
  intros Hopen. induction l as [|a l IH]; [done|].
  assert ((open_key <$> List.filter Ask.is_open (replaced ask ask' l))
    `sublist_of` (open_key <$> List.filter Ask.is_open l)) as Hl.
  { apply IH. intros b Hb. apply Hopen. by right. }
  unfold replaced, upd in *. simpl. case_bool_decide as Hid.
  - destruct (Ask.is_open ask') eqn:Hopen'.
    + destruct (Hopen a) as [-> Hkey]; [by left|done|done|]. simpl. rewrite Hkey. by apply sublist_skip.
    + destruct (Ask.is_open a); [|done]. simpl. by apply sublist_cons.
  - destruct (Ask.is_open a); [|done]. simpl. by apply sublist_skip.
Qed.

(** ** The invariant and the changes that keep it *)
Record asks_wf q : Prop := {
  wf_numbers : NoDup (number <$> Tables.asks q);
  wf_keys : NoDup (open_key <$> List.filter Ask.is_open (Tables.asks q));
  wf_ask_rows : ∀ a, a ∈ Tables.asks q → row_ok a;
  wf_opened : opened q = number <$> Tables.asks q;
  wf_answered_once : NoDup (answered q);
  wf_answered : ∀ n, n ∈ answered q ↔
    ∃ a, a ∈ Tables.asks q ∧ number a = n ∧ Ask.answered_at a ≠ None;
}.

Inductive change q q' : Prop :=
  | change_open row :
      number row ∉ number <$> Tables.asks q → row_ok row → Ask.is_open row = true →
      asks_open_holds (Tables.asks q ++ [row]) = true →
      Tables.asks q' = Tables.asks q ++ [row] →
      opened q' = opened q ++ [number row] → answered q' = answered q → change q q'
  | change_answer ask ask' :
      ask ∈ Tables.asks q → Ask.is_open ask = true → row_ok ask' → stands ask ask' →
      Ask.answered_at ask' ≠ None → Tables.asks q' = replaced ask ask' (Tables.asks q) →
      opened q' = opened q → answered q' = answered q ++ [number ask] → change q q'
  | change_row ask ask' :
      ask ∈ Tables.asks q → row_ok ask' → stands ask ask' →
      Ask.answered_at ask' = Ask.answered_at ask → Ask.is_open ask' = Ask.is_open ask →
      (Ask.is_open ask = true → open_key ask' = open_key ask) →
      Tables.asks q' = replaced ask ask' (Tables.asks q) →
      opened q' = opened q → answered q' = answered q → change q q'.

Definition kept q q' : Prop := ∀ a, a ∈ Tables.asks q → ∃ a', a' ∈ Tables.asks q' ∧ stands a a'.
Definition good q q' : Prop := asks_wf q → asks_wf q' ∧ kept q q'.
#[export] Instance good_preorder : PreOrder good.
Proof.
  split; [intros q Hwf; split; [done|intros a Ha; by exists a]|].
  intros q1 q2 q3 H12 H23 Hwf. destruct (H12 Hwf) as [Hwf2 Hk12]. destruct (H23 Hwf2) as [Hwf3 Hk23].
  split; [done|]. intros a1 Ha1. destruct (Hk12 a1 Ha1) as (a2 & Ha2 & Hs12).
  destruct (Hk23 a2 Ha2) as (a3 & Ha3 & Hs23). exists a3. split; [done|]. by trans a2.
Qed.
Lemma quiet_good q q' : quiet q q' → good q q'.
Proof.
  intros [Hasks Ho Ha] []. split; [split; rewrite ?Hasks, ?Ho, ?Ha; done|].
  intros a. rewrite Hasks. by exists a.
Qed.

Lemma replaced_kept q q' ask ask' :
  NoDup (number <$> Tables.asks q) → ask ∈ Tables.asks q → stands ask ask' →
  Tables.asks q' = replaced ask ask' (Tables.asks q) → kept q q'.
Proof.
  intros Hnd Hin Hstands Hasks a Ha. rewrite Hasks. destruct (decide (Ask.id a = Ask.id ask)) as [Hid|Hid].
  - rewrite (unique_row _ a ask Hnd Ha Hin Hid). exists ask'. split; [by apply replaced_elem|done].
  - exists a. split; [by apply replaced_other|done].
Qed.
Lemma opened_good q q' row :
  number row ∉ number <$> Tables.asks q → row_ok row → Ask.is_open row = true →
  asks_open_holds (Tables.asks q ++ [row]) = true → Tables.asks q' = Tables.asks q ++ [row] →
  opened q' = opened q ++ [number row] → answered q' = answered q → good q q'.
Proof.
  intros Hfresh Hok Hopen Hindex Hasks Ho Ha [Hnd Hkeys Hrows Hopened Honce Hans]. split; [split|].
  - rewrite Hasks, fmap_app. apply NoDup_app. split_and!; [done| |apply NoDup_singleton].
    intros n Hn ->%list_elem_of_singleton. done.
  - rewrite Hasks. unfold asks_open_holds in Hindex. by bool_split.
  - intros a. rewrite Hasks. intros [Hin| ->%list_elem_of_singleton]%elem_of_app; [by apply Hrows|done].
  - by rewrite Ho, Hasks, fmap_app, Hopened.
  - by rewrite Ha.
  - intros n. rewrite Ha, Hans, Hasks. split.
    + intros (a & Hin & Hn & Hat). exists a. split_and!; [apply elem_of_app; by left|done..].
    + intros (a & [Hin| ->%list_elem_of_singleton]%elem_of_app & Hn & Hat); [by exists a|].
      exfalso. apply Hat. by apply (is_open_iff row).
  - intros a Hin. rewrite Hasks. exists a. split; [apply elem_of_app; by left|done].
Qed.
Lemma answered_good q q' ask ask' :
  ask ∈ Tables.asks q → Ask.is_open ask = true → row_ok ask' → stands ask ask' →
  Ask.answered_at ask' ≠ None → Tables.asks q' = replaced ask ask' (Tables.asks q) →
  opened q' = opened q → answered q' = answered q ++ [number ask] → good q q'.
Proof.
  intros Hin Hopen Hok Hstands Hat Hasks Ho Ha [Hnd Hkeys Hrows Hopened Honce Hans].
  pose proof (stands_id _ _ Hstands) as Hid.
  assert (Ask.answered_at ask = None) as Hnot by (apply is_open_iff; auto).
  split; [split|by eapply replaced_kept].
  - rewrite Hasks. by rewrite replaced_numbers.
  - rewrite Hasks. eapply sublist_NoDup; [apply Hkeys|]. apply replaced_keys.
    intros a _ _ Hopen'. exfalso. apply Hat. by apply is_open_iff.
  - intros a. rewrite Hasks. intros [->|[Ha' _]]%elem_of_replaced; [done|by apply Hrows].
  - by rewrite Ho, Hasks, replaced_numbers.
  - rewrite Ha. apply NoDup_app. split_and!; [done| |apply NoDup_singleton].
    intros n Hn ->%list_elem_of_singleton. apply Hans in Hn as (a & Ha' & Hn & Hat').
    apply Hat'. by rewrite (unique_row _ a ask Hnd Ha' Hin (number_inj _ _ Hn)).
  - intros n. rewrite Ha, elem_of_app, list_elem_of_singleton, Hans, Hasks. split.
    + intros [(a & Ha' & Hn & Hat')| ->].
      * exists a. split_and!; [|done..]. apply replaced_other; [done|]. intros Heq. apply Hat'.
        by rewrite (unique_row _ a ask Hnd Ha' Hin Heq).
      * exists ask'. split_and!; [by apply replaced_elem| |done]. unfold number. by rewrite Hid.
    + intros (a & [->|[Ha' Hne]]%elem_of_replaced & Hn & Hat').
      * right. rewrite <-Hn. unfold number. by rewrite Hid.
      * left. by exists a.
Qed.
Lemma row_good q q' ask ask' :
  ask ∈ Tables.asks q → row_ok ask' → stands ask ask' →
  Ask.answered_at ask' = Ask.answered_at ask → Ask.is_open ask' = Ask.is_open ask →
  (Ask.is_open ask = true → open_key ask' = open_key ask) →
  Tables.asks q' = replaced ask ask' (Tables.asks q) →
  opened q' = opened q → answered q' = answered q → good q q'.
Proof.
  intros Hin Hok Hstands Hat Hopen Hkey Hasks Ho Ha [Hnd Hkeys Hrows Hopened Honce Hans].
  pose proof (stands_id _ _ Hstands) as Hid. split; [split|by eapply replaced_kept].
  - rewrite Hasks. by rewrite replaced_numbers.
  - rewrite Hasks. eapply sublist_NoDup; [apply Hkeys|]. apply replaced_keys.
    intros a Ha' Heq Hopen'. rewrite (unique_row _ a ask Hnd Ha' Hin Heq). rewrite Hopen in Hopen'. auto.
  - intros a. rewrite Hasks. intros [->|[Ha' _]]%elem_of_replaced; [done|by apply Hrows].
  - by rewrite Ho, Hasks, replaced_numbers.
  - by rewrite Ha.
  - intros n. rewrite Ha, Hans, Hasks. split.
    + intros (a & Ha' & Hn & Hat'). destruct (decide (Ask.id a = Ask.id ask)) as [Heq|Hne].
      * rewrite (unique_row _ a ask Hnd Ha' Hin Heq) in Hn, Hat'. exists ask'.
        split_and!; [by apply replaced_elem| |by rewrite Hat]. unfold number in *. by rewrite Hid.
      * exists a. split_and!; [by apply replaced_other|done..].
    + intros (a & [->|[Ha' Hne]]%elem_of_replaced & Hn & Hat'); [|by exists a].
      exists ask. split_and!; [done| |by rewrite <-Hat]. rewrite <-Hn. unfold number. by rewrite Hid.
Qed.
Lemma change_good q q' : change q q' → good q q'.
Proof. intros []; [by eapply opened_good|by eapply answered_good|by eapply row_good]. Qed.

(** ** Each transaction *)
Lemma read_Ok q id ask : read q id = Ok ask → ask ∈ Tables.asks q ∧ Ask.id ask = id.
Proof.
  unfold read, read_ask, AskError.of_finding. destruct (List.find _ _) as [a|] eqn:Hfind; [|done].
  intros [= ->]. apply List.find_some in Hfind as [Hin Hid]. bool_split. by apply list_elem_of_In in Hin.
Qed.
Lemma elem_of_unclosed q wanted ask :
  ask ∈ unclosed q wanted → ask ∈ Tables.asks q ∧ wanted ask = true ∧ Ask.closed_at ask = None.
Proof.
  unfold unclosed. rewrite list_elem_of_In, filter_In, <-list_elem_of_In. intros [Hin Hwanted]. bool_split.
  split_and!; [done..|]. unfold is_none in *. bool_split. by destruct (Ask.closed_at ask).
Qed.
Lemma List_filter_sublist {A} (p : A → bool) (l : list A) : List.filter p l `sublist_of` l.
Proof. induction l as [|x l IH]; simpl; [done|]. destruct (p x); [by apply sublist_skip|by apply sublist_cons]. Qed.
Lemma unclosed_numbers q wanted : asks_wf q → NoDup (number <$> unclosed q wanted).
Proof.
  intros Hwf. eapply sublist_NoDup; [apply (wf_numbers _ Hwf)|]. apply fmap_sublist, List_filter_sublist.
Qed.

(** A transaction on one row. *)
Definition changes_row ask q q' : Prop :=
  change q q' ∧ ∃ ask', Tables.asks q' = replaced ask ask' (Tables.asks q).
Lemma changes_answer now q q' ask text answerer closed finding :
  asks_wf q → ask ∈ Tables.asks q → Ask.is_open ask = true →
  Tables.asks q'
    = upd (Ask.id ask) (afterwards closed finding ∘ answered_row now ask text answerer) (Tables.asks q) →
  opened q' = opened q → answered q' = answered q ++ [number ask] → changes_row ask q q'.
Proof.
  intros Hwf Hin Hopen Hasks Ho Ha. rewrite upd_replaced in Hasks by (done || apply (wf_numbers _ Hwf)).
  destruct (answered_row_spec now ask text answerer closed finding) as (Hok & Hstands & Hat & _);
    [by apply (wf_ask_rows _ Hwf)|done|]. split; [|by eexists].
  refine (change_answer q q' ask _ Hin Hopen Hok Hstands _ Hasks Ho Ha). by rewrite Hat.
Qed.
Lemma closed_row_ok at_ ask :
  row_ok ask → is_some (Ask.answered_at ask) = true → Ask.closed_at ask = None →
  let ask' := ask <| Ask.closed_at := Some at_ |> in
  row_ok ask' ∧ stands ask ask' ∧ Ask.is_open ask' = Ask.is_open ask.
Proof.
  intros [Hknown Hanswer _] Hat Hclosed ask'.
  assert (Ask.is_open ask' = false) as Hopen'.
  { unfold Ask.is_open, ask'. destruct ask as [? ? ? ? ? ? ? ? ? ? ? ? ? ? ? at0]. by destruct at0. }
  assert (Ask.is_open ask = false) as Hopen by (unfold Ask.is_open; by destruct (Ask.answered_at ask)).
  split_and!; [split| |by rewrite Hopen, Hopen'].
  - by destruct ask.
  - unfold ask'. destruct ask as [? ? ? ? ? ? ? ? ? ? ? ? ? ? ? at0]. by destruct at0.
  - by rewrite Hopen'.
  - split; [by destruct ask|by destruct ask|]. by rewrite Hclosed.
Qed.
Lemma changes_close w q q' ask :
  asks_wf q → ask ∈ Tables.asks q → is_some (Ask.answered_at ask) = true → Ask.closed_at ask = None →
  Tables.asks q' = Tables.asks (close_ask_row w q (Ask.id ask)) →
  opened q' = opened q → answered q' = answered q → changes_row ask q q'.
Proof.
  intros Hwf Hin Hat Hclosed Hasks Ho Ha.
  change (Tables.asks (close_ask_row w q (Ask.id ask)))
    with (upd (Ask.id ask) (λ a, a <| Ask.closed_at := Some (Connection.now w) |>) (Tables.asks q)) in Hasks.
  rewrite upd_replaced in Hasks by (done || apply (wf_numbers _ Hwf)).
  destruct (closed_row_ok (Connection.now w) ask) as (Hok & Hstands & Hopen);
    [by apply (wf_ask_rows _ Hwf)|done..|]. split; [|by eexists].
  eapply change_row; [exact Hin|exact Hok|exact Hstands| |exact Hopen| |exact Hasks|done..].
  - by destruct ask.
  - intros _. by destruct ask.
Qed.

(** The answer of the runtime with the close it comes with, in either order of
    event and close. *)
Lemma write_answer_tells w q ask text answerer payload n :
  tells n payload → tells n (write_answer w q ask text answerer payload).2.
Proof.
  intros Htells. simpl. unfold with_option.
  destruct (option_index _ _ ≫= _); [tells|]. destruct (reasoned_option _ _ _); tells.
Qed.
Lemma withdrawn_changes w q ask text payload task run q1 q' :
  asks_wf q → ask ∈ Tables.asks q → Ask.is_open ask = true → tells (number ask) payload →
  let wrote := write_answer w q ask text Answerer.RUNTIME payload in
  (ask_event w wrote.1 task run EventKind.AskAnswered wrote.2 = Ok q1
   ∧ q' = close_ask_row w q1 (Ask.id ask))
  ∨ ask_event w (close_ask_row w wrote.1 (Ask.id ask)) task run EventKind.AskAnswered wrote.2 = Ok q' →
  changes_row ask q q'.
Proof.
  intros Hwf Hin Hopen Htells wrote Hcases.
  pose proof (write_answer_tells w q ask text Answerer.RUNTIME payload _ Htells) as Hwrote.
  assert (Tables.asks (close_ask_row w wrote.1 (Ask.id ask))
          = upd (Ask.id ask) (afterwards (Some (Connection.now w)) None
                              ∘ answered_row (Connection.now w) ask text Answerer.RUNTIME) (Tables.asks q)) as Hasks.
  { apply (upd_upd (Ask.id ask) (answered_row (Connection.now w) ask text Answerer.RUNTIME)
             (λ a, a <| Ask.closed_at := Some (Connection.now w) |>)). by intros []. }
  apply (changes_answer (Connection.now w) q q' ask text Answerer.RUNTIME (Some (Connection.now w)) None);
    try done; rewrite <-?Hasks.
  - destruct Hcases as [[Hevent ->]|Hevent]; eapply ask_event_spec in Hevent as (Hq & _ & _); try exact Hwrote.
    + unfold close_ask_row, update_ask. simpl. by rewrite Hq.
    + exact Hq.
  - destruct Hcases as [[Hevent ->]|Hevent]; eapply ask_event_spec in Hevent as (_ & Ho & _); try exact Hwrote;
      by rewrite bool_decide_eq_false_2, app_nil_r in Ho by done.
  - destruct Hcases as [[Hevent ->]|Hevent]; eapply ask_event_spec in Hevent as (_ & _ & Ha); try exact Hwrote;
      by rewrite bool_decide_eq_true_2 in Ha by done.
Qed.
(** The close of an answered ask, with its event. *)
Lemma closed_changes w q ask task run kind payload q1 q' :
  asks_wf q → ask ∈ Tables.asks q → Ask.closed_at ask = None → is_some (Ask.answered_at ask) = true →
  tells (number ask) payload → kind ∉ ask_kinds →
  (ask_event w q task run kind payload = Ok q1 ∧ q' = close_ask_row w q1 (Ask.id ask))
  ∨ ask_event w (close_ask_row w q (Ask.id ask)) task run kind payload = Ok q' →
  changes_row ask q q'.
Proof.
  intros Hwf Hin Hclosed Hat Htells Hkind Hcases.
  assert (bool_decide (kind = EventKind.AskOpened) = false) as Hno.
  { apply bool_decide_eq_false. intros ->. apply Hkind. set_solver. }
  assert (bool_decide (kind = EventKind.AskAnswered) = false) as Hna.
  { apply bool_decide_eq_false. intros ->. apply Hkind. set_solver. }
  apply (changes_close w); try done.
  - destruct Hcases as [[Hevent ->]|Hevent]; eapply ask_event_spec in Hevent as (Hq & _ & _); try exact Htells.
    + unfold close_ask_row, update_ask. simpl. by rewrite Hq.
    + exact Hq.
  - destruct Hcases as [[Hevent ->]|Hevent]; eapply ask_event_spec in Hevent as (_ & Ho & _); try exact Htells;
      by rewrite Hno, app_nil_r in Ho.
  - destruct Hcases as [[Hevent ->]|Hevent]; eapply ask_event_spec in Hevent as (_ & _ & Ha); try exact Htells;
      by rewrite Hna, app_nil_r in Ha.
Qed.
Lemma open_or_answered ask :
  row_ok ask → Ask.closed_at ask = None → Ask.is_open ask = false → is_some (Ask.answered_at ask) = true.
Proof. intros _ Hclosed. unfold Ask.is_open. rewrite Hclosed. by destruct (Ask.answered_at ask). Qed.
End proofs.
End AskRowProofs.
