(* ===== verification/AskTable.v ===== *)
(** * The transactions on asks, in sequence

    Each transaction of AskStore keeps the invariant of the asks and of their
    events (AskRows); so over any sequence of them and of those of other
    components, no ask is lost, asked twice at once, or answered twice, and the
    log alone tells the open ones.  Every step is one of the findings' store
    too, as an answer goes through the transaction that applies it to its
    finding: the findings' invariants (FindingTable) hold throughout. *)
From S2P Require Import Prelude Text Vocab Ids Errors EventKinds Events Inputs Findings FindingLedger Asks FindingStore FindingTable AskStore AskRows.

Module AskTableProofs.
Import AskRowProofs.
Section proofs.
  Context {P : Type} `{Payload P} `{!PayloadLaws P} (routes : Routes P).
  Implicit Types (q : Tables P) (w : Connection) (a ask : Ask) (e : RunEvent P).

Ltac tells :=
  repeat first [apply tells_object | assumption | (apply tells_set_field; [discriminate|])].

(** ** Each transaction *)
Lemma changes_row_good ask q q' : changes_row ask q q' → good q q'.
Proof. intros [Hchange _]. by apply change_good. Qed.
Lemma tells_closed ask : tells (number ask) (ask_closed_payload ask : P).
Proof. unfold ask_closed_payload, ask_number, number. tells. Qed.
Lemma not_asked kind : kind ≠ EventKind.AskOpened → kind ≠ EventKind.AskAnswered → kind ∉ ask_kinds.
Proof. unfold ask_kinds. set_solver. Qed.

(** *** Withdrawn and closed *)
Lemma close_by_runtime_changes w q ask text q' :
  asks_wf q → ask ∈ Tables.asks q → Ask.closed_at ask = None →
  close_by_runtime w q ask text = Ok q' → changes_row ask q q'.
Proof.
  intros Hwf Hin Hclosed Hclose. unfold close_by_runtime in Hclose.
  destruct (Ask.is_open ask) eqn:Hopen; apply bind_Ok in Hclose as (q1 & Hevent & [= <-]).
  - eapply (withdrawn_changes w q ask text); [done..| |left; split; [exact Hevent|done]].
    unfold withdrawn_payload, ask_number, number. tells.
  - eapply (closed_changes w q ask); [done..| |apply tells_closed| |left; split; [exact Hevent|done]].
    + by apply open_or_answered; [apply (wf_ask_rows _ Hwf)|..].
    + by apply not_asked.
Qed.
Lemma discard_by_runtime_changes w q ask reason note q' :
  asks_wf q → ask ∈ Tables.asks q → Ask.closed_at ask = None →
  discard_by_runtime w q ask reason note = Ok q' → changes_row ask q q'.
Proof.
  intros Hwf Hin Hclosed Hclose. unfold discard_by_runtime in Hclose. cbv zeta in Hclose.
  destruct (Ask.is_open ask) eqn:Hopen; apply bind_Ok in Hclose as (q1 & Hevent & [= <-]).
  - eapply (withdrawn_changes w q ask note); [done..| |left; split; [exact Hevent|done]]. unfold ask_number, number. tells.
  - eapply (closed_changes w q ask); [done..| | | |left; split; [exact Hevent|done]].
    + by apply open_or_answered; [apply (wf_ask_rows _ Hwf)|..].
    + unfold ask_number, number. tells.
    + by apply not_asked.
Qed.
Lemma close_hold_changes w q ask text q' :
  asks_wf q → ask ∈ Tables.asks q → Ask.closed_at ask = None →
  close_hold w q ask text = Ok q' → changes_row ask q q'.
Proof.
  intros Hwf Hin Hclosed Hclose. unfold close_hold in Hclose.
  destruct (Ask.is_open ask) eqn:Hopen; apply bind_Ok in Hclose as (q1 & Hevent & [= <-]).
  - eapply (withdrawn_changes w q ask text); [done..| |left; split; [exact Hevent|done]].
    unfold withdrawn_payload, ask_number, number. tells.
  - eapply (closed_changes w q ask); [done..| |apply tells_closed| |left; split; [exact Hevent|done]].
    + by apply open_or_answered; [apply (wf_ask_rows _ Hwf)|..].
    + by apply not_asked.
Qed.
Lemma supersede_changes w q ask q' :
  asks_wf q → ask ∈ Tables.asks q → Ask.is_open ask = true →
  supersede w q ask = Ok q' → changes_row ask q q'.
Proof.
  intros Hwf Hin Hopen Hclose. unfold supersede in Hclose.
  apply (withdrawn_changes w q ask "superseded" (withdrawn_payload ask) None None q q');
    [done..| |right; exact Hclose].
  unfold withdrawn_payload, ask_number, number. tells.
Qed.

(** *** Several rows, each read before the first is changed *)
Lemma changes_row_other ask q q' a :
  changes_row ask q q' → a ∈ Tables.asks q → number a ≠ number ask → a ∈ Tables.asks q'.
Proof.
  intros [_ [ask' Hasks]] Ha Hne. rewrite Hasks. apply replaced_other; [done|].
  intros Heq. apply Hne. unfold number. by rewrite Heq.
Qed.
Lemma fold_rows {S} (tables : S → Tables P) (f : S → Ask → result AskError S) (wanted : Ask → Prop) l s s' :
  (∀ s ask s', asks_wf (tables s) → ask ∈ Tables.asks (tables s) → wanted ask → f s ask = Ok s' →
     tables s' = tables s ∨ changes_row ask (tables s) (tables s')) →
  NoDup (number <$> l) → (∀ a, a ∈ l → a ∈ Tables.asks (tables s) ∧ wanted a) →
  fold_result f s l = Ok s' → good (tables s) (tables s').
Proof.
  intros Hf. induction l as [|a l IH] in s |- *; intros Hnd Hl Hfold; simpl in Hfold.
  { by injection Hfold as <-. }
  apply bind_Ok in Hfold as (s1 & Hstep & Hfold). intros Hwf.
  simpl in Hnd. apply NoDup_cons in Hnd as [Hfresh Hnd].
  destruct (Hl a) as [Hin Hwanted]; [by left|].
  pose proof (Hf s a s1 Hwf Hin Hwanted Hstep) as Hchange.
  assert (good (tables s) (tables s1)) as Hgood.
  { destruct Hchange as [->|Hchange]; [done|by eapply changes_row_good]. }
  revert Hwf. change (good (tables s) (tables s')). trans (tables s1); [exact Hgood|].
  apply IH; [done| |done]. intros b Hb. destruct (Hl b) as [Hbin Hbwanted]; [by right|].
  split; [|done]. destruct Hchange as [->|Hchange]; [done|].
  eapply changes_row_other; [exact Hchange|exact Hbin|].
  intros Heq. apply Hfresh. rewrite <-Heq. by apply list_elem_of_fmap_2.
Qed.
Lemma close_each_good close q wanted q' closed :
  (∀ q ask q', asks_wf q → ask ∈ Tables.asks q → Ask.closed_at ask = None → close q ask = Ok q' →
     q' = q ∨ changes_row ask q q') →
  close_each close q (unclosed q wanted) = Ok (q', closed) → good q q'.
Proof.
  intros Hclose Hfold Hwf. revert Hwf. change (good q q').
  assert (asks_wf q → good q q') as Hgood; [|by intros Hwf; apply (Hgood Hwf)]. intros Hwf.
  apply (fold_rows fst _ (λ a, Ask.closed_at a = None) _ (q, []) (q', closed)) in Hfold; [done|..].
  - intros [q1 closed1] ask s' Hwf1 Hin Hunclosed Hstep.
    apply bind_Ok in Hstep as (q2 & Hstep & Hread). apply bind_Ok in Hread as (row & _ & [= <-]). by apply Hclose.
  - by apply unclosed_numbers.
  - intros a (Hin & _ & Hunclosed)%elem_of_unclosed. done.
Qed.
Lemma close_asks_in_good w q run task kind text q' closed :
  close_asks_in w q run task kind text = Ok (q', closed) → good q q'.
Proof. apply close_each_good. intros. right. by eapply close_by_runtime_changes. Qed.
Lemma close_run_asks_good w q run text q' closed :
  close_run_asks w q run text = Ok (q', closed) → good q q'.
Proof. apply close_each_good. intros. right. by eapply close_by_runtime_changes. Qed.
Lemma close_hold_asks_good w q reason subject text q' closed :
  close_hold_asks w q reason subject text = Ok (q', closed) → good q q'.
Proof. apply close_each_good. intros. right. by eapply close_hold_changes. Qed.
Lemma close_ended_landing_asks_good w q task q' closed :
  close_ended_landing_asks routes w q task = Ok (q', closed) → good q q'.
Proof.
  apply close_each_good. intros q1 ask q2 Hwf Hin Hclosed Hclose.
  destruct (ended_landing_answer _ _ _ _); [|injection Hclose as <-; by left].
  right. by eapply close_by_runtime_changes.
Qed.
Lemma close_request_asks_in_good w q request text q' ids :
  close_request_asks_in w q request text = Ok (q', ids) → good q q'.
Proof.
  intros Hclose Hwf. apply bind_Ok in Hclose as (q1 & Hfold & [= <- <-]).
  apply (fold_rows id _ (λ a, Ask.closed_at a = None)) in Hfold; [by apply Hfold|..].
  - intros q2 ask q3 Hwf2 Hin Hunclosed Hclose. right. by eapply close_by_runtime_changes.
  - by apply unclosed_numbers.
  - intros a (Hin & _ & Hunclosed)%elem_of_unclosed. done.
Qed.

(** *** A row changed beside its answer *)
Lemma update_good w q ask f task run kind payload q' :
  ask ∈ Tables.asks q → row_ok (f ask) → stands ask (f ask) →
  Ask.answered_at (f ask) = Ask.answered_at ask → Ask.is_open (f ask) = Ask.is_open ask →
  (Ask.is_open ask = true → open_key (f ask) = open_key ask) →
  tells (number ask) payload → kind ∉ ask_kinds → asks_wf q →
  ask_event w (update_ask q (Ask.id ask) f) task run kind payload = Ok q' → changes_row ask q q'.
Proof.
  intros Hin Hok Hstands Hat Hopen Hkey Htells Hkind Hwf Hevent.
  eapply ask_event_spec in Hevent as (Hasks & Ho & Ha); [|exact Htells].
  change (Tables.asks (update_ask q (Ask.id ask) f)) with (upd (Ask.id ask) f (Tables.asks q)) in Hasks.
  rewrite upd_replaced in Hasks by (done || apply (wf_numbers _ Hwf)).
  rewrite bool_decide_eq_false_2, app_nil_r in Ho by (intros ->; apply Hkind; set_solver).
  rewrite bool_decide_eq_false_2, app_nil_r in Ha by (intros ->; apply Hkind; set_solver).
  split; [by eapply change_row|by eexists].
Qed.
Lemma noted_row_ok ask question :
  Ask.kind ask ≠ AskKind.QueueHold ∨ Ask.is_open ask = false → row_ok ask →
  let ask' := ask <| Ask.question := question |> in
  row_ok ask' ∧ stands ask ask'.
Proof.
  intros Hhold [Hknown Hanswer Hshape]. destruct ask as [? kind]; cbn. split; [split|by split].
  - exact Hknown.
  - exact Hanswer.
  - intros Hopen. destruct (Hshape Hopen) as [_ Hsubject]. destruct Hhold as [Hkind|Hclosed].
    + by split.
    + unfold Ask.is_open in *. cbn in *. congruence.
Qed.
Lemma note_on_asks_good w q run note why q' noted :
  note_on_asks w q run note why = Ok (q', noted) → good q q'.
Proof.
  intros Hfold Hwf.
  apply (fold_rows fst _ (λ a, Ask.run_id a = Some run)) in Hfold; [by apply Hfold|..].
  - intros [q1 done1] ask s' Hwf1 Hin Hrun Hstep. unfold note_one in Hstep.
    case_bool_decide; [injection Hstep as <-; by left|]. right.
    apply bind_Ok in Hstep as (q2 & Hevent & Hread). apply bind_Ok in Hread as (row & _ & [= <-]).
    pose proof (wf_ask_rows _ Hwf1 _ Hin) as Hok.
    destruct (noted_row_ok ask (noted_question (Ask.question ask) note)) as [Hok' Hstands]; [|done|].
    { destruct (Ask.is_open ask) eqn:Hopen; [left|by right]. intros Hkind.
      destruct (row_shape _ Hok Hopen) as [Hshape _]. destruct (Hshape Hkind) as (_ & Hnone & _). congruence. }
    eapply update_good; [exact Hin|exact Hok'|exact Hstands| | | | | |done|exact Hevent].
    + by destruct ask.
    + by destruct ask.
    + intros _. by destruct ask.
    + unfold ask_number, number. tells.
    + by apply not_asked.
  - by apply unclosed_numbers.
  - intros a (Hin & Hrun & _)%elem_of_unclosed. unfold of_run in Hrun. by bool_split.
Qed.

(** *** Opened *)
Lemma next_ask_fresh q row : Ask.id row = next_ask q → number row ∉ number <$> Tables.asks q.
Proof.
  intros Hid (a & Heq & Ha)%list_elem_of_fmap.
  pose proof (FindingStoreProofs.le_maximum (λ a, AskId.as_i64 (Ask.id a)) (Tables.asks q) a Ha) as Hmax.
  unfold number in Heq. rewrite Hid in Heq. unfold next_ask in Heq. cbn in Heq, Hmax. lia.
Qed.
Lemma insert_row_Ok q row q' :
  insert_row q row = Ok q' →
  asks_open_holds (Tables.asks q ++ [row]) = true ∧ q' = q <| Tables.asks := Tables.asks q ++ [row] |>.
Proof. unfold insert_row. destruct (asks_open_holds _); [|done]. by intros [= <-]. Qed.
Lemma opens w q row task run payload q1 q' :
  Ask.id row = next_ask q → row_ok row → Ask.is_open row = true → tells (number row) payload →
  insert_row q row = Ok q1 → ask_event w q1 task run EventKind.AskOpened payload = Ok q' →
  good q q' ∧ Tables.asks q' = Tables.asks q ++ [row].
Proof.
  intros Hid Hok Hopen Htells Hinsert Hevent. apply insert_row_Ok in Hinsert as [Hindex ->].
  eapply ask_event_spec in Hevent as (Hasks & Ho & Ha); [|exact Htells].
  rewrite bool_decide_eq_true_2 in Ho by done. rewrite bool_decide_eq_false_2, app_nil_r in Ha by done.
  split; [|exact Hasks]. by eapply opened_good; [apply next_ask_fresh|..].
Qed.
Lemma check_known kind task run reason : check_ask_kind kind task run reason = Ok tt → AskKind.is_known kind = true.
Proof. by destruct kind. Qed.
Lemma tells_opened row : tells (number row) (opened_payload row : P).
Proof.
  unfold opened_payload, ask_number, number. destruct (bool_decide _), (Ask.request_id row); tells.
Qed.
Lemma insert_ask_good w q new created_at q' outcome :
  NewAsk.kind new ≠ AskKind.QueueHold → insert_ask routes w q new created_at = Ok (q', outcome) → good q q'.
Proof.
  intros Hkind Hinsert. unfold insert_ask in Hinsert.
  apply bind_Ok in Hinsert as (task & _ & Hinsert). apply bind_Ok in Hinsert as ([] & Hcheck & Hinsert).
  apply bind_Ok in Hinsert as (_ & _ & Hinsert). apply bind_Ok in Hinsert as (_ & _ & Hinsert).
  apply bind_Ok in Hinsert as (_ & _ & Hinsert).
  destruct (List.find _ _); [by injection Hinsert as <- <-|].
  apply bind_Ok in Hinsert as (q1 & Hrow & Hinsert). apply bind_Ok in Hinsert as (q2 & Hevent & Hinsert).
  apply bind_Ok in Hinsert as (created & _ & [= <- <-]).
  eapply (opens w q (new_ask_row q new task created_at)); [done| |done|apply tells_opened|exact Hrow|exact Hevent].
  split; cbn; [|done|].
  - unfold AskError.of_domain in Hcheck.
    destruct (check_ask_kind _ _ _ _) as [[]|] eqn:Hkind'; [|done]. by eapply check_known.
  - intros _. split; [done|]. by intros.
Qed.
Lemma ask_domain_Ok {A} (r : Result A) (a : A) : AskError.of_domain r = Ok a → r = Ok a.
Proof. unfold AskError.of_domain. destruct r; [|done]. by intros [= ->]. Qed.
Lemma valid_kind new : NewAsk.validate new = Ok tt → NewAsk.kind new ≠ AskKind.QueueHold.
Proof.
  unfold NewAsk.validate. intros Hvalid.
  do 4 (apply bind_Ok in Hvalid as (_ & _ & Hvalid)).
  apply bind_Ok in Hvalid as (? & Hkind & _). apply require_Ok in Hkind. by bool_split.
Qed.
Lemma open_ask_good w q new created_at q' outcome :
  open_ask routes w q new created_at = Ok (q', outcome) → good q q'.
Proof.
  intros Hopen. apply bind_Ok in Hopen as ([] & Hvalid%ask_domain_Ok%valid_kind & Hopen).
  by eapply insert_ask_good.
Qed.

(** *** Holds *)
Lemma hold_row_ok q hold affected created_at : NoDup affected → row_ok (hold_row q hold affected created_at).
Proof.
  intros Hnd. split; cbn; [done..|]. intros _. split; cbn; [|done]. intros _.
  split_and!; [done..|]. by eexists.
Qed.
Lemma open_hold_good w q hold created_at q' outcome :
  open_hold w q hold created_at = Ok (q', outcome) → good q q'.
Proof.
  intros Hopen. unfold open_hold in Hopen. apply bind_Ok in Hopen as (_ & _ & Hopen).
  apply bind_Ok in Hopen as (q1 & Hrow & Hopen). apply bind_Ok in Hopen as (q2 & Hevent & Hopen).
  apply bind_Ok in Hopen as (opened & _ & [= <- <-]).
  eapply opens; [| | | |exact Hrow|exact Hevent]; [done| |done|].
  - apply hold_row_ok. destruct (NewHold.entry hold); [apply NoDup_singleton|apply NoDup_nil_2].
  - unfold ask_number, number. tells.
Qed.
Lemma joined_row_ok ask entry base :
  Ask.kind ask = AskKind.QueueHold → Ask.is_open ask = true → row_ok ask → entry ∉ Ask.affected ask →
  let affected := Ask.affected ask ++ [entry] in
  let ask' := ask <| Ask.affected := affected |> <| Ask.question := NewHold.question_for base affected |> in
  row_ok ask' ∧ stands ask ask'.
Proof.
  intros Hkind Hopen [Hknown Hanswer Hshape] Hentry.
  destruct (Hshape Hopen) as [Hhold _]. destruct (Hhold Hkind) as (Htask & Hrun & Hfinding & Hnd & _).
  destruct ask; cbn in *. split; [split|by split]; cbn; [done..|].
  intros _. split; cbn; [|done]. intros _. split_and!; [done..| |by eexists].
  apply NoDup_app. split_and!; [done| |apply NoDup_singleton]. by intros x Hx ->%list_elem_of_singleton.
Qed.
Lemma hold_good w q hold_ created_at q' outcome : hold w q hold_ created_at = Ok (q', outcome) → good q q'.
Proof.
  intros Hhold. unfold hold in Hhold. apply bind_Ok in Hhold as (_ & _ & Hhold).
  apply bind_Ok in Hhold as (task & _ & Hhold).
  destruct (List.find _ _) as [ask|] eqn:Hfind; [|by eapply open_hold_good].
  destruct (NewHold.entry hold_) as [entry|]; [|by injection Hhold as <- <-].
  case_bool_decide as Hentry; [by injection Hhold as <- <-|].
  apply List.find_some in Hfind as [Hin%list_elem_of_In Hmatter]. apply andb_true_iff in Hmatter as [Hmatter Hopen].
  unfold hold_matter, of_kind in Hmatter. bool_split. intros Hwf.
  apply bind_Ok in Hhold as (q1 & Hevent & Hhold). apply bind_Ok in Hhold as (joined & _ & [= <- <-]).
  destruct (joined_row_ok ask entry (NewHold.base_question (Ask.question ask))) as [Hok Hstands];
    [done..|by apply (wf_ask_rows _ Hwf)|done|].
  eapply changes_row_good; [|done].
  set (affected := Ask.affected ask ++ [entry]) in *.
  eapply (update_good w q ask (λ a, a <| Ask.affected := affected |>
    <| Ask.question := NewHold.question_for (NewHold.base_question (Ask.question ask)) affected |>));
    [exact Hin|exact Hok|exact Hstands| | | | | |done|exact Hevent].
  - by destruct ask.
  - by destruct ask.
  - intros _. by destruct ask.
  - unfold ask_number, number. tells.
  - by apply not_asked.
Qed.

(** *** The asks of the update *)
Lemma update_row_ok q kind question options asked_by subject created_at :
  AskKind.is_known kind = true → AskKind.is_update kind = true →
  row_ok (update_row q kind question options asked_by subject created_at).
Proof.
  intros Hknown Hupdate. split; cbn; [done..|]. intros _. split; cbn; [intros ->; done|congruence].
Qed.
Lemma open_update_ask_good w q kind question options asked_by subject details created_at q' opened :
  open_update_ask w q kind question options asked_by subject details created_at = Ok (q', opened) → good q q'.
Proof.
  intros Hopen. unfold open_update_ask in Hopen. apply bind_Ok in Hopen as (_ & _ & Hopen).
  apply bind_Ok in Hopen as (? & Hupdate & Hopen). apply require_Ok in Hupdate.
  apply bind_Ok in Hopen as ([] & Hcheck%ask_domain_Ok%check_known & Hopen).
  apply bind_Ok in Hopen as (recorded & _ & Hopen).
  destruct recorded; [by injection Hopen as <- <-|].
  unfold open_new_update_ask in Hopen. apply bind_Ok in Hopen as (q1 & Hfold & Hopen).
  apply bind_Ok in Hopen as (q2 & Hrow & Hopen). apply bind_Ok in Hopen as (q3 & Hevent & Hopen).
  apply bind_Ok in Hopen as (row & _ & [= <- <-]). trans q1.
  - intros Hwf. apply (fold_rows id _ (λ a, Ask.is_open a = true)) in Hfold; [by apply Hfold|..].
    + intros q4 ask q5 Hwf4 Hin Hopen Hsupersede. right. by eapply supersede_changes.
    + eapply sublist_NoDup; [apply (wf_numbers _ Hwf)|]. apply fmap_sublist, List_filter_sublist.
    + intros a Ha. apply list_elem_of_In, filter_In in Ha as [Ha Hwanted]. apply list_elem_of_In in Ha.
      by bool_split.
  - eapply opens; [| | | |exact Hrow|exact Hevent]; [done|by apply update_row_ok|done|].
    apply tells_details. unfold ask_number, number. tells.
Qed.
Lemma close_installed_update_ask_good w q id text installed q' closed :
  close_installed_update_ask w q id text installed = Ok (q', closed) → good q q'.
Proof.
  intros Hclose. unfold close_installed_update_ask in Hclose.
  apply bind_Ok in Hclose as (ask & Hread & Hclose). apply read_Ok in Hread as [Hin Hid].
  destruct (negb _ || negb _) eqn:Hguard; [by injection Hclose as <- <-|]. bool_split. intros Hwf.
  apply bind_Ok in Hclose as (q1 & Hevent & Hclose). apply bind_Ok in Hclose as (row & _ & [= <- <-]).
  subst id. eapply changes_row_good; [|done].
  eapply (withdrawn_changes w q ask text _ None None q); [done..| |right; exact Hevent].
  unfold ask_number, number. tells.
Qed.

(** *** Answered *)
Lemma found_upd id finding q :
  Tables.asks (found id finding q) = upd id (afterwards None finding) (Tables.asks q).
Proof.
  destruct finding; simpl; [done|]. unfold upd. symmetry. rewrite <-(list_fmap_id (Tables.asks q)) at 2.
  apply list_fmap_ext. intros i a _. by destruct (bool_decide _).
Qed.
Lemma with_delivery_tells w q ask text payload payload' n :
  with_delivery routes w q ask text payload = Ok payload' → tells n payload → tells n payload'.
Proof.
  intros Hdelivery Htells. unfold with_delivery in Hdelivery. cbv zeta in Hdelivery.
  repeat match type of Hdelivery with
  | _ ≫= _ = Ok _ => apply bind_Ok in Hdelivery as (? & ? & Hdelivery)
  | Ok _ = Ok _ => injection Hdelivery as <-
  | _ <$> ?m = Ok _ => destruct m; [injection Hdelivery as <-|discriminate Hdelivery]
  | (if ?b then _ else _) = Ok _ => destruct b
  | (match ?x with _ => _ end) = Ok _ => destruct x
  end; try match goal with |- tells _ (match ?x with _ => _ end) => destruct x end; tells.
Qed.
Lemma answer_applied_spec w q ask applied payload q' :
  answer_applied w q ask applied payload = Ok q' → tells (number ask) payload →
  opened q' = opened q ∧ answered q' = answered q ++ [number ask]
  ∧ ∃ closed, Tables.asks q' = upd (Ask.id ask) (afterwards closed None) (Tables.asks q).
Proof.
  intros Happlied Htells. unfold answer_applied in Happlied.
  apply bind_Ok in Happlied as (q1 & Hevent & Hclose).
  apply (ask_event_spec w q _ _ _ _ q1 (number ask)) in Hevent as (Hasks & Ho & Ha); [|tells].
  rewrite bool_decide_eq_false_2, app_nil_r in Ho by done. rewrite bool_decide_eq_true_2 in Ha by done.
  destruct (of_kind AskKind.Blocked ask).
  - eapply ask_event_spec in Hclose as (Hasks' & Ho' & Ha'); [|apply tells_closed].
    rewrite bool_decide_eq_false_2, app_nil_r in Ho' by done.
    rewrite bool_decide_eq_false_2, app_nil_r in Ha' by done.
    split_and!; [by rewrite Ho'|by rewrite Ha'|]. exists (Some (Connection.now w)).
    rewrite Hasks'. unfold close_ask_row, update_ask. cbn. by rewrite Hasks.
  - injection Hclose as <-. split_and!; [done..|]. exists None.
    rewrite Hasks. apply (found_upd _ None).
Qed.
Lemma answered_event_spec w q ask text (applied : option AppliedAnswer.t) payload q' :
  match applied with
  | Some applied => answer_applied w q ask applied payload
  | None =>
      payload ← with_delivery routes w q ask text payload;
      ask_event w q (Ask.task_id ask) (Ask.run_id ask) EventKind.AskAnswered payload
  end = Ok q' → tells (number ask) payload →
  opened q' = opened q ∧ answered q' = answered q ++ [number ask]
  ∧ ∃ closed, Tables.asks q' = upd (Ask.id ask) (afterwards closed None) (Tables.asks q).
Proof.
  intros Hevent Htells. destruct applied as [applied|]; [by eapply answer_applied_spec|].
  apply bind_Ok in Hevent as (payload' & Hdelivery & Hevent).
  eapply ask_event_spec in Hevent as (Hasks & Ho & Ha); [|by eapply with_delivery_tells].
  rewrite bool_decide_eq_false_2, app_nil_r in Ho by done. rewrite bool_decide_eq_true_2 in Ha by done.
  split_and!; [done..|]. exists None. rewrite Hasks. apply (found_upd _ None).
Qed.
Lemma answer_as_changes w q id text answerer q' row :
  answer_as routes w q id text answerer = Ok (q', row) →
  is_blank text = false ∧ ∃ ask, read q id = Ok ask ∧ Ask.is_open ask = true
  ∧ refuse_bare_action routes q ask text = Ok tt
  ∧ ∃ closed finding,
    Tables.asks q' = upd id (afterwards closed finding ∘ answered_row (Connection.now w) ask text answerer)
                       (Tables.asks q)
    ∧ opened q' = opened q ∧ answered q' = answered q ++ [number ask] ∧ read q' id = Ok row.
Proof.
  intros Hanswer. unfold answer_as in Hanswer. apply bind_Ok in Hanswer as (? & Hblank & Hanswer).
  apply require_Ok in Hblank. bool_split. split; [done|].
  apply bind_Ok in Hanswer as (ask & Hread & Hanswer). exists ask.
  apply bind_Ok in Hanswer as (? & Hopen & Hanswer). apply require_Ok in Hopen.
  apply bind_Ok in Hanswer as ([] & Hbare & Hanswer). split_and!; [done..|].
  destruct (read_Ok _ _ _ Hread) as [_ Hid]. subst id.
  destruct (write_answer w q ask text answerer _) as [q1 payload1] eqn:Hwrite.
  assert (tells (number ask) payload1) as Htells1.
  { replace payload1 with (write_answer w q ask text answerer (object
      [("ask_id", ask_number (Ask.id ask)); ("kind", kind_text (Ask.kind ask));
       ("reason_category", of_text (as_str (Ask.reason_category ask)))])).2 by (by rewrite Hwrite).
    apply write_answer_tells. unfold ask_number, number. tells. }
  assert (q1 = update_ask q (Ask.id ask) (answered_row (Connection.now w) ask text answerer)) as ->
    by (by injection Hwrite).
  clear Hwrite. set (payload := if answer_told ask then _ else _) in Hanswer.
  assert (tells (number ask) payload) as Htells by (unfold payload; destruct (answer_told ask); tells).
  clearbody payload. clear Htells1. apply bind_Ok in Hanswer as ([q2 applied] & Happly & Hanswer).
  unfold AskError.of_finding in Happly. destruct (apply_answer _ _ _ _ _) as [[q2' applied']|] eqn:Hcase; [|done].
  injection Happly as -> ->. apply apply_answer_asks in Hcase as (Ho2 & Ha2 & finding & Hasks2 & _).
  rewrite found_upd in Hasks2. apply bind_Ok in Hanswer as (q3 & Hevent & Hanswer).
  apply bind_Ok in Hanswer as (answered_ & Hread' & [= <- <-]).
  apply answered_event_spec in Hevent as (Ho & Ha & closed & Hasks); [|done].
  exists closed, finding. split_and!; [|by rewrite Ho, Ho2|by rewrite Ha, Ha2|done].
  rewrite Hasks, Hasks2. simpl. fold (upd (Ask.id ask) (answered_row (Connection.now w) ask text answerer) (Tables.asks q)).
  rewrite upd_upd by (intros a; by destruct a, finding). rewrite upd_upd by (by intros []).
  unfold upd. apply list_fmap_ext. intros i a _. destruct (bool_decide _); [|done]. by destruct a, closed, finding.
Qed.
Lemma answer_as_good w q id text answerer q' row :
  answer_as routes w q id text answerer = Ok (q', row) → good q q'.
Proof.
  intros Hanswer Hwf. apply answer_as_changes in Hanswer
    as (_ & ask & Hread & Hopen & _ & closed & finding & Hasks & Ho & Ha & _).
  apply read_Ok in Hread as [Hin <-]. eapply changes_row_good; [|done]. by eapply changes_answer.
Qed.

(** *** Closed and delivered *)
Lemma close_ask_good w q id q' row : close_ask w q id = Ok (q', row) → good q q'.
Proof.
  intros Hclose Hwf. unfold close_ask in Hclose. apply bind_Ok in Hclose as (ask & Hread & Hclose).
  apply read_Ok in Hread as [Hin <-]. apply bind_Ok in Hclose as (? & Hclosed & Hclose).
  apply require_Ok in Hclosed. unfold is_none in Hclosed. apply bind_Ok in Hclose as (? & Hat & Hclose).
  apply require_Ok in Hat. apply bind_Ok in Hclose as (q1 & Hevent & Hclose).
  apply bind_Ok in Hclose as (row' & _ & [= <- <-]). eapply changes_row_good; [|done].
  eapply (closed_changes w q ask _ _ _ _ q); [done..| |done|apply tells_closed| |right; exact Hevent].
  - by destruct (Ask.closed_at ask).
  - by apply not_asked.
Qed.
Lemma deliver_ask_in_good w q id workspace q' row : deliver_ask_in w q id workspace = Ok (q', row) → good q q'.
Proof.
  intros Hclose Hwf. unfold deliver_ask_in in Hclose. apply bind_Ok in Hclose as (ask & Hread & Hclose).
  apply read_Ok in Hread as [Hin <-].
  destruct (Ask.closed_at ask) as [at_|] eqn:Hclosed; simpl in Hclose.
  { injection Hclose as <- <-. by apply (PreOrder_Reflexive (R := good) q). }
  apply bind_Ok in Hclose as (? & Hat & Hclose). apply require_Ok in Hat.
  apply bind_Ok in Hclose as (q1 & Hevent & Hclose).
  apply bind_Ok in Hclose as (row' & _ & [= <- <-]). eapply changes_row_good; [|done].
  eapply (closed_changes w q ask _ _ _ _ q); [done..| | |right; exact Hevent].
  - unfold ask_number, number. tells.
  - by apply not_asked.
Qed.

(** ** A step of the findings' store *)

(** What a transaction on asks leaves of the rest: the rows of findings,
    planners and runs, and the events that record findings. *)
Definition aside q q' : Prop :=
  Tables.findings q' = Tables.findings q ∧ Tables.planners q' = Tables.planners q
  ∧ Tables.runs q' = Tables.runs q
  ∧ (∃ new, Tables.log q' = Tables.log q ++ new ∧ ∀ e, e ∈ new → RunEvent.is_in e LEDGER_KINDS = false)
  ∧ (NoDup (RunEvent.id <$> Tables.log q) → NoDup (RunEvent.id <$> Tables.log q')).
#[local] Instance aside_preorder : PreOrder aside.
Proof.
  split.
  - intros q. split_and!; [done..| |done]. exists []. rewrite app_nil_r. split; [done|].
    intros e He. by apply elem_of_nil in He.
  - intros q1 q2 q3 (Hf1 & Hp1 & Hr1 & (new1 & Hl1 & Hno1) & Hn1) (Hf2 & Hp2 & Hr2 & (new2 & Hl2 & Hno2) & Hn2).
    split_and!; [congruence..| |auto]. exists (new1 ++ new2). rewrite Hl2, Hl1, app_assoc. split; [done|].
    intros e [He|He]%elem_of_app; auto.
Qed.
Lemma ask_event_aside w q task run kind payload q' :
  bool_decide (kind ∈ LEDGER_KINDS) = false → ask_event w q task run kind payload = Ok q' → aside q q'.
Proof.
  intros Hkind Hevent. unfold ask_event in Hevent. res_inv. split_and!; [done..| |].
  - eexists [_]. split; [reflexivity|]. intros e ->%list_elem_of_singleton. exact Hkind.
  - intros Hnd. unfold insert_event. cbn. rewrite fmap_app. apply NoDup_app. split_and!; [done| |apply NoDup_singleton].
    intros id Hid ->%list_elem_of_singleton. by apply (FindingStoreProofs.next_event_fresh q).
Qed.
Lemma insert_row_aside q row q' : insert_row q row = Ok q' → aside q q'.
Proof. intros [_ ->]%insert_row_Ok. exact (PreOrder_Reflexive (R := aside) q). Qed.
Lemma fold_aside {A S} (tables : S → Tables P) (f : S → A → result AskError S) l s s' :
  (∀ s x s', f s x = Ok s' → aside (tables s) (tables s')) →
  fold_result f s l = Ok s' → aside (tables s) (tables s').
Proof.
  intros Hf. induction l as [|x l IH] in s |- *; intros Hfold; simpl in Hfold; [by injection Hfold as <-|].
  apply bind_Ok in Hfold as (s1 & Hstep & Hfold). trans (tables s1); [by eapply Hf|by apply IH].
Qed.

(** A transaction that writes ask rows and events only. *)
Ltac aside :=
  repeat match goal with
  | H : Ok _ = Ok _ |- _ => injection H; clear H; intros; subst
  | H : Err _ = Ok _ |- _ => discriminate H
  | H : (let '(_, _) := write_answer _ _ _ _ _ _ in _) = Ok _ |- _ => unfold write_answer in H
  | H : _ ≫= _ = Ok _ |- _ => apply bind_Ok in H as (? & ? & H)
  | H : (if ?b then _ else _) = Ok _ |- _ => destruct b
  | H : (match ?x with _ => _ end) = Ok _ |- _ => destruct x
  | H : record_ask_closed _ _ _ = Ok _ |- _ => unfold record_ask_closed in H
  | H : ask_event _ _ _ _ _ _ = Ok _ |- _ => apply ask_event_aside in H; [|reflexivity]
  | H : insert_row _ _ = Ok _ |- _ => apply insert_row_aside in H
  end;
  repeat match goal with
  | |- aside ?q ?q => exact (PreOrder_Reflexive (R := aside) q)
  | H : aside ?q1 ?q2 |- aside ?q ?q2 => trans q1; [clear H|exact H]
  | |- aside ?q (update_ask ?q1 _ _) => change (aside q q1)
  | |- aside ?q (close_ask_row _ ?q1 _) => change (aside q q1)
  end.
Lemma close_by_runtime_aside w q ask text q' : close_by_runtime w q ask text = Ok q' → aside q q'.
Proof. intros Hop. unfold close_by_runtime in Hop. aside. Qed.
Lemma discard_by_runtime_aside w q ask reason note q' : discard_by_runtime w q ask reason note = Ok q' → aside q q'.
Proof. intros Hop. unfold discard_by_runtime in Hop. cbv zeta in Hop. aside. Qed.
Lemma close_hold_aside w q ask text q' : close_hold w q ask text = Ok q' → aside q q'.
Proof. intros Hop. unfold close_hold in Hop. aside. Qed.
Lemma supersede_aside w q ask q' : supersede w q ask = Ok q' → aside q q'.
Proof. intros Hop. unfold supersede in Hop. aside. Qed.
Lemma close_ask_aside w q id q' row : close_ask w q id = Ok (q', row) → aside q q'.
Proof. intros Hop. unfold close_ask in Hop. aside. Qed.
Lemma deliver_ask_in_aside w q id workspace q' row : deliver_ask_in w q id workspace = Ok (q', row) → aside q q'.
Proof. intros Hop. unfold deliver_ask_in in Hop. aside. Qed.
Lemma insert_ask_aside w q new created_at q' outcome :
  insert_ask routes w q new created_at = Ok (q', outcome) → aside q q'.
Proof. intros Hop. unfold insert_ask in Hop. cbv zeta in Hop. aside. Qed.
Lemma hold_aside w q hold_ created_at q' outcome : hold w q hold_ created_at = Ok (q', outcome) → aside q q'.
Proof. intros Hop. unfold hold, open_hold, join_hold in Hop. cbv zeta in Hop. aside. Qed.
Lemma open_update_ask_aside w q kind question options asked_by subject details created_at q' opened :
  open_update_ask w q kind question options asked_by subject details created_at = Ok (q', opened) → aside q q'.
Proof.
  intros Hop. unfold open_update_ask, open_new_update_ask in Hop. cbv zeta in Hop.
  apply bind_Ok in Hop as (? & _ & Hop). apply bind_Ok in Hop as (? & _ & Hop).
  apply bind_Ok in Hop as (? & _ & Hop). apply bind_Ok in Hop as ([|] & _ & Hop); [aside|].
  apply bind_Ok in Hop as (q1 & Hfold & Hop). trans q1; [|aside].
  apply (fold_aside id) in Hfold; [done|]. apply supersede_aside.
Qed.
Lemma close_installed_update_ask_aside w q id text installed q' closed :
  close_installed_update_ask w q id text installed = Ok (q', closed) → aside q q'.
Proof. intros Hop. unfold close_installed_update_ask in Hop. aside. Qed.
Lemma close_each_aside close q asks q' closed :
  (∀ q ask q', close q ask = Ok q' → aside q q') →
  close_each close q asks = Ok (q', closed) → aside q q'.
Proof.
  intros Hclose Hfold. apply (fold_aside fst) in Hfold; [done|].
  intros [q1 closed1] ask [q2 closed2] Hop. apply bind_Ok in Hop as (q3 & Hop%Hclose & Hread).
  apply bind_Ok in Hread as (row & _ & [= <- <-]). done.
Qed.
Lemma note_on_asks_aside w q run note why q' noted :
  note_on_asks w q run note why = Ok (q', noted) → aside q q'.
Proof.
  intros Hfold. apply (fold_aside fst) in Hfold; [done|].
  intros [q1 noted1] ask [q2 noted2] Hop. unfold note_one in Hop. cbv zeta in Hop. cbn [fst]. aside.
Qed.

(** ** Sequences of transactions *)
Inductive step : Tables P → Tables P → Prop :=
  | step_open w q new created_at q' outcome : open_ask routes w q new created_at = Ok (q', outcome) → step q q'
  | step_hold w q hold_ created_at q' outcome : hold w q hold_ created_at = Ok (q', outcome) → step q q'
  | step_update w q kind question options asked_by subject details created_at q' opened :
      open_update_ask w q kind question options asked_by subject details created_at = Ok (q', opened) → step q q'
  | step_answer w q id text answerer q' row : answer_as routes w q id text answerer = Ok (q', row) → step q q'
  | step_close w q id q' row : close_ask w q id = Ok (q', row) → step q q'
  | step_deliver w q id workspace q' row : deliver_ask_in w q id workspace = Ok (q', row) → step q q'
  | step_withdraw w q ask text q' :
      ask ∈ Tables.asks q → Ask.closed_at ask = None → close_by_runtime w q ask text = Ok q' → step q q'
  | step_discard w q ask reason note q' :
      ask ∈ Tables.asks q → Ask.closed_at ask = None → discard_by_runtime w q ask reason note = Ok q' → step q q'
  | step_close_asks w q run task kind text q' closed :
      close_asks_in w q run task kind text = Ok (q', closed) → step q q'
  | step_close_run w q run text q' closed : close_run_asks w q run text = Ok (q', closed) → step q q'
  | step_close_request w q request text q' ids :
      close_request_asks_in w q request text = Ok (q', ids) → step q q'
  | step_close_landing w q task q' closed : close_ended_landing_asks routes w q task = Ok (q', closed) → step q q'
  | step_close_hold w q reason subject text q' closed :
      close_hold_asks w q reason subject text = Ok (q', closed) → step q q'
  | step_installed w q id text installed q' closed :
      close_installed_update_ask w q id text installed = Ok (q', closed) → step q q'
  | step_note w q run note why q' noted : note_on_asks w q run note why = Ok (q', noted) → step q q'
  | step_beside q q' : FindingStoreProofs.step q q' → quiet q q' → step q q'.

(** No ask yet, no event of one, and no finding. *)
Definition initial q : Prop :=
  Tables.asks q = [] ∧ opened q = [] ∧ answered q = [] ∧ FindingStoreProofs.initial q.
Definition reachable q : Prop := ∃ q0, initial q0 ∧ rtc step q0 q.

Lemma step_good q q' : step q q' → good q q'.
Proof.
  intros [].
  - by eapply open_ask_good.
  - by eapply hold_good.
  - by eapply open_update_ask_good.
  - by eapply answer_as_good.
  - by eapply close_ask_good.
  - by eapply deliver_ask_in_good.
  - intros Hwf. eapply changes_row_good; [|done]. by eapply close_by_runtime_changes.
  - intros Hwf. eapply changes_row_good; [|done]. by eapply discard_by_runtime_changes.
  - by eapply close_asks_in_good.
  - by eapply close_run_asks_good.
  - by eapply close_request_asks_in_good.
  - by eapply close_ended_landing_asks_good.
  - by eapply close_hold_asks_good.
  - by eapply close_installed_update_ask_good.
  - by eapply note_on_asks_good.
  - by apply quiet_good.
Qed.
Lemma steps_good q q' : rtc step q q' → good q q'.
Proof. induction 1 as [q|q1 q2 q3 Hstep _ IH]; [done|]. trans q2; [by apply step_good|exact IH]. Qed.
Lemma initial_wf q : initial q → asks_wf q.
Proof.
  intros (Hasks & Ho & Ha & _). split; rewrite ?Hasks, ?Ho, ?Ha; try apply NoDup_nil_2; [|done|].
  - intros a Hin. by apply elem_of_nil in Hin.
  - intros n. split; [by intros ?%elem_of_nil|]. by intros (a & ?%elem_of_nil & _).
Qed.
Lemma reachable_wf q : reachable q → asks_wf q.
Proof. intros (q0 & Hinitial%initial_wf & Hsteps). by apply steps_good in Hsteps as [? _]. Qed.

(** *** The findings' store *)
Lemma aside_step q q' : FindingStoreProofs.inv q → aside q q' → FindingStoreProofs.step q q'.
Proof.
  intros [Hwf _] (Hf & Hp & Hr & Hlog & Hnd). apply FindingStoreProofs.step_outside. split.
  - exact Hf.
  - exists id, []. rewrite app_nil_r, list_fmap_id. split_and!; [exact Hp|done| |].
    + intros p Hin. by apply elem_of_nil in Hin.
    + rewrite Hp. apply (FindingStoreProofs.wf_planner_ids _ Hwf).
  - rewrite Hr. apply (FindingStoreProofs.wf_runs _ Hwf).
  - destruct Hlog as (new & Hlog & Hno). exists new. split_and!; [done..|].
    apply Hnd, (FindingStoreProofs.wf_log _ Hwf).
Qed.
Lemma answer_as_steps w q id text answerer q' row :
  answer_as routes w q id text answerer = Ok (q', row) →
  ∃ ask q1 q2 applied, aside q q1 ∧ apply_answer w q1 ask text (Answerer.by_ answerer) = Ok (q2, applied) ∧ aside q2 q'.
Proof.
  intros Hop. unfold answer_as in Hop. cbv zeta in Hop. apply bind_Ok in Hop as (? & _ & Hop).
  apply bind_Ok in Hop as (ask & _ & Hop). apply bind_Ok in Hop as (? & _ & Hop).
  apply bind_Ok in Hop as (? & _ & Hop). exists ask. unfold write_answer in Hop.
  apply bind_Ok in Hop as ([q2 applied] & Happly & Hop).
  unfold AskError.of_finding in Happly. destruct (apply_answer _ _ _ _ _) as [[q2' applied']|] eqn:Hcase; [|done].
  injection Happly as -> ->. eexists _, q2, applied. split_and!; [|exact Hcase|].
  - exact (PreOrder_Reflexive (R := aside) q).
  - clear Hcase. destruct applied; unfold answer_applied in Hop; cbv zeta in Hop; aside.
Qed.
Lemma step_finding_steps q q' : step q q' → FindingStoreProofs.inv q → rtc FindingStoreProofs.step q q'.
Proof.
  intros Hstep Hinv. assert (aside q q' → rtc FindingStoreProofs.step q q') as Haside.
  { intros Haside. apply rtc_once. by apply aside_step. }
  destruct Hstep.
  - apply Haside. unfold open_ask in H0. apply bind_Ok in H0 as (? & _ & Hop). by eapply insert_ask_aside.
  - apply Haside. by eapply hold_aside.
  - apply Haside. by eapply open_update_ask_aside.
  - clear Haside. destruct (answer_as_steps _ _ _ _ _ _ _ H0) as (ask & q1 & q2 & applied & H1 & H2 & H3).
    apply aside_step in H1; [|done]. pose proof (FindingStoreProofs.step_inv _ _ H1 Hinv) as Hinv1.
    assert (FindingStoreProofs.step q1 q2) as H2' by (by eapply FindingStoreProofs.step_answer).
    pose proof (FindingStoreProofs.step_inv _ _ H2' Hinv1) as Hinv2.
    eapply rtc_l; [exact H1|]. eapply rtc_l; [exact H2'|]. apply rtc_once. by apply aside_step.
  - apply Haside. by eapply close_ask_aside.
  - apply Haside. by eapply deliver_ask_in_aside.
  - apply Haside. by eapply close_by_runtime_aside.
  - apply Haside. by eapply discard_by_runtime_aside.
  - apply Haside. eapply close_each_aside; [|done]. intros ? ? ?. apply close_by_runtime_aside.
  - apply Haside. eapply close_each_aside; [|done]. intros ? ? ?. apply close_by_runtime_aside.
  - apply Haside. apply bind_Ok in H0 as (q1 & Hfold & [= <- <-]).
    apply (fold_aside id) in Hfold; [done|]. intros ? ? ?. apply close_by_runtime_aside.
  - apply Haside. eapply close_each_aside; [|done]. intros q1 ask q2 Hop. cbn beta in Hop.
    destruct (ended_landing_answer _ _ _ _); [by eapply close_by_runtime_aside|].
    injection Hop as <-. exact (PreOrder_Reflexive (R := aside) q1).
  - apply Haside. eapply close_each_aside; [|done]. intros ? ? ?. apply close_hold_aside.
  - apply Haside. by eapply close_installed_update_ask_aside.
  - apply Haside. by eapply note_on_asks_aside.
  - by apply rtc_once.
Qed.
Lemma reachable_findings q : reachable q → FindingStoreProofs.reachable q.
Proof.
  intros (q0 & (Hasks & Ho & Ha & Hinitial) & Hsteps). clear Hasks Ho Ha.
  assert (FindingStoreProofs.reachable q0) as Hreachable by (by exists q0). clear Hinitial.
  induction Hsteps as [|q1 q2 q3 Hstep _ IH]; [done|]. apply IH.
  pose proof (FindingStoreProofs.reachable_inv _ Hreachable) as Hinv.
  destruct Hreachable as (q0 & Hinitial & Hsteps). exists q0. split; [done|].
  etrans; [exact Hsteps|]. by apply step_finding_steps.
Qed.

(** ** The unique index *)
Lemma kind_inj k1 k2 :
  AskKind.is_known k1 = true → AskKind.is_known k2 = true → AskKind.as_str k1 = AskKind.as_str k2 → k1 = k2.
Proof. intros H1 H2 Heq. by rewrite <-(AskKind.read_as_str_known k1), Heq, AskKind.read_as_str_known. Qed.
Lemma subject_inj r1 r2 :
  unwrap_or (request_ask_subject <$> r1) "" = unwrap_or (request_ask_subject <$> r2) "" → r1 = r2.
Proof.
  unfold request_ask_subject, format. cbn [foldr].
  destruct r1 as [[n1]|], r2 as [[n2]|]; cbn; rewrite ?append_nil_r; [|discriminate|discriminate|done].
  intros Heq. injection Heq as Heq. apply decimal_inj in Heq. cbn in Heq. by subst.
Qed.
Lemma open_key_free q row :
  asks_wf q → Ask.is_open row = true →
  (∀ a, a ∈ Tables.asks q → Ask.is_open a = true → open_key a ≠ open_key row) →
  asks_open_holds (Tables.asks q ++ [row]) = true.
Proof.
  intros Hwf Hopen Hfree. unfold asks_open_holds. apply bool_decide_eq_true.
  rewrite List.filter_app, fmap_app. simpl. rewrite Hopen. apply NoDup_app.
  split_and!; [apply (wf_keys _ Hwf)| |apply NoDup_singleton].
  intros key (a & -> & Ha)%list_elem_of_fmap Hkey%list_elem_of_singleton.
  apply list_elem_of_In, filter_In in Ha as [Ha%list_elem_of_In Hopena]. by apply (Hfree a).
Qed.
Lemma insert_row_accepts q row :
  asks_wf q → Ask.is_open row = true →
  (∀ a, a ∈ Tables.asks q → Ask.is_open a = true → open_key a ≠ open_key row) →
  insert_row q row ≠ Err AskError.NotUnique.
Proof. intros. unfold insert_row. by rewrite open_key_free. Qed.

(** What a transaction is not refused for. *)
Definition accepts {A} (r : result AskError A) : Prop := r ≠ Err AskError.NotUnique.
Lemma accepts_Ok {A} (x : A) : accepts (Ok x).
Proof. done. Qed.
Lemma accepts_bind {A B} (m : result AskError A) (f : A → result AskError B) :
  accepts m → (∀ x, m = Ok x → accepts (f x)) → accepts (m ≫= f).
Proof. intros Hm Hf. destruct m as [x|e]; simpl; [by apply Hf|]. unfold accepts in *. congruence. Qed.
Lemma accepts_fmap {A B} (f : A → B) (m : result AskError A) : accepts m → accepts (f <$> m).
Proof. intros Hm. destruct m as [x|e]; simpl; [done|]. unfold accepts in *. congruence. Qed.
Lemma accepts_domain {A} (r : Result A) : accepts (AskError.of_domain r).
Proof. by destruct r. Qed.
Lemma accepts_finding {A} (r : result FindingError A) : accepts (AskError.of_finding r).
Proof. by destruct r. Qed.
Lemma accepts_require b error : error ≠ AskError.NotUnique → accepts (require b error).
Proof. destruct b; [done|]. simpl. unfold accepts. congruence. Qed.
Lemma accepts_read q id : accepts (read q id).
Proof. apply accepts_finding. Qed.
Lemma accepts_event w q task run kind payload : accepts (ask_event w q task run kind payload).
Proof.
  unfold ask_event. repeat (apply accepts_bind; [apply accepts_domain|intros ? _]). apply accepts_Ok.
Qed.
Lemma accepts_run_task q run : accepts (run_task q run).
Proof. unfold run_task. by destruct (List.find _ _) as [[]|]. Qed.
Create HintDb accepts.
#[local] Hint Resolve @accepts_Ok @accepts_domain @accepts_finding @accepts_read @accepts_event @accepts_run_task : accepts.
Ltac accepts :=
  repeat (apply accepts_bind; [solve [auto with accepts | by apply accepts_require]|intros ? ?]);
  auto with accepts.

Lemma valid_not_update q new task :
  NewAsk.validate new = Ok tt → task_of_new q new = Ok task →
  check_ask_kind (NewAsk.kind new) task (NewAsk.run_id new) (NewAsk.reason_category new) = Ok tt →
  AskKind.is_update (NewAsk.kind new) = false.
Proof.
  intros Hvalid Htask Hcheck. apply not_true_iff_false. intros Hupdate.
  assert (task = None) as ->.
  { unfold check_ask_kind in Hcheck. apply bind_Ok in Hcheck as (? & _ & Hcheck).
    apply bind_Ok in Hcheck as (? & _ & Hcheck). apply bind_Ok in Hcheck as (? & Hnone & _).
    apply require_Ok in Hnone. rewrite Hupdate in Hnone. by destruct task. }
  unfold NewAsk.validate in Hvalid. do 9 (apply bind_Ok in Hvalid as (_ & _ & Hvalid)).
  apply require_Ok in Hvalid. unfold task_of_new in Htask.
  destruct (NewAsk.run_id new); [destruct (run_task q _); discriminate Htask|].
  destruct (NewAsk.task_id new); [apply bind_Ok in Htask as (? & _ & [=])|].
  by destruct (NewAsk.kind new).
Qed.
Lemma matter_of_key q new task created_at a :
  NewAsk.validate new = Ok tt →
  check_ask_kind (NewAsk.kind new) task (NewAsk.run_id new) (NewAsk.reason_category new) = Ok tt →
  task_of_new q new = Ok task →
  row_ok a → Ask.is_open a = true → open_key a = open_key (new_ask_row q new task created_at) →
  same_matter new task a = true.
Proof.
  intros Hvalid Hcheck Htask [Hknown _ Hshape] Hopen Hkey.
  pose proof (valid_kind _ Hvalid) as Hhold. pose proof (check_known _ _ _ _ Hcheck) as Hknown'.
  injection Hkey as Hk1 Hk2 Hk3 Hk4 Hk5 Hk6. simpl in *.
  pose proof (kind_inj _ _ Hknown Hknown' Hk3) as Hkind.
  pose proof (valid_not_update _ _ _ Hvalid Htask Hcheck) as Hupdate.
  unfold same_matter. rewrite Hk1, Hk2, Hk3, Hk6, Hopen.
  destruct (Hshape Hopen) as [_ Hsubject]. rewrite Hkind in Hsubject. specialize (Hsubject Hhold Hupdate).
  rewrite Hsubject in Hk5. apply subject_inj in Hk5. rewrite Hk5.
  by rewrite !bool_decide_eq_true_2.
Qed.
Lemma accepts_open_ask w q new created_at : asks_wf q → accepts (open_ask routes w q new created_at).
Proof.
  intros Hwf. unfold open_ask. apply accepts_bind; [apply accepts_domain|].
  intros [] Hvalid%ask_domain_Ok. unfold insert_ask. cbv zeta. apply accepts_bind.
  { unfold task_of_new. destruct (NewAsk.run_id new); [|destruct (NewAsk.task_id new); [accepts|apply accepts_Ok]].
    apply accepts_fmap, accepts_run_task. }
  intros task Htask. apply accepts_bind; [apply accepts_domain|]. intros [] Hcheck%ask_domain_Ok.
  apply accepts_bind; [apply accepts_domain|]. intros ? _.
  apply accepts_bind; [destruct (NewAsk.finding_id new); [accepts|apply accepts_Ok]|]. intros ? _.
  apply accepts_bind; [destruct (NewAsk.request_id new); [by apply accepts_require|apply accepts_Ok]|]. intros ? _.
  destruct (List.find _ _) eqn:Hfind; [apply accepts_Ok|]. apply accepts_bind; [|intros; accepts].
  apply insert_row_accepts; [done..|]. intros a Ha Hopen Hkey.
  pose proof (List.find_none _ _ Hfind a) as Hnone. rewrite (matter_of_key q _ _ created_at) in Hnone; try done.
  - by discriminate Hnone; apply list_elem_of_In.
  - by apply (wf_ask_rows _ Hwf).
Qed.
Lemma accepts_hold w q hold_ created_at : asks_wf q → accepts (hold w q hold_ created_at).
Proof.
  intros Hwf. unfold hold. apply accepts_bind; [apply accepts_domain|]. intros ? _. apply accepts_bind.
  { destruct (NewHold.run_id hold_) as [run|]; [|apply accepts_Ok].
    apply accepts_fmap, accepts_run_task. }
  intros task _. destruct (List.find _ _) as [ask|] eqn:Hfind.
  { destruct (NewHold.entry hold_); [|apply accepts_Ok]. case_bool_decide; [apply accepts_Ok|].
    unfold join_hold. cbv zeta. accepts. }
  unfold open_hold. cbv zeta. apply accepts_bind; [apply accepts_domain|]. intros ? _.
  apply accepts_bind; [|intros; accepts]. apply insert_row_accepts; [done..|]. intros a Ha Hopen Hkey.
  pose proof (List.find_none _ _ Hfind a) as Hnone.
  injection Hkey as _ _ Hkind Hreason Hsubject _. simpl in *.
  apply (kind_inj _ AskKind.QueueHold) in Hkind; [|by apply (wf_ask_rows _ Hwf)|done].
  unfold hold_matter, of_kind in Hnone. rewrite !bool_decide_eq_true_2, Hopen in Hnone by done.
  by discriminate Hnone; apply list_elem_of_In.
Qed.

(** ** What is promised *)
Lemma row_of q ask row : asks_wf q → ask ∈ Tables.asks q → read q (Ask.id ask) = Ok row → row = ask.
Proof.
  intros Hwf Hin Hread. apply read_Ok in Hread as [Hrow Hid]. by eapply unique_row; [apply (wf_numbers _ Hwf)|..].
Qed.
Lemma read_row q ask : asks_wf q → ask ∈ Tables.asks q → read q (Ask.id ask) = Ok ask.
Proof.
  intros Hwf Hin. unfold read, read_ask, AskError.of_finding.
  destruct (List.find _ _) as [row|] eqn:Hfind.
  - apply List.find_some in Hfind as [Hrow Hid]. bool_split. apply list_elem_of_In in Hrow. f_equal.
    by eapply unique_row; [apply (wf_numbers _ Hwf)|..].
  - apply list_elem_of_In in Hin. pose proof (List.find_none _ _ Hfind _ Hin) as Hnone.
    cbn beta in Hnone. by rewrite bool_decide_eq_true_2 in Hnone.
Qed.


(** Whatever transactions follow, an ask stays in the table, of the same
    kind, task, run and options; and once answered it keeps its answer, by whom
    and when it was given, the option and the approval, and is open no more. *)
Theorem answers_stand q q' ask :
  reachable q → rtc step q q' → ask ∈ Tables.asks q →
  ∃ ask', read q' (Ask.id ask) = Ok ask'
  ∧ (Ask.kind ask', Ask.task_id ask', Ask.run_id ask', Ask.options ask')
    = (Ask.kind ask, Ask.task_id ask, Ask.run_id ask, Ask.options ask)
  ∧ (Ask.is_open ask = false →
      Ask.is_open ask' = false
      ∧ (Ask.answer ask', Ask.answered_at ask', Ask.answered_by ask', Ask.answer_authority ask',
         Ask.option_index ask', Ask.answer_approval ask')
        = (Ask.answer ask, Ask.answered_at ask, Ask.answered_by ask, Ask.answer_authority ask,
           Ask.option_index ask, Ask.answer_approval ask))
  ∧ (is_some (Ask.closed_at ask) = true → Ask.closed_at ask' = Ask.closed_at ask).
Proof.
  intros Hwf%reachable_wf Hsteps Hin. destruct (steps_good _ _ Hsteps Hwf) as [Hwf' Hkept].
  destruct (Hkept ask Hin) as (ask' & Hin' & Hstands). exists ask'. destruct Hstands as [Hmatter Hanswer Hclosed].
  assert (Ask.id ask' = Ask.id ask) as Hid by congruence.
  split_and!; [rewrite <-Hid; by apply read_row|congruence| |exact Hclosed].
  intros Hopen. pose proof (wf_ask_rows _ Hwf _ Hin) as Hok.
  assert (is_some (Ask.answered_at ask) = true) as Hat.
  { destruct (Ask.answered_at ask) eqn:Hnone; [done|]. apply (is_open_iff ask Hok) in Hnone. congruence. }
  specialize (Hanswer Hat). split; [|congruence]. unfold Ask.is_open.
  replace (Ask.answered_at ask') with (Ask.answered_at ask) by congruence. by destruct (Ask.answered_at ask).
Qed.

(** C29: No approval is the runtime's: an answer recorded as approving was a
    user's or a delegate's, on an ask of a kind that is an approval, or on one
    that offered the answer for a finding. *)
Theorem approvals_are_peoples q ask :
  reachable q → ask ∈ Tables.asks q → Ask.answer_approval ask = Some true →
  (∃ text, Ask.answer ask = Some text ∧ answer_approves ask text = true)
  ∧ Ask.answer_authority ask ∈ [Some AnswerAuthority.User; Some AnswerAuthority.Delegated]
  ∧ (AskKind.is_approval (Ask.kind ask) = true ∨ AskKind.offers_finding_answers (Ask.kind ask) = true).
Proof.
  intros Hwf%reachable_wf Hin Happroval. destruct (wf_ask_rows _ Hwf _ Hin) as [_ Hanswer _].
  destruct (Ask.answered_at ask); [|destruct Hanswer as (_ & _ & Hnone); congruence].
  destruct Hanswer as (text & answerer & Htext & _ & Hauthority & _ & Happroves).
  rewrite Happroval in Happroves. injection Happroves as Happroves. unfold approves in Happroves.
  symmetry in Happroves. bool_split. split_and!.
  - by exists text.
  - rewrite Hauthority. destruct (Answerer.authority answerer); set_solver.
  - unfold answer_approves in *. destruct (AskKind.is_approval _); [by left|right].
    by destruct (AskKind.offers_finding_answers _).
Qed.

(** C30: There is one open ask of a matter: no two agree in task, run, kind,
    reason, subject and finding.  So the unique index of open asks refuses
    neither a new ask nor a hold, which find the open ask instead. *)
Theorem one_open_ask_per_matter q :
  reachable q →
  (∀ a1 a2, a1 ∈ Tables.asks q → a2 ∈ Tables.asks q → Ask.is_open a1 = true → Ask.is_open a2 = true →
     open_key a1 = open_key a2 → a1 = a2)
  ∧ (∀ w new created_at, open_ask routes w q new created_at ≠ Err AskError.NotUnique)
  ∧ (∀ w hold_ created_at, hold w q hold_ created_at ≠ Err AskError.NotUnique).
Proof.
  intros Hwf%reachable_wf. split_and!.
  - intros a1 a2 H1 H2 Ho1 Ho2 Hkey. eapply (nodup_key_inj open_key); [apply (wf_keys _ Hwf)| | |exact Hkey];
      apply list_elem_of_In, filter_In; split; try done; by apply list_elem_of_In.
  - intros. by apply accepts_open_ask.
  - intros. by apply accepts_hold.
Qed.

(** An answer taken is written whole: it is not blank, names no bare
    operation, and was given to an open ask; the row holds the text, who gave
    it with what authority, the option it is and whether it approves; the event
    of the answer is the last, and no other ask's row is touched. *)
Theorem answer_recorded q w id text answerer q' row :
  reachable q → answer_as routes w q id text answerer = Ok (q', row) →
  is_blank text = false
  ∧ (∃ ask, read q id = Ok ask ∧ Ask.is_open ask = true ∧ refuse_bare_action routes q ask text = Ok tt
       ∧ Ask.option_index row = option_index (Ask.options ask) text)
  ∧ read q' id = Ok row ∧ answered_as row text answerer
  ∧ Ask.answered_at row = Some (Connection.now w)
  ∧ answered q' = answered q ++ [AskId.as_i64 id]
  ∧ (∀ other, Ask.id other ≠ id → other ∈ Tables.asks q' ↔ other ∈ Tables.asks q).
Proof.
  intros Hwf%reachable_wf Hanswer. pose proof (answer_as_good _ _ _ _ _ _ _ Hanswer Hwf) as [Hwf' _].
  apply answer_as_changes in Hanswer
    as (Hblank & ask & Hread & Hopen & Hbare & closed & finding & Hasks & _ & Ha & Hrow).
  destruct (read_Ok _ _ _ Hread) as [Hin Hid]. subst id.
  rewrite upd_replaced in Hasks by (done || apply (wf_numbers _ Hwf)). simpl in Hasks.
  destruct (answered_row_spec (Connection.now w) ask text answerer closed finding)
    as (_ & Hstands & Hat & _ & Has & _); [by apply (wf_ask_rows _ Hwf)|done|].
  set (ask' := afterwards _ _ _) in *. pose proof (stands_id _ _ Hstands) as Hid.
  assert (row = ask') as ->.
  { apply (row_of q'); [done| |by rewrite Hid]. rewrite Hasks. by apply replaced_elem. }
  assert (Ask.options ask' = Ask.options ask) as Hoptions by (destruct Hstands; congruence).
  split_and!; [done| |done..|].
  - exists ask. split_and!; [done..|]. rewrite <-Hoptions. apply Has.
  - intros other Hother. rewrite Hasks. split.
    + intros [->|[Hin' _]]%elem_of_replaced; [by rewrite Hid in Hother|done].
    + intros Hin'. by apply replaced_other.
Qed.

(** C28: An ask is answered once: whatever follows an answer, a second one is
    refused, and the first is still the ask's. *)
Theorem answered_once q w id text answerer q' row q'' w' text' answerer' :
  reachable q → answer_as routes w q id text answerer = Ok (q', row) → rtc step q' q'' →
  is_blank text' = false →
  answer_as routes w' q'' id text' answerer' = Err (AskError.NotOpen id)
  ∧ ∃ row'', read q'' id = Ok row'' ∧ answered_as row'' text answerer.
Proof.
  intros Hwf%reachable_wf Hanswer Hsteps Hblank.
  pose proof (answer_as_good _ _ _ _ _ _ _ Hanswer Hwf) as [Hwf' _].
  apply answer_as_changes in Hanswer
    as (_ & ask & Hread & Hopen & _ & closed & finding & Hasks & _).
  destruct (read_Ok _ _ _ Hread) as [Hin Hid]. subst id.
  rewrite upd_replaced in Hasks by (done || apply (wf_numbers _ Hwf)). simpl in Hasks.
  destruct (answered_row_spec (Connection.now w) ask text answerer closed finding)
    as (_ & Hstands & Hat & Hnot & Has & _); [by apply (wf_ask_rows _ Hwf)|done|].
  set (ask' := afterwards _ _ _) in *. pose proof (stands_id _ _ Hstands) as Hid.
  assert (ask' ∈ Tables.asks q') as Hin' by (rewrite Hasks; by apply replaced_elem).
  destruct (steps_good _ _ Hsteps Hwf') as [Hwf'' Hkept].
  destruct (Hkept ask' Hin') as (row'' & Hrow'' & [Hm Hs Hc]).
  rewrite Hat in Hs. specialize (Hs eq_refl). assert (Ask.id row'' = Ask.id ask) as Hid'' by congruence.
  assert (read q'' (Ask.id ask) = Ok row'') as Hread'' by (rewrite <-Hid''; by apply read_row).
  split.
  - unfold answer_as. rewrite Hblank. simpl. rewrite Hread''. simpl. unfold Ask.is_open.
    replace (Ask.answered_at row'') with (Some (Connection.now w)) by congruence. done.
  - exists row''. split; [done|]. destruct Has as (H1 & H2 & H3 & H4 & H5).
    assert (Ask.options row'' = Ask.options ask') as Hoptions by congruence.
    assert (Ask.kind row'' = Ask.kind ask') as Hkind by congruence.
    unfold answered_as, approves, answer_approves in *. rewrite Hoptions, Hkind. split_and!; congruence.
Qed.

(** The ask a hold returns. *)
Lemma join_hold_row w q hold_ task old entry q' outcome :
  asks_wf q' → old ∈ Tables.asks q → join_hold w q hold_ task old entry = Ok (q', outcome) →
  let affected := Ask.affected old ++ [entry] in
  HoldOutcome.ask outcome ∈ Tables.asks q'
  ∧ HoldOutcome.ask outcome
    = old <| Ask.affected := affected |>
          <| Ask.question := NewHold.question_for (NewHold.base_question (Ask.question old)) affected |>.
Proof.
  intros Hwf' Hold Hjoin affected. unfold join_hold in Hjoin. cbv zeta in Hjoin.
  apply bind_Ok in Hjoin as (q1 & Hevent & Hjoin). apply bind_Ok in Hjoin as (joined & Hread & [= <- <-]).
  apply (ask_event_spec w _ _ _ _ _ q1 (number old)) in Hevent as (Hasks & _); [|unfold ask_number, number; tells].
  split; [by apply read_Ok in Hread as [? _]|]. eapply row_of; [exact Hwf'| |destruct old; exact Hread].
  rewrite Hasks. apply list_elem_of_fmap. exists old. by rewrite bool_decide_eq_true_2.
Qed.
Lemma open_hold_row w q hold_ created_at q' outcome :
  asks_wf q' → open_hold w q hold_ created_at = Ok (q', outcome) →
  HoldOutcome.ask outcome ∈ Tables.asks q'
  ∧ HoldOutcome.ask outcome = hold_row q hold_ (option_list (NewHold.entry hold_)) created_at.
Proof.
  intros Hwf' Hopen. unfold open_hold in Hopen. apply bind_Ok in Hopen as (? & _ & Hopen).
  apply bind_Ok in Hopen as (q1 & Hrow & Hopen). apply bind_Ok in Hopen as (q2 & Hevent & Hopen).
  apply bind_Ok in Hopen as (row & Hread & [= <- <-]).
  split; [by apply read_Ok in Hread as [? _]|]. apply insert_row_Ok in Hrow as [_ ->].
  eapply ask_event_spec in Hevent as (Hasks & _); [|unfold ask_number, number; tells].
  eapply row_of; [exact Hwf'| |exact Hread]. rewrite Hasks. apply elem_of_app. right.
  apply list_elem_of_singleton. by destruct (NewHold.entry hold_).
Qed.
Lemma matter_affected q hold_ ask :
  asks_wf q → ask ∈ Tables.asks q → Ask.is_open ask = true → hold_matter hold_ ask = true →
  read q (Ask.id ask) = Ok ask ∧ NoDup (Ask.affected ask).
Proof.
  intros Hwf Hin Hopen Hmatter. split; [by apply read_row|].
  destruct (row_shape _ (wf_ask_rows _ Hwf _ Hin) Hopen) as [Hshape _].
  unfold hold_matter, of_kind in Hmatter. bool_split. by destruct Hshape as (_ & _ & _ & Hnd & _).
Qed.

(** A run or job that meets a hold is on its one open ask: the ask lists it,
    and nothing twice, and asks what the hold first asked, however many joined
    since. *)
Theorem hold_lists_each_once q w hold_ entry created_at q' outcome :
  reachable q → hold w q hold_ created_at = Ok (q', outcome) → NewHold.entry hold_ = Some entry →
  let ask := HoldOutcome.ask outcome in
  read q' (Ask.id ask) = Ok ask ∧ Ask.is_open ask = true ∧ hold_matter hold_ ask = true
  ∧ entry ∈ Ask.affected ask ∧ NoDup (Ask.affected ask)
  ∧ (Forall (λ entry, free_of newline entry = true) (Ask.affected ask) →
     NewHold.base_question (Ask.question ask)
     = match List.find (λ a, hold_matter hold_ a && Ask.is_open a) (Tables.asks q) with
       | Some old => NewHold.base_question (Ask.question old)
       | None => NewHold.question hold_
       end).
Proof.
  intros Hwf%reachable_wf Hhold Hentry ask. pose proof (hold_good _ _ _ _ _ _ Hhold Hwf) as [Hwf' _].
  unfold hold in Hhold. apply bind_Ok in Hhold as (? & _ & Hhold). apply bind_Ok in Hhold as (task & _ & Hhold).
  assert (ask ∈ Tables.asks q' → Ask.is_open ask = true → hold_matter hold_ ask = true →
    read q' (Ask.id ask) = Ok ask ∧ NoDup (Ask.affected ask)) as Hask by (by apply matter_affected).
  destruct (List.find _ (Tables.asks q)) as [old|] eqn:Hfind.
  - apply List.find_some in Hfind as [Hold%list_elem_of_In Hmatter]. apply andb_true_iff in Hmatter as [Hmatter Hopen].
    rewrite Hentry in Hhold. case_bool_decide as Hlisted.
    { injection Hhold as <- <-. simpl in ask. subst ask. by destruct Hask. }
    destruct (join_hold_row _ _ _ _ _ _ _ _ Hwf' Hold Hhold) as [Hin Hrow]. fold ask in Hin, Hrow.
    destruct Hask as [Hread Hnd]; [done|rewrite Hrow; by destruct old..|].
    split_and!; [done|rewrite Hrow; by destruct old|rewrite Hrow; by destruct old| |done|].
    + rewrite Hrow. destruct old. apply elem_of_app. right. by apply list_elem_of_singleton.
    + intros Hfree. rewrite Hrow in Hfree |- *. destruct old. apply AskProofs.base_question_for; [by intros []%app_eq_nil|].
      exact Hfree.
  - destruct (open_hold_row _ _ _ _ _ _ Hwf' Hhold) as [Hin Hrow]. fold ask in Hin, Hrow. rewrite Hentry in Hrow.
    destruct Hask as [Hread Hnd]; [done|rewrite Hrow; done| |].
    { rewrite Hrow. unfold hold_matter, of_kind. simpl. by rewrite !bool_decide_eq_true_2. }
    rewrite Hrow in *. split_and!; try done.
    + unfold hold_matter, of_kind. simpl. by rewrite !bool_decide_eq_true_2.
    + by apply list_elem_of_singleton.
    + intros Hfree. by apply AskProofs.base_question_for.
Qed.
End proofs.
End AskTableProofs.

(** ** Samples *)
Module AskSample.
Import AskTableProofs.

Definition conn (now : Z) : Connection := Connection.mk now "2026-01-01T00:00:00.000Z" None.
Definition routes : Routes EventPayload.t :=
  Routes.mk (λ _, Some RunStatus.Running) (λ _ _, true) (λ _, Some TaskStatus.InProgress) (λ _, true)
    (λ _, None) (λ _ _, Ok false) (λ _ _, Ok None) (λ _ _ _, Ok false) (λ _ _ _, Ok false)
    (λ _ _ _, Ok false) (λ _, true) (λ _, true).
Definition run (name : string) : RunId := RunId.wrap name.
Definition q0 : Tables EventPayload.t :=
  Tables.mk [] [] [] [] [TaskRow.mk (TaskId.new 1) TaskStatus.InProgress None None]
    [(run "a", TaskId.new 1); (run "b", TaskId.new 1)] [] [].
Definition decision : NewAsk :=
  NewAsk.mk AskKind.Decide None (Some (run "a")) "Which way?" ["wide"; "narrow"] "planner" AskReason.Scope
    [] None None None None.
Definition held (name : string) : NewHold :=
  NewHold.mk AskReason.Cost (Some USAGE_LIMIT_SUBJECT) (Some (run name)) None "The limit was met." HOLD_OPTIONS
    "supervisor".

Definition tables_of {A} (r : result AskError (Tables EventPayload.t * A)) : Tables EventPayload.t :=
  match r with Ok (q, _) => q | Err _ => q0 end.
Lemma ask_tables_Ok {A} (r : result AskError (Tables EventPayload.t * A)) :
  is_ok r = true → ∃ a, r = Ok (tables_of r, a).
Proof. destruct r as [[q a]|]; [|done]. by exists a. Qed.
(** A decision is asked, two runs meet the limit, and the decision is taken. *)
Definition q1 := tables_of (open_ask routes (conn 10) q0 decision 10).
Definition q2 := tables_of (hold (conn 20) q1 (held "a") 20).
Definition q3 := tables_of (hold (conn 30) q2 (held "b") 30).
Definition q4 := tables_of (answer_as routes (conn 40) q3 (AskId.new 1) "narrow" Answerer.PERSON).

Lemma asks_reachable_q0 : reachable routes q0.
Proof.
  exists q0. split; [|done]. split_and!; [done..|]. split_and!; [done|done| |apply NoDup_nil_2|].
  - intros row Hrow. apply list_elem_of_In in Hrow. simpl in Hrow.
    destruct Hrow as [<-|[<-|[]]]; intros r [= <-]; reflexivity.
  - intros e He. inv He.
Qed.
Lemma asks_reachable_step q q' : reachable routes q → step routes q q' → reachable routes q'.
Proof. intros (start & Hinitial & Hsteps) Hstep. exists start. split; [done|]. by eapply rtc_r. Qed.
Lemma asks_reachable_q1 : reachable routes q1.
Proof.
  destruct (ask_tables_Ok (open_ask routes (conn 10) q0 decision 10)) as [outcome Hok]; [vm_compute; reflexivity|].
  eapply asks_reachable_step; [apply asks_reachable_q0|]. by eapply step_open.
Qed.
Lemma asks_reachable_q2 : reachable routes q2.
Proof.
  destruct (ask_tables_Ok (hold (conn 20) q1 (held "a") 20)) as [outcome Hok]; [vm_compute; reflexivity|].
  eapply asks_reachable_step; [apply asks_reachable_q1|]. by eapply step_hold.
Qed.
Lemma asks_reachable_q3 : reachable routes q3.
Proof.
  destruct (ask_tables_Ok (hold (conn 30) q2 (held "b") 30)) as [outcome Hok]; [vm_compute; reflexivity|].
  eapply asks_reachable_step; [apply asks_reachable_q2|]. by eapply step_hold.
Qed.
Definition taken := answer_as routes (conn 40) q3 (AskId.new 1) "narrow" Answerer.PERSON.
Definition row : Ask :=
  match taken with Ok (_, row) => row | Err _ => hold_row q0 (held "a") [] 0 end.
Lemma taken_Ok : answer_as routes (conn 40) q3 (AskId.new 1) "narrow" Answerer.PERSON = Ok (q4, row).
Proof. vm_compute. reflexivity. Qed.
Lemma step_taken : step routes q3 q4.
Proof. eapply step_answer. exact taken_Ok. Qed.
Lemma asks_reachable_q4 : reachable routes q4.
Proof. eapply asks_reachable_step; [apply asks_reachable_q3|apply step_taken]. Qed.

Example asks_sample :
  ((λ a, (Ask.kind a, Ask.affected a, Ask.answer_approval a)) <$> Tables.asks q4)
  = [(AskKind.Decide, [], Some true); (AskKind.QueueHold, ["a"; "b"], None)].
Proof. vm_compute. reflexivity. Qed.

Lemma answers_stand_witness :
  ∃ ask', read q4 (AskId.new 1) = Ok ask' ∧ Ask.kind ask' = AskKind.Decide.
Proof.
  assert (List.nth 0 (Tables.asks q3) row ∈ Tables.asks q3) as Hin by (vm_compute; left).
  destruct (answers_stand routes q3 q4 _ asks_reachable_q3 (rtc_once _ _ step_taken) Hin) as (ask' & Hread & Hsame & _).
  exists ask'. split; [exact Hread|]. by injection Hsame as ->.
Defined.
Lemma approvals_are_peoples_witness : Ask.answer_authority row = Some AnswerAuthority.User ∧ row ∈ Tables.asks q4
  ∧ ∃ text, Ask.answer row = Some text ∧ answer_approves row text = true.
Proof.
  assert (row ∈ Tables.asks q4) as Hin by (vm_compute; left).
  split; [reflexivity|]. split; [exact Hin|].
  exact (proj1 (approvals_are_peoples routes q4 row asks_reachable_q4 Hin eq_refl)).
Defined.
Lemma one_open_ask_per_matter_witness : hold (conn 50) q4 (held "c") 50 ≠ Err AskError.NotUnique.
Proof. exact (proj2 (proj2 (one_open_ask_per_matter routes q4 asks_reachable_q4)) (conn 50) (held "c") 50%Z). Defined.
Lemma answer_recorded_witness :
  AskRowProofs.answered_as row "narrow" Answerer.PERSON ∧ Ask.answered_at row = Some 40%Z
  ∧ AskRowProofs.answered q4 = AskRowProofs.answered q3 ++ [1%Z].
Proof.
  destruct (answer_recorded routes q3 (conn 40) (AskId.new 1) "narrow" Answerer.PERSON q4 row asks_reachable_q3 taken_Ok)
    as (_ & _ & _ & Has & Hat & Ha & _).
  split; [exact Has|]. split; [exact Hat|exact Ha].
Defined.
Lemma answered_once_witness :
  answer_as routes (conn 60) q4 (AskId.new 1) "wide" Answerer.PERSON = Err (AskError.NotOpen (AskId.new 1)).
Proof.
  exact (proj1 (answered_once routes q3 (conn 40) (AskId.new 1) "narrow" Answerer.PERSON q4 row q4 (conn 60) "wide"
    Answerer.PERSON asks_reachable_q3 taken_Ok (rtc_refl _ _) eq_refl)).
Defined.
Definition joining := hold (conn 30) q2 (held "b") 30.
Definition joined : HoldOutcome.t :=
  match joining with Ok (_, outcome) => outcome | Err _ => HoldOutcome.mk row false false end.
Lemma joining_Ok : hold (conn 30) q2 (held "b") 30 = Ok (q3, joined).
Proof. vm_compute. reflexivity. Qed.
Lemma hold_lists_each_once_witness :
  Ask.affected (HoldOutcome.ask joined) = ["a"; "b"]
  ∧ NewHold.base_question (Ask.question (HoldOutcome.ask joined)) = "The limit was met.".
Proof.
  split; [vm_compute; reflexivity|].
  destruct (hold_lists_each_once routes q2 (conn 30) (held "b") "b" 30 q3 joined asks_reachable_q2 joining_Ok eq_refl)
    as (_ & _ & _ & _ & _ & Hbase).
  etrans; [apply Hbase|vm_compute; reflexivity]. apply Forall_forall. vm_compute. set_solver.
Defined.
End AskSample.
