(* ===== verification/Cancels.v ===== *)
(** * The reason of a cancel

    [src/src/domain/cancel_reason.rs]: what a cancel asked for records - the
    reason its actor gives, or the status of the task that holds the content -
    the refusals of a reason without what it needs, the fields the cancel's
    event takes, and what a reader makes of them, one recorded before reasons
    were kept included. *)
From S2P Require Import Prelude Text Vocab Ids Errors EventKinds Events.

Definition DUPLICATE : string := "duplicate".
Definition ALREADY_DONE : string := "already_done".
Definition ABSORBED : string := "absorbed".
Definition RE_REGISTERED : string := "re_registered".
Definition OTHER : string := "other".
Definition ANSWERED_CANCEL : string := "answered_cancel".
Definition UNRECORDED : string := "unrecorded".
Definition NEEDS_TARGET : list string := [DUPLICATE; ALREADY_DONE; ABSORBED; RE_REGISTERED].

Module CancelPath.
Inductive t : Set :=
  | PlanReview (proposal : ProposalId)
  | Answer (by_ : AskKind) (ask : AskId).
End CancelPath.
Abbreviation CancelPath := CancelPath.t.

Module CancelRecord.
Record t : Set := mk {
  reason : string;
  duplicate_of : option TaskId;
  note : option string;
  path : option CancelPath;
}.
(** What it adds to the payload of [task_status_changed]. *)
Definition fields {P} `{Payload P} (self : t) : list (string * P) :=
  [("reason", of_text (reason self))]
  ++ match duplicate_of self with
     | Some target => [("duplicate_of", of_number (TaskId.as_i64 target))]
     | None => []
     end
  ++ match note self with Some note => [("note", of_text note)] | None => [] end
  ++ match path self with
     | Some (CancelPath.PlanReview proposal) =>
         [("by", of_text "plan_review"); ("proposal_id", of_number (ProposalId.as_i64 proposal))]
     | Some (CancelPath.Answer by_ ask) =>
         [("by", of_text (AskKind.as_str by_)); ("ask_id", of_number (AskId.as_i64 ask))]
     | None => []
     end.
End CancelRecord.
Abbreviation CancelRecord := CancelRecord.t.

(** [map(str::trim).filter(|text| !text.is_empty())]. *)
Definition given (text : option string) : option string :=
  match text with
  | Some text => let text := trim text in if is_empty text then None else Some text
  | None => None
  end.

Module NewCancel.
Record t : Set := mk {
  reason : option string;
  duplicate_of : option TaskId;
  note : option string;
  path : option CancelPath;
}.
Definition by_hand (reason : option string) (duplicate_of : option TaskId) (note : option string) : t :=
  mk reason duplicate_of note None.
Definition plan_review (duplicate_of : TaskId) (proposal : ProposalId) : t :=
  mk None (Some duplicate_of) None (Some (CancelPath.PlanReview proposal)).
Definition answered (by_ : AskKind) (ask : AskId) : t :=
  mk (Some ANSWERED_CANCEL) None None (Some (CancelPath.Answer by_ ask)).

Definition record (self : t) (target : option TaskStatus) : Result CancelRecord :=
  reason ← match given (reason self), duplicate_of self with
           | Some reason, _ => Ok reason
           | None, Some _ =>
               if bool_decide (target = Some TaskStatus.Completed) then Ok ALREADY_DONE else Ok DUPLICATE
           | None, None => Err DomainError.CancelReasonMissing
           end;
  if (is_none (path self) && bool_decide (reason = ANSWERED_CANCEL)) || bool_decide (reason = UNRECORDED)
  then Err (DomainError.CancelReasonReserved reason)
  else if bool_decide (reason ∈ NEEDS_TARGET) && is_none (duplicate_of self)
  then Err (DomainError.CancelReasonNeedsTarget reason)
  else
    let note := given (note self) in
    if bool_decide (reason = OTHER) && is_none note then Err DomainError.CancelReasonNeedsNote
    else Ok (CancelRecord.mk reason (duplicate_of self) note (path self)).
End NewCancel.
Abbreviation NewCancel := NewCancel.t.

(** Whether a cancel of this recorded reason that names a task pairs it as a
    duplicate. *)
Definition pairs_as_duplicate (reason : option string) : bool :=
  match reason with
  | None => true
  | Some reason => bool_decide (reason = DUPLICATE) || bool_decide (reason = ALREADY_DONE)
  end.

Module Recorded.
Record t : Set := mk {
  to : option TaskStatus;
  reason : option string;
  duplicate_of : option TaskId;
}.
(** [restore] with [typed]: what is not there or of another type is none. *)
Definition of_ {P} `{Payload P} (payload : P) : t :=
  mk (text_of payload "to" ≫= parse_enum) (text_of payload "reason")
    (TaskId.new <$> number_of payload "duplicate_of").
Definition canceled (self : t) : bool := bool_decide (to self = Some TaskStatus.Canceled).
Definition reason_of (self : t) (target_completed : bool) : option string :=
  match reason self, duplicate_of self with
  | Some reason, _ => Some reason
  | None, Some _ => if target_completed then Some ALREADY_DONE else Some DUPLICATE
  | None, None => None
  end.
Definition pairs (self : t) : bool :=
  is_some (duplicate_of self) && pairs_as_duplicate (reason self).
End Recorded.
Abbreviation Recorded := Recorded.t.

(** * What a cancel's record promises *)
Module CancelProofs.

(** What a cancel records has what its reason needs - a reason at all, a
    task that holds the content for the four that name one, a note for
    [other] - never the reason kept for the runtime from an actor nor the one
    never recorded; one named only by the task that holds the content is
    [already_done] when that task is completed and [duplicate] when not. *)
Theorem cancel_record_spec self target record :
  NewCancel.record self target = Ok record →
  CancelRecord.duplicate_of record = NewCancel.duplicate_of self
  ∧ CancelRecord.path record = NewCancel.path self
  ∧ CancelRecord.note record = given (NewCancel.note self)
  ∧ CancelRecord.reason record ≠ UNRECORDED
  ∧ (CancelRecord.reason record ∈ NEEDS_TARGET → CancelRecord.duplicate_of record ≠ None)
  ∧ (CancelRecord.reason record = OTHER → CancelRecord.note record ≠ None)
  ∧ (CancelRecord.reason record = ANSWERED_CANCEL → CancelRecord.path record ≠ None)
  ∧ match given (NewCancel.reason self) with
    | Some reason => CancelRecord.reason record = reason
    | None => CancelRecord.duplicate_of record ≠ None
        ∧ CancelRecord.reason record
          = (if bool_decide (target = Some TaskStatus.Completed) then ALREADY_DONE else DUPLICATE)
    end.
Proof.
  unfold NewCancel.record. destruct self as [reason duplicate note path]. simpl.
  assert (∀ r, match given reason, duplicate with
               | Some reason, _ => Ok reason
               | None, Some _ =>
                   if bool_decide (target = Some TaskStatus.Completed) then Ok ALREADY_DONE else Ok DUPLICATE
               | None, None => Err DomainError.CancelReasonMissing
               end = Ok r →
          match given reason with
          | Some reason => r = reason
          | None => duplicate ≠ None
              ∧ r = (if bool_decide (target = Some TaskStatus.Completed) then ALREADY_DONE else DUPLICATE)
          end) as Hreason.
  { intros r. destruct (given reason); [by intros [= <-]|]. destruct duplicate; [|done].
    case_bool_decide; by intros [= <-]. }
  destruct (match given reason with Some _ => _ | None => _ end) as [r|e]; [|done]. simpl.
  specialize (Hreason r eq_refl).
  destruct (is_none path && bool_decide (r = ANSWERED_CANCEL) || bool_decide (r = UNRECORDED)) eqn:Hres; [done|].
  destruct (bool_decide (r ∈ NEEDS_TARGET) && is_none duplicate) eqn:Htarget; [done|].
  destruct (bool_decide (r = OTHER) && is_none (given note)) eqn:Hnote; [done|].
  intros [= <-]. simpl. apply orb_false_iff in Hres as [Hans Hunrec].
  apply bool_decide_eq_false in Hunrec. split_and!; try done.
  - intros Hin ->. by rewrite bool_decide_eq_true_2 in Htarget.
  - intros -> Hn. by rewrite Hn in Hnote.
  - intros -> Hp. by rewrite Hp in Hans.
Qed.

Section reading.
  Context {P : Type} `{PayloadLaws P}.

(** What a cancel records reads back from the event of the task's move: its
    reason and the task it names, whatever is completed since. *)
Theorem cancel_reads_back (record : CancelRecord) (from : TaskStatus) (more : list (string * P)) completed :
  let payload := object ([("from", of_text (as_str from)); ("to", of_text (as_str TaskStatus.Canceled))]
                         ++ CancelRecord.fields record ++ more) in
  (∀ entry, entry ∈ more → entry.1 ≠ "duplicate_of") →
  Recorded.canceled (Recorded.of_ payload) = true
  ∧ Recorded.reason_of (Recorded.of_ payload) completed = Some (CancelRecord.reason record)
  ∧ Recorded.duplicate_of (Recorded.of_ payload) = CancelRecord.duplicate_of record.
Proof.
  cbv zeta. intros Hmore. destruct record as [reason duplicate note path].
  unfold Recorded.of_, Recorded.canceled, Recorded.reason_of, CancelRecord.fields. cbn [CancelRecord.reason
    CancelRecord.duplicate_of CancelRecord.note CancelRecord.path Recorded.to Recorded.reason Recorded.duplicate_of].
  read_payload. rewrite parse_as_str. cbn [mbind option_bind]. split; [done|]. split; [done|].
  destruct duplicate as [target|]; read_payload.
  - cbn. by destruct target.
  - assert (List.find (λ entry : string * P, String.eqb entry.1 "duplicate_of") more = None) as Hnone.
    { destruct (List.find _ more) as [entry|] eqn:Hf; [|done]. apply List.find_some in Hf as [Hin Heq].
      apply String.eqb_eq in Heq. rewrite <-list_elem_of_In in Hin. by destruct (Hmore entry Hin). }
    destruct note as [n|], path as [[proposal|by_ ask]|]; read_payload; cbn; by rewrite Hnone.
Qed.
End reading.
End CancelProofs.

Module CancelSample.
Import CancelProofs.

Definition by_target : NewCancel := NewCancel.by_hand None (Some (TaskId.new 4)) (Some " moved ").
Lemma cancel_record_spec_witness :
  NewCancel.record by_target (Some TaskStatus.Completed)
    = Ok (CancelRecord.mk ALREADY_DONE (Some (TaskId.new 4)) (Some "moved") None)
  ∧ ALREADY_DONE ≠ UNRECORDED.
Proof.
  assert (NewCancel.record by_target (Some TaskStatus.Completed)
    = Ok (CancelRecord.mk ALREADY_DONE (Some (TaskId.new 4)) (Some "moved") None)) as Hok
    by (vm_compute; reflexivity).
  split; [exact Hok|].
  destruct (cancel_record_spec by_target (Some TaskStatus.Completed) _ Hok) as (_ & _ & _ & Hr & _).
  exact Hr.
Defined.

Lemma cancel_reads_back_witness :
  Recorded.canceled (Recorded.of_ (EventPayload.Object
    [("from", EventPayload.Text "draft"); ("to", EventPayload.Text "canceled");
     ("reason", EventPayload.Text "absorbed"); ("duplicate_of", EventPayload.Number 4)])) = true.
Proof.
  destruct (cancel_reads_back (P := EventPayload.t) (CancelRecord.mk ABSORBED (Some (TaskId.new 4)) None None)
    TaskStatus.Draft [] false) as [Hc _]; [by intros entry ?%elem_of_nil|exact Hc].
Defined.
End CancelSample.
