(* ===== verification/ClaimGraph.v ===== *)
(** * The graph of the unfinished tasks

    [dependency_graph] of [src/src/application/mod.rs]: of every unfinished
    task, which tasks it blocks, how many wait for it directly or through
    others, and the priority the claim order compares for it, the highest of its
    own and those of the ready tasks that wait for it; then the claimable tasks
    in the order of their ranks ([ClaimRank] of ClaimOrder) and the chain that
    holds the most back.

    The loop over the waiting tasks is [closure] (Prelude), with fuel for every
    edge.  The chain follows the edges until a task that blocks nothing: on a
    graph without cycles as many turns as tasks are enough, and on one with a
    cycle the loop of the source does not end, which is [None] here. *)
From S2P Require Import Prelude Text Vocab Ids Errors Labels Scope Workers Priorities Proposals ClaimOrder EventKinds Events.

Module GraphGoalDependency.
Record t : Set := mk { goal_id : GoalId; verdict : option GoalVerdict }.
Definition is_met (self : t) : bool := bool_decide (verdict self = Some GoalVerdict.Achieved).
End GraphGoalDependency.
Abbreviation GraphGoalDependency := GraphGoalDependency.t.

Module WaitFor.
Inductive t : Set := Task (id : TaskId) | Goal (goal : GoalId).
#[global] Instance eq_dec : EqDecision t.
Proof. solve_decision. Defined.
End WaitFor.
Abbreviation WaitFor := WaitFor.t.

Module GraphTask.
Record t : Set := mk {
  id : TaskId;
  status : TaskStatus;
  priority : Priority;
  priority_source : PrioritySource;
  priority_by : PriorityBy;
  execution_class : ExecutionClass;
  title : string;
  goal_id : option GoalId;
  goal_status : option GoalStatus;
  depends_on : list TaskId;
  goal_dependencies : list GraphGoalDependency;
}.
End GraphTask.
Abbreviation GraphTask := GraphTask.t.

Module GraphInput.
Record t : Set := mk { tasks : list GraphTask; candidates : list TaskId; canceled : list TaskId }.
End GraphInput.
Abbreviation GraphInput := GraphInput.t.

Module GraphNode.
Record t : Set := mk {
  id : TaskId;
  status : TaskStatus;
  priority : Priority;
  priority_source : PrioritySource;
  priority_by : PriorityBy;
  effective_priority : Priority;
  execution_class : ExecutionClass;
  title : string;
  goal_id : option GoalId;
  goal_status : option GoalStatus;
  depends_on : list TaskId;
  goal_dependencies : list GoalId;
  blocks : list TaskId;
  unblocks : nat;
  ready_after : list WaitFor;
}.
End GraphNode.
Abbreviation GraphNode := GraphNode.t.

Module DependencyGraph.
Record t : Set := mk { tasks : list GraphNode; candidates : list TaskId; critical : list TaskId }.
End DependencyGraph.
Abbreviation DependencyGraph := DependencyGraph.t.

(** ** The priority compared *)

(** A waiter that passes its priority on. *)
Definition passes_on (waiter : GraphTask) : bool :=
  bool_decide (GraphTask.status waiter = TaskStatus.Ready)
  && negb (bool_decide (GraphTask.goal_status waiter = Some GoalStatus.Draft))
  && negb (existsb (λ d, bool_decide (GraphGoalDependency.verdict d = Some GoalVerdict.Abandoned))
             (GraphTask.goal_dependencies waiter)).
(** [Ord::max], which gives its second argument on a tie. *)
Definition max_priority (a b : Priority) : Priority := if Priority.leb a b then b else a.
Definition effective_priority (own : Priority) (waiters : list GraphTask) : Priority :=
  foldl max_priority own (GraphTask.priority <$> List.filter passes_on waiters).

(** [Iterator::min_by_key], which gives the first of equal keys. *)
Definition min_by_key {A} (key : A → list Z) (l : list A) : option A :=
  foldl (λ least x, match least with
                    | Some y => if lex_leb (key y) (key x) then least else Some x
                    | None => Some x
                    end) None l.

Section graph.
  Context (input : GraphInput).

Definition task_ids : list TaskId := GraphTask.id <$> GraphInput.tasks input.
Definition is_open_task (id : TaskId) : bool := bool_decide (id ∈ task_ids).
Definition members (goal : GoalId) : list TaskId :=
  GraphTask.id <$> List.filter (λ t, bool_decide (GraphTask.goal_id t = Some goal)) (GraphInput.tasks input).
(** The edges [task] gives: what it waits for, each an unfinished task. *)
Definition waited_by (task : GraphTask) : list TaskId :=
  List.filter is_open_task (GraphTask.depends_on task)
  ++ flat_map (λ d, members (GraphGoalDependency.goal_id d))
       (List.filter (λ d, is_none (GraphGoalDependency.verdict d)) (GraphTask.goal_dependencies task)).
Definition direct (id : TaskId) : list TaskId :=
  sorted TaskId.as_i64
    (GraphTask.id <$> List.filter (λ t, bool_decide (id ∈ waited_by t)) (GraphInput.tasks input)).

Definition find_graph_task (id : TaskId) : option GraphTask :=
  find_last (λ t, bool_decide (GraphTask.id t = id)) (GraphInput.tasks input).
(** The tasks that wait for one, directly or through others. *)
Definition reached (id : TaskId) : gset TaskId :=
  unwrap_or (closure direct (list_to_set task_ids) id) ∅.
Definition count (id : TaskId) : nat := if is_open_task id then size (reached id) else 0.
(** [reached.iter()] goes over a [BTreeSet], in the order of the ids. *)
Definition waiters (id : TaskId) : list GraphTask :=
  omap find_graph_task (sort_by_key (λ id, [TaskId.as_i64 id]) (elements (reached id))).
Definition effective (id : TaskId) : Priority :=
  match find_graph_task id with
  | Some task => effective_priority (GraphTask.priority task) (waiters id)
  | None => Priority.Normal
  end.
Definition rank (id : TaskId) : list Z := [- Z.of_nat (count id); TaskId.as_i64 id]%Z.
Definition claim_rank (id : TaskId) : ClaimRank := ClaimRank.new (effective id) (N.of_nat (count id)) id.

(** ** The view *)
Context (goal : option GoalId).
Definition in_goal (task : GraphTask) : bool :=
  is_none goal || bool_decide (GraphTask.goal_id task = goal).
Definition goal_ids : list TaskId := GraphTask.id <$> List.filter in_goal (GraphInput.tasks input).
Definition ordered_candidates : list TaskId :=
  sort_by_key (λ id, ClaimRank.key (claim_rank id))
    (List.filter (λ id, is_none goal || bool_decide (id ∈ goal_ids)) (GraphInput.candidates input)).
Fixpoint chain (fuel : nat) (step : option TaskId) : option (list TaskId) :=
  match fuel with
  | 0 => None
  | S fuel =>
      match step with
      | None => Some []
      | Some id => cons id <$> chain fuel (min_by_key rank (direct id))
      end
  end.
Definition critical_start : option TaskId :=
  start ← min_by_key rank goal_ids;
  if bool_decide (count start = 0) then None else Some start.
Definition critical : option (list TaskId) := chain (2 + length task_ids) critical_start.
Definition ready_after (task : GraphTask) : list WaitFor :=
  (WaitFor.Task <$> List.filter is_open_task (GraphTask.depends_on task))
  ++ ((λ d, WaitFor.Goal (GraphGoalDependency.goal_id d)) <$>
        List.filter (λ d, negb (GraphGoalDependency.is_met d)) (GraphTask.goal_dependencies task)).
Definition graph_node (task : GraphTask) : GraphNode :=
  {| GraphNode.id := GraphTask.id task;
     GraphNode.status := GraphTask.status task;
     GraphNode.priority := GraphTask.priority task;
     GraphNode.priority_source := GraphTask.priority_source task;
     GraphNode.priority_by := GraphTask.priority_by task;
     GraphNode.effective_priority := effective (GraphTask.id task);
     GraphNode.execution_class := GraphTask.execution_class task;
     GraphNode.title := GraphTask.title task;
     GraphNode.goal_id := GraphTask.goal_id task;
     GraphNode.goal_status := GraphTask.goal_status task;
     GraphNode.depends_on := GraphTask.depends_on task;
     GraphNode.goal_dependencies := GraphGoalDependency.goal_id <$> GraphTask.goal_dependencies task;
     GraphNode.blocks := direct (GraphTask.id task);
     GraphNode.unblocks := count (GraphTask.id task);
     GraphNode.ready_after := ready_after task |}.
Definition dependency_graph : option DependencyGraph :=
  critical ← critical;
  Some (DependencyGraph.mk
    (graph_node <$> List.filter (λ t, bool_decide (GraphTask.id t ∈ goal_ids)) (GraphInput.tasks input))
    ordered_candidates critical).
End graph.

(** * What the graph promises *)
Module ClaimGraphProofs.

Lemma min_by_key_none {A} (key : A → list Z) l : min_by_key key l = None ↔ l = [].
Proof.
  unfold min_by_key. split; [|by intros ->]. destruct l as [|x l]; [done|]. simpl.
  intros Hnone. exfalso. revert x Hnone. induction l as [|y l IH]; intros x; simpl; [done|].
  destruct (lex_leb (key x) (key y)); apply IH.
Qed.

Lemma min_by_key_some {A} (key : A → list Z) l x :
  min_by_key key l = Some x → x ∈ l ∧ ∀ y, y ∈ l → lex_leb (key x) (key y).
Proof.
  unfold min_by_key. destruct l as [|z l]; [done|]. simpl.
  enough (∀ z, foldl (λ least x, match least with
              | Some y => if lex_leb (key y) (key x) then least else Some x
              | None => Some x end) (Some z) l = Some x →
            (x = z ∨ x ∈ l) ∧ lex_leb (key x) (key z) ∧ ∀ y, y ∈ l → lex_leb (key x) (key y)) as Hall.
  { intros Hx. destruct (Hall z Hx) as (Hin & Hz & Hl). rewrite elem_of_cons. split; [done|].
    intros y [->|Hy]%elem_of_cons; auto. }
  clear z. induction l as [|y l IH]; intros z; simpl.
  - intros [= ->]. split_and!; [by left| |by intros y ?%elem_of_nil].
    pose proof (lex_leb_total (key x) (key x)). by destruct (lex_leb (key x) (key x)).
  - intros Hx. destruct (lex_leb (key z) (key y)) eqn:Hzy.
    + destruct (IH z Hx) as (Hin & Hz & Hl). split_and!; [set_solver|done|].
      intros y' [->|Hy']%elem_of_cons; [|auto]. eapply lex_leb_trans; [exact Hz|]. by rewrite Hzy.
    + destruct (IH y Hx) as (Hin & Hy & Hl). split_and!; [set_solver| |].
      * eapply lex_leb_trans; [exact Hy|]. pose proof (lex_leb_total (key z) (key y)) as Ht.
        rewrite Hzy in Ht. done.
      * intros y' [->|Hy']%elem_of_cons; auto.
Qed.

Section proofs.
  Context (input : GraphInput).

(** [frees input a b]: the unfinished task [b] waits for [a], as its predecessor
    or as a task of a goal not closed it depends on. *)
Definition frees : relation TaskId := leads (direct input).

Lemma elem_of_task_ids id : id ∈ task_ids input ↔ ∃ t, t ∈ GraphInput.tasks input ∧ GraphTask.id t = id.
Proof. unfold task_ids. rewrite list_elem_of_fmap. naive_solver. Qed.

Lemma waited_by_open task id : id ∈ waited_by input task → id ∈ task_ids input.
Proof.
  unfold waited_by. rewrite elem_of_app, list_elem_of_In, filter_In.
  intros [[_ Hopen]|Hm]; [by apply bool_decide_eq_true in Hopen|].
  rewrite list_elem_of_In, in_flat_map in Hm. destruct Hm as (d & _ & Hm).
  unfold members in Hm. rewrite <-list_elem_of_In, list_elem_of_fmap in Hm.
  destruct Hm as (t & -> & Ht). rewrite list_elem_of_In, filter_In, <-list_elem_of_In in Ht.
  apply elem_of_task_ids. naive_solver.
Qed.

Lemma frees_spec a b :
  frees a b ↔ ∃ t, t ∈ GraphInput.tasks input ∧ GraphTask.id t = b ∧ a ∈ waited_by input t.
Proof.
  unfold frees, leads, direct. rewrite elem_of_sorted, list_elem_of_fmap.
  setoid_rewrite list_elem_of_In at 1. setoid_rewrite filter_In. setoid_rewrite <-list_elem_of_In.
  setoid_rewrite bool_decide_eq_true. naive_solver.
Qed.
Lemma frees_open a b : frees a b → a ∈ task_ids input ∧ b ∈ task_ids input.
Proof.
  rewrite frees_spec. intros (t & Ht & Hid & Ha). split; [by eapply waited_by_open|].
  apply elem_of_task_ids. eauto.
Qed.
Lemma frees_reach a b : tc frees a b → a ∈ task_ids input ∧ b ∈ task_ids input.
Proof.
  induction 1 as [a b Hab|a b c Hab _ [_ IH]]; [by apply frees_open|].
  split; [|done]. by apply frees_open in Hab as [].
Qed.

Lemma direct_task_ids id : direct input id ≠ [] → id ∈ (list_to_set (task_ids input) : gset TaskId).
Proof.
  intros Hne. destruct (direct input id) as [|b l] eqn:Hd; [done|]. apply elem_of_list_to_set.
  apply (frees_open id b). unfold frees, leads. rewrite Hd. by left.
Qed.

(** The loop over the waiting tasks ends with every task that waits for one,
    directly or through others. *)
Lemma reached_spec id w : w ∈ reached input id ↔ tc frees id w.
Proof.
  unfold reached. destruct (closure_spec (direct input) (list_to_set (task_ids input))
    direct_task_ids id) as (all & -> & Hall). simpl. apply Hall.
Qed.

Lemma find_graph_task_some id t :
  find_graph_task input id = Some t → t ∈ GraphInput.tasks input ∧ GraphTask.id t = id.
Proof.
  intros (Hid & before & after & -> & _)%find_last_Some. rewrite bool_decide_eq_true in Hid.
  set_solver.
Qed.
Lemma find_graph_task_in t :
  NoDup (task_ids input) → t ∈ GraphInput.tasks input → find_graph_task input (GraphTask.id t) = Some t.
Proof.
  intros Hnd Ht. destruct (find_graph_task input (GraphTask.id t)) as [t'|] eqn:Hf.
  - apply find_graph_task_some in Hf as [Ht' Hid]. f_equal. by eapply (NoDup_fmap_same GraphTask.id).
  - unfold find_graph_task in Hf. rewrite find_last_None in Hf. specialize (Hf t Ht).
    by rewrite bool_decide_eq_false in Hf.
Qed.
Lemma is_open_task_true id : is_open_task input id = true ↔ id ∈ task_ids input.
Proof. apply bool_decide_eq_true. Qed.

(** ** The priority the order compares *)
Lemma leb_trans a b c : Priority.leb a b → Priority.leb b c → Priority.leb a c.
Proof. unfold Priority.leb. rewrite !Is_true_true, !Z.leb_le. lia. Qed.
Lemma max_priority_spec a b :
  (max_priority a b = a ∨ max_priority a b = b)
  ∧ Priority.leb a (max_priority a b) ∧ Priority.leb b (max_priority a b).
Proof. unfold max_priority. destruct (Priority.leb a b) eqn:Hab; destruct a, b; naive_solver. Qed.

Lemma effective_priority_spec own waiters :
  (effective_priority own waiters = own
   ∨ ∃ w, w ∈ waiters ∧ passes_on w = true ∧ effective_priority own waiters = GraphTask.priority w)
  ∧ Priority.leb own (effective_priority own waiters)
  ∧ ∀ w, w ∈ waiters → passes_on w = true → Priority.leb (GraphTask.priority w) (effective_priority own waiters).
Proof.
  unfold effective_priority. revert own.
  induction waiters as [|w waiters IH]; intros own; cbn [List.filter].
  { split_and!; [by left|unfold Priority.leb; by rewrite Z.leb_refl|by intros w ?%elem_of_nil]. }
  destruct (passes_on w) eqn:Hw; rewrite ?fmap_cons; cbn [foldl].
  -    destruct (IH (max_priority own (GraphTask.priority w))) as (Hone & Hown & Hall).
    destruct (max_priority_spec own (GraphTask.priority w)) as (Hmax & Hl & Hr).
    split_and!.
    + destruct Hone as [Hone|(w' & Hin & Hp & Hone)].
      * rewrite Hone. destruct Hmax as [Hm|Hm]; [by left|right]. exists w. rewrite Hm. set_solver.
      * right. exists w'. set_solver.
    + eapply leb_trans; eauto.
    + intros w' [->|Hin]%elem_of_cons Hp; [eapply leb_trans; eauto|auto].
  - destruct (IH own) as (Hone & Hown & Hall). split_and!; [|done|].
    + destruct Hone as [Hone|(w' & Hin & Hp & Hone)]; [by left|right]. exists w'. set_solver.
    + intros w' [->|Hin]%elem_of_cons Hp; [congruence|auto].
Qed.

(** A priority that reaches a task: its own, or that of a ready task outside a
    draft goal, that no abandoned goal keeps from running, and that waits for
    it, directly or through others. *)
Definition reaches_priority (t : GraphTask) (p : Priority) : Prop :=
  p = GraphTask.priority t
  ∨ ∃ w, w ∈ GraphInput.tasks input ∧ passes_on w = true
      ∧ tc frees (GraphTask.id t) (GraphTask.id w) ∧ p = GraphTask.priority w.

Lemma elem_of_waiters w id :
  NoDup (task_ids input) →
  w ∈ waiters input id ↔ w ∈ GraphInput.tasks input ∧ tc frees id (GraphTask.id w).
Proof.
  intros Hnd. unfold waiters. rewrite list_elem_of_omap.
  setoid_rewrite elem_of_sort_by_key. setoid_rewrite elem_of_elements. setoid_rewrite reached_spec.
  split.
  - intros (id' & Htc & Hf). apply find_graph_task_some in Hf as [Hw <-]. done.
  - intros [Hw Htc]. exists (GraphTask.id w). split; [done|by apply find_graph_task_in].
Qed.

Lemma effective_highest t :
  NoDup (task_ids input) → t ∈ GraphInput.tasks input →
  reaches_priority t (effective input (GraphTask.id t))
  ∧ ∀ p, reaches_priority t p → Priority.leb p (effective input (GraphTask.id t)).
Proof.
  intros Hnd Ht. unfold effective. rewrite find_graph_task_in by done.
  destruct (effective_priority_spec (GraphTask.priority t) (waiters input (GraphTask.id t)))
    as (Hone & Hown & Hall). setoid_rewrite elem_of_waiters in Hone; [|done].
  setoid_rewrite elem_of_waiters in Hall; [|done]. split.
  - destruct Hone as [->|(w & [Hw Htc] & Hp & ->)]; [by left|right]. eauto 10.
  - intros p [->|(w & Hw & Hp & Htc & ->)]; [done|auto].
Qed.

Lemma count_spec id :
  count input id = size (reached input id) ∧ ∀ w, w ∈ reached input id ↔ tc frees id w.
Proof.
  split; [|apply reached_spec]. unfold count. destruct (is_open_task input id) eqn:Ho; [done|].
  symmetry. apply size_empty_iff, set_equiv. intros w. rewrite reached_spec. split; [|set_solver].
  intros [Hid _]%frees_reach. apply is_open_task_true in Hid. congruence.
Qed.

(** ** The order of claims *)

(** [a] goes before [b]: the higher priority, then the more tasks that wait,
    then the lower id. *)
Definition goes_before (a b : TaskId) : Prop :=
  Priority.ltb (effective input b) (effective input a)
  ∨ effective input a = effective input b
    ∧ (count input b < count input a
       ∨ count input a = count input b ∧ (TaskId.as_i64 a ≤ TaskId.as_i64 b)%Z).

Lemma claim_rank_before a b :
  by_key (λ id, ClaimRank.key (claim_rank input id)) a b → goes_before a b.
Proof.
  unfold by_key, ClaimRank.key, claim_rank, ClaimRank.new.
  cbn [ClaimRank.priority ClaimRank.unblocks ClaimRank.id]. rewrite !lex_leb_cons.
  assert (∀ p q, Priority.as_i64 p = Priority.as_i64 q → p = q) as Hinj by (by intros [] []).
  unfold goes_before, Priority.ltb. rewrite !Is_true_true, !Z.ltb_lt.
  intros [?|[Hp [?|[Hc Hid]]]]; [left; lia|right..].
  - split; [apply Hinj; lia|left; lia].
  - split; [apply Hinj; lia|right]. split; [lia|]. destruct Hid as [?|[? _]]; lia.
Qed.

(** C7: The claimable tasks are claimed in one order: those of the goal asked
    for, each once as given, and of any two the one that goes first has the
    higher effective priority, or the same and more unfinished tasks waiting
    for it, or both the same and the lower id.  The effective priority of a
    task is the highest that reaches it, and the count is that of the tasks
    that wait for it, directly or through others. *)
Theorem claims_by_rank goal :
  NoDup (task_ids input) →
  ordered_candidates input goal
    ≡ₚ List.filter (λ id, is_none goal || bool_decide (id ∈ goal_ids input goal)) (GraphInput.candidates input)
  ∧ (∀ before a middle b after,
       ordered_candidates input goal = before ++ a :: middle ++ b :: after → goes_before a b)
  ∧ (∀ t, t ∈ GraphInput.tasks input →
       reaches_priority t (effective input (GraphTask.id t))
       ∧ ∀ p, reaches_priority t p → Priority.leb p (effective input (GraphTask.id t)))
  ∧ ∀ id, ∃ waiting, NoDup waiting ∧ length waiting = count input id
       ∧ ∀ w, w ∈ waiting ↔ tc frees id w.
Proof.
  intros Hnd. split_and!.
  - apply sort_by_key_perm.
  - intros before a middle b after Heq. apply claim_rank_before. by eapply sort_by_key_before.
  - intros t Ht. by apply effective_highest.
  - intros id. destruct (count_spec id) as [-> Hreached]. exists (elements (reached input id)).
    split_and!; [apply NoDup_elements|done|]. intros w. by rewrite elem_of_elements.
Qed.

(** ** The critical chain *)

(** Of [ids], the one with the most tasks waiting for it, the lowest id on a
    tie. *)
Definition holds_most (ids : list TaskId) (id : TaskId) : Prop :=
  id ∈ ids ∧ ∀ other, other ∈ ids →
    count input other < count input id
    ∨ count input other = count input id ∧ (TaskId.as_i64 id ≤ TaskId.as_i64 other)%Z.
(** Each step goes on to the one of the tasks it blocks that holds the most
    back, until a task that blocks none. *)
Inductive critical_chain : TaskId → list TaskId → Prop :=
  | ChainEnd id : direct input id = [] → critical_chain id [id]
  | ChainStep id next rest :
      holds_most (direct input id) next → critical_chain next rest → critical_chain id (id :: rest).

Lemma min_by_rank ids id : min_by_key (rank input) ids = Some id → holds_most ids id.
Proof.
  intros [Hin Hall]%min_by_key_some. split; [done|]. intros other Hother.
  specialize (Hall other Hother). unfold rank in Hall. rewrite !lex_leb_cons in Hall.
  destruct Hall as [?|[? [?|[? _]]]]; [left; lia|right; lia..].
Qed.

(** The loop of [critical] takes each task once: [visited] are the tasks it
    left. *)
Lemma chain_ends fuel step visited :
  (∀ id, ¬ tc frees id id) → NoDup visited → visited ⊆ task_ids input →
  length (task_ids input) < fuel + length visited →
  (∀ id, step = Some id → id ∈ task_ids input ∧ ∀ v, v ∈ visited → tc frees v id) →
  ∃ path, chain input fuel step = Some path
    ∧ match step with Some id => critical_chain id path | None => path = [] end.
Proof.
  intros Hacyclic. revert step visited.
  induction fuel as [|fuel IH]; intros step visited Hnd Hsub Hfuel Hstep; simpl.
  { pose proof (submseteq_length _ _ (NoDup_submseteq _ _ Hnd (λ x, Hsub x))). lia. }
  destruct step as [id|]; [|by exists []]. destruct (Hstep id eq_refl) as [Hid Hvisited].
  assert (id ∉ visited) as Hnew by (intros Hin; by apply (Hacyclic id), Hvisited).
  destruct (IH (min_by_key (rank input) (direct input id)) (id :: visited)) as (path & -> & Hpath).
  - by constructor.
  - set_solver.
  - simpl. lia.
  - intros next [Hnext _]%min_by_rank. split; [by apply (frees_open id)|].
    intros v [->|Hv]%elem_of_cons; [by apply tc_once|]. eapply tc_r; [by apply Hvisited|done].
  - exists (id :: path). split; [done|].
    destruct (min_by_key (rank input) (direct input id)) as [next|] eqn:Hmin.
    + by eapply ChainStep; [apply min_by_rank|].
    + subst path. apply ChainEnd. by apply min_by_key_none in Hmin.
Qed.

(** The loop ends, and its chain is of unfinished tasks. *)
Lemma start_open goal id : critical_start input goal = Some id → id ∈ task_ids input.
Proof.
  unfold critical_start. destruct (min_by_key (rank input) (goal_ids input goal)) as [start|] eqn:Hmin; [|done].
  simpl. case_bool_decide; [done|]. intros [= ->]. apply min_by_rank in Hmin as [Hin _].
  unfold goal_ids in Hin. rewrite list_elem_of_fmap in Hin. destruct Hin as (t & -> & Ht).
  rewrite list_elem_of_In, filter_In, <-list_elem_of_In in Ht. apply elem_of_task_ids. naive_solver.
Qed.
Lemma critical_found goal :
  (∀ id, ¬ tc frees id id) →
  ∃ path, critical input goal = Some path
    ∧ match critical_start input goal with Some id => critical_chain id path | None => path = [] end.
Proof.
  intros Hacyclic. apply (chain_ends _ _ []); [done|constructor|set_solver|simpl; lia|].
  intros id Hid. split; [by eapply start_open|by intros v ?%elem_of_nil].
Qed.
Lemma chain_open id path : critical_chain id path → id ∈ task_ids input → Forall (.∈ task_ids input) path.
Proof.
  induction 1 as [id Hd|id next rest [Hnext _] _ IH]; intros Hid; (constructor; [done|]); [constructor|].
  by apply IH, (frees_open id).
Qed.
Lemma critical_open goal path :
  (∀ id, ¬ tc frees id id) → critical input goal = Some path → Forall (.∈ task_ids input) path.
Proof.
  intros Hacyclic Hpath. destruct (critical_found goal Hacyclic) as (path' & Hpath' & Hchain).
  rewrite Hpath' in Hpath. injection Hpath as ->.
  destruct (critical_start input goal) as [id|] eqn:Hid; [|by subst].
  by eapply chain_open, start_open.
Qed.

(** On a graph whose tasks do not wait for each other in a circle, as the
    queue keeps it, the view ends with a critical chain: nothing when no task
    of the goal asked for holds one back; else from the one of them that holds
    the most back, each step to the one of the tasks it blocks that holds the
    most, down to a task that blocks none. *)
Theorem critical_chain_ends goal :
  (∀ id, ¬ tc frees id id) →
  ∃ path, critical input goal = Some path
    ∧ (path = [] ↔ ∀ id, id ∈ goal_ids input goal → count input id = 0)
    ∧ (path ≠ [] → ∃ start, holds_most (goal_ids input goal) start ∧ critical_chain start path).
Proof.
  intros Hacyclic. destruct (critical_found goal Hacyclic) as (path & Hpath & Hchain). exists path. split; [exact Hpath|]. unfold critical_start in Hchain.
  destruct (min_by_key (rank input) (goal_ids input goal)) as [start|] eqn:Hmin; simpl in Hchain.
  - apply min_by_rank in Hmin as Hmost. destruct Hmost as [Hin Hmost].
    case_bool_decide as Hcount.
    + subst path. split; [|done]. split; [|done]. intros _ id Hid.
      destruct (Hmost id Hid) as [?|[? _]]; lia.
    + split; [|by exists start]. split; [by intros ->; inversion Hchain|].
      intros Hall. by rewrite (Hall start Hin) in Hcount.
  - subst path. apply min_by_key_none in Hmin. rewrite Hmin. split; [|done].
    split; [by intros _ id ?%elem_of_nil|done].
Qed.
End proofs.
End ClaimGraphProofs.

Module ClaimGraphSample.
Import ClaimGraphProofs.

Definition task (id : Z) (priority : Priority) (goal : option Z) (depends_on : list Z)
    (goals : list Z) : GraphTask :=
  GraphTask.mk (TaskId.new id) TaskStatus.Ready priority PrioritySource.Default PriorityBy.Ai
    ExecutionClass.Implementation "t" (GoalId.new <$> goal) (Some GoalStatus.Open)
    (TaskId.new <$> depends_on) ((λ goal, GraphGoalDependency.mk (GoalId.new goal) None) <$> goals).
(** Task 3 waits for 1; the urgent 4 for 2 and for goal 9, of which 3 is. *)
Definition sample : GraphInput :=
  GraphInput.mk
    [task 1 Priority.Low None [] []; task 2 Priority.Normal None [] [];
     task 3 Priority.Normal (Some 9%Z) [1%Z] []; task 4 Priority.Urgent None [2%Z] [9%Z]]
    [TaskId.new 1; TaskId.new 2] [].

Lemma sample_ids : NoDup (task_ids sample).
Proof. repeat (constructor; [vm_compute; set_solver|]). constructor. Qed.
(** Ids ascend along every edge, so no task waits for itself. *)
Lemma sample_acyclic id : ¬ tc (frees sample) id id.
Proof.
  assert (∀ a b, frees sample a b → (TaskId.as_i64 a < TaskId.as_i64 b)%Z) as Hlt.
  { intros a b Hab. pose proof Hab as Hopen. apply frees_open in Hopen as [Ha _].
    assert (Forall (λ a, Forall (λ b, (TaskId.as_i64 a < TaskId.as_i64 b)%Z) (direct sample a)) (task_ids sample))
      as Hall by (vm_compute; repeat constructor).
    rewrite Forall_forall in Hall. specialize (Hall a Ha). rewrite Forall_forall in Hall. by apply Hall. }
  assert (∀ a b, tc (frees sample) a b → (TaskId.as_i64 a < TaskId.as_i64 b)%Z) as Htc.
  { induction 1 as [a b Hab|a b c Hab _ IH]; [by apply Hlt|]. specialize (Hlt a b Hab). lia. }
  intros Hid. specialize (Htc id id Hid). lia.
Qed.

Lemma claims_by_rank_witness :
  NoDup (task_ids sample)
  ∧ ordered_candidates sample None = [TaskId.new 1; TaskId.new 2]
  ∧ effective sample (TaskId.new 1) = Priority.Urgent
  ∧ goes_before sample (TaskId.new 1) (TaskId.new 2).
Proof.
  split; [exact sample_ids|]. split; [vm_compute; reflexivity|]. split; [vm_compute; reflexivity|].
  destruct (claims_by_rank sample None sample_ids) as (_ & Hbefore & _).
  apply (Hbefore [] (TaskId.new 1) [] (TaskId.new 2) []). vm_compute. reflexivity.
Defined.

Lemma critical_chain_ends_witness :
  critical sample None = Some [TaskId.new 1; TaskId.new 3; TaskId.new 4]
  ∧ ∃ path, critical sample None = Some path.
Proof.
  split; [vm_compute; reflexivity|].
  destruct (critical_chain_ends sample None sample_acyclic) as (path & Hpath & _). by exists path.
Defined.
End ClaimGraphSample.
