(* ===== verification/ProviderSwitches.v ===== *)
(** * Moving a worker between the providers

    [src/src/domain/provider_switch.rs]: how a claim runs a worker whose
    provider cannot be used, what a run does whose turn failed at its provider's
    wall, and the holds on the providers; with the use of them in
    [src/src/application/supervise/execution/provider.rs] ([turn_at_wall],
    [hold_provider], [check_provider_holds], [unusable_hold]).

    The supervisor's part is a function from what it reads (its holds, the
    queue's hold ask, its settings) to what it records on the run and asks for:
    the prompts, the sessions and the store are not here.  A number read from a
    provider's text is an [i64]: [wrap_i64] is its arithmetic in a build without
    overflow checks (one with them panics there). *)
From S2P Require Import Prelude Text Vocab Ids Errors Labels Scope Workers Priorities Inputs Tasks Runs EventKinds Events ClaimOrder Reasons Reviews Resumes Asks.
From Stdlib Require Import Ascii.

Definition MAX_PROVIDER_SWITCHES : nat := 2.

(** [SwitchReason::of_hold], [unusable] and [hold_secs]; [of_failure] is in
    Resumes. *)
Definition of_hold (reason : HoldReason.t) : option SwitchReason :=
  match reason with
  | HoldReason.Authentication => Some SwitchReason.Authentication
  | HoldReason.UsageLimit => Some SwitchReason.UsageLimit
  | HoldReason.DiskSpace | HoldReason.LoadAverage => None
  end.
Definition unusable (self : SwitchReason) : bool := negb (bool_decide (self = SwitchReason.Disabled)).
Definition hold_secs (self : SwitchReason) : Z :=
  match self with
  | SwitchReason.Disabled => 0
  | SwitchReason.UsageLimit => 1800
  | SwitchReason.Authentication => 900
  | SwitchReason.LaunchFailed | SwitchReason.ExecutableMissing => 600
  end.

Module SwitchPhase.
Inductive t : Set := Start | Answer | Revise | Resume | Nudge.
#[global] Instance eq_dec : EqDecision t.
Proof. solve_decision. Defined.
Definition as_str (v : t) : string :=
  match v with
  | Start => "start"
  | Answer => "answer"
  | Revise => "revise"
  | Resume => "resume"
  | Nudge => "nudge"
  end.
#[global] Instance string_enum : StringEnum t :=
  Build_StringEnum t "SwitchPhase" as_str [Start; Answer; Revise; Resume; Nudge].
#[global] Instance laws : StringEnumLaws t.
Proof. string_enum_laws. Qed.
Definition of_request (request : option N) (what : string) : t :=
  match request with
  | None => Start
  | Some _ =>
      if starts_with what "answer" then Answer
      else if bool_decide (what = "revise request") then Revise
      else if bool_decide (what = "nudge") then Nudge
      else Resume
  end.
End SwitchPhase.
Abbreviation SwitchPhase := SwitchPhase.t.

Module ProviderFallback.
Record t : Set := mk { workers : bool; jobs : bool }.
Definition default : t := mk true true.
End ProviderFallback.
Abbreviation ProviderFallback := ProviderFallback.t.

(** [Wall] of [queue_hold.rs]. *)
Module Wall.
Inductive t : Set := Authentication | UsageLimit.
#[global] Instance eq_dec : EqDecision t.
Proof. solve_decision. Defined.
Definition as_str (self : t) : string :=
  match self with Authentication => "authentication" | UsageLimit => "usage_limit" end.
Definition reason (self : t) : AskReason :=
  match self with Authentication => AskReason.Authentication | UsageLimit => AskReason.Cost end.
Definition subject (self : t) : option string :=
  match self with Authentication => None | UsageLimit => Some USAGE_LIMIT_SUBJECT end.
Definition event_kind (self : t) : EventKind :=
  match self with
  | Authentication => EventKind.AuthRequired
  | UsageLimit => EventKind.UsageLimited
  end.
End Wall.
Abbreviation Wall := Wall.t.

(** ** The last turn of a run *)
Section turns.
  Context {P : Type} `{Payload P}.
  Implicit Types (e : RunEvent P) (events : list (RunEvent P)).

Definition switches events : nat :=
  count_of (λ e, RunEvent.is_kind e EventKind.ProviderSwitched) events.
Definition may_switch events : bool := switches events <? MAX_PROVIDER_SWITCHES.

(** [e.payload["turn"] == turn]. *)
Definition turn_is (turn : N) e : bool :=
  bool_decide (unsigned_of (RunEvent.payload e) "turn" = Some turn).
Definition switch_of_turn events (turn : N) : option (RunEvent P) :=
  find_last (λ e, RunEvent.is_kind e EventKind.ProviderSwitched && turn_is turn e) events.
Definition waiting_on events (turn : N) : bool :=
  existsb (λ e, RunEvent.is_kind e EventKind.ProviderWaiting && turn_is turn e) events.
Definition requested_past e (taken : option N) : bool :=
  RunEvent.is_kind e EventKind.TurnRequested
  && negb (is_some_and taken (λ taken,
       is_some_and (unsigned_of (RunEvent.payload e) "seq") (λ seq, (seq <=? taken)%N))).
Definition request_answering events (finished_at : nat) (taken : option N) : option (RunEvent P) :=
  List.find (λ e, requested_past e taken) (drop finished_at events).

Definition starts_session e : bool :=
  RunEvent.is_in e [EventKind.ProviderSwitched; EventKind.SessionRenewed].
Definition session_starts events : nat := count_of starts_session events.
Definition since_session_start events : list (RunEvent P) := since_last starts_session events.
End turns.

Module WallMove.
Inductive t : Set := Switch | Retry | Wait (record : bool).
#[global] Instance eq_dec : EqDecision t.
Proof. solve_decision. Defined.
End WallMove.
Abbreviation WallMove := WallMove.t.

Definition wall_move (fallback may_switch other_usable first_look own_held hold_unclosed : bool) :
    WallMove :=
  if fallback && may_switch && other_usable then WallMove.Switch
  else if negb first_look && negb own_held && negb hold_unclosed then WallMove.Retry
  else WallMove.Wait first_look.

Module WallTurn.
Record t : Set := mk {
  turn : N;
  reason : SwitchReason;
  request : option N;
  what : string;
  message : string;
  first_look : bool;
  holds_provider : bool;
  may_switch : bool;
}.
Definition next (self : t) (fallback other_usable own_held hold_unclosed : bool) : WallMove :=
  wall_move fallback (may_switch self) other_usable (first_look self) own_held hold_unclosed.
Definition phase (self : t) : SwitchPhase := SwitchPhase.of_request (request self) (what self).
End WallTurn.
Abbreviation WallTurn := WallTurn.t.

Module WallLook.
Inductive t {P : Type} : Type :=
  | NoTurn
  | Answered (event : RunEvent P)
  | NotAWall
  | AtWall (at_ : WallTurn).
Arguments t : clear implicits.
End WallLook.
Abbreviation WallLook := WallLook.t.

Definition claude_wall (from : Provider) (reason : SwitchReason) : bool :=
  bool_decide (from = Provider.Claude) && negb (bool_decide (reason = SwitchReason.LaunchFailed)).
Definition wall_of (reason : SwitchReason) : option Wall :=
  match reason with
  | SwitchReason.UsageLimit => Some Wall.UsageLimit
  | SwitchReason.Authentication => Some Wall.Authentication
  | _ => None
  end.

Definition wall_look {P} `{Payload P} (events : list (RunEvent P)) (failure : TurnFailure)
    (from : Provider) : WallLook P :=
  match find_last (λ entry, RunEvent.is_kind entry.2 EventKind.TurnFinished) (imap pair events) with
  | None => WallLook.NoTurn
  | Some (finished_at, finished) =>
      let turn := unwrap_or (unsigned_of (RunEvent.payload finished) "turn") 0%N in
      match switch_of_turn events turn with
      | Some switched => WallLook.Answered switched
      | None =>
          let started := RunEvent.payload <$>
            find_last (λ e, RunEvent.is_kind e EventKind.TurnStarted && turn_is turn e) events in
          let request := payload ← started; unsigned_of payload "request" in
          match request_answering events finished_at request with
          | Some requested => WallLook.Answered requested
          | None =>
              match of_failure failure with
              | None => WallLook.NotAWall
              | Some reason =>
                  let first_look := negb (waiting_on events turn) in
                  WallLook.AtWall {|
                    WallTurn.turn := turn;
                    WallTurn.reason := reason;
                    WallTurn.request := request;
                    WallTurn.what := unwrap_or (payload ← started; text_of payload "what") "";
                    WallTurn.message :=
                      unwrap_or (text_of (RunEvent.payload finished) "message") "no message";
                    WallTurn.first_look := first_look;
                    WallTurn.holds_provider := first_look && negb (claude_wall from reason);
                    WallTurn.may_switch := may_switch events |}
              end
          end
      end
  end.

(** ** When a usage limit resets *)
Definition MAX_RESET_SECS : Z := 7 * 24 * 60 * 60.

Definition is_digit (c : ascii) : bool := byte_in c 48 57.
Definition is_alphabetic (c : ascii) : bool := byte_in c 65 90 || byte_in c 97 122.
(** [chars().take_while(p)] and what comes after it. *)
Fixpoint take_while (p : ascii → bool) (s : string) : string * string :=
  match s with
  | String a s' =>
      if p a then let '(taken, rest) := take_while p s' in (String a taken, rest) else ("", s)
  | EmptyString => ("", "")
  end.
Definition digits_value (digits : string) : Z :=
  fold_left (λ n c, n * 10 + (Z.of_N (byte_of c) - 48))%Z (bytes digits) 0%Z.
(** [digits.parse::<i64>()] of digits alone. *)
Definition parse_i64 (digits : string) : option Z :=
  let n := digits_value digits in
  if is_empty digits || (i64_max <? n)%Z then None else Some n.
(** [match_indices], as what comes after each match: the next is looked for
    after the last one found. *)
Fixpoint after_matches (marker : string) (skip : nat) (s : string) : list string :=
  match s with
  | EmptyString => []
  | String _ s' =>
      match skip with
      | S skip => after_matches marker skip s'
      | 0 =>
          match strip_prefix marker s with
          | Some rest => rest :: after_matches marker (String.length marker - 1) s'
          | None => after_matches marker 0 s'
          end
      end
  end.
Definition find_map {A B} (f : A → option B) (l : list A) : option B := head (omap f l).

Definition epoch_at (rest : string) : option Z :=
  let digits := (take_while is_digit (trim_start rest)).1 in
  if (String.length digits =? 10)%nat then parse_i64 digits else None.
Definition epoch_after (lower marker : string) : option Z :=
  find_map epoch_at (after_matches marker 0 lower).

(** [trim_start_matches]: the fuel is the length of the text. *)
Definition drop_blanks (s : string) : string :=
  (take_while (λ c, byte_is c 32 || byte_is c 44) s).2.
Fixpoint drop_ands (fuel : nat) (s : string) : string :=
  match fuel, strip_prefix "and " s with
  | S fuel, Some rest => drop_ands fuel rest
  | _, _ => s
  end.
Definition unit_secs (unit : string) : option Z :=
  if existsb (String.eqb unit) ["d"; "day"; "days"] then Some 86400%Z
  else if existsb (String.eqb unit) ["h"; "hr"; "hrs"; "hour"; "hours"] then Some 3600%Z
  else if existsb (String.eqb unit) ["m"; "min"; "mins"; "minute"; "minutes"] then Some 60%Z
  else if existsb (String.eqb unit) ["s"; "sec"; "secs"; "second"; "seconds"] then Some 1%Z
  else None.
(** One turn of the loop reads a digit at least. *)
Fixpoint span_from (fuel : nat) (secs : Z) (read : bool) (rest : string) : option Z :=
  match fuel with
  | 0 => then_some read secs
  | S fuel =>
      let rest := drop_blanks rest in
      let rest := drop_ands (String.length rest) rest in
      let '(digits, rest) := take_while is_digit rest in
      if is_empty digits then then_some read secs else
      number ← parse_i64 digits;
      let '(unit, rest) := take_while is_alphabetic (trim_start rest) in
      match unit_secs unit with
      | None => then_some read secs
      | Some size => span_from fuel (wrap_i64 (secs + wrap_i64 (number * size)))%Z true rest
      end
  end.
Definition span_secs (text : string) : option Z := span_from (S (String.length text)) 0 false text.

Definition reset_at (text : string) (now : Z) : option Z :=
  let lower := to_ascii_lowercase text in
  at_ ← match epoch_after lower "|" with
        | Some at_ => Some at_
        | None =>
            match epoch_after lower "resets at" with
            | Some at_ => Some at_
            | None =>
                (λ secs, wrap_i64 (now + secs)) <$> find_map span_secs (after_matches " in " 0 lower)
            end
        end;
  then_some ((now <=? at_)%Z && (at_ - now <=? MAX_RESET_SECS)%Z) at_.

(** ** Routes *)
Module WorkerRoute.
Record t : Set := mk { requested : Worker; actual : Worker; switch : option SwitchReason }.
Definition direct (workers : list Worker) : list t := (λ worker, mk worker worker None) <$> workers.
End WorkerRoute.
Abbreviation WorkerRoute := WorkerRoute.t.

Section routes.
  Context (supported : list Worker) (held : Provider → option SwitchReason).

Definition usable (worker : Worker) : bool :=
  bool_decide (worker ∈ supported) && is_none (held (Worker.provider worker)).
Definition route_for (fallback : bool) (requested : Worker) : option WorkerRoute :=
  let preferred := Worker.mk (Worker.provider requested) WorkerMode.Headless in
  if usable preferred then Some (WorkerRoute.mk requested preferred None)
  else
    let reason := unwrap_or (held (Worker.provider requested)) SwitchReason.ExecutableMissing in
    if negb fallback && unusable reason then None
    else
      let actual := Worker.mk (Provider.other (Worker.provider requested)) WorkerMode.Headless in
      then_some (usable actual) (WorkerRoute.mk requested actual (Some reason)).
Definition routes (fallback : bool) : list WorkerRoute := omap (route_for fallback) Worker.ALL.
Definition route_of (routes : list WorkerRoute) (worker : Worker) : option WorkerRoute :=
  List.find (λ route, bool_decide (WorkerRoute.requested route = worker)) routes.
Definition stopped_by_fallback (worker : Worker) : bool :=
  is_some (route_of (routes true) worker) && is_none (route_of (routes false) worker).
End routes.

Definition held (provider : Provider) (no_claude : bool) (queue_hold own : option SwitchReason) :
    option SwitchReason :=
  match provider with
  | Provider.Claude =>
      if no_claude then Some SwitchReason.Disabled
      else match queue_hold with Some reason => Some reason | None => own end
  | Provider.Codex => own
  end.

(** ** The holds on the providers *)
Module ProviderHold.
Record t : Set := mk { provider : Provider; reason : SwitchReason; since : Z; retry_at : Z }.
#[global] Instance eq_dec : EqDecision t.
Proof. solve_decision. Defined.
#[global] Instance updatable : Updatable t :=
  λ h, mk (provider h) (reason h) (since h) (retry_at h).
Definition new (provider : Provider) (reason : SwitchReason) (now : Z) : t :=
  mk provider reason now (wrap_i64 (now + hold_secs reason)).
Definition until (self : t) (reset : option Z) : t :=
  match reset with Some reset => self <| retry_at := reset |> | None => self end.
Definition due (self : t) (now : Z) : bool := (retry_at self <=? now)%Z.

Definition held_fields {P} `{Payload P} (self : t) (run : option RunId) : list (string * P) :=
  [("provider", of_text (as_str (provider self)));
   ("reason", of_text (as_str (reason self)));
   ("since", of_number (since self));
   ("retry_at", of_number (retry_at self));
   ("run_id", or_null (λ run, of_text (RunId.as_str run)) run)].
Definition held_payload {P} `{Payload P} (self : t) (run : option RunId) : P :=
  object (held_fields self run).
Definition released_payload {P} `{Payload P} (self : t) (why : string) : P :=
  object [("provider", of_text (as_str (provider self)));
          ("reason", of_text (as_str (reason self)));
          ("since", of_number (since self));
          ("why", of_text why)].
Definition in_place {P} `{Payload P} (kind : RecordedKind) (payload : P) : option t :=
  if negb (RecordedKind.is_kind kind EventKind.ProviderHeld) then None
  else
    provider ← text_of payload "provider" ≫= parse_enum;
    reason ← text_of payload "reason" ≫= parse_enum;
    since ← number_of payload "since";
    retry_at ← number_of payload "retry_at";
    Some (mk provider reason since retry_at).
End ProviderHold.
Abbreviation ProviderHold := ProviderHold.t.

Definition own_hold (holds : list ProviderHold) (provider : Provider) : option SwitchReason :=
  ProviderHold.reason <$>
    List.find (λ hold, bool_decide (ProviderHold.provider hold = provider)) holds.

Definition wall_to_raise (no_claude : bool) (from : Provider) (reason : SwitchReason)
    (other_headless : bool) (open_hold : option HoldReason.t) (holds : list ProviderHold) :
    option Wall :=
  if no_claude then None
  else if claude_wall from reason then wall_of reason
  else
    let to := Provider.other from in
    let to_held := held to false (open_hold ≫= of_hold) (own_hold holds to) in
    if other_headless && is_none to_held then None
    else match open_hold with
    | Some hold => of_hold hold ≫= wall_of
    | None =>
        match wall_of reason with
        | Some wall => Some wall
        | None => to_held ≫= wall_of
        end
    end.

(** *** The holds in place, read from the queue's log *)
Definition HOLD_EVENTS_READ : nat := 20.

Section holds.
  Context {P : Type} `{Payload P}.
  Implicit Types (e : RunEvent P) (log : list (RunEvent P)).

(** [latest_events_of]: the latest of a kind, newest first. *)
Definition latest_events_of log (kind : EventKind) (limit : nat) : list (RunEvent P) :=
  take limit (List.filter (λ e, RunEvent.is_kind e kind) (rev log)).
Definition latest_of_holds log : list (RunEvent P) :=
  sort_by_key (λ e, [- EventId.as_i64 (RunEvent.id e)]%Z)
    (latest_events_of log EventKind.ProviderHeld HOLD_EVENTS_READ
     ++ latest_events_of log EventKind.ProviderReleased HOLD_EVENTS_READ).
Definition hold_read log (provider : Provider) : option ProviderHold :=
  e ← List.find (λ e, text_is (RunEvent.payload e) "provider" (as_str provider)) (latest_of_holds log);
  ProviderHold.in_place (RunEvent.kind e) (RunEvent.payload e).
Definition holds_read log : list ProviderHold := omap (hold_read log) [Provider.Claude; Provider.Codex].

(** [release_provider]: the holds left and what is recorded. *)
Definition release_provider (supervisor : string) (provider : Provider) (why : string)
    (holds : list ProviderHold) : list ProviderHold * option P :=
  match position (λ h, bool_decide (ProviderHold.provider h = provider)) holds with
  | Some at_ =>
      (take at_ holds ++ drop (S at_) holds,
       (λ hold, set_field (ProviderHold.released_payload hold why) "supervisor" (of_text supervisor))
         <$> holds !! at_)
  | None => (holds, None)
  end.
Definition release_each (supervisor : string) (why : string) (providers : list Provider)
    (holds : list ProviderHold) : list ProviderHold * list P :=
  foldl (λ acc provider,
    let '(kept, recorded) := release_provider supervisor provider why acc.1 in
    (kept, acc.2 ++ option_list recorded)) (holds, []) providers.
Definition check_provider_holds (supervisor : string) (now : Z) log : list ProviderHold * list P :=
  let holds := holds_read log in
  release_each supervisor "retry_due"
    (ProviderHold.provider <$> List.filter (λ hold, ProviderHold.due hold now) holds) holds.
Definition release_provider_holds (supervisor : string) (why : string) (holds : list ProviderHold) :
    list ProviderHold * list P :=
  release_each supervisor why [Provider.Claude; Provider.Codex] holds.

(** [JobDesk::hold_provider]. *)
Definition hold_provider (supervisor : string) (now : Z) (provider : Provider) (reason : SwitchReason)
    (run : option RunId) (message : string) (holds : list ProviderHold) :
    list ProviderHold * option P :=
  if existsb (λ h, bool_decide (ProviderHold.provider h = provider)) holds then (holds, None)
  else
    let reset := if bool_decide (reason = SwitchReason.UsageLimit) then reset_at message now else None in
    let hold := ProviderHold.until (ProviderHold.new provider reason now) reset in
    (holds ++ [hold],
     Some (set_field
             (set_field (ProviderHold.held_payload hold run) "reset_read" (of_flag (is_some reset)))
             "supervisor" (of_text supervisor))).
End holds.

(** *** What a job on a timer says of its provider *)
Module UnusableHold.
Inductive t : Set := Provider_ (provider : Provider) (reason : SwitchReason) | Ask (wall : Wall) | Held.
#[global] Instance eq_dec : EqDecision t.
Proof. solve_decision. Defined.
End UnusableHold.
Definition unusable_hold (provider : Provider) (reason : SwitchReason) (claude_asked : bool) :
    option UnusableHold.t :=
  if negb (unusable reason) then None
  else Some (match provider, reason with
             | Provider.Codex, _ => UnusableHold.Provider_ provider reason
             | Provider.Claude, SwitchReason.Authentication => UnusableHold.Ask Wall.Authentication
             | Provider.Claude, SwitchReason.UsageLimit => UnusableHold.Ask Wall.UsageLimit
             | Provider.Claude, _ =>
                 if claude_asked then UnusableHold.Held else UnusableHold.Provider_ provider reason
             end).

(** ** A run whose turn failed *)

(** What the supervisor goes by: its settings, the hold ask of the queue as this
    pass read it, the holds in place, and what it reads of the asks when it
    needs it: whether one holds the run for a person's [done], and the wall of
    the one open now. *)
Module Supervisor.
Record t : Set := mk {
  token : string;
  now : Z;
  no_claude : bool;
  fallback : bool;
  workers : list Worker;
  queue_hold : option HoldReason.t;
  holds : list ProviderHold;
  hold_unclosed : bool;
  open_hold : option HoldReason.t;
}.
#[global] Instance updatable : Updatable t :=
  λ s, mk (token s) (now s) (no_claude s) (fallback s) (workers s) (queue_hold s) (holds s)
    (hold_unclosed s) (open_hold s).
Definition provider_held (self : t) (provider : Provider) : option SwitchReason :=
  held provider (no_claude self) (queue_hold self ≫= of_hold) (own_hold (holds self) provider).
Definition worker_routes (self : t) : list WorkerRoute :=
  routes (workers self) (provider_held self) (fallback self).
Definition headless_usable (self : t) (provider : Provider) : bool :=
  bool_decide (Worker.mk provider WorkerMode.Headless ∈ workers self)
  && is_none (provider_held self provider).
End Supervisor.
Abbreviation Supervisor := Supervisor.t.

(** What a look leaves: the holds and the event of the queue that holds the
    provider, the events of the run, the provider its worker moves to, what its
    session is asked for, and the hold asks opened: Claude's for the jobs of
    Claude alone, and the one the run joins. *)
Module WallStep.
Record t {P : Type} : Type := mk {
  holds : list ProviderHold;
  held_recorded : option P;
  recorded : list (EventKind * P);
  moved_to : option Worker;
  request : option string;
  claude_hold : option Wall;
  raised : option Wall;
  switched : bool;
}.
Arguments t : clear implicits.
Arguments mk {P}.
Definition nothing {P} (holds : list ProviderHold) (switched : bool) : t P :=
  mk holds None [] None None None None switched.
End WallStep.
Abbreviation WallStep := WallStep.t.

Definition PROVIDER_SWITCH : string := "provider switch".
Definition PROVIDER_RETRY : string := "provider retry".

Section wall.
  Context {P : Type} `{Payload P}.

Definition switched_payload (from : Provider) (to : Worker) (reason : SwitchReason)
    (phase : SwitchPhase) (turn : option N) (count : nat) (message : option string) : P :=
  object [("from", of_text (as_str from)); ("to", of_text (as_str (Worker.provider to)));
          ("worker_mode", of_text (as_str (Worker.mode to))); ("reason", of_text (as_str reason));
          ("phase", of_text (as_str phase)); ("turn", or_null (λ n, of_number (Z.of_N n)) turn);
          ("count", of_number (Z.of_nat count)); ("message", or_null of_text message)].
Definition switch_blocked (fallback : bool) (events : list (RunEvent P))
    (held : option SwitchReason) : string :=
  if negb fallback then "[provider_fallback] workers is false: the run waits for its own provider"
  else if negb (may_switch events)
  then format ["its "; decimal (Z.of_nat MAX_PROVIDER_SWITCHES); " switches are used up"]
  else match held with
  | Some reason => format ["the other provider is held ("; as_str reason; ")"]
  | None => "this supervisor has no headless worker of the other provider"
  end.

Definition provider_wait (self : Supervisor) (from : Provider) (events : list (RunEvent P))
    (gated : bool) : option (SwitchReason * string) :=
  reason ← Supervisor.provider_held self from;
  let to := Provider.other from in
  let other_usable := may_switch events && Supervisor.headless_usable self to in
  then_some
    (waits_for_provider gated (Some reason) (Supervisor.fallback self) (may_switch events) other_usable)
    (reason, switch_blocked (Supervisor.fallback self) events (Supervisor.provider_held self to)).

Definition supervisor_wall (self : Supervisor) (from : Provider) (reason : SwitchReason) :
    option Wall :=
  wall_to_raise (Supervisor.no_claude self) from reason
    (bool_decide (Worker.mk (Provider.other from) WorkerMode.Headless ∈ Supervisor.workers self))
    (if Supervisor.no_claude self || claude_wall from reason then None else Supervisor.open_hold self)
    (Supervisor.holds self).

Definition retry_at_of (holds : list ProviderHold) (provider : Provider) : option Z :=
  ProviderHold.retry_at <$>
    List.find (λ hold, bool_decide (ProviderHold.provider hold = provider)) holds.

Definition turn_at_wall (self : Supervisor) (run : RunId) (from : Provider)
    (events : list (RunEvent P)) (failure : TurnFailure) : WallStep P :=
  match wall_look events failure from with
  | WallLook.NoTurn | WallLook.NotAWall => WallStep.nothing (Supervisor.holds self) false
  | WallLook.Answered _ => WallStep.nothing (Supervisor.holds self) true
  | WallLook.AtWall at_ =>
      let reason := WallTurn.reason at_ in
      let '(holds, held_recorded) :=
        if WallTurn.holds_provider at_
        then hold_provider (Supervisor.token self) (Supervisor.now self) from reason (Some run)
               (WallTurn.message at_) (Supervisor.holds self)
        else (Supervisor.holds self, None) in
      let self := self <| Supervisor.holds := holds |> in
      let to := Provider.other from in
      let other_usable := WallTurn.may_switch at_ && Supervisor.headless_usable self to in
      let own_held := is_some (Supervisor.provider_held self from) in
      let hold_unclosed :=
        negb (Supervisor.fallback self && other_usable) && negb (WallTurn.first_look at_)
        && negb own_held && Supervisor.hold_unclosed self in
      match WallTurn.next at_ (Supervisor.fallback self) other_usable own_held hold_unclosed with
      | WallMove.Switch =>
          let worker := Worker.mk to WorkerMode.Headless in
          WallStep.mk holds held_recorded
            [(EventKind.ProviderSwitched,
              switched_payload from worker reason (WallTurn.phase at_) (Some (WallTurn.turn at_))
                (switches events + 1) (Some (WallTurn.message at_)))]
            (Some worker) (Some PROVIDER_SWITCH)
            (if claude_wall from reason then wall_of reason else None) None true
      | WallMove.Retry =>
          WallStep.mk holds held_recorded [] None (Some PROVIDER_RETRY) None None true
      | WallMove.Wait record =>
          WallStep.mk holds held_recorded
            (if record then
               [(EventKind.ProviderWaiting,
                 object [("turn", of_number (Z.of_N (WallTurn.turn at_)));
                         ("provider", of_text (as_str from));
                         ("reason", of_text (as_str reason));
                         ("other", of_text (as_str to));
                         ("blocked", of_text (switch_blocked (Supervisor.fallback self) events
                                                (Supervisor.provider_held self to)));
                         ("retry_at", or_null of_number (retry_at_of holds from))])]
             else [])
            None None None (supervisor_wall self from reason) false
      end
  end.
End wall.

(** * What moving a worker promises *)
Module ProviderSwitchProofs.

(** ** Routes *)
(** The route of a claim: a worker runs headless on a provider the
    supervisor has adapters for and that is not held; on the one asked for
    whenever that one can be used, and else, with why, on the other, which with
    the fallback off only a person's ban brings about; and without a route none
    of that holds, so the task waits. *)
Theorem route_spec supported held fallback requested :
  match route_for supported held fallback requested with
  | Some route =>
      WorkerRoute.requested route = requested
      ∧ WorkerRoute.actual route ∈ supported
      ∧ held (Worker.provider (WorkerRoute.actual route)) = None
      ∧ Worker.mode (WorkerRoute.actual route) = WorkerMode.Headless
      ∧ match WorkerRoute.switch route with
        | None => Worker.provider (WorkerRoute.actual route) = Worker.provider requested
        | Some reason =>
            Worker.provider (WorkerRoute.actual route) = Provider.other (Worker.provider requested)
            ∧ usable supported held (Worker.mk (Worker.provider requested) WorkerMode.Headless) = false
            ∧ (fallback = false → held (Worker.provider requested) = Some SwitchReason.Disabled)
        end
  | None =>
      usable supported held (Worker.mk (Worker.provider requested) WorkerMode.Headless) = false
      ∧ (usable supported held
           (Worker.mk (Provider.other (Worker.provider requested)) WorkerMode.Headless) = false
         ∨ fallback = false ∧ held (Worker.provider requested) ≠ Some SwitchReason.Disabled)
  end.
Proof.
  unfold route_for.
  destruct (usable supported held (Worker.mk (Worker.provider requested) WorkerMode.Headless)) eqn:Hpref.
  { unfold usable in Hpref. apply andb_true_iff in Hpref as [Hin Hheld].
    apply bool_decide_eq_true in Hin. apply is_none_true in Hheld. by split_and!. }
  set (reason := unwrap_or (held (Worker.provider requested)) SwitchReason.ExecutableMissing).
  assert (unusable reason = false ↔ held (Worker.provider requested) = Some SwitchReason.Disabled)
    as Hreason.
  { subst reason. destruct (held (Worker.provider requested)) as [[]|]; simpl; naive_solver. }
  destruct (negb fallback && unusable reason) eqn:Hstop.
  { apply andb_true_iff in Hstop as [Hf Hu]. split; [done|right]. split; [by destruct fallback|].
    rewrite <-Hreason. by rewrite Hu. }
  destruct (usable supported held
    (Worker.mk (Provider.other (Worker.provider requested)) WorkerMode.Headless)) eqn:Hother;
    simpl; [|by split; [|left]].
  unfold usable in Hother. apply andb_true_iff in Hother as [Hin Hheld].
  apply bool_decide_eq_true in Hin. apply is_none_true in Hheld. split_and!; try done.
  intros ->. apply Hreason. by destruct (unusable reason).
Qed.

Lemma route_requested supported held fallback worker route :
  route_for supported held fallback worker = Some route → WorkerRoute.requested route = worker.
Proof.
  unfold route_for. destruct (usable _ _ _); [by intros [= <-]|].
  destruct (_ && _); [done|]. destruct (usable _ _ _); [by intros [= <-]|done].
Qed.
Lemma route_of_none supported held fallback workers worker :
  worker ∉ workers → route_of (omap (route_for supported held fallback) workers) worker = None.
Proof.
  unfold route_of. induction workers as [|w workers IH]; [done|]. rewrite not_elem_of_cons.
  intros [Hne Hin]. simpl. destruct (route_for supported held fallback w) as [r|] eqn:Hr; [|auto].
  simpl. rewrite bool_decide_eq_false_2 by (apply route_requested in Hr; congruence). auto.
Qed.
Lemma routes_of supported held fallback worker :
  worker ∈ Worker.ALL →
  route_of (routes supported held fallback) worker = route_for supported held fallback worker.
Proof.
  unfold routes. intros Hin.
  assert (NoDup Worker.ALL) as Hnd by (repeat constructor; set_solver).
  induction Worker.ALL as [|w workers IH]; [by apply elem_of_nil in Hin|].
  apply NoDup_cons in Hnd as [Hw Hnd]. destruct (decide (worker = w)) as [->|Hne].
  - simpl. destruct (route_for supported held fallback w) as [r|] eqn:Hr; [|by apply route_of_none].
    unfold route_of. simpl. by rewrite bool_decide_eq_true_2 by (by apply route_requested in Hr).
  - apply elem_of_cons in Hin as [?|Hin]; [congruence|]. simpl.
    destruct (route_for supported held fallback w) as [r|] eqn:Hr; [|by apply IH].
    unfold route_of. simpl. rewrite bool_decide_eq_false_2 by (apply route_requested in Hr; congruence).
    by apply IH.
Qed.

(** ** The moves of a run *)
Section moves.
  Context {P : Type} `{PayloadLaws P}.
  Implicit Types (e : RunEvent P) (events : list (RunEvent P)).

Definition switched_at (turn : N) e : bool := RunEvent.is_kind e EventKind.ProviderSwitched && turn_is turn e.
Definition waits_at (turn : N) e : bool := RunEvent.is_kind e EventKind.ProviderWaiting && turn_is turn e.

(** What a run's log keeps: at most two switches, and for each turn one at most,
    and one record at most of the wait. *)
Record moves_wf events : Prop := {
  wf_switches : switches events ≤ MAX_PROVIDER_SWITCHES;
  wf_switched_once : ∀ turn, count_of (switched_at turn) events ≤ 1;
  wf_waits_once : ∀ turn, count_of (waits_at turn) events ≤ 1;
}.

(** A look at the run's turn, whatever the supervisor goes by, whose records
    follow in the log; or a record of another part, which neither moves the
    run's provider nor waits at a turn. *)
Inductive run_step : list (RunEvent P) → list (RunEvent P) → Prop :=
  | LookStep self run from failure events new :
      (λ e, (RunEvent.kind e, RunEvent.payload e)) <$> new
        = (λ '(kind, payload), (RecordedKind.Known kind, payload))
            <$> WallStep.recorded (turn_at_wall self run from events failure) →
      run_step events (events ++ new)
  | OtherStep events e :
      RunEvent.is_kind e EventKind.ProviderSwitched = false →
      (∀ turn, waits_at turn e = false) → run_step events (events ++ [e]).

Lemma turn_of_payload (n : N) before after :
  (∀ entry, entry ∈ before → String.eqb entry.1 "turn" = false) →
  unsigned_of (object (before ++ ("turn", of_number (Z.of_N n)) :: after)) "turn" = Some n.
Proof.
  intros Hbefore. unfold unsigned_of. rewrite (number_of_object _ "turn" (Z.of_N n)).
  - simpl. rewrite (proj2 (Z.leb_le 0 (Z.of_N n))) by lia. by rewrite N2Z.id.
  - induction before as [|entry before IH]; simpl; [done|].
    rewrite Hbefore by by left. apply IH. intros entry' Hin. apply Hbefore. by right.
Qed.
Lemma switched_turn from to reason phase (turn : N) count message :
  unsigned_of (switched_payload (P := P) from to reason phase (Some turn) count message) "turn" = Some turn.
Proof.
  unfold switched_payload. simpl or_null.
  apply (turn_of_payload turn [_; _; _; _; _] [_; _]).
  intros entry. rewrite !elem_of_cons, elem_of_nil. by intros [->|[->|[->|[->|[->|[]]]]]].
Qed.

Lemma count_none {A} (p : A → bool) l : (∀ x, x ∈ l → p x = false) → count_of p l = 0.
Proof.
  unfold count_of. induction l as [|x l IH]; intros Hall; simpl; [done|].
  rewrite Hall by by left. apply IH. intros y Hy. apply Hall. by right.
Qed.

(** What a look at a wall records. *)
Lemma look_records self run from events failure at_ :
  wall_look events failure from = WallLook.AtWall at_ →
  let recorded := WallStep.recorded (turn_at_wall self run from events failure) in
  recorded = []
  ∨ (∃ payload, recorded = [(EventKind.ProviderSwitched, payload)]
      ∧ may_switch events = true ∧ switch_of_turn events (WallTurn.turn at_) = None
      ∧ unsigned_of payload "turn" = Some (WallTurn.turn at_))
  ∨ (∃ payload, recorded = [(EventKind.ProviderWaiting, payload)]
      ∧ waiting_on events (WallTurn.turn at_) = false
      ∧ unsigned_of payload "turn" = Some (WallTurn.turn at_)).
Proof.
  intros Hlook. unfold turn_at_wall. rewrite Hlook. cbv zeta.
  assert (switch_of_turn events (WallTurn.turn at_) = None
          ∧ WallTurn.first_look at_ = negb (waiting_on events (WallTurn.turn at_))
          ∧ WallTurn.may_switch at_ = may_switch events) as (Hnone & Hfirst & Hmay).
  { unfold wall_look in Hlook. destruct (find_last _ (imap pair events)) as [[i finished]|]; [|done].
    destruct (switch_of_turn events _) eqn:Hs; [done|]. destruct (request_answering _ _ _); [done|].
    destruct (of_failure failure); [|done]. by injection Hlook as <-. }
  destruct (if WallTurn.holds_provider at_ then _ else _) as [holds recorded].
  unfold WallTurn.next, wall_move. rewrite Hmay.
  match goal with |- context [if ?b then WallMove.Switch else _] => destruct b eqn:Hswitch end.
  { right; left. simpl. eexists. split_and!; [done| |done|apply switched_turn].
    apply andb_true_iff in Hswitch as [Hswitch _]. by apply andb_true_iff in Hswitch as []. }
  match goal with |- context [if ?b then WallMove.Retry else _] => destruct b end; [by left|].
  simpl. destruct (WallTurn.first_look at_) eqn:Hf; [|by left]. right; right.
  eexists. split_and!; [done|by destruct (waiting_on events _)|].
  apply (turn_of_payload (WallTurn.turn at_) [] [_; _; _; _; _]). by intros ? ?%elem_of_nil.
Qed.

Lemma run_step_wf events events' : run_step events events' → moves_wf events → moves_wf events'.
Proof.
  intros [self run from failure events0 new Hnew|events0 e Hs Hw] [Hsw Hso Hwo].
  - destruct (wall_look events0 failure from) as [| | |at_] eqn:Hlook.
    1-3: unfold turn_at_wall in Hnew; rewrite Hlook in Hnew; apply fmap_nil_inv in Hnew as ->;
      by rewrite app_nil_r.
    pose proof (look_records self run from events0 failure at_ Hlook) as Hrec. cbv zeta in Hrec.
    destruct Hrec as [Hrec|[(payload & Hrec & Hmay & Hnone & Hturn)|(payload & Hrec & Hwait & Hturn)]];
      rewrite Hrec in Hnew; simpl in Hnew.
    + apply fmap_nil_inv in Hnew as ->. by rewrite app_nil_r.
    + destruct new as [|e [|]]; try done. injection Hnew as Hkind Hpayload.
      assert (RunEvent.is_kind e EventKind.ProviderSwitched = true) as Hk
        by (unfold RunEvent.is_kind; rewrite Hkind; reflexivity).
      split.
      * unfold switches. rewrite count_of_app, Hk. apply Nat.ltb_lt in Hmay. unfold switches in Hmay. lia.
      * intros turn. rewrite count_of_app. specialize (Hso turn).
        destruct (switched_at turn e) eqn:Hat; [|lia].
        unfold switched_at, turn_is in Hat. rewrite Hk, andb_true_l in Hat.
        rewrite bool_decide_eq_true, Hpayload, Hturn in Hat. injection Hat as Hat. subst turn.
        rewrite count_none; [lia|]. intros e' He'. by apply (proj1 (find_last_None _ _) Hnone).
      * intros turn. rewrite count_of_app. specialize (Hwo turn).
        destruct (waits_at turn e) eqn:Hat; [|lia]. unfold waits_at, RunEvent.is_kind in Hat.
        by rewrite Hkind in Hat.
    + destruct new as [|e [|]]; try done. injection Hnew as Hkind Hpayload.
      split.
      * unfold switches, RunEvent.is_kind. rewrite count_of_app, Hkind. unfold switches in Hsw.
        simpl. unfold RunEvent.is_kind in Hsw. lia.
      * intros turn. rewrite count_of_app. specialize (Hso turn).
        destruct (switched_at turn e) eqn:Hat; [|lia]. unfold switched_at, RunEvent.is_kind in Hat.
        by rewrite Hkind in Hat.
      * intros turn. rewrite count_of_app. specialize (Hwo turn).
        destruct (waits_at turn e) eqn:Hat; [|lia].
        unfold waits_at, turn_is in Hat. apply andb_true_iff in Hat as [_ Hat].
        rewrite bool_decide_eq_true, Hpayload, Hturn in Hat. injection Hat as Hat. subst turn.
        rewrite count_none; [lia|]. intros e' He'.
        unfold waiting_on in Hwait. destruct (waits_at (WallTurn.turn at_) e') eqn:He; [|done].
        rewrite <-Hwait. symmetry. apply existsb_exists. exists e'. by rewrite <-list_elem_of_In.
  - split.
    + unfold switches in *. rewrite count_of_app, Hs. lia.
    + intros turn. rewrite count_of_app. unfold switched_at at 2. rewrite Hs. simpl. specialize (Hso turn). lia.
    + intros turn. rewrite count_of_app, Hw. specialize (Hwo turn). lia.
Qed.

(** C8: A run's worker moves between the providers twice at most, whatever the
    supervisors that look at its turns go by and whatever else is recorded of
    the run; and each of its turns is moved off once at most and its wait for a
    provider recorded once at most. *)
Theorem moves_bounded events events' :
  moves_wf events → rtc run_step events events' →
  switches events' ≤ MAX_PROVIDER_SWITCHES
  ∧ ∀ turn, count_of (switched_at turn) events' ≤ 1 ∧ count_of (waits_at turn) events' ≤ 1.
Proof.
  intros Hwf Hsteps. assert (moves_wf events') as [? ? ?].
  { revert Hwf. apply (rtc_invariant run_step); [|done]. intros a b Ha Hab. by eapply run_step_wf. }
  auto.
Qed.

(** ** Where a move goes *)

(** A run moves at a wall exactly when the fallback is on, it has a switch
    left and the other provider can be used once this look held its own: it
    moves to that one, which has adapters here and which nothing holds, and
    never to Claude under a person's ban; and a look on a turn answered before,
    or that no wall stopped, changes nothing. *)
Theorem move_goes_where_usable self run from events failure :
  let step := turn_at_wall self run from events failure in
  (∀ worker, WallStep.moved_to step = Some worker →
     Worker.provider worker = Provider.other from ∧ worker ∈ Supervisor.workers self
     ∧ Supervisor.provider_held (self <| Supervisor.holds := WallStep.holds step |>)
         (Worker.provider worker) = None
     ∧ Supervisor.fallback self = true ∧ may_switch events = true
     ∧ (Supervisor.no_claude self = true → Worker.provider worker = Provider.Codex))
  ∧ (∀ at_, wall_look events failure from = WallLook.AtWall at_ →
     Supervisor.fallback self = true → may_switch events = true →
     Supervisor.headless_usable (self <| Supervisor.holds := WallStep.holds step |>)
       (Provider.other from) = true →
     WallStep.moved_to step = Some (Worker.mk (Provider.other from) WorkerMode.Headless))
  ∧ ((∀ at_, wall_look events failure from ≠ WallLook.AtWall at_) →
     ∃ switched, step = WallStep.nothing (Supervisor.holds self) switched).
Proof.
  cbv zeta. destruct (wall_look events failure from) as [| | |at_] eqn:Hlook.
  1-3: (unfold turn_at_wall; rewrite Hlook; split_and!; [done|done|eauto]).
  assert (WallTurn.may_switch at_ = may_switch events) as Hmay.
  { unfold wall_look in Hlook. destruct (find_last _ (imap pair events)) as [[i finished]|]; [|done].
    destruct (switch_of_turn events _); [done|]. destruct (request_answering _ _ _); [done|].
    destruct (of_failure failure); [|done]. by injection Hlook as <-. }
  unfold turn_at_wall. rewrite Hlook.
  destruct (if WallTurn.holds_provider at_ then _ else _) as [holds recorded].
  unfold WallTurn.next, wall_move. rewrite Hmay.
  set (self' := self <| Supervisor.holds := holds |>).
  change (Supervisor.fallback self') with (Supervisor.fallback self).
  match goal with |- context [if ?b then WallMove.Switch else _] => destruct b eqn:Hswitch end.
  - apply andb_true_iff in Hswitch as [Hswitch Husable]. apply andb_true_iff in Hswitch as [Hfall Hleft].
    apply andb_true_iff in Husable as [_ Husable]. simpl. split_and!; [|done|intros Hno; by destruct (Hno at_)].
    intros worker [= <-]. simpl. change (self <| Supervisor.holds := holds |>) with self'.
    unfold Supervisor.headless_usable in Husable. apply andb_true_iff in Husable as [Hin Hheld].
    apply bool_decide_eq_true in Hin. apply is_none_true in Hheld. split_and!; try done.
    intros Hban. unfold Supervisor.provider_held, held in Hheld. destruct (Provider.other from); [|done].
    change (Supervisor.no_claude self') with (Supervisor.no_claude self) in Hheld. by rewrite Hban in Hheld.
  - match goal with |- context [if ?b then WallMove.Retry else _] => destruct b end;
      simpl; (split_and!; [done| |intros Hno; by destruct (Hno at_)]);
      intros at' _ Hfall Hleft Husable;
      assert (Supervisor.headless_usable self' (Provider.other from) = true) as Hother by exact Husable;
      rewrite Hfall, Hleft, Hother in Hswitch; done.
Qed.

(** ** The answer of a turn stays *)
Lemma find_last_imap_app {A} (p : A → bool) l x :
  find_last (λ entry, p entry.2) (imap pair (l ++ [x]))
  = if p x then Some (length l, x) else find_last (λ entry, p entry.2) (imap pair l).
Proof. rewrite imap_app. simpl. rewrite find_last_app. simpl. by rewrite Nat.add_0_r. Qed.
Lemma find_app_some {A} (p : A → bool) l x k : List.find p l = Some k → List.find p (l ++ [x]) = Some k.
Proof. induction l as [|y l IH]; simpl; [done|]. by destruct (p y). Qed.
Lemma drop_app_one {A} n (l : list A) x : n ≤ length l → drop n (l ++ [x]) = drop n l ++ [x].
Proof. intros Hn. by rewrite drop_app_le. Qed.

(** [e] starts no turn anew and ends none. *)
Definition during_turn e : Prop :=
  RunEvent.is_kind e EventKind.TurnFinished = false ∧ RunEvent.is_kind e EventKind.TurnStarted = false.

Lemma look_answered events e failure from answer :
  wall_look events failure from = WallLook.Answered answer → during_turn e →
  ∀ failure' from', ∃ answer', wall_look (events ++ [e]) failure' from' = WallLook.Answered answer'.
Proof.
  intros Hlook [Hfin Hstart] failure' from'. unfold wall_look in *.
  rewrite (find_last_imap_app (λ e, RunEvent.is_kind e EventKind.TurnFinished)), Hfin.
  destruct (find_last _ (imap pair events)) as [[i finished]|] eqn:Hlast; [|done].
  assert (i ≤ length events) as Hi.
  { apply find_last_Some in Hlast as (_ & before & after & Heq & _).
    assert ((i, finished) ∈ imap pair events) as Hin by (rewrite Heq; set_solver).
    apply elem_of_lookup_imap in Hin as (j & y & [= -> ->] & Hy). apply lookup_lt_Some in Hy. lia. }
  set (turn := unwrap_or (unsigned_of (RunEvent.payload finished) "turn") 0%N) in *.
  unfold switch_of_turn in *. rewrite find_last_app.
  destruct (RunEvent.is_kind e EventKind.ProviderSwitched && turn_is turn e); [by eexists|].
  destruct (find_last _ events) as [switched|]; [by eexists|].
  rewrite find_last_app. replace (RunEvent.is_kind e EventKind.TurnStarted && turn_is turn e) with false
    by (by rewrite Hstart).
  unfold request_answering in *. rewrite drop_app_one by done.
  destruct (List.find _ (drop i events)) as [requested|] eqn:Hreq.
  - erewrite find_app_some by exact Hreq. by eexists.
  - by destruct (of_failure failure).
Qed.

(** A turn at a wall is answered once: the switch made in its place answers
    it, and from then on every look, of whatever supervisor, finds it answered
    and changes nothing, until the run starts or ends another turn. *)
Theorem answered_turn_left_alone self run from events failure at_ e later :
  wall_look events failure from = WallLook.AtWall at_ →
  WallStep.moved_to (turn_at_wall self run from events failure) ≠ None →
  [(RunEvent.kind e, RunEvent.payload e)]
    = (λ '(kind, payload), (RecordedKind.Known kind, payload))
        <$> WallStep.recorded (turn_at_wall self run from events failure) →
  Forall during_turn later →
  ∀ self' from' failure',
    turn_at_wall self' run from' (events ++ [e] ++ later) failure'
    = WallStep.nothing (Supervisor.holds self') true.
Proof.
  intros Hlook Hmoved Hrecorded Hlater self' from' failure'.
  assert (∃ a, wall_look (events ++ [e]) failure' from' = WallLook.Answered a) as [a Ha].
  { destruct (look_records self run from events failure at_ Hlook)
      as [Hrec|[(payload & Hrec & _ & _ & Hturn)|(payload & Hrec & _ & Hturn)]];
      rewrite Hrec in Hrecorded; simpl in Hrecorded; [done| |].
    - injection Hrecorded as Hkind Hpayload. exists e. unfold wall_look in *.
      rewrite (find_last_imap_app (λ e, RunEvent.is_kind e EventKind.TurnFinished)).
      replace (RunEvent.is_kind e EventKind.TurnFinished) with false
        by (unfold RunEvent.is_kind; by rewrite Hkind).
      destruct (find_last _ (imap pair events)) as [[i finished]|]; [|done].
      destruct (switch_of_turn events _); [done|]. destruct (request_answering _ _ _); [done|].
      destruct (of_failure failure); [|done]. injection Hlook as <-. simpl in Hturn.
      unfold switch_of_turn. rewrite find_last_app. unfold RunEvent.is_kind at 1, turn_is at 1.
      rewrite Hkind, Hpayload, Hturn. by rewrite bool_decide_eq_true_2.
    - exfalso. apply Hmoved. unfold turn_at_wall in *. rewrite Hlook in *.
      destruct (if WallTurn.holds_provider at_ then _ else _) as [holds recorded].
      destruct (WallTurn.next _ _ _ _ _) as [| |[]]; done. }
  assert (∀ later, Forall during_turn later →
    ∃ a, wall_look (events ++ [e] ++ later) failure' from' = WallLook.Answered a) as Hall.
  { clear later Hlater. intros later. induction later as [|x later IH] using rev_ind; intros Hlater.
    - exists a. by rewrite app_nil_r.
    - apply Forall_app in Hlater as [Hlater Hx]. inversion Hx as [|? ? Hx' _]; subst.
      destruct (IH Hlater) as [a' Ha']. rewrite !app_assoc. rewrite !app_assoc in Ha'.
      by eapply look_answered. }
  destruct (Hall later Hlater) as [a' Ha']. unfold turn_at_wall. by rewrite Ha'.
Qed.
End moves.

(** ** The holds *)
Section hold_proofs.
  Context {P : Type} `{PayloadLaws P}.
  Implicit Types (e : RunEvent P) (log : list (RunEvent P)).

Lemma held_payload_read (hold : ProviderHold) run flag supervisor :
  let payload := set_field (set_field (ProviderHold.held_payload (P := P) hold run) "reset_read" (of_flag flag))
                   "supervisor" (of_text supervisor) in
  ProviderHold.in_place (RecordedKind.Known EventKind.ProviderHeld) payload = Some hold
  ∧ text_is payload "provider" (as_str (ProviderHold.provider hold)) = true.
Proof.
  cbv zeta. unfold ProviderHold.in_place, ProviderHold.held_payload, ProviderHold.held_fields, text_is, text_of, number_of.
  assert (∀ key, String.eqb "supervisor" key = false → String.eqb "reset_read" key = false →
    field (set_field (set_field (object (P := P)
      [("provider", of_text (as_str (ProviderHold.provider hold)));
       ("reason", of_text (as_str (ProviderHold.reason hold)));
       ("since", of_number (ProviderHold.since hold));
       ("retry_at", of_number (ProviderHold.retry_at hold));
       ("run_id", or_null (λ run, of_text (RunId.as_str run)) run)]) "reset_read" (of_flag flag))
      "supervisor" (of_text supervisor)) key
    = field (object (P := P)
      [("provider", of_text (as_str (ProviderHold.provider hold)));
       ("reason", of_text (as_str (ProviderHold.reason hold)));
       ("since", of_number (ProviderHold.since hold));
       ("retry_at", of_number (ProviderHold.retry_at hold));
       ("run_id", or_null (λ run, of_text (RunId.as_str run)) run)]) key) as Hfield.
  { intros key H1 H2. rewrite field_set_field by (apply is_object_set_field, is_object_object).
    rewrite H1, field_set_field by apply is_object_object. by rewrite H2. }
  rewrite !Hfield by done. read_payload. rewrite !parse_as_str. cbn [mbind option_bind].
  split; [by destruct hold|by apply bool_decide_eq_true].
Qed.

Definition of_provider (provider : Provider) e : bool :=
  RunEvent.is_in e [EventKind.ProviderHeld; EventKind.ProviderReleased]
  && text_is (RunEvent.payload e) "provider" (as_str provider).
(** The ids of the log ascend. *)
Definition log_ascends log : Prop := StronglySorted (λ a b, EventId.as_i64 (RunEvent.id a) < EventId.as_i64 (RunEvent.id b))%Z log.

Lemma is_in_two e a b :
  RunEvent.is_in e [a; b] = true ↔ RunEvent.is_kind e a || RunEvent.is_kind e b = true.
Proof.
  unfold RunEvent.is_in, RecordedKind.is_in, RunEvent.is_kind, RecordedKind.is_kind.
  destruct (RecordedKind.known (RunEvent.kind e)) as [k|]; simpl; [|done].
  rewrite orb_true_iff, !bool_decide_eq_true, !elem_of_cons, elem_of_nil. split; [|naive_solver congruence].
  intros [->|[->|[]]]; auto.
Qed.
Lemma elem_of_latest log kind limit e :
  e ∈ latest_events_of log kind limit → e ∈ log ∧ RunEvent.is_kind e kind = true.
Proof.
  unfold latest_events_of. intros Hin%elem_of_take. destruct Hin as (i & Hin & _).
  apply list_elem_of_lookup_2 in Hin. rewrite list_elem_of_In, filter_In, <-in_rev, <-list_elem_of_In in Hin.
  done.
Qed.
Lemma in_latest before e after kind limit :
  RunEvent.is_kind e kind = true → count_of (λ e, RunEvent.is_kind e kind) after < limit →
  e ∈ latest_events_of (before ++ e :: after) kind limit.
Proof.
  intros Hkind Hcount. unfold latest_events_of. rewrite rev_app_distr. simpl.
  rewrite <-app_assoc. simpl. rewrite List.filter_app. simpl. rewrite Hkind.
  rewrite take_app_ge; [|rewrite filter_rev, length_rev; unfold count_of in Hcount; lia].
  apply elem_of_app. right. rewrite filter_rev, length_rev. unfold count_of in Hcount.
  destruct (limit - _) eqn:Hl; [lia|]. simpl. by left.
Qed.

(** What the supervisors hold is what the queue's log says: the hold of a
    provider in place is the one its latest record of a hold or a release says,
    provided that fewer than twenty records of that kind follow it; so a hold
    recorded is read back as it is and a release ends it. *)
Theorem holds_follow_log before e after provider :
  log_ascends (before ++ e :: after) → of_provider provider e = true →
  (∀ x, x ∈ after → of_provider provider x = false) →
  (∀ kind, RunEvent.is_kind e kind = true →
     count_of (λ x, RunEvent.is_kind x kind) after < HOLD_EVENTS_READ) →
  hold_read (before ++ e :: after) provider
  = ProviderHold.in_place (RunEvent.kind e) (RunEvent.payload e).
Proof.
  intros Hasc He Hafter Hcount. set (log := before ++ e :: after) in *.
  assert (∀ x, x ∈ latest_of_holds log → x ∈ log
            ∧ RunEvent.is_in x [EventKind.ProviderHeld; EventKind.ProviderReleased] = true) as Hlatest.
  { intros x. unfold latest_of_holds. rewrite elem_of_sort_by_key, elem_of_app.
    intros [Hx|Hx]; apply elem_of_latest in Hx as [Hx Hk]; (split; [done|]);
      apply is_in_two; rewrite Hk; [done|apply orb_true_r]. }
  assert (e ∈ latest_of_holds log) as Hin.
  { unfold latest_of_holds. rewrite elem_of_sort_by_key, elem_of_app.
    pose proof He as He'. unfold of_provider in He'. apply andb_true_iff in He' as [Hk _].
    assert (RunEvent.is_kind e EventKind.ProviderHeld = true
            ∨ RunEvent.is_kind e EventKind.ProviderReleased = true) as [Hk'|Hk'].
    { apply is_in_two in Hk. by apply orb_true_iff. }
    - left. apply in_latest; [done|by apply Hcount].
    - right. apply in_latest; [done|by apply Hcount]. }
  pose proof He as Hp. unfold of_provider in Hp. apply andb_true_iff in Hp as [_ Hp].
  unfold hold_read.
  destruct (List.find (λ e, text_is (RunEvent.payload e) "provider" (as_str provider))
    (latest_of_holds log)) as [x|] eqn:Hfind.
  2:{ rewrite list_elem_of_In in Hin. by rewrite (List.find_none _ _ Hfind e Hin) in Hp. }
  assert (x = e) as ->; [|done].
  pose proof (find_first (by_key _) _ _ _ (λ a, lex_leb_refl _) (sort_by_key_sorted _ _) Hfind e Hin Hp) as Hle.
  apply List.find_some in Hfind as [Hx Hpx]. rewrite <-list_elem_of_In in Hx.
  destruct (Hlatest x Hx) as [Hxl Hxk].
  assert (of_provider provider x = true) as Hxp by (unfold of_provider; by rewrite Hxk).
  unfold by_key in Hle. rewrite lex_leb_cons in Hle. unfold log in Hxl, Hasc. apply elem_of_app in Hxl.
  rewrite elem_of_cons in Hxl. destruct Hxl as [Hxl|[->|Hxl]]; [|done|by rewrite Hafter in Hxp].
  exfalso. apply StronglySorted_app in Hasc as (Hasc & _ & _).
  specialize (Hasc x e Hxl ltac:(by left)). simpl in Hasc. lia.
Qed.

Lemma reset_at_bounds text now at_ :
  reset_at text now = Some at_ → (now ≤ at_ ≤ now + MAX_RESET_SECS)%Z.
Proof.
  unfold reset_at. generalize (to_ascii_lowercase text). intros lower.
  match goal with |- context [mbind _ ?found] => destruct found as [a|] end; [|done].
  simpl. unfold then_some. destruct (_ && _) eqn:Hb; [|done]. intros [= <-].
  apply andb_true_iff in Hb as [H1 H2]. apply Z.leb_le in H1, H2. lia.
Qed.

(** A provider is held once: while a hold of it is in place nothing is
    recorded, and else the hold recorded is the one kept, from now until its
    reason's time or, of a usage limit whose text says when it resets, until
    then, in a week at most; so every hold ends. *)
Theorem provider_held_once supervisor now provider reason run message holds :
  (0 ≤ now ≤ i64_max - MAX_RESET_SECS)%Z →
  let after := hold_provider (P := P) supervisor now provider reason run message holds in
  match after.2 with
  | None => after.1 = holds ∧ ∃ h, h ∈ holds ∧ ProviderHold.provider h = provider
  | Some payload =>
      (∀ h, h ∈ holds → ProviderHold.provider h ≠ provider)
      ∧ ∃ hold, after.1 = holds ++ [hold]
          ∧ ProviderHold.provider hold = provider ∧ ProviderHold.reason hold = reason
          ∧ ProviderHold.since hold = now
          ∧ (now ≤ ProviderHold.retry_at hold ≤ now + MAX_RESET_SECS)%Z
          ∧ (∀ later, now + MAX_RESET_SECS ≤ later → ProviderHold.due hold later = true)%Z
          ∧ ProviderHold.in_place (RecordedKind.Known EventKind.ProviderHeld) payload = Some hold
  end.
Proof.
  intros Hnow. cbv zeta. unfold hold_provider.
  destruct (existsb _ holds) eqn:Hin; simpl.
  { split; [done|]. apply existsb_exists in Hin as (h & Hh & Hp). rewrite <-list_elem_of_In in Hh.
    apply bool_decide_eq_true in Hp. eauto. }
  split.
  { intros h Hh Hp. apply not_true_iff_false in Hin. apply Hin, existsb_exists. exists h.
    rewrite <-list_elem_of_In. split; [done|by apply bool_decide_eq_true]. }
  set (reset := if bool_decide (reason = SwitchReason.UsageLimit) then reset_at message now else None).
  set (hold := ProviderHold.until (ProviderHold.new provider reason now) reset).
  assert (ProviderHold.provider hold = provider ∧ ProviderHold.reason hold = reason
          ∧ ProviderHold.since hold = now) as (Hp & Hr & Hs) by (subst hold; by destruct reset).
  assert (now ≤ ProviderHold.retry_at hold ≤ now + MAX_RESET_SECS)%Z as Hbound.
  { subst hold. destruct reset as [at_|] eqn:Hreset; simpl.
    - unfold reset in Hreset. destruct (bool_decide _); [|done]. by apply reset_at_bounds in Hreset.
    - assert (0 ≤ hold_secs reason ≤ 1800)%Z by (by destruct reason).
      unfold MAX_RESET_SECS in *. rewrite wrap_i64_id; [lia|]. unfold fits_i64, i64_min, i64_max in *. lia. }
  exists hold. split_and!; try done.
  - lia.
  - lia.
  - intros later Hlater. apply Z.leb_le. lia.
  - apply (held_payload_read hold run (is_some reset) supervisor).
Qed.
End hold_proofs.
End ProviderSwitchProofs.

(** ** The reading of a span ends *)
Module SpanProofs.

Lemma take_while_length p s :
  String.length (take_while p s).1 + String.length (take_while p s).2 = String.length s.
Proof.
  induction s as [|a s IH]; simpl; [done|]. destruct (p a); simpl; [|done].
  destruct (take_while p s) as [taken rest]. simpl in *. lia.
Qed.
Lemma drop_blanks_length s : String.length (drop_blanks s) ≤ String.length s.
Proof. unfold drop_blanks. pose proof (take_while_length (λ c, byte_is c 32 || byte_is c 44) s). lia. Qed.
Lemma strip_prefix_length p s rest :
  strip_prefix p s = Some rest → String.length s = String.length p + String.length rest.
Proof.
  revert s. induction p as [|a p IH]; intros [|b s]; simpl; try by intros [= <-].
  destruct (Ascii.eqb a b); [|done]. intros Hs. by rewrite (IH s Hs).
Qed.
Lemma drop_ands_length fuel s : String.length (drop_ands fuel s) ≤ String.length s.
Proof.
  revert s. induction fuel as [|fuel IH]; intros s; [done|]. cbn [drop_ands].
  destruct (strip_prefix "and " s) as [rest|] eqn:Hs; [|done].
  apply strip_prefix_length in Hs. specialize (IH rest). lia.
Qed.
Lemma drop_ws_length w2 w3 s : String.length (drop_ws w2 w3 s) ≤ String.length s.
Proof.
  remember (String.length s) as n eqn:Hn. revert s Hn.
  induction n as [n IH] using lt_wf_ind. intros s ->.
  assert (∀ s', String.length s' < String.length s → String.length (drop_ws w2 w3 s') ≤ String.length s) as Hless.
  { intros s' Hs'. etrans; [by apply (IH (String.length s'))|lia]. }
  destruct s as [|a [|b [|c s]]]; cbn [drop_ws]; repeat case_match;
    first [apply Hless; simpl; lia|simpl; lia].
Qed.

(** A usage limit's reset is read in as many turns as the text has
    characters, whatever the text: more make no difference. *)
Theorem span_reading_ends fuel secs read rest :
  String.length rest < fuel →
  span_from fuel secs read rest = span_from (S (String.length rest)) secs read rest.
Proof.
  remember (String.length rest) as n eqn:Hn. revert fuel secs read rest Hn.
  induction n as [n IH] using lt_wf_ind. intros fuel secs read rest -> Hfuel.
  destruct fuel as [|fuel]; [lia|]. cbn [span_from].
  pose proof (drop_blanks_length rest) as Hblanks.
  pose proof (drop_ands_length (String.length (drop_blanks rest)) (drop_blanks rest)) as Hands.
  pose proof (take_while_length is_digit
    (drop_ands (String.length (drop_blanks rest)) (drop_blanks rest))) as Hdigits.
  destruct (take_while is_digit _) as [digits after]. simpl in Hdigits.
  destruct digits as [|d digits]; [done|]. cbn [is_empty].
  destruct (parse_i64 (String d digits)) as [number|]; [|done]. simpl.
  pose proof (drop_ws_length ws2 ws3 after) as Htrim.
  pose proof (take_while_length is_alphabetic (trim_start after)) as Hunit.
  destruct (take_while is_alphabetic _) as [unit after']. simpl in Hunit, Hdigits.
  destruct (unit_secs unit) as [size|]; [|done]. unfold trim_start in *.
  rewrite (IH (String.length after')) by lia. symmetry. apply (IH (String.length after')); lia.
Qed.
End SpanProofs.

(** ** Witnesses and what modelling showed *)
Module ProviderSample.
Import ProviderSwitchProofs EventPayload.

Definition event (id : Z) (kind : EventKind) (fields : list (string * EventPayload.t)) :
    RunEvent EventPayload.t :=
  RunEvent.mk (EventId.new id) None None (Some (RunId.wrap "r")) (RecordedKind.Known kind) (Object fields) "" None.
(** A run of Claude whose first turn hit its usage limit. *)
Definition walled : list (RunEvent EventPayload.t) :=
  [event 1 EventKind.TurnStarted [("turn", Number 1)];
   event 2 EventKind.TurnFinished [("turn", Number 1); ("message", Text "usage limit")]].
Definition supervisor : Supervisor :=
  Supervisor.mk "s" 1000 false true
    [Worker.CLAUDE_HEADLESS; Worker.mk Provider.Codex WorkerMode.Headless] None [] false None.
Definition moved : list (RunEvent EventPayload.t) :=
  (λ '(kind, payload), RunEvent.mk (EventId.new 3) None None (Some (RunId.wrap "r"))
     (RecordedKind.Known kind) payload "" None)
    <$> WallStep.recorded (turn_at_wall supervisor (RunId.wrap "r") Provider.Claude walled TurnFailure.UsageLimit).

Lemma walled_wf : moves_wf walled.
Proof. split; [vm_compute; lia|intros turn; vm_compute; lia..]. Qed.
Lemma moves_bounded_witness :
  moves_wf walled ∧ switches (walled ++ moved) = 1 ∧ switches (walled ++ moved) ≤ MAX_PROVIDER_SWITCHES.
Proof.
  split; [exact walled_wf|]. split; [vm_compute; reflexivity|].
  apply (moves_bounded walled (walled ++ moved)); [exact walled_wf|].
  apply rtc_once, (LookStep supervisor (RunId.wrap "r") Provider.Claude TurnFailure.UsageLimit). reflexivity.
Defined.

Lemma provider_held_once_witness :
  (0 ≤ 1000 ≤ i64_max - MAX_RESET_SECS)%Z
  ∧ (hold_provider (P := EventPayload.t) "s" 1000 Provider.Codex SwitchReason.UsageLimit None
       "try again in 2 hours 13 minutes" []).1
    = [ProviderHold.mk Provider.Codex SwitchReason.UsageLimit 1000 8980].
Proof.
  assert (0 ≤ 1000 ≤ i64_max - MAX_RESET_SECS)%Z as Hnow by (vm_compute; split; discriminate).
  split; [exact Hnow|].
  destruct (provider_held_once (P := EventPayload.t) "s" 1000 Provider.Codex SwitchReason.UsageLimit None
    "try again in 2 hours 13 minutes" [] Hnow) as [_ (hold & Heq & _)].
  vm_compute in Heq. vm_compute. reflexivity.
Defined.

(** Codex's hold for a week, and the holds and releases of Claude, whose agent
    does not start, that may follow it in some hours. *)
Definition held_event (id : Z) (hold : ProviderHold) : RunEvent EventPayload.t :=
  RunEvent.mk (EventId.new id) None None None (RecordedKind.Known EventKind.ProviderHeld)
    (ProviderHold.held_payload hold None) "" None.
Definition released_event (id : Z) (hold : ProviderHold) : RunEvent EventPayload.t :=
  RunEvent.mk (EventId.new id) None None None (RecordedKind.Known EventKind.ProviderReleased)
    (ProviderHold.released_payload hold "retry_due") "" None.
Definition codex_hold : ProviderHold :=
  ProviderHold.mk Provider.Codex SwitchReason.UsageLimit 1000 605800.
Definition claude_hold (n : nat) : ProviderHold :=
  ProviderHold.new Provider.Claude SwitchReason.LaunchFailed (1000 + 600 * Z.of_nat n).
Definition claude_cycles (n : nat) : list (RunEvent EventPayload.t) :=
  flat_map (λ k, [held_event (2 + 2 * Z.of_nat k) (claude_hold k);
                  released_event (3 + 2 * Z.of_nat k) (claude_hold k)]) (seq 0 n).
Definition codex_then_claude (n : nat) : list (RunEvent EventPayload.t) :=
  held_event 1 codex_hold :: claude_cycles n.

(** With nineteen of them Codex's hold is in place; with twenty it is read no
    more, though nothing released it and its time is days away. *)
Lemma long_hold_forgotten :
  hold_read (codex_then_claude 19) Provider.Codex = Some codex_hold
  ∧ hold_read (codex_then_claude 20) Provider.Codex = None
  ∧ existsb (λ e, RunEvent.is_kind e EventKind.ProviderReleased
                  && text_is (RunEvent.payload e) "provider" "codex") (codex_then_claude 20) = false
  ∧ ProviderHold.due codex_hold (1000 + 600 * 20) = false.
Proof. vm_compute. done. Qed.

(** A reset further away than an [i64] of seconds reads as a minute. *)
Lemma far_reset_wraps :
  reset_at "usage limit: try again in 4611686018427387905 minutes" 1000 = Some 1060%Z.
Proof. vm_compute. done. Qed.

Lemma holds_follow_log_witness :
  hold_read (codex_then_claude 3) Provider.Codex = Some codex_hold.
Proof.
  rewrite (holds_follow_log [] (held_event 1 codex_hold) (claude_cycles 3) Provider.Codex).
  - vm_compute. reflexivity.
  - repeat (constructor; [|repeat (constructor; [vm_compute; reflexivity|]); constructor]). constructor.
  - vm_compute. reflexivity.
  - assert (Forall (λ x, of_provider Provider.Codex x = false) (claude_cycles 3)) as Hall
      by (repeat (constructor; [vm_compute; reflexivity|]); constructor).
    intros x Hx. rewrite Forall_forall in Hall. by apply Hall.
  - intros kind Hkind. unfold RunEvent.is_kind, RecordedKind.is_kind in Hkind.
    apply bool_decide_eq_true in Hkind. injection Hkind as <-. vm_compute. lia.
Defined.

Lemma answered_turn_left_alone_witness :
  turn_at_wall supervisor (RunId.wrap "r") Provider.Codex (walled ++ moved) TurnFailure.UsageLimit
  = WallStep.nothing [] true.
Proof.
  assert (∃ e, moved = [e]) as [e He] by (eexists; vm_compute; reflexivity).
  destruct (wall_look walled TurnFailure.UsageLimit Provider.Claude) as [| | |at_] eqn:Hlook;
    [discriminate Hlook..|].
  rewrite He. apply (answered_turn_left_alone supervisor (RunId.wrap "r") Provider.Claude walled
    TurnFailure.UsageLimit at_ e []); [exact Hlook|vm_compute; discriminate| |constructor].
  change [(RunEvent.kind e, RunEvent.payload e)]
    with ((λ e, (RunEvent.kind e, RunEvent.payload e)) <$> [e]).
  rewrite <-He. vm_compute. reflexivity.
Defined.

Lemma span_reading_ends_witness :
  String.length "2 hours" < 100 ∧ span_from 100 0 false "2 hours" = Some 7200%Z.
Proof.
  assert (String.length "2 hours" < 100) as Hlen by (simpl; lia).
  split; [exact Hlen|]. rewrite (SpanProofs.span_reading_ends 100 0 false "2 hours" Hlen).
  vm_compute. reflexivity.
Defined.
End ProviderSample.
