(* ===== verification/TaskStore.v ===== *)
(** * The store of tasks and goals

    The transactions of [src/src/infrastructure/task_store.rs] and
    [store_writes.rs] on tasks, their dependencies and goals, with the reads of
    [store_rows.rs] they share: what a planning command or a claim changes, the
    checks that refuse it, and the events it records.

    The tables are those of HoldStore (tasks, runs, operations, holds and the
    log of events) with the goals, the two tables of dependencies and the
    replacements applied.  A task is read joined to its goal ([task_row]), whose
    priority it takes when it has none of its own.  What a transaction reads of
    other tables (planners, requests, proposals, follow-ups, investigations, the
    trial of models) is given to it ([Outside]).  A transaction that fails leaves
    the tables as they were: it returns an error.  The rows a claim writes of
    sessions, trials and investigations are left out, and the paths of its run. *)
From S2P Require Import Prelude Text Vocab Ids Errors Labels Scope Workers Priorities Inputs FollowUps Tasks Goals Proposals Runs ClaimOrder Replans EventKinds Events Reasons Reviews Resumes RunPhase Holds WorkerModels HoldStore Actors Authorization Asks ProviderSwitches Cancels ClaimGraph.

(** Why a transaction is refused. *)
Module TaskError.
Inductive t : Set :=
  | Stored (error : StoreError)
  | Replanning (error : Replan.WriteError)
  | NoGoal (goal : GoalId)
  | NoDependency (task predecessor : TaskId)
  | NoGoalDependency (task : TaskId) (goal : GoalId)
  | NotADuplicate (why : string)
  | GoalChanged (goal : GoalId)
  | OnlyVerifyEditable (task : TaskId)
  | NoRoute (task : TaskId).
Definition refused (error : DomainError) : t := Stored (StoreError.Refused error).
Definition of_domain {A} (r : Result A) : result t A :=
  match r with Ok a => Ok a | Err e => Err (refused e) end.
Definition of_store {A} (r : result StoreError A) : result t A :=
  match r with Ok a => Ok a | Err e => Err (Stored e) end.
Definition of_replan {A} (r : result Replan.WriteError A) : result t A :=
  match r with Ok a => Ok a | Err e => Err (Replanning e) end.
End TaskError.
Abbreviation TaskError := TaskError.t.

(** ** The tables *)
Module Tables.
Record t {P : Type} : Type := mk {
  queue : Queue P;
  goals : list Goal;
  dependencies : list (TaskId * TaskId);
  goal_dependencies : list (TaskId * GoalId);
  (** The replacements of applied operations: a task and one that stands for it. *)
  replacements : list (TaskId * TaskId);
}.
Arguments t : clear implicits.
Arguments mk {P}.
#[global] Instance updatable {P} : Updatable (t P) :=
  λ s, mk (queue s) (goals s) (dependencies s) (goal_dependencies s) (replacements s).
End Tables.

(** What the transactions read of other tables, and what they write of them into
    their events. *)
Module Outside.
Record t {P : Type} : Type := mk {
  writer : Writer P;
  role : ActorRole;
  creator : Creator;
  request_priority : RecordedOrigin → Result (option (RequestId * Priority));
  proposal_of : TaskId → option TaskProposal;
  check_set_goal : TaskId → option GoalId → ActorRole → Result unit;
  replacing : GoalId → list (TaskId * TaskStatus);
  follow_ups : GoalId → list SourceFollowUp;
  unresolved : GoalId → list UnresolvedReplacement;
  abandoned : GoalId → list (NewEvent P);
  cancel_origin : TaskId → list (string * P);
  goal_json : Goal → P;
  evidence_json : list EvidenceCheck → P;
  acceptance_version : GoalId → P;
  edited_version : GoalId → P;
}.
Arguments t : clear implicits.
Arguments mk {P}.
End Outside.
Abbreviation Outside := Outside.t.

(** A vertex of the wait graph. *)
Module Node.
Inductive t : Set := Task (id : TaskId) | Goal (id : GoalId).
#[global] Instance eq_dec : EqDecision t.
Proof. solve_decision. Defined.
#[global] Program Instance countable : Countable t :=
  inj_countable' (λ n, match n with Task id => inl id | Goal id => inr id end)
    (λ s, match s with inl id => Task id | inr id => Goal id end) _.
Next Obligation. by intros []. Qed.
End Node.
Abbreviation Node := Node.t.

(** ** Reading *)
Section store.
  Context {P : Type} `{Payload P}.
  Implicit Types (s : Tables.t P) (o : Outside P).

Definition find_goal s (goal : GoalId) : option Goal :=
  List.find (λ g, bool_decide (Goal.id g = goal)) (Tables.goals s).
Definition read_goal s (goal : GoalId) : result TaskError Goal :=
  match find_goal s goal with Some g => Ok g | None => Err (TaskError.NoGoal goal) end.

(** [select_tasks] and [task_row]: the row joined to its goal's priority. *)
Definition task_row s (row : Task) : Task :=
  let goal := Task.goal_id row ≫= find_goal s in
  let '(priority, source) := base_priority (Task.own_priority row) (Goal.priority <$> goal) in
  row <| Task.priority := priority |>
      <| Task.priority_source := source |>
      <| Task.priority_by :=
           priority_by_effective (Task.own_priority row) (Task.own_priority_by row)
             (Goal.priority_by <$> goal) |>
      <| Task.goal_priority := Goal.priority <$> goal |>
      <| Task.goal_priority_by := Goal.priority_by <$> goal |>.
Definition tasks s : list Task := Queue.tasks (Tables.queue s).
Definition read_task s (task : TaskId) : result TaskError Task :=
  match find_task (Tables.queue s) task with
  | Some row => Ok (task_row s row)
  | None => Err (TaskError.Stored (StoreError.NoTask task))
  end.

(** *** The wait graph *)
Definition edges s (node : Node) : list Node :=
  match node with
  | Node.Task task =>
      (Node.Task ∘ snd <$> List.filter (λ d, bool_decide (d.1 = task)) (Tables.dependencies s))
      ++ (Node.Goal ∘ snd <$> List.filter (λ d, bool_decide (d.1 = task)) (Tables.goal_dependencies s))
      ++ (Node.Task ∘ snd <$> List.filter (λ d, bool_decide (d.1 = task)) (Tables.replacements s))
  | Node.Goal goal =>
      Node.Task ∘ Task.id <$>
        List.filter (λ t, bool_decide (Task.goal_id t = Some goal)
                          && negb (bool_decide (Task.status t = TaskStatus.Canceled))) (tasks s)
  end.
(** Every node an edge leaves. *)
Definition nodes s : gset Node :=
  list_to_set ((Node.Task ∘ fst <$> Tables.dependencies s)
    ++ (Node.Task ∘ fst <$> Tables.goal_dependencies s)
    ++ (Node.Task ∘ fst <$> Tables.replacements s)
    ++ (Node.Goal <$> omap Task.goal_id (tasks s))).
(** The recursive query: [reached] starts with [from] itself. *)
Definition waits_for s (from to : Node) : bool :=
  bool_decide (to = from)
  || bool_decide (to ∈ unwrap_or (closure (edges s) (nodes s) from) ∅).

(** *** The claimable tasks *)
Definition guarded s (task : TaskId) : bool :=
  existsb (λ op, bool_decide (Replan.task_id op = task) && Replan.guards (Replan.status op))
    (Queue.operations (Tables.queue s)).
(** [ready_conditions]. *)
Definition ready_but_hold s (t : Task) : bool :=
  bool_decide (Task.status t = TaskStatus.Ready)
  && negb (existsb (λ g, bool_decide (Task.goal_id t = Some (Goal.id g))
                         && bool_decide (Goal.status g = GoalStatus.Draft)) (Tables.goals s))
  && negb (existsb (λ d, bool_decide (d.1 = Task.id t)
             && existsb (λ p, bool_decide (Task.id p = d.2)
                              && negb (bool_decide (Task.status p = TaskStatus.Completed))) (tasks s))
             (Tables.dependencies s))
  && negb (existsb (λ d, bool_decide (d.1 = Task.id t)
             && existsb (λ g, bool_decide (Goal.id g = d.2)
                  && negb (is_some (Goal.closed_at g)
                           && bool_decide (Goal.verdict g = Some GoalVerdict.Achieved))) (Tables.goals s))
             (Tables.goal_dependencies s))
  && negb (has_unfinished_run (Tables.queue s) (Task.id t))
  && negb (guarded s (Task.id t)).
(** [READY_QUERY]: no open hold keeps it either. *)
Definition held_open s (task : TaskId) : bool :=
  existsb (λ row, HoldRow.is_open row && bool_decide (HoldRow.task row = task))
    (Queue.holds (Tables.queue s)).
Definition by_id (t : Task) : list Z := [TaskId.as_i64 (Task.id t)].
Definition ready_tasks s : list Task :=
  task_row s <$> sort_by_key by_id
    (List.filter (λ t, ready_but_hold s t && negb (held_open s (Task.id t))) (tasks s)).

Definition unfinished (status : TaskStatus) : bool :=
  match status with
  | TaskStatus.Draft | TaskStatus.Submitted | TaskStatus.Ready | TaskStatus.InProgress => true
  | _ => false
  end.
Definition predecessors s (task : TaskId) : list TaskId :=
  sort_by_key (λ id, [TaskId.as_i64 id])
    (snd <$> List.filter (λ d, bool_decide (d.1 = task)) (Tables.dependencies s)).
Definition goals_depended s (task : TaskId) : list Goal :=
  sort_by_key (λ g, [GoalId.as_i64 (Goal.id g)])
    (omap (λ d, if bool_decide (d.1 = task) then find_goal s d.2 else None) (Tables.goal_dependencies s)).
Definition graph_task s (t : Task) : result TaskError GraphTask :=
  goal_status ← match Task.goal_id t with
                | Some goal => g ← read_goal s goal; Ok (Some (Goal.status g))
                | None => Ok None
                end;
  Ok {| GraphTask.id := Task.id t;
        GraphTask.status := Task.status t;
        GraphTask.priority := Task.priority t;
        GraphTask.priority_source := Task.priority_source t;
        GraphTask.priority_by := Task.priority_by t;
        GraphTask.execution_class := Task.execution_class t;
        GraphTask.title := Task.title t;
        GraphTask.goal_id := Task.goal_id t;
        GraphTask.goal_status := goal_status;
        GraphTask.depends_on := predecessors s (Task.id t);
        GraphTask.goal_dependencies :=
          (λ g, GraphGoalDependency.mk (Goal.id g) (Goal.verdict g)) <$> goals_depended s (Task.id t) |}.
Definition canceled_predecessors s : list TaskId :=
  sorted TaskId.as_i64
    (omap (λ d,
       t ← find_task (Tables.queue s) d.1;
       p ← find_task (Tables.queue s) d.2;
       if unfinished (Task.status t) && bool_decide (Task.status p = TaskStatus.Canceled)
       then Some d.2 else None) (Tables.dependencies s)).
Definition read_graph_input s : result TaskError GraphInput :=
  tasks ← traverse (graph_task s)
    (task_row s <$> sort_by_key by_id (List.filter (λ t, unfinished (Task.status t)) (tasks s)));
  Ok (GraphInput.mk tasks (Task.id <$> ready_tasks s) (canceled_predecessors s)).
(** [claim_order]; the view's critical chain ends on every graph the store
    keeps. *)
Definition claim_order s : result TaskError (list TaskId) :=
  input ← read_graph_input s; Ok (ordered_candidates input None).
Definition candidates s : result TaskError (list Task) :=
  order ← claim_order s;
  Ok (sort_by_key (λ t, match position (λ id, bool_decide (id = Task.id t)) order with
                        | Some at_ => [1; Z.of_nat at_]%Z
                        | None => [0]%Z
                        end) (ready_tasks s)).

(** ** Writing *)
Definition now o : string := Writer.timestamp (Outside.writer o).
Definition on_queue s (q : Queue P) : Tables.t P := s <| Tables.queue := q |>.
(** [event] and [goal_event]. *)
Definition task_event o s (task : TaskId) (run : option RunId) (kind : EventKind) (payload : P) : Tables.t P :=
  on_queue s (event (Outside.writer o) (Tables.queue s) task run kind payload).
Definition goal_event o s (goal : GoalId) (kind : EventKind) (payload : P) : Tables.t P :=
  let q := Tables.queue s in
  on_queue s (q <| Queue.log := Queue.log q ++
    [RunEvent.mk (next_event q) None (Some goal) None (RecordedKind.Known kind) payload
       (Writer.event_time (Outside.writer o)) (Writer.actor (Outside.writer o))] |>).
(** [UPDATE tasks SET .. WHERE id]. *)
Definition is_task (task : TaskId) (t : Task) : bool := bool_decide (Task.id t = task).
Definition update_task s (task : TaskId) (change : Task → Task) : Tables.t P :=
  on_queue s (update_tasks (Tables.queue s) (is_task task) change).
Definition touch o s (task : TaskId) : Tables.t P :=
  update_task s task (λ t, t <| Task.updated_at := now o |>).
Definition update_goal s (goal : GoalId) (change : Goal → Goal) : Tables.t P :=
  s <| Tables.goals :=
    (λ g, if bool_decide (Goal.id g = goal) then change g else g) <$> Tables.goals s |>.
Definition check_step s (task : TaskId) (step : GuardedStep) : result TaskError unit :=
  TaskError.of_store (check_task_step (Tables.queue s) task step).

(** *** Dependencies *)
Definition insert_dependency o s (task predecessor : TaskId) : result TaskError (Tables.t P) :=
  _ ← TaskError.of_domain (check_not_self task predecessor);
  _ ← check_step s task GuardedStep.Dependency;
  _ ← check_step s predecessor GuardedStep.Dependency;
  t ← read_task s task;
  _ ← TaskError.of_domain (Task.check_dependencies_editable t);
  p ← read_task s predecessor;
  _ ← TaskError.of_domain (check_not_replaced task predecessor (Task.status p));
  _ ← TaskError.of_domain
        (check_acyclic task predecessor (waits_for s (Node.Task predecessor) (Node.Task task)));
  if bool_decide ((task, predecessor) ∈ Tables.dependencies s) then Ok s
  else
    let s := s <| Tables.dependencies := Tables.dependencies s ++ [(task, predecessor)] |> in
    Ok (task_event o (touch o s task) task None EventKind.DependencyAdded
          (object [("predecessor_id", of_number (TaskId.as_i64 predecessor))])).
Definition insert_goal_dependency o s (task : TaskId) (goal : GoalId) : result TaskError (Tables.t P) :=
  t ← read_task s task;
  _ ← TaskError.of_domain (Task.check_dependencies_editable t);
  g ← read_goal s goal;
  _ ← TaskError.of_domain (Goal.check_accepts_dependents g);
  _ ← TaskError.of_domain (Task.check_not_own_goal t goal);
  _ ← TaskError.of_domain
        (check_goal_acyclic task goal (waits_for s (Node.Goal goal) (Node.Task task)));
  if bool_decide ((task, goal) ∈ Tables.goal_dependencies s) then Ok s
  else
    let s := s <| Tables.goal_dependencies := Tables.goal_dependencies s ++ [(task, goal)] |> in
    Ok (task_event o (touch o s task) task None EventKind.GoalDependencyAdded
          (object [("goal_id", of_number (GoalId.as_i64 goal))])).

(** [check_authorized]: what the command was authorized with still holds. *)
Definition task_authorization o s (task : TaskId) : result TaskError TaskAuthorization :=
  t ← read_task s task; Ok (TaskAuthorization.mk (Task.status t) (Outside.proposal_of o task)).
Definition check_authorized o s (task : TaskId) (authorized : option TaskAuthorization) :
    result TaskError unit :=
  match authorized with
  | None => Ok tt
  | Some authorized =>
      current ← task_authorization o s task;
      TaskError.of_domain (TaskAuthorization.check_unchanged authorized task current)
  end.

Definition add_dependency_authorized o s (task predecessor : TaskId)
    (authorized : option TaskAuthorization) : result TaskError (Tables.t P) :=
  _ ← check_authorized o s task authorized;
  insert_dependency o s task predecessor.
Definition remove_dependency_authorized o s (task predecessor : TaskId)
    (authorized : option TaskAuthorization) : result TaskError (Tables.t P) :=
  _ ← check_authorized o s task authorized;
  _ ← check_step s task GuardedStep.Dependency;
  _ ← check_step s predecessor GuardedStep.Dependency;
  t ← read_task s task;
  _ ← TaskError.of_domain (Task.check_dependencies_editable t);
  if negb (bool_decide ((task, predecessor) ∈ Tables.dependencies s))
  then Err (TaskError.NoDependency task predecessor)
  else
    let s := s <| Tables.dependencies :=
      List.filter (λ d, negb (bool_decide (d = (task, predecessor)))) (Tables.dependencies s) |> in
    Ok (task_event o (touch o s task) task None EventKind.DependencyRemoved
          (object [("predecessor_id", of_number (TaskId.as_i64 predecessor))])).
Definition add_goal_dependency_authorized o s (task : TaskId) (goal : GoalId)
    (authorized : option TaskAuthorization) : result TaskError (Tables.t P) :=
  _ ← check_authorized o s task authorized;
  _ ← check_step s task GuardedStep.Dependency;
  insert_goal_dependency o s task goal.
Definition remove_goal_dependency_authorized o s (task : TaskId) (goal : GoalId)
    (authorized : option TaskAuthorization) : result TaskError (Tables.t P) :=
  _ ← check_authorized o s task authorized;
  _ ← check_step s task GuardedStep.Dependency;
  t ← read_task s task;
  _ ← TaskError.of_domain (Task.check_dependencies_editable t);
  if negb (bool_decide ((task, goal) ∈ Tables.goal_dependencies s))
  then Err (TaskError.NoGoalDependency task goal)
  else
    let s := s <| Tables.goal_dependencies :=
      List.filter (λ d, negb (bool_decide (d = (task, goal)))) (Tables.goal_dependencies s) |> in
    Ok (task_event o (touch o s task) task None EventKind.GoalDependencyRemoved
          (object [("goal_id", of_number (GoalId.as_i64 goal))])).

(** *** Making a task *)
Definition new_task_id s : TaskId :=
  TaskId.new (1 + foldr Z.max 0 (TaskId.as_i64 ∘ Task.id <$> tasks s))%Z.
Definition with_priority (new : NewTask) (priority : option Priority) : NewTask :=
  NewTask.mk (NewTask.title new) (NewTask.description new) (NewTask.acceptance new)
    (NewTask.verification_commands new) (NewTask.dependencies new) (NewTask.goal_dependencies new)
    (NewTask.goal_id new) (NewTask.context new) (NewTask.required_evidence new) (NewTask.paths new)
    priority (NewTask.change new) (NewTask.provider new) (NewTask.worker_mode new)
    (NewTask.wait_for_build new) (NewTask.execution_class new).
Definition or_text {A} `{StringEnum A} (value : option A) : P := or_null (λ v, of_text (as_str v)) value.
(** The row as it is inserted: its own priority with its setter, its origin, and
    of its worker's mode what is stored. *)
Definition inserted_row (t : Task) (by_ : option PriorityBy) (origin : RecordedOrigin) : Task :=
  t <| Task.own_priority_by := by_ |> <| Task.origin := origin |>
    <| Task.named_mode := Task.stored_worker_mode t |>.
Definition created_payload (t : Task) (by_ : option PriorityBy) (provider_named mode_named : bool) : P :=
  object [("goal_id", or_null (λ g, of_number (GoalId.as_i64 g)) (Task.goal_id t));
          ("status", of_text (as_str (Task.status t)));
          ("title", of_text (Task.title t));
          ("change", or_null (λ c, of_text (TaskChange.as_str c)) (Task.change t));
          ("execution_class", of_text (as_str (Task.execution_class t)));
          ("priority", or_text (Task.own_priority t));
          ("priority_by", or_text by_);
          ("provider", of_text (as_str (Worker.provider (Task.worker t))));
          ("provider_named", of_flag provider_named);
          ("worker_mode", of_text (as_str (Worker.mode (Task.worker t))));
          ("worker_mode_named", of_flag mode_named)].
Definition insert_task o s (new : NewTask) (creator : Creator) : result TaskError (Tables.t P * Task) :=
  let origin := creation_origin creator in
  goal ← match NewTask.goal_id new with
         | Some goal => g ← read_goal s goal; Ok (Some g)
         | None => Ok None
         end;
  _ ← match goal with
      | Some g => TaskError.of_domain (Goal.check_accepts_tasks g)
      | None => Ok tt
      end;
  requested ← TaskError.of_domain (Outside.request_priority o origin);
  priorities ← TaskError.of_domain
    (task_priority_at_creation creator requested (NewTask.priority new)
       ((λ g, (Goal.priority g, Goal.priority_by g)) <$> goal));
  let id := new_task_id s in
  t ← TaskError.of_domain (Task.new id (with_priority new priorities.1) (now o));
  let q := Tables.queue s in
  let s := on_queue s (q <| Queue.tasks := Queue.tasks q ++ [inserted_row t priorities.2 origin] |>) in
  let s := task_event o s id None EventKind.TaskCreated
             (created_payload t priorities.2 (is_some (NewTask.provider new))
                (is_some (NewTask.worker_mode new))) in
  s ← fold_result (λ s predecessor, insert_dependency o s id predecessor) s (NewTask.dependencies new);
  s ← fold_result (λ s goal, insert_goal_dependency o s id goal) s (NewTask.goal_dependencies new);
  t ← read_task s id;
  Ok (s, t).
Definition add o s (new : NewTask) : result TaskError (Tables.t P * Task) :=
  insert_task o s new (Outside.creator o).

(** *** Cancels *)

(** The latest move of a task, with its place in the log. *)
Definition latest_move s (task : TaskId) : option (RunEvent P) :=
  find_last (λ e, bool_decide (RunEvent.task_id e = Some task)
                  && RunEvent.is_kind e EventKind.TaskStatusChanged) (Queue.log (Tables.queue s)).
Definition completed_before s (task : TaskId) (before : EventId) : bool :=
  existsb (λ e, bool_decide (RunEvent.task_id e = Some task)
                && RunEvent.is_kind e EventKind.TaskStatusChanged
                && text_is (RunEvent.payload e) "to" (as_str TaskStatus.Completed)
                && (EventId.as_i64 (RunEvent.id e) <? EventId.as_i64 before)%Z)
    (Queue.log (Tables.queue s)).
(** [cancel_of]: what the latest cancel of a task recorded, while that move
    canceled it: the task it names and its reason. *)
Definition cancel_of s (task : TaskId) : option (option TaskId * option string) :=
  e ← latest_move s task;
  let recorded := Recorded.of_ (RunEvent.payload e) in
  if negb (Recorded.canceled recorded) then None
  else
    let target := Recorded.duplicate_of recorded in
    let target_completed := is_some_and target (λ target, completed_before s target (RunEvent.id e)) in
    Some (target, Recorded.reason_of recorded target_completed).
Definition duplicate_target s (task : TaskId) : option TaskId :=
  cancel ← cancel_of s task; cancel.1.
(** [duplicates_of]: by task, each with its reason. *)
Definition duplicates_of s (task : TaskId) : list (TaskId * string) :=
  let candidates := sorted TaskId.as_i64
    (omap (λ e,
       of_ ← RunEvent.task_id e;
       t ← find_task (Tables.queue s) of_;
       if RunEvent.is_kind e EventKind.TaskStatusChanged
          && bool_decide (Task.status t = TaskStatus.Canceled)
          && bool_decide (number_of (RunEvent.payload e) "duplicate_of" = Some (TaskId.as_i64 task))
       then Some of_ else None) (Queue.log (Tables.queue s))) in
  omap (λ candidate,
    match cancel_of s candidate with
    | Some (Some target, Some reason) => then_some (bool_decide (target = task)) (candidate, reason)
    | _ => None
    end) candidates.
Definition check_duplicate s (task duplicate_of : TaskId) : result TaskError unit :=
  let target :=
    if bool_decide (task = duplicate_of) then None
    else match Task.status <$> find_task (Tables.queue s) duplicate_of with
         | Some TaskStatus.Canceled => Some (TaskStatus.Canceled, duplicate_target s duplicate_of)
         | Some status => Some (status, None)
         | None => None
         end in
  match duplicate_refusal task duplicate_of target with
  | Some why => Err (TaskError.NotADuplicate why)
  | None => Ok tt
  end.

(** *** Moves *)

(** [apply_transition], with the joined task it returns; [more] is what a cancel
    adds to its event, and a draft's origin goes with its cancel. *)
Definition apply_transition o s (task : TaskId) (action : TaskAction) (cancel : option CancelRecord) :
    result TaskError (Tables.t P * Task) :=
  let from := Task.status <$> find_task (Tables.queue s) task in
  let more :=
    match cancel with Some cancel => CancelRecord.fields cancel | None => [] end
    ++ (if bool_decide (from = Some TaskStatus.Draft) && bool_decide (action = TaskAction.Cancel)
        then Outside.cancel_origin o task else []) in
  moved ← TaskError.of_store
    (HoldStore.apply_transition (Outside.writer o) (Tables.queue s) task action more);
  let s := on_queue s moved.1 in
  t ← read_task s task; Ok (s, t).
Definition transition_task o s (task : TaskId) (action : TaskAction) :
    result TaskError (Tables.t P * Task) := apply_transition o s task action None.
Definition cancel_task o s (task : TaskId) (cancel : NewCancel) : result TaskError (Tables.t P * Task) :=
  target ← match NewCancel.duplicate_of cancel with
           | Some target =>
               _ ← check_duplicate s task target;
               t ← read_task s target; Ok (Some (Task.status t))
           | None => Ok None
           end;
  record ← TaskError.of_domain (NewCancel.record cancel target);
  apply_transition o s task TaskAction.Cancel (Some record).
Definition transition_authorized o s (task : TaskId) (action : TaskAction)
    (authorized : option TaskAuthorization) : result TaskError (Tables.t P * Task) :=
  _ ← check_authorized o s task authorized; transition_task o s task action.
Definition cancel_authorized o s (task : TaskId) (cancel : NewCancel)
    (authorized : option TaskAuthorization) : result TaskError (Tables.t P * Task) :=
  _ ← check_authorized o s task authorized; cancel_task o s task cancel.

(** *** Changes of a task *)
Definition change_priority o s (task : TaskId) (priority : option Priority) (by_ : option string) :
    result TaskError (Tables.t P) :=
  t ← read_task s task;
  t' ← TaskError.of_domain (Task.set_priority t priority);
  if bool_decide (Task.own_priority t = Task.own_priority t') then Ok s
  else
    _ ← TaskError.of_domain
          (check_priority_change (Outside.role o) (PriorityHolder.Task task) (Task.priority t)
             (Task.priority_by t));
    let setter := (λ _, priority_by_of (Outside.creator o)) <$> Task.own_priority t' in
    let s := update_task s task (λ row,
      row <| Task.own_priority := Task.own_priority t' |> <| Task.updated_at := now o |>
          <| Task.own_priority_by := setter |>) in
    Ok (task_event o s task None EventKind.TaskPriorityChanged
          (object ([("from", of_text (as_str (Task.priority t)));
                    ("to", of_text (as_str (Task.priority t')));
                    ("from_source", of_text (as_str (Task.priority_source t)));
                    ("to_source", of_text (as_str (Task.priority_source t')));
                    ("own", or_text (Task.own_priority t')); ("own_by", or_text setter)]
                   ++ match by_ with Some by_ => [("by", of_text by_)] | None => [] end))).
Definition set_priority_authorized o s (task : TaskId) (priority : option Priority)
    (authorized : option TaskAuthorization) : result TaskError (Tables.t P * Task) :=
  _ ← check_authorized o s task authorized;
  s ← change_priority o s task priority None;
  t ← read_task s task; Ok (s, t).

Definition or_goal (goal : option GoalId) : P := or_null (λ g, of_number (GoalId.as_i64 g)) goal.
Definition set_goal_in o s (task : TaskId) (goal_id : option GoalId) (by_ : MovedBy) :
    result TaskError (Tables.t P * Task) :=
  t ← read_task s task;
  let from := Task.goal_id t in
  goal ← match goal_id with
         | Some id => g ← read_goal s id; Ok (Some g)
         | None => Ok None
         end;
  let to := destination_of <$> goal in
  let dropped :=
    if bool_decide (from ≠ goal_id) then Task.persons_priority_dropped_on_move t to by_ else None in
  t' ← TaskError.of_domain (Task.set_goal t to by_);
  _ ← match goal with
      | Some g =>
          _ ← TaskError.of_domain (Goal.check_accepts_tasks g);
          if bool_decide (from = Some (Goal.id g)) then Ok tt
          else
            let direct := bool_decide ((task, Goal.id g) ∈ Tables.goal_dependencies s) in
            TaskError.of_domain (Task.check_membership_acyclic t' (Goal.id g) direct
              (waits_for s (Node.Task task) (Node.Goal (Goal.id g))))
      | None => Ok tt
      end;
  let s :=
    if bool_decide (Task.own_priority t = Task.own_priority t') then s
    else
      task_event o
        (update_task s task (λ row,
           row <| Task.own_priority := Task.own_priority t' |>
               <| Task.own_priority_by := Task.shown_own_priority_by t' |>))
        task None EventKind.TaskPriorityChanged
        (object [("from", of_text (as_str (Task.priority t))); ("to", of_text (as_str (Task.priority t')));
                 ("from_source", of_text (as_str (Task.priority_source t)));
                 ("to_source", of_text (as_str (Task.priority_source t')));
                 ("kept_on_move", of_flag true); ("own", or_text (Task.own_priority t'));
                 ("own_by", or_text (Task.shown_own_priority_by t'))]) in
  let s :=
    match dropped with
    | Some dropped =>
        task_event o s task None EventKind.TaskPriorityChanged
          (object [("from", of_text (as_str dropped)); ("to", of_text (as_str (Task.priority t')));
                   ("from_source", of_text (as_str (Task.priority_source t)));
                   ("to_source", of_text (as_str (Task.priority_source t')));
                   ("from_by", of_text (as_str PriorityBy.Human));
                   ("to_by", of_text (as_str (Task.priority_by t')));
                   ("dropped_on_move", of_flag true); ("judgement", of_text "out_of_scope");
                   ("from_goal", or_goal from); ("to_goal", or_goal (Task.goal_id t'))])
    | None => s
    end in
  let s :=
    if bool_decide (from = Task.goal_id t') then s
    else
      task_event o
        (update_task s task (λ row,
           row <| Task.goal_id := Task.goal_id t' |> <| Task.updated_at := now o |>))
        task None EventKind.TaskGoalChanged
        (object [("from", or_goal from); ("to", or_goal (Task.goal_id t'))]) in
  t ← read_task s task; Ok (s, t).
Definition set_goal_authorized o s (task : TaskId) (goal : option GoalId)
    (authorized : option TaskAuthorization) : result TaskError (Tables.t P * Task) :=
  _ ← check_authorized o s task authorized;
  _ ← check_step s task GuardedStep.Edit;
  let role := Outside.role o in
  _ ← TaskError.of_domain (Outside.check_set_goal o task goal role);
  set_goal_in o s task goal (MovedBy.of_role role).

Definition set_paths_authorized o s (task : TaskId) (paths : list string)
    (authorized : option TaskAuthorization) : result TaskError (Tables.t P * Task) :=
  _ ← check_authorized o s task authorized;
  _ ← check_step s task GuardedStep.Edit;
  t ← read_task s task;
  t' ← TaskError.of_domain (Task.set_paths t paths);
  let texts := λ paths : list string, of_items (of_text <$> paths) in
  let s :=
    if bool_decide (Task.paths t = Task.paths t') then s
    else
      task_event o
        (update_task s task (λ row,
           row <| Task.paths := Task.paths t' |> <| Task.updated_at := now o |>))
        task None EventKind.TaskPathsChanged
        (object [("from", texts (Task.paths t)); ("to", texts (Task.paths t'))]) in
  t ← read_task s task; Ok (s, t).

(** *** Edits *)

(** [EDITABLE_TASK_FIELDS]: each field's name, whether the edit changes what is
    shown of it, and its JSON before and after. *)
Definition edited_fields o (old new : Task) : list (string * bool * P * P) :=
  let texts := λ texts : list string, of_items (of_text <$> texts) in
  let change := λ t, or_null (λ c, of_text (TaskChange.as_str c)) (Task.change t) in
  let provider := λ t, of_text (as_str (Worker.provider (Task.worker t))) in
  let mode := λ t, of_text (as_str (Worker.mode (Task.worker t))) in
  let class := λ t, of_text (as_str (Task.execution_class t)) in
  [("title", bool_decide (Task.title old ≠ Task.title new),
      of_text (Task.title old), of_text (Task.title new));
   ("description", bool_decide (Task.description old ≠ Task.description new),
      of_text (Task.description old), of_text (Task.description new));
   ("acceptance", bool_decide (Task.acceptance old ≠ Task.acceptance new),
      of_text (Task.acceptance old), of_text (Task.acceptance new));
   ("verification_commands", bool_decide (Task.verification_commands old ≠ Task.verification_commands new),
      texts (Task.verification_commands old), texts (Task.verification_commands new));
   ("required_evidence", bool_decide (Task.required_evidence old ≠ Task.required_evidence new),
      Outside.evidence_json o (Task.required_evidence old), Outside.evidence_json o (Task.required_evidence new));
   ("paths", bool_decide (Task.paths old ≠ Task.paths new), texts (Task.paths old), texts (Task.paths new));
   ("context", bool_decide (Task.context old ≠ Task.context new),
      of_text (Task.context old), of_text (Task.context new));
   ("change", bool_decide (Task.change old ≠ Task.change new), change old, change new);
   ("provider", bool_decide (Worker.provider (Task.worker old) ≠ Worker.provider (Task.worker new)),
      provider old, provider new);
   ("worker_mode", bool_decide (Worker.mode (Task.worker old) ≠ Worker.mode (Task.worker new)),
      mode old, mode new);
   ("wait_for_build", bool_decide (Task.wait_for_build old ≠ Task.wait_for_build new),
      of_flag (Task.wait_for_build old), of_flag (Task.wait_for_build new));
   ("execution_class", bool_decide (Task.execution_class old ≠ Task.execution_class new),
      class old, class new)].
Definition changed_fields o (old new : Task) : list (string * P * P) :=
  let shown := omap (λ '(name, changed, from, to), if changed : bool then Some (name, from, to) else None)
                 (edited_fields o old new) in
  if bool_decide (Task.stored_worker_mode old ≠ Task.stored_worker_mode new)
     && negb (existsb (λ '(name, _, _), String.eqb name "worker_mode") shown)
  then shown ++ [("worker_mode", or_text (Task.stored_worker_mode old), or_text (Task.stored_worker_mode new))]
  else shown.
Definition edited_row (new row : Task) : Task :=
  row <| Task.title := Task.title new |> <| Task.description := Task.description new |>
      <| Task.acceptance := Task.acceptance new |>
      <| Task.verification_commands := Task.verification_commands new |>
      <| Task.required_evidence := Task.required_evidence new |>
      <| Task.paths := Task.paths new |> <| Task.context := Task.context new |>
      <| Task.worker := Task.worker new |> <| Task.named_mode := Task.stored_worker_mode new |>
      <| Task.change := Task.change new |> <| Task.wait_for_build := Task.wait_for_build new |>
      <| Task.execution_class := Task.execution_class new |>.
Definition leased_run_of s (task : TaskId) : bool :=
  existsb (λ l, is_some_and (stored_run (Tables.queue s) (RunLease.run l))
                  (λ r, bool_decide (TaskRun.task_id r = task))) (Queue.leases (Tables.queue s)).
Definition verify_editable s (task : TaskId) (edit : TaskEdit) : bool :=
  TaskEdit.verify_only edit
  && negb (has_unfinished_run (Tables.queue s) task)
  && negb (leased_run_of s task)
  && is_some_and (latest_run (Tables.queue s) task) (λ r,
       bool_decide (TaskRun.status r ∈ [RunStatus.Failed; RunStatus.Interrupted])).
Definition edit_task_authorized o s (task : TaskId) (edit : TaskEdit) (authorized : TaskStatus)
    (full : option TaskAuthorization) : result TaskError (Tables.t P * Task) :=
  _ ← check_step s task GuardedStep.Edit;
  old ← read_task s task;
  _ ← TaskError.of_domain (Task.check_status_authorized old authorized);
  _ ← check_authorized o s task full;
  new ← (if bool_decide (Task.status old = TaskStatus.InProgress) then
           if negb (verify_editable s task edit) then Err (TaskError.OnlyVerifyEditable task)
           else TaskError.of_domain (Task.edit_ended_verify old edit)
         else TaskError.of_domain (Task.edit old edit));
  let changes := changed_fields o old new in
  let s :=
    if bool_decide (length changes = 0) then s
    else
      task_event o
        (update_task s task (λ row, edited_row new row <| Task.updated_at := now o |>))
        task None EventKind.TaskEdited
        (object [("from", object ((λ '(name, from, _), (name, from)) <$> changes));
                 ("to", object ((λ '(name, _, to), (name, to)) <$> changes))]) in
  t ← read_task s task; Ok (s, t).

(** *** Goals *)
Definition new_goal_id s : GoalId :=
  GoalId.new (1 + foldr Z.max 0 (GoalId.as_i64 ∘ Goal.id <$> Tables.goals s))%Z.
Definition with_goal_priority (new : NewGoal) (priority : Priority) : NewGoal :=
  NewGoal.mk (NewGoal.title new) (NewGoal.description new) (NewGoal.acceptance new)
    (NewGoal.constraints new) (NewGoal.doc new) (NewGoal.draft new) (Some priority) (NewGoal.tags new).
Definition add_goal o s (new : NewGoal) : result TaskError (Tables.t P * Goal) :=
  let origin := creation_origin (Outside.creator o) in
  requested ← TaskError.of_domain (Outside.request_priority o origin);
  priorities ← TaskError.of_domain
    (goal_priority_at_creation (Outside.creator o) requested (NewGoal.priority new));
  g ← TaskError.of_domain (Goal.new (new_goal_id s) (with_goal_priority new priorities.1) (now o));
  let g := Goal.with_record g priorities.2 origin in
  let s := s <| Tables.goals := Tables.goals s ++ [g] |> in
  g ← read_goal s (Goal.id g);
  Ok (goal_event o s (Goal.id g) EventKind.GoalCreated (object [("goal", Outside.goal_json o g)]), g).
Definition edit_goal o s (goal : GoalId) (edit : GoalEdit) : result TaskError (Tables.t P * Goal) :=
  old ← read_goal s goal;
  priority_by ←
    match GoalEdit.priority edit with
    | Some priority =>
        if bool_decide (priority ≠ Goal.priority old) then
          _ ← TaskError.of_domain
                (check_priority_change (Outside.role o) (PriorityHolder.Goal goal) (Goal.priority old)
                   (Goal.priority_by old));
          Ok (priority_by_of (Outside.creator o))
        else Ok (Goal.priority_by old)
    | None => Ok (Goal.priority_by old)
    end;
  new ← TaskError.of_domain (Goal.edit old edit);
  let s := update_goal s goal (λ row,
    row <| Goal.title := Goal.title new |> <| Goal.description := Goal.description new |>
        <| Goal.acceptance := Goal.acceptance new |> <| Goal.constraints := Goal.constraints new |>
        <| Goal.doc := Goal.doc new |> <| Goal.updated_at := now o |>
        <| Goal.priority := Goal.priority new |> <| Goal.tags := Goal.tags new |>
        <| Goal.priority_by := priority_by |>) in
  let s := goal_event o s goal EventKind.GoalUpdated
    (object [("old", Outside.goal_json o old); ("new", Outside.goal_json o new);
             ("old_acceptance_version", Outside.acceptance_version o goal);
             ("new_acceptance_version", Outside.edited_version o goal);
             ("priority_by", of_text (as_str priority_by))]) in
  g ← read_goal s goal; Ok (s, g).
Definition ready_goal o s (goal : GoalId) : result TaskError (Tables.t P * Goal) :=
  draft ← read_goal s goal;
  opened ← TaskError.of_domain (Goal.ready draft);
  let s := update_goal s goal (λ row,
    row <| Goal.status := Goal.status opened |> <| Goal.updated_at := now o |>) in
  let s := goal_event o s goal EventKind.GoalStatusChanged
    (object [("from", of_text (as_str (Goal.status draft))); ("to", of_text (as_str (Goal.status opened)))]) in
  g ← read_goal s goal; Ok (s, g).

(** The rows of the query grouped by status. *)
Definition status_rows s (goal : GoalId) : list (TaskStatus * nat) :=
  omap (λ status,
    let n := length (List.filter (λ t, bool_decide (Task.goal_id t = Some goal)
                                       && bool_decide (Task.status t = status)) (tasks s)) in
    then_some (0 <? n) (status, n)) (variants TaskStatus).
(** What is counted of a status, as the payload of the close shows it. *)
Definition counts_json (counts : TaskStatusCounts) : P :=
  object (("total", of_number (Z.of_nat (TaskStatusCounts.total counts)))
          :: ((λ status, (as_str status, of_number (Z.of_nat (TaskStatusCounts.of_status counts status))))
                <$> variants TaskStatus)).
Definition close_goal_row o s (goal : GoalId) (verdict : GoalVerdict) (extra : list (string * P)) :
    result TaskError (Tables.t P) :=
  g ← read_goal s goal;
  let rows := status_rows s goal in
  closed ← TaskError.of_domain
    (close_goal_in g verdict rows (Outside.replacing o goal) (Outside.follow_ups o goal)
       (Outside.unresolved o goal) (now o));
  let open g := bool_decide (Goal.id g = goal) && is_none (Goal.closed_at g) in
  if negb (length (List.filter open (Tables.goals s)) =? 1) then Err (TaskError.GoalChanged goal)
  else
    let s := s <| Tables.goals :=
      (λ g, if open g
            then g <| Goal.closed_at := Goal.closed_at closed |> <| Goal.verdict := Goal.verdict closed |>
                   <| Goal.updated_at := Goal.updated_at closed |>
            else g) <$> Tables.goals s |> in
    let s := goal_event o s goal EventKind.GoalClosed
      (object ([("verdict", of_text (as_str verdict)); ("tasks", counts_json (task_counts rows))] ++ extra)) in
    Ok (if bool_decide (verdict = GoalVerdict.Abandoned)
        then on_queue s (record_all (Outside.writer o) (Tables.queue s) (Outside.abandoned o goal))
        else s).
Definition close_goal o s (goal : GoalId) (verdict : GoalVerdict) : result TaskError (Tables.t P * Goal) :=
  s ← close_goal_row o s goal verdict [];
  g ← read_goal s goal; Ok (s, g).
End store.

(** ** Claiming *)

(** What a supervisor brings to a claim: a fresh run and its base, its order, the
    classes its limits hold, its routes, the session it opens; the worker the
    trial of the pair of providers has each task ask for and whether the limit of
    investigations holds a task; what it measured; and what the carry of a
    replanning operation reads. *)
Module Claim.
Record t {P : Type} : Type := mk {
  run : RunId;
  base : CommitSha;
  now_secs : Z;
  order : list TaskId;
  held_classes : list ExecutionClass;
  routes : list WorkerRoute;
  requested : Task → Worker;
  limited : Task → bool;
  reads : Replan.Reads;
  (** The fields after the transition's: attributes, session, trial, facts. *)
  fields : Task → TaskRun → list (string * P);
}.
Arguments t : clear implicits.
Arguments mk {P}.
End Claim.
Abbreviation Claim := Claim.t.

Module ClaimOutcome.
Inductive t : Set := NoReadyTask | Claimed (run : TaskRun).
End ClaimOutcome.
Abbreviation ClaimOutcome := ClaimOutcome.t.

Section claim.
  Context {P : Type} `{Payload P}.
  Implicit Types (s : Tables.t P) (o : Outside P) (c : Claim P).

(** The three [retain]s: a route for the worker asked for, no class held, no
    limit of investigations. *)
Definition claimable c (t : Task) : bool :=
  is_some (route_of (Claim.routes c) (Claim.requested c t))
  && negb (bool_decide (Task.execution_class t ∈ Claim.held_classes c))
  && negb (Claim.limited c t).
Definition takeable s c : list Task := List.filter (claimable c) (ready_tasks s).
(** [position]: the first of [ids] that is ready. *)
Definition first_ready (ready : list Task) (ids : list TaskId) : option Task :=
  find_map (λ id, List.find (λ t, bool_decide (Task.id t = id)) ready) ids.
Definition chosen s c : result TaskError (option Task) :=
  let ready := takeable s c in
  match ready with
  | [] => Ok None
  | _ =>
      match first_ready ready (Claim.order c) with
      | Some t => Ok (Some t)
      | None =>
          order ← claim_order s;
          Ok (match find_map (λ id, List.find (λ t, bool_decide (Task.id t = id)
                                                    && negb (Task.wait_for_build t)) ready) order with
              | Some t => Some t
              | None => List.find (λ t, negb (Task.wait_for_build t)) ready
              end)
      end
  end.
Definition claimed_payload (t : Task) (run : TaskRun) (more : list (string * P)) : P :=
  object ([("from", of_text (as_str TaskStatus.Ready)); ("to", of_text (as_str (Task.status t)));
           ("provider", of_text (as_str (TaskRun.actual_provider run)));
           ("requested_provider", of_text (as_str (TaskRun.requested_provider run)));
           ("worker_mode", of_text (as_str (TaskRun.worker_mode run)));
           ("execution_class", of_text (as_str (Task.execution_class t)))] ++ more).
Definition claim_task o s c : result TaskError (Tables.t P * ClaimOutcome) :=
  chosen ← chosen s c;
  match chosen with
  | None => Ok (s, ClaimOutcome.NoReadyTask)
  | Some ready =>
      let task := Task.id ready in
      t ← TaskError.of_domain (Task.claim ready);
      let worker := Claim.requested c t in
      match route_of (Claim.routes c) worker with
      | None => Err (TaskError.NoRoute task)
      | Some route =>
          let actual := Worker.mk (Worker.provider (WorkerRoute.actual route)) WorkerMode.Headless in
          run ← TaskError.of_domain (TaskRun.new (Claim.run c) t (Claim.base c) (now o));
          let run := TaskRun.running_on (TaskRun.requesting run worker) actual in
          let '(q, moved) := move_task (Outside.writer o) (Tables.queue s) task TaskStatus.Ready (Task.status t) in
          if negb moved then Err (TaskError.Stored (StoreError.TaskChanged task)) else
          let q := q <| Queue.runs := Queue.runs q ++ [StoredRun.mk run None] |> in
          operations ← TaskError.of_replan
            (Replan.carry_open_to (Claim.reads c) (Queue.operations q) task (TaskRun.id run) (Claim.now_secs c));
          let s := on_queue s (q <| Queue.operations := operations |>) in
          let s :=
            if bool_decide (Worker.mode (Task.worker t) = WorkerMode.Interactive) then
              task_event o s task (Some (TaskRun.id run)) EventKind.WorkerModeConverted
                (object [("phase", of_text "claim"); ("from", of_text "interactive");
                         ("to", of_text "headless"); ("reason", of_text "interactive_worker_removed")])
            else s in
          let s :=
            match WorkerRoute.switch route with
            | Some reason =>
                task_event o s task (Some (TaskRun.id run)) EventKind.ProviderSwitched
                  (switched_payload (TaskRun.requested_provider run) actual reason SwitchPhase.Start None 1 None)
            | None => s
            end in
          Ok (task_event o s task (Some (TaskRun.id run)) EventKind.RunClaimed
                (claimed_payload t run (Claim.fields c t run)), ClaimOutcome.Claimed run)
      end
  end.
End claim.
