(* ===== verification/TaskTable.v ===== *)
(** * What the store of tasks promises

    The transactions of TaskStore, one after the other and among the moves of
    runs, keep the wait graph without a circle, whatever is added, moved,
    canceled or claimed; a task is worked on only once all its predecessors are
    completed; a claim takes the first task of its order; and on every graph the
    store reads the view of [graph] ends and some unfinished task waits for no
    other. *)
From S2P Require Import Prelude Text Vocab Ids Errors Labels Scope Workers Priorities Inputs FollowUps Tasks Goals Proposals Runs ClaimOrder Replans EventKinds Events Reasons Reviews Resumes RunPhase Holds WorkerModels HoldStore HoldTable Actors Authorization Asks ProviderSwitches Cancels ClaimGraph TaskStore.

(** ** Relations without a circle *)
Section circles.
  Context {A : Type}.
  Implicit Types (R : relation A).

Definition acyclic R : Prop := ∀ a, ¬ tc R a a.

Lemma acyclic_sub R R' : (∀ a b, R' a b → R a b) → acyclic R → acyclic R'.
Proof.
  intros Hsub Hacyclic a Ha. apply (Hacyclic a). revert Ha. generalize a at 1 3. intros x Hx.
  induction Hx as [x y Hxy|x y z Hxy _ IH]; [by apply tc_once, Hsub|eapply tc_l; [by apply Hsub|exact IH]].
Qed.

(** An edge is added to a relation where nothing leads back from its end. *)
Lemma acyclic_add R R' from to :
  acyclic R → ¬ rtc R to from → (∀ a b, R' a b → R a b ∨ a = from ∧ b = to) → acyclic R'.
Proof.
  intros Hacyclic Hback Hadd.
  assert (∀ a b, tc R' a b → tc R a b ∨ rtc R a from ∧ rtc R to b) as Hall.
  { induction 1 as [a b Hab|a b c Hab _ IH].
    - destruct (Hadd a b Hab) as [?|[-> ->]]; [left; by apply tc_once|by right].
    - destruct (Hadd a b Hab) as [HR|[-> ->]], IH as [Hbc|[Hbf Htc]].
      + left. by eapply tc_l.
      + right. split; [by eapply rtc_l|done].
      + right. split; [done|by apply tc_rtc].
      + right. by split. }
  intros a Ha. destruct (Hall a a Ha) as [?|[Haf Hta]]; [by apply (Hacyclic a)|].
  apply Hback. by trans a.
Qed.

(** A map of the nodes carries paths along. *)
Lemma acyclic_image {B} R (Q : relation B) (f : B → A) :
  (∀ a b, Q a b → tc R (f a) (f b)) → acyclic R → ∀ b, ¬ tc Q b b.
Proof.
  intros Hmap Hacyclic b Hb. apply (Hacyclic (f b)). revert Hb. generalize b at 1 3. intros x Hx.
  induction Hx as [x y Hxy|x y z Hxy _ IH]; [by apply Hmap|]. by eapply tc_transitive; [apply Hmap|].
Qed.

End circles.

Module TaskStoreProofs.
Section proofs.
  Context {P : Type} `{Payload P}.
  Implicit Types (s : Tables.t P) (o : Outside P) (c : Claim P) (t : Task).

(** [waits s a b]: [a] waits for [b]. *)
Definition waits s : relation Node := leads (edges s).

Lemma waits_task s task b :
  waits s (Node.Task task) b ↔
  (∃ p, b = Node.Task p ∧ (task, p) ∈ Tables.dependencies s)
  ∨ (∃ g, b = Node.Goal g ∧ (task, g) ∈ Tables.goal_dependencies s)
  ∨ (∃ r, b = Node.Task r ∧ (task, r) ∈ Tables.replacements s).
Proof.
  unfold waits, leads, edges. rewrite !elem_of_app, !list_elem_of_fmap.
  setoid_rewrite list_elem_of_In. setoid_rewrite filter_In. setoid_rewrite <-list_elem_of_In.
  setoid_rewrite bool_decide_eq_true. split.
  - intros [([x y] & -> & Hin & Heq)|[([x y] & -> & Hin & Heq)|([x y] & -> & Hin & Heq)]];
      simpl in Heq; subst; simpl; eauto 10.
  - intros [(p & -> & Hin)|[(g & -> & Hin)|(r & -> & Hin)]];
      [left|right; left|right; right]; by eexists (_, _).
Qed.
Lemma waits_goal s goal b :
  waits s (Node.Goal goal) b ↔
  ∃ t, t ∈ tasks s ∧ b = Node.Task (Task.id t) ∧ Task.goal_id t = Some goal
       ∧ Task.status t ≠ TaskStatus.Canceled.
Proof.
  unfold waits, leads, edges. rewrite list_elem_of_fmap.
  setoid_rewrite list_elem_of_In. setoid_rewrite filter_In. setoid_rewrite <-list_elem_of_In.
  setoid_rewrite andb_true_iff. setoid_rewrite negb_true_iff.
  setoid_rewrite bool_decide_eq_true. setoid_rewrite bool_decide_eq_false. naive_solver.
Qed.

Lemma edges_nodes s node : edges s node ≠ [] → node ∈ nodes s.
Proof.
  intros Hne. destruct (edges s node) as [|b l] eqn:He; [done|].
  assert (waits s node b) as Hw by (unfold waits, leads; rewrite He; by left).
  unfold nodes. rewrite elem_of_list_to_set, !elem_of_app, !list_elem_of_fmap.
  destruct node as [task|goal].
  - rewrite waits_task in Hw. destruct Hw as [(p & -> & Hin)|[(g & -> & Hin)|(r & -> & Hin)]];
      [left|right; left|right; right; left]; by eexists (_, _).
  - rewrite waits_goal in Hw. destruct Hw as (t & Ht & _ & Hg & _). right; right; right.
    exists goal. split; [done|]. rewrite list_elem_of_omap. eauto.
Qed.

(** The recursive query finds exactly the nodes a path leads to. *)
Lemma waits_for_spec s from to : waits_for s from to = true ↔ rtc (waits s) from to.
Proof.
  unfold waits_for. destruct (closure_spec (edges s) (nodes s) (edges_nodes s) from) as (all & -> & Hall).
  simpl. rewrite orb_true_iff, !bool_decide_eq_true, Hall. fold (waits s). split.
  - intros [->|Htc]; [done|by apply tc_rtc].
  - intros Hrtc. apply rtc_tc in Hrtc as [->|Htc]; auto.
Qed.
Lemma waits_for_none s from to : waits_for s from to = false → ¬ rtc (waits s) from to.
Proof. intros Hno Hrtc%waits_for_spec. congruence. Qed.

(** ** The state of the tables *)

(** A task that was claimed, now or before its end. *)
Definition started (status : TaskStatus) : bool :=
  match status with
  | TaskStatus.InProgress | TaskStatus.Completed | TaskStatus.Replaced => true
  | _ => false
  end.
Definition ids s : list TaskId := Task.id <$> tasks s.
Definition completed s (task : TaskId) : Prop :=
  ∃ t, t ∈ tasks s ∧ Task.id t = task ∧ Task.status t = TaskStatus.Completed.
Definition predecessors_completed s (task : TaskId) : Prop :=
  ∀ p, (task, p) ∈ Tables.dependencies s → completed s p.
Record store_wf s : Prop := {
  wf_ids : NoDup (ids s);
  wf_dependencies : ∀ task p, (task, p) ∈ Tables.dependencies s → task ∈ ids s ∧ p ∈ ids s;
  wf_goal_dependencies : ∀ task goal, (task, goal) ∈ Tables.goal_dependencies s → task ∈ ids s;
  wf_replacements : ∀ task r, (task, r) ∈ Tables.replacements s → task ∈ ids s;
  wf_acyclic : acyclic (waits s);
  wf_started : ∀ t, t ∈ tasks s → started (Task.status t) = true → predecessors_completed s (Task.id t);
}.

Lemma find_task_in s task t :
  find_task (Tables.queue s) task = Some t → t ∈ tasks s ∧ Task.id t = task.
Proof.
  intros Hfind. apply find_some in Hfind as [Hin Hid]. apply bool_decide_eq_true in Hid.
  by rewrite <-list_elem_of_In in Hin.
Qed.
Lemma task_of_id s t1 t2 :
  store_wf s → t1 ∈ tasks s → t2 ∈ tasks s → Task.id t1 = Task.id t2 → t1 = t2.
Proof. intros Hwf H1 H2 Hid. by eapply NoDup_fmap_same; [apply (wf_ids s Hwf)|..]. Qed.
Lemma read_task_inv s task t :
  read_task s task = Ok t → ∃ row, row ∈ tasks s ∧ Task.id row = task ∧ t = task_row s row.
Proof.
  unfold read_task. destruct (find_task _ _) as [row|] eqn:Hfind; [|done].
  apply find_task_in in Hfind as []. intros [= <-]. eauto.
Qed.
Lemma task_row_status s row : Task.status (task_row s row) = Task.status row.
Proof. unfold task_row. by destruct (base_priority _ _). Qed.
Lemma task_row_id s row : Task.id (task_row s row) = Task.id row.
Proof. unfold task_row. by destruct (base_priority _ _). Qed.
Lemma task_row_goal s row : Task.goal_id (task_row s row) = Task.goal_id row.
Proof. unfold task_row. by destruct (base_priority _ _). Qed.

(** *** What a transaction lets change *)

(** Where a task's row may go: [may] names the tasks that may be started. *)
Definition moves (may : TaskId → Prop) t t' : Prop :=
  Task.id t' = Task.id t
  ∧ (Task.status t = TaskStatus.Completed → Task.status t' = TaskStatus.Completed)
  ∧ (started (Task.status t') = true → started (Task.status t) = true ∨ may (Task.id t)).
Definition stays t t' : Prop :=
  Task.goal_id t' = Task.goal_id t
  ∧ (Task.status t = TaskStatus.Canceled → Task.status t' = TaskStatus.Canceled).
Definition may_start s (task : TaskId) : Prop := predecessors_completed s task.

Lemma moves_ids may l l' : Forall2 (moves may) l l' → Task.id <$> l' = Task.id <$> l.
Proof. induction 1 as [|t t' l l' (Hid & _) _ IH]; [done|]. rewrite !fmap_cons. congruence. Qed.
Lemma Forall2_back {A B} (R : A → B → Prop) l l' y : Forall2 R l l' → y ∈ l' → ∃ x, x ∈ l ∧ R x y.
Proof.
  intros Hall [i Hi]%list_elem_of_lookup. destruct (Forall2_lookup_r _ _ _ _ _ Hall Hi) as (x & Hx & HR).
  exists x. split; [by eapply list_elem_of_lookup_2|done].
Qed.
Lemma Forall2_forth {A B} (R : A → B → Prop) l l' x : Forall2 R l l' → x ∈ l → ∃ y, y ∈ l' ∧ R x y.
Proof.
  intros Hall [i Hi]%list_elem_of_lookup. destruct (Forall2_lookup_l _ _ _ _ _ Hall Hi) as (y & Hy & HR).
  exists y. split; [by eapply list_elem_of_lookup_2|done].
Qed.
Lemma completed_moves may s s' task :
  Forall2 (moves may) (tasks s) (tasks s') → completed s task → completed s' task.
Proof.
  intros Hall (t & Ht & Hid & Hst). destruct (Forall2_forth _ _ _ _ Hall Ht) as (t' & Ht' & Hid' & Hc & _).
  exists t'. split_and!; [done|congruence|by apply Hc].
Qed.

(** Rows move, edges go, and no circle comes: the state stays well formed. *)
Lemma moved_wf s s' :
  Forall2 (moves (may_start s)) (tasks s) (tasks s') →
  Tables.dependencies s' ⊆ Tables.dependencies s →
  Tables.goal_dependencies s' ⊆ Tables.goal_dependencies s →
  Tables.replacements s' ⊆ Tables.replacements s →
  acyclic (waits s') → store_wf s → store_wf s'.
Proof.
  intros Hall Hdep Hgoal Hrep Hacyclic Hwf. pose proof (moves_ids _ _ _ Hall) as Hids. fold (ids s) (ids s') in Hids.
  split; rewrite ?Hids.
  - apply Hwf.
  - intros task p Hin%Hdep. by apply (wf_dependencies s Hwf).
  - intros task goal Hin%Hgoal. by eapply (wf_goal_dependencies s Hwf).
  - intros task r Hin%Hrep. by eapply (wf_replacements s Hwf).
  - done.
  - intros t' Ht' Hst p Hin%Hdep. destruct (Forall2_back _ _ _ _ Hall Ht') as (t & Ht & Hid & _ & Hmay).
    rewrite Hid in Hin. eapply completed_moves; [exact Hall|].
    destruct (Hmay Hst) as [Hs|Hs]; [by apply (wf_started s Hwf t)|by apply Hs].
Qed.

(** A transaction that adds no edge. *)
Record keeps s s' : Prop := {
  keeps_tasks : Forall2 (λ t t', moves (may_start s) t t' ∧ stays t t') (tasks s) (tasks s');
  keeps_dependencies : Tables.dependencies s' ⊆ Tables.dependencies s;
  keeps_goal_dependencies : Tables.goal_dependencies s' ⊆ Tables.goal_dependencies s;
  keeps_replacements : Tables.replacements s' ⊆ Tables.replacements s;
}.
Lemma keeps_waits s s' a b : keeps s s' → waits s' a b → waits s a b.
Proof.
  intros [Hall Hdep Hgoal Hrep]. destruct a as [task|goal].
  - rewrite !waits_task. naive_solver.
  - rewrite !waits_goal. intros (t' & Ht' & -> & Hg & Hst).
    destruct (Forall2_back _ _ _ _ Hall Ht') as (t & Ht & (Hid & _) & Hgoal' & Hc).
    exists t. split_and!; [done|congruence..|intros Hcan; by apply Hst, Hc].
Qed.
Lemma keeps_wf s s' : keeps s s' → store_wf s → store_wf s'.
Proof.
  intros Hk Hwf. apply (moved_wf s); [|apply Hk..| |done].
  - eapply Forall2_impl; [apply Hk|]. by intros t t' [].
  - eapply acyclic_sub; [|apply (wf_acyclic s Hwf)]. intros a b. by apply keeps_waits.
Qed.

(** ** Every transaction keeps the state well formed *)
Definition sound s s' : Prop := store_wf s → store_wf s'.
#[local] Instance sound_preorder : PreOrder sound.
Proof. split; [by intros s Hwf|]. intros s1 s2 s3 H12 H23 Hwf. by apply H23, H12. Qed.

(** Edges only go, and no row moves. *)
Lemma moves_refl may t : moves may t t.
Proof. split_and!; auto. Qed.
Lemma sound_fewer s s' :
  tasks s' = tasks s → Tables.dependencies s' ⊆ Tables.dependencies s →
  Tables.goal_dependencies s' ⊆ Tables.goal_dependencies s →
  Tables.replacements s' ⊆ Tables.replacements s → sound s s'.
Proof.
  intros Htasks Hdep Hgoal Hrep Hwf. apply (keeps_wf s); [|done]. split; [|done..]. rewrite Htasks.
  apply Forall_Forall2_diag, Forall_forall. intros t _. split; [apply moves_refl|by split].
Qed.
(** The rest of the tables: goals, runs, holds, operations, the log. *)
Lemma sound_same s s' :
  tasks s' = tasks s → Tables.dependencies s' = Tables.dependencies s →
  Tables.goal_dependencies s' = Tables.goal_dependencies s →
  Tables.replacements s' = Tables.replacements s → sound s s'.
Proof. intros Htasks Hdep Hgoal Hrep. apply sound_fewer; [done|by rewrite ?Hdep, ?Hgoal, ?Hrep..]. Qed.
Lemma sound_task_event o s task run kind payload : sound s (task_event o s task run kind payload).
Proof. by apply sound_same. Qed.
Lemma sound_goal_event o s goal kind payload : sound s (goal_event o s goal kind payload).
Proof. by apply sound_same. Qed.
Lemma sound_update_goal s goal change : sound s (update_goal s goal change).
Proof. by apply sound_same. Qed.
Lemma sound_queue s q :
  Queue.tasks q = tasks s → sound s (on_queue s q).
Proof. intros Htasks. by apply sound_same. Qed.

Lemma sound_update s matches change :
  (store_wf s → ∀ t, t ∈ tasks s → matches t = true → moves (may_start s) t (change t) ∧ stays t (change t)) →
  sound s (on_queue s (update_tasks (Tables.queue s) matches change)).
Proof.
  intros Hchange Hwf. specialize (Hchange Hwf). apply (keeps_wf s); [|done]. split; [|done..].
  unfold tasks in *. simpl. apply Forall2_same_length_lookup_2; [by rewrite length_fmap|].
  intros i t t' Ht Ht'. rewrite list_lookup_fmap in Ht'. rewrite Ht in Ht'. simpl in Ht'. injection Ht' as <-.
  destruct (matches t) eqn:Hm; [by apply Hchange; [eapply list_elem_of_lookup_2|]|].
  split; [apply moves_refl|by split].
Qed.
(** A change of columns other than the id, the status and the goal. *)
Lemma sound_columns s task change :
  (∀ t, Task.id (change t) = Task.id t ∧ Task.status (change t) = Task.status t
        ∧ Task.goal_id (change t) = Task.goal_id t) →
  sound s (update_task s task change).
Proof.
  intros Hchange. apply sound_update. intros _ t _ _. destruct (Hchange t) as (Hid & Hst & Hgoal).
  unfold moves, stays. rewrite Hid, Hst, Hgoal. auto.
Qed.
Lemma waits_columns s task change a b :
  (∀ t, Task.id (change t) = Task.id t ∧ Task.status (change t) = Task.status t
        ∧ Task.goal_id (change t) = Task.goal_id t) →
  waits (update_task s task change) a b → waits s a b.
Proof.
  intros Hchange. destruct a as [a|g]; [by rewrite !waits_task|]. rewrite !waits_goal. unfold tasks at 1. simpl.
  intros (t' & Ht' & -> & Hg & Hst). apply list_elem_of_fmap in Ht' as (t & -> & Ht).
  destruct (is_task task t); [|eauto]. destruct (Hchange t) as (Hid & Hst' & Hgoal).
  exists t. split_and!; [done|by rewrite Hid|congruence..].
Qed.
Lemma sound_touch o s task : sound s (touch o s task).
Proof. by apply sound_columns. Qed.
Lemma sound_remove s dependencies :
  dependencies ⊆ Tables.dependencies s → sound s (s <| Tables.dependencies := dependencies |>).
Proof. intros Hsub. by apply sound_fewer. Qed.
Lemma sound_remove_goal s dependencies :
  dependencies ⊆ Tables.goal_dependencies s → sound s (s <| Tables.goal_dependencies := dependencies |>).
Proof. intros Hsub. by apply sound_fewer. Qed.

(** *** New edges *)
Lemma sound_depends s task p :
  (store_wf s → task ∈ ids s ∧ p ∈ ids s
    ∧ (∀ t, t ∈ tasks s → Task.id t = task → started (Task.status t) = false)) →
  waits_for s (Node.Task p) (Node.Task task) = false →
  sound s (s <| Tables.dependencies := Tables.dependencies s ++ [(task, p)] |>).
Proof.
  intros Hin Hno%waits_for_none Hwf. destruct (Hin Hwf) as (Htask & Hp & Hst). split; try apply Hwf.
  - intros a b. simpl. rewrite elem_of_app, list_elem_of_singleton.
    intros [Hab|[= -> ->]]; [by apply (wf_dependencies s Hwf)|done].
  - eapply acyclic_add; [apply (wf_acyclic s Hwf)|exact Hno|]. intros [a|g] b.
    + rewrite !waits_task. simpl. setoid_rewrite elem_of_app. setoid_rewrite list_elem_of_singleton.
      naive_solver.
    + rewrite !waits_goal. auto.
  - intros t Ht Hs q. simpl. rewrite elem_of_app, list_elem_of_singleton.
    intros [Hq|[= Hid ->]]; [by apply (wf_started s Hwf t)|].
    rewrite (Hst t Ht Hid) in Hs. done.
Qed.
Lemma sound_depends_goal s task goal :
  (store_wf s → task ∈ ids s) →
  waits_for s (Node.Goal goal) (Node.Task task) = false →
  sound s (s <| Tables.goal_dependencies := Tables.goal_dependencies s ++ [(task, goal)] |>).
Proof.
  intros Hin Hno%waits_for_none Hwf. split; try apply Hwf.
  - intros a b. simpl. rewrite elem_of_app, list_elem_of_singleton.
    intros [Hab|[= -> ->]]; [by eapply (wf_goal_dependencies s Hwf)|by apply Hin].
  - eapply acyclic_add; [apply (wf_acyclic s Hwf)|exact Hno|]. intros [a|g] b.
    + rewrite !waits_task. simpl. setoid_rewrite elem_of_app. setoid_rewrite list_elem_of_singleton.
      naive_solver.
    + rewrite !waits_goal. auto.
Qed.
(** A task moves into a goal it does not wait for, or out of its goal. *)
Lemma sound_member s task goal change :
  (∀ t, Task.id (change t) = Task.id t ∧ Task.status (change t) = Task.status t
        ∧ Task.goal_id (change t) = goal) →
  (∀ g, goal = Some g → ¬ rtc (waits s) (Node.Task task) (Node.Goal g)) →
  sound s (update_task s task change).
Proof.
  intros Hchange Hno Hwf. apply (moved_wf s); [|done..| |done].
  - unfold tasks. simpl. apply Forall2_fmap_r, Forall_Forall2_diag, Forall_forall. intros t _.
    change (moves (may_start s) t (if is_task task t then change t else t)).
    destruct (is_task task t); [|apply moves_refl]. destruct (Hchange t) as (Hid & Hst & _).
    unfold moves. rewrite Hid, Hst. auto.
  - destruct goal as [g|].
    + eapply acyclic_add; [apply (wf_acyclic s Hwf)|by apply Hno|]. intros [a|a] b.
      * rewrite !waits_task. auto.
      * rewrite !waits_goal. unfold tasks at 1. simpl. intros (t' & Ht' & -> & Hg & Hst).
        apply list_elem_of_fmap in Ht' as (t & -> & Ht). unfold is_task in *. case_bool_decide as Hid.
        -- right. destruct (Hchange t) as (Hid' & _ & Hgoal). rewrite Hgoal in Hg. simplify_eq.
           split; [done|congruence].
        -- left. eauto.
    + eapply acyclic_sub; [|apply (wf_acyclic s Hwf)]. intros [a|a] b.
      * rewrite !waits_task. auto.
      * rewrite !waits_goal. unfold tasks at 1. simpl. intros (t' & Ht' & -> & Hg & Hst).
        apply list_elem_of_fmap in Ht' as (t & -> & Ht). unfold is_task in *. case_bool_decide; [|eauto].
        destruct (Hchange t) as (_ & _ & Hgoal). congruence.
Qed.
(** A fresh row, that nothing leads from yet. *)
Lemma sound_appended s t q :
  Queue.tasks q = tasks s ++ [t] → (store_wf s → Task.id t ∉ ids s) → started (Task.status t) = false →
  sound s (on_queue s q).
Proof.
  intros Htasks Hfresh Hst Hwf. specialize (Hfresh Hwf).
  assert (tasks (on_queue s q) = tasks s ++ [t]) as Hts by exact Htasks.
  assert (ids (on_queue s q) = ids s ++ [Task.id t]) as Hids by (unfold ids; by rewrite Hts, fmap_app).
  assert (∀ b, ¬ waits s (Node.Task (Task.id t)) b) as Hleaf.
  { intros b. rewrite waits_task.
    intros [(p & _ & Hin)|[(g & _ & Hin)|(r & _ & Hin)]]; apply Hfresh;
      [apply (wf_dependencies s Hwf _ _ Hin)|apply (wf_goal_dependencies s Hwf _ _ Hin)
      |apply (wf_replacements s Hwf _ _ Hin)]. }
  assert (∀ p, completed s p → completed (on_queue s q) p) as Hcomp.
  { intros p (x & Hx & Hxp). exists x. rewrite Hts, elem_of_app. auto. }
  split; rewrite ?Hids.
  - apply NoDup_app. split_and!; [apply Hwf| |apply NoDup_singleton].
    intros x Hx ->%list_elem_of_singleton. by apply Hfresh.
  - intros a b Hin%(wf_dependencies s Hwf). rewrite !elem_of_app. naive_solver.
  - intros a b Hin%(wf_goal_dependencies s Hwf). rewrite elem_of_app. auto.
  - intros a b Hin%(wf_replacements s Hwf). rewrite elem_of_app. auto.
  - destruct (Task.goal_id t) as [g|] eqn:Hg.
    + eapply (acyclic_add _ _ (Node.Goal g) (Node.Task (Task.id t))); [apply (wf_acyclic s Hwf)| |].
      { intros Hpath. inversion Hpath as [|? b ? Hb]; subst. by apply (Hleaf b). }
      intros [a|a] b; [by rewrite !waits_task; auto|]. rewrite !waits_goal, Hts.
      setoid_rewrite elem_of_app. setoid_rewrite list_elem_of_singleton. naive_solver.
    + eapply acyclic_sub; [|apply (wf_acyclic s Hwf)]. intros [a|a] b; [by rewrite !waits_task; auto|].
      rewrite !waits_goal, Hts. setoid_rewrite elem_of_app. setoid_rewrite list_elem_of_singleton. naive_solver.
  - intros x. rewrite Hts, elem_of_app, list_elem_of_singleton. intros [Hx| ->] Hs; [|congruence].
    intros p Hp. by apply Hcomp, (wf_started s Hwf x).
Qed.

(** ** The transactions *)
Lemma task_domain_Ok {A} (r : Result A) a : TaskError.of_domain r = Ok a → r = Ok a.
Proof. destruct r; [by intros [= ->]|done]. Qed.
Lemma task_store_Ok {A} (r : result StoreError A) a : TaskError.of_store r = Ok a → r = Ok a.
Proof. destruct r; [by intros [= ->]|done]. Qed.
Lemma of_replan_Ok {A} (r : result Replan.WriteError A) a : TaskError.of_replan r = Ok a → r = Ok a.
Proof. destruct r; [by intros [= ->]|done]. Qed.

Lemma editable_not_started t : Task.dependencies_editable t = true → started (Task.status t) = false.
Proof. unfold Task.dependencies_editable. by destruct (Task.status t). Qed.
Lemma require_editable_inv t what u : Task.require_editable t what = Ok u → Task.dependencies_editable t = true.
Proof. apply require_Ok. Qed.

(** What a read row says of every row of its id. *)
Lemma read_task_rows s task t :
  store_wf s → read_task s task = Ok t →
  task ∈ ids s ∧ ∀ row, row ∈ tasks s → Task.id row = task → t = task_row s row.
Proof.
  intros Hwf (row & Hrow & Hid & ->)%read_task_inv. split.
  - apply list_elem_of_fmap. eauto.
  - intros row' Hrow' Hid'. f_equal. apply (task_of_id s); [done..|congruence].
Qed.

Lemma insert_dependency_sound o s task p s' : insert_dependency o s task p = Ok s' → sound s s'.
Proof.
  unfold insert_dependency. intros Hok. res_inv.
  repeat match goal with Hd : TaskError.of_domain _ = Ok _ |- _ => apply task_domain_Ok in Hd end.
  case_bool_decide as Hin; res_inv; [done|].
  match goal with Ht : read_task s task = Ok ?t, Hp : read_task s p = Ok _, He : Task.check_dependencies_editable ?t = _ |- _ =>
    apply require_editable_inv, editable_not_started in He; rename Ht into Htask; rename Hp into Hpred; rename He into Hst
  end.
  match goal with Hc : check_acyclic _ _ _ = Ok _ |- _ => apply require_Ok, negb_true_iff in Hc; rename Hc into Hno end.
  trans (s <| Tables.dependencies := Tables.dependencies s ++ [(task, p)] |>); [|by rewrite <-sound_task_event, <-sound_touch].
  apply sound_depends; [|done]. intros Hwf. split_and!; [by eapply read_task_rows|by eapply read_task_rows|].
  intros row Hrow Hid. destruct (read_task_rows s task _ Hwf Htask) as [_ Hall].
  rewrite (Hall row Hrow Hid), task_row_status in Hst. done.
Qed.
Lemma insert_goal_dependency_sound o s task goal s' : insert_goal_dependency o s task goal = Ok s' → sound s s'.
Proof.
  unfold insert_goal_dependency. intros Hok. res_inv.
  repeat match goal with Hd : TaskError.of_domain _ = Ok _ |- _ => apply task_domain_Ok in Hd end.
  case_bool_decide as Hin; res_inv; [done|].
  match goal with Hc : check_goal_acyclic _ _ _ = Ok _ |- _ => apply require_Ok, negb_true_iff in Hc; rename Hc into Hno end.
  trans (s <| Tables.goal_dependencies := Tables.goal_dependencies s ++ [(task, goal)] |>);
    [|by rewrite <-sound_task_event, <-sound_touch].
  apply sound_depends_goal; [|done]. intros Hwf. by eapply read_task_rows.
Qed.
Lemma filter_subset {A} (f : A → bool) l : List.filter f l ⊆ l.
Proof. intros x. rewrite !list_elem_of_In, filter_In. by intros []. Qed.
Lemma add_dependency_sound o s task p authorized s' :
  add_dependency_authorized o s task p authorized = Ok s' → sound s s'.
Proof. unfold add_dependency_authorized. intros Hok. res_inv. by eapply insert_dependency_sound. Qed.
Lemma add_goal_dependency_sound o s task goal authorized s' :
  add_goal_dependency_authorized o s task goal authorized = Ok s' → sound s s'.
Proof. unfold add_goal_dependency_authorized. intros Hok. res_inv. by eapply insert_goal_dependency_sound. Qed.
Lemma remove_dependency_sound o s task p authorized s' :
  remove_dependency_authorized o s task p authorized = Ok s' → sound s s'.
Proof.
  unfold remove_dependency_authorized. intros Hok. res_inv. destruct (negb _); res_inv.
  rewrite <-sound_task_event, <-sound_touch. apply sound_remove, filter_subset.
Qed.
Lemma remove_goal_dependency_sound o s task goal authorized s' :
  remove_goal_dependency_authorized o s task goal authorized = Ok s' → sound s s'.
Proof.
  unfold remove_goal_dependency_authorized. intros Hok. res_inv. destruct (negb _); res_inv.
  rewrite <-sound_task_event, <-sound_touch. apply sound_remove_goal, filter_subset.
Qed.

Lemma new_task_id_fresh s : new_task_id s ∉ ids s.
Proof.
  intros (t & Hid & Ht)%list_elem_of_fmap.
  assert (TaskId.as_i64 (Task.id t) ∈ TaskId.as_i64 ∘ Task.id <$> tasks s) as Hin by (apply list_elem_of_fmap; eauto).
  apply HoldStoreProofs.foldr_max_le in Hin. rewrite <-Hid in Hin. unfold new_task_id in Hin. simpl in Hin. lia.
Qed.
Lemma task_new_draft id n at_ t :
  Task.new id n at_ = Ok t → Task.id t = id ∧ Task.status t = TaskStatus.Draft.
Proof.
  unfold Task.new. intros Hok. res_inv. destruct (base_priority _ _). by res_inv.
Qed.
Lemma insert_task_sound o s new creator r : insert_task o s new creator = Ok r → sound s r.1.
Proof.
  unfold insert_task. intros Hok.
  apply bind_Ok in Hok as (goal & _ & Hok). apply bind_Ok in Hok as (? & _ & Hok).
  apply bind_Ok in Hok as (requested & _ & Hok). apply bind_Ok in Hok as (priorities & _ & Hok).
  apply bind_Ok in Hok as (t & Hnew & Hok). apply task_domain_Ok, task_new_draft in Hnew as [Hid Hst].
  apply bind_Ok in Hok as (s1 & Hs1 & Hok). apply bind_Ok in Hok as (s2 & Hs2 & Hok). res_inv. simpl.
  apply fold_result_keeps with (R := sound) in Hs1; [|apply _|by intros; eapply insert_dependency_sound].
  apply fold_result_keeps with (R := sound) in Hs2; [|apply _|by intros; eapply insert_goal_dependency_sound].
  rewrite <-Hs2, <-Hs1, <-sound_task_event. eapply sound_appended; [reflexivity|..].
  - intros _. simpl. rewrite Hid. apply new_task_id_fresh.
  - simpl. by rewrite Hst.
Qed.

(** *** Changes of a row *)
Lemma change_priority_sound o s task priority by_ s' :
  change_priority o s task priority by_ = Ok s' → sound s s'.
Proof.
  unfold change_priority. intros Hok. res_inv. case_bool_decide; res_inv; [done|].
  rewrite <-sound_task_event. by apply sound_columns.
Qed.
Lemma set_priority_sound o s task priority authorized r :
  set_priority_authorized o s task priority authorized = Ok r → sound s r.1.
Proof. unfold set_priority_authorized. intros Hok. res_inv. by eapply change_priority_sound. Qed.
Lemma set_paths_sound o s task paths authorized r :
  set_paths_authorized o s task paths authorized = Ok r → sound s r.1.
Proof.
  unfold set_paths_authorized. intros Hok. res_inv. simpl. case_bool_decide; [done|].
  rewrite <-sound_task_event. by apply sound_columns.
Qed.
Lemma edit_task_sound o s task edit authorized full r :
  edit_task_authorized o s task edit authorized full = Ok r → sound s r.1.
Proof.
  unfold edit_task_authorized. intros Hok.
  repeat (apply bind_Ok in Hok as (? & _ & Hok)). res_inv. simpl. case_bool_decide; [done|].
  rewrite <-sound_task_event. by apply sound_columns.
Qed.

(** *** The goal a task belongs to *)
Lemma set_goal_in_sound o s task goal by_ r : set_goal_in o s task goal by_ = Ok r → sound s r.1.
Proof.
  unfold set_goal_in. intros Hok.
  apply bind_Ok in Hok as (t & Htask & Hok). apply bind_Ok in Hok as (g & Hgoal & Hok).
  apply bind_Ok in Hok as (t' & Hset & Hok). apply bind_Ok in Hok as (? & Hcheck & Hok).
  apply bind_Ok in Hok as (last & _ & Hok). injection Hok as <-. cbn [fst].
  apply task_domain_Ok, TaskInv.set_goal_inv in Hset as [_ Hset].
  set (s1 := if bool_decide (Task.own_priority t = Task.own_priority t') then s else _).
  set (s2 := match _ with Some dropped => _ | None => s1 end).
  assert (sound s s1 ∧ ∀ a b, waits s1 a b → waits s a b) as [Hs1 Hw1].
  { subst s1. case_bool_decide; [done|]. split; [rewrite <-sound_task_event; by apply sound_columns|].
    intros a b. by apply waits_columns. }
  assert (sound s s2 ∧ ∀ a b, waits s2 a b → waits s a b) as [Hs2 Hw2].
  { subst s2. destruct (if bool_decide _ then _ else None); [|done]. by split; [rewrite <-sound_task_event|]. }
  case_bool_decide as Hfrom; [done|]. rewrite <-sound_task_event, Hs2.
  destruct Hset as [[_ ->]|(_ & own & own_by & _ & _ & _ & Hto & _)]; [done|].
  apply (sound_member _ _ (Task.goal_id t')); [done|]. intros g' Hg'.
  destruct goal as [id|]; res_inv; simpl in Hto; [|congruence].
  match goal with Hg : read_goal s id = Ok ?g0 |- _ => rename g0 into g; rename Hg into Hread end.
  destruct (bool_decide (Task.goal_id t = Some (Goal.id g))) eqn:Hsame; bool_split; [congruence|].
  simpl in Hto. assert (g' = Goal.id g) as -> by congruence.
  apply bind_Ok in Hcheck as (? & _ & Hcheck%task_domain_Ok). unfold Task.check_membership_acyclic in Hcheck.
  res_inv. bool_split. intros Hpath. eapply waits_for_none; [eassumption|].
  revert Hpath. apply rtc_subrel. exact Hw2.
Qed.
Lemma set_goal_sound o s task goal authorized r :
  set_goal_authorized o s task goal authorized = Ok r → sound s r.1.
Proof.
  unfold set_goal_authorized. intros Hok. do 3 (apply bind_Ok in Hok as (? & _ & Hok)).
  by eapply set_goal_in_sound.
Qed.

(** *** The moves of a task *)
Lemma end_with_task_tasks w (q : Queue P) task status at_ :
  Queue.tasks (end_with_task w q task status at_).1 = Queue.tasks q.
Proof.
  unfold end_with_task. destruct (hold_end_of status) as [e|]; [|done]. cbn [fst].
  rewrite (proj2 (HoldStoreProofs.same_discard w _ task e)). by destruct (open_hold_of q task).
Qed.
Lemma status_moves status action unfinished_run status' :
  status_transition status action unfinished_run = Ok status' →
  status ≠ TaskStatus.Completed ∧ status ≠ TaskStatus.Canceled ∧ started status' = false.
Proof. destruct status, action; try destruct unfinished_run; intros [= <-]; done. Qed.
Lemma transition_tasks w (q : Queue P) task action more r :
  HoldStore.apply_transition w q task action more = Ok r →
  ∃ from to change, Queue.tasks r.1 = Queue.tasks (update_tasks q (in_status task from) change)
    ∧ from ≠ TaskStatus.Completed ∧ from ≠ TaskStatus.Canceled ∧ started to = false
    ∧ ∀ t, Task.id (change t) = Task.id t ∧ Task.goal_id (change t) = Task.goal_id t
           ∧ Task.status (change t) = to.
Proof.
  unfold HoldStore.apply_transition. intros Hok. apply bind_Ok in Hok as (? & _ & Hok).
  destruct (_ && _); [done|]. apply bind_Ok in Hok as (t & _ & Hok). destruct (_ && _); [done|].
  apply bind_Ok in Hok as (moved & Hmoved & Hok).
  destruct (Task.transition t action _) as [t'|] eqn:Htr; [|done]. injection Hmoved as <-.
  apply TaskInv.transition_inv in Htr as (status' & Htr & ->).
  apply status_moves in Htr as (Hcompleted & Hcanceled & Hstarted).
  unfold move_task in Hok. destruct (negb _); [done|].
  match type of Hok with context[end_with_task w ?q1 task ?to ?at_] =>
    pose proof (end_with_task_tasks w q1 task to at_) as Htasks;
    destruct (end_with_task w q1 task to at_) as [q2 b2] end.
  apply bind_Ok in Hok as (last & _ & [= <-]).
  exists (Task.status t), status',
    (λ t, t <| Task.status := status' |> <| Task.updated_at := Writer.timestamp w |>).
  split_and!; [|done..]. cbn [fst] in *. destruct (bool_decide (action = TaskAction.BypassReview)); exact Htasks.
Qed.
Lemma apply_transition_sound o s task action cancel r :
  apply_transition o s task action cancel = Ok r → sound s r.1.
Proof.
  unfold apply_transition. intros Hok. apply bind_Ok in Hok as (moved & Hmoved & Hok). res_inv. cbn [fst].
  apply task_store_Ok, transition_tasks in Hmoved as (from & to & change & Htasks & Hcom & Hcan & Hst & Hchange).
  trans (on_queue s (update_tasks (Tables.queue s) (in_status task from) change)); [|by apply sound_same].
  apply sound_update. intros _ t _ Hm. unfold in_status in Hm. bool_split.
  destruct (Hchange t) as (Hid & Hgoal & Hto). unfold moves, stays. rewrite Hid, Hgoal, Hto.
  split_and!; congruence || naive_solver.
Qed.
Lemma transition_sound o s task action authorized r :
  transition_authorized o s task action authorized = Ok r → sound s r.1.
Proof.
  unfold transition_authorized. intros Hok. apply bind_Ok in Hok as (? & _ & Hok).
  by eapply apply_transition_sound.
Qed.
Lemma cancel_sound o s task cancel authorized r :
  cancel_authorized o s task cancel authorized = Ok r → sound s r.1.
Proof.
  unfold cancel_authorized. intros Hok. apply bind_Ok in Hok as (? & _ & Hok). unfold cancel_task in Hok.
  do 2 (apply bind_Ok in Hok as (? & _ & Hok)). by eapply apply_transition_sound.
Qed.

(** The end of a task worked on. *)
Definition ends_work (to : TaskStatus) : bool :=
  bool_decide (to ∈ [TaskStatus.Completed; TaskStatus.Replaced]).
Lemma end_in_progress_sound s w task run to more r :
  ends_work to = true → end_in_progress w (Tables.queue s) task run to more = Ok r →
  sound s (on_queue s r.1).
Proof.
  unfold end_in_progress, move_task. intros Hto Hok. destruct (negb _); [done|].
  match type of Hok with context[end_with_task w ?q1 task to ?at_] =>
    pose proof (end_with_task_tasks w q1 task to at_) as Htasks;
    destruct (end_with_task w q1 task to at_) as [q2 b2] end.
  apply bind_Ok in Hok as (last & _ & [= <-]). cbn [fst] in *.
  etrans; [|apply (sound_same (on_queue s (update_tasks (Tables.queue s) (in_status task TaskStatus.InProgress)
    (λ t, t <| Task.status := to |> <| Task.updated_at := Writer.timestamp w |>)))); [exact Htasks|done..]].
  apply sound_update. intros _ t _ Hm. unfold in_status in Hm. bool_split.
  match goal with Hin : Task.status t = _ |- _ => unfold moves, stays; cbn; rewrite Hin end.
  split_and!; try done. by left.
Qed.
Lemma complete_sound s w task run r :
  complete_task w (Tables.queue s) task run = Ok r → sound s (on_queue s r.1).
Proof. by apply end_in_progress_sound. Qed.
Lemma replace_sound s w task run operation r :
  replace_task w (Tables.queue s) task run operation = Ok r → sound s (on_queue s r.1).
Proof. by apply end_in_progress_sound. Qed.

(** *** Goals *)
Lemma add_goal_sound o s new r : add_goal o s new = Ok r → sound s r.1.
Proof. unfold add_goal. intros Hok. do 4 (apply bind_Ok in Hok as (? & _ & Hok)). injection Hok as <-. by apply sound_same. Qed.
Lemma edit_goal_sound o s goal edit r : edit_goal o s goal edit = Ok r → sound s r.1.
Proof. unfold edit_goal. intros Hok. do 4 (apply bind_Ok in Hok as (? & _ & Hok)). injection Hok as <-. by apply sound_same. Qed.
Lemma ready_goal_sound o s goal r : ready_goal o s goal = Ok r → sound s r.1.
Proof. unfold ready_goal. intros Hok. do 3 (apply bind_Ok in Hok as (? & _ & Hok)). injection Hok as <-. by apply sound_same. Qed.
Lemma close_goal_sound o s goal verdict r : close_goal o s goal verdict = Ok r → sound s r.1.
Proof.
  unfold close_goal. intros Hok. apply bind_Ok in Hok as (s' & Hs' & Hok).
  apply bind_Ok in Hok as (? & _ & [= <-]). cbn [fst]. unfold close_goal_row in Hs'.
  do 2 (apply bind_Ok in Hs' as (? & _ & Hs')). destruct (negb _); [done|]. injection Hs' as <-.
  apply sound_same; case_bool_decide; try done. unfold tasks. cbn.
  rewrite (proj2 (HoldStoreProofs.same_record_all _ _ _)). done.
Qed.

(** *** Claims *)
Lemma of_ready s t : t ∈ ready_tasks s → ∃ row, row ∈ tasks s ∧ t = task_row s row ∧ ready_but_hold s row = true
  ∧ held_open s (Task.id row) = false.
Proof.
  unfold ready_tasks. intros (row & -> & Hin)%list_elem_of_fmap.
  rewrite elem_of_sort_by_key, list_elem_of_In, filter_In, <-list_elem_of_In in Hin.
  destruct Hin as [Hin Hr]. bool_split. eauto.
Qed.
(** A ready task's predecessors are completed. *)
Lemma ready_predecessors s row :
  store_wf s → ready_but_hold s row = true → predecessors_completed s (Task.id row).
Proof.
  unfold ready_but_hold. intros Hwf Hready p Hp. bool_split.
  destruct (wf_dependencies s Hwf _ _ Hp) as [_ (t & Hid & Ht)%list_elem_of_fmap].
  exists t. split_and!; [done..|]. destruct (decide (Task.status t = TaskStatus.Completed)) as [|Hno]; [done|].
  match goal with Hd : existsb _ (Tables.dependencies s) = false |- _ =>
    assert (existsb (λ d, bool_decide (d.1 = Task.id row)
             && existsb (λ p, bool_decide (Task.id p = d.2)
                              && negb (bool_decide (Task.status p = TaskStatus.Completed))) (tasks s))
             (Tables.dependencies s) = true) as Htrue; [|congruence] end.
  apply existsb_exists. exists (Task.id row, p). rewrite <-list_elem_of_In. split; [done|]. simpl.
  rewrite bool_decide_true by done. simpl. apply existsb_exists. exists t. rewrite <-list_elem_of_In.
  split; [done|]. rewrite bool_decide_true, bool_decide_false by done. done.
Qed.
Lemma find_map_find {A B} (f : A → B → bool) (l : list A) (ready : list B) b :
  find_map (λ a, List.find (f a) ready) l = Some b → b ∈ ready.
Proof.
  unfold find_map. induction l as [|a l IH]; [done|]. simpl. destruct (List.find (f a) ready) as [x|] eqn:Hf; [|exact IH].
  intros [= <-]. apply find_some in Hf as [Hin _]. by rewrite list_elem_of_In.
Qed.
Lemma chosen_takeable s c t : chosen s c = Ok (Some t) → t ∈ takeable s c.
Proof.
  unfold chosen. destruct (takeable s c) as [|x l] eqn:Hl; [done|].
  destruct (first_ready _ _) as [y|] eqn:Hfirst.
  - intros [= <-]. eapply find_map_find, Hfirst.
  - intros Hok. apply bind_Ok in Hok as (order & _ & [= Hok]).
    destruct (find_map _ order) as [y|] eqn:Hfind.
    + injection Hok as <-.
      by apply (find_map_find (λ id t, bool_decide (Task.id t = id) && negb (Task.wait_for_build t)) order).
    + apply (find_some (λ t, negb (Task.wait_for_build t)) (x :: l)) in Hok as [Hin _].
      by rewrite list_elem_of_In.
Qed.
Lemma claim_sound o s c r : claim_task o s c = Ok r → sound s r.1.
Proof.
  unfold claim_task. intros Hok. apply bind_Ok in Hok as ([ready|] & Hchosen & Hok); [|by injection Hok as <-].
  apply bind_Ok in Hok as (t & Hclaim & Hok). apply task_domain_Ok, TaskInv.claim_inv in Hclaim as [Hready ->].
  destruct (route_of _ _) as [route|]; [|done]. apply bind_Ok in Hok as (run & _ & Hok).
  unfold move_task in Hok. destruct (negb _); [done|]. apply bind_Ok in Hok as (operations & _ & [= <-]).
  cbn [fst]. rewrite <-sound_task_event.
  apply chosen_takeable in Hchosen. unfold takeable in Hchosen.
  rewrite list_elem_of_In, filter_In, <-list_elem_of_In in Hchosen. destruct Hchosen as [Hin _].
  destruct (of_ready s ready Hin) as (row & Hrow & -> & Hcond & _). rewrite task_row_id.
  trans (on_queue s (update_tasks (Tables.queue s) (in_status (Task.id row) TaskStatus.Ready)
    (λ t, t <| Task.status := TaskStatus.InProgress |> <| Task.updated_at := now o |>))).
  - apply sound_update. intros Hwf t Ht Hm. unfold in_status in Hm. bool_split.
    assert (t = row) as -> by (by apply (task_of_id s)).
    match goal with Hst : Task.status row = _ |- _ => unfold moves, stays; cbn; rewrite Hst end.
    split_and!; try done. intros _. right. by apply ready_predecessors.
  - destruct (WorkerRoute.switch route); case_bool_decide; by apply sound_same.
Qed.

(** ** Sequences of transactions *)
Inductive store_step : relation (Tables.t P) :=
  | AddStep o s new r : add o s new = Ok r → store_step s r.1
  | DependencyStep o s task p authorized s' :
      add_dependency_authorized o s task p authorized = Ok s' → store_step s s'
  | UndependencyStep o s task p authorized s' :
      remove_dependency_authorized o s task p authorized = Ok s' → store_step s s'
  | GoalDependencyStep o s task goal authorized s' :
      add_goal_dependency_authorized o s task goal authorized = Ok s' → store_step s s'
  | GoalUndependencyStep o s task goal authorized s' :
      remove_goal_dependency_authorized o s task goal authorized = Ok s' → store_step s s'
  | TransitionStep o s task action authorized r :
      transition_authorized o s task action authorized = Ok r → store_step s r.1
  | CancelStep o s task cancel authorized r :
      cancel_authorized o s task cancel authorized = Ok r → store_step s r.1
  | PriorityStep o s task priority authorized r :
      set_priority_authorized o s task priority authorized = Ok r → store_step s r.1
  | PathsStep o s task paths authorized r :
      set_paths_authorized o s task paths authorized = Ok r → store_step s r.1
  | EditStep o s task edit authorized full r :
      edit_task_authorized o s task edit authorized full = Ok r → store_step s r.1
  | SetGoalStep o s task goal authorized r :
      set_goal_authorized o s task goal authorized = Ok r → store_step s r.1
  | AddGoalStep o s new r : add_goal o s new = Ok r → store_step s r.1
  | EditGoalStep o s goal edit r : edit_goal o s goal edit = Ok r → store_step s r.1
  | ReadyGoalStep o s goal r : ready_goal o s goal = Ok r → store_step s r.1
  | CloseGoalStep o s goal verdict r : close_goal o s goal verdict = Ok r → store_step s r.1
  | ClaimStep o s c r : claim_task o s c = Ok r → store_step s r.1
  | CompleteStep w s task run r :
      complete_task w (Tables.queue s) task run = Ok r → store_step s (on_queue s r.1)
  | ReplaceStep w s task run operation r :
      replace_task w (Tables.queue s) task run operation = Ok r → store_step s (on_queue s r.1)
  (** What the transactions of runs, holds, goals' reopens and the log write of
      other tables. *)
  | ElsewhereStep s q goals :
      Queue.tasks q = tasks s →
      store_step s (on_queue s q <| Tables.goals := goals |>).

Lemma step_sound s s' : store_step s s' → sound s s'.
Proof.
  destruct 1; [by eapply insert_task_sound|by eapply add_dependency_sound|by eapply remove_dependency_sound
    |by eapply add_goal_dependency_sound|by eapply remove_goal_dependency_sound|by eapply transition_sound
    |by eapply cancel_sound|by eapply set_priority_sound|by eapply set_paths_sound|by eapply edit_task_sound
    |by eapply set_goal_sound|by eapply add_goal_sound|by eapply edit_goal_sound|by eapply ready_goal_sound
    |by eapply close_goal_sound|by eapply claim_sound|by eapply complete_sound|by eapply replace_sound
    |by apply sound_same].
Qed.
Lemma steps_sound s s' : rtc store_step s s' → sound s s'.
Proof. induction 1 as [|s1 s2 s3 Hstep _ IH]; [done|]. by rewrite (step_sound _ _ Hstep), IH. Qed.






(** ** The graph a claim reads *)
Lemma traverse_in {E A B} (f : A → result E B) l bs b :
  traverse f l = Ok bs → b ∈ bs → ∃ a, a ∈ l ∧ f a = Ok b.
Proof.
  revert bs. induction l as [|a l IH]; intros bs; simpl; [by intros [= <-] ?%elem_of_nil|].
  intros (b0 & Hb0 & (bs0 & Hbs0 & [= <-])%bind_Ok)%bind_Ok [->|Hin]%elem_of_cons; [exists a; by split; [left|]|].
  destruct (IH bs0 Hbs0 Hin) as (a' & Ha' & Hf). exists a'. by split; [right|].
Qed.
(** Each task of the graph is the row of an unfinished task with what it waits
    for. *)
Lemma graph_rows s input gt :
  read_graph_input s = Ok input → gt ∈ GraphInput.tasks input →
  ∃ row, row ∈ tasks s ∧ unfinished (Task.status row) = true ∧ GraphTask.id gt = Task.id row
    ∧ GraphTask.goal_id gt = Task.goal_id row
    ∧ (∀ p, p ∈ GraphTask.depends_on gt → (Task.id row, p) ∈ Tables.dependencies s)
    ∧ (∀ d, d ∈ GraphTask.goal_dependencies gt →
         (Task.id row, GraphGoalDependency.goal_id d) ∈ Tables.goal_dependencies s).
Proof.
  unfold read_graph_input. intros (gts & Hgts & [= <-])%bind_Ok Hin. simpl in Hin.
  destruct (traverse_in _ _ _ _ Hgts Hin) as (t & Ht & Hgt).
  apply list_elem_of_fmap in Ht as (row & -> & Hrow). rewrite elem_of_sort_by_key in Hrow.
  rewrite list_elem_of_In, filter_In, <-list_elem_of_In in Hrow. destruct Hrow as [Hrow Hu].
  exists row. unfold graph_task in Hgt. apply bind_Ok in Hgt as (gs & _ & [= <-]). simpl.
  rewrite task_row_id, task_row_goal. split_and!; try done.
  - intros p. unfold predecessors. rewrite elem_of_sort_by_key, list_elem_of_fmap.
    intros ([a b] & -> & Hd). rewrite list_elem_of_In, filter_In, <-list_elem_of_In in Hd.
    destruct Hd as [Hd Heq]. bool_split. simpl in *. by subst.
  - intros d. rewrite list_elem_of_fmap. intros (g & -> & Hg). simpl. unfold goals_depended in Hg.
    rewrite elem_of_sort_by_key, list_elem_of_omap in Hg. destruct Hg as ([a b] & Hd & Hfind). simpl in *.
    case_bool_decide; [|done]. subst. apply find_some in Hfind as [_ Hid]. bool_split. by subst.
Qed.
(** What frees in the graph is waited for in the tables. *)
Lemma frees_waits s input a b :
  read_graph_input s = Ok input → ClaimGraphProofs.frees input a b →
  tc (waits s) (Node.Task b) (Node.Task a).
Proof.
  intros Hread (gt & Hgt & <- & Ha)%ClaimGraphProofs.frees_spec.
  destruct (graph_rows _ _ _ Hread Hgt) as (row & Hrow & Hu & Hid & _ & Hdeps & Hgoals). rewrite Hid.
  unfold waited_by in Ha. apply elem_of_app in Ha as [Ha|Ha].
  - rewrite list_elem_of_In, filter_In, <-list_elem_of_In in Ha. destruct Ha as [Ha _].
    apply tc_once, waits_task. left. eauto.
  - rewrite list_elem_of_In, in_flat_map in Ha. destruct Ha as (d & Hd & Ha).
    rewrite filter_In, <-list_elem_of_In in Hd. destruct Hd as [Hd _]. rewrite <-list_elem_of_In in Ha.
    unfold members in Ha. apply list_elem_of_fmap in Ha as (m & -> & Hm).
    rewrite list_elem_of_In, filter_In, <-list_elem_of_In in Hm. destruct Hm as [Hm Hg]. bool_split.
    destruct (graph_rows _ _ _ Hread Hm) as (row' & Hrow' & Hu' & -> & Hgoal & _).
    eapply tc_l; [apply waits_task; right; left; eexists; split; [reflexivity|by apply Hgoals]|].
    apply tc_once, waits_goal. exists row'. split_and!; [done..|congruence|].
    intros Hcan. by rewrite Hcan in Hu'.
Qed.
Lemma read_graph_acyclic s input :
  acyclic (waits s) → read_graph_input s = Ok input → ∀ id, ¬ tc (ClaimGraphProofs.frees input) id id.
Proof.
  intros Hacyclic Hread id Hid. apply (Hacyclic (Node.Task id)).
  assert (∀ x y, tc (ClaimGraphProofs.frees input) x y → tc (waits s) (Node.Task y) (Node.Task x)) as Hall; [|by apply Hall].
  induction 1 as [x y Hxy|x y z Hxy _ IH]; [by eapply frees_waits|].
  eapply tc_transitive; [exact IH|by eapply frees_waits].
Qed.
(** C5: The view of the graph the store reads ends, with its critical chain, in
    every state its transactions lead to, for every goal or none. *)
Theorem graph_of_store_ends s s' input goal :
  store_wf s → rtc store_step s s' → read_graph_input s' = Ok input →
  ∃ graph, dependency_graph input goal = Some graph
    ∧ DependencyGraph.candidates graph = ordered_candidates input goal
    ∧ Forall (λ id, ∃ t, t ∈ tasks s' ∧ Task.id t = id ∧ unfinished (Task.status t) = true)
        (DependencyGraph.critical graph).
Proof.
  intros Hwf Hsteps Hread.
  pose proof (read_graph_acyclic s' input (wf_acyclic _ (steps_sound _ _ Hsteps Hwf)) Hread) as Hacyclic.
  destruct (ClaimGraphProofs.critical_found input goal Hacyclic) as (path & Hpath & _).
  unfold dependency_graph. rewrite Hpath. eexists. split; [reflexivity|]. split; [done|]. simpl.
  eapply Forall_impl; [by eapply ClaimGraphProofs.critical_open|]. simpl.
  intros id (gt & Hgt & <-)%ClaimGraphProofs.elem_of_task_ids.
  destruct (graph_rows _ _ _ Hread Hgt) as (row & Hrow & Hu & Hid & _). by exists row.
Qed.

(** ** What a claim takes *)
Lemma order_candidates s order id :
  claim_order s = Ok order → id ∈ order ↔ ∃ t, t ∈ ready_tasks s ∧ Task.id t = id.
Proof.
  unfold claim_order. intros (input & Hread & [= <-])%bind_Ok. unfold ordered_candidates.
  rewrite elem_of_sort_by_key, list_elem_of_In, filter_In, <-list_elem_of_In. simpl.
  unfold read_graph_input in Hread. apply bind_Ok in Hread as (gts & _ & [= <-]). simpl.
  rewrite list_elem_of_fmap. naive_solver.
Qed.
(** The first of a list of ids that names a task of [ready] that [f] takes. *)
Definition first_of (f : Task → bool) (ready : list Task) (ids : list TaskId) t : Prop :=
  t ∈ ready ∧ f t = true ∧ ∃ before after, ids = before ++ Task.id t :: after
    ∧ ∀ x, x ∈ ready → f x = true → Task.id x ∉ before.
Lemma find_map_first (f : Task → bool) ready ids t :
  find_map (λ id, List.find (λ t, bool_decide (Task.id t = id) && f t) ready) ids = Some t →
  first_of f ready ids t.
Proof.
  unfold find_map. induction ids as [|id ids IH]; [done|]. simpl.
  destruct (List.find _ ready) as [x|] eqn:Hf.
  - intros [= <-]. apply find_some in Hf as [Hin Hx]. bool_split. rewrite <-list_elem_of_In in Hin.
    split_and!; [done..|]. exists [], ids. split; [by subst|]. by intros y _ _ ?%elem_of_nil.
  - intros Hfirst. destruct (IH Hfirst) as (Hin & Ht & before & after & -> & Hbefore). split_and!; [done..|].
    exists (id :: before), after. split; [done|]. intros y Hy Hfy [<-|Hb]%elem_of_cons; [|by eapply Hbefore].
    assert (bool_decide (Task.id y = Task.id y) && f y = false) as Hno
      by (apply (find_none _ _ Hf y); by apply list_elem_of_In).
    by rewrite bool_decide_true, Hfy in Hno.
Qed.
Lemma find_map_none (f : Task → bool) ready ids t :
  find_map (λ id, List.find (λ t, bool_decide (Task.id t = id) && f t) ready) ids = None →
  t ∈ ready → f t = true → Task.id t ∉ ids.
Proof.
  unfold find_map. induction ids as [|id ids IH]; [by intros _ _ _ ?%elem_of_nil|]. simpl.
  destruct (List.find _ ready) as [x|] eqn:Hf; [done|]. intros Hnone Ht Hft [<-|Hin]%elem_of_cons; [|by apply IH].
  assert (bool_decide (Task.id t = Task.id t) && f t = false) as Hno
    by (apply (find_none _ _ Hf t); by apply list_elem_of_In).
  by rewrite bool_decide_true, Hft in Hno.
Qed.
Lemma find_ext {A} (f g : A → bool) l : (∀ a, f a = g a) → List.find f l = List.find g l.
Proof. intros Hfg. induction l as [|a l IH]; [done|]. simpl. by rewrite Hfg, IH. Qed.
Lemma first_ready_find ready ids :
  first_ready ready ids
  = find_map (λ id, List.find (λ t, bool_decide (Task.id t = id) && true) ready) ids.
Proof.
  unfold first_ready, find_map. f_equal. apply list_omap_ext, Forall2_same_length_lookup_2; [done|].
  intros i x y Hx Hy. simplify_eq. apply find_ext. intros t. by rewrite andb_true_r.
Qed.
(** Which task is chosen. *)
Lemma chosen_spec s c chosen_ :
  chosen s c = Ok chosen_ →
  match chosen_ with
  | None => ∀ t, t ∈ takeable s c → Task.wait_for_build t = true ∧ Task.id t ∉ Claim.order c
  | Some t =>
      first_of (λ _, true) (takeable s c) (Claim.order c) t
      ∨ (∀ x, x ∈ takeable s c → Task.id x ∉ Claim.order c)
        ∧ ∃ order, claim_order s = Ok order
            ∧ first_of (λ t, negb (Task.wait_for_build t)) (takeable s c) order t
  end.
Proof.
  unfold chosen. destruct (takeable s c) as [|x0 l] eqn:Hl; [by intros [= <-] t ?%elem_of_nil|].
  set (ready := x0 :: l) in *. rewrite first_ready_find.
  destruct (find_map _ (Claim.order c)) as [t|] eqn:Hfirst.
  { intros [= <-]. left. by apply find_map_first in Hfirst. }
  intros (order & Horder & [= <-])%bind_Ok.
  assert (∀ x, x ∈ ready → Task.id x ∉ Claim.order c) as Hno
    by (intros x Hx; exact (find_map_none (λ _, true) ready _ x Hfirst Hx eq_refl)).
  destruct (find_map _ order) as [t|] eqn:Hfind.
  { right. split; [done|]. exists order. split; [done|]. by apply find_map_first. }
  assert (∀ x, x ∈ ready → Task.wait_for_build x = true) as Hwait.
  { intros x Hx. destruct (Task.wait_for_build x) eqn:Hb; [done|]. exfalso.
    apply (find_map_none (λ t, negb (Task.wait_for_build t)) ready order x Hfind Hx); [by rewrite Hb|].
    apply (order_candidates s); [done|]. exists x. split; [|done].
    subst ready. rewrite <-Hl in Hx. unfold takeable in Hx.
    rewrite list_elem_of_In, filter_In, <-list_elem_of_In in Hx. apply Hx. }
  assert (List.find (λ t, negb (Task.wait_for_build t)) ready = None) as Hlast.
  { destruct (List.find _ ready) as [t|] eqn:Hlast; [|done]. apply find_some in Hlast as [Hin Hb].
    rewrite Hwait in Hb by (by apply list_elem_of_In). done. }
  unfold ready in Hlast. simpl in Hlast. rewrite Hlast. auto.
Qed.

(** C4: A claim takes the first task of the supervisor's order that is ready,
    has a route and is held by no limit; with none of those, the first of the
    claim order, by its rank, that does not wait for a build; it makes the run
    it was given for that task, moves only that task, to in_progress, and takes
    nothing when each task it could take waits for a build it did not name. *)
Theorem claim_takes_first o s c s' outcome :
  store_wf s → claim_task o s c = Ok (s', outcome) →
  match outcome with
  | ClaimOutcome.NoReadyTask =>
      s' = s ∧ ∀ t, t ∈ takeable s c → Task.wait_for_build t = true ∧ Task.id t ∉ Claim.order c
  | ClaimOutcome.Claimed run =>
      ∃ t, (first_of (λ _, true) (takeable s c) (Claim.order c) t
            ∨ (∀ x, x ∈ takeable s c → Task.id x ∉ Claim.order c)
              ∧ ∃ order, claim_order s = Ok order
                  ∧ first_of (λ t, negb (Task.wait_for_build t)) (takeable s c) order t)
        ∧ TaskRun.id run = Claim.run c ∧ TaskRun.task_id run = Task.id t
        ∧ TaskRun.status run = RunStatus.Claimed
        ∧ Queue.runs (Tables.queue s') = Queue.runs (Tables.queue s) ++ [StoredRun.mk run None]
        ∧ tasks s' = (λ row, if is_task (Task.id t) row
                             then row <| Task.status := TaskStatus.InProgress |> <| Task.updated_at := now o |>
                             else row) <$> tasks s
  end.
Proof.
  intros Hwf. unfold claim_task. intros (found & Hchosen & Hok)%bind_Ok.
  pose proof (chosen_spec s c found Hchosen) as Hspec.
  destruct found as [t|]; [|by injection Hok as <- <-].
  apply bind_Ok in Hok as (t' & Hclaim & Hok). apply task_domain_Ok, TaskInv.claim_inv in Hclaim as [Hready ->].
  destruct (route_of _ _) as [route|]; [|done]. apply bind_Ok in Hok as (run & Hrun & Hok).
  apply task_domain_Ok in Hrun. unfold TaskRun.new in Hrun. res_inv. bool_split.
  unfold move_task in Hok. destruct (negb _); [done|]. apply bind_Ok in Hok as (operations & _ & [= <- <-]).
  exists t. split; [exact Hspec|]. split_and!; [done..| |].
  - destruct (WorkerRoute.switch route); case_bool_decide; done.
  - transitivity (Queue.tasks (update_tasks (Tables.queue s) (in_status (Task.id t) TaskStatus.Ready)
      (λ t, t <| Task.status := TaskStatus.InProgress |> <| Task.updated_at := now o |>))).
    { destruct (WorkerRoute.switch route); case_bool_decide; done. }
    simpl. apply list_fmap_ext. intros i row Hrow%list_elem_of_lookup_2. unfold in_status, is_task.
    destruct (bool_decide (Task.id row = Task.id t)) eqn:Hid; [|done]. bool_split. simpl.
    assert (t ∈ ready_tasks s) as Hin.
    { assert (t ∈ takeable s c) as Ht by (destruct Hspec as [[? _]|(_ & ? & _ & [? _])]; done).
      unfold takeable in Ht. rewrite list_elem_of_In, filter_In, <-list_elem_of_In in Ht. apply Ht. }
    destruct (of_ready s t Hin) as (row' & Hrow' & -> & _). rewrite task_row_id in Hid.
    assert (row = row') as -> by (by apply (task_of_id s)). rewrite task_row_status in Hready.
    by rewrite bool_decide_true.
Qed.
End proofs.
End TaskStoreProofs.

(** * Two tasks, one after the other, from an empty queue *)
Module TaskStoreSample.
Import TaskStoreProofs.
Abbreviation Queued := (Tables.t EventPayload.t).

Definition empty : Queued := Tables.mk (Queue.mk [] [] [] [] [] [] []) [] [] [] [].
Definition outside : Outside EventPayload.t :=
  Outside.mk (HoldTableSample.sample_writer 100) ActorRole.User Creator.Person (λ _, Ok None)
    (λ _, None) (λ _ _ _, Ok tt) (λ _, []) (λ _, []) (λ _, []) (λ _, []) (λ _, [])
    (λ _, EventPayload.Null) (λ _, EventPayload.Null) (λ _, EventPayload.Null) (λ _, EventPayload.Null).
Definition new_task (title : string) (dependencies : list TaskId) (goal_dependencies : list GoalId)
    (goal : option GoalId) : NewTask :=
  NewTask.mk title "" "" ["cargo test"] dependencies goal_dependencies goal "" [] ["src/**"] None None
    None None false ExecutionClass.Implementation.
Definition reached {A} (r : result TaskError (Queued * A)) : Queued :=
  match r with Ok (s, _) => s | Err _ => empty end.
Definition reached_queue {A} (s : Queued) (r : result StoreError (Queue EventPayload.t * A)) : Queued :=
  match r with Ok (q, _) => on_queue s q | Err _ => empty end.
Definition claim (run : string) : Claim EventPayload.t :=
  Claim.mk (RunId.wrap run) sample_commit 100 [] [] (WorkerRoute.direct [Worker.DEFAULT])
    Task.worker (λ _, false) Replan.sample_reads (λ _ _, []).

Definition new_goal : NewGoal := NewGoal.mk "receipts" "" "" "" None false None [].
Definition with_goal : Queued := Eval vm_compute in
  reached (add_goal outside empty new_goal).
Definition with_first : Queued := Eval vm_compute in
  reached (add outside with_goal (new_task "parse" [] [] (Some (GoalId.new 1)))).
Definition with_second : Queued := Eval vm_compute in
  reached (add outside with_first (new_task "print" [TaskId.new 1] [] None)).
Definition first_ready : Queued := Eval vm_compute in
  reached (transition_authorized outside with_second (TaskId.new 1) TaskAction.BypassReview None).
Definition both_ready : Queued := Eval vm_compute in
  reached (transition_authorized outside first_ready (TaskId.new 2) TaskAction.BypassReview None).
Definition first_claimed : Queued := Eval vm_compute in reached (claim_task outside both_ready (claim "r1")).

Definition first_completed : Queued := Eval vm_compute in
  reached_queue first_claimed
    (complete_task (Outside.writer outside) (Tables.queue first_claimed) (TaskId.new 1) (RunId.wrap "r1")).
Definition second_claimed : Queued := Eval vm_compute in
  reached (claim_task outside first_completed (claim "r2")).

Lemma statuses :
  Task.status <$> tasks first_claimed = [TaskStatus.InProgress; TaskStatus.Ready]
  ∧ Task.status <$> tasks second_claimed = [TaskStatus.Completed; TaskStatus.InProgress].
Proof. by vm_compute. Qed.
Lemma empty_wf : store_wf empty.
Proof.
  split; [constructor|by intros task p ?%elem_of_nil|by intros task goal ?%elem_of_nil
    |by intros task r ?%elem_of_nil| |by intros t ?%elem_of_nil].
  intros node Hnode. assert (∃ b, waits empty node b) as [b Hb] by (inversion Hnode; subst; by eexists).
  by destruct node as [task|goal]; apply elem_of_nil in Hb.
Qed.
Lemma steps_ready : rtc store_step empty both_ready.
Proof.
  eapply rtc_l; [refine (AddGoalStep outside empty new_goal (with_goal, _) _); vm_compute; reflexivity|].
  eapply rtc_l; [refine (AddStep outside with_goal (new_task "parse" [] [] (Some (GoalId.new 1))) (with_first, _) _);
    vm_compute; reflexivity|].
  eapply rtc_l; [refine (AddStep outside with_first (new_task "print" [TaskId.new 1] [] None) (with_second, _) _);
    vm_compute; reflexivity|].
  eapply rtc_l; [refine (TransitionStep outside with_second (TaskId.new 1) TaskAction.BypassReview None (first_ready, _) _);
    vm_compute; reflexivity|].
  apply rtc_once.
  refine (TransitionStep outside first_ready (TaskId.new 2) TaskAction.BypassReview None (both_ready, _) _).
  vm_compute. reflexivity.
Qed.

(** The first task of the two holds the second back. *)
Lemma graph_of_store_ends_witness :
  ∃ input graph, read_graph_input both_ready = Ok input
    ∧ dependency_graph input None = Some graph
    ∧ DependencyGraph.critical graph = [TaskId.new 1; TaskId.new 2].
Proof.
  destruct (read_graph_input both_ready) as [input|] eqn:Hread; [|vm_compute in Hread; discriminate Hread].
  destruct (graph_of_store_ends empty both_ready input None empty_wf steps_ready Hread) as (graph & Hgraph & _).
  exists input, graph. split_and!; [done..|]. vm_compute in Hread. injection Hread as <-.
  vm_compute in Hgraph. injection Hgraph as <-. reflexivity.
Defined.
Lemma claim_takes_first_witness :
  ∃ run t, claim_task outside both_ready (claim "r1") = Ok (first_claimed, ClaimOutcome.Claimed run)
    ∧ t ∈ takeable both_ready (claim "r1") ∧ TaskRun.task_id run = Task.id t.
Proof.
  destruct (claim_task outside both_ready (claim "r1")) as [[s' [|run]]|] eqn:Hok;
    [vm_compute in Hok; discriminate Hok| |vm_compute in Hok; discriminate Hok].
  assert (store_wf both_ready) as Hwf by exact (steps_sound _ _ steps_ready empty_wf).
  pose proof (claim_takes_first outside both_ready (claim "r1") s' (ClaimOutcome.Claimed run) Hwf Hok)
    as (t & Hfirst & _ & Hid & _).
  exists run, t. split_and!; [|destruct Hfirst as [[? _]|(_ & ? & _ & [? _])]; done|done].
  vm_compute in Hok. injection Hok as <- <-. reflexivity.
Defined.

(** The check of a duplicate looks at its target only when it is recorded: a
    task canceled as a duplicate of one that is then canceled as a duplicate of
    a third leaves a chain of records. *)
Definition three_drafts : Queued := Eval vm_compute in
  reached (add outside with_second (new_task "again" [] [] None)).
Definition first_duplicate : Queued := Eval vm_compute in
  reached (cancel_task outside three_drafts (TaskId.new 1) (NewCancel.by_hand None (Some (TaskId.new 2)) None)).
Definition second_duplicate : Queued := Eval vm_compute in
  reached (cancel_task outside first_duplicate (TaskId.new 2) (NewCancel.by_hand None (Some (TaskId.new 3)) None)).
Lemma duplicates_chain :
  is_ok (cancel_task outside first_duplicate (TaskId.new 2) (NewCancel.by_hand None (Some (TaskId.new 3)) None)) = true
  ∧ duplicate_target second_duplicate (TaskId.new 1) = Some (TaskId.new 2)
  ∧ duplicate_target second_duplicate (TaskId.new 2) = Some (TaskId.new 3).
Proof. by vm_compute. Qed.
End TaskStoreSample.
