(* ===== verification/Turns.v ===== *)
(** * The turns of a headless session

    What the supervisor and the wrapper of a headless session tell each other
    through files, from [src/src/domain/turn.rs] with the writer of
    [src/src/application/supervise/execution/headless.rs] and the taker of
    [src/src/application/headless_session.rs].

    The supervisor writes each request as the file of the next number in the
    session's [turns/]; the wrapper renames the one it takes; a later session
    renames those left.  A directory is a map from names to what the file's JSON
    reads as, [None] for a file that is no request.  A writer holds the
    directory's lock while it lists and writes, so a write is one step, or stops
    after its temporary file ([torn_write]).  After them the questions the events
    of a session answer: whether a turn is awaited, and what becomes of a call
    that met the provider's wall. *)
From S2P Require Import Prelude Text Vocab Ids Errors Labels Scope Workers Priorities Inputs Tasks Runs ClaimOrder EventKinds Events Actors Asks ProviderSwitches.

(** [HEADLESS_NUDGES] and [PERMISSION_DENIAL_LIMIT]. *)
Definition HEADLESS_NUDGES : nat := 2.
Definition PERMISSION_DENIAL_LIMIT : nat := 3.
Definition EXIT_FILE : string := "exit".
Definition LIMITS_FILE : string := "limits.json".

Definition failure_at_wall (failure : TurnFailure) : bool :=
  match failure with
  | TurnFailure.Authentication | TurnFailure.UsageLimit | TurnFailure.Launch => true
  | _ => false
  end.
Definition turn_goes_on (outcome : TurnOutcome) (failure : option TurnFailure) : bool :=
  match outcome with
  | TurnOutcome.Succeeded => true
  | TurnOutcome.Failed => is_some_and failure failure_at_wall
  | _ => false
  end.

(** ** The names of the request files *)
Definition u64_max : N := 18446744073709551615.
(** [str::parse] of a [u64]. *)
Definition parse_u64 (s : string) : option N :=
  Z.to_N <$> (n ← read_number (unsigned_text s); in_range 0 (Z.of_N u64_max) n).
(** [{seq:06}]. *)
Definition zeros (n : nat) : string := Nat.iter n (String (Ascii.ascii_of_nat 48)) EmptyString.
Definition six_digits (seq : N) : string :=
  let digits := decimal (Z.of_N seq) in zeros (6 - String.length digits) +:+ digits.

Module RequestState.
Inductive t : Set := Pending | Taken | Dropped.
#[global] Instance eq_dec : EqDecision t.
Proof. solve_decision. Defined.
End RequestState.
Abbreviation RequestState := RequestState.t.

(** [request_path] and [taken_path], and the name [with_extension] gives a
    dropped one. *)
Definition request_file (state : RequestState) (seq : N) : string :=
  "request-" +:+ (six_digits seq +:+
    match state with
    | RequestState.Pending => ".json"
    | RequestState.Taken => ".taken.json"
    | RequestState.Dropped => ".dropped"
    end).
(** The name the request is written under before its rename. *)
Definition request_tmp (seq : N) : string := request_file RequestState.Pending seq +:+ ".tmp".

Definition request_seq (name : string) : option (N * bool) :=
  rest ← strip_prefix "request-" name;
  match match strip_suffix ".taken.json" rest with
        | Some seq => Some seq
        | None => strip_suffix ".dropped" rest
        end with
  | Some seq => seq ← parse_u64 seq; Some (seq, true)
  | None => seq ← strip_suffix ".json" rest; seq ← parse_u64 seq; Some (seq, false)
  end.
Definition request_state (name : string) : option (N * RequestState) :=
  rest ← strip_prefix "request-" name;
  match strip_suffix ".taken.json" rest with
  | Some seq => seq ← parse_u64 seq; Some (seq, RequestState.Taken)
  | None =>
      match strip_suffix ".dropped" rest with
      | Some seq => seq ← parse_u64 seq; Some (seq, RequestState.Dropped)
      | None => seq ← strip_suffix ".json" rest; seq ← parse_u64 seq; Some (seq, RequestState.Pending)
      end
  end.
(** The [u64] wraps where overflow is not checked. *)
Definition next_seq (names : list string) : N :=
  ((foldr N.max 0 (fst <$> omap request_seq names) + 1) mod (u64_max + 1))%N.
Definition pending (names : list string) : list N :=
  sort_by_key (λ seq, [Z.of_N seq])
    (fst <$> List.filter (λ request, negb request.2) (omap request_seq names)).

Definition answer_what (ask : AskId) : string := "answer of ask " +:+ decimal (AskId.as_i64 ask).
Definition answered_ask (what : string) : option N :=
  ask ← strip_prefix "answer of ask " what; parse_u64 ask.

(** ** Requests *)
Module TurnRequest.
Record t : Set := mk { seq : N; what : string; prompt : string }.
#[global] Instance eq_dec : EqDecision t.
Proof. solve_decision. Defined.
End TurnRequest.
Abbreviation TurnRequest := TurnRequest.t.
Module ListedRequest.
Record t : Set := mk { state : RequestState; request : TurnRequest }.
Definition undropped (self : t) : bool := negb (bool_decide (state self = RequestState.Dropped)).
End ListedRequest.
Abbreviation ListedRequest := ListedRequest.t.
Module AdoptedDelivery.
Inductive t : Set := Delivered (seq : N) | Write.
End AdoptedDelivery.
Abbreviation AdoptedDelivery := AdoptedDelivery.t.

Definition request_to_take (pending : list (N * string)) (after_wall : bool) : option N :=
  fst <$> List.find (λ request, negb after_wall || bool_decide (request.2 = PROVIDER_RETRY)) pending.
Definition answers_not_started (listed : list ListedRequest) (started : list N) : list (N * N * string) :=
  sort_by_key (λ answer, [Z.of_N answer.1.1])
    (omap (λ l,
       let r := ListedRequest.request l in
       if ListedRequest.undropped l && negb (bool_decide (TurnRequest.seq r ∈ started))
       then (λ ask, (TurnRequest.seq r, ask, TurnRequest.prompt r)) <$> answered_ask (TurnRequest.what r)
       else None) listed).
Definition adopted_delivery (requests : list ListedRequest) (what : string) (texts : list string)
    (after : option N) : AdoptedDelivery :=
  match List.find (λ l,
          let r := ListedRequest.request l in
          ListedRequest.undropped l && is_none_or after (λ after, (after <? TurnRequest.seq r)%N)
          && bool_decide (TurnRequest.what r = what) && bool_decide (TurnRequest.prompt r ∈ texts)) requests with
  | Some l => AdoptedDelivery.Delivered (TurnRequest.seq (ListedRequest.request l))
  | None => AdoptedDelivery.Write
  end.
Definition requested_seq (requests : list ListedRequest) (what : string) : option N :=
  (λ l, TurnRequest.seq (ListedRequest.request l)) <$>
    List.find (λ l, ListedRequest.undropped l
                    && bool_decide (TurnRequest.what (ListedRequest.request l) = what)) requests.

(** ** The directory *)
Abbreviation Turns := (gmap string (option TurnRequest)).
Definition names (dir : Turns) : list string := (map_to_list dir).*1.
(** [rename], of a file that is there. *)
Definition rename (dir : Turns) (from to : string) : option Turns :=
  content ← dir !! from; Some (<[to := content]> (delete from dir)).

Definition new_request (dir : Turns) (text what : string) : TurnRequest :=
  TurnRequest.mk (next_seq (names dir)) what text.
Definition torn_write (dir : Turns) (text what : string) : Turns :=
  let request := new_request dir text what in
  <[request_tmp (TurnRequest.seq request) := Some request]> dir.
Definition write_request (dir : Turns) (text what : string) : option (N * Turns) :=
  let seq := TurnRequest.seq (new_request dir text what) in
  dir ← rename (torn_write dir text what) (request_tmp seq) (request_file RequestState.Pending seq);
  Some (seq, dir).
Definition request_exit (dir : Turns) : Turns := <[EXIT_FILE := None]> dir.

Module Waiting.
Inductive t : Set := None | Left | Taken (request : TurnRequest).
End Waiting.
Abbreviation Waiting := Waiting.t.
(** The requests the loop reads: the first alone unless the wall is looked
    past. *)
Definition read_pending (dir : Turns) (seqs : list N) : option (list TurnRequest) :=
  mapM (λ seq, mjoin (dir !! request_file RequestState.Pending seq)) seqs.
Definition take_waiting (dir : Turns) (after_wall : bool) (may_take : TurnRequest → bool) :
    option (Waiting * Turns) :=
  let seqs := pending (names dir) in
  waiting ← read_pending dir (if after_wall then seqs else firstn 1 seqs);
  let next := request_to_take ((λ r, (TurnRequest.seq r, TurnRequest.what r)) <$> waiting) after_wall in
  match (seq ← next; List.find (λ r, bool_decide (TurnRequest.seq r = seq)) waiting) with
  | None => Some (Waiting.None, dir)
  | Some request =>
      if may_take request then
        dir ← rename dir (request_file RequestState.Pending (TurnRequest.seq request))
                (request_file RequestState.Taken (TurnRequest.seq request));
        Some (Waiting.Taken request, dir)
      else Some (Waiting.Left, dir)
  end.
(** [prepare_turns]: the limits are written, what is left is dropped, the exit
    request removed. *)
Definition drop_request (dir : option Turns) (seq : N) : option Turns :=
  dir ← dir;
  rename dir (request_file RequestState.Pending seq) (request_file RequestState.Dropped seq).
Definition prepare_turns (dir : Turns) : option Turns :=
  let dir := <[LIMITS_FILE := None]> dir in
  delete EXIT_FILE <$> foldl drop_request (Some dir) (pending (names dir)).
Definition listed_requests (dir : Turns) : list ListedRequest :=
  omap (λ entry : string * option TurnRequest,
    state ← request_state entry.1;
    request ← entry.2;
    Some (ListedRequest.mk state.2 request)) (map_to_list dir).

(** ** What the idle marker says *)
Module TurnMark.
Record t : Set := mk {
  turn : N;
  outcome : TurnOutcome;
  failure : option TurnFailure;
  permission_denials : N;
}.
Definition at_provider_wall (self : t) : bool :=
  bool_decide (outcome self = TurnOutcome.Failed) && is_some_and (failure self) failure_at_wall.
(** [parse], of what the marker reads as. *)
Definition parse {P} `{Payload P} (value : P) : option t :=
  turn ← field value "dagq_turn";
  outcome ← field turn "outcome" ≫= as_enum TurnOutcome.t;
  Some (mk (unwrap_or (unsigned_of turn "turn") 0%N) outcome (field turn "failure" ≫= as_enum TurnFailure.t)
          (unwrap_or (unsigned_of turn "permission_denials") 0%N)).
End TurnMark.
Abbreviation TurnMark := TurnMark.t.

Definition idle_after_turn (mark : option TurnMark) (waiting : bool) : bool :=
  negb waiting || is_some_and mark TurnMark.at_provider_wall.
(** [renew_wall_marker]; times are numbers. *)
Definition renew_wall_marker (retry_waiting : bool) (marker : option Z) (last_input : Z) : bool :=
  negb retry_waiting && is_some_and marker (λ marker, (marker <? last_input)%Z).

Section turns.
  Context {P : Type} `{Payload P} `{!EqDecision P}.
  Implicit Types (e : RunEvent P) (events : list (RunEvent P)).

(** [idle_marker], of the turn's outcome, failure and denials. *)
Definition idle_marker (session_id : string) (mark : TurnMark) : P :=
  object [("hook_event_name", of_text "Stop");
          ("session_id", of_text session_id);
          ("stop_hook_active", of_flag false);
          ("dagq_turn", object
             [("turn", of_number (Z.of_N (TurnMark.turn mark)));
              ("outcome", of_text (as_str (TurnMark.outcome mark)));
              ("failure", or_null (λ f, of_text (as_str f)) (TurnMark.failure mark));
              ("permission_denials", of_number (Z.of_N (TurnMark.permission_denials mark)))])].

(** [e.payload[key]], null when it is not there. *)
Definition at_key e (key : string) : P := unwrap_or (field (RunEvent.payload e) key) null.
Definition is_retry e : bool := text_is (RunEvent.payload e) "what" PROVIDER_RETRY.
Definition request_of e : option N := unsigned_of (RunEvent.payload e) "request".
Definition turn_started e : bool := RunEvent.is_kind e EventKind.TurnStarted.
Definition greatest (numbers : list N) : option N :=
  match numbers with [] => None | n :: rest => Some (foldr N.max n rest) end.
Definition turn_awaited (listed : list ListedRequest) events (mark : option TurnMark) : bool :=
  let started := List.filter turn_started events in
  let last_turn := greatest (omap (λ e, unsigned_of (RunEvent.payload e) "turn") started) in
  if match mark, last_turn with Some mark, Some last => (TurnMark.turn mark <? last)%N | _, _ => false end
  then true
  else
    let last_request := greatest (omap request_of started) in
    existsb (λ l, ListedRequest.undropped l
                  && is_none_or last_request (λ started, (started <? TurnRequest.seq (ListedRequest.request l))%N))
      listed.

(** ** A call that met the provider's wall *)
Definition walled (outcome failure : option string) : bool :=
  bool_decide (outcome = Some (as_str TurnOutcome.Failed))
  && is_some_and (failure ≫= parse_enum) failure_at_wall.
Definition finish_of e (turn : P) : bool :=
  RunEvent.is_kind e EventKind.TurnFinished && bool_decide (at_key e "turn" = turn).
Definition wall_answered events (finished_at : nat) : bool :=
  match events !! finished_at with
  | None => false
  | Some finished =>
      let turn := at_key finished "turn" in
      let taken := find_last (λ e, turn_started e && bool_decide (at_key e "turn" = turn))
                     (firstn finished_at events) ≫= request_of in
      existsb (λ e, requested_past e taken && is_retry e) (skipn finished_at events)
  end.
Fixpoint first_call (started : list (RunEvent P)) : option N :=
  match started with
  | [] => None
  | turn :: started => if negb (is_retry turn) then request_of turn else first_call started
  end.
Definition request_to_retry events : option N := first_call (List.filter turn_started (rev events)).
(** [events] starts with the turn looked at. *)
Fixpoint read_from (fuel : nat) events : option bool :=
  match fuel, events with
  | 0, _ => None
  | _, [] => Some false
  | S fuel, started :: _ =>
      match position (λ e, finish_of e (at_key started "turn")) events with
      | None => Some false
      | Some finished =>
          let rest := skipn finished events in
          match rest with
          | [] => Some false
          | e :: _ =>
              if negb (walled (text_of (RunEvent.payload e) "outcome") (text_of (RunEvent.payload e) "failure"))
              then Some true
              else
                match position turn_started rest with
                | None => Some false
                | Some next =>
                    let rest := skipn next rest in
                    if is_some_and (head rest) is_retry then read_from fuel rest else Some false
                end
          end
      end
  end.
Definition request_read events (seq : N) : option bool :=
  match position (λ e, turn_started e && bool_decide (request_of e = Some seq)) events with
  | None => Some false
  | Some at_ => read_from (S (length events)) (skipn at_ events)
  end.
End turns.
