(* ===== verification/TurnTable.v ===== *)
(** * What the turns of a headless session promise

    The names of the request files are read back as they are written; the
    directory of files stands for a table of numbered requests, which every
    write, take and drop changes as it should, whatever writer stops halfway; a
    request is taken once at most, in the order of the numbers while no wall is
    met; a turn is awaited exactly while a request is to come or one runs; and
    the request a retry carries is the one read when the retries end well. *)
From stdpp Require Import pretty.
From S2P Require Import Prelude Text Vocab Ids Errors Labels Scope Workers Priorities Inputs Tasks Runs ClaimOrder EventKinds Events Actors Asks ProviderSwitches Turns.

(** ** Texts of digits *)
Module TurnNames.
Definition digits (s : string) : Prop := ∀ a, a ∈ bytes s → is_Some (digit_of a).

Lemma bytes_app s t : bytes (s +:+ t) = bytes s ++ bytes t.
Proof. unfold bytes. induction s as [|a s IH]; simpl; [done|]. by f_equal. Qed.
Lemma digits_app s t : digits (s +:+ t) ↔ digits s ∧ digits t.
Proof. unfold digits. rewrite bytes_app. setoid_rewrite elem_of_app. naive_solver. Qed.
Lemma digits_cons a s : digits (String a s) ↔ is_Some (digit_of a) ∧ digits s.
Proof. unfold digits, bytes. simpl. setoid_rewrite elem_of_cons. naive_solver. Qed.
Lemma digits_rev s : digits s → digits (rev_text s).
Proof.
  induction s as [|a s IH]; [done|]. rewrite digits_cons, rev_text_cons, digits_app, digits_cons.
  intros [Ha Hs]. split_and!; [by apply IH|done|]. intros b Hb. by apply elem_of_nil in Hb.
Qed.
Lemma read_digits_some s value : is_Some (read_digits s value) → digits s.
Proof.
  revert value. induction s as [|a s IH]; intros value; [by intros _ b Hb%elem_of_nil|].
  simpl. intros [r Hr]. destruct (digit_of a) as [d|] eqn:Ha; [|done]. apply digits_cons. split; [by rewrite Ha|].
  apply (IH (value * 10 + d)%Z). by exists r.
Qed.
Lemma zeros_digits n : digits (zeros n).
Proof.
  induction n as [|n IH]; [by intros b Hb%elem_of_nil|]. change (zeros (S n)) with (String (Ascii.ascii_of_nat 48) (zeros n)).
  apply digits_cons. split; [by eexists|done].
Qed.
Lemma read_zeros n s : read_digits (zeros n +:+ s) 0 = read_digits s 0.
Proof. induction n as [|n IH]; [done|]. exact IH. Qed.
Lemma decimal_of_N n : decimal (Z.of_N n) = pretty n.
Proof. by destruct n. Qed.
Lemma pretty_digits (n : N) : digits (pretty n).
Proof.
  destruct (ActorProofs.read_pretty n) as [Hread Hne]. unfold read_number in Hread.
  destruct (pretty n) as [|a s]; [done|]. eapply read_digits_some. by eexists.
Qed.
Lemma six_digits_digits seq : digits (six_digits seq).
Proof. unfold six_digits. rewrite decimal_of_N, digits_app. split; [apply zeros_digits|apply pretty_digits]. Qed.
Lemma strip_other a p s : digit_of a = None → digits s → strip_prefix (String a p) s = None.
Proof.
  intros Ha Hs. destruct s as [|b s]; [done|]. simpl. destruct (Ascii.eqb_spec a b) as [->|]; [|done].
  apply digits_cons in Hs as [[d Hd] _]. congruence.
Qed.

Lemma in_range_within low high z : (low <= z <= high)%Z → in_range low high z = Some z.
Proof. intros [Hl Hh]. unfold in_range. by rewrite (proj2 (Z.leb_le _ _) Hl), (proj2 (Z.leb_le _ _) Hh). Qed.
Lemma parse_six_digits seq : (seq ≤ u64_max)%N → parse_u64 (six_digits seq) = Some seq.
Proof.
  intros Hseq. unfold parse_u64, unsigned_text. rewrite strip_other by (done || apply six_digits_digits). cbn [unwrap_or].
  assert (read_number (six_digits seq) = Some (Z.of_N seq)) as ->.
  { unfold six_digits. rewrite decimal_of_N. destruct (ActorProofs.read_pretty seq) as [Hread Hne]. unfold read_number in *.
    set (k := 6 - String.length (pretty seq)). transitivity (read_digits (zeros k +:+ pretty seq) 0).
    - destruct (pretty seq) as [|a s]; [done|]. by destruct (zeros k).
    - rewrite read_zeros. destruct (pretty seq); [done|exact Hread]. }
  cbn [mbind option_bind]. rewrite in_range_within by lia. cbn. by rewrite N2Z.id.
Qed.

Lemma strip_suffix_app p s : strip_suffix p (s +:+ p) = Some s.
Proof.
  unfold strip_suffix. rewrite rev_text_app.
  assert (strip_prefix (rev_text p) (rev_text p +:+ rev_text s) = Some (rev_text s)) as -> by (by apply strip_prefix_Some).
  cbn. by rewrite rev_text_involutive.
Qed.

(** ** The names of the files *)
Lemma state_of_file state seq : (seq ≤ u64_max)%N → request_state (request_file state seq) = Some (seq, state).
Proof.
  intros Hseq. unfold request_state, request_file.
  match goal with |- context[strip_prefix _ ("request-" +:+ ?rest)] =>
    rewrite (proj2 (strip_prefix_Some "request-" ("request-" +:+ rest) rest) eq_refl) end. cbn [mbind option_bind].
  destruct state.
  - assert (strip_suffix ".taken.json" (six_digits seq +:+ ".json") = None) as ->.
    { unfold strip_suffix. rewrite rev_text_app. change (rev_text <$> strip_prefix "nekat." (rev_text (six_digits seq)) = None).
      by rewrite strip_other by (done || apply digits_rev, six_digits_digits). }
    assert (strip_suffix ".dropped" (six_digits seq +:+ ".json") = None) as ->
      by (unfold strip_suffix; by rewrite rev_text_app).
    rewrite strip_suffix_app. cbn. by rewrite parse_six_digits.
  - rewrite strip_suffix_app. cbn. by rewrite parse_six_digits.
  - assert (strip_suffix ".taken.json" (six_digits seq +:+ ".dropped") = None) as ->
      by (unfold strip_suffix; by rewrite rev_text_app).
    rewrite strip_suffix_app. cbn. by rewrite parse_six_digits.
Qed.
(** The name a torn write leaves, the exit and the limits are no requests. *)
Lemma state_of_tmp seq : request_state (request_tmp seq) = None.
Proof.
  unfold request_tmp, request_file, request_state. rewrite <-append_assoc.
  match goal with |- context[strip_prefix _ ("request-" +:+ ?rest)] =>
    rewrite (proj2 (strip_prefix_Some "request-" ("request-" +:+ rest) rest) eq_refl) end. cbn [mbind option_bind].
  unfold strip_suffix. by rewrite rev_text_app.
Qed.
Lemma request_seq_state name :
  request_seq name = (λ request, (request.1, negb (bool_decide (request.2 = RequestState.Pending)))) <$> request_state name.
Proof.
  unfold request_seq, request_state. destruct (strip_prefix _ name) as [rest|]; [|done]. cbn [mbind option_bind].
  destruct (strip_suffix ".taken.json" rest) as [seq|]; [by destruct (parse_u64 seq)|].
  destruct (strip_suffix ".dropped" rest) as [seq|]; [by destruct (parse_u64 seq)|].
  destruct (strip_suffix ".json" rest) as [seq|]; [|done]. cbn. by destruct (parse_u64 seq).
Qed.
Lemma request_file_inj st1 st2 s1 s2 :
  (s1 ≤ u64_max)%N → (s2 ≤ u64_max)%N → request_file st1 s1 = request_file st2 s2 → s1 = s2 ∧ st1 = st2.
Proof.
  intros H1 H2 Heq. pose proof (state_of_file st1 s1 H1) as Hs. rewrite Heq, state_of_file in Hs by done.
  by injection Hs as -> ->.
Qed.

(** The names of the requests read back: each number and state a file is
    named for is the one read of its name, an answer's [what] names its ask,
    and neither the file a write stops at nor the exit and the limits name a
    request. *)
Theorem names_read_back seq state ask :
  (seq ≤ u64_max)%N → (0 <= AskId.as_i64 ask <= i64_max)%Z →
  request_state (request_file state seq) = Some (seq, state)
  ∧ request_seq (request_file state seq) = Some (seq, negb (bool_decide (state = RequestState.Pending)))
  ∧ request_state (request_tmp seq) = None
  ∧ answered_ask (answer_what ask) = Some (Z.to_N (AskId.as_i64 ask))
  ∧ request_state EXIT_FILE = None ∧ request_state LIMITS_FILE = None.
Proof.
  intros Hseq Hask. split_and!; [by apply state_of_file|by rewrite request_seq_state, state_of_file
    |apply state_of_tmp| |done|done].
  unfold answered_ask, answer_what.
  match goal with |- context[strip_prefix _ ("answer of ask " +:+ ?rest)] =>
    rewrite (proj2 (strip_prefix_Some "answer of ask " ("answer of ask " +:+ rest) rest) eq_refl) end.
  cbn [mbind option_bind]. set (n := Z.to_N (AskId.as_i64 ask)).
  replace (AskId.as_i64 ask) with (Z.of_N n) by (unfold n; lia). rewrite decimal_of_N.
  unfold parse_u64, unsigned_text. rewrite strip_other by (done || apply pretty_digits). cbn [unwrap_or].
  rewrite (proj1 (ActorProofs.read_pretty n)). cbn [mbind option_bind].
  rewrite in_range_within by (unfold i64_max, u64_max in *; lia). cbn. by rewrite N2Z.id.
Qed.
End TurnNames.

(** ** The directory as a table of requests *)
Module TurnsProofs.
Import TurnNames.
Implicit Types (d : Turns) (m : gmap N (TurnRequest * RequestState)) (n s : N) (r : TurnRequest).

(** The directory [d] holds the requests 1 to [n], each with its state in [m],
    and no other file is named for one. *)
Record represents d n m : Prop := {
  rep_keys : ∀ s, is_Some (m !! s) ↔ (1 ≤ s ≤ n)%N;
  rep_file : ∀ s r st, m !! s = Some (r, st) → TurnRequest.seq r = s ∧ d !! request_file st s = Some (Some r);
  rep_only : ∀ name s st, is_Some (d !! name) → request_state name = Some (s, st) →
    name = request_file st s ∧ ∃ r, m !! s = Some (r, st);
}.

Lemma represents_empty : represents ∅ 0 ∅.
Proof.
  split.
  - intros s. rewrite lookup_empty. split; [by intros []|lia].
  - intros s r st Hs. discriminate Hs.
  - intros name s st [c Hc]. discriminate Hc.
Qed.
Lemma rep_bound d n m s r st : (n ≤ u64_max)%N → represents d n m → m !! s = Some (r, st) → (s ≤ u64_max)%N.
Proof. intros Hn Hrep Hs. assert (1 ≤ s ≤ n)%N by (apply (rep_keys _ _ _ Hrep); eauto). lia. Qed.

(** Files that are no requests. *)
Lemma represents_insert d n m name c :
  (n ≤ u64_max)%N → request_state name = None → represents d n m → represents (<[name:=c]> d) n m.
Proof.
  intros Hn Hname Hrep. split; [apply Hrep|..].
  - intros s r st Hs. destruct (rep_file _ _ _ Hrep s r st Hs) as [Hseq Hd]. split; [done|].
    rewrite lookup_insert_ne; [done|]. intros ->.
    rewrite state_of_file in Hname by (by eapply rep_bound). done.
  - intros name' s st Hd Hst. destruct (decide (name = name')) as [->|Hne]; [congruence|].
    rewrite lookup_insert_ne in Hd by done. by apply (rep_only _ _ _ Hrep).
Qed.
Lemma represents_delete d n m name :
  (n ≤ u64_max)%N → request_state name = None → represents d n m → represents (delete name d) n m.
Proof.
  intros Hn Hname Hrep. split; [apply Hrep|..].
  - intros s r st Hs. destruct (rep_file _ _ _ Hrep s r st Hs) as [Hseq Hd]. split; [done|].
    rewrite lookup_delete_ne; [done|]. intros ->.
    rewrite state_of_file in Hname by (by eapply rep_bound). done.
  - intros name' s st Hd Hst. destruct (decide (name = name')) as [->|Hne]; [congruence|].
    rewrite lookup_delete_ne in Hd by done. by apply (rep_only _ _ _ Hrep).
Qed.

(** A request that waits gets another state. *)
Lemma represents_rename d n m s r st :
  (n ≤ u64_max)%N → st ≠ RequestState.Pending → represents d n m → m !! s = Some (r, RequestState.Pending) →
  ∃ d', rename d (request_file RequestState.Pending s) (request_file st s) = Some d'
    ∧ represents d' n (<[s:=(r, st)]> m).
Proof.
  intros Hn Hst Hrep Hs. pose proof (rep_bound _ _ _ _ _ _ Hn Hrep Hs) as Hbound.
  destruct (rep_file _ _ _ Hrep s r _ Hs) as [Hseq Hfile]. unfold rename. rewrite Hfile.
  eexists. split; [reflexivity|].
  assert (request_file RequestState.Pending s ≠ request_file st s) as Hne.
  { intros Heq. by apply request_file_inj in Heq as []. }
  split.
  - intros s'. rewrite lookup_insert_is_Some, (rep_keys _ _ _ Hrep).
    assert (1 ≤ s ≤ n)%N by (apply (rep_keys _ _ _ Hrep); eauto). split; [intros [->|[_ ?]]; lia|].
    intros ?. destruct (decide (s = s')); [by left|by right].
  - intros s' r' st' Hs'. destruct (decide (s = s')) as [<-|Hss].
    + rewrite lookup_insert_eq in Hs'. injection Hs' as <- <-. split; [done|]. by rewrite lookup_insert_eq.
    + rewrite lookup_insert_ne in Hs' by done. destruct (rep_file _ _ _ Hrep s' r' st' Hs') as [Hseq' Hfile'].
      pose proof (rep_bound _ _ _ _ _ _ Hn Hrep Hs'). split; [done|].
      rewrite lookup_insert_ne, lookup_delete_ne by (intros Heq; by apply request_file_inj in Heq as []). done.
  - intros name s' st' Hd Hname. destruct (decide (request_file st s = name)) as [<-|Hne1].
    + rewrite state_of_file in Hname by done. injection Hname as <- <-. split; [done|].
      exists r. by rewrite lookup_insert_eq.
    + rewrite lookup_insert_ne in Hd by done.
      destruct (decide (request_file RequestState.Pending s = name)) as [<-|Hne2].
      { rewrite lookup_delete_eq in Hd. by destruct Hd. }
      rewrite lookup_delete_ne in Hd by done.
      destruct (rep_only _ _ _ Hrep name s' st' Hd Hname) as [-> (r' & Hs')]. split; [done|]. exists r'.
      rewrite lookup_insert_ne; [done|]. intros <-. rewrite Hs in Hs'. by injection Hs' as <- <-.
Qed.

(** ** The numbers read of the names *)
Lemma elem_of_names d name : name ∈ names d ↔ is_Some (d !! name).
Proof.
  unfold names. rewrite list_elem_of_fmap. split.
  - intros ([name' c] & -> & Hin%elem_of_map_to_list). by exists c.
  - intros [c Hc]. exists (name, c). by rewrite elem_of_map_to_list.
Qed.
Lemma names_nodup d : NoDup (names d).
Proof. apply NoDup_fst_map_to_list. Qed.

Lemma seq_of_name d n m name s b :
  represents d n m → is_Some (d !! name) → request_seq name = Some (s, b) →
  ∃ r st, m !! s = Some (r, st) ∧ name = request_file st s ∧ b = negb (bool_decide (st = RequestState.Pending)).
Proof.
  intros Hrep Hd. rewrite request_seq_state. destruct (request_state name) as [[s' st]|] eqn:Hst; [|done].
  simpl. intros [= -> <-]. destruct (rep_only _ _ _ Hrep name s st Hd Hst) as [-> (r & Hr)]. eauto.
Qed.
Lemma foldr_max_spec (l : list N) n :
  (∀ s, s ∈ l → (s ≤ n)%N) → n = 0%N ∨ n ∈ l → foldr N.max 0%N l = n.
Proof.
  intros Hle Hin. apply N.le_antisymm.
  - clear Hin. induction l as [|a l IH]; simpl; [lia|]. apply N.max_lub; [apply Hle; by left|].
    apply IH. intros s Hs. apply Hle. by right.
  - destruct Hin as [->|Hin]; [lia|]. clear Hle. induction l as [|a l IH]; [by apply elem_of_nil in Hin|].
    simpl. apply elem_of_cons in Hin as [->|Hin]; [lia|]. specialize (IH Hin). lia.
Qed.
Lemma next_seq_spec d n m : (n < u64_max)%N → represents d n m → next_seq (names d) = (n + 1)%N.
Proof.
  intros Hn Hrep. unfold next_seq. rewrite (foldr_max_spec _ n).
  - apply N.mod_small. unfold u64_max in *. lia.
  - intros s ([s' b] & -> & (name & Hname%elem_of_names & Hs)%list_elem_of_omap)%list_elem_of_fmap. simpl.
    destruct (seq_of_name _ _ _ _ _ _ Hrep Hname Hs) as (r & st & Hm & _).
    assert (1 ≤ s' ≤ n)%N by (apply (rep_keys _ _ _ Hrep); eauto). lia.
  - destruct (decide (n = 0%N)) as [->|Hne]; [by left|right].
    destruct (proj2 (rep_keys _ _ _ Hrep n)) as [[r st] Hs]; [lia|].
    destruct (rep_file _ _ _ Hrep n r st Hs) as [_ Hfile].
    apply list_elem_of_fmap. exists (n, negb (bool_decide (st = RequestState.Pending))). split; [done|].
    apply list_elem_of_omap. exists (request_file st n). split; [apply elem_of_names; eauto|].
    by rewrite request_seq_state, state_of_file by lia.
Qed.
Lemma elem_of_pending d n m s : (n ≤ u64_max)%N → represents d n m →
  s ∈ pending (names d) ↔ ∃ r, m !! s = Some (r, RequestState.Pending).
Proof.
  intros Hn Hrep. unfold pending. rewrite elem_of_sort_by_key, list_elem_of_fmap. split.
  - intros ([s' b] & -> & Hin). rewrite list_elem_of_In, filter_In, <-list_elem_of_In in Hin.
    destruct Hin as [(name & Hname%elem_of_names & Hs)%list_elem_of_omap Hb]. simpl in Hb. subst. simpl.
    destruct (seq_of_name _ _ _ _ _ _ Hrep Hname Hs) as (r & st & Hm & _ & Hst).
    exists r. destruct b; [done|]. symmetry in Hst. bool_split. by subst.
  - intros (r & Hs). exists (s, false). split; [done|]. rewrite list_elem_of_In, filter_In, <-list_elem_of_In.
    split; [|done]. apply list_elem_of_omap. exists (request_file RequestState.Pending s).
    destruct (rep_file _ _ _ Hrep _ _ _ Hs) as [_ Hfile]. split; [apply elem_of_names; eauto|].
    by rewrite request_seq_state, state_of_file by (by eapply rep_bound).
Qed.
Lemma pending_nodup d n m : represents d n m → NoDup (pending (names d)).
Proof.
  intros Hrep. unfold pending. rewrite sort_by_key_perm.
  assert (∀ l, NoDup l → (∀ name, name ∈ l → is_Some (d !! name)) →
    NoDup (fst <$> List.filter (λ request : N * bool, negb request.2) (omap request_seq l))) as Hall.
  { induction l as [|name l IH]; intros Hnd Hin; [constructor|]. apply NoDup_cons in Hnd as [Hnew Hnd].
    assert (NoDup (fst <$> List.filter (λ request : N * bool, negb request.2) (omap request_seq l))) as IH'
      by (apply IH; [done|]; intros x Hx; apply Hin; by right).
    cbn [omap list_omap]. destruct (request_seq name) as [[s b]|] eqn:Hs; [|exact IH'].
    cbn [List.filter]. destruct b; cbn [negb snd]; [exact IH'|]. rewrite fmap_cons. apply NoDup_cons.
    split; [|exact IH']. simpl. intros ([s' b'] & Hss & Hin')%list_elem_of_fmap. simpl in Hss. subst s'.
    rewrite list_elem_of_In, filter_In, <-list_elem_of_In in Hin'.
    destruct Hin' as [(name' & Hname' & Hs')%list_elem_of_omap Hb']. simpl in Hb'. destruct b'; [done|].
    destruct (seq_of_name _ _ _ _ _ _ Hrep (Hin name ltac:(by left)) Hs) as (r & st & Hm & -> & Hst).
    destruct (seq_of_name _ _ _ _ _ _ Hrep (Hin name' ltac:(by right)) Hs') as (r' & st' & Hm' & -> & Hst').
    apply Hnew. rewrite Hm in Hm'. by injection Hm' as -> ->. }
  apply Hall; [apply names_nodup|by intros name ?%elem_of_names].
Qed.

(** ** What each operation does of the table *)
Definition numbered s text what : TurnRequest := TurnRequest.mk s what text.
Lemma represents_new d n m r :
  (n < u64_max)%N → TurnRequest.seq r = (n + 1)%N → represents d n m →
  represents (<[request_file RequestState.Pending (n + 1) := Some r]> d) (n + 1)
    (<[(n + 1)%N := (r, RequestState.Pending)]> m).
Proof.
  intros Hn Hr Hrep. assert (m !! (n + 1)%N = None) as Hnew.
  { apply eq_None_not_Some. rewrite (rep_keys _ _ _ Hrep). lia. }
  split.
  - intros s. rewrite lookup_insert_is_Some, (rep_keys _ _ _ Hrep). split; [lia|].
    intros ?. destruct (decide ((n + 1)%N = s)); [by left|right; split; [done|lia]].
  - intros s r' st Hs. destruct (decide ((n + 1)%N = s)) as [<-|Hne].
    + rewrite lookup_insert_eq in Hs. injection Hs as <- <-. split; [done|]. by rewrite lookup_insert_eq.
    + rewrite lookup_insert_ne in Hs by done. destruct (rep_file _ _ _ Hrep s r' st Hs) as [Hseq Hfile].
      split; [done|]. rewrite lookup_insert_ne; [done|]. intros Heq.
      apply request_file_inj in Heq as []; [done|lia|].
      eapply rep_bound; [|done..]. lia.
  - intros name s st Hd Hname. destruct (decide (request_file RequestState.Pending (n + 1) = name)) as [<-|Hne].
    + rewrite state_of_file in Hname by lia. injection Hname as <- <-. split; [done|].
      exists r. by rewrite lookup_insert_eq.
    + rewrite lookup_insert_ne in Hd by done. destruct (rep_only _ _ _ Hrep name s st Hd Hname) as [-> (r' & Hs)].
      split; [done|]. exists r'. rewrite lookup_insert_ne; [done|]. congruence.
Qed.
Lemma torn_represents d n m text what : (n ≤ u64_max)%N → represents d n m → represents (torn_write d text what) n m.
Proof. intros Hn. apply represents_insert; [done|apply state_of_tmp]. Qed.
Lemma write_represents d n m text what :
  (n < u64_max)%N → represents d n m →
  ∃ d', write_request d text what = Some ((n + 1)%N, d')
    ∧ represents d' (n + 1) (<[(n + 1)%N := (numbered (n + 1) text what, RequestState.Pending)]> m).
Proof.
  intros Hn Hrep. pose proof (next_seq_spec _ _ _ Hn Hrep) as Hseq.
  unfold write_request, torn_write, new_request. simpl. rewrite Hseq. unfold rename. rewrite lookup_insert_eq.
  cbn [mbind option_bind]. eexists. split; [reflexivity|]. apply represents_new; [done..|].
  apply represents_delete; [lia|apply state_of_tmp|]. apply represents_insert; [lia|apply state_of_tmp|done].
Qed.

(** A request the wrapper may take, and the one it takes. *)
Definition eligible (after_wall : bool) r : Prop := after_wall = true → TurnRequest.what r = PROVIDER_RETRY.
Definition waits m r : Prop := m !! TurnRequest.seq r = Some (r, RequestState.Pending).
Definition next_taken (after_wall : bool) m r : Prop :=
  waits m r ∧ eligible after_wall r
  ∧ ∀ r', waits m r' → eligible after_wall r' → (TurnRequest.seq r ≤ TurnRequest.seq r')%N.

Lemma read_pending_spec d n m seqs : represents d n m →
  (∀ s, s ∈ seqs → ∃ r, m !! s = Some (r, RequestState.Pending)) →
  ∃ rs, read_pending d seqs = Some rs ∧ TurnRequest.seq <$> rs = seqs ∧ ∀ r, r ∈ rs → waits m r.
Proof.
  intros Hrep. unfold read_pending. induction seqs as [|s seqs IH]; intros Hin.
  { exists []. split_and!; [done..|]. by intros r ?%elem_of_nil. }
  destruct IH as (rs & Hrs & Hseqs & Hall); [intros x Hx; apply Hin; by right|].
  destruct (Hin s) as [r Hr]; [by left|]. destruct (rep_file _ _ _ Hrep s r _ Hr) as [Hseq Hfile].
  exists (r :: rs). split_and!.
  - simpl in *. rewrite Hfile. simpl. by rewrite Hrs.
  - by rewrite fmap_cons, Hseq, Hseqs.
  - intros x [->|Hx]%elem_of_cons; [|by apply Hall]. unfold waits. by rewrite Hseq.
Qed.
Definition allowed (after_wall : bool) (request : N * string) : bool :=
  negb after_wall || bool_decide (request.2 = PROVIDER_RETRY).
Lemma allowed_eligible after_wall r :
  allowed after_wall (TurnRequest.seq r, TurnRequest.what r) = true ↔ eligible after_wall r.
Proof.
  unfold allowed, eligible. simpl. destruct after_wall; simpl; [|naive_solver].
  rewrite bool_decide_eq_true. naive_solver.
Qed.
Lemma pending_sorted (l : list string) : StronglySorted N.le (pending l).
Proof.
  unfold pending. generalize (fst <$> List.filter (λ request : N * bool, negb request.2) (omap request_seq l)).
  intros ns. eapply StronglySorted_impl; [|apply sort_by_key_sorted].
  intros x y. unfold by_key. rewrite lex_leb_cons. lia.
Qed.

(** The request the wrapper finds, of those it read. *)
Lemma sorted_by {A} (key : A → N) (l : list A) :
  StronglySorted N.le (key <$> l) → StronglySorted (λ a b, (key a ≤ key b)%N) l.
Proof.
  induction l as [|a l IH]; [constructor|]. rewrite fmap_cons. intros Hs. inversion Hs as [|? ? Hl Ha]; subst.
  constructor; [by apply IH|]. by rewrite Forall_fmap in Ha.
Qed.
Lemma find_next d n m (after_wall : bool) :
  (n ≤ u64_max)%N → represents d n m →
  ∃ rs, read_pending d (if after_wall then pending (names d) else firstn 1 (pending (names d))) = Some rs
    ∧ (∀ r, r ∈ rs → waits m r)
    ∧ match request_to_take ((λ r, (TurnRequest.seq r, TurnRequest.what r)) <$> rs) after_wall with
      | Some s => ∃ r, r ∈ rs ∧ TurnRequest.seq r = s ∧ next_taken after_wall m r
      | None => ∀ r, waits m r → ¬ eligible after_wall r
      end.
Proof.
  intros Hn Hrep. set (seqs := pending (names d)).
  assert (∀ s, s ∈ seqs → ∃ r, m !! s = Some (r, RequestState.Pending)) as Hseqs
    by (intros s Hs; by apply (elem_of_pending d n m)).
  destruct (read_pending_spec d n m (if after_wall then seqs else firstn 1 seqs) Hrep) as (rs & Hrs & Hnums & Hall).
  { intros s Hs. apply Hseqs. destruct after_wall; [done|]. revert Hs. destruct seqs; simpl; [done|]. intros ->%list_elem_of_singleton. by left. }
  exists rs. split_and!; [done..|].
  assert (∀ r, waits m r → TurnRequest.seq r ∈ seqs) as Hwaits.
  { intros r Hr. apply (elem_of_pending d n m); [done..|]. by exists r. }
  assert (StronglySorted N.le (TurnRequest.seq <$> rs)) as Hsorted.
  { rewrite Hnums. pose proof (pending_sorted (names d)) as Hs. destruct after_wall; [done|].
    fold seqs in Hs. destruct seqs as [|s seqs']; [done|]. repeat constructor. }
  unfold request_to_take. destruct (List.find _ _) as [[s what]|] eqn:Hfind; simpl.
  - destruct (List.find_some _ _ Hfind) as [Hin Hallowed].
    apply list_elem_of_In, list_elem_of_fmap in Hin as (r & Heq & Hr). injection Heq as -> ->.
    exists r. split_and!; [done..|]. split; [by apply Hall|]. split; [by apply allowed_eligible|].
    intros r' Hr' Hel'. destruct after_wall.
    + assert (r' ∈ rs) as Hin'.
      { assert (TurnRequest.seq r' ∈ TurnRequest.seq <$> rs) as (r2 & Heq2 & Hr2)%list_elem_of_fmap
          by (rewrite Hnums; by apply Hwaits).
        specialize (Hall _ Hr2). unfold waits in Hall, Hr'. rewrite <-Heq2, Hr' in Hall. by injection Hall as ->. }
      refine (find_first (λ a b, (a.1 ≤ b.1)%N) (allowed true) _ _ _ _ Hfind
        (TurnRequest.seq r', TurnRequest.what r') _ _); [intros; lia| | |by apply allowed_eligible].
      * by apply StronglySorted_fmap, sorted_by.
      * apply list_elem_of_fmap. eauto.
    + specialize (Hwaits _ Hr'). pose proof (pending_sorted (names d)) as Hs. fold seqs in Hs.
      destruct seqs as [|s seqs']; [by apply elem_of_nil in Hwaits|]. simpl in Hnums.
      assert (TurnRequest.seq r ∈ TurnRequest.seq <$> rs) as Hin by (apply list_elem_of_fmap; eauto).
      rewrite Hnums in Hin. apply list_elem_of_singleton in Hin as ->.
      apply elem_of_cons in Hwaits as [->|Hin']; [lia|]. inversion Hs as [|? ? _ Hle]; subst.
      rewrite Forall_forall in Hle. by apply Hle.
  - intros r Hr Hel. destruct after_wall.
    + assert (TurnRequest.seq r ∈ TurnRequest.seq <$> rs) as (r2 & Heq2 & Hr2)%list_elem_of_fmap
        by (rewrite Hnums; by apply Hwaits).
      pose proof (Hall _ Hr2) as Hw2. unfold waits in Hw2, Hr. rewrite <-Heq2, Hr in Hw2. injection Hw2 as ->.
      pose proof (List.find_none _ _ Hfind (TurnRequest.seq r2, TurnRequest.what r2)) as Hno.
      apply (proj2 (allowed_eligible true r2)) in Hel. unfold allowed in Hel. rewrite Hno in Hel; [done|].
      apply list_elem_of_In, list_elem_of_fmap. eauto.
    + specialize (Hwaits _ Hr). destruct seqs as [|s seqs']; [by apply elem_of_nil in Hwaits|].
      destruct rs; [done|]. discriminate Hfind.
Qed.

(** What a take does: nothing when nothing may be taken, or when the fence
    leaves what was found, and otherwise the one found is taken. *)
Lemma take_spec d n m after_wall may_take :
  (n ≤ u64_max)%N → represents d n m →
  ∃ waiting d', take_waiting d after_wall may_take = Some (waiting, d')
    ∧ match waiting with
      | Waiting.None => d' = d ∧ ∀ r, waits m r → ¬ eligible after_wall r
      | Waiting.Left => d' = d ∧ ∃ r, next_taken after_wall m r ∧ may_take r = false
      | Waiting.Taken r => next_taken after_wall m r ∧ may_take r = true
          ∧ represents d' n (<[TurnRequest.seq r := (r, RequestState.Taken)]> m)
      end.
Proof.
  intros Hn Hrep. destruct (find_next d n m after_wall Hn Hrep) as (rs & Hrs & Hall & Hnext).
  unfold take_waiting. cbv zeta. rewrite Hrs. cbn [mbind option_bind].
  destruct (request_to_take _ _) as [s|]; [|by eexists _, _].
  destruct Hnext as (r & Hr & <- & Hnext). cbn [mbind option_bind].
  assert (List.find (λ r', bool_decide (TurnRequest.seq r' = TurnRequest.seq r)) rs = Some r) as ->.
  { destruct (List.find _ rs) as [r'|] eqn:Hfind.
    - apply List.find_some in Hfind as [Hin Hseq]. bool_split. apply list_elem_of_In, Hall in Hin.
      specialize (Hall _ Hr). unfold waits in *. rewrite Hseq, Hall in Hin. by injection Hin as ->.
    - apply list_elem_of_In in Hr. pose proof (List.find_none _ _ Hfind r Hr) as Hno. cbv beta in Hno. by rewrite bool_decide_true in Hno. }
  destruct (may_take r) eqn:Hmay; [|by eexists _, _; split; [reflexivity|split; [done|exists r]]].
  destruct (represents_rename d n m (TurnRequest.seq r) r RequestState.Taken Hn) as (d' & Hd' & Hrep'); [done..| |].
  { by destruct Hnext. }
  rewrite Hd'. cbn [mbind option_bind]. by eexists _, _.
Qed.

(** What a new session leaves of the table. *)
Definition drop_pending (row : TurnRequest * RequestState) : TurnRequest * RequestState :=
  match row.2 with RequestState.Pending => (row.1, RequestState.Dropped) | _ => row end.
Lemma drop_spec n seqs : (n ≤ u64_max)%N → NoDup seqs → ∀ d m,
  represents d n m → (∀ s, s ∈ seqs → ∃ r, m !! s = Some (r, RequestState.Pending)) →
  ∃ d' m', foldl drop_request (Some d) seqs = Some d' ∧ represents d' n m'
    ∧ ∀ s, m' !! s = if decide (s ∈ seqs) then drop_pending <$> m !! s else m !! s.
Proof.
  intros Hn Hnd. induction Hnd as [|s seqs Hs Hnd IH]; intros d m Hrep Hpending; [by exists d, m|].
  destruct (Hpending s) as [r Hr]; [by left|].
  destruct (represents_rename d n m s r RequestState.Dropped Hn) as (d1 & Hd1 & Hrep1); [done..|].
  destruct (IH d1 _ Hrep1) as (d' & m' & Hd' & Hrep' & Hm').
  { intros s' Hs'. destruct (Hpending s') as [r' Hr']; [by right|]. exists r'. rewrite lookup_insert_ne; [done|]. by intros ->. }
  exists d', m'. split_and!; [|done|].
  - simpl. by rewrite Hd1.
  - intros s'. rewrite Hm'. destruct (decide (s = s')) as [<-|Hne].
    + rewrite decide_False, decide_True by (done || by left). by rewrite lookup_insert_eq, Hr.
    + rewrite lookup_insert_ne by done. destruct (decide (s' ∈ seqs)) as [Hin|Hin].
      * by rewrite decide_True by (by right).
      * rewrite decide_False; [done|]. intros [->|?]%elem_of_cons; done.
Qed.
Lemma prepare_spec d n m : (n ≤ u64_max)%N → represents d n m →
  ∃ d', prepare_turns d = Some d' ∧ represents d' n (drop_pending <$> m).
Proof.
  intros Hn Hrep. unfold prepare_turns. cbv zeta. set (d0 := <[LIMITS_FILE:=None]> d).
  assert (represents d0 n m) as Hrep0 by (by apply represents_insert).
  destruct (drop_spec n (pending (names d0)) Hn (pending_nodup _ _ _ Hrep0) d0 m Hrep0) as (d' & m' & Hd' & Hrep' & Hm').
  { intros s Hs. by apply (elem_of_pending d0 n m). }
  rewrite Hd'. eexists. split; [reflexivity|]. replace (drop_pending <$> m) with m'; [by apply represents_delete|].
  apply map_eq. intros s. rewrite Hm', lookup_fmap. case_decide as Hin; [done|].
  destruct (m !! s) as [[r st]|] eqn:Hs; [|done]. destruct st; [|done..]. exfalso. apply Hin.
  apply (elem_of_pending d0 n m); eauto.
Qed.
Lemma exit_spec d n m : (n ≤ u64_max)%N → represents d n m → represents (request_exit d) n m.
Proof. intros Hn Hrep. by apply represents_insert. Qed.
Lemma listed_spec d n m l :
  (n ≤ u64_max)%N → represents d n m →
  l ∈ listed_requests d ↔ m !! TurnRequest.seq (ListedRequest.request l) = Some (ListedRequest.request l, ListedRequest.state l).
Proof.
  intros Hn Hrep. unfold listed_requests. rewrite list_elem_of_omap. split.
  - intros ([name c] & Hin%elem_of_map_to_list & Hl). simpl in Hl.
    destruct (request_state name) as [[s st]|] eqn:Hname; [|done]. simpl in Hl. destruct c as [r|]; [|done].
    simpl in Hl. injection Hl as <-. destruct (rep_only _ _ _ Hrep name s st) as [-> (r' & Hs)]; [eauto|done|].
    destruct (rep_file _ _ _ Hrep s r' st Hs) as [Hseq Hfile]. rewrite Hin in Hfile. injection Hfile as ->.
    simpl. by rewrite Hseq.
  - intros Hs. destruct l as [st r]. simpl in *. destruct (rep_file _ _ _ Hrep _ _ _ Hs) as [_ Hfile].
    exists (request_file st (TurnRequest.seq r), Some r). split; [by apply elem_of_map_to_list|]. simpl.
    by rewrite state_of_file by (by eapply rep_bound).
Qed.

(** ** Runs of the directory *)
(** What the two sides do, a writer that stops before its rename among them. *)
Inductive TurnStep : Type :=
| Write (prompt what : string)
| Torn (prompt what : string)
| Take (after_wall : bool) (may_take : TurnRequest → bool)
| Prepare
| Exit.
Definition step_dir d (step : TurnStep) : option (Turns * list TurnRequest) :=
  match step with
  | Write prompt what => w ← write_request d prompt what; Some (w.2, [])
  | Torn prompt what => Some (torn_write d prompt what, [])
  | Take after_wall may_take =>
      t ← take_waiting d after_wall may_take;
      Some (t.2, match t.1 with Waiting.Taken r => [r] | _ => [] end)
  | Prepare => d ← prepare_turns d; Some (d, [])
  | Exit => Some (request_exit d, [])
  end.
(** The directory after the steps, and the requests taken on the way. *)
Fixpoint dir_run d (steps : list TurnStep) : option (Turns * list TurnRequest) :=
  match steps with
  | [] => Some (d, [])
  | step :: steps =>
      one ← step_dir d step;
      rest ← dir_run one.1 steps;
      Some (rest.1, one.2 ++ rest.2)
  end.

(** The table's own steps: the requests issued are numbered from 1. *)
Definition Table : Type := (N * gmap N (TurnRequest * RequestState))%type.
Implicit Type t : Table.
Inductive table_step : Table → TurnStep → list TurnRequest → Table → Prop :=
| table_write n m prompt what :
    table_step (n, m) (Write prompt what) []
      ((n + 1)%N, <[(n + 1)%N := (TurnRequest.mk (n + 1) what prompt, RequestState.Pending)]> m)
| table_torn t prompt what : table_step t (Torn prompt what) [] t
| table_none n m after_wall may_take :
    (∀ r, waits m r → ¬ eligible after_wall r) → table_step (n, m) (Take after_wall may_take) [] (n, m)
| table_left n m after_wall may_take r :
    next_taken after_wall m r → may_take r = false → table_step (n, m) (Take after_wall may_take) [] (n, m)
| table_taken n m after_wall may_take r :
    next_taken after_wall m r → may_take r = true →
    table_step (n, m) (Take after_wall may_take) [r] (n, <[TurnRequest.seq r := (r, RequestState.Taken)]> m)
| table_prepare n m : table_step (n, m) Prepare [] (n, drop_pending <$> m)
| table_exit t : table_step t Exit [] t.
Inductive table_run : Table → list TurnStep → list TurnRequest → Table → Prop :=
| run_nil t : table_run t [] [] t
| run_cons t1 t2 t3 step steps one rest :
    table_step t1 step one t2 → table_run t2 steps rest t3 → table_run t1 (step :: steps) (one ++ rest) t3.

Lemma step_refines d n m step :
  (n < u64_max)%N → represents d n m →
  ∃ d' taken n' m', step_dir d step = Some (d', taken) ∧ table_step (n, m) step taken (n', m')
    ∧ represents d' n' m' ∧ (n' ≤ n + 1)%N.
Proof.
  intros Hn Hrep. assert (n ≤ u64_max)%N as Hle by lia. destruct step as [prompt what|prompt what|after_wall may_take| |].
  - destruct (write_represents d n m prompt what Hn Hrep) as (d' & Hd' & Hrep'). simpl. rewrite Hd'.
    eexists _, _, _, _. split_and!; [reflexivity|constructor|done|lia].
  - eexists _, _, _, _. split_and!; [reflexivity|constructor|by apply torn_represents|lia].
  - destruct (take_spec d n m after_wall may_take Hle Hrep) as (waiting & d' & Hd' & Hspec). simpl. rewrite Hd'.
    destruct waiting as [| |r]; simpl.
    + destruct Hspec as [-> Hnone]. exists d, [], n, m. split_and!; [done|by constructor|done|lia].
    + destruct Hspec as (-> & r & Hr & Hmay). exists d, [], n, m. split_and!; [done|by econstructor|done|lia].
    + destruct Hspec as (Hr & Hmay & Hrep'). eexists _, _, _, _. split_and!; [reflexivity|by econstructor|done|lia].
  - destruct (prepare_spec d n m Hle Hrep) as (d' & Hd' & Hrep'). simpl. rewrite Hd'.
    eexists _, _, _, _. split_and!; [reflexivity|constructor|done|lia].
  - eexists _, _, _, _. split_and!; [reflexivity|constructor|by apply exit_spec|lia].
Qed.
Lemma run_refines steps : ∀ d n m,
  (n + N.of_nat (length steps) ≤ u64_max)%N → represents d n m →
  ∃ d' taken n' m', dir_run d steps = Some (d', taken) ∧ table_run (n, m) steps taken (n', m')
    ∧ represents d' n' m' ∧ (n' ≤ u64_max)%N.
Proof.
  induction steps as [|step steps IH]; intros d n m Hn Hrep; simpl in Hn.
  { exists d, [], n, m. split_and!; [done|constructor|done|lia]. }
  destruct (step_refines d n m step) as (d1 & one & n1 & m1 & Hd1 & Hstep & Hrep1 & Hn1); [lia|done|].
  destruct (IH d1 n1 m1) as (d' & taken & n' & m' & Hd' & Hrun & Hrep' & Hn'); [lia|done|].
  exists d', (one ++ taken), n', m'. split_and!; [|by econstructor|done..]. simpl. rewrite Hd1. simpl. by rewrite Hd'.
Qed.

(** C9: the files of [turns/] refine a table of numbered requests: every run of
    writes, torn writes, takes and new sessions from an empty directory goes
    through (no rename fails, no file is read torn), takes what the table's run
    takes, and lists afterwards each request of the table in its state and
    nothing else; the next write gets the number after the last. *)
Theorem turns_refine_table steps :
  (N.of_nat (length steps) < u64_max)%N →
  ∃ d taken n m, dir_run ∅ steps = Some (d, taken) ∧ table_run (0%N, ∅) steps taken (n, m)
    ∧ (∀ l, l ∈ listed_requests d ↔
         m !! TurnRequest.seq (ListedRequest.request l) = Some (ListedRequest.request l, ListedRequest.state l))
    ∧ (∀ s, s ∈ pending (names d) ↔ ∃ r, m !! s = Some (r, RequestState.Pending))
    ∧ (∀ s, is_Some (m !! s) ↔ (1 ≤ s ≤ n)%N) ∧ (n < u64_max → next_seq (names d) = n + 1)%N.
Proof.
  intros Hlen. destruct (run_refines steps ∅ 0 ∅) as (d & taken & n & m & Hd & Hrun & Hrep & Hn);
    [lia|apply represents_empty|].
  exists d, taken, n, m. split_and!; [done..| | | |].
  - intros l. by eapply listed_spec.
  - intros s. by eapply elem_of_pending.
  - apply Hrep.
  - intros Hlt. by eapply next_seq_spec.
Qed.

(** ** What a run takes *)
Definition written (step : TurnStep) : option (string * string) :=
  match step with Write prompt what => Some (what, prompt) | _ => None end.
Definition in_order (step : TurnStep) : Prop :=
  match step with Take after_wall _ => after_wall = false | _ => True end.
(** The requests of the table are the writes of [steps], each the one of its
    number, and those taken are [taken]. *)
Record ran (steps : list TurnStep) (taken : list TurnRequest) t : Prop := {
  ran_issued : t.1 = N.of_nat (length (omap written steps));
  ran_written : ∀ s r st, t.2 !! s = Some (r, st) → (1 ≤ s ≤ t.1)%N ∧ TurnRequest.seq r = s
    ∧ omap written steps !! Nat.pred (N.to_nat s) = Some (TurnRequest.what r, TurnRequest.prompt r);
  ran_taken : ∀ r, r ∈ taken ↔ t.2 !! TurnRequest.seq r = Some (r, RequestState.Taken);
  ran_once : NoDup (TurnRequest.seq <$> taken);
  ran_order : Forall in_order steps → StronglySorted N.lt (TurnRequest.seq <$> taken)
    ∧ ∀ r r', r ∈ taken → waits t.2 r' → (TurnRequest.seq r < TurnRequest.seq r')%N;
}.
Lemma ran_nil : ran [] [] (0%N, ∅).
Proof.
  split; simpl.
  - done.
  - intros s r st Hs. discriminate Hs.
  - intros r. rewrite elem_of_nil. split; [done|]. intros Hs. discriminate Hs.
  - constructor.
  - split; [constructor|]. by intros r r' ?%elem_of_nil.
Qed.
Lemma ran_idle steps taken t step :
  written step = None → ran steps taken t → ran (steps ++ [step]) taken t.
Proof.
  intros Hw [Hissued Hwritten Htaken Honce Horder].
  assert (omap written (steps ++ [step]) = omap written steps) as Hsame
    by (rewrite omap_app; simpl; by rewrite Hw, app_nil_r).
  split; rewrite ?Hsame; [done..|]. intros [Hin _]%Forall_app. by apply Horder.
Qed.
Lemma ran_write steps taken n m prompt what :
  ran steps taken (n, m) →
  ran (steps ++ [Write prompt what]) taken
    ((n + 1)%N, <[(n + 1)%N := (TurnRequest.mk (n + 1) what prompt, RequestState.Pending)]> m).
Proof.
  intros [Hissued Hwritten Htaken Honce Horder]. simpl in *.
  assert (m !! (n + 1)%N = None) as Hnew.
  { destruct (m !! (n + 1)%N) as [[r st]|] eqn:Hs; [|done]. apply Hwritten in Hs. lia. }
  assert (∀ r, r ∈ taken → TurnRequest.seq r ≠ (n + 1)%N) as Hold.
  { intros r Hr%Htaken Heq. rewrite Heq in Hr. congruence. }
  split; simpl; rewrite ?omap_app.
  - rewrite length_app. simpl. lia.
  - intros s r st Hs. destruct (decide ((n + 1)%N = s)) as [<-|Hne].
    + rewrite lookup_insert_eq in Hs. injection Hs as <- <-. split_and!; [lia|lia|done|]. simpl.
      rewrite lookup_app_r by lia. replace (_ - _) with 0 by lia. done.
    + rewrite lookup_insert_ne in Hs by done. destruct (Hwritten s r st Hs) as (Hin & Hseq & Hat).
      split_and!; [lia|lia|done|]. by apply lookup_app_l_Some.
  - intros r. destruct (decide (TurnRequest.seq r = (n + 1)%N)) as [Heq|Hne].
    + rewrite Heq, lookup_insert_eq. split; [intros Hr; by apply Hold in Hr|]. intros [=].
    + rewrite lookup_insert_ne by done. apply Htaken.
  - done.
  - intros [Hin _]%Forall_app. destruct (Horder Hin) as [Hsorted Hless]. split; [done|].
    intros r r' Hr Hr'. unfold waits in Hr'. destruct (decide (TurnRequest.seq r' = (n + 1)%N)) as [->|Hne].
    + apply Htaken in Hr. apply Hwritten in Hr as [Hr _]. lia.
    + rewrite lookup_insert_ne in Hr' by done. by apply Hless.
Qed.
Lemma sorted_snoc (l : list N) x : StronglySorted N.lt l → (∀ y, y ∈ l → (y < x)%N) → StronglySorted N.lt (l ++ [x]).
Proof.
  intros Hl Hx. apply StronglySorted_app. split_and!; [|done|repeat constructor].
  intros y z Hy ->%list_elem_of_singleton. by apply Hx.
Qed.
Lemma ran_take steps taken n m after_wall may_take r :
  next_taken after_wall m r → ran steps taken (n, m) →
  ran (steps ++ [Take after_wall may_take]) (taken ++ [r]) (n, <[TurnRequest.seq r := (r, RequestState.Taken)]> m).
Proof.
  intros (Hr & Hel & Hleast) Hran.
  destruct (ran_idle steps taken (n, m) (Take after_wall may_take) eq_refl Hran) as [Hissued Hwritten Htaken Honce Horder].
  simpl in *. unfold waits in Hr.
  split; simpl.
  - done.
  - intros s r' st Hs. destruct (decide (TurnRequest.seq r = s)) as [<-|Hne].
    + rewrite lookup_insert_eq in Hs. injection Hs as <- <-. by apply (Hwritten _ _ _ Hr).
    + rewrite lookup_insert_ne in Hs by done. by eapply Hwritten.
  - intros r'. rewrite elem_of_app, list_elem_of_singleton, Htaken.
    destruct (decide (TurnRequest.seq r = TurnRequest.seq r')) as [Heq|Hne].
    + rewrite <-Heq, lookup_insert_eq, Hr. split; [intros [?|<-]; [congruence|done]|]. intros [= ->]. by right.
    + rewrite lookup_insert_ne by done. split; [intros [?| ->]; done|by left].
  - rewrite fmap_app. apply NoDup_app. split_and!; [done| |apply NoDup_singleton].
    intros s (r' & -> & Hr'%Htaken)%list_elem_of_fmap Hs%list_elem_of_singleton. congruence.
  - intros Hin. destruct (Horder Hin) as [Hsorted Hless]. apply Forall_app in Hin as [_ Hone].
    rewrite fmap_app. split.
    + apply sorted_snoc; [done|]. intros s (r' & -> & Hr')%list_elem_of_fmap. by apply Hless.
    + intros r1 r2 Hr1 Hr2. unfold waits in Hr2.
      destruct (decide (TurnRequest.seq r = TurnRequest.seq r2)) as [Heq|Hne].
      { rewrite Heq, lookup_insert_eq in Hr2. done. }
      rewrite lookup_insert_ne in Hr2 by done. apply elem_of_app in Hr1 as [Hr1|Hr1%list_elem_of_singleton]; [by apply Hless|].
      subst r1. assert (after_wall = false) as -> by (by inversion Hone).
      specialize (Hleast r2 Hr2). lapply Hleast; [lia|done].
Qed.
Lemma lookup_dropped m s r st :
  (drop_pending <$> m) !! s = Some (r, st) →
  st ≠ RequestState.Pending ∧ ∃ st', m !! s = Some (r, st').
Proof.
  rewrite lookup_fmap. destruct (m !! s) as [[r' st']|]; [|done]. destruct st'; simpl; intros [= -> <-]; eauto.
Qed.
Lemma ran_prepare steps taken n m : ran steps taken (n, m) → ran (steps ++ [Prepare]) taken (n, drop_pending <$> m).
Proof.
  intros Hran. destruct (ran_idle steps taken (n, m) Prepare eq_refl Hran) as [Hissued Hwritten Htaken Honce Horder].
  simpl in *. split; simpl; [done| | |done|].
  - intros s r st (_ & st' & Hs)%lookup_dropped. by eapply Hwritten.
  - intros r. rewrite Htaken, lookup_fmap. destruct (m !! TurnRequest.seq r) as [[r' st']|]; [|done].
    destruct st'; simpl; naive_solver.
  - intros Hin. destruct (Horder Hin) as [Hsorted Hless]. split; [done|]. intros r r' _ [Hne _]%lookup_dropped. done.
Qed.
Lemma ran_step steps taken t step one t' :
  table_step t step one t' → ran steps taken t → ran (steps ++ [step]) (taken ++ one) t'.
Proof.
  intros Hstep Hran. inversion Hstep; subst; rewrite ?app_nil_r; first [by apply ran_idle|by apply ran_write|by apply ran_take|by apply ran_prepare].
Qed.
Lemma ran_run t steps rest t' : table_run t steps rest t' → ∀ past taken,
  ran past taken t → ran (past ++ steps) (taken ++ rest) t'.
Proof.
  induction 1 as [t|t1 t2 t3 step steps one rest Hstep Hrun IH]; intros past taken Hran; [by rewrite !app_nil_r|].
  rewrite cons_middle, !app_assoc. apply IH. by apply ran_step with t1.
Qed.
Lemma dir_ran steps d taken :
  (N.of_nat (length steps) < u64_max)%N → dir_run ∅ steps = Some (d, taken) →
  ∃ n m, represents d n m ∧ (n ≤ u64_max)%N ∧ ran steps taken (n, m).
Proof.
  intros Hlen Hd. destruct (run_refines steps ∅ 0 ∅) as (d' & taken' & n & m & Hd' & Hrun & Hrep & Hn);
    [lia|apply represents_empty|].
  rewrite Hd in Hd'. injection Hd' as <- <-. exists n, m. split_and!; [done..|].
  exact (ran_run _ _ _ _ Hrun [] [] ran_nil).
Qed.

(** C10: a request is taken once: whatever the two sides do, the requests taken
    bear different numbers, each is the write of its number with that write's
    text, and they are those the directory lists as taken; while no wall is met
    they are taken in the order written, and whatever still waits was written
    after them. *)
Theorem requests_taken_once steps d taken :
  (N.of_nat (length steps) < u64_max)%N → dir_run ∅ steps = Some (d, taken) →
  NoDup (TurnRequest.seq <$> taken)
  ∧ (∀ r, r ∈ taken ↔ ListedRequest.mk RequestState.Taken r ∈ listed_requests d)
  ∧ (∀ r, r ∈ taken → omap written steps !! Nat.pred (N.to_nat (TurnRequest.seq r))
                       = Some (TurnRequest.what r, TurnRequest.prompt r))
  ∧ (Forall in_order steps → StronglySorted N.lt (TurnRequest.seq <$> taken)
      ∧ ∀ r s, r ∈ taken → s ∈ pending (names d) → (TurnRequest.seq r < s)%N).
Proof.
  intros Hlen Hd. destruct (dir_ran steps d taken Hlen Hd) as (n & m & Hrep & Hn & [Hissued Hwritten Htaken Honce Horder]).
  simpl in *. split_and!; [done| | |].
  - intros r. by rewrite Htaken, (listed_spec d n m) by done.
  - intros r Hr%Htaken. by apply Hwritten in Hr as (_ & _ & Hat).
  - intros Hin. destruct (Horder Hin) as [Hsorted Hless]. split; [done|]. intros r s Hr (r' & Hr')%(elem_of_pending d n m); [|done..].
    destruct (rep_file _ _ _ Hrep _ _ _ Hr') as [<- _]. by apply Hless.
Qed.

(** ** Nothing waits for ever *)
Lemma sorted_same (l1 l2 : list N) :
  StronglySorted N.le l1 → StronglySorted N.le l2 → NoDup l1 → NoDup l2 → (∀ s, s ∈ l1 ↔ s ∈ l2) → l1 = l2.
Proof.
  intros Hs1 Hs2 Hn1 Hn2 Hin. apply (StronglySorted_unique N.le); [done..|]. by apply NoDup_Permutation.
Qed.
Definition take_next : TurnStep := Take false (λ _, true).
Lemma take_first d n m s l :
  (n ≤ u64_max)%N → represents d n m → pending (names d) = s :: l →
  ∃ r d' m', step_dir d take_next = Some (d', [r]) ∧ TurnRequest.seq r = s ∧ represents d' n m'
    ∧ pending (names d') = l.
Proof.
  intros Hn Hrep Hpending. pose proof (pending_sorted (names d)) as Hsorted. rewrite Hpending in Hsorted.
  pose proof (pending_nodup d n m Hrep) as Hnd. rewrite Hpending in Hnd.
  assert (∀ s', s' ∈ s :: l ↔ ∃ r, m !! s' = Some (r, RequestState.Pending)) as Hin
    by (intros s'; rewrite <-Hpending; by apply (elem_of_pending d n m)).
  destruct (proj1 (Hin s)) as [r0 Hr0]; [by left|].
  assert (waits m r0) as Hw0 by (unfold waits; by rewrite (proj1 (rep_file _ _ _ Hrep _ _ _ Hr0))).
  destruct (take_spec d n m false (λ _, true) Hn Hrep) as (waiting & d' & Hd' & Hspec). simpl. rewrite Hd'.
  destruct waiting as [| |r]; [by destruct (proj2 Hspec r0 Hw0)|by destruct Hspec as (_ & r & _ & ?)|].
  destruct Hspec as ((Hr & _ & Hleast) & _ & Hrep'). specialize (Hleast r0 Hw0 ltac:(done)).
  rewrite (proj1 (rep_file _ _ _ Hrep _ _ _ Hr0)) in Hleast.
  inversion Hsorted as [|? ? Hl Hless]; subst. rewrite Forall_forall in Hless.
  assert (TurnRequest.seq r = s) as Heq.
  { assert (TurnRequest.seq r ∈ s :: l) as [?|Hrl]%elem_of_cons by (apply Hin; by exists r); [done|].
    specialize (Hless _ Hrl). lia. }
  exists r, d'. eexists. split_and!; [reflexivity|done|done|]. apply NoDup_cons in Hnd as [Hnew Hnd].
  apply sorted_same; [apply pending_sorted|done|by eapply pending_nodup|done|]. intros s'.
  rewrite (elem_of_pending d' n) by done. rewrite Heq. destruct (decide (s = s')) as [<-|Hne].
  - rewrite lookup_insert_eq. split; [by intros [? ?]|done].
  - rewrite lookup_insert_ne by done. rewrite <-Hin, elem_of_cons. naive_solver.
Qed.
Lemma take_all n : (n ≤ u64_max)%N → ∀ l d m, represents d n m → pending (names d) = l →
  ∃ d' more, dir_run d (repeat take_next (length l)) = Some (d', more)
    ∧ TurnRequest.seq <$> more = l ∧ pending (names d') = [].
Proof.
  intros Hn. induction l as [|s l IH]; intros d m Hrep Hpending; [by exists d, []|].
  destruct (take_first d n m s l Hn Hrep Hpending) as (r & d1 & m1 & Hd1 & Hseq & Hrep1 & Hpending1).
  destruct (IH d1 m1 Hrep1 Hpending1) as (d' & more & Hd' & Hmore & Hend).
  exists d', (r :: more). cbn [length repeat dir_run]. rewrite Hd1. cbn [mbind option_bind fst snd]. rewrite Hd'.
  split_and!; [done| |done]. by rewrite fmap_cons, Hseq, Hmore.
Qed.

(** What waits is taken: after any run, as many takes as requests wait, no
    wall met and no fence in the way, take them all, each in its turn from the
    oldest, and leave none. *)
Theorem waiting_all_taken steps d taken :
  (N.of_nat (length steps) < u64_max)%N → dir_run ∅ steps = Some (d, taken) →
  ∃ d' more, dir_run d (repeat take_next (length (pending (names d)))) = Some (d', more)
    ∧ TurnRequest.seq <$> more = pending (names d) ∧ pending (names d') = [].
Proof.
  intros Hlen Hd. destruct (dir_ran steps d taken Hlen Hd) as (n & m & Hrep & Hn & _). by eapply take_all.
Qed.

(** ** A request an adopter writes *)
Lemma length_written steps : length (omap written steps) ≤ length steps.
Proof.
  induction steps as [|step steps IH]; simpl; [done|].
  destruct (written step); simpl; [by apply le_n_S|by apply Nat.le_le_succ_r].
Qed.
Section adopted.
  Context (what : string) (texts : list string) (after : option N).

(** A request of the attempt that stands. *)
Definition delivers (l : ListedRequest) : bool :=
  let r := ListedRequest.request l in
  ListedRequest.undropped l && is_none_or after (λ after, (after <? TurnRequest.seq r)%N)
  && bool_decide (TurnRequest.what r = what) && bool_decide (TurnRequest.prompt r ∈ texts).
Lemma adopted_find requests :
  adopted_delivery requests what texts after
  = match List.find delivers requests with
    | Some l => AdoptedDelivery.Delivered (TurnRequest.seq (ListedRequest.request l))
    | None => AdoptedDelivery.Write
    end.
Proof. done. Qed.
Lemma adopted_write requests :
  adopted_delivery requests what texts after = AdoptedDelivery.Write ↔ ∀ l, l ∈ requests → delivers l = false.
Proof.
  rewrite adopted_find. destruct (List.find delivers requests) as [l|] eqn:Hfind; split; try done.
  - apply List.find_some in Hfind as [Hin Hl]. intros Hall. apply list_elem_of_In in Hin.
    specialize (Hall _ Hin). congruence.
  - intros _ l Hl%list_elem_of_In. by apply (List.find_none _ _ Hfind).
Qed.
Lemma adopted_one requests x :
  x ∈ requests → delivers x = true → (∀ l, l ∈ requests → delivers l = true → l = x) →
  adopted_delivery requests what texts after = AdoptedDelivery.Delivered (TurnRequest.seq (ListedRequest.request x)).
Proof.
  intros Hx Hdel Honly. rewrite adopted_find. destruct (List.find delivers requests) as [l|] eqn:Hfind.
  - apply List.find_some in Hfind as [Hin Hl]. by rewrite (Honly l) by (by rewrite ?list_elem_of_In).
  - apply list_elem_of_In in Hx. by rewrite (List.find_none _ _ Hfind x Hx) in Hdel.
Qed.
Lemma adopted_row d n m r st :
  (n ≤ u64_max)%N → represents d n m → m !! TurnRequest.seq r = Some (r, st) → delivers (ListedRequest.mk st r) = true →
  (∀ s r' st', m !! s = Some (r', st') → s ≠ TurnRequest.seq r → delivers (ListedRequest.mk st' r') = false) →
  adopted_delivery (listed_requests d) what texts after = AdoptedDelivery.Delivered (TurnRequest.seq r).
Proof.
  intros Hn Hrep Hr Hdel Hothers. apply (adopted_one _ (ListedRequest.mk st r)); [by apply (listed_spec d n m)|done|].
  intros [st' r'] Hl%(listed_spec d n m) Hl'; [|done..]. simpl in *.
  destruct (decide (TurnRequest.seq r' = TurnRequest.seq r)) as [Heq|Hne].
  - rewrite Heq, Hr in Hl. by injection Hl as -> ->.
  - by rewrite (Hothers _ _ _ Hl Hne) in Hl'.
Qed.

(** C11: an adopted request is written once: when the directory of any run has
    none of the attempt, a writer that stops before its rename leaves it to be
    written, and the request its adopter then writes is the one every later
    adopter finds, waiting or taken. *)
Theorem adopted_request_once steps d taken text :
  (N.of_nat (S (length steps)) < u64_max)%N → dir_run ∅ steps = Some (d, taken) →
  adopted_delivery (listed_requests d) what texts after = AdoptedDelivery.Write →
  text ∈ texts → (∀ last_, after = Some last_ → (last_ < next_seq (names d))%N) →
  adopted_delivery (listed_requests (torn_write d text what)) what texts after = AdoptedDelivery.Write
  ∧ ∃ d', write_request d text what = Some (next_seq (names d), d')
      ∧ adopted_delivery (listed_requests d') what texts after = AdoptedDelivery.Delivered (next_seq (names d))
      ∧ ∀ after_wall may_take waiting d'', take_waiting d' after_wall may_take = Some (waiting, d'') →
          adopted_delivery (listed_requests d'') what texts after = AdoptedDelivery.Delivered (next_seq (names d)).
Proof.
  intros Hlen Hd Hnone Htext Hafter.
  destruct (dir_ran steps d taken) as (n & m & Hrep & Hn & Hran); [lia|done|].
  assert (n < u64_max)%N as Hlt.
  { pose proof (ran_issued _ _ _ Hran) as Heq. simpl in Heq. pose proof (length_written steps). lia. }
  rewrite (next_seq_spec d n m) in * by done. destruct (write_represents d n m text what Hlt Hrep) as (d' & Hd' & Hrep').
  assert (∀ s r st, m !! s = Some (r, st) → delivers (ListedRequest.mk st r) = false) as Hold.
  { intros s r st Hs. apply (proj1 (adopted_write _) Hnone), (listed_spec d n m); [done..|]. simpl.
    by rewrite (proj1 (rep_file _ _ _ Hrep _ _ _ Hs)). }
  set (r0 := numbered (n + 1) text what) in *.
  assert (∀ st, st ≠ RequestState.Dropped → delivers (ListedRequest.mk st r0) = true) as Hnew.
  { intros st Hst. unfold delivers, ListedRequest.undropped. simpl. rewrite (bool_decide_false _ Hst), !bool_decide_true by done.
    rewrite !andb_true_r. simpl. destruct after as [last_|]; [|done]. simpl. apply N.ltb_lt. by apply Hafter. }
  assert (∀ st s r st', s ≠ (n + 1)%N → <[(n + 1)%N := (r0, st)]> m !! s = Some (r, st') →
    delivers (ListedRequest.mk st' r) = false) as Hothers.
  { intros st s r st' Hne Hs. rewrite lookup_insert_ne in Hs by (by apply not_eq_sym). by eapply Hold. }
  split; [|exists d'; split; [done|]].
  { apply adopted_write. intros [st r] Hl%(listed_spec _ n m); [by eapply Hold|lia|apply torn_represents; [lia|done]]. }
  assert (adopted_delivery (listed_requests d') what texts after = AdoptedDelivery.Delivered (n + 1)) as Hfirst.
  { eapply (adopted_row d' (n + 1) _ r0 RequestState.Pending); [lia|done|by rewrite lookup_insert_eq|by apply Hnew|].
    intros s r st Hs Hne. by eapply Hothers. }
  split; [exact Hfirst|]. intros after_wall may_take waiting d'' Htake.
  assert (n + 1 ≤ u64_max)%N as Hle by lia.
  destruct (take_spec d' (n + 1) _ after_wall may_take Hle Hrep') as (waiting' & d2 & Htake' & Hspec).
  rewrite Htake in Htake'. injection Htake' as <- <-. destruct waiting as [| |r]; [by destruct Hspec as [-> _]..|].
  destruct Hspec as ((Hr & _) & _ & Hrep2). unfold waits in Hr.
  destruct (decide (TurnRequest.seq r = (n + 1)%N)) as [Heq|Hne].
  - rewrite Heq, lookup_insert_eq in Hr. injection Hr as <-. simpl in Hrep2. rewrite insert_insert_eq in Hrep2.
    eapply (adopted_row d'' (n + 1) _ r0 RequestState.Taken); [lia|done|by rewrite lookup_insert_eq|by apply Hnew|].
    intros s r st Hs Hne. by eapply Hothers.
  - pose proof (Hothers _ _ _ _ Hne Hr) as Hr'.
    eapply (adopted_row d'' (n + 1) _ r0 RequestState.Pending); [lia|done| |by apply Hnew|].
    + by rewrite lookup_insert_ne, lookup_insert_eq.
    + intros s r' st Hs Hne'. destruct (decide (TurnRequest.seq r = s)) as [<-|Hne2].
      * rewrite lookup_insert_eq in Hs. injection Hs as <- <-. exact Hr'.
      * rewrite lookup_insert_ne in Hs by done. by eapply Hothers.
Qed.
End adopted.

(** ** Whether a turn is awaited *)
Lemma greatest_spec (l : list N) :
  match greatest l with Some g => g ∈ l ∧ ∀ x, x ∈ l → (x ≤ g)%N | None => l = [] end.
Proof.
  destruct l as [|a l]; [done|]. cbn [greatest]. revert a. induction l as [|b l IH]; intros a; cbn [foldr].
  - split; [by left|]. intros x ->%list_elem_of_singleton. lia.
  - destruct (IH a) as [Hin Hle]. split.
    + destruct (N.max_spec b (foldr N.max a l)) as [[_ ->]|[_ ->]]; [|by right; left].
      apply elem_of_cons in Hin as [->|Hin]; [by left|by right; right].
    + intros x [->|[->|Hx]%elem_of_cons]%elem_of_cons; [|lia|].
      * specialize (Hle a ltac:(by left)). lia.
      * specialize (Hle x ltac:(by right)). lia.
Qed.
Section awaited.
  Context {P : Type} `{Payload P} `{!EqDecision P}.
  Implicit Types (events : list (RunEvent P)).

Definition started_turns events : list N :=
  omap (λ e, unsigned_of (RunEvent.payload e) "turn") (List.filter turn_started events).
Definition started_requests events : list N := omap request_of (List.filter turn_started events).
(** A turn started after the one the marker names. *)
Definition turn_runs events (mark : option TurnMark) : Prop :=
  ∃ mk turn, mark = Some mk ∧ turn ∈ started_turns events ∧ (TurnMark.turn mk < turn)%N.

Lemma awaited_spec listed events mark :
  turn_awaited listed events mark = true ↔
    turn_runs events mark
    ∨ ∃ l, l ∈ listed ∧ ListedRequest.state l ≠ RequestState.Dropped
        ∧ ∀ s, s ∈ started_requests events → (s < TurnRequest.seq (ListedRequest.request l))%N.
Proof.
  unfold turn_awaited. cbv zeta. fold (started_turns events) (started_requests events).
  pose proof (greatest_spec (started_turns events)) as Hturn. pose proof (greatest_spec (started_requests events)) as Hreq.
  assert (existsb (λ l, ListedRequest.undropped l
      && is_none_or (greatest (started_requests events)) (λ s, (s <? TurnRequest.seq (ListedRequest.request l))%N)) listed = true
    ↔ ∃ l, l ∈ listed ∧ ListedRequest.state l ≠ RequestState.Dropped
        ∧ ∀ s, s ∈ started_requests events → (s < TurnRequest.seq (ListedRequest.request l))%N) as Hex.
  { rewrite existsb_exists. setoid_rewrite <-list_elem_of_In. f_equiv. intros l. f_equiv. rewrite andb_true_iff.
    unfold ListedRequest.undropped. rewrite negb_true_iff, bool_decide_eq_false. f_equiv.
    destruct (greatest (started_requests events)) as [g|]; simpl.
    - destruct Hreq as [Hg Hle]. rewrite N.ltb_lt. split; [intros Hlt s Hs; specialize (Hle s Hs); lia|]. intros Hall. by apply Hall.
    - rewrite Hreq. split; [by intros _ s ?%elem_of_nil|done]. }
  assert (match mark, greatest (started_turns events) with Some mark, Some last => (TurnMark.turn mark <? last)%N | _, _ => false end = true
    ↔ turn_runs events mark) as Hruns.
  { unfold turn_runs. destruct mark as [mk|]; [|split; [done|by intros (? & ? & ? & _)]].
    destruct (greatest (started_turns events)) as [g|].
    - destruct Hturn as [Hg Hle]. rewrite N.ltb_lt. split; [by exists mk, g|]. intros (? & x & [= <-] & Hx & Hlt).
      specialize (Hle x Hx). lia.
    - rewrite Hturn. split; [done|]. by intros (? & x & _ & ?%elem_of_nil & _). }
  destruct (match mark with Some _ => _ | None => _ end).
  - split; [intros _; left; by apply Hruns|done].
  - rewrite Hex. split; [by right|]. intros [Hr%Hruns|?]; done.
Qed.

Lemma sorted_last (l : list TurnRequest) r :
  last l = Some r → StronglySorted N.lt (TurnRequest.seq <$> l) → ∀ r', r' ∈ l → (TurnRequest.seq r' ≤ TurnRequest.seq r)%N.
Proof.
  intros (l' & ->)%last_Some. rewrite fmap_app. intros (Hlt & _ & _)%StronglySorted_app r' [Hr'|Hr'%list_elem_of_singleton]%elem_of_app.
  - apply N.lt_le_incl, Hlt; [by apply list_elem_of_fmap_2|by left].
  - by subst.
Qed.
(** C13: a turn is awaited as the comment says: of a session whose wrapper takes
    its requests in order and whose turns start from requests it took, exactly
    when a turn runs that the idle marker does not name yet, when a request
    waits, or when the last request taken started no turn yet. *)
Theorem turn_awaited_in_order steps d taken events mark :
  (N.of_nat (length steps) < u64_max)%N → Forall in_order steps → dir_run ∅ steps = Some (d, taken) →
  (∀ s, s ∈ started_requests events → s ∈ TurnRequest.seq <$> taken) →
  turn_awaited (listed_requests d) events mark = true ↔
    turn_runs events mark ∨ pending (names d) ≠ []
    ∨ ∃ r, last taken = Some r ∧ ∀ s, s ∈ started_requests events → (s < TurnRequest.seq r)%N.
Proof.
  intros Hlen Hin Hd Hstarted. destruct (dir_ran steps d taken Hlen Hd) as (n & m & Hrep & Hn & [_ _ Htaken _ Horder]).
  destruct (Horder Hin) as [Hsorted Hless]. simpl in *. rewrite awaited_spec. f_equiv. split.
  - intros (l & Hl%(listed_spec d n m) & Hdropped & Hlt); [|done..].
    destruct l as [st r]; simpl in *. destruct st; [left|right|done].
    + intros Hnone. assert (TurnRequest.seq r ∈ pending (names d)) as Hr by (apply (elem_of_pending d n m); eauto).
      rewrite Hnone in Hr. by apply elem_of_nil in Hr.
    + apply Htaken in Hl. destruct (last taken) as [r'|] eqn:Hlast; [|by apply last_None in Hlast as ->; apply elem_of_nil in Hl].
      pose proof (sorted_last taken r' Hlast Hsorted r Hl) as Hle.
      assert (∀ s, s ∈ started_requests events → (s < TurnRequest.seq r')%N) as Hall by (intros s Hs; specialize (Hlt s Hs); lia).
      by exists r'.
  - intros [Hne|(r & Hlast & Hlt)].
    + destruct (pending (names d)) as [|s l] eqn:Hpending; [done|].
      destruct (proj1 (elem_of_pending d n m s Hn Hrep)) as [r Hr]; [rewrite Hpending; by left|].
      exists (ListedRequest.mk RequestState.Pending r). pose proof (proj1 (rep_file _ _ _ Hrep _ _ _ Hr)) as Hseq.
      split_and!; [apply (listed_spec d n m); [done..|]; simpl; by rewrite Hseq|done|]. simpl.
      intros s' (r' & -> & Hr')%Hstarted%list_elem_of_fmap. apply Hless; [done|]. unfold waits. by rewrite Hseq.
    + exists (ListedRequest.mk RequestState.Taken r). split_and!; [|done|done]. apply (listed_spec d n m); [done..|].
      simpl. apply Htaken. by eapply last_Some_elem_of.
Qed.

(** The idle marker reads back as the turn it is of. *)
Lemma marker_reads_back `{!PayloadLaws P} session_id (mark : TurnMark) :
  TurnMark.parse (idle_marker (P := P) session_id mark) = Some mark.
Proof.
  destruct mark as [turn outcome failure denials]. unfold TurnMark.parse, idle_marker, unsigned_of, number_of, as_enum.
  repeat (rewrite field_object; cbn [List.find String.eqb Ascii.eqb Bool.eqb fst snd fmap option_fmap option_map mbind option_bind TurnMark.turn TurnMark.outcome TurnMark.failure TurnMark.permission_denials]).
  rewrite !as_number_of_number, as_text_of_text. cbn [mbind option_bind]. rewrite parse_as_str. cbn [mbind option_bind].
  rewrite !(proj2 (Z.leb_le _ _)) by lia. cbn [unwrap_or]. rewrite !N2Z.id.
  destruct failure as [f|]; cbn [or_null]; [rewrite as_text_of_text; cbn [mbind option_bind]; by rewrite parse_as_str|by rewrite as_text_null].
Qed.
End awaited.

(** ** The calls a wall stops, and their retries *)
Module LoggedTurn.
Record t : Set := mk {
  number : N;
  request : option N;
  what : string;
  ended : option (TurnOutcome * option TurnFailure);
}.
Definition retry (self : t) : bool := bool_decide (what self = PROVIDER_RETRY).
Definition met_wall (self : t) : bool :=
  is_some_and (ended self) (λ e, bool_decide (e.1 = TurnOutcome.Failed) && is_some_and e.2 failure_at_wall).
(** It ended and not at the wall, so it read what it was sent. *)
Definition went_on (self : t) : bool := is_some (ended self) && negb (met_wall self).
End LoggedTurn.
Abbreviation LoggedTurn := LoggedTurn.t.

Section log.
  Context {P : Type} `{Payload P} `{!PayloadLaws P} `{!EqDecision P}.
  Implicit Types (e : RunEvent P) (events : list (RunEvent P)) (turn : LoggedTurn) (turns : list LoggedTurn).

(** The events of a session's log: [turn_started] and [turn_finished] of each
    turn, the second only when it ended, with others of no turn anywhere. *)
Definition starts e turn : Prop :=
  turn_started e = true ∧ at_key e "turn" = of_number (Z.of_N (LoggedTurn.number turn))
  ∧ request_of e = LoggedTurn.request turn ∧ is_retry e = LoggedTurn.retry turn.
Definition finishes e turn (outcome : TurnOutcome) (failure : option TurnFailure) : Prop :=
  RunEvent.is_kind e EventKind.TurnFinished = true ∧ at_key e "turn" = of_number (Z.of_N (LoggedTurn.number turn))
  ∧ text_of (RunEvent.payload e) "outcome" = Some (as_str outcome)
  ∧ text_of (RunEvent.payload e) "failure" = as_str <$> failure.
Definition of_no_turn e : Prop := turn_started e = false ∧ RunEvent.is_kind e EventKind.TurnFinished = false.
Inductive logged : list (RunEvent P) → list LoggedTurn → Prop :=
| logged_nil : logged [] []
| logged_other e events turns : of_no_turn e → logged events turns → logged (e :: events) turns
| logged_open e events turn turns :
    starts e turn → LoggedTurn.ended turn = None → logged events turns → logged (e :: events) (turn :: turns)
| logged_ended e between last_ events turn turns outcome failure :
    starts e turn → LoggedTurn.ended turn = Some (outcome, failure) → Forall of_no_turn between →
    finishes last_ turn outcome failure → logged events turns →
    logged (e :: between ++ last_ :: events) (turn :: turns).

(** What the turns say of a request. *)
Fixpoint reads (turns : list LoggedTurn) : bool :=
  match turns with
  | [] => false
  | turn :: turns =>
      if LoggedTurn.met_wall turn then
        match turns with
        | next :: _ => LoggedTurn.retry next && reads turns
        | [] => false
        end
      else LoggedTurn.went_on turn
  end.
Fixpoint read_by (turns : list LoggedTurn) (seq : N) : bool :=
  match turns with
  | [] => false
  | turn :: rest =>
      if bool_decide (LoggedTurn.request turn = Some seq) then reads turns else read_by rest seq
  end.

Lemma one_kind e : turn_started e = true → RunEvent.is_kind e EventKind.TurnFinished = true → False.
Proof.
  unfold turn_started, RunEvent.is_kind, RecordedKind.is_kind.
  intros H1 H2. bool_split. congruence.
Qed.
Lemma turn_number_inj (a b : N) : of_number (P := P) (Z.of_N a) = of_number (Z.of_N b) → a = b.
Proof.
  intros Heq. apply (f_equal as_number) in Heq. rewrite !as_number_of_number in Heq. injection Heq. lia.
Qed.
Lemma finish_of_number e turn outcome failure k :
  finishes e turn outcome failure →
  finish_of e (of_number (Z.of_N k)) = bool_decide (LoggedTurn.number turn = k).
Proof.
  intros (Hkind & Hturn & _). unfold finish_of. rewrite Hkind, Hturn. simpl.
  apply bool_decide_ext. split; [apply turn_number_inj|by intros ->].
Qed.
Lemma finish_of_other e value : RunEvent.is_kind e EventKind.TurnFinished = false → finish_of e value = false.
Proof. unfold finish_of. by intros ->. Qed.
Lemma finish_of_start e value : turn_started e = true → finish_of e value = false.
Proof.
  intros Hstart. apply finish_of_other. destruct (RunEvent.is_kind e _) eqn:Hkind; [|done].
  by destruct (one_kind e Hstart Hkind).
Qed.
Lemma walled_met turn outcome failure :
  LoggedTurn.ended turn = Some (outcome, failure) →
  walled (Some (as_str outcome)) (as_str <$> failure) = LoggedTurn.met_wall turn.
Proof.
  intros Hended. unfold walled, LoggedTurn.met_wall. rewrite Hended. simpl. f_equal.
  - by destruct outcome.
  - destruct failure as [f|]; [|done]. simpl. by destruct f.
Qed.

(** No turn of the log, no event of it. *)
Lemma no_finish events turns k :
  logged events turns → k ∉ (LoggedTurn.number <$> turns) →
  Forall (λ e, finish_of e (of_number (Z.of_N k)) = false) events.
Proof.
  induction 1 as [|e events turns [_ Ho] Hl IH|e events turn turns (Hs & _) _ Hl IH
                 |e between last_ events turn turns outcome failure (Hs & _) _ Hb Hf Hl IH];
    rewrite ?fmap_cons, ?not_elem_of_cons; intros Hk.
  - constructor.
  - constructor; [by apply finish_of_other|by apply IH].
  - constructor; [by apply finish_of_start|apply IH, Hk].
  - constructor; [by apply finish_of_start|]. apply Forall_app. split.
    + eapply Forall_impl; [exact Hb|]. intros e' [_ Ho]. by apply finish_of_other.
    + constructor; [|apply IH, Hk]. erewrite finish_of_number by done. apply bool_decide_eq_false. intros Heq. destruct Hk; congruence.
Qed.
Lemma not_started e turn outcome failure : finishes e turn outcome failure → turn_started e = false.
Proof.
  intros (Hkind & _). destruct (turn_started e) eqn:Hs; [|done]. by destruct (one_kind e Hs Hkind).
Qed.
(** The next turn that starts. *)
Lemma next_start events turns :
  logged events turns →
  match turns with
  | [] => position turn_started events = None
  | turn :: _ => ∃ at_ e rest, position turn_started events = Some at_ ∧ skipn at_ events = e :: rest
      ∧ starts e turn ∧ logged (e :: rest) turns
  end.
Proof.
  induction 1 as [|e events turns [Ho _] Hl IH|e events turn turns Hs Hn Hl IH
                 |e between last_ events turn turns outcome failure Hs He Hb Hf Hl IH].
  - done.
  - simpl. rewrite Ho. destruct turns as [|turn turns]; [by rewrite IH|].
    destruct IH as (at_ & e' & rest & Hat & Hskip & Hs & Hlog). exists (S at_), e', rest. by rewrite Hat.
  - exists 0, e, events. simpl. destruct Hs as (Hs & Hrest). rewrite Hs. split_and!; [done..|].
    by apply logged_open.
  - exists 0, e, (between ++ last_ :: events). simpl. pose proof Hs as (Hst & _). rewrite Hst. split_and!; [done..|].
    by eapply logged_ended.
Qed.
Lemma finished_at e events turn turns outcome failure :
  logged (e :: events) (turn :: turns) → LoggedTurn.ended turn = Some (outcome, failure) → starts e turn →
  ∃ at_ last_ rest, position (λ e', finish_of e' (at_key e "turn")) (e :: events) = Some at_
    ∧ skipn at_ (e :: events) = last_ :: rest ∧ finishes last_ turn outcome failure ∧ logged rest turns.
Proof.
  intros Hl Hended Hs. inversion Hl as [|? ? ? [Ho _]|? ? ? ? _ Hnone
    |? between last_ rest ? ? o f _ Hended' Hb Hf Hrest]; subst; [|congruence|].
  { pose proof (proj1 Hs). congruence. }
  rewrite Hended in Hended'. injection Hended' as <- <-.
  exists (S (length between)), last_, rest. split_and!; [|by rewrite skipn_cons, drop_app_length|done..].
  destruct Hs as (Hstart & Hturn & _). apply position_first. exists (e :: between), last_, rest.
  split_and!; [done..| |].
  - rewrite Hturn. erewrite finish_of_number by done. by apply bool_decide_eq_true.
  - constructor; [by apply finish_of_start|]. eapply Forall_impl; [exact Hb|]. intros e' [_ Ho]. by apply finish_of_other.
Qed.
Lemma never_finished e events turn turns :
  logged (e :: events) (turn :: turns) → LoggedTurn.ended turn = None → starts e turn →
  LoggedTurn.number turn ∉ (LoggedTurn.number <$> turns) →
  position (λ e', finish_of e' (at_key e "turn")) (e :: events) = None.
Proof.
  intros Hl Hended Hs Hnew. apply position_None. destruct Hs as (Hstart & Hturn & _). rewrite Hturn.
  inversion Hl as [|? ? ? [Ho _]|? ? ? ? _ _ Hrest|? ? ? ? ? ? ? ? _ Hended']; subst; [congruence| |congruence].
  constructor; [by apply finish_of_start|]. by eapply no_finish.
Qed.
Lemma read_from_turns : ∀ turns turn e events fuel,
  logged (e :: events) (turn :: turns) → starts e turn → NoDup (LoggedTurn.number <$> turn :: turns) →
  S (length turns) < fuel → read_from fuel (e :: events) = Some (reads (turn :: turns)).
Proof.
  induction turns as [|next turns IH]; intros turn e events fuel Hl Hs Hnd Hfuel;
    (destruct fuel as [|fuel]; [simpl in Hfuel; lia|]); rewrite fmap_cons in Hnd; apply NoDup_cons in Hnd as [Hnew Hnd];
    cbn [read_from]; (destruct (LoggedTurn.ended turn) as [[outcome failure]|] eqn:Hended;
    [|rewrite (never_finished e events turn _) by done; cbn [reads]; unfold LoggedTurn.met_wall, LoggedTurn.went_on; by rewrite Hended]);
    destruct (finished_at e events turn _ outcome failure Hl Hended Hs) as (at_ & last_ & rest & -> & -> & Hf & Hrest);
    pose proof Hf as (_ & _ & Hout & Hfail); rewrite Hout, Hfail, (walled_met turn) by done; cbn [reads];
    (destruct (LoggedTurn.met_wall turn) eqn:Hwall; cbn [negb]; [|unfold LoggedTurn.went_on; by rewrite Hwall, Hended]).
  - cbn [position]. rewrite (not_started _ _ _ _ Hf), (next_start _ _ Hrest). done.
  - destruct (next_start _ _ Hrest) as (at' & e' & rest' & Hat & Hskip & Hs' & Hl').
    cbn [position]. rewrite (not_started _ _ _ _ Hf), Hat. cbn [fmap option_fmap option_map skipn]. rewrite Hskip.
    cbn [head is_some_and]. rewrite (proj2 (proj2 (proj2 Hs'))).
    destruct (LoggedTurn.retry next); [|done]. simpl in Hfuel. by apply IH; [..|lia].
Qed.

(** The first turn that took [seq]. *)
Definition took_at (seq : N) e : bool := turn_started e && bool_decide (request_of e = Some seq).
Lemma took_starts e turn seq : starts e turn → took_at seq e = bool_decide (LoggedTurn.request turn = Some seq).
Proof. intros (Hs & _ & Hr & _). unfold took_at. by rewrite Hs, Hr. Qed.
Lemma first_taker events turns seq :
  logged events turns →
  match position (took_at seq) events with
  | None => read_by turns seq = false
  | Some at_ => ∃ e rest turn later, skipn at_ events = e :: rest ∧ starts e turn ∧ logged (e :: rest) (turn :: later)
      ∧ read_by turns seq = reads (turn :: later) ∧ turn :: later `suffix_of` turns
  end.
Proof.
  assert (∀ e, turn_started e = false → took_at seq e = false) as Hother by (unfold took_at; by intros e ->).
  assert (∀ e turn events turns before,
    Forall (λ e, took_at seq e = false) before →
    starts e turn → logged (e :: before ++ events) (turn :: turns) →
    match position (took_at seq) events with
    | None => read_by turns seq = false
    | Some at_ => ∃ e rest turn later, skipn at_ events = e :: rest ∧ starts e turn ∧ logged (e :: rest) (turn :: later)
      ∧ read_by turns seq = reads (turn :: later) ∧ turn :: later `suffix_of` turns
    end →
    match position (took_at seq) (e :: before ++ events) with
    | None => read_by (turn :: turns) seq = false
    | Some at_ => ∃ e' rest turn' later, skipn at_ (e :: before ++ events) = e' :: rest ∧ starts e' turn' ∧ logged (e' :: rest) (turn' :: later)
      ∧ read_by (turn :: turns) seq = reads (turn' :: later) ∧ turn' :: later `suffix_of` turn :: turns
    end) as Hturn.
  { intros e turn es ts before Hb Hs Hl IH. cbn [position]. rewrite (took_starts e turn) by done.
    cbn [read_by]. destruct (bool_decide (LoggedTurn.request turn = Some seq)) eqn:Htook.
    - exists e, (before ++ es), turn, ts. by rewrite drop_0.
    - assert (position (took_at seq) (before ++ es) = (λ at_, length before + at_) <$> position (took_at seq) es) as ->.
      { clear -Hb. induction Hb as [|e before He Hb IH]; simpl; [by destruct (position _ es)|]. rewrite He, IH.
        by destruct (position _ es). }
      destruct (position (took_at seq) es) as [at_|]; simpl; [|done].
      destruct IH as (e' & rest & turn' & later & Hskip & Hs' & Hl' & Hread & Hsuf). exists e', rest, turn', later.
      split_and!; [|done..|by apply suffix_cons_r]. by rewrite skipn_app, skipn_all2, Nat.add_comm, Nat.add_sub by lia. }
  induction 1 as [|e events turns [Ho _] Hl IH|e events turn turns Hs Hn Hl IH
                 |e between last_ events turn turns outcome failure Hs He Hb Hf Hl IH].
  - done.
  - cbn [position]. rewrite Hother by done. destruct (position (took_at seq) events) as [at_|]; simpl; done.
  - apply (Hturn e turn events turns []); [constructor|done|by apply logged_open|done].
  - rewrite cons_middle, app_assoc. apply (Hturn e turn events turns (between ++ [last_])).
    + apply Forall_app. split; [|constructor; [|done]; by apply Hother; eapply not_started].
      eapply Forall_impl; [exact Hb|]. intros e' [Ho _]. by apply Hother.
    + done.
    + rewrite <-app_assoc. by eapply logged_ended.
    + done.
Qed.
Lemma logged_length events turns : logged events turns → length turns ≤ length events.
Proof. induction 1; simpl; rewrite ?length_app; simpl; lia. Qed.
Lemma request_read_turns events turns seq :
  logged events turns → NoDup (LoggedTurn.number <$> turns) → request_read events seq = Some (read_by turns seq).
Proof.
  intros Hl Hnd. pose proof (first_taker events turns seq Hl) as Hfirst. unfold request_read.
  change (λ e, turn_started e && bool_decide (request_of e = Some seq)) with (took_at seq).
  destruct (position (took_at seq) events) as [at_|]; [|by rewrite Hfirst].
  destruct Hfirst as (e & rest & turn & later & Hskip & Hs & Hl' & -> & before & ->). rewrite Hskip.
  apply read_from_turns; [done..| |].
  - rewrite fmap_app in Hnd. by apply NoDup_app in Hnd as (_ & _ & Hnd).
  - apply logged_length in Hl'. assert (length (e :: rest) ≤ length events); [|simpl in *; lia].
    rewrite <-Hskip, length_skipn. lia.
Qed.

(** The call a retry makes again. *)
Definition call_of (turns : list LoggedTurn) : option N :=
  find_last (λ turn, negb (LoggedTurn.retry turn)) turns ≫= LoggedTurn.request.
Lemma started_of events turns : logged events turns → Forall2 starts (List.filter turn_started events) turns.
Proof.
  assert (∀ l, Forall of_no_turn l → List.filter turn_started l = []) as Hnone.
  { induction 1 as [|e l [Ho _] _ IH]; simpl; [done|]. by rewrite Ho. }
  induction 1 as [|e events turns [Ho _] Hl IH|e events turn turns Hs Hn Hl IH
                 |e between last_ events turn turns outcome failure Hs He Hb Hf Hl IH]; simpl.
  - constructor.
  - by rewrite Ho.
  - rewrite (proj1 Hs). by constructor.
  - rewrite (proj1 Hs), List.filter_app, Hnone by done. simpl. rewrite (not_started _ _ _ _ Hf). by constructor.
Qed.
Lemma first_call_turns started turns :
  Forall2 starts started turns → first_call started = List.find (λ turn, negb (LoggedTurn.retry turn)) turns ≫= LoggedTurn.request.
Proof.
  induction 1 as [|e turn started turns (_ & _ & Hr & Hw) _ IH]; simpl; [done|]. rewrite Hw, Hr.
  by destruct (LoggedTurn.retry turn).
Qed.
Lemma request_to_retry_turns events turns : logged events turns → request_to_retry events = call_of turns.
Proof.
  intros Hl. unfold request_to_retry, call_of, find_last. apply first_call_turns.
  rewrite filter_rev, !rev_alt. by apply Forall2_reverse, started_of.
Qed.

Lemma call_of_retries before call retries :
  LoggedTurn.retry call = false → Forall (λ turn, LoggedTurn.retry turn = true) retries →
  call_of (before ++ call :: retries) = LoggedTurn.request call.
Proof.
  intros Hcall Hretries. unfold call_of.
  assert (find_last (λ turn, negb (LoggedTurn.retry turn)) (before ++ call :: retries) = Some call) as ->; [|done].
  induction retries as [|retry retries IH] using rev_ind.
  - rewrite find_last_app. simpl. by rewrite Hcall.
  - apply Forall_app in Hretries as [Hretries Hlast]. inversion Hlast as [|? ? Hretry]; subst.
    rewrite app_comm_cons, app_assoc, find_last_app. simpl. rewrite Hretry. by apply IH.
Qed.
Lemma read_by_first before turns seq :
  Forall (λ turn, LoggedTurn.request turn ≠ Some seq) before → read_by (before ++ turns) seq = read_by turns seq.
Proof. induction 1 as [|turn before Ht _ IH]; simpl; [done|]. by rewrite bool_decide_false. Qed.
Lemma reads_retries call retries :
  Forall (λ turn, LoggedTurn.retry turn = true) retries →
  Forall (λ turn, LoggedTurn.met_wall turn = true) (removelast (call :: retries)) →
  reads (call :: retries) = LoggedTurn.went_on (List.last retries call).
Proof.
  intros Hretries. revert call. induction Hretries as [|retry retries Hretry _ IH]; intros call Hwalls.
  - simpl. unfold LoggedTurn.went_on. destruct (LoggedTurn.met_wall call); [by rewrite andb_false_r|done].
  - inversion Hwalls as [|? ? Hcall Hrest]; subst.
    change (reads (call :: retry :: retries)) with (if LoggedTurn.met_wall call
      then LoggedTurn.retry retry && reads (retry :: retries) else LoggedTurn.went_on call).
    rewrite Hcall, Hretry, andb_true_l, IH by done.
    f_equal. clear. revert retry call. induction retries as [|x l IH]; intros retry call; [done|]. simpl in *. by destruct l.
Qed.

(** C12: a call a wall stopped is made again and read once: after a call whose
    turn met the provider's wall and retries that met it again, the next retry
    makes that call again and no retry of a retry; and the call's request is
    read exactly when the last of these turns ended, and not at the wall. *)
Theorem retried_call_read events before call retries seq :
  logged events (before ++ call :: retries) →
  NoDup (LoggedTurn.number <$> before ++ call :: retries) →
  LoggedTurn.retry call = false → LoggedTurn.request call = Some seq →
  Forall (λ turn, LoggedTurn.request turn ≠ Some seq) before →
  Forall (λ turn, LoggedTurn.retry turn = true) retries →
  Forall (λ turn, LoggedTurn.met_wall turn = true) (removelast (call :: retries)) →
  request_to_retry events = Some seq
  ∧ request_read events seq = Some (LoggedTurn.went_on (List.last retries call)).
Proof.
  intros Hl Hnd Hcall Hseq Hbefore Hretries Hwalls. split.
  - by rewrite (request_to_retry_turns _ _ Hl), call_of_retries.
  - rewrite (request_read_turns _ _ _ Hl Hnd), read_by_first by done. cbn [read_by].
    by rewrite bool_decide_true, reads_retries.
Qed.

(** The turn looked at is one that started, so the next look is at fewer. *)
Lemma read_from_total fuel : ∀ e events,
  turn_started e = true → S (length events) < fuel → is_Some (read_from fuel (e :: events)).
Proof.
  induction fuel as [|fuel IH]; intros e events Hs Hfuel; [lia|]. cbn [read_from].
  destruct (position _ (e :: events)) as [at_|] eqn:Hat; [|by eexists].
  assert (∃ k, at_ = S k) as [k ->].
  { cbn [position] in Hat. rewrite finish_of_start in Hat by done. destruct (position _ events); [|done].
    injection Hat as <-. by eexists. }
  cbn [skipn]. destruct (skipn k events) as [|f rest] eqn:Hskip; [by eexists|].
  destruct (walled _ _); simpl negb; cbv iota; [|by eexists].
  destruct (position turn_started (f :: rest)) as [next|] eqn:Hnext; [|by eexists].
  apply position_first in Hnext as (others & e' & later & Heq & Hlen & Hstart & _).
  rewrite Heq, <-Hlen, drop_app_length. cbn [head is_some_and]. destruct (is_retry e'); [|by eexists].
  apply IH; [done|]. apply (f_equal length) in Heq, Hskip. rewrite length_app in Heq. rewrite length_skipn in Hskip. simpl in *. lia.
Qed.
(** Looking whether a request was read ends, whatever the events are. *)
Theorem request_read_ends events seq : is_Some (request_read events seq).
Proof.
  unfold request_read. destruct (position _ events) as [at_|] eqn:Hat; [|by eexists].
  apply position_first in Hat as (before & e & after & -> & <- & Htook & _).
  apply andb_true_iff in Htook as [Hs _]. rewrite drop_app_length. apply read_from_total; [done|].
  rewrite length_app. simpl. lia.
Qed.
End log.

(** ** Concrete sessions *)
Module TurnSamples.
Import EventPayload.
#[global] Instance payload_eq_dec : EqDecision t.
Proof.
  unfold EqDecision, Decision. fix go 1. intros [|a|a|a|a|a] [|b|b|b|b|b]; try (right; discriminate); [by left|..].
  1-3: destruct (decide (a = b)) as [->|]; [by left|right; congruence].
  - destruct (List.list_eq_dec go a b) as [->|]; [by left|right; congruence].
  - assert (∀ x y : string * t, {x = y} + {x ≠ y}) as pair_eq.
    { intros [k x] [l y]. destruct (decide (k = l)) as [->|]; [|right; congruence].
      destruct (go x y) as [->|]; [by left|right; congruence]. }
    destruct (List.list_eq_dec pair_eq a b) as [->|]; [by left|right; congruence].
Defined.
(** A session that meets a wall: the answer written meanwhile waits behind the
    retry. *)
Definition session : list TurnStep :=
  [Write "go" "start"; Take false (λ _, true); Torn "an answer" "answer of ask 7"; Write "an answer" "answer of ask 7";
   Take true (λ _, true); Write "go" PROVIDER_RETRY; Take true (λ _, true); Take false (λ _, true); Prepare].
Definition served : list TurnStep :=
  [Write "go" "start"; Write "an answer" "answer of ask 7"; Take false (λ _, true); Exit; Take false (λ _, false)].
Definition turn_event (kind : EventKind) (fields : list (string * t)) : RunEvent t :=
  RunEvent.mk (EventId.new 1) None None (Some (RunId.wrap "r")) (RecordedKind.Known kind) (Object fields) "" None.
Definition turn_starts (turn request : Z) (what : string) : RunEvent t :=
  turn_event EventKind.TurnStarted [("turn", Number turn); ("request", Number request); ("what", Text what)].
Definition turn_ends (turn : Z) (outcome : string) (failure : t) : RunEvent t :=
  turn_event EventKind.TurnFinished [("turn", Number turn); ("outcome", Text outcome); ("failure", failure)].
Definition answered_call : LoggedTurn :=
  LoggedTurn.mk 1 (Some 2%N) "answer of ask 7" (Some (TurnOutcome.Failed, Some TurnFailure.UsageLimit)).
Definition its_retry : LoggedTurn := LoggedTurn.mk 2 (Some 3%N) PROVIDER_RETRY (Some (TurnOutcome.Succeeded, None)).
Definition log : list (RunEvent t) :=
  [turn_starts 1 2 "answer of ask 7"; turn_event EventKind.TurnRequested [];
   turn_ends 1 "failed" (Text "usage_limit"); turn_event EventKind.TurnRequested [];
   turn_starts 2 3 PROVIDER_RETRY; turn_ends 2 "succeeded" Null].
Lemma log_turns : logged log [answered_call; its_retry].
Proof.
  apply (logged_ended _ [turn_event EventKind.TurnRequested []] _ _ _ _ TurnOutcome.Failed (Some TurnFailure.UsageLimit));
    [repeat split|done|by repeat constructor|repeat split|].
  apply logged_other; [by split|].
  apply (logged_ended _ [] _ [] _ _ TurnOutcome.Succeeded None); [repeat split|done|constructor|repeat split|constructor].
Qed.
End TurnSamples.
Import TurnSamples.

Lemma names_read_back_witness :
  (12 ≤ u64_max)%N ∧ request_state "request-000012.taken.json" = Some (12%N, RequestState.Taken)
  ∧ answered_ask "answer of ask 7" = Some 7%N.
Proof.
  assert (12 ≤ u64_max)%N as Hseq by (vm_compute; discriminate).
  destruct (names_read_back 12 RequestState.Taken (AskId.new 7) Hseq) as (Hstate & _ & _ & Hask & _);
    [vm_compute; split; discriminate|]. split_and!; [exact Hseq|exact Hstate|exact Hask].
Defined.
Lemma turns_refine_table_witness :
  ∃ d n m, dir_run ∅ session = Some (d, [TurnRequest.mk 1 "start" "go"; TurnRequest.mk 3 PROVIDER_RETRY "go";
                                        TurnRequest.mk 2 "answer of ask 7" "an answer"])
    ∧ table_run (0%N, ∅) session [TurnRequest.mk 1 "start" "go"; TurnRequest.mk 3 PROVIDER_RETRY "go";
                                  TurnRequest.mk 2 "answer of ask 7" "an answer"] (n, m).
Proof.
  destruct (turns_refine_table session) as (d & taken & n & m & Hd & Hrun & _); [vm_compute; reflexivity|].
  exists d, n, m. assert (snd <$> dir_run ∅ session = Some taken) as Htaken by (by rewrite Hd).
  vm_compute in Htaken. injection Htaken as <-. by split.
Defined.
Lemma requests_taken_once_witness :
  ∃ d taken, dir_run ∅ session = Some (d, taken) ∧ TurnRequest.seq <$> taken = [1; 3; 2]%N
    ∧ NoDup (TurnRequest.seq <$> taken).
Proof.
  destruct (dir_run ∅ session) as [[d taken]|] eqn:Hd; [|vm_compute in Hd; discriminate Hd].
  destruct (requests_taken_once session d taken) as [Honce _]; [vm_compute; reflexivity|exact Hd|].
  exists d, taken. split; [done|]. split; [|exact Honce].
  apply (f_equal (fmap snd)) in Hd. vm_compute in Hd. injection Hd as <-. reflexivity.
Defined.
Lemma waiting_all_taken_witness :
  ∃ d d' more, dir_run ∅ served = Some (d, [TurnRequest.mk 1 "start" "go"])
    ∧ dir_run d [take_next] = Some (d', more) ∧ TurnRequest.seq <$> more = [2%N] ∧ pending (names d') = [].
Proof.
  destruct (dir_run ∅ served) as [[d taken]|] eqn:Hd; [|vm_compute in Hd; discriminate Hd].
  destruct (waiting_all_taken served d taken) as (d' & more & Hrun & Hmore & Hnone); [vm_compute; reflexivity|exact Hd|].
  exists d, d', more. vm_compute in Hd. injection Hd as <- <-.
  split; [reflexivity|]. split; [exact Hrun|]. split; [|exact Hnone]. rewrite Hmore. vm_compute. reflexivity.
Defined.
Lemma turn_awaited_in_order_witness :
  ∃ d taken, dir_run ∅ served = Some (d, taken)
    ∧ turn_awaited (listed_requests d) [turn_starts 1 1 "start"]
        (Some (TurnMark.mk 1 TurnOutcome.Succeeded None 0)) = true.
Proof.
  destruct (dir_run ∅ served) as [[d taken]|] eqn:Hd; [|vm_compute in Hd; discriminate Hd].
  exists d, taken. split; [done|].
  apply (turn_awaited_in_order served d taken); [vm_compute; reflexivity|by repeat constructor|exact Hd| |].
  - vm_compute in Hd. injection Hd as <- <-. by intros s.
  - right. left. vm_compute in Hd. injection Hd as <- <-. vm_compute. discriminate.
Defined.
Lemma adopted_request_once_witness :
  ∃ d, snd <$> dir_run ∅ served = Some [TurnRequest.mk 1 "start" "go"]
    ∧ fst <$> dir_run ∅ served = Some d
    ∧ adopted_delivery (listed_requests (torn_write d "fix it" "revise")) "revise" ["fix it"] (Some 2%N)
      = AdoptedDelivery.Write.
Proof.
  destruct (dir_run ∅ served) as [[d taken]|] eqn:Hd; [|vm_compute in Hd; discriminate Hd].
  exists d. split; [vm_compute in Hd; injection Hd as <- <-; reflexivity|]. split; [reflexivity|].
  apply (adopted_request_once "revise" ["fix it"] (Some 2%N) served d taken "fix it");
    [vm_compute; reflexivity|exact Hd| |by left|]; vm_compute in Hd; injection Hd as <- <-.
  - vm_compute. reflexivity.
  - intros last_ [= <-]. vm_compute. reflexivity.
Defined.
Lemma retried_call_read_witness :
  logged log [answered_call; its_retry] ∧ request_to_retry log = Some 2%N ∧ request_read log 2 = Some true.
Proof.
  split; [exact log_turns|].
  apply (retried_call_read log [] answered_call [its_retry] 2 log_turns); [|by repeat constructor..].
  apply (bool_decide_unpack _). vm_compute. exact I.
Defined.
End TurnsProofs.
